(* ===== verification/_CoqProject ===== *)
-Q . S2P
Prelude.v
Containers.v
ByteArray.v
ByteArrayRep.v
ByteIO.v
ByteArraySpec.v
Codec.v
CodecSpec.v
Timer.v
TimerSpec.v
Stream.v
StreamSpec.v
Http.v
HttpSpec.v
HttpParser.v
HttpParserSpec.v
HttpSession.v
HttpSessionSpec.v
HttpConnection.v
HttpConnectionSpec.v
Fiber.v
Scheduler.v
SchedulerSpec.v
IOManager.v
IOManagerSpec.v
Hook.v
HookSpec.v
Servlet.v
ServletSpec.v
Address.v
Ragel.v
RagelSpec.v
RagelRun.v
Digits.v
Http11Table.v
HttpClientTable.v
UriTable.v
Http11Parser.v
Http11Spec.v
Http11Head.v
Http11Request.v
HttpWire.v
HttpClientParser.v
HttpClientSpec.v
HttpClientHead.v
HttpClientResponse.v
HttpClientWire.v
Uri.v
UriSpec.v
Yaml.v
Config.v
ConfigSpec.v
Thread.v
ThreadSpec.v
Socket.v
SocketSpec.v
TcpServer.v
TcpServerSpec.v
LogFormat.v
LogFormatSpec.v
Util.v
UtilSpec.v
Env.v
EnvSpec.v
Resolve.v
AddressSpec.v
Daemon.v
DaemonSpec.v
Application.v
ApplicationSpec.v
Client.v
ClientSpec.v
Mysql.v
MysqlSpec.v
Crypto.v
CryptoSpec.v
Log.v
LogSpec.v
LogConfig.v
LogConfigSpec.v
