(* ===== verification/Prelude.v ===== *)
(** * A verification development for the wyze network framework

    wyze is a C++ framework for network servers: fibers and an event loop under hooked system
    calls, byte buffers, HTTP on both ends, configuration, logging, and what an application is
    built from.  This library models the code under src/wyze as executable definitions and
    proves what makes its parts correct.  Every component has a file with its data and operations,
    named as in the source, and most a second file, [...Spec], with its theorems.

    ** Conventions

    A method of an object with state [S] is a function of the monad [M S] of this file: it
    returns, throws, or is [Undef], where C++ gives the program no meaning (a null pointer, an access
    out of bounds, ...) or a thread waits for a lock for ever.  Integers of the machine are [Z], wrapped by
    [u8] ... [u64], [s32], [s64] where the code wraps them; bytes are [Byte.byte]; texts are lists of
    bytes.  What the source calls and does not define (the kernel, the C library where it is more than
    text, OpenSSL, yaml-cpp, the MySQL client, boost::lexical_cast) is a class of operations that the
    definitions are over, or an argument; what is relied on of it is a second class, of laws, and
    every theorem over one has a witness over a concrete instance.

    ** Buffers and streams
    - Prelude: the monad, wrapping, lemmas and tactics.  Containers: [std::set] and [std::map] as
      sorted lists under the comparator of the source.
    - ByteArray (bytearray.cpp): the chain of memory blocks and the loops over it.  ByteArrayRep has the
      invariant and the contents as one list; ByteIO the abstract stream, as a class, that the clients are
      proved against; ByteArraySpec that ByteArray refines it, on every branch.  At the end of the last
      block [m_cur] is null, and [read] dereferences it: the theorems say when.
    - Codec, CodecSpec (the typed reads and writes of bytearray.cpp, endian.h): zigzag, varints, byte orders;
      what was written is read back, and for which ranges of values exactly.  A varint is at most 5 or 10 bytes, which bounds the loops.
    - Stream, StreamSpec (stream.cpp, sockstream.cpp): the loops for whole sizes, over the kernel's calls.

    ** Machines and parsers of HTTP and URIs
    - Ragel: the interpreter of a machine's blocks; Http11Table, HttpClientTable, UriTable: the blocks of
      http11_parser.cpp, httpclient_parser.cpp and uri.cpp, state by state ([CASE]) and transition by
      transition ([TR]).  RagelSpec and RagelRun: runs, and that a table is checked once, by computation.
    - Http11Parser, HttpClientParser: the structs, actions and functions around the tables; Http11Spec,
      HttpClientSpec: safe on every input (the client's but for two states), and the same in one call or
      many.  Http11Head, HttpClientHead: the grammar of heads and what the machines make of it.
      Http11Request, HttpClientResponse: the same behind the classes of HttpParser, as the instances of the
      interfaces [RequestMachine] and [ResponseMachine].
    - Digits: [strtol], [atoi] and printed numbers.
    - Http, HttpSpec (http.cpp): methods, header maps, requests and responses, and their printing.
      HttpParser, HttpParserSpec (http_parser.cpp): the callbacks that fill them.
    - HttpSession, HttpSessionSpec (http_session.cpp), HttpConnection, HttpConnectionSpec
      (http_connection.cpp): receiving on both ends, proved against the interfaces of the machines,
      whatever the network delivers at a time; the pool of connections as a state machine.
      Client, ClientSpec (the rest of http_connection.cpp): DoRequest, DoGet and DoPost from a URL to a
      result, over sockets and resolvers, and the same through the pool with the descriptors it holds.
    - HttpWire, HttpClientWire: printer, network, machine, parser and receiver put together.
    - Servlet, ServletSpec (servlet.cpp, http_server.cpp): dispatch, and the loop that answers a client.
    - Uri, UriSpec (uri.cpp): parsing and printing, and the texts at which parsing is undefined.

    ** Concurrency
    - Timer, TimerSpec (timer.cpp): the set of timers; each critical section is a transition, and theorems are
      about every sequence of them.
    - Fiber (fiber.cpp); Scheduler, SchedulerSpec (scheduler.cpp): fibers as the code that is left to
      run, threads as steps; safety under every interleaving, and that [stop] ends on one thread.
    - IOManager, IOManagerSpec (iomanager.cpp): the table of descriptors against what epoll watches.
    - Hook, HookSpec (hook.cpp, fdmanager.cpp): blocking calls out of fibers, timers and non-blocking ones;
      each hooked function as the exact sequence of what it asks of the system, the timers and the
      IOManager ([hooked_io]), and the table that says of which descriptors it takes care.
    - Thread, ThreadSpec (thread.cpp, thread.h): locks, semaphores, and the start of a thread under every
      schedule; eleven steps are enough.

    ** Configuration and logging
    - Yaml: documents, over a class; paths into them are bounded by their depth.
    - Config, ConfigSpec (config.h, config.cpp): typed variables, listeners, documents that set them.
    - LogFormat, LogFormatSpec; Log, LogSpec; LogConfig, LogConfigSpec (log.h, log.cpp): the formatter's
      little language; appenders and loggers on heaps, with the locks a thread holds; the listener that
      turns definitions into loggers, and the texts that loggers make of themselves, from which they can be
      made again ([loggers_reloaded]).  A file that cannot be opened is logged while it is being logged:
      the nesting is bounded by twice the number of loggers plus two ([log_ends]).

    ** The system and the application
    - Util, UtilSpec (util.cpp): names, files, times and the names in back traces; a file name has at most PATH_MAX characters, the fuel
      of the loops over its levels.
    - Env, EnvSpec (env.cpp): arguments and paths.
    - Address, Resolve, AddressSpec (address.cpp): subnets; looking up names and interfaces; addresses as texts.
    - Socket, SocketSpec (socket.cpp): descriptors are owned once, over whole programs of
      sockets, and [accept] alone can lose one.  TcpServer, TcpServerSpec
      (tcpserver.cpp): binding, starting, stopping.
    - Application, ApplicationSpec (application.cpp): init, the servers that [main_fiber] starts, and [main] with
      its pid file, which keeps a second process out ([second_start_refused]).
    - Daemon, DaemonSpec (daemon.cpp): the shared memory of thread times and the watchdog.
    - Mysql, MysqlSpec (db/): connections, and their pool as events at its mutex.
    - Crypto, CryptoSpec (crypto.cpp): what is made of the OpenSSL calls.

    ** How the parts meet
    Interfaces are classes: ByteIO between ByteArray and the codecs, streams and sessions; Machine,
    RequestMachine and ResponseMachine between the tables and the parsers, and between those and the two
    ends of a connection; Epoll and Kernel between IOManager, streams and the kernel; Lockable for the locks; SocketApi, Resolver and Posix
    for what sockets, addresses and files ask of the system.  [request_roundtrip] and [response_roundtrip] go
    through eight components each; [handleClient_answers] adds the servlets; [servers_run] goes from a
    configuration through addresses, sockets and the server; [get_answered] from a URL through the resolver,
    a socket, the wire and the parser to the result, and [requests_keep_descriptors] says that none is lost.

    ** Not modelled, and why
    Texts for people (dumps of objects, texts of results) and single calls of the
    system; the macros and the singleton, which are glue; ws_session, which is empty; wyze.h, which
    only includes; parseJsonFile, whose reader of JSON is a library; GenerateRsaKey, which only writes
    files; tests and examples.  [Application::main] runs [main_fiber] as the one fiber of its IOManager: that
    fibers run is the business of Scheduler and IOManager, over a state of their own.
    HTTP: the machine's tables are of one message's head; bodies are the sessions'. *)

From Stdlib Require Export ZArith Lia String.
From stdpp Require Export base list.
From coqutil Require Export Byte Word.LittleEndianList.

#[export] Set Default Goal Selector "!".
#[global] Open Scope string_scope.
#[global] Open Scope list_scope.
#[global] Open Scope Z_scope.

(** ** Outcomes of C++ code

    A run either returns, throws an exception (or fails an assertion) or reaches a
    point where the C++ standard gives the program no meaning. *)

Inductive exn : Type :=
  | out_of_range (what : string)      (* std::out_of_range *)
  | logic_error (what : string)       (* std::logic_error *)
  | invalid_argument (what : string)  (* std::invalid_argument *)
  | runtime_error (what : string)     (* std::runtime_error, and the exceptions of yaml-cpp *)
  | assert_failed (what : string).    (* WYZE_ASSERT, WYZE_ASSERT2, assert *)

Inductive ub : Type :=
  | null_deref          (* dereference of a null pointer *)
  | out_of_bounds       (* access outside an array, a vector or an allocation *)
  | bad_shift           (* shift by at least the width of the operand *)
  | signed_overflow     (* overflow of a signed addition, negation, multiplication *)
  | use_after_free      (* use of memory that was freed *)
  | uninitialised       (* use of an object that was never given a value *)
  | deadlock            (* the thread waits for ever for a lock that nobody releases *)
  | no_fuel.            (* only of the model: the bound on loop iterations was too small *)

Inductive outcome (S A : Type) : Type :=
  | Ok (a : A) (s : S)
  | Throw (e : exn) (s : S)
  | Undef (u : ub).
Arguments Ok {S A} a s.
Arguments Throw {S A} e s.
Arguments Undef {S A} u.

(** The state and exception monad in which the methods of an object with state [S] run. *)
Definition M (S A : Type) : Type := S -> outcome S A.

Definition ret {S A} (a : A) : M S A := fun s => Ok a s.
Definition throw {S A} (e : exn) : M S A := fun s => Throw e s.
Definition undef {S A} (u : ub) : M S A := fun _ => Undef u.
Definition get {S} : M S S := fun s => Ok s s.
Definition put {S} (s : S) : M S unit := fun _ => Ok tt s.
Definition modify {S} (f : S -> S) : M S unit := fun s => Ok tt (f s).

Definition bind {S A B} (m : M S A) (k : A -> M S B) : M S B := fun s =>
  match m s with
  | Ok a s' => k a s'
  | Throw e s' => Throw e s'
  | Undef u => Undef u
  end.

Declare Scope wyze_scope.
Delimit Scope wyze_scope with wyze.
Notation "x <- m ;; k" := (bind m (fun x => k))
  (at level 60, m at next level, right associativity) : wyze_scope.
Notation "m ;;; k" := (bind m (fun _ => k))
  (at level 60, right associativity) : wyze_scope.
#[global] Open Scope wyze_scope.

(** The value of an option, or undefined behaviour. *)
Definition or_undef {S A} (u : ub) (o : option A) : M S A :=
  match o with Some a => ret a | None => undef u end.

(** Does the run return, throw, or reach undefined behaviour? *)
Definition returned {S A} (o : outcome S A) : option A :=
  match o with Ok a _ => Some a | _ => None end.
Definition final {S A} (o : outcome S A) : option S :=
  match o with Ok _ s | Throw _ s => Some s | Undef _ => None end.

(** The state that a run leaves, for concrete runs *)
Definition is_ok {S A} (o : outcome S A) : bool := match o with Ok _ _ => true | _ => false end.
Definition ran {S A} (m : M S A) (c : S) : S := match m c with Ok _ c => c | _ => c end.
Lemma ran_ok {S A} (m : M S A) c : is_ok (m c) = true -> exists a, m c = Ok a (ran m c).
Proof. unfold ran. destruct (m c) as [a c'| |]; [by exists a|done..]. Qed.
Lemma ran_unit {S} (m : M S unit) c : is_ok (m c) = true -> m c = Ok tt (ran m c).
Proof. unfold ran. by destruct (m c) as [[] c'| |]. Qed.
Lemma ran_returned {S A} (m : M S A) c a : returned (m c) = Some a -> m c = Ok a (ran m c).
Proof. unfold ran. destruct (m c); naive_solver. Qed.
Lemma ran_final {S A} (m : M S A) c : match m c with Ok _ _ => true | _ => false end = true -> final (m c) = Some (ran m c).
Proof. unfold ran. by destruct (m c). Qed.

Lemma bind_ok {S A B} (m : M S A) (k : A -> M S B) s a s' :
  m s = Ok a s' -> bind m k s = k a s'.
Proof. by unfold bind; intros ->. Qed.

Lemma bind_ret {S A B} (a : A) (k : A -> M S B) s : bind (ret a) k s = k a s.
Proof. done. Qed.

Lemma bind_modify {S A} f (k : unit -> M S A) s : bind (modify f) k s = k tt (f s).
Proof. done. Qed.

Lemma bind_some {S A B} u (a : A) (k : A -> M S B) s : bind (or_undef u (Some a)) k s = k a s.
Proof. done. Qed.

Lemma bind_none {S A B} u (k : A -> M S B) s : bind (or_undef u None) k s = Undef u.
Proof. done. Qed.

Lemma bind_assoc {S A B C} (m : M S A) (k : A -> M S B) (h : B -> M S C) s :
  bind (bind m k) h s = bind m (fun a => bind (k a) h) s.
Proof. unfold bind. by destruct (m s). Qed.

Lemma bind_ext {S A B} (m : M S A) (k h : A -> M S B) s :
  (forall a s', k a s' = h a s') -> bind m k s = bind m h s.
Proof. intros E. unfold bind. by destruct (m s). Qed.

Lemma bind_unit_r {S} (m : M S unit) s : (m ;;; ret tt) s = m s.
Proof. unfold bind. by destruct (m s) as [[]| |]. Qed.

Lemma bind_returns {S A B} (m : M S A) (k : A -> M S B) s b s' :
  bind m k s = Ok b s' -> exists a s1, m s = Ok a s1 /\ k a s1 = Ok b s'.
Proof. unfold bind. destruct (m s); naive_solver. Qed.

(** Symbolic execution: [run E] replaces the first call of a sequence by its result, which
    [E] states; [invert_binds H] takes a returning sequence apart. *)
Tactic Notation "run" uconstr(E) :=
  first [rewrite (bind_ok _ _ _ _ _ E) | rewrite bind_assoc, (bind_ok _ _ _ _ _ E)].
Tactic Notation "run" uconstr(E1) "," uconstr(E2) := run E1; run E2.
Tactic Notation "run" uconstr(E) "in" hyp(H) :=
  first [rewrite (bind_ok _ _ _ _ _ E) in H | rewrite bind_assoc, (bind_ok _ _ _ _ _ E) in H].

Ltac invert_binds H :=
  repeat match type of H with
  | bind _ _ _ = Ok _ _ => let a := fresh "a" in let w := fresh "w" in let E := fresh "E" in
      apply bind_returns in H as (a & w & E & H)
  | ret _ _ = Ok _ _ => injection H as ? ?; subst
  | modify _ _ = Ok _ _ => injection H as ? ?; subst
  end.

(** ** Machine integers: unsigned and signed wrap-around at a width *)

Definition uwrap (w z : Z) : Z := z mod 2 ^ w.
Definition swrap (w z : Z) : Z := (z + 2 ^ (w - 1)) mod 2 ^ w - 2 ^ (w - 1).

Definition u8 := uwrap 8.
Definition u16 := uwrap 16.
Definition u32 := uwrap 32.
Definition u64 := uwrap 64.
Definition s8 := swrap 8.
Definition s16 := swrap 16.
Definition s32 := swrap 32.
Definition s64 := swrap 64.

(** The values of the unsigned and signed types of [w] bits. *)
Definition in_u (w z : Z) : Prop := 0 <= z < 2 ^ w.
Definition in_s (w z : Z) : Prop := - 2 ^ (w - 1) <= z < 2 ^ (w - 1).

Definition in_sb (w z : Z) : bool := (- 2 ^ (w - 1) <=? z) && (z <? 2 ^ (w - 1)).

(** [a + b] in [int] *)
Definition sadd32 (a b : Z) : option Z := if in_sb 32 (a + b) then Some (a + b) else None.

Lemma uwrap_id w z : in_u w z -> uwrap w z = z.
Proof. intros H. unfold uwrap. by apply Z.mod_small. Qed.

Lemma uwrap_range w z : 0 <= w -> in_u w (uwrap w z).
Proof. intros H. unfold uwrap, in_u. apply Z.mod_pos_bound. lia. Qed.

Lemma swrap_id w z : 0 < w -> in_s w z -> swrap w z = z.
Proof.
  intros Hw H. unfold swrap, in_s in *.
  assert (2 ^ w = 2 * 2 ^ (w - 1)) as E by (rewrite <- Z.pow_succ_r by lia; f_equal; lia).
  rewrite Z.mod_small by lia. lia.
Qed.

Lemma swrap_uwrap w z : 0 < w -> swrap w (uwrap w z) = swrap w z.
Proof. intros Hw. unfold swrap, uwrap. by rewrite Zplus_mod_idemp_l. Qed.

Lemma uwrap_swrap w z : 0 < w -> uwrap w (swrap w z) = uwrap w z.
Proof.
  intros Hw. unfold swrap, uwrap. rewrite Zminus_mod_idemp_l. f_equal. lia.
Qed.

Lemma in_sb_spec w z : in_sb w z = true <-> in_s w z.
Proof. unfold in_sb, in_s. rewrite andb_true_iff, Z.leb_le, Z.ltb_lt. lia. Qed.

(** Automation for words: [fits] proves that a value is in the range of its type. *)
Create HintDb words.
#[export] Hint Extern 2 (in_u _ _) => unfold in_u; lia : words.
#[export] Hint Extern 2 (in_s _ _) => unfold in_s; lia : words.
#[export] Hint Extern 1 (in_u _ (uwrap _ _)) => apply uwrap_range; lia : words.
Ltac fits := solve [auto with words | unfold in_u, in_s in *; lia].

#[export] Instance byte_eq_dec : EqDecision byte := Byte.byte_eq_dec.

(** ** Slices of lists, and overwriting a part of a list *)

Section slices.
Context {A : Type}.
Implicit Types (l d : list A) (o n : nat).

Definition slice o n l : list A := take n (drop o l).

(** memcpy of [d] to offset [o] of a buffer holding [l] *)
Definition splice o d l : list A := take o l ++ d ++ drop (o + length d) l.

Lemma length_slice o n l : (o + n <= length l)%nat -> length (slice o n l) = n.
Proof. intros H. unfold slice. rewrite length_take, length_drop. lia. Qed.

Lemma slice_0 o l : slice o 0 l = [].
Proof. done. Qed.

Lemma slice_all l : slice 0 (length l) l = l.
Proof. unfold slice. by rewrite drop_0, firstn_all. Qed.

Lemma slice_split o n m l :
  slice o (n + m) l = slice o n l ++ slice (o + n) m l.
Proof. unfold slice. rewrite <- drop_drop. by rewrite take_take_drop. Qed.

Lemma length_splice o d l :
  (o + length d <= length l)%nat -> length (splice o d l) = length l.
Proof.
  intros H. unfold splice. rewrite !length_app, length_take, length_drop. lia.
Qed.

Lemma take_splice o d l : (o <= length l)%nat -> take o (splice o d l) = take o l.
Proof.
  intros H. unfold splice. rewrite take_app_le by (rewrite length_take; lia).
  rewrite take_take. f_equal. lia.
Qed.

Lemma slice_splice o d l :
  (o + length d <= length l)%nat -> slice o (length d) (splice o d l) = d.
Proof.
  intros H. unfold slice, splice.
  rewrite drop_app_ge by (rewrite length_take; lia).
  rewrite length_take, Nat.min_l by lia. rewrite Nat.sub_diag, drop_0.
  by rewrite take_app_length.
Qed.

Lemma splice_app o d1 d2 l :
  (o + length d1 + length d2 <= length l)%nat ->
  splice o (d1 ++ d2) l = splice (o + length d1) d2 (splice o d1 l).
Proof.
  intros H. unfold splice. rewrite length_app.
  rewrite (take_app_ge (take o l)) by (rewrite length_take; lia).
  rewrite length_take, Nat.min_l by lia.
  replace (o + length d1 - o)%nat with (length d1) by lia.
  rewrite take_app_length, <- !app_assoc. do 3 f_equal.
  rewrite drop_app_ge by (rewrite length_take; lia).
  rewrite length_take, Nat.min_l by lia.
  rewrite drop_app_ge by lia. rewrite drop_drop. f_equal. lia.
Qed.

Lemma splice_nil o l : splice o [] l = l.
Proof. unfold splice. simpl. rewrite Nat.add_0_r. by rewrite take_drop. Qed.
End slices.

(** A list of equal blocks, read as one flat list. *)
Section blocks.
Context {A : Type} (b : nat).
Implicit Types (ls : list (list A)).

Definition blocks_of ls : Prop := Forall (fun x => length x = b) ls.

Lemma length_concat_blocks ls : blocks_of ls -> length (concat ls) = (b * length ls)%nat.
Proof. induction 1 as [|x ls Hx _ IH]; simpl; [lia|]. rewrite length_app, IH, Hx. lia. Qed.

Lemma slice_concat ls i x o n :
  blocks_of ls -> ls !! i = Some x -> (o + n <= b)%nat ->
  slice (b * i + o) n (concat ls) = slice o n x.
Proof.
  intros Hb. revert i. induction Hb as [|y ls Hy _ IH]; intros [|i] Hi Hn; simplify_eq/=.
  - unfold slice. rewrite Nat.mul_0_r, drop_app_le by lia.
    rewrite take_app_le; [done|]. rewrite length_drop; lia.
  - rewrite <- (IH i) by done. unfold slice. rewrite drop_app_ge by lia.
    do 2 f_equal. lia.
Qed.

Lemma splice_concat ls i x o d :
  blocks_of ls -> ls !! i = Some x -> (o + length d <= b)%nat ->
  concat (<[i := splice o d x]> ls) = splice (b * i + o) d (concat ls).
Proof.
  intros Hb. revert i. induction Hb as [|y ls Hy _ IH]; intros [|i] Hi Hn; simplify_eq/=.
  - unfold splice. rewrite Nat.mul_0_r; simpl.
    rewrite take_app_le, drop_app_le by lia. by rewrite <- !app_assoc.
  - rewrite (IH i) by done. unfold splice.
    rewrite take_app_ge, drop_app_ge by lia. rewrite <- !app_assoc.
    repeat f_equal; lia.
Qed.

Lemma blocks_insert ls i x : blocks_of ls -> length x = b -> blocks_of (<[i := x]> ls).
Proof. intros ??. by apply Forall_insert. Qed.
End blocks.

(** Filters that keep everything, or nothing. *)
Section filters.
Context {A : Type} (P : A -> Prop) `{forall x, Decision (P x)}.

Lemma filter_all (l : list A) : (forall x, x ∈ l -> P x) -> filter P l = l.
Proof.
  induction l as [|x l IH]; intros Hl; [done|]. rewrite filter_cons_True.
  - f_equal. apply IH. intros y Hy. apply Hl. by apply elem_of_cons; right.
  - apply Hl. by apply elem_of_cons; left.
Qed.

Lemma filter_none (l : list A) : (forall x, x ∈ l -> ~ P x) -> filter P l = [].
Proof.
  induction l as [|x l IH]; intros Hl; [done|]. rewrite filter_cons_False.
  - apply IH. intros y Hy. apply Hl. by apply elem_of_cons; right.
  - apply Hl. by apply elem_of_cons; left.
Qed.
End filters.
