(* ===== verification/Containers.v ===== *)
(** * std::set and std::map

    The ordered containers of the standard library, which several components keep their
    state in: a sorted list and the operations the source uses on it, over the comparator of
    the container.  A search stops at the first element that is not less than the key, as
    [lower_bound] does, so the definitions say what happens for comparators whose equivalence
    is coarser than equality (case-insensitive header names). *)

From Stdlib Require Export Sorting.Sorted.
From S2P Require Import Prelude.

(** What the standard asks of a comparator: a strict weak order. *)
Class WeakOrder {K} (lt : K -> K -> bool) := {
  wo_irrefl : forall x, lt x x = false;
  wo_trans : forall x y z, lt x y = true -> lt y z = true -> lt x z = true;
  wo_incomp : forall x y z, lt x z = true -> lt x y = true \/ lt y z = true }.

Section sets.
Context {K : Type} (lt : K -> K -> bool).
Implicit Types (x y : K) (l : list K).

Definition eqv x y : bool := negb (lt x y) && negb (lt y x).

(** [lower_bound(x)]: the elements from the first one that is not less than [x]. *)
Fixpoint lower_bound x l : list K :=
  match l with
  | [] => []
  | y :: l' => if lt y x then lower_bound x l' else l
  end.
Fixpoint below x l : list K :=
  match l with
  | [] => []
  | y :: l' => if lt y x then y :: below x l' else []
  end.

(** [find(x)] *)
Definition set_find x l : option K :=
  match lower_bound x l with
  | y :: _ => if lt x y then None else Some y
  | [] => None
  end.
(** [insert(x)]: nothing happens when an equivalent element is there; [true] when [x] is now
    the first element. *)
Definition set_insert x l : list K :=
  match set_find x l with
  | Some _ => l
  | None => below x l ++ x :: lower_bound x l
  end.
(** [erase(find(x))] *)
Definition set_erase x l : list K :=
  match set_find x l with
  | Some _ => below x l ++ tail (lower_bound x l)
  | None => l
  end.

Definition sorted l : Prop := StronglySorted (fun x y => lt x y = true) l.

Lemma below_lower x l : below x l ++ lower_bound x l = l.
Proof. induction l as [|y l IH]; simpl; [done|]. destruct (lt y x); simpl; congruence. Qed.

Lemma below_lt x l : Forall (fun y => lt y x = true) (below x l).
Proof. induction l as [|y l IH]; simpl; [done|]. destruct (lt y x) eqn:E; by constructor. Qed.

Lemma sorted_app l1 l2 :
  sorted (l1 ++ l2) <->
  sorted l1 /\ sorted l2 /\ (forall x y, x ∈ l1 -> y ∈ l2 -> lt x y = true).
Proof.
  unfold sorted. induction l1 as [|a l1 IH]; simpl.
  - split; [|tauto]. intros H. split_and!; [constructor|done|]. intros x y Hx. by apply elem_of_nil in Hx.
  - split.
    + intros [H1 H2]%StronglySorted_inv. apply IH in H1 as (S1 & S2 & H12).
      rewrite Forall_app in H2. destruct H2 as [Ha1 Ha2]. split_and!; [by constructor|done|].
      intros x y [->|Hx]%elem_of_cons Hy; [|by apply H12].
      rewrite Forall_forall in Ha2. by apply Ha2.
    + intros ([S1 Ha]%StronglySorted_inv & S2 & H12). constructor.
      * apply IH. split_and!; [done|done|]. intros x y Hx. apply H12. by apply elem_of_cons; right.
      * apply Forall_app. split; [done|]. apply Forall_forall. intros y Hy.
        apply H12; [by apply elem_of_cons; left|done].
Qed.

Context `{!WeakOrder lt}.

Lemma lower_ge x l : sorted l -> Forall (fun y => lt y x = false) (lower_bound x l).
Proof.
  induction 1 as [|y l _ IH Hy]; simpl; [constructor|]. destruct (lt y x) eqn:E; [done|].
  constructor; [done|]. eapply Forall_impl; [exact Hy|]. simpl. intros z Hz.
  apply not_true_is_false. intros Hzx. by rewrite (wo_trans (lt := lt) y z x Hz Hzx) in E.
Qed.

Lemma eqv_refl x : eqv x x = true.
Proof. unfold eqv. by rewrite (wo_irrefl (lt := lt)). Qed.

Lemma eqv_sym x y : eqv x y = eqv y x.
Proof. unfold eqv. apply andb_comm. Qed.

Lemma eqv_lt_l x y z : eqv x y = true -> lt x z = lt y z.
Proof.
  unfold eqv. rewrite andb_true_iff, !negb_true_iff. intros [H1 H2].
  apply Bool.eq_iff_eq_true. split; intros H.
  - destruct (wo_incomp (lt := lt) x y z H); congruence.
  - destruct (wo_incomp (lt := lt) y x z H); congruence.
Qed.

Lemma eqv_lt_r x y z : eqv x y = true -> lt z x = lt z y.
Proof.
  unfold eqv. rewrite andb_true_iff, !negb_true_iff. intros [H1 H2].
  apply Bool.eq_iff_eq_true. split; intros H.
  - destruct (wo_incomp (lt := lt) z y x H); congruence.
  - destruct (wo_incomp (lt := lt) z x y H); congruence.
Qed.

Lemma lt_asym x y : lt x y = true -> lt y x = false.
Proof.
  intros H. apply not_true_is_false. intros H'. pose proof (wo_trans (lt := lt) x y x H H') as C.
  by rewrite (wo_irrefl (lt := lt)) in C.
Qed.

Lemma eqv_trans x y z : eqv x y = true -> eqv y z = true -> eqv x z = true.
Proof.
  intros H1 H2. unfold eqv. rewrite (eqv_lt_l x y z H1), (eqv_lt_r x y z H1). exact H2.
Qed.

(** Two equivalent elements of a sorted list are the same. *)
Lemma sorted_eqv l x y : sorted l -> x ∈ l -> y ∈ l -> eqv x y = true -> x = y.
Proof.
  induction 1 as [|z l _ IH Hz]; [by intros ?%elem_of_nil|].
  rewrite Forall_forall in Hz. unfold eqv. rewrite andb_true_iff, !negb_true_iff.
  intros [->|Hx]%elem_of_cons [->|Hy]%elem_of_cons [E1 E2]; [done|..].
  - apply Hz in Hy. congruence.
  - apply Hz in Hx. congruence.
  - apply IH; [done..|]. unfold eqv. by rewrite E1, E2.
Qed.

Lemma set_find_Some x l y :
  sorted l -> set_find x l = Some y <-> y ∈ l /\ eqv x y = true.
Proof.
  intros Hs. pose proof (lower_ge x l Hs) as Hge. pose proof (below_lower x l) as E.
  pose proof (below_lt x l) as Hlt. unfold set_find. split.
  - destruct (lower_bound x l) as [|z l']; [done|]. apply Forall_cons in Hge as [Hz _].
    destruct (lt x z) eqn:Exz; [done|]. intros [= ->]. split.
    + rewrite <- E. apply elem_of_app. right. by apply elem_of_cons; left.
    + unfold eqv. by rewrite Exz, Hz.
  - intros [Hy Exy]. pose proof Hs as Hs'. rewrite <- E in Hy, Hs'.
    apply sorted_app in Hs' as (_ & Hs2 & _).
    apply elem_of_app in Hy as [Hy|Hy].
    { rewrite Forall_forall in Hlt. apply Hlt in Hy. unfold eqv in Exy.
      rewrite Hy, andb_false_r in Exy. done. }
    destruct (lower_bound x l) as [|z l']; [by apply elem_of_nil in Hy|].
    apply Forall_cons in Hge as [Hz _]. apply StronglySorted_inv in Hs2 as [_ Hz2].
    rewrite Forall_forall in Hz2.
    apply elem_of_cons in Hy as [->|Hy].
    + unfold eqv in Exy. apply andb_true_iff in Exy as [Exy _].
      rewrite negb_true_iff in Exy. by rewrite Exy.
    + apply Hz2 in Hy. rewrite <- (eqv_lt_r x y z Exy) in Hy. congruence.
Qed.

Lemma set_find_None x l :
  sorted l -> set_find x l = None <-> forall y, y ∈ l -> eqv x y = false.
Proof.
  intros Hs. split.
  - intros E y Hy. apply not_true_is_false. intros Exy.
    by rewrite (proj2 (set_find_Some x l y Hs)) in E.
  - intros H. destruct (set_find x l) as [y|] eqn:E; [|done].
    apply set_find_Some in E as [Hy Exy]; [|done]. by rewrite H in Exy.
Qed.

Lemma elem_of_set_insert x l y :
  set_find x l = None -> y ∈ set_insert x l <-> y = x \/ y ∈ l.
Proof.
  intros E. unfold set_insert. rewrite E. rewrite <- (below_lower x l) at 3.
  rewrite !elem_of_app, elem_of_cons. tauto.
Qed.

Lemma set_insert_sorted x l : sorted l -> sorted (set_insert x l).
Proof.
  intros Hs. unfold set_insert. destruct (set_find x l) eqn:E; [done|].
  pose proof (lower_ge x l Hs) as Hge. pose proof (below_lt x l) as Hlt.
  rewrite Forall_forall in Hge, Hlt.
  assert (forall y, y ∈ lower_bound x l -> lt x y = true) as Hgt.
  { intros y Hy. apply not_false_is_true. intros Exy.
    assert (y ∈ l) as Hyl by (rewrite <- (below_lower x l); apply elem_of_app; by right).
    assert (eqv x y = true) as Ee by (unfold eqv; by rewrite Exy, (Hge y Hy)).
    rewrite (proj1 (set_find_None x l Hs) E y Hyl) in Ee. done. }
  pose proof Hs as Hs'. rewrite <- (below_lower x l) in Hs'.
  apply sorted_app in Hs' as (S1 & S2 & H12). apply sorted_app. split_and!; [done| |].
  - constructor; [done|]. by apply Forall_forall.
  - intros y z Hy [->|Hz]%elem_of_cons; [by apply Hlt|by apply H12].
Qed.

Lemma set_erase_perm x l y : sorted l -> set_find x l = Some y -> l ≡ₚ y :: set_erase x l.
Proof.
  intros Hs E. unfold set_erase. rewrite E. rewrite <- (below_lower x l) at 1.
  unfold set_find in E. destruct (lower_bound x l) as [|z l']; [done|].
  destruct (lt x z); [done|]. injection E as ->. simpl. by rewrite Permutation_middle.
Qed.

Lemma sorted_sublist l1 l2 : l1 `sublist_of` l2 -> sorted l2 -> sorted l1.
Proof.
  induction 1 as [|a l1 l2 Hsub IH|a l1 l2 _ IH]; intros Hs; [done| |].
  - apply StronglySorted_inv in Hs as [Hs Ha]. constructor; [by apply IH|].
    rewrite Forall_forall in *. intros y Hy. apply Ha. by eapply elem_of_submseteq, sublist_submseteq.
  - apply IH. by apply StronglySorted_inv in Hs as [Hs _].
Qed.

Lemma set_erase_sub x l : set_erase x l `sublist_of` l.
Proof.
  unfold set_erase. destruct (set_find x l); [|done]. rewrite <- (below_lower x l) at 3.
  apply sublist_app; [done|]. destruct (lower_bound x l); simpl; [done|]. by apply sublist_cons.
Qed.

Lemma set_erase_sorted x l : sorted l -> sorted (set_erase x l).
Proof. apply sorted_sublist, set_erase_sub. Qed.

Lemma sorted_NoDup l : sorted l -> NoDup l.
Proof.
  induction 1 as [|x l _ IH Hx]; constructor; [|done]. intros Hin.
  rewrite Forall_forall in Hx. apply Hx in Hin. by rewrite (wo_irrefl (lt := lt)) in Hin.
Qed.

Lemma elem_of_set_erase x l y z :
  sorted l -> set_find x l = Some y -> z ∈ set_erase x l <-> z ∈ l /\ z <> y.
Proof.
  intros Hs E. pose proof (set_erase_perm x l y Hs E) as P.
  pose proof (sorted_NoDup l Hs) as ND. rewrite P in ND. apply NoDup_cons in ND as [Hy _].
  rewrite P at 2. rewrite elem_of_cons. split; [|tauto]. intros Hz. split; [tauto|].
  by intros ->.
Qed.

End sets.

(** A comparator used on the elements of one list only. *)
Lemma sorted_ext {K} (lt1 lt2 : K -> K -> bool) l :
  (forall x y, x ∈ l -> y ∈ l -> lt1 x y = lt2 x y) -> sorted lt1 l -> sorted lt2 l.
Proof.
  intros E. induction 1 as [|x l _ IH Hx]; [constructor|]. constructor.
  - apply IH. intros a b Ha Hb. apply E; by apply elem_of_cons; right.
  - rewrite Forall_forall in *. intros y Hy. rewrite <- E; [by apply Hx| |].
    + by apply elem_of_cons; left.
    + by apply elem_of_cons; right.
Qed.
