(* ===== verification/ByteArray.v ===== *)
(** * ByteArray: a byte stream over a chain of equal memory blocks
    (src/wyze/bytearray.cpp, src/wyze/bytearray.h)

    The chain [m_root -> next -> ...] is the list [m_nodes]; a [Node*] into the chain is an
    index into that list and the null pointer is [None].  The chain only grows at its end
    ([addCapacity]) and is cut back to [m_root] ([clear]), so an index denotes the same node
    for as long as the node lives.  Dereferencing [None] is [Undef null_deref], a copy that
    leaves a node's allocation is [Undef out_of_bounds]. *)

From S2P Require Import Prelude.

(** The bytes of a fresh [new char[s]] are indeterminate: the model is given them, per block
    and offset, and no theorem assumes anything of them. *)
Class Allocator := fresh_byte : nat -> nat -> byte.

(** ** Data *)

Record Node := mkNode { nd_ptr : list byte; nd_size : Z }.

Record ByteArray := mkByteArray {
  m_basesize : Z;
  m_position : Z;
  m_capacity : Z;
  m_size : Z;
  m_endian : Z;
  m_nodes : list Node;
  m_cur : option nat }.

Definition WYZE_LITTLE_ENDIAN := 1.
Definition WYZE_BIG_ENDIAN := 2.
(* The development fixes the hosts the framework runs on (Linux on x86-64 and arm64, where
   BYTE_ORDER is not BIG_ENDIAN). *)
Definition WYZE_BYTE_ORDER := WYZE_LITTLE_ENDIAN.

Definition with_position (ba : ByteArray) (p : Z) : ByteArray :=
  mkByteArray (m_basesize ba) p (m_capacity ba) (m_size ba) (m_endian ba) (m_nodes ba) (m_cur ba).
Definition with_size (ba : ByteArray) (n : Z) : ByteArray :=
  mkByteArray (m_basesize ba) (m_position ba) (m_capacity ba) n (m_endian ba) (m_nodes ba) (m_cur ba).
Definition with_cur (ba : ByteArray) (c : option nat) : ByteArray :=
  mkByteArray (m_basesize ba) (m_position ba) (m_capacity ba) (m_size ba) (m_endian ba) (m_nodes ba) c.
Definition with_nodes (ba : ByteArray) (ns : list Node) (cap : Z) : ByteArray :=
  mkByteArray (m_basesize ba) (m_position ba) cap (m_size ba) (m_endian ba) ns (m_cur ba).
Definition with_endian (ba : ByteArray) (e : Z) : ByteArray :=
  mkByteArray (m_basesize ba) (m_position ba) (m_capacity ba) (m_size ba) e (m_nodes ba) (m_cur ba).

(** ** Operations *)

Section operations.
Context `{Allocator}.

(** [Node::Node(size_t s)]; [k] is the index the node gets in the chain *)
Definition new_Node (k : nat) (s : Z) : Node :=
  mkNode (fresh_byte k <$> seq 0 (Z.to_nat s)) s.

(** The constructor. *)
Definition new_ByteArray (base_size : Z) : ByteArray :=
  mkByteArray base_size 0 base_size 0 WYZE_BIG_ENDIAN [new_Node 0 base_size] (Some 0%nat).

(** [p->next] *)
Definition next_of (ba : ByteArray) (p : nat) : option nat :=
  if (S p <? length (m_nodes ba))%nat then Some (S p) else None.

(** [*p] *)
Definition deref (p : option nat) : M ByteArray (nat * Node) := fun ba =>
  match p with
  | Some i => match m_nodes ba !! i with
              | Some nd => Ok (i, nd) ba
              | None => Undef null_deref
              end
  | None => Undef null_deref
  end.

(** [m_cur = m_cur->next] *)
Definition cur_next : M ByteArray unit := fun ba =>
  (c <- deref (m_cur ba) ;; modify (fun ba => with_cur ba (next_of ba (fst c)))) ba.

(** [memcpy(p->ptr + npos, d, d.size())] *)
Definition memcpy_to (p : option nat) (npos : Z) (d : list byte) : M ByteArray unit := fun ba =>
  (c <- deref p ;;
   let (i, nd) := c in
   if (0 <=? npos) && (npos + Z.of_nat (length d) <=? Z.of_nat (length (nd_ptr nd))) then
     modify (fun ba => with_nodes ba
       (<[i := mkNode (splice (Z.to_nat npos) d (nd_ptr nd)) (nd_size nd)]> (m_nodes ba))
       (m_capacity ba))
   else undef out_of_bounds) ba.

(** [memcpy(buf, p->ptr + npos, n)] *)
Definition memcpy_from (p : option nat) (npos n : Z) : M ByteArray (list byte) := fun ba =>
  (c <- deref p ;;
   let (i, nd) := c in
   if (0 <=? npos) && (0 <=? n) && (npos + n <=? Z.of_nat (length (nd_ptr nd))) then
     ret (slice (Z.to_nat npos) (Z.to_nat n) (nd_ptr nd))
   else undef out_of_bounds) ba.

Definition add_position (n : Z) : M ByteArray unit :=
  modify (fun ba => with_position ba (m_position ba + n)).

Definition getCapacity (ba : ByteArray) : Z := u64 (m_capacity ba - m_position ba).
Definition getReadSize (ba : ByteArray) : Z := u64 (m_size ba - m_position ba).
Definition getPosition (ba : ByteArray) : Z := m_position ba.
Definition getSize (ba : ByteArray) : Z := m_size ba.
Definition getBaseSize (ba : ByteArray) : Z := m_basesize ba.

Definition isLittleEndian (ba : ByteArray) : bool := m_endian ba =? WYZE_LITTLE_ENDIAN.
Definition setIsLittleEndian (val : bool) : M ByteArray unit :=
  modify (fun ba => with_endian ba (if val then WYZE_LITTLE_ENDIAN else WYZE_BIG_ENDIAN)).

(** The [for] loop of [addCapacity]: [count] new nodes behind the last one. *)
Fixpoint append_nodes (count : nat) : M ByteArray unit :=
  match count with
  | O => ret tt
  | S count =>
      modify (fun ba => with_nodes ba
        (m_nodes ba ++ [new_Node (length (m_nodes ba)) (m_basesize ba)])
        (m_capacity ba + m_basesize ba)) ;;;
      append_nodes count
  end.

Definition addCapacity (size : Z) : M ByteArray unit := fun ba =>
  if size =? 0 then Ok tt ba
  else
    let old_cap := getCapacity ba in
    if size <? old_cap then Ok tt ba
    else
      let size := u64 (size - old_cap) in
      let count := size / m_basesize ba + (if size mod m_basesize ba =? 0 then 0 else 1) in
      let first := if 0 <? count then Some (length (m_nodes ba)) else None in
      (append_nodes (Z.to_nat count) ;;;
       if old_cap =? 0 then modify (fun ba => with_cur ba first) else ret tt) ba.

(** The [while] loop of [write]; [buf] is what is left to copy, so [size] is its length. *)
Fixpoint write_loop (fuel : nat) (buf : list byte) (npos ncap : Z) : M ByteArray unit :=
  let size := Z.of_nat (length buf) in
  if size <=? 0 then ret tt
  else match fuel with
  | O => undef no_fuel
  | S fuel =>
      if size <=? ncap then
        (fun ba => memcpy_to (m_cur ba) npos buf ba) ;;;
        (fun ba => (c <- deref (m_cur ba) ;;
                    if nd_size (snd c) =? npos + size then cur_next else ret tt) ba) ;;;
        add_position size
      else
        (fun ba => memcpy_to (m_cur ba) npos (take (Z.to_nat ncap) buf) ba) ;;;
        add_position ncap ;;;
        cur_next ;;;
        (fun ba => (c <- deref (m_cur ba) ;;
                    write_loop fuel (drop (Z.to_nat ncap) buf) 0 (nd_size (snd c))) ba)
  end.

Definition write (buf : list byte) : M ByteArray unit := fun ba =>
  let size := Z.of_nat (length buf) in
  if size =? 0 then Ok tt ba
  else
    (addCapacity size ;;;
     (fun ba =>
        (c <- deref (m_cur ba) ;;
         let npos := m_position ba mod m_basesize ba in
         let ncap := u64 (nd_size (snd c) - npos) in
         write_loop (S (length (m_nodes ba))) buf npos ncap) ba) ;;;
     modify (fun ba => if m_size ba <? m_position ba then with_size ba (m_position ba) else ba)) ba.

(** The [while] loop of [read(buf, size)]: the bytes copied to [buf]. *)
Fixpoint read_loop (fuel : nat) (size npos ncap : Z) : M ByteArray (list byte) :=
  if size <=? 0 then ret []
  else match fuel with
  | O => undef no_fuel
  | S fuel =>
      if size <=? ncap then
        d <- (fun ba => memcpy_from (m_cur ba) npos size ba) ;;
        (fun ba => (c <- deref (m_cur ba) ;;
                    if nd_size (snd c) =? npos + size then cur_next else ret tt) ba) ;;;
        add_position size ;;;
        ret d
      else
        d <- (fun ba => memcpy_from (m_cur ba) npos ncap ba) ;;
        add_position ncap ;;;
        cur_next ;;;
        rest <- (fun ba => (c <- deref (m_cur ba) ;;
                            read_loop fuel (size - ncap) 0 (nd_size (snd c))) ba) ;;
        ret (d ++ rest)
  end.

Definition read (size : Z) : M ByteArray (list byte) := fun ba =>
  if getReadSize ba <? size then Throw (out_of_range "not enough len") ba
  else
    (c <- deref (m_cur ba) ;;
     let npos := m_position ba mod m_basesize ba in
     let ncap := u64 (nd_size (snd c) - npos) in
     read_loop (S (length (m_nodes ba))) size npos ncap) ba.

(** The [while] loop of [read(buf, size, position)], which moves a local [cur]. *)
Fixpoint read_at_loop (fuel : nat) (cur : option nat) (size npos ncap : Z)
    : M ByteArray (list byte) :=
  if size <=? 0 then ret []
  else match fuel with
  | O => undef no_fuel
  | S fuel =>
      if size <=? ncap then memcpy_from cur npos size
      else
        d <- memcpy_from cur npos ncap ;;
        c <- deref cur ;;
        (fun ba =>
           let cur := next_of ba (fst c) in
           (c <- deref cur ;;
            rest <- read_at_loop fuel cur (size - ncap) 0 (nd_size (snd c)) ;;
            ret (d ++ rest)) ba)
  end.

Definition read_at (size position : Z) : M ByteArray (list byte) := fun ba =>
  if u64 (m_size ba - position) <? size then Throw (out_of_range "not enough len") ba
  else
    (c <- deref (m_cur ba) ;;
     let npos := position mod m_basesize ba in
     let ncap := u64 (nd_size (snd c) - npos) in
     read_at_loop (S (length (m_nodes ba))) (m_cur ba) size npos ncap) ba.

(** The [while] loop of [setPosition], which walks [m_cur] from [m_root]. *)
Fixpoint seek_loop (fuel : nat) (v : Z) : M ByteArray Z :=
  fun ba => (c <- deref (m_cur ba) ;;
    if nd_size (snd c) <? v then
      match fuel with
      | O => undef no_fuel
      | S fuel => cur_next ;;; seek_loop fuel (v - nd_size (snd c))
      end
    else ret v) ba.

Definition setPosition (v : Z) : M ByteArray unit := fun ba =>
  if m_capacity ba <? v then Throw (out_of_range "setPosition out of range") ba
  else
    (modify (fun ba => with_position ba v) ;;;
     modify (fun ba => if m_size ba <? m_position ba then with_size ba (m_position ba) else ba) ;;;
     modify (fun ba => with_cur ba (Some 0%nat)) ;;;
     v <- seek_loop (length (m_nodes ba)) v ;;
     (fun ba => (c <- deref (m_cur ba) ;;
                 if v =? nd_size (snd c) then cur_next else ret tt) ba)) ba.

(** [clear]: every node behind [m_root] is deleted. *)
Definition clear : M ByteArray unit := fun ba =>
  Ok tt (mkByteArray (m_basesize ba) 0 (m_basesize ba) 0 (m_endian ba)
           (take 1 (m_nodes ba)) (Some 0%nat)).

Definition toString : M ByteArray (list byte) := fun ba =>
  let n := getReadSize ba in
  if n =? 0 then Ok [] ba else read_at n (m_position ba) ba.

(** A [struct iovec]: a node, an offset into its memory and a length. *)
Record iovec := mkIovec { iov_node : nat; iov_off : Z; iov_len : Z }.

(** The [while] loop the three buffer getters share. *)
Fixpoint iov_loop (fuel : nat) (cur : option nat) (len npos ncap : Z) : M ByteArray (list iovec) :=
  if len <=? 0 then ret []
  else match fuel with
  | O => undef no_fuel
  | S fuel =>
      c <- deref cur ;;
      if len <=? ncap then ret [mkIovec (fst c) npos len]
      else
        (fun ba =>
           let cur' := next_of ba (fst c) in
           (c' <- deref cur' ;;
            rest <- iov_loop fuel cur' (len - ncap) 0 (nd_size (snd c')) ;;
            ret (mkIovec (fst c) npos ncap :: rest)) ba)
  end.

Definition getReadBuffers (len : Z) : M ByteArray (Z * list iovec) := fun ba =>
  if len =? 0 then Ok (0, []) ba
  else
    let len := if getReadSize ba <? len then getReadSize ba else len in
    (c <- deref (m_cur ba) ;;
     let npos := m_position ba mod m_basesize ba in
     let ncap := u64 (nd_size (snd c) - npos) in
     iovs <- iov_loop (S (length (m_nodes ba))) (m_cur ba) len npos ncap ;;
     ret (len, iovs)) ba.

(** [cur = cur->next], [count] times from [m_root] *)
Fixpoint skip_nodes (count : nat) (cur : option nat) : M ByteArray (option nat) :=
  match count with
  | O => ret cur
  | S count => c <- deref cur ;; (fun ba => skip_nodes count (next_of ba (fst c)) ba)
  end.

Definition getReadBuffers_at (len position : Z) : M ByteArray (Z * list iovec) := fun ba =>
  if (len =? 0) || (m_size ba <? position) then Ok (0, []) ba
  else
    let left := u64 (m_size ba - position) in
    let len := if left <? len then left else len in
    let npos := position mod m_basesize ba in
    (cur <- skip_nodes (Z.to_nat (position / m_basesize ba)) (Some 0%nat) ;;
     c <- deref (m_cur ba) ;;
     let ncap := u64 (nd_size (snd c) - npos) in
     iovs <- iov_loop (S (length (m_nodes ba))) cur len npos ncap ;;
     ret (len, iovs)) ba.

Definition getWriteBuffers (len : Z) : M ByteArray (Z * list iovec) := fun ba =>
  if len =? 0 then Ok (0, []) ba
  else
    (addCapacity len ;;;
     (fun ba =>
        (c <- deref (m_cur ba) ;;
         let npos := m_position ba mod m_basesize ba in
         let ncap := u64 (nd_size (snd c) - npos) in
         iovs <- iov_loop (S (length (m_nodes ba))) (m_cur ba) len npos ncap ;;
         ret (len, iovs)) ba)) ba.

(** [writeToFile]: [None] is the failure to open the file, [Some d] the bytes written to it. *)
Definition writeToFile (opened : bool) : M ByteArray (option (list byte)) := fun ba =>
  if negb opened then Ok None ba
  else
    let read_size := s64 (getReadSize ba) in
    (d <- read_at (u64 read_size) (m_position ba) ;; ret (Some d)) ba.

(** [readFromFile]: [file] is [None] when the file cannot be opened, otherwise its bytes.
    Each round of the loop reads up to [m_basesize] bytes; a round that gets fewer sets eof. *)
Fixpoint read_file_loop (fuel : nat) (file : list byte) : M ByteArray unit := fun ba =>
  let base := Z.to_nat (m_basesize ba) in
  let d := take base file in
  match fuel with
  | O => Undef no_fuel
  | S fuel =>
      (write d ;;;
       if (length d <? base)%nat then ret tt else read_file_loop fuel (drop base file)) ba
  end.

Definition readFromFile (file : option (list byte)) : M ByteArray bool :=
  match file with
  | None => ret false
  | Some f => read_file_loop (S (length f)) f ;;; ret true
  end.

End operations.
