(* ===== verification/ByteArrayRep.v ===== *)
(** * The representation invariant of ByteArray, and what its loops do to the flat contents

    [geom] is the shape the chain, the position and [m_cur] keep at every point of every
    operation; [wf] adds what holds between operations.  [flat] reads the chain as one list
    of bytes: the lemmas state each loop as an operation on that list. *)

From S2P Require Import Prelude ByteArray.

(** The node that holds offset [pos] of [n] blocks of [base] bytes. *)
Definition cur_of (base : Z) (n : nat) (pos : Z) : option nat :=
  let i := Z.to_nat (pos / base) in if (i <? n)%nat then Some i else None.

Definition flat (ba : ByteArray) : list byte := concat (nd_ptr <$> m_nodes ba).

Definition node_ok (base : Z) (nd : Node) : Prop :=
  nd_size nd = base /\ Z.of_nat (length (nd_ptr nd)) = base.

Record geom (ba : ByteArray) : Prop := {
  g_base : 0 < m_basesize ba;
  g_root : (0 < length (m_nodes ba))%nat;
  g_nodes : Forall (node_ok (m_basesize ba)) (m_nodes ba);
  g_cap : m_capacity ba = m_basesize ba * Z.of_nat (length (m_nodes ba));
  g_width : m_capacity ba < 2 ^ 64;
  g_pos : 0 <= m_position ba <= m_capacity ba;
  g_cur : m_cur ba = cur_of (m_basesize ba) (length (m_nodes ba)) (m_position ba) }.

Record wf (ba : ByteArray) : Prop := {
  wf_geom : geom ba;
  wf_size : m_position ba <= m_size ba <= m_capacity ba }.

(** What the loops leave alone. *)
Record frame (ba ba' : ByteArray) : Prop := {
  fr_base : m_basesize ba' = m_basesize ba;
  fr_cap : m_capacity ba' = m_capacity ba;
  fr_size : m_size ba' = m_size ba;
  fr_endian : m_endian ba' = m_endian ba;
  fr_nodes : length (m_nodes ba') = length (m_nodes ba) }.

#[export] Instance frame_refl : Reflexive frame.
Proof. by constructor. Qed.
#[export] Instance frame_trans : Transitive frame.
Proof. intros a b c [] []. constructor; congruence. Qed.

(** ** Positions and nodes *)

Lemma cur_of_at base n i o :
  0 < base -> 0 <= o < base ->
  cur_of base n (base * Z.of_nat i + o) = if (i <? n)%nat then Some i else None.
Proof.
  intros Hb Ho. unfold cur_of.
  replace (Z.to_nat ((base * Z.of_nat i + o) / base)) with i; [done|].
  rewrite Z.mul_comm, Z.div_add_l, Z.div_small by lia. lia.
Qed.

Lemma next_of_cur ba i :
  0 < m_basesize ba ->
  next_of ba i = cur_of (m_basesize ba) (length (m_nodes ba)) (m_basesize ba * Z.of_nat (S i)).
Proof.
  intros Hb. unfold next_of.
  rewrite <- (Z.add_0_r (_ * _)). rewrite cur_of_at by lia. done.
Qed.

Lemma length_flat ba : geom ba -> Z.of_nat (length (flat ba)) = m_capacity ba.
Proof.
  intros G. unfold flat. rewrite (length_concat_blocks (Z.to_nat (m_basesize ba))).
  - rewrite length_fmap, (g_cap ba G). pose proof (g_base ba G). lia.
  - apply Forall_fmap. eapply Forall_impl; [apply (g_nodes ba G)|].
    intros nd [_ E]. simpl. lia.
Qed.

(** The position is inside the chain: [m_cur] is the node that holds it. *)
Lemma cur_here ba :
  geom ba -> m_position ba < m_capacity ba ->
  exists i nd, m_cur ba = Some i /\ m_nodes ba !! i = Some nd /\ node_ok (m_basesize ba) nd /\
    m_position ba = m_basesize ba * Z.of_nat i + m_position ba mod m_basesize ba /\
    0 <= m_position ba mod m_basesize ba < m_basesize ba.
Proof.
  intros G Hlt. pose proof (g_base _ G). pose proof (g_pos _ G).
  set (i := Z.to_nat (m_position ba / m_basesize ba)).
  assert (Z.of_nat i = m_position ba / m_basesize ba) as Ei
    by (subst i; rewrite Z2Nat.id; [done | apply Z.div_pos; lia]).
  pose proof (Z.div_mod (m_position ba) (m_basesize ba) ltac:(lia)) as E.
  pose proof (Z.mod_pos_bound (m_position ba) (m_basesize ba) ltac:(lia)).
  rewrite <- Ei in E.
  assert (i < length (m_nodes ba))%nat as Hi by (rewrite (g_cap _ G) in Hlt; nia).
  destruct (lookup_lt_is_Some_2 _ _ Hi) as [nd Hnd].
  exists i, nd. split_and!; try done; try lia.
  - rewrite (g_cur _ G). unfold cur_of. fold i. by apply Nat.ltb_lt in Hi as ->.
  - eapply Forall_lookup_1; [apply (g_nodes _ G)|done].
Qed.

(** At the end of the chain [m_cur] is the null pointer. *)
Lemma cur_end ba : geom ba -> m_position ba = m_capacity ba -> m_cur ba = None.
Proof.
  intros G E. pose proof (g_base _ G). rewrite (g_cur _ G), E, (g_cap _ G).
  rewrite <- (Z.add_0_r (_ * _)), cur_of_at by lia. by rewrite Nat.ltb_irrefl.
Qed.

Lemma deref_ok ba i nd : m_nodes ba !! i = Some nd -> deref (Some i) ba = Ok (i, nd) ba.
Proof. intros E. unfold deref. by rewrite E. Qed.

(** ** The copies *)

Lemma memcpy_from_ok ba i nd npos n :
  geom ba -> m_nodes ba !! i = Some nd -> 0 <= npos -> 0 <= n -> npos + n <= m_basesize ba ->
  memcpy_from (Some i) npos n ba =
    Ok (slice (Z.to_nat (m_basesize ba * Z.of_nat i + npos)) (Z.to_nat n) (flat ba)) ba.
Proof.
  intros G E ???. pose proof (g_base _ G).
  destruct (Forall_lookup_1 _ _ _ _ (g_nodes _ G) E) as [_ El].
  unfold memcpy_from. run (deref_ok _ _ _ E).
  replace ((0 <=? npos) && (0 <=? n) && (npos + n <=? Z.of_nat (length (nd_ptr nd))))
    with true by lia.
  unfold ret, flat. f_equal.
  replace (Z.to_nat (m_basesize ba * Z.of_nat i + npos))
    with (Z.to_nat (m_basesize ba) * i + Z.to_nat npos)%nat by nia.
  symmetry. apply slice_concat; [|by rewrite list_lookup_fmap, E|lia].
  apply Forall_fmap. eapply Forall_impl; [apply (g_nodes _ G)|]. intros x [_ Ex]. simpl. lia.
Qed.

Lemma memcpy_to_ok ba i nd npos d :
  geom ba -> m_nodes ba !! i = Some nd -> 0 <= npos ->
  npos + Z.of_nat (length d) <= m_basesize ba ->
  exists ba', memcpy_to (Some i) npos d ba = Ok tt ba' /\ frame ba ba' /\ geom ba' /\
    m_position ba' = m_position ba /\ m_cur ba' = m_cur ba /\
    flat ba' = splice (Z.to_nat (m_basesize ba * Z.of_nat i + npos)) d (flat ba).
Proof.
  intros G E ??. pose proof (g_base _ G).
  destruct (Forall_lookup_1 _ _ _ _ (g_nodes _ G) E) as [Es El].
  eexists. split_and!.
  - unfold memcpy_to. run (deref_ok _ _ _ E).
    by replace ((0 <=? npos) && (npos + Z.of_nat (length d) <=? Z.of_nat (length (nd_ptr nd))))
      with true by lia.
  - constructor; simpl; try done. by rewrite length_insert.
  - destruct G. constructor; simpl; try done; rewrite ?length_insert; try done.
    apply Forall_insert; [done|]. split; [done|]. simpl. rewrite length_splice; lia.
  - done.
  - done.
  - unfold flat; simpl. rewrite list_fmap_insert; simpl.
    replace (Z.to_nat (m_basesize ba * Z.of_nat i + npos))
      with (Z.to_nat (m_basesize ba) * i + Z.to_nat npos)%nat by nia.
    apply splice_concat; [|by rewrite list_lookup_fmap, E|lia].
    apply Forall_fmap. eapply Forall_impl; [apply (g_nodes _ G)|]. intros x [_ Ex]. simpl. lia.
Qed.

(** ** Moving on after a copy *)

(** [ba] with the position moved by [n] and [m_cur] set to the node of the new position. *)
Definition moved (ba : ByteArray) (n : Z) : ByteArray :=
  with_cur (with_position ba (m_position ba + n))
    (cur_of (m_basesize ba) (length (m_nodes ba)) (m_position ba + n)).

Lemma moved_frame ba n : frame ba (moved ba n).
Proof. by constructor. Qed.

Lemma moved_geom ba n :
  geom ba -> 0 <= m_position ba + n <= m_capacity ba -> geom (moved ba n).
Proof. intros [] ?. by constructor. Qed.

Lemma moved_0 ba : geom ba -> moved ba 0 = ba.
Proof.
  intros G. pose proof (g_cur _ G) as E. destruct ba; unfold moved; simpl in *.
  by rewrite Z.add_0_r, <- E.
Qed.

Lemma moved_moved ba n m : moved (moved ba n) m = moved ba (n + m).
Proof. unfold moved; simpl. by rewrite Z.add_assoc. Qed.

(** The copy ended inside node [i] or at its end. *)
Lemma finish_ok {A} ba i nd npos n (k : M ByteArray A) :
  geom ba -> m_cur ba = Some i -> m_nodes ba !! i = Some nd ->
  m_position ba = m_basesize ba * Z.of_nat i + npos ->
  0 <= npos -> 0 <= n -> 0 < npos + n <= m_basesize ba ->
  ((fun ba => (c <- deref (m_cur ba) ;;
               if nd_size (snd c) =? npos + n then cur_next else ret tt) ba) ;;;
   add_position n ;;; k) ba = k (moved ba n).
Proof.
  intros G Ec E Ep ???. pose proof (g_base _ G).
  destruct (Forall_lookup_1 _ _ _ _ (g_nodes _ G) E) as [Es El].
  assert (i < length (m_nodes ba))%nat as Hi by by eapply lookup_lt_Some.
  unfold bind at 1. rewrite Ec, (bind_ok _ _ _ _ _ (deref_ok _ _ _ E)); simpl.
  unfold moved. rewrite Ep. rewrite Es. destruct (Z.eqb_spec (m_basesize ba) (npos + n)) as [Eb|Nb].
  - unfold cur_next. rewrite Ec, (bind_ok _ _ _ _ _ (deref_ok _ _ _ E)); simpl.
    unfold bind, add_position, modify, with_position, with_cur; simpl.
    rewrite next_of_cur by done. rewrite Ep. do 2 f_equal. f_equal. lia.
  - unfold bind, ret, add_position, modify, with_position, with_cur; simpl.
    rewrite <- (Z.add_assoc _ npos n), cur_of_at by lia.
    apply Nat.ltb_lt in Hi as ->. by rewrite Ec, Ep, <- Z.add_assoc.
Qed.

(** The copy went to the end of node [i], and more is to come. *)
Lemma advance_ok {A} ba i nd npos n (k : M ByteArray A) :
  geom ba -> m_cur ba = Some i -> m_nodes ba !! i = Some nd ->
  m_position ba = m_basesize ba * Z.of_nat i + npos ->
  0 <= npos < m_basesize ba -> n = m_basesize ba - npos ->
  (add_position n ;;; cur_next ;;; k) ba = k (moved ba n).
Proof.
  intros G Ec E Ep ? ->. pose proof (g_base _ G).
  unfold bind at 1, add_position, modify at 1. unfold bind at 1, cur_next; simpl. rewrite Ec.
  rewrite (bind_ok _ _ (with_position ba (m_position ba + (m_basesize ba - npos)))
             (i, nd) _ (deref_ok (with_position ba _) _ _ E)); simpl.
  unfold moved, next_of, with_cur; simpl. rewrite Ep.
  replace (m_basesize ba * Z.of_nat i + npos + (m_basesize ba - npos))
    with (m_basesize ba * Z.of_nat (S i) + 0) by lia.
  by rewrite cur_of_at by lia.
Qed.

(** ** The loops *)

Lemma moved_here ba i npos n :
  geom ba -> m_position ba = m_basesize ba * Z.of_nat i + npos -> npos + n = m_basesize ba ->
  0 <= n -> m_position ba + n < m_capacity ba ->
  exists nd, m_cur (moved ba n) = Some (S i) /\ m_nodes ba !! S i = Some nd /\
    nd_size nd = m_basesize ba.
Proof.
  intros G Ep En Hn Hc. pose proof (g_base _ G). pose proof (g_pos _ G).
  assert (S i < length (m_nodes ba))%nat as Hi by (rewrite (g_cap _ G) in Hc; nia).
  destruct (lookup_lt_is_Some_2 _ _ Hi) as [nd Hnd]. exists nd. split_and!; [|done|].
  - unfold moved; simpl. rewrite Ep.
    replace (m_basesize ba * Z.of_nat i + npos + n) with (m_basesize ba * Z.of_nat (S i) + 0) by lia.
    rewrite cur_of_at by lia. by apply Nat.ltb_lt in Hi as ->.
  - by destruct (Forall_lookup_1 _ _ _ _ (g_nodes _ G) Hnd).
Qed.

Lemma read_loop_ok fuel : forall ba i nd npos n,
  geom ba -> m_cur ba = Some i -> m_nodes ba !! i = Some nd ->
  m_position ba = m_basesize ba * Z.of_nat i + npos -> 0 <= npos < m_basesize ba ->
  0 <= n -> m_position ba + n <= m_capacity ba ->
  (length (m_nodes ba) <= fuel + i)%nat ->
  read_loop fuel n npos (m_basesize ba - npos) ba =
    Ok (slice (Z.to_nat (m_position ba)) (Z.to_nat n) (flat ba)) (moved ba n).
Proof.
  induction fuel as [|fuel IH]; intros ba i nd npos n G Ec E Ep Hnpos Hn Hcap Hfuel;
    cbn [read_loop]; pose proof (g_base _ G);
    assert (i < length (m_nodes ba))%nat as Hi by (by eapply lookup_lt_Some); [lia|].
  destruct (Z.leb_spec n 0).
  { replace n with 0 by lia. by rewrite moved_0. }
  destruct (Z.leb_spec n (m_basesize ba - npos)) as [Hfit|Hmore].
  - unfold bind at 1. rewrite Ec, (memcpy_from_ok _ _ _ _ _ G E) by lia.
    rewrite (finish_ok ba i nd) by (done || lia). unfold ret. by rewrite Ep.
  - unfold bind at 1. rewrite Ec, (memcpy_from_ok _ _ _ _ _ G E) by lia.
    rewrite (advance_ok ba i nd npos) by (done || lia).
    set (m := m_basesize ba - npos) in *.
    assert (geom (moved ba m)) as G' by (apply moved_geom; [done|lia]).
    destruct (moved_here ba i npos m) as (nd' & Ec' & E' & Es'); [done..|lia|lia|lia|].
    unfold bind at 1. rewrite Ec'.
    run (deref_ok (moved ba m) (S i) nd' E'); simpl. rewrite Es'.
    pose proof (IH (moved ba m) (S i) nd' 0 (n - m) G' Ec' E') as IH'. simpl in IH'.
    rewrite !Z.sub_0_r in IH'. rewrite IH' by lia.
    unfold ret. rewrite moved_moved.
    replace (m + (n - m)) with n by lia. f_equal.
    replace (Z.to_nat n) with (Z.to_nat m + Z.to_nat (n - m))%nat by lia.
    rewrite slice_split, Ep. repeat f_equal; lia.
Qed.

Lemma write_loop_ok fuel : forall ba i nd npos d,
  geom ba -> m_cur ba = Some i -> m_nodes ba !! i = Some nd ->
  m_position ba = m_basesize ba * Z.of_nat i + npos -> 0 <= npos < m_basesize ba ->
  m_position ba + Z.of_nat (length d) <= m_capacity ba ->
  (length (m_nodes ba) <= fuel + i)%nat ->
  exists ba', write_loop fuel d npos (m_basesize ba - npos) ba = Ok tt ba' /\
    frame ba ba' /\ geom ba' /\ m_position ba' = m_position ba + Z.of_nat (length d) /\
    flat ba' = splice (Z.to_nat (m_position ba)) d (flat ba).
Proof.
  induction fuel as [|fuel IH]; intros ba i nd npos d G Ec E Ep Hnpos Hcap Hfuel;
    cbn [write_loop]; pose proof (g_base _ G); pose proof (g_pos _ G); pose proof (length_flat _ G);
    assert (i < length (m_nodes ba))%nat as Hi by (by eapply lookup_lt_Some); [lia|].
  destruct (Z.leb_spec (Z.of_nat (length d)) 0).
  { assert (d = []) as -> by (apply nil_length_inv; lia). exists ba. rewrite splice_nil.
    split_and!; [done|reflexivity|done|simpl; lia|done]. }
  destruct (Z.leb_spec (Z.of_nat (length d)) (m_basesize ba - npos)) as [Hfit|Hmore].
  - destruct (memcpy_to_ok ba i nd npos d G E) as (b1 & E1 & F1 & G1 & P1 & C1 & L1); [lia..|].
    assert (exists nd1, m_nodes b1 !! i = Some nd1) as [nd1 N1]
      by (apply lookup_lt_is_Some_2; rewrite (fr_nodes _ _ F1); lia).
    exists (moved b1 (Z.of_nat (length d))). unfold bind at 1. rewrite Ec, E1.
    pose proof (@finish_ok unit b1 i nd1 npos (Z.of_nat (length d)) (ret tt)) as Fin.
    rewrite (fr_base _ _ F1), P1, C1 in Fin. specialize (Fin G1 Ec N1 Ep).
    split_and!.
    + etrans; [|apply Fin; lia]. apply bind_ext. intros. symmetry. apply bind_unit_r.
    + etrans; [exact F1|apply moved_frame].
    + apply moved_geom; [done|]. rewrite P1, (fr_cap _ _ F1). lia.
    + simpl. lia.
    + change (flat (moved _ _)) with (flat b1). rewrite L1. do 2 f_equal. lia.
  - set (m := m_basesize ba - npos) in *.
    destruct (memcpy_to_ok ba i nd npos (take (Z.to_nat m) d) G E)
      as (b1 & E1 & F1 & G1 & P1 & C1 & L1); [lia|rewrite length_take; lia|].
    assert (exists nd1, m_nodes b1 !! i = Some nd1) as [nd1 N1]
      by (apply lookup_lt_is_Some_2; rewrite (fr_nodes _ _ F1); lia).
    unfold bind at 1. rewrite Ec, E1.
    pose proof (fr_base _ _ F1) as B1. pose proof (fr_cap _ _ F1) as K1.
    rewrite (advance_ok b1 i nd1 npos) by (congruence || lia).
    assert (geom (moved b1 m)) as G' by (apply moved_geom; [done|lia]).
    destruct (moved_here b1 i npos m) as (nd' & Ec' & E' & Es'); [done|lia..|].
    rewrite Ec', (bind_ok _ _ _ _ _ (deref_ok (moved b1 m) (S i) nd' E')); simpl.
    destruct (IH (moved b1 m) (S i) nd' 0 (drop (Z.to_nat m) d) G' Ec' E')
      as (b2 & E2 & F2 & G2 & P2 & L2); simpl in *.
    1-3: rewrite ?length_drop; lia.
    { rewrite (fr_nodes _ _ F1). lia. }
    rewrite Z.sub_0_r, B1 in E2. rewrite Es', B1. exists b2. split_and!.
    + done.
    + etrans; [exact F1|]. etrans; [apply moved_frame|exact F2].
    + done.
    + rewrite P2, length_drop. lia.
    + rewrite L2. change (flat (moved _ _)) with (flat b1). rewrite L1, P1.
      rewrite <- (take_drop (Z.to_nat m) d) at 3.
      rewrite splice_app by (rewrite length_take, length_drop; lia).
      rewrite length_take. f_equal; [lia|]. f_equal. lia.
Qed.

(** ** Growing the chain *)

Section growing.
Context `{Allocator}.

Definition new_nodes (base : Z) (from count : nat) : list Node :=
  (fun k => new_Node k base) <$> seq from count.

Lemma new_nodes_ok base from count : 0 <= base -> Forall (node_ok base) (new_nodes base from count).
Proof.
  intros Hb. apply Forall_fmap, Forall_forall. intros k _. split; [done|]. simpl.
  rewrite length_fmap, length_seq. lia.
Qed.

Lemma append_nodes_ok count : forall ba,
  append_nodes count ba =
    Ok tt (with_nodes ba (m_nodes ba ++ new_nodes (m_basesize ba) (length (m_nodes ba)) count)
             (m_capacity ba + m_basesize ba * Z.of_nat count)).
Proof.
  induction count as [|count IH]; intros ba; cbn [append_nodes].
  - unfold ret, with_nodes. destruct ba; simpl. by rewrite app_nil_r, Z.mul_0_r, Z.add_0_r.
  - unfold bind at 1, modify at 1. rewrite IH. unfold with_nodes; simpl. do 2 f_equal; [lia|].
    rewrite length_app, Nat.add_1_r. by rewrite <- app_assoc.
Qed.

Lemma ceil_div a b : 0 < b -> 0 <= a ->
  let c := a / b + (if a mod b =? 0 then 0 else 1) in
  0 <= c /\ a <= b * c < a + b /\ (c = 0 -> a = 0).
Proof.
  intros Hb Ha. pose proof (Z.div_mod a b ltac:(lia)). pose proof (Z.mod_pos_bound a b Hb).
  pose proof (Z.div_pos a b Ha Hb).
  destruct (Z.eqb_spec (a mod b) 0); cbn zeta; split_and!; nia.
Qed.

(** Enough capacity behind the position, nothing else changed. *)
Record grown (ba ba' : ByteArray) (n : Z) : Prop := {
  gr_geom : geom ba';
  gr_base : m_basesize ba' = m_basesize ba;
  gr_position : m_position ba' = m_position ba;
  gr_size : m_size ba' = m_size ba;
  gr_endian : m_endian ba' = m_endian ba;
  gr_flat : exists x, flat ba' = flat ba ++ x;
  gr_room : m_position ba + n <= m_capacity ba';
  gr_cap : m_capacity ba <= m_capacity ba' }.

Lemma getCapacity_ok ba : geom ba -> getCapacity ba = m_capacity ba - m_position ba.
Proof.
  intros G. pose proof (g_pos _ G). pose proof (g_width _ G).
  apply uwrap_id. fits.
Qed.

Lemma addCapacity_ok ba n :
  geom ba -> 0 <= n -> m_position ba + n + m_basesize ba <= 2 ^ 64 ->
  exists ba', addCapacity n ba = Ok tt ba' /\ grown ba ba' n.
Proof.
  intros G Hn Hw. pose proof (g_base _ G). pose proof (g_pos _ G).
  assert (forall m, m_position ba + m <= m_capacity ba -> grown ba ba m) as Same.
  { intros m ?. constructor; try done; try lia. exists []. by rewrite app_nil_r. }
  unfold addCapacity. destruct (Z.eqb_spec n 0) as [->|Hn0]; [exists ba; split; [done|apply Same; lia]|].
  rewrite getCapacity_ok by done.
  destruct (Z.ltb_spec n (m_capacity ba - m_position ba)).
  { exists ba. split; [done|]. apply Same. lia. }
  unfold u64. rewrite uwrap_id by fits.
  set (a := n - (m_capacity ba - m_position ba)).
  destruct (ceil_div a (m_basesize ba)) as (Hc & Hca & Hc0); [lia..|].
  set (c := a / m_basesize ba + (if a mod m_basesize ba =? 0 then 0 else 1)) in *.
  unfold bind at 1. rewrite append_nodes_ok. rewrite Z2Nat.id by done.
  set (ns := m_nodes ba ++ _). set (cap := m_capacity ba + _).
  set (b1 := with_nodes ba ns cap).
  set (cur := cur_of (m_basesize ba) (length ns) (m_position ba)).
  assert (length ns = length (m_nodes ba) + Z.to_nat c)%nat as Hl
    by (subst ns; by rewrite length_app; unfold new_nodes; rewrite length_fmap, length_seq).
  exists (with_cur b1 cur). split.
  - destruct (Z.eqb_spec (m_capacity ba - m_position ba) 0) as [E0|E0].
    + unfold modify. do 2 f_equal. subst cur. replace (m_position ba) with (m_capacity ba) by lia.
      rewrite (g_cap _ G), <- (Z.add_0_r (_ * _)), cur_of_at by lia.
      rewrite Hl. destruct (Z.ltb_spec 0 c).
      * rewrite (proj2 (Nat.ltb_lt _ _)) by lia. done.
      * lia.
    + unfold ret. f_equal. subst b1. unfold with_cur, with_nodes; simpl. f_equal.
      destruct (cur_here ba G ltac:(lia)) as (i & nd & Ei & Hi & _ & Ep & Hm).
      rewrite Ei. subst cur. rewrite Ep, cur_of_at by lia.
      apply lookup_lt_Some in Hi. by rewrite (proj2 (Nat.ltb_lt _ _)) by lia.
  - constructor; simpl; try done; try lia.
    + constructor; simpl; try done; try lia.
      * rewrite Hl. pose proof (g_root _ G). lia.
      * apply Forall_app. split; [apply (g_nodes _ G)|apply new_nodes_ok; lia].
      * subst cap. rewrite Hl, (g_cap _ G). lia.
    + unfold flat; simpl. subst ns. rewrite fmap_app, concat_app. eauto.
Qed.

End growing.

(** ** Seeking *)

Definition at_node (ba : ByteArray) (i : nat) : ByteArray := with_cur ba (Some i).

Lemma seek_loop_ok fuel : forall ba i v,
  0 < m_basesize ba -> Forall (node_ok (m_basesize ba)) (m_nodes ba) ->
  0 <= v -> m_basesize ba * Z.of_nat i + v <= m_basesize ba * Z.of_nat (length (m_nodes ba)) ->
  (i < length (m_nodes ba))%nat -> (length (m_nodes ba) <= fuel + i)%nat ->
  exists j w, seek_loop fuel v (at_node ba i) = Ok w (at_node ba j) /\
    (j < length (m_nodes ba))%nat /\ 0 <= w <= m_basesize ba /\
    m_basesize ba * Z.of_nat j + w = m_basesize ba * Z.of_nat i + v /\ (v = 0 \/ 0 < w).
Proof.
  induction fuel as [|fuel IH]; intros ba i v Hb Hall Hv Hle Hi Hfuel; [lia|].
  destruct (lookup_lt_is_Some_2 _ _ Hi) as [nd Hnd].
  destruct (Forall_lookup_1 _ _ _ _ Hall Hnd) as [Es _].
  cbn [seek_loop]. cbn [at_node with_cur m_cur].
  run (deref_ok (at_node ba i) i nd Hnd); simpl. rewrite Es.
  destruct (Z.ltb_spec (m_basesize ba) v).
  - assert (S i < length (m_nodes ba))%nat as Hi' by nia.
    unfold bind, cur_next; simpl. unfold bind, deref; simpl. rewrite Hnd; simpl.
    unfold modify, next_of; simpl. rewrite (proj2 (Nat.ltb_lt _ _)) by lia.
    destruct (IH ba (S i) (v - m_basesize ba)) as (j & w & E & ? & ? & ? & ?); [done|done|lia..|].
    exists j, w. split; [exact E|]. split_and!; lia.
  - exists i, v. split; [done|]. split_and!; lia.
Qed.
