(* ===== verification/ByteIO.v ===== *)
(** * The byte stream interface

    What [ByteArray] promises to its clients (the codecs of bytearray.cpp, Stream,
    SockStream): an abstract stream of bytes with a position, and the laws that relate
    writing and reading to it.  Clients are proved against the class [ByteIOSpec];
    [ByteArraySpec] proves its instance. *)

From S2P Require Import Prelude.

(** The abstract stream: the bytes written so far and the position, plus the byte order. *)
Record stream := mkStream { st_bytes : list byte; st_pos : Z; st_endian : Z }.

Definition spec_write (d : list byte) (s : stream) : stream :=
  mkStream (splice (Z.to_nat (st_pos s)) d (st_bytes s)) (st_pos s + Z.of_nat (length d))
    (st_endian s).
Definition spec_skip (n : Z) (s : stream) : stream :=
  mkStream (st_bytes s) (st_pos s + n) (st_endian s).
Definition spec_seek (v : Z) (junk : list byte) (s : stream) : stream :=
  mkStream (st_bytes s ++ junk) v (st_endian s).
Definition unread (s : stream) : list byte := drop (Z.to_nat (st_pos s)) (st_bytes s).

(** The operations the codecs call. *)
Class ByteIO (S : Type) := {
  io_write : list byte -> M S unit;
  io_read : Z -> M S (list byte);
  io_endian : S -> Z }.

(** Their laws. [io_room s n]: the address space has room for [n] more bytes. *)
Class ByteIOSpec (S : Type) `{ByteIO S} := {
  io_abs : S -> stream;
  io_ok : S -> Prop;
  io_room : S -> Z -> Prop;
  io_pos_ok : forall s, io_ok s -> 0 <= st_pos (io_abs s) <= Z.of_nat (length (st_bytes (io_abs s)));
  io_endian_ok : forall s, io_endian s = st_endian (io_abs s);
  io_write_ok : forall s d, io_ok s -> io_room s (Z.of_nat (length d)) ->
    exists s', io_write d s = Ok tt s' /\ io_ok s' /\ io_abs s' = spec_write d (io_abs s) /\
      forall m, 0 <= m -> io_room s (Z.of_nat (length d) + m) -> io_room s' m;
  io_read_ok : forall s n, io_ok s -> unread (io_abs s) <> [] -> 0 <= n <= Z.of_nat (length (unread (io_abs s))) ->
    exists s', io_read n s = Ok (take (Z.to_nat n) (unread (io_abs s))) s' /\ io_ok s' /\
      io_abs s' = spec_skip n (io_abs s);
  io_read_short : forall s n, io_ok s -> Z.of_nat (length (unread (io_abs s))) < n ->
    io_read n s = Throw (out_of_range "not enough len") s }.

Section derived.
Context {T : Type} `{ByteIOSpec T}.
Implicit Types (s : T).

(** [s] is about to read the bytes [d]. *)
Definition reads s (d : list byte) : Prop := io_ok s /\ unread (io_abs s) = d.

Lemma unread_skip n st :
  0 <= n -> 0 <= st_pos st -> unread (spec_skip n st) = drop (Z.to_nat n) (unread st).
Proof. intros. unfold unread; simpl. rewrite drop_drop. f_equal. lia. Qed.

(** Reading exactly the next bytes [d], which may be none where some are left. *)
Lemma io_take s d rest :
  reads s (d ++ rest) -> d ++ rest <> [] ->
  exists s', io_read (Z.of_nat (length d)) s = Ok d s' /\ reads s' rest /\
    io_abs s' = spec_skip (Z.of_nat (length d)) (io_abs s).
Proof.
  intros [Hok Hu] Hd. destruct (io_read_ok s (Z.of_nat (length d)) Hok) as (s' & E & Hok' & Ea).
  { by rewrite Hu. }
  { rewrite Hu, length_app. lia. }
  exists s'. rewrite E, Nat2Z.id, Hu, take_app_length. split_and!; [done| |done].
  split; [done|]. pose proof (io_pos_ok s Hok). rewrite Ea, unread_skip by lia.
  by rewrite Nat2Z.id, Hu, drop_app_length.
Qed.

(** Splicing [d] at a position and unreading from there gives [d] and what was behind it. *)
Lemma unread_write d st :
  0 <= st_pos st <= Z.of_nat (length (st_bytes st)) ->
  drop (Z.to_nat (st_pos st)) (st_bytes (spec_write d st)) =
    d ++ drop (length d) (unread st).
Proof.
  intros Hp. unfold unread, spec_write, splice; simpl.
  rewrite drop_app_ge by (rewrite length_take; lia).
  rewrite length_take, Nat.min_l, Nat.sub_diag by lia. by rewrite drop_0, drop_drop.
Qed.

Lemma spec_write_app d1 d2 st :
  0 <= st_pos st <= Z.of_nat (length (st_bytes st)) ->
  spec_write d2 (spec_write d1 st) = spec_write (d1 ++ d2) st.
Proof.
  intros Hp. unfold spec_write; simpl. f_equal; [|rewrite length_app; lia].
  unfold splice. rewrite length_app. set (p := Z.to_nat (st_pos st)).
  replace (Z.to_nat (st_pos st + Z.of_nat (length d1))) with (p + length d1)%nat by lia.
  rewrite take_app_ge, length_take, Nat.min_l by (rewrite ?length_take; lia).
  replace (p + length d1 - p)%nat with (length d1) by lia. rewrite take_app_length.
  rewrite <- !app_assoc. do 3 f_equal.
  rewrite drop_app_ge, length_take, Nat.min_l by (rewrite ?length_take; lia).
  rewrite drop_app_ge by lia. rewrite drop_drop. f_equal. lia.
Qed.

(** Two writes in a row are one write. *)
Lemma io_write_write s d1 d2 :
  io_ok s -> io_room s (Z.of_nat (length d1)) ->
  io_room s (Z.of_nat (length d1) + Z.of_nat (length d2)) ->
  exists s', (io_write d1 ;;; io_write d2) s = Ok tt s' /\ io_ok s' /\
    io_abs s' = spec_write (d1 ++ d2) (io_abs s).
Proof.
  intros Hok Hr1 Hr2. destruct (io_write_ok s d1 Hok Hr1) as (s1 & E1 & Hok1 & A1 & R1).
  destruct (io_write_ok s1 d2 Hok1) as (s2 & E2 & Hok2 & A2 & _); [apply R1; [lia|done]|].
  exists s2. rewrite (bind_ok _ _ _ _ _ E1), E2. split_and!; [done..|].
  rewrite A2, A1. apply spec_write_app, io_pos_ok, Hok.
Qed.

End derived.
