(* ===== verification/ByteArraySpec.v ===== *)
(** * ByteArray refines the abstract byte stream

    Functional correctness of every operation of [ByteArray] over the abstract stream of
    [ByteIO], the instance of the [ByteIOSpec] interface, and the places where the code
    reaches a null pointer. *)

From S2P Require Import Prelude ByteArray ByteArrayRep ByteIO.

Section spec.
Context `{Allocator}.
Implicit Types (ba : ByteArray) (d : list byte).

(** The abstraction: the [m_size] first bytes of the chain. *)
Definition abs ba : stream :=
  mkStream (take (Z.to_nat (m_size ba)) (flat ba)) (m_position ba) (m_endian ba).

(** The size arithmetic of a write of [n] bytes stays inside [size_t]. *)
Definition room ba (n : Z) : Prop := m_position ba + n + m_basesize ba <= 2 ^ 64.

Lemma wf_new base : 0 < base < 2 ^ 64 -> wf (new_ByteArray base).
Proof.
  intros Hb. constructor; [|simpl; lia].
  constructor; simpl; try lia.
  - apply Forall_singleton. split; [done|]. simpl. rewrite length_fmap, length_seq. lia.
  - rewrite <- (Z.add_0_r 0) at 1.
    replace (0 + 0) with (base * Z.of_nat 0 + 0) by lia. by rewrite cur_of_at by lia.
Qed.

Lemma length_abs ba : wf ba -> Z.of_nat (length (st_bytes (abs ba))) = m_size ba.
Proof.
  intros [G Hs]. simpl. pose proof (length_flat _ G). pose proof (g_pos _ G).
  rewrite length_take. lia.
Qed.

Lemma getReadSize_ok ba : wf ba -> getReadSize ba = m_size ba - m_position ba.
Proof.
  intros [G Hs]. pose proof (g_pos _ G). pose proof (g_width _ G).
  apply uwrap_id. fits.
Qed.

Lemma length_unread ba :
  wf ba -> Z.of_nat (length (unread (abs ba))) = m_size ba - m_position ba.
Proof.
  intros W. pose proof (length_abs _ W). destruct W as [G Hs]. pose proof (g_pos _ G).
  unfold unread. rewrite length_drop. simpl in *. lia.
Qed.

Lemma slice_unread ba n :
  wf ba -> 0 <= n <= m_size ba - m_position ba ->
  slice (Z.to_nat (m_position ba)) (Z.to_nat n) (flat ba) = take (Z.to_nat n) (unread (abs ba)).
Proof.
  intros [G Hs] Hn. pose proof (g_pos _ G). unfold slice, unread; simpl.
  rewrite skipn_firstn_comm, take_take. f_equal. lia.
Qed.

Lemma moved_wf ba n : wf ba -> 0 <= n <= m_size ba - m_position ba -> wf (moved ba n).
Proof.
  intros [G Hs] Hn. pose proof (g_pos _ G). constructor; [apply moved_geom; [done|lia]|].
  simpl. lia.
Qed.

(** The position of a loop that starts at [m_cur]. *)
Lemma start_ncap ba nd :
  geom ba -> node_ok (m_basesize ba) nd ->
  u64 (nd_size nd - m_position ba mod m_basesize ba) =
    m_basesize ba - m_position ba mod m_basesize ba.
Proof.
  intros G [-> _]. pose proof (g_base _ G). pose proof (g_root _ G). pose proof (g_width _ G).
  pose proof (Z.mod_pos_bound (m_position ba) (m_basesize ba) ltac:(lia)).
  assert (m_basesize ba <= m_capacity ba) by (rewrite (g_cap _ G); nia).
  apply uwrap_id. fits.
Qed.

(** ** read *)

Lemma read_ok ba n :
  wf ba -> 0 <= n <= m_size ba - m_position ba -> m_position ba < m_capacity ba ->
  read n ba = Ok (take (Z.to_nat n) (unread (abs ba))) (moved ba n).
Proof.
  intros W Hn Hlt. pose proof W as [G Hs].
  unfold read. rewrite getReadSize_ok by done.
  rewrite (proj2 (Z.ltb_ge _ _)) by lia.
  destruct (cur_here ba G Hlt) as (i & nd & Ec & E & Nd & Ep & Hm).
  rewrite Ec. run (deref_ok _ _ _ E). cbv zeta beta. cbn [snd].
  rewrite start_ncap by done.
  rewrite (read_loop_ok _ ba i nd) by (done || lia).
  by rewrite slice_unread by done.
Qed.

Lemma read_short ba n :
  wf ba -> m_size ba - m_position ba < n -> read n ba = Throw (out_of_range "not enough len") ba.
Proof. intros W ?. unfold read. rewrite getReadSize_ok by done. by rewrite (proj2 (Z.ltb_lt _ _)) by lia. Qed.

Lemma read_end ba n :
  wf ba -> n <= m_size ba - m_position ba -> m_position ba = m_capacity ba ->
  read n ba = Undef null_deref.
Proof.
  intros [G Hs] Hn He. unfold read. rewrite getReadSize_ok by done.
  rewrite (proj2 (Z.ltb_ge _ _)) by lia. by rewrite (cur_end _ G He).
Qed.

(** ** write *)

Lemma take_splice_grow {A} (l x d : list A) p n :
  (p <= n)%nat -> (n <= length l)%nat -> (p + length d <= length (l ++ x))%nat ->
  take (Nat.max n (p + length d)) (splice p d (l ++ x)) = splice p d (take n l).
Proof.
  intros Hp Hn Hl. rewrite length_app in Hl.
  apply list_eq. intros i. unfold splice.
  destruct (decide (i < Nat.max n (p + length d))%nat) as [Hi|Hi].
  - rewrite lookup_take_lt by done.
    destruct (decide (i < p)%nat).
    { rewrite !lookup_app_l by (rewrite length_take, ?length_take, ?length_app; lia).
      rewrite !lookup_take_lt by lia. by rewrite lookup_app_l by lia. }
    rewrite (lookup_app_r (take p (l ++ x))), (lookup_app_r (take p (take n l)))
      by (rewrite length_take, ?length_take, ?length_app; lia).
    rewrite !length_take, length_app. replace (p `min` (length l + length x))%nat with p by lia.
    replace (p `min` (n `min` length l))%nat with p by lia.
    destruct (decide (i - p < length d)%nat); [by rewrite !lookup_app_l by done|].
    rewrite !(lookup_app_r d) by lia. rewrite !lookup_drop.
    rewrite lookup_app_l by lia. rewrite lookup_take_lt by lia. done.
  - rewrite lookup_ge_None_2 by (rewrite length_take; lia).
    symmetry. apply lookup_ge_None_2.
    rewrite !length_app, length_take, length_drop, length_take. lia.
Qed.

Lemma write_ok ba d :
  wf ba -> room ba (Z.of_nat (length d)) ->
  exists ba', write d ba = Ok tt ba' /\ wf ba' /\ abs ba' = spec_write d (abs ba) /\
    m_basesize ba' = m_basesize ba /\ m_capacity ba <= m_capacity ba'.
Proof.
  intros [G Hs] Hr. unfold room in Hr. pose proof (g_pos _ G).
  unfold write. destruct (Z.eqb_spec (Z.of_nat (length d)) 0) as [E0|E0].
  { assert (d = []) as -> by (apply nil_length_inv; lia). exists ba. split_and!; try done.
    unfold spec_write. rewrite splice_nil; simpl. by rewrite Z.add_0_r. }
  destruct (addCapacity_ok ba (Z.of_nat (length d)) G) as (b1 & E1 & Gr); [lia..|].
  destruct Gr as [G1 B1 P1 S1 N1 [x L1] R1 K1]. run E1.
  destruct (cur_here b1 G1 ltac:(lia)) as (i & nd & Ec & E & Nd & Ep & Hm).
  unfold bind at 1. rewrite Ec. run (deref_ok _ _ _ E). cbv zeta. cbn [snd].
  rewrite start_ncap by done.
  destruct (write_loop_ok (S (length (m_nodes b1))) b1 i nd (m_position b1 mod m_basesize b1) d)
    as (b2 & E2 & F2 & G2 & P2 & L2); [done..|lia|lia|].
  rewrite E2. unfold modify. eexists. split; [done|].
  set (b3 := if m_size b2 <? m_position b2 then _ else _).
  assert (m_size b3 = Z.max (m_size b2) (m_position b2)) as Sz
    by (subst b3; destruct (Z.ltb_spec (m_size b2) (m_position b2)); simpl; lia).
  assert (geom b3 /\ m_position b3 = m_position b2 /\ flat b3 = flat b2 /\
    m_endian b3 = m_endian b2 /\ m_basesize b3 = m_basesize b2 /\ m_capacity b3 = m_capacity b2)
    as (G3 & P3 & L3 & N3 & B3 & K3).
  { subst b3. destruct (m_size b2 <? m_position b2); [|done]. split_and!; try done.
    destruct G2; by constructor. }
  pose proof (g_pos _ G2). pose proof (length_flat _ G). pose proof (length_flat _ G1).
  split_and!.
  - constructor; [done|]. rewrite P3, Sz, K3, (fr_cap _ _ F2), (fr_size _ _ F2). lia.
  - unfold abs, spec_write; simpl. f_equal.
    + rewrite Sz, L3, L2, L1, P1, (fr_size _ _ F2), S1, P2, P1.
      rewrite <- take_splice_grow with (x := x); [f_equal; lia|lia|lia|].
      rewrite <- L1. lia.
    + rewrite P3, P2, P1. done.
    + by rewrite N3, (fr_endian _ _ F2), N1.
  - by rewrite B3, (fr_base _ _ F2), B1.
  - rewrite K3, (fr_cap _ _ F2). done.
Qed.

(** ** setPosition *)

(** [ba] seeked to [v]. *)
Definition seeked ba (v : Z) : ByteArray :=
  with_cur (with_size (with_position ba v) (Z.max (m_size ba) v))
    (cur_of (m_basesize ba) (length (m_nodes ba)) v).

Lemma setPosition_ok ba v :
  wf ba -> 0 <= v <= m_capacity ba -> setPosition v ba = Ok tt (seeked ba v).
Proof.
  intros [G Hs] Hv. pose proof (g_base _ G). pose proof (g_pos _ G).
  unfold setPosition. rewrite (proj2 (Z.ltb_ge _ _)) by lia.
  set (b1 := with_size (with_position ba v) (Z.max (m_size ba) v)).
  unfold bind at 1, modify at 1. unfold bind at 1, modify at 1.
  assert ((if m_size (with_position ba v) <? m_position (with_position ba v)
           then with_size (with_position ba v) (m_position (with_position ba v))
           else with_position ba v) = b1) as ->.
  { subst b1. unfold with_size, with_position; simpl.
    destruct (Z.ltb_spec (m_size ba) v); f_equal; lia. }
  unfold bind at 1, modify at 1. change (with_cur b1 (Some 0%nat)) with (at_node b1 0).
  destruct (seek_loop_ok (length (m_nodes ba)) b1 0 v) as (j & w & E & Hj & Hw & Ev & Hz).
  { done. } { apply (g_nodes _ G). } { lia. }
  { change (m_basesize b1) with (m_basesize ba). change (m_nodes b1) with (m_nodes ba).
    rewrite (g_cap _ G) in Hv. lia. }
  { apply (g_root _ G). } { change (m_nodes b1) with (m_nodes ba). lia. }
  unfold bind at 1. rewrite E. change (m_basesize b1) with (m_basesize ba) in *.
  change (m_nodes b1) with (m_nodes ba) in *.
  destruct (lookup_lt_is_Some_2 _ _ Hj) as [nd Hnd].
  destruct (Forall_lookup_1 _ _ _ _ (g_nodes _ G) Hnd) as [Es _].
  change (m_cur (at_node b1 j)) with (Some j).
  run (deref_ok (at_node b1 j) j nd Hnd). cbn [snd]. rewrite Es.
  rewrite Z.mul_0_r, Z.add_0_l in Ev. unfold seeked. fold b1. rewrite <- Ev.
  destruct (Z.eqb_spec w (m_basesize ba)) as [->|Hw'].
  - unfold cur_next. change (m_cur (at_node b1 j)) with (Some j).
    run (deref_ok (at_node b1 j) j nd Hnd). unfold modify; simpl.
    unfold next_of, with_cur; simpl.
    replace (m_basesize ba * Z.of_nat j + m_basesize ba)
      with (m_basesize ba * Z.of_nat (S j) + 0) by lia.
    by rewrite cur_of_at by lia.
  - unfold ret. rewrite cur_of_at by lia. by rewrite (proj2 (Nat.ltb_lt _ _)) by lia.
Qed.

Lemma seeked_wf ba v : wf ba -> 0 <= v <= m_capacity ba -> wf (seeked ba v).
Proof. intros [G Hs] Hv. destruct G. constructor; [|simpl; lia]. by constructor. Qed.

(** Seeking past the size exposes bytes nobody wrote. *)
Definition exposed ba (v : Z) : list byte :=
  slice (Z.to_nat (m_size ba)) (Z.to_nat (v - m_size ba)) (flat ba).

Lemma length_exposed ba v :
  wf ba -> v <= m_capacity ba -> Z.of_nat (length (exposed ba v)) = Z.max 0 (v - m_size ba).
Proof.
  intros [G Hs] Hv. pose proof (g_pos _ G). pose proof (length_flat _ G).
  unfold exposed. rewrite length_slice; lia.
Qed.

Lemma seeked_abs ba v :
  wf ba -> 0 <= v <= m_capacity ba -> abs (seeked ba v) = spec_seek v (exposed ba v) (abs ba).
Proof.
  intros [G Hs] Hv. pose proof (g_pos _ G). unfold abs, spec_seek, exposed, slice; simpl. f_equal.
  change (flat (seeked ba v)) with (flat ba).
  replace (Z.to_nat (Z.max (m_size ba) v))
    with (Z.to_nat (m_size ba) + Z.to_nat (v - m_size ba))%nat by lia.
  by rewrite take_take_drop.
Qed.

(** ** Reading without moving *)

Lemma read_at_loop_ok fuel : forall ba i nd npos n,
  geom ba -> m_nodes ba !! i = Some nd -> 0 <= npos < m_basesize ba -> 0 <= n ->
  m_basesize ba * Z.of_nat i + npos + n <= m_capacity ba -> (length (m_nodes ba) <= fuel + i)%nat ->
  read_at_loop fuel (Some i) n npos (m_basesize ba - npos) ba =
    Ok (slice (Z.to_nat (m_basesize ba * Z.of_nat i + npos)) (Z.to_nat n) (flat ba)) ba.
Proof.
  induction fuel as [|fuel IH]; intros ba i nd npos n G E Hnpos Hn Hcap Hfuel;
    cbn [read_at_loop]; pose proof (g_base _ G);
    assert (i < length (m_nodes ba))%nat as Hi by (by eapply lookup_lt_Some); [lia|].
  destruct (Z.leb_spec n 0); [by replace n with 0 by lia|].
  destruct (Z.leb_spec n (m_basesize ba - npos)) as [Hfit|Hmore].
  - by rewrite (memcpy_from_ok _ _ _ _ _ G E) by lia.
  - unfold bind at 1. rewrite (memcpy_from_ok _ _ _ _ _ G E) by lia.
    run (deref_ok _ _ _ E). cbn [fst].
    assert (S i < length (m_nodes ba))%nat as Hi' by (rewrite (g_cap _ G) in Hcap; nia).
    destruct (lookup_lt_is_Some_2 _ _ Hi') as [nd' Hnd'].
    destruct (Forall_lookup_1 _ _ _ _ (g_nodes _ G) Hnd') as [Es' _].
    unfold next_of. rewrite (proj2 (Nat.ltb_lt _ _)) by lia.
    run (deref_ok _ _ _ Hnd'). cbn [snd]. rewrite Es'.
    pose proof (IH ba (S i) nd' 0 (n - (m_basesize ba - npos)) G Hnd') as IH'.
    rewrite Z.sub_0_r in IH'. unfold bind. rewrite IH' by lia. unfold ret. f_equal.
    replace (Z.to_nat n) with
      (Z.to_nat (m_basesize ba - npos) + Z.to_nat (n - (m_basesize ba - npos)))%nat by lia.
    rewrite slice_split. repeat f_equal; lia.
Qed.

(** [read] at the current position, leaving it alone. *)
Lemma read_at_ok ba n :
  wf ba -> 0 < n <= m_size ba - m_position ba ->
  read_at n (m_position ba) ba = Ok (take (Z.to_nat n) (unread (abs ba))) ba.
Proof.
  intros W Hn. pose proof W as [G Hs]. unfold read_at.
  change (u64 (m_size ba - m_position ba)) with (getReadSize ba).
  rewrite getReadSize_ok, (proj2 (Z.ltb_ge _ _)) by (done || lia).
  destruct (cur_here ba G ltac:(lia)) as (i & nd & Ec & E & Nd & Ep & Hm).
  rewrite Ec. run (deref_ok _ _ _ E). cbv zeta beta. cbn [snd].
  rewrite start_ncap by done. rewrite (read_at_loop_ok _ ba i nd) by (done || lia).
  rewrite <- Ep. by rewrite slice_unread by (done || lia).
Qed.

Lemma toString_ok ba : wf ba -> toString ba = Ok (unread (abs ba)) ba.
Proof.
  intros W. pose proof (length_unread _ W) as L. unfold toString. rewrite getReadSize_ok by done.
  destruct (Z.eqb_spec (m_size ba - m_position ba) 0) as [E|E].
  - by rewrite (nil_length_inv (unread (abs ba))) by lia.
  - rewrite read_at_ok by (done || lia). f_equal. apply firstn_all2. lia.
Qed.

(** ** Buffers for scatter and gather I/O *)

(** [iovs] are consecutive pieces of the flat memory: [len] bytes from [pos] on. *)
Fixpoint covers (base : Z) (n : nat) (pos len : Z) (iovs : list iovec) : Prop :=
  match iovs with
  | [] => len = 0
  | v :: rest =>
      base * Z.of_nat (iov_node v) + iov_off v = pos /\ 0 <= iov_off v /\ 0 < iov_len v /\
      iov_off v + iov_len v <= base /\ (iov_node v < n)%nat /\
      covers base n (pos + iov_len v) (len - iov_len v) rest
  end.

Lemma iov_loop_ok fuel : forall ba i nd npos n,
  geom ba -> m_nodes ba !! i = Some nd -> 0 <= npos < m_basesize ba -> 0 <= n ->
  m_basesize ba * Z.of_nat i + npos + n <= m_capacity ba -> (length (m_nodes ba) <= fuel + i)%nat ->
  exists iovs, iov_loop fuel (Some i) n npos (m_basesize ba - npos) ba = Ok iovs ba /\
    covers (m_basesize ba) (length (m_nodes ba)) (m_basesize ba * Z.of_nat i + npos) n iovs.
Proof.
  induction fuel as [|fuel IH]; intros ba i nd npos n G E Hnpos Hn Hcap Hfuel;
    cbn [iov_loop]; pose proof (g_base _ G);
    assert (i < length (m_nodes ba))%nat as Hi by (by eapply lookup_lt_Some); [lia|].
  destruct (Z.leb_spec n 0); [exists []; split; [done|simpl; lia]|].
  run (deref_ok _ _ _ E). cbn [fst].
  destruct (Z.leb_spec n (m_basesize ba - npos)) as [Hfit|Hmore].
  - eexists. split; [done|]. simpl. lia.
  - assert (S i < length (m_nodes ba))%nat as Hi' by (rewrite (g_cap _ G) in Hcap; nia).
    destruct (lookup_lt_is_Some_2 _ _ Hi') as [nd' Hnd'].
    destruct (Forall_lookup_1 _ _ _ _ (g_nodes _ G) Hnd') as [Es' _].
    unfold next_of. rewrite (proj2 (Nat.ltb_lt _ _)) by lia.
    run (deref_ok _ _ _ Hnd'). cbn [snd]. rewrite Es'.
    destruct (IH ba (S i) nd' 0 (n - (m_basesize ba - npos)) G Hnd') as (iovs & Eq & Hc); [lia..|].
    rewrite Z.sub_0_r in Eq. unfold bind. rewrite Eq. eexists. split; [done|].
    cbn [covers iov_node iov_off iov_len]. split_and!; try lia.
    eapply eq_ind with (P := fun p => covers _ _ p _ _); [exact Hc|lia].
Qed.

(** What the kernel does with the buffers: gather the bytes for [sendmsg], scatter the [d]
    received bytes for [recvmsg]. *)
Fixpoint gather (iovs : list iovec) : M ByteArray (list byte) :=
  match iovs with
  | [] => ret []
  | v :: rest => d <- memcpy_from (Some (iov_node v)) (iov_off v) (iov_len v) ;;
                 ds <- gather rest ;; ret (d ++ ds)
  end.

Fixpoint scatter (iovs : list iovec) (d : list byte) : M ByteArray unit :=
  match iovs with
  | [] => ret tt
  | v :: rest =>
      if (length d =? 0)%nat then ret tt
      else memcpy_to (Some (iov_node v)) (iov_off v) (take (Z.to_nat (iov_len v)) d) ;;;
           scatter rest (drop (Z.to_nat (iov_len v)) d)
  end.

Lemma covers_len base n iovs : forall pos len, covers base n pos len iovs -> 0 <= len.
Proof.
  induction iovs as [|v iovs IH]; intros pos len Hc; cbn [covers] in Hc; [lia|].
  destruct Hc as (_ & _ & ? & _ & _ & Hc). apply IH in Hc. lia.
Qed.

Lemma gather_ok ba iovs : forall pos len,
  geom ba -> 0 <= pos -> 0 <= len -> covers (m_basesize ba) (length (m_nodes ba)) pos len iovs ->
  gather iovs ba = Ok (slice (Z.to_nat pos) (Z.to_nat len) (flat ba)) ba.
Proof.
  induction iovs as [|v iovs IH]; intros pos len G Hp Hl Hc; cbn [covers gather] in *.
  - by subst len.
  - destruct Hc as (Ep & ? & ? & ? & Hi & Hc).
    destruct (lookup_lt_is_Some_2 _ _ Hi) as [nd Hnd].
    pose proof (covers_len _ _ _ _ _ Hc).
    unfold bind at 1. rewrite (memcpy_from_ok _ _ _ _ _ G Hnd) by lia. rewrite Ep.
    unfold bind. rewrite (IH (pos + iov_len v) (len - iov_len v)) by (done || lia).
    unfold ret. f_equal.
    replace (Z.to_nat len) with (Z.to_nat (iov_len v) + Z.to_nat (len - iov_len v))%nat by lia.
    rewrite slice_split. do 2 f_equal. lia.
Qed.

Lemma scatter_ok iovs : forall ba pos len d,
  geom ba -> 0 <= pos -> covers (m_basesize ba) (length (m_nodes ba)) pos len iovs ->
  pos + len <= m_capacity ba -> Z.of_nat (length d) <= len ->
  exists ba', scatter iovs d ba = Ok tt ba' /\ frame ba ba' /\ geom ba' /\
    m_position ba' = m_position ba /\ m_cur ba' = m_cur ba /\
    flat ba' = splice (Z.to_nat pos) d (flat ba).
Proof.
  induction iovs as [|v iovs IH]; intros ba pos len d G Hp Hc Hcap Hd; cbn [covers scatter] in *.
  { assert (d = []) as -> by (apply nil_length_inv; lia). exists ba. by rewrite splice_nil. }
  destruct (Nat.eqb_spec (length d) 0) as [E0|E0].
  { assert (d = []) as -> by by apply nil_length_inv. exists ba. by rewrite splice_nil. }
  destruct Hc as (Ep & ? & ? & ? & Hi & Hc). pose proof (covers_len _ _ _ _ _ Hc).
  destruct (lookup_lt_is_Some_2 _ _ Hi) as [nd Hnd].
  set (d1 := take (Z.to_nat (iov_len v)) d). set (d2 := drop (Z.to_nat (iov_len v)) d).
  assert (length d1 = Nat.min (Z.to_nat (iov_len v)) (length d)) as L1 by apply length_take.
  assert (length d2 = length d - Z.to_nat (iov_len v))%nat as L2 by apply length_drop.
  destruct (memcpy_to_ok ba (iov_node v) nd (iov_off v) d1 G Hnd) as (b1 & E1 & F1 & G1 & P1 & C1 & X1);
    [lia..|].
  run E1. rewrite Ep in X1.
  destruct (IH b1 (pos + iov_len v) (len - iov_len v) d2) as (b2 & E2 & F2 & G2 & P2 & C2 & X2);
    [done|lia|by rewrite (fr_base _ _ F1), (fr_nodes _ _ F1)|rewrite (fr_cap _ _ F1); lia|lia|].
  exists b2. pose proof (length_flat _ G). split_and!;
    [done|by etrans|done|congruence|congruence|].
  rewrite X2, X1, <- (take_drop (Z.to_nat (iov_len v)) d). fold d1 d2.
  rewrite splice_app by lia.
  destruct (decide (Z.to_nat (iov_len v) <= length d)%nat); [f_equal; lia|].
  assert (d2 = []) as -> by (apply nil_length_inv; lia). by rewrite !splice_nil.
Qed.

Lemma getReadBuffers_ok ba len :
  wf ba -> 0 < len -> m_position ba < m_size ba ->
  exists iovs, getReadBuffers len ba = Ok (Z.min len (m_size ba - m_position ba), iovs) ba /\
    covers (m_basesize ba) (length (m_nodes ba)) (m_position ba)
      (Z.min len (m_size ba - m_position ba)) iovs.
Proof.
  intros W Hl Hr. pose proof W as [G Hs]. unfold getReadBuffers.
  rewrite (proj2 (Z.eqb_neq _ _)), getReadSize_ok by (done || lia).
  assert ((if m_size ba - m_position ba <? len then m_size ba - m_position ba else len)
    = Z.min len (m_size ba - m_position ba)) as ->
    by (destruct (Z.ltb_spec (m_size ba - m_position ba) len); lia).
  destruct (cur_here ba G ltac:(lia)) as (i & nd & Ec & E & Nd & Ep & Hm).
  rewrite Ec. run (deref_ok _ _ _ E). cbv zeta. cbn [snd].
  rewrite start_ncap by done.
  destruct (iov_loop_ok (S (length (m_nodes ba))) ba i nd (m_position ba mod m_basesize ba)
    (Z.min len (m_size ba - m_position ba)) G E Hm) as (iovs & Eq & Hc); [lia..|].
  exists iovs. unfold bind. rewrite Eq. split; [done|]. by rewrite Ep at 1.
Qed.

Lemma getWriteBuffers_ok ba len :
  wf ba -> 0 < len -> room ba len ->
  exists ba' iovs, getWriteBuffers len ba = Ok (len, iovs) ba' /\ grown ba ba' len /\
    covers (m_basesize ba') (length (m_nodes ba')) (m_position ba') len iovs.
Proof.
  intros [G Hs] Hl Hr. unfold getWriteBuffers. rewrite (proj2 (Z.eqb_neq _ _)) by lia.
  destruct (addCapacity_ok ba len G ltac:(lia) Hr) as (b1 & E1 & Gr).
  pose proof Gr as [G1 B1 P1 S1 N1 _ R1 K1]. run E1.
  destruct (cur_here b1 G1 ltac:(lia)) as (i & nd & Ec & E & Nd & Ep & Hm).
  rewrite Ec. run (deref_ok _ _ _ E). cbv zeta. cbn [snd].
  rewrite start_ncap by done.
  destruct (iov_loop_ok (S (length (m_nodes b1))) b1 i nd (m_position b1 mod m_basesize b1) len
    G1 E Hm) as (iovs & Eq & Hc); [lia..|].
  exists b1, iovs. unfold bind. rewrite Eq. split_and!; [done|done|]. by rewrite Ep at 1.
Qed.

Lemma grown_wf ba ba' n : wf ba -> grown ba ba' n -> wf ba'.
Proof. intros [G Hs] []. constructor; [done|]. lia. Qed.

End spec.

(** ** The interface *)

Section instances.
Context `{Allocator}.

#[export] Instance ByteArray_io : ByteIO ByteArray := {
  io_write := write;
  io_read := read;
  io_endian := m_endian }.

#[export] Program Instance ByteArray_io_spec : ByteIOSpec ByteArray := {
  io_abs := abs;
  io_ok := wf;
  io_room := room }.
Next Obligation.
  intros ba W. pose proof (length_abs _ W) as L. destruct W as [G Hs]. pose proof (g_pos _ G).
  simpl in *. lia.
Qed.
Next Obligation. done. Qed.
Next Obligation.
  intros ba d W R. destruct (write_ok ba d W R) as (ba' & E & W' & A & B & _).
  exists ba'. split_and!; [done..|]. intros m Hm. unfold room.
  assert (m_position ba' = m_position ba + Z.of_nat (length d)) as ->
    by (change (m_position ba') with (st_pos (abs ba')); by rewrite A).
  rewrite B. lia.
Qed.
Next Obligation.
  intros ba n W Hne Hn. assert (0 < Z.of_nat (length (unread (abs ba)))) by (destruct (unread (abs ba)); [done|simpl; lia]).
  rewrite length_unread in * by done. pose proof W as [G Hs].
  exists (moved ba n). split_and!; [apply read_ok; (done || lia)|apply moved_wf; (done || lia)|done].
Qed.
Next Obligation. intros ba n W Hn. rewrite length_unread in Hn by done. by apply read_short. Qed.

End instances.

(** ** Reachable states *)

Section reachable.
Context `{Allocator}.

(** One public operation of the class that changes its state, with the state it leaves behind
    whether it returns or throws. *)
Inductive step : ByteArray -> ByteArray -> Prop :=
  | step_write ba d ba' :
      room ba (Z.of_nat (length d)) -> final (write d ba) = Some ba' -> step ba ba'
  | step_read ba n ba' : 0 <= n -> final (read n ba) = Some ba' -> step ba ba'
  | step_setPosition ba v ba' : 0 <= v -> final (setPosition v ba) = Some ba' -> step ba ba'
  | step_clear ba ba' : final (clear ba) = Some ba' -> step ba ba'
  | step_setIsLittleEndian ba b ba' :
      final (setIsLittleEndian b ba) = Some ba' -> step ba ba'
  | step_getWriteBuffers ba n ba' :
      0 <= n -> room ba n -> final (getWriteBuffers n ba) = Some ba' -> step ba ba'.

Inductive reachable (base : Z) : ByteArray -> Prop :=
  | reach_new : reachable base (new_ByteArray base)
  | reach_step ba ba' : reachable base ba -> step ba ba' -> reachable base ba'.

Lemma step_wf ba ba' : wf ba -> step ba ba' -> wf ba'.
Proof.
  intros W St. pose proof W as [G Hs]. pose proof (g_base _ G). pose proof (g_pos _ G).
  destruct St as [ba d ba' R F|ba n ba' Hn F|ba v ba' Hv F|ba ba' F|ba b ba' F|ba n ba' Hn R F].
  - destruct (write_ok ba d W R) as (b1 & E & W1 & _). rewrite E in F. by simplify_eq/=.
  - destruct (Z.ltb_spec (m_size ba - m_position ba) n) as [Hs'|Hs'].
    { rewrite read_short in F by done. by simplify_eq/=. }
    destruct (decide (m_position ba = m_capacity ba)) as [He|He].
    { by rewrite read_end in F. }
    rewrite read_ok in F by (done || lia). simplify_eq/=. apply moved_wf; [done|lia].
  - destruct (Z.ltb_spec (m_capacity ba) v) as [Hc|Hc].
    { unfold setPosition in F. rewrite (proj2 (Z.ltb_lt _ _)) in F by lia. by simplify_eq/=. }
    rewrite setPosition_ok in F by (done || lia). simplify_eq/=. apply seeked_wf; [done|lia].
  - unfold clear in F. simplify_eq/=. constructor; [|simpl; lia].
    pose proof (g_root _ G). pose proof (g_cap _ G). pose proof (g_width _ G).
    destruct (m_nodes ba) as [|nd ns] eqn:En; simpl in *; [lia|].
    assert (m_basesize ba <= m_capacity ba) by nia.
    constructor; simpl; try lia.
    + rewrite take_0. apply Forall_singleton. pose proof (g_nodes _ G) as Hn. rewrite En in Hn.
      by inversion Hn.
    + replace 0 with (m_basesize ba * Z.of_nat 0 + 0) by lia. by rewrite cur_of_at by lia.
  - unfold setIsLittleEndian in F. simplify_eq/=. destruct G. constructor; [by constructor|done].
  - destruct (decide (n = 0)) as [->|Hn0]; [unfold getWriteBuffers in F; by simplify_eq/=|].
    destruct (getWriteBuffers_ok ba n W) as (b1 & iovs & E & Gr & _); [lia|done|].
    rewrite E in F. simplify_eq/=. by eapply grown_wf.
Qed.

Lemma reachable_wf base ba : 0 < base < 2 ^ 64 -> reachable base ba -> wf ba.
Proof. induction 2; [by apply wf_new|by eapply step_wf]. Qed.

End reachable.

(** ** Properties *)

Definition zeroed : Allocator := fun _ _ => Byte.x00.

Section properties.
Context `{Allocator}.

(** C23: [write] refines the abstract write: on every well-formed array it returns, the array
    stays well formed, the bytes are spliced into the stream at the position whatever the
    block boundaries, the position moves behind them and the size grows when needed. *)
Theorem write_refines ba d :
  wf ba -> room ba (Z.of_nat (length d)) ->
  exists ba', write d ba = Ok tt ba' /\ wf ba' /\ abs ba' = spec_write d (abs ba).
Proof. intros W R. destruct (write_ok ba d W R) as (ba' & ? & ? & ? & _). eauto. Qed.

(** C32: every branch of [read]: more than there is throws and changes nothing; otherwise the
    next bytes are returned and the position moves, except at the end of the last block where
    the code dereferences the null [m_cur] even to read nothing. *)
Theorem read_branches ba n :
  wf ba -> 0 <= n ->
  if m_size ba - m_position ba <? n then read n ba = Throw (out_of_range "not enough len") ba
  else if m_position ba =? m_capacity ba then n = 0 /\ read n ba = Undef null_deref
  else exists ba', read n ba = Ok (take (Z.to_nat n) (unread (abs ba))) ba' /\ wf ba' /\
         abs ba' = spec_skip n (abs ba).
Proof.
  intros W Hn. pose proof W as [G Hs]. pose proof (g_pos _ G).
  destruct (Z.ltb_spec (m_size ba - m_position ba) n); [by apply read_short|].
  destruct (Z.eqb_spec (m_position ba) (m_capacity ba)).
  - split; [lia|]. apply read_end; (done || lia).
  - exists (moved ba n). split; [apply read_ok; (done || lia)|].
    split; [apply moved_wf; (done || lia)|done].
Qed.

(** [setPosition] throws beyond the capacity and otherwise moves the position anywhere in
    it; the array stays well formed, written bytes are kept, and seeking past the size extends
    the stream by bytes of the blocks. *)
Theorem setPosition_branches ba v :
  wf ba -> 0 <= v ->
  if m_capacity ba <? v then setPosition v ba = Throw (out_of_range "setPosition out of range") ba
  else exists ba' junk, setPosition v ba = Ok tt ba' /\ wf ba' /\
         abs ba' = spec_seek v junk (abs ba) /\
         Z.of_nat (length junk) = Z.max 0 (v - m_size ba).
Proof.
  intros W Hv. destruct (Z.ltb_spec (m_capacity ba) v) as [Hc|Hc].
  - unfold setPosition. by rewrite (proj2 (Z.ltb_lt _ _)) by lia.
  - exists (seeked ba v), (exposed ba v).
    split_and!; [by apply setPosition_ok|by apply seeked_wf|by apply seeked_abs|
      by apply length_exposed].
Qed.

(** Writing bytes, seeking back to where they start and reading as many gives them back,
    across any number of blocks and whatever was in the array before. *)
Theorem write_seek_read ba d :
  wf ba -> room ba (Z.of_nat (length d)) -> d <> [] ->
  exists ba', (write d ;;; setPosition (m_position ba) ;;; read (Z.of_nat (length d))) ba = Ok d ba' /\
    wf ba' /\ m_position ba' = m_position ba + Z.of_nat (length d).
Proof.
  intros W R Hd. destruct (write_ok ba d W R) as (b1 & E1 & W1 & A1 & _ & K1).
  pose proof W as [G Hs]. pose proof W1 as [G1 Hs1]. pose proof (g_pos _ G).
  pose proof (g_pos _ G1). pose proof (length_abs _ W) as L.
  assert (m_position b1 = m_position ba + Z.of_nat (length d)) as P1
    by (change (m_position b1) with (st_pos (abs b1)); by rewrite A1).
  run E1. run (setPosition_ok b1 (m_position ba) W1
    ltac:(lia)).
  set (b2 := seeked b1 (m_position ba)).
  assert (wf b2) as W2 by (apply seeked_wf; (done || lia)).
  assert (0 < length d)%nat by (destruct d; [done|simpl; lia]).
  assert (m_size b2 = m_size b1) as S2 by (simpl; lia).
  exists (moved b2 (Z.of_nat (length d))). split_and!.
  - rewrite read_ok; [|done|rewrite S2; simpl; lia|simpl; lia]. f_equal.
    unfold b2. rewrite seeked_abs by (done || lia).
    unfold exposed, slice. replace (Z.to_nat (m_position ba - m_size b1)) with 0%nat by lia.
    unfold unread, spec_seek; simpl. rewrite take_0, app_nil_r.
    change (take _ (flat b1)) with (st_bytes (abs b1)). rewrite A1.
    change (m_position ba) with (st_pos (abs ba)). rewrite unread_write by (simpl in *; lia).
    by rewrite Nat2Z.id, take_app_length.
  - apply moved_wf; [done|]. rewrite S2; simpl; lia.
  - done.
Qed.

(** C39: every array reached from the constructor by any sequence of public operations, whether
    they return or throw, is well formed: equal blocks, a capacity that counts them, the
    position within the size within the capacity, and [m_cur] the node of the position. *)
Theorem reachable_invariant base ba : 0 < base < 2 ^ 64 -> reachable base ba -> wf ba.
Proof. apply reachable_wf. Qed.

(** At the end of a full array every operation that looks at [m_cur] before it looks at
    the size dereferences null, even with nothing to read: [read] of no byte, [getReadBuffers]
    and [writeToFile]. *)
Theorem drained_null_deref ba len :
  wf ba -> m_position ba = m_capacity ba -> 0 < len ->
  read 0 ba = Undef null_deref /\ getReadBuffers len ba = Undef null_deref /\
  writeToFile true ba = Undef null_deref.
Proof.
  intros W E Hl. pose proof W as [G Hs]. pose proof (cur_end _ G E) as Ec. split_and!.
  - apply read_end; (done || lia).
  - unfold getReadBuffers. by rewrite (proj2 (Z.eqb_neq _ _)), Ec by lia.
  - unfold writeToFile, read_at. rewrite getReadSize_ok by done.
    replace (m_size ba - m_position ba) with 0 by lia.
    change (u64 (s64 0)) with 0. cbn [negb].
    pose proof (uwrap_range 64 (m_size ba - m_position ba) ltac:(lia)) as [Hu _].
    unfold bind. rewrite (proj2 (Z.ltb_ge _ _)) by done. by rewrite Ec.
Qed.

(** [read(buf, size, position)] takes the offset inside the block from its argument but
    the block from the current position: it returns the bytes at that offset of the current
    block, whatever block the argument is in. *)
Theorem read_at_reads_current_block ba n position :
  wf ba -> m_position ba < m_capacity ba -> 0 <= position -> 0 < n ->
  position + n <= m_size ba -> position mod m_basesize ba + n <= m_basesize ba ->
  read_at n position ba =
    Ok (slice (Z.to_nat (m_position ba - m_position ba mod m_basesize ba
                         + position mod m_basesize ba)) (Z.to_nat n) (flat ba)) ba.
Proof.
  intros W Hlt Hp Hn Hsz Hfit. pose proof W as [G Hs]. pose proof (g_width _ G).
  pose proof (g_base _ G).
  pose proof (Z.mod_pos_bound position (m_basesize ba) ltac:(lia)).
  unfold read_at, u64. rewrite uwrap_id by fits.
  rewrite (proj2 (Z.ltb_ge _ _)) by lia.
  destruct (cur_here ba G Hlt) as (i & nd & Ec & E & Nd & Ep & Hm).
  rewrite Ec. run (deref_ok _ _ _ E). cbv zeta. cbn [snd].
  assert (m_basesize ba <= m_capacity ba) by (rewrite (g_cap _ G); pose proof (g_root _ G); nia).
  destruct Nd as [-> _]. rewrite uwrap_id by fits.
  assert (i < length (m_nodes ba))%nat by by eapply lookup_lt_Some.
  rewrite (read_at_loop_ok _ ba i nd) by (try done; rewrite ?(g_cap _ G); nia).
  repeat f_equal; lia.
Qed.

End properties.

(** *** Witnesses *)

Definition one_two : list byte := [Byte.x01; Byte.x02; Byte.x03; Byte.x04; Byte.x05; Byte.x06].

Lemma write_refines_witness :
  exists ba', @write zeroed one_two (@new_ByteArray zeroed 4) = Ok tt ba' /\ wf ba' /\
    abs ba' = spec_write one_two (abs (@new_ByteArray zeroed 4)).
Proof.
  apply (@write_refines zeroed).
  - apply wf_new. lia.
  - unfold room. simpl. lia.
Defined.

Lemma read_branches_witness :
  let ba := @new_ByteArray zeroed 4 in read 1 ba = Throw (out_of_range "not enough len") ba.
Proof. exact (@read_branches (@new_ByteArray zeroed 4) 1 (wf_new 4 ltac:(lia)) ltac:(lia)). Defined.

Lemma setPosition_branches_witness :
  let ba := @new_ByteArray zeroed 4 in
  setPosition 5 ba = Throw (out_of_range "setPosition out of range") ba.
Proof.
  exact (@setPosition_branches (@new_ByteArray zeroed 4) 5 (wf_new 4 ltac:(lia)) ltac:(lia)).
Defined.

Lemma write_seek_read_witness :
  let ba := @new_ByteArray zeroed 4 in
  exists ba', (@write zeroed one_two ;;; setPosition 0 ;;; read 6) ba = Ok one_two ba' /\
    wf ba' /\ m_position ba' = 6.
Proof.
  apply (@write_seek_read zeroed (@new_ByteArray zeroed 4) one_two).
  - apply wf_new. lia.
  - unfold room. simpl. lia.
  - discriminate.
Defined.

Lemma reachable_invariant_witness : wf (@new_ByteArray zeroed 4096).
Proof. apply (@reachable_invariant zeroed 4096); [lia|constructor]. Defined.

Lemma drained_null_deref_witness :
  let ba := seeked (@new_ByteArray zeroed 4) 4 in
  read 0 ba = Undef null_deref /\ getReadBuffers 16 ba = Undef null_deref /\
  writeToFile true ba = Undef null_deref.
Proof.
  apply (@drained_null_deref (seeked (@new_ByteArray zeroed 4) 4) 16).
  - apply (@seeked_wf (@new_ByteArray zeroed 4) 4); [apply wf_new; lia|simpl; lia].
  - reflexivity.
  - lia.
Defined.

Lemma read_at_reads_current_block_witness :
  let ba := seeked (default (@new_ByteArray zeroed 4)
              (final (@write zeroed one_two (@new_ByteArray zeroed 4)))) 0 in
  read_at 2 4 ba = Ok [Byte.x01; Byte.x02] ba.
Proof.
  apply (@read_at_reads_current_block
    (seeked (default (@new_ByteArray zeroed 4)
              (final (@write zeroed one_two (@new_ByteArray zeroed 4)))) 0) 2 4).
  - apply seeked_wf; [|vm_compute; split; discriminate].
    apply (@reachable_wf zeroed 4); [lia|].
    eapply reach_step; [apply reach_new|eapply step_write with (d := one_two)];
      [unfold room; simpl; lia|reflexivity].
  - reflexivity.
  - lia.
  - lia.
  - vm_compute; discriminate.
  - vm_compute; discriminate.
Defined.
