(* ===== verification/Codec.v ===== *)
(** * The encoders and decoders of ByteArray
    (src/wyze/bytearray.cpp, the write and read methods for values; src/wyze/endian.h)

    These methods only call [write], [read] and look at [m_endian], so they are modelled over
    the interface [ByteIO]; [ByteArray] is one instance.  A C++ value is its mathematical
    integer; its memory image on the (little-endian) host is [le_split]. *)

From S2P Require Import Prelude ByteArray ByteIO.

(** ** endian.h: byteswap, through glibc's bswap_16, bswap_32 and bswap_64 *)

Definition bswap (n : nat) (v : Z) : Z := le_combine (rev (le_split n v)).
Definition byteswap_u (n : nat) (v : Z) : Z := bswap n v.
Definition byteswap_s (n : nat) (v : Z) : Z :=
  swrap (8 * Z.of_nat n) (bswap n (uwrap (8 * Z.of_nat n) v)).
Definition byteswapOnLittleEndian (n : nat) (t : Z) : Z := byteswap_u n t.
Definition byteswapOnBigEndian (t : Z) : Z := t.

(** ** Zigzag coding: the signed operations overflow outside [int] *)

(** [-v], [v * 2] on a signed type of [w] bits *)
Definition sneg (w v : Z) : option Z := if in_sb w (- v) then Some (- v) else None.
Definition sdouble (w v : Z) : option Z := if in_sb w (v * 2) then Some (v * 2) else None.

Definition EncodeZigzag32 (v : Z) : option Z :=
  if v <? 0 then n ← sneg 32 v; Some (u32 (u32 (u32 n * 2) - 1))
  else d ← sdouble 32 v; Some (u32 d).
Definition EncodeZigzag64 (v : Z) : option Z :=
  if v <? 0 then n ← sneg 64 v; Some (u64 (u64 (u64 n * 2) - 1))
  else d ← sdouble 64 v; Some (u64 d).
Definition DecodeZigzag32 (v : Z) : Z :=
  s32 (Z.lxor (Z.shiftr v 1) (u32 (- Z.land v 1))).
Definition DecodeZigzag64 (v : Z) : Z :=
  s64 (Z.lxor (Z.shiftr v 1) (u64 (- Z.land v 1))).

(** ** Methods *)

Section methods.
Context {T : Type} `{ByteIO T}.

(** [if(m_endian != WYZE_BYTE_ORDER) value = byteswap(value); write(&value, sizeof(value));] *)
Definition write_int (swap : Z -> Z) (n : nat) (value : Z) : M T unit := fun s =>
  let value := if negb (io_endian s =? WYZE_BYTE_ORDER) then swap value else value in
  io_write (le_split n value) s.

(** the XX macro: [type v; read(&v, sizeof(v)); if(...) v = byteswap(v); return v;] *)
Definition read_int (of_mem : Z -> Z) (swap : Z -> Z) (n : nat) : M T Z :=
  d <- io_read (Z.of_nat n) ;;
  (fun s =>
     let v := of_mem (le_combine d) in
     Ok (if negb (io_endian s =? WYZE_BYTE_ORDER) then swap v else v) s).

Definition writeFint8 (value : Z) : M T unit := io_write (le_split 1 value).
Definition writeFuint8 (value : Z) : M T unit := io_write (le_split 1 value).
Definition writeFint16 (value : Z) : M T unit := write_int (byteswap_s 2) 2 value.
Definition writeFuint16 (value : Z) : M T unit := write_int (byteswap_u 2) 2 value.
Definition writeFint32 (value : Z) : M T unit := write_int (byteswap_s 4) 4 value.
Definition writeFuint32 (value : Z) : M T unit := write_int (byteswap_u 4) 4 value.
Definition writeFint64 (value : Z) : M T unit := write_int (byteswap_s 8) 8 value.
Definition writeFuint64 (value : Z) : M T unit := write_int (byteswap_u 8) 8 value.

Definition readFint8 : M T Z := d <- io_read 1 ;; ret (s8 (le_combine d)).
Definition readFuint8 : M T Z := d <- io_read 1 ;; ret (le_combine d).
Definition readFint16 : M T Z := read_int s16 (byteswap_s 2) 2.
Definition readFuint16 : M T Z := read_int id (byteswap_u 2) 2.
Definition readFint32 : M T Z := read_int s32 (byteswap_s 4) 4.
Definition readFuint32 : M T Z := read_int id (byteswap_u 4) 4.
Definition readFint64 : M T Z := read_int s64 (byteswap_s 8) 8.
Definition readFuint64 : M T Z := read_int id (byteswap_u 8) 8.

(** The loop that fills [tmp]: [room] is what is left of the array, storing past it is
    undefined. *)
Fixpoint varint_loop (room : nat) (value : Z) : option (list byte) :=
  match room with
  | O => None
  | S room =>
      if 0x80 <=? value then
        rest ← varint_loop room (Z.shiftr value 7);
        Some (byte.of_Z (Z.lor (Z.land value 0x7F) 0x80) :: rest)
      else Some [byte.of_Z value]
  end.

Definition writeUint32 (value : Z) : M T unit :=
  tmp <- or_undef out_of_bounds (varint_loop 5 value) ;; io_write tmp.
Definition writeUint64 (value : Z) : M T unit :=
  tmp <- or_undef out_of_bounds (varint_loop 10 value) ;; io_write tmp.
Definition writeInt32 (value : Z) : M T unit :=
  v <- or_undef signed_overflow (EncodeZigzag32 value) ;; writeUint32 v.
Definition writeInt64 (value : Z) : M T unit :=
  v <- or_undef signed_overflow (EncodeZigzag64 value) ;; writeUint64 v.

(** [((uint32_t)b) << i]: undefined when [i] is at least 32 *)
Definition shl32 (b i : Z) : option Z := if i <? 32 then Some (u32 (Z.shiftl b i)) else None.

(** The [for] loop of [readUint32] ([limit] = 32) and of [readUint64] ([limit] = 64); both
    shift a [uint32_t]. *)
Fixpoint read_varint (fuel : nat) (limit i result : Z) : M T Z :=
  if limit <=? i then ret result
  else match fuel with
  | O => undef no_fuel
  | S fuel =>
      b <- readFuint8 ;;
      if b <? 0x80 then
        x <- or_undef bad_shift (shl32 b i) ;; ret (Z.lor result x)
      else
        x <- or_undef bad_shift (shl32 (Z.land b 0x7f) i) ;;
        read_varint fuel limit (i + 7) (Z.lor result x)
  end.

Definition readUint32 : M T Z := read_varint 5 32 0 0.
Definition readUint64 : M T Z := read_varint 10 64 0 0.
Definition readInt32 : M T Z := v <- readUint32 ;; ret (DecodeZigzag32 v).
Definition readInt64 : M T Z := v <- readUint64 ;; ret (DecodeZigzag64 v).

(** Floating-point values are their object representation, which [memcpy] moves to and from
    an unsigned integer. *)
Definition writeFloat (bits : Z) : M T unit := writeFuint32 bits.
Definition writeDouble (bits : Z) : M T unit := writeFuint64 bits.
Definition readFloat : M T Z := readFuint32.
Definition readDouble : M T Z := readFuint64.

Definition writeStringF16 (value : list byte) : M T unit :=
  writeFuint16 (u16 (Z.of_nat (length value))) ;;; io_write value.
Definition writeStringF32 (value : list byte) : M T unit :=
  writeFuint32 (u32 (Z.of_nat (length value))) ;;; io_write value.
Definition writeStringF64 (value : list byte) : M T unit :=
  writeFuint64 (u64 (Z.of_nat (length value))) ;;; io_write value.
Definition writeStringVint (value : list byte) : M T unit :=
  writeUint64 (u64 (Z.of_nat (length value))) ;;; io_write value.
Definition writeStringWithoutLength (value : list byte) : M T unit := io_write value.

Definition readStringF16 : M T (list byte) := len <- readFuint16 ;; io_read len.
Definition readStringF32 : M T (list byte) := len <- readFuint32 ;; io_read len.
Definition readStringF64 : M T (list byte) := len <- readFuint64 ;; io_read len.
Definition readStringVint : M T (list byte) := len <- readUint64 ;; io_read len.

End methods.
