(* ===== verification/CodecSpec.v ===== *)
(** * What the encoders put on the wire, and that the decoders take it back *)

From S2P Require Import Prelude ByteArray ByteArrayRep ByteIO ByteArraySpec Codec.

(** ** Integers and their memory images *)

Lemma le_split_wrap n v : le_split n (uwrap (8 * Z.of_nat n) v) = le_split n v.
Proof. rewrite (le_split_mod v). unfold uwrap. by rewrite (Z.mul_comm 8). Qed.

Lemma le_split_swrap n v : (0 < n)%nat -> le_split n (swrap (8 * Z.of_nat n) v) = le_split n v.
Proof. intros Hn. rewrite <- le_split_wrap, uwrap_swrap by lia. apply le_split_wrap. Qed.

Lemma combine_split_u n v : in_u (8 * Z.of_nat n) v -> le_combine (le_split n v) = v.
Proof. intros Hv. rewrite le_combine_split, (Z.mul_comm _ 8). by apply uwrap_id. Qed.

Lemma bswap_split n v : le_split n (bswap n v) = rev (le_split n v).
Proof. unfold bswap. apply split_le_combine'. by rewrite length_rev, length_le_split. Qed.

Lemma bswap_bswap n v : in_u (8 * Z.of_nat n) v -> bswap n (bswap n v) = v.
Proof.
  intros Hv. unfold bswap at 1. rewrite bswap_split, rev_involutive. by apply combine_split_u.
Qed.

Lemma bswap_range n v : in_u (8 * Z.of_nat n) (bswap n v).
Proof.
  unfold bswap, in_u. pose proof (le_combine_bound (rev (le_split n v))) as B.
  by rewrite length_rev, length_le_split in B.
Qed.

(** The wire image of an [n]-byte integer in the byte order [endian]. *)
Definition wire (endian : Z) (n : nat) (v : Z) : list byte :=
  if endian =? WYZE_LITTLE_ENDIAN then le_split n v else rev (le_split n v).

Lemma length_wire e n v : length (wire e n v) = n.
Proof. unfold wire. case_match; rewrite ?length_rev; apply length_le_split. Qed.

Lemma wire_wrap e n v : wire e n (uwrap (8 * Z.of_nat n) v) = wire e n v.
Proof. unfold wire. by rewrite !le_split_wrap. Qed.
Lemma wire_not_nil e n v : (0 < n)%nat -> wire e n v <> [].
Proof. intros Hn E. pose proof (length_wire e n v) as L. rewrite E in L. simpl in L. lia. Qed.

Lemma testbit_above r i k : 0 <= r < 2 ^ i -> i <= k -> Z.testbit r k = false.
Proof.
  intros Hr Hk. destruct (decide (r = 0)) as [->|]; [apply Z.bits_0|].
  apply Z.bits_above_log2; [lia|]. apply Z.log2_lt_pow2; [lia|].
  destruct (Z.ltb_spec i 0); [rewrite Z.pow_neg_r in Hr by done; lia|].
  pose proof (Z.pow_le_mono_r 2 i k). lia.
Qed.

Lemma lor_shiftl r x i : 0 <= i -> 0 <= r < 2 ^ i -> Z.lor r (Z.shiftl x i) = r + x * 2 ^ i.
Proof.
  intros Hi Hr. rewrite <- Z.shiftl_mul_pow2 by done.
  assert (Z.land r (Z.shiftl x i) = 0) as E.
  { apply Z.bits_inj'; intros k Hk. rewrite Z.land_spec, Z.bits_0.
    destruct (Z.ltb_spec k i); [by rewrite Z.shiftl_spec_low, andb_false_r|].
    by rewrite (testbit_above r i k). }
  by rewrite Z.add_nocarry_lxor, <- Z.lxor_lor by done.
Qed.

(** ** Emitting and taking bytes *)

Section codecs.
Context {T : Type} `{ByteIOSpec T}.
Implicit Types (s : T).

Definition order s : Z := st_endian (io_abs s).

(** [m] appends [enc] at the position of [s]. *)
Definition emits (m : M T unit) s (enc : list byte) : Prop :=
  exists s', m s = Ok tt s' /\ io_ok s' /\ io_abs s' = spec_write enc (io_abs s) /\
    forall n, 0 <= n -> io_room s (Z.of_nat (length enc) + n) -> io_room s' n.

(** [m] reads [enc], gives [a] and leaves what comes behind, if that is as [P] says. *)
Definition takes_before {A} (P : list byte -> Prop) (m : M T A) (e : Z) (enc : list byte) (a : A) : Prop :=
  forall s rest, P rest -> order s = e -> reads s (enc ++ rest) ->
    exists s', m s = Ok a s' /\ reads s' rest /\
      io_abs s' = spec_skip (Z.of_nat (length enc)) (io_abs s).
Definition takes {A} (m : M T A) (e : Z) (enc : list byte) (a : A) : Prop := takes_before (fun _ => True) m e enc a.

Lemma emits_write s d : io_ok s -> io_room s (Z.of_nat (length d)) -> emits (io_write d) s d.
Proof. apply io_write_ok. Qed.

Lemma emits_seq s m1 m2 d1 d2 :
  io_ok s -> io_room s (Z.of_nat (length (d1 ++ d2))) -> emits m1 s d1 ->
  (forall s', io_ok s' -> io_room s' (Z.of_nat (length d2)) -> order s' = order s -> emits m2 s' d2) ->
  emits (m1 ;;; m2) s (d1 ++ d2).
Proof.
  rewrite length_app. intros Hok Hr (s1 & E1 & Ok1 & A1 & R1) H2.
  destruct (H2 s1) as (s2 & E2 & Ok2 & A2 & R2); [done|apply R1; [lia|]| |].
  { eapply eq_ind; [exact Hr|lia]. }
  { unfold order. by rewrite A1. }
  exists s2. run E1. split_and!; [done..| |].
  - rewrite A2, A1. by apply spec_write_app, io_pos_ok.
  - intros n Hn Hr'. apply R2; [done|]. apply R1; [lia|].
    eapply eq_ind; [exact Hr'|]. rewrite length_app. lia.
Qed.

Lemma takes_read e d : d <> [] -> takes (io_read (Z.of_nat (length d))) e d d.
Proof. intros Hd s rest _ _ Hr. apply io_take; [done|]. by destruct d. Qed.

Lemma takes_bind {A B} (P Q : list byte -> Prop) (m : M T A) (k : A -> M T B) e d1 d2 a b :
  takes_before Q m e d1 a -> takes_before P (k a) e d2 b -> (forall rest, P rest -> Q (d2 ++ rest)) ->
  takes_before P (bind m k) e (d1 ++ d2) b.
Proof.
  intros H1 H2 HQ s rest HP He Hr. rewrite <- app_assoc in Hr.
  destruct (H1 s _ (HQ _ HP) He Hr) as (s1 & E1 & R1 & A1).
  destruct (H2 s1 rest) as (s2 & E2 & R2 & A2); [done|unfold order in *; by rewrite A1|done|].
  exists s2. run E1. split_and!; [done..|].
  rewrite A2, A1, length_app. unfold spec_skip; simpl. f_equal. lia.
Qed.

Lemma takes_any {A} P (m : M T A) e d a : takes m e d a -> takes_before P m e d a.
Proof. intros Hm s rest _. by apply Hm. Qed.

Lemma takes_map {A B} P (m : M T A) (f : A -> B) e d a :
  takes_before P m e d a -> takes_before P (x <- m ;; ret (f x)) e d (f a).
Proof.
  intros H1 s rest HP He Hr. destruct (H1 s _ HP He Hr) as (s1 & E1 & R1 & A1).
  exists s1. by run E1.
Qed.

(** *** Fixed-width integers *)

Lemma write_int_emits swap n v s :
  io_ok s -> io_room s (Z.of_nat n) -> le_split n (swap v) = rev (le_split n v) ->
  emits (write_int swap n v) s (wire (order s) n v).
Proof.
  intros Hok Hr Hs. unfold write_int, emits.
  rewrite io_endian_ok. fold (order s).
  assert (le_split n (if negb (order s =? WYZE_BYTE_ORDER) then swap v else v) =
    wire (order s) n v) as ->.
  { unfold wire, WYZE_BYTE_ORDER. by destruct (order s =? WYZE_LITTLE_ENDIAN). }
  apply emits_write; [done|]. by rewrite length_wire.
Qed.

Lemma byteswap_s_split n v : (0 < n)%nat -> le_split n (byteswap_s n v) = rev (le_split n v).
Proof.
  intros Hn. unfold byteswap_s. rewrite le_split_swrap by done. rewrite bswap_split.
  by rewrite le_split_wrap.
Qed.

Lemma read_int_takes of_mem swap e n v :
  (0 < n)%nat -> of_mem (le_combine (le_split n v)) = v ->
  swap (of_mem (le_combine (rev (le_split n v)))) = v ->
  takes (read_int of_mem swap n) e (wire e n v) v.
Proof.
  intros Hn H1 H2 s rest _ He Hr.
  assert (wire e n v <> []) as Hw
    by (intros E; pose proof (length_wire e n v) as L; rewrite E in L; simpl in L; lia).
  destruct (io_take s _ _ Hr) as (s1 & E1 & R1 & A1); [by destruct (wire e n v)|].
  exists s1. unfold read_int. rewrite <- (length_wire e n v) at 1.
  run E1. split_and!; [|done..].
  rewrite io_endian_ok, A1. change (st_endian (spec_skip _ (io_abs s))) with (order s).
  rewrite He. f_equal. unfold wire, WYZE_BYTE_ORDER.
  destruct (e =? WYZE_LITTLE_ENDIAN); simpl; congruence.
Qed.

Lemma read_u_takes e n v :
  (0 < n)%nat -> in_u (8 * Z.of_nat n) v -> takes (read_int id (byteswap_u n) n) e (wire e n v) v.
Proof.
  intros Hn Hv. apply read_int_takes; [done|by apply combine_split_u|].
  unfold id, byteswap_u. rewrite <- bswap_split, combine_split_u by apply bswap_range.
  by apply bswap_bswap.
Qed.

Lemma read_s_takes e n v :
  (0 < n)%nat -> in_s (8 * Z.of_nat n) v ->
  takes (read_int (swrap (8 * Z.of_nat n)) (byteswap_s n) n) e (wire e n v) v.
Proof.
  intros Hn Hv. assert (0 < 8 * Z.of_nat n) as H8 by lia.
  apply read_int_takes; [done|..].
  - rewrite le_combine_split, (Z.mul_comm _ 8). fold (uwrap (8 * Z.of_nat n) v).
    by rewrite swrap_uwrap, swrap_id.
  - unfold byteswap_s. rewrite uwrap_swrap by done.
    rewrite <- (le_split_wrap n v), <- bswap_split, combine_split_u by apply bswap_range.
    rewrite uwrap_id by apply bswap_range.
    rewrite bswap_bswap by (apply uwrap_range; lia). by rewrite swrap_uwrap, swrap_id.
Qed.

Lemma byte1_takes e v : in_u 8 v -> takes readFuint8 e (le_split 1 v) v.
Proof.
  intros Hv. rewrite <- (combine_split_u 1 v) at 2 by done. unfold readFuint8.
  apply (takes_map _ (io_read 1) le_combine), (takes_read e (le_split 1 v)). discriminate.
Qed.

(** *** Base-128 varints *)

Lemma readFuint8_takes e b : takes readFuint8 e [b] (byte.unsigned b).
Proof.
  rewrite <- (le_combine_1 b). unfold readFuint8.
  apply (takes_map _ (io_read 1) le_combine), (takes_read e [b]). discriminate.
Qed.

End codecs.

Lemma varint_total room v :
  (0 < room)%nat -> 0 <= v < 2 ^ (7 * Z.of_nat room) ->
  exists bs, varint_loop room v = Some bs /\ bs <> [] /\ (length bs <= room)%nat.
Proof.
  revert v. induction room as [|room IH]; intros v Hr Hv; [lia|]. cbn [varint_loop].
  destruct (Z.leb_spec 0x80 v); [|exists [byte.of_Z v]; by split_and!; simpl; [| |lia]].
  assert (2 ^ (7 * Z.of_nat (S room)) = 128 * 2 ^ (7 * Z.of_nat room)) as E.
  { replace (7 * Z.of_nat (S room)) with (7 + 7 * Z.of_nat room) by lia.
    by rewrite Z.pow_add_r by lia. }
  rewrite E in Hv. destruct room as [|room]; [simpl in Hv; lia|].
  destruct (IH (Z.shiftr v 7)) as (bs & -> & ? & ?); [lia| |].
  { rewrite Z.shiftr_div_pow2 by lia. change (2 ^ 7) with 128.
    split; [apply Z.div_pos; lia|]. apply Z.div_lt_upper_bound; [lia|].
    by destruct Hv as [_ Hv]. }
  eexists. split_and!; [done|done|simpl; lia].
Qed.

Lemma cont_byte v : 0 <= v ->
  byte.unsigned (byte.of_Z (Z.lor (Z.land v 0x7F) 0x80)) = v mod 128 + 128.
Proof.
  intros Hv. rewrite byte.unsigned_of_Z. unfold byte.wrap.
  change 0x7F with (Z.ones 7). rewrite Z.land_ones by lia. change (2 ^ 7) with 128.
  pose proof (Z.mod_pos_bound v 128 ltac:(lia)).
  pose proof (lor_shiftl (v mod 128) 1 7 ltac:(lia) ltac:(lia)) as E.
  change (Z.shiftl 1 7) with 0x80 in E. rewrite E. apply Z.mod_small. lia.
Qed.

Lemma cont_payload v : 0 <= v -> Z.land (v mod 128 + 128) 0x7f = v mod 128.
Proof.
  intros Hv. change 0x7f with (Z.ones 7). rewrite Z.land_ones by lia. change (2 ^ 7) with 128.
  rewrite <- (Z.mul_1_l 128) at 2. rewrite Z_mod_plus_full. apply Z.mod_mod. lia.
Qed.

(** Adding a 7-bit group at [i] to a result below [2^i], in 32-bit arithmetic. *)
Lemma lor_u32_shiftl r x i :
  0 <= i <= 32 -> 0 <= r < 2 ^ i -> Z.lor r (u32 (Z.shiftl x i)) = (r + x * 2 ^ i) mod 2 ^ 32.
Proof.
  intros Hi Hr. unfold u32, uwrap. rewrite Z.shiftl_mul_pow2 by lia.
  assert (2 ^ 32 = 2 ^ (32 - i) * 2 ^ i) as E by (rewrite <- Z.pow_add_r by lia; f_equal; lia).
  assert (0 < 2 ^ i) by (apply Z.pow_pos_nonneg; lia).
  assert (0 < 2 ^ (32 - i)) by (apply Z.pow_pos_nonneg; lia).
  rewrite E, Z.mul_mod_distr_r by lia. rewrite <- E.
  set (y := x mod 2 ^ (32 - i)).
  assert (0 <= y < 2 ^ (32 - i)) as Hy by (apply Z.mod_pos_bound; lia).
  rewrite <- (Z.shiftl_mul_pow2 y) by lia. rewrite lor_shiftl by lia.
  rewrite (Z.div_mod x (2 ^ (32 - i))) at 1 by lia. fold y.
  replace (r + (2 ^ (32 - i) * (x / 2 ^ (32 - i)) + y) * 2 ^ i)
    with (r + y * 2 ^ i + (x / 2 ^ (32 - i)) * 2 ^ 32) by (rewrite E; lia).
  rewrite Z_mod_plus_full. symmetry. apply Z.mod_small. nia.
Qed.

Section varints.
Context {T : Type} `{ByteIOSpec T}.

(** The loop on the bytes of a value that fits in 35 bits: the value modulo [2^32]. *)
Lemma read_varint_takes room : forall fuel limit k v r bs e,
  varint_loop room v = Some bs -> (length bs <= fuel)%nat -> limit = 32 \/ limit = 64 ->
  (k <= 4)%nat -> let i := 7 * Z.of_nat k in
  0 <= v < 2 ^ (35 - i) -> 0 <= r < 2 ^ i ->
  takes (T := T) (read_varint fuel limit i r) e bs ((r + v * 2 ^ i) mod 2 ^ 32).
Proof.
  induction room as [|room IH]; intros fuel limit k v r bs e Hbs Hfuel Hlim Hk i Hv Hr;
    [done|]. cbn [varint_loop] in Hbs.
  destruct fuel as [|fuel].
  { destruct (0x80 <=? v); [destruct (varint_loop room _)|]; simplify_eq/=; lia. }
  intros s rest _ <- Hrd. cbn [read_varint]. rewrite (proj2 (Z.leb_gt limit i)) by lia.
  destruct (Z.leb_spec 0x80 v) as [Hc|Hc].
  - destruct (varint_loop room (Z.shiftr v 7)) as [bs'|] eqn:Ebs; simplify_eq/=.
    destruct (readFuint8_takes (order s) _ s (bs' ++ rest) I eq_refl Hrd) as (s1 & E1 & R1 & A1).
    run E1. rewrite cont_byte by lia.
    pose proof (Z.mod_pos_bound v 128 ltac:(lia)) as Hm.
    rewrite (proj2 (Z.ltb_ge _ _)) by lia. rewrite cont_payload by lia.
    assert (k <= 3)%nat as Hk'.
    { destruct (decide (k = 4%nat)) as [->|]; [|lia]. subst i. simpl in Hv. lia. }
    unfold shl32. rewrite (proj2 (Z.ltb_lt i 32)) by lia.
    unfold or_undef, ret, bind at 1. rewrite lor_u32_shiftl by lia.
    assert (2 ^ (i + 7) = 2 ^ i * 128) as E7 by (rewrite Z.pow_add_r by lia; done).
    assert (0 < 2 ^ i) by (apply Z.pow_pos_nonneg; lia).
    assert (2 ^ (i + 7) <= 2 ^ 32) by (apply Z.pow_le_mono_r; lia).
    rewrite (Z.mod_small (r + v mod 128 * 2 ^ i)) by nia.
    assert (v = 128 * Z.shiftr v 7 + v mod 128) as Ev
      by (rewrite Z.shiftr_div_pow2 by lia; apply (Z.div_mod v 128); lia).
    assert (2 ^ (35 - i) = 128 * 2 ^ (28 - i)) as E35
      by (change 128 with (2 ^ 7); rewrite <- Z.pow_add_r by lia; f_equal; lia).
    pose proof (IH fuel limit (S k) (Z.shiftr v 7) (r + v mod 128 * 2 ^ i) bs' (order s) Ebs) as IH'.
    replace (7 * Z.of_nat (S k)) with (i + 7) in IH' by lia.
    destruct (IH' ltac:(lia) Hlim ltac:(lia)) with (s := s1) (rest := rest)
      as (s2 & E2 & R2 & A2).
    + replace (35 - (i + 7)) with (28 - i) by lia. lia.
    + rewrite E7. nia.
    + done.
    + unfold order in *. by rewrite A1.
    + done.
    + exists s2. rewrite E2. split_and!; [|done|].
      * do 2 f_equal. rewrite E7. rewrite Ev at 3. ring.
      * rewrite A2, A1. unfold spec_skip; simpl. f_equal. lia.
  - simplify_eq/=.
    destruct (readFuint8_takes (order s) _ s rest I eq_refl Hrd) as (s1 & E1 & R1 & A1).
    run E1. rewrite byte.unsigned_of_Z. unfold byte.wrap.
    rewrite Z.mod_small by (change (2 ^ 8) with 256; lia).
    rewrite (proj2 (Z.ltb_lt v 0x80)) by lia.
    unfold shl32. rewrite (proj2 (Z.ltb_lt i 32)) by lia.
    unfold or_undef, bind, ret. rewrite lor_u32_shiftl by lia. eauto.
Qed.

(** On a value that needs a sixth byte the 64-bit loop shifts a [uint32_t] by 35. *)
Lemma read_varint_bad_shift room : forall fuel k v r bs s rest,
  varint_loop room v = Some bs -> (6 <= fuel + k)%nat -> (k <= 5)%nat ->
  let i := 7 * Z.of_nat k in
  2 ^ (35 - i) <= v -> reads s (bs ++ rest) ->
  read_varint fuel 64 i r s = Undef bad_shift.
Proof.
  induction room as [|room IH]; intros fuel k v r bs s rest Hbs Hfuel Hk i Hv Hrd;
    [done|]. cbn [varint_loop] in Hbs. destruct fuel as [|fuel]; [lia|].
  cbn [read_varint]. rewrite (proj2 (Z.leb_gt 64 i)) by lia.
  assert (exists b bs', bs = b :: bs') as (b & bs' & ->).
  { destruct (0x80 <=? v); [destruct (varint_loop room _)|]; simplify_eq/=; eauto. }
  destruct (readFuint8_takes (order s) _ s (bs' ++ rest) I eq_refl Hrd) as (s1 & E1 & R1 & _).
  run E1. unfold shl32. destruct (decide (k = 5%nat)) as [->|Hk5].
  { subst i. simpl. by destruct (byte.unsigned b <? 128). }
  assert (2 ^ (35 - i) = 128 * 2 ^ (28 - i)) as E35
    by (change 128 with (2 ^ 7); rewrite <- Z.pow_add_r by lia; f_equal; lia).
  assert (0 < 2 ^ (28 - i)) by (apply Z.pow_pos_nonneg; lia).
  rewrite (proj2 (Z.leb_le 0x80 v)) in Hbs by lia.
  destruct (varint_loop room (Z.shiftr v 7)) as [bs2|] eqn:Ebs; simplify_eq/=.
  pose proof (Z.mod_pos_bound v 128 ltac:(lia)) as Hm.
  rewrite cont_byte, (proj2 (Z.ltb_ge _ _)), (proj2 (Z.ltb_lt i 32)) by lia.
  unfold or_undef, bind, ret.
  pose proof (IH fuel (S k) (Z.shiftr v 7)) as IH'.
  replace (7 * Z.of_nat (S k)) with (i + 7) in IH' by lia.
  apply IH' with (bs := bs') (rest := rest); [done|lia|lia| |done].
  replace (35 - (i + 7)) with (28 - i) by lia. rewrite Z.shiftr_div_pow2 by lia.
  apply Z.div_le_lower_bound; [lia|]. change (2 ^ 7) with 128. lia.
Qed.

End varints.

(** The base-128 encoding of a value. *)
Definition base128 (room : nat) (v : Z) : list byte := default [] (varint_loop room v).

Lemma base128_ok room v :
  (0 < room)%nat -> 0 <= v < 2 ^ (7 * Z.of_nat room) ->
  varint_loop room v = Some (base128 room v) /\ base128 room v <> [] /\
  (length (base128 room v) <= room)%nat.
Proof.
  intros Hr Hv. unfold base128. destruct (varint_total room v Hr Hv) as (bs & -> & ? & ?). done.
Qed.

(** *** Zigzag *)

(** The mathematical zigzag map. *)
Definition zigzag (v : Z) : Z := if v <? 0 then -2 * v - 1 else 2 * v.

Lemma lxor_ones x w : 0 <= w -> 0 <= x < 2 ^ w -> Z.lxor x (Z.ones w) = Z.ones w - x.
Proof.
  intros Hw Hx. symmetry. rewrite Z.sub_nocarry_ldiff.
  - apply Z.bits_inj'. intros k Hk. rewrite Z.ldiff_spec, Z.lxor_spec.
    destruct (Z.ltb_spec k w).
    + rewrite Z.ones_spec_low by lia. by destruct (Z.testbit x k).
    + rewrite Z.ones_spec_high by lia. by rewrite (testbit_above x w k).
  - apply Z.bits_inj'. intros k Hk. rewrite Z.ldiff_spec, Z.bits_0.
    destruct (Z.ltb_spec k w).
    + by rewrite Z.ones_spec_low, andb_false_r by lia.
    + by rewrite (testbit_above x w k).
Qed.

Lemma zigzag_range w v : 0 < w -> in_s w v -> 0 <= zigzag v < 2 ^ w.
Proof.
  intros Hw Hv. unfold in_s, zigzag in *.
  assert (2 ^ w = 2 * 2 ^ (w - 1)) by (rewrite <- Z.pow_succ_r by lia; f_equal; lia).
  destruct (Z.ltb_spec v 0); lia.
Qed.

(** Decoding undoes the zigzag map at any width. *)
Lemma unzigzag w v :
  1 < w -> in_s w v ->
  swrap w (Z.lxor (Z.shiftr (zigzag v) 1) (uwrap w (- Z.land (zigzag v) 1))) = v.
Proof.
  intros Hw Hv. pose proof Hv as Hv'. unfold in_s in Hv'.
  assert (2 ^ w = 2 * 2 ^ (w - 1)) as Ew by (rewrite <- Z.pow_succ_r by lia; f_equal; lia).
  rewrite (Z.land_ones (zigzag v) 1 : 0 <= 1 -> Z.land _ 1 = _ mod 2) by lia.
  rewrite (Z.shiftr_div_pow2 (zigzag v) 1 : 0 <= 1 -> _ = _ / 2) by lia.
  unfold zigzag. destruct (Z.ltb_spec v 0).
  - assert ((-2 * v - 1) / 2 = - v - 1) as -> by
      (symmetry; apply Z.div_unique with 1; lia).
    assert ((-2 * v - 1) mod 2 = 1) as -> by
      (symmetry; apply Z.mod_unique with (- v - 1); lia).
    assert (uwrap w (- (1)) = Z.ones w) as ->.
    { unfold uwrap. rewrite Z.ones_equiv, <- (Z_mod_plus_full _ 1), Z.mod_small; lia. }
    rewrite lxor_ones, Z.ones_equiv, <- (swrap_uwrap w) by lia.
    replace (Z.pred (2 ^ w) - (- v - 1)) with (v + 1 * 2 ^ w) by lia.
    unfold uwrap. rewrite Z_mod_plus_full. fold (uwrap w v).
    rewrite swrap_uwrap by lia. apply swrap_id; [lia|done].
  - rewrite (Z.mul_comm 2 v), Z.div_mul, Z_mod_mult by lia. simpl Z.opp.
    unfold uwrap. rewrite Z.mod_0_l, Z.lxor_0_r by lia. apply swrap_id; [lia|done].
Qed.

(** The source's encoders: zigzag wherever their signed arithmetic is defined. *)
Lemma EncodeZigzag32_ok v :
  - 2 ^ 31 < v < 2 ^ 30 -> EncodeZigzag32 v = Some (zigzag v).
Proof.
  intros Hv. unfold EncodeZigzag32, zigzag, sneg, sdouble.
  destruct (Z.ltb_spec v 0);
    rewrite (proj2 (in_sb_spec _ _)) by fits; unfold mbind, option_bind; f_equal.
  - unfold u32. rewrite (uwrap_id 32 (- v)), (uwrap_id 32 (- v * 2)), uwrap_id
      by fits. lia.
  - unfold u32. rewrite uwrap_id by fits. lia.
Qed.

Lemma EncodeZigzag64_ok v :
  - 2 ^ 63 < v < 2 ^ 62 -> EncodeZigzag64 v = Some (zigzag v).
Proof.
  intros Hv. unfold EncodeZigzag64, zigzag, sneg, sdouble.
  destruct (Z.ltb_spec v 0);
    rewrite (proj2 (in_sb_spec _ _)) by fits; unfold mbind, option_bind; f_equal.
  - unfold u64. rewrite (uwrap_id 64 (- v)), (uwrap_id 64 (- v * 2)), uwrap_id
      by fits. lia.
  - unfold u64. rewrite uwrap_id by fits. lia.
Qed.

Lemma EncodeZigzag32_overflow v :
  in_s 32 v -> ~ (- 2 ^ 31 < v < 2 ^ 30) -> EncodeZigzag32 v = None.
Proof.
  unfold in_s, EncodeZigzag32, sneg, sdouble. intros Hv Hn.
  assert (forall z, ~ in_s 32 z -> in_sb 32 z = false) as Hf
    by (intros z Hz; apply not_true_is_false; by rewrite in_sb_spec).
  destruct (Z.ltb_spec v 0); rewrite Hf by fits; done.
Qed.

Lemma EncodeZigzag64_overflow v :
  in_s 64 v -> ~ (- 2 ^ 63 < v < 2 ^ 62) -> EncodeZigzag64 v = None.
Proof.
  unfold in_s, EncodeZigzag64, sneg, sdouble. intros Hv Hn.
  assert (forall z, ~ in_s 64 z -> in_sb 64 z = false) as Hf
    by (intros z Hz; apply not_true_is_false; by rewrite in_sb_spec).
  destruct (Z.ltb_spec v 0); rewrite Hf by fits; done.
Qed.
(** What is decoded from 32 bits has 32 bits. *)
Lemma DecodeZigzag64_range x : in_u 32 x -> in_s 32 (DecodeZigzag64 x).
Proof.
  intros Hx. assert (exists v, in_s 32 v /\ zigzag v = x) as (v & Hv & <-).
  { pose proof (Z.div_mod x 2 ltac:(lia)) as E. pose proof (Zmod_even x) as Em. rewrite Em in E.
    pose proof (Z.div_pos x 2). unfold zigzag, in_u, in_s in *. simpl in *. destruct (Z.even x).
    - exists (x / 2). split; [lia|]. case_match; lia.
    - exists (- (x / 2) - 1). split; [lia|]. case_match; lia. }
  assert (DecodeZigzag64 (zigzag v) = v) as ->; [|done]. apply (unzigzag 64); [lia|]. unfold in_s in *. simpl in *. lia.
Qed.

(** ** Records of fields

    A client writes a sequence of values with the typed methods and reads a sequence of the
    same types back. *)

Inductive field :=
  | F_int8 (v : Z) | F_uint8 (v : Z) | F_int16 (v : Z) | F_uint16 (v : Z)
  | F_int32 (v : Z) | F_uint32 (v : Z) | F_int64 (v : Z) | F_uint64 (v : Z)
  | F_vint32 (v : Z) | F_vuint32 (v : Z) | F_vint64 (v : Z) | F_vuint64 (v : Z)
  | F_float (bits : Z) | F_double (bits : Z)
  | F_str16 (d : list byte) | F_str32 (d : list byte) | F_str64 (d : list byte)
  | F_strv (d : list byte).

(** The values of the types of the methods; a string has a size of 64 bits. *)
Definition typed (f : field) : Prop :=
  match f with
  | F_int8 v => in_s 8 v | F_uint8 v => in_u 8 v
  | F_int16 v => in_s 16 v | F_uint16 v => in_u 16 v
  | F_int32 v | F_vint32 v => in_s 32 v | F_uint32 v | F_vuint32 v | F_float v => in_u 32 v
  | F_int64 v | F_vint64 v => in_s 64 v | F_uint64 v | F_vuint64 v | F_double v => in_u 64 v
  | F_str16 d | F_str32 d | F_str64 d | F_strv d => Z.of_nat (length d) < 2 ^ 64
  end.
(** Those that come back: [int32_t] varints from [-2^31] to [2^30] without the bounds, 64-bit varints
    that fit 32 bits, strings whose length fits the prefix (32 bits for the varint), and all values of
    the other types. *)
Definition field_ok (f : field) : Prop :=
  match f with
  | F_vint32 v => - 2 ^ 31 < v < 2 ^ 30
  | F_vint64 v => in_s 32 v
  | F_vuint64 v => in_u 32 v
  | F_str16 d => Z.of_nat (length d) < 2 ^ 16
  | F_str32 d | F_strv d => Z.of_nat (length d) < 2 ^ 32
  | f => typed f
  end.
(** Those that can be written: the others overflow a signed integer. *)
Definition writable (f : field) : Prop :=
  match f with F_vint32 v => is_Some (EncodeZigzag32 v) | F_vint64 v => is_Some (EncodeZigzag64 v) | _ => True end.
Lemma writable_dec f : writable f \/ ~ writable f.
Proof. destruct f; cbn; (by left) || (destruct (EncodeZigzag32 _) || destruct (EncodeZigzag64 _)); (by left; eexists) || (right; by intros [? ?]). Qed.
Lemma field_ok_typed f : field_ok f -> typed f.
Proof. destruct f; cbn; unfold in_s, in_u; lia || done. Qed.
Lemma field_ok_writable f : field_ok f -> writable f.
Proof.
  destruct f; cbn; try done; intros Hv; [rewrite EncodeZigzag32_ok by done; eauto|rewrite EncodeZigzag64_ok; [eauto|unfold in_s in *; simpl in *; lia]].
Qed.
Lemma writable_vint32 v : in_s 32 v -> is_Some (EncodeZigzag32 v) -> - 2 ^ 31 < v < 2 ^ 30.
Proof.
  intros Hv [x Hx]. destruct (decide (- 2 ^ 31 < v /\ v < 2 ^ 30)) as [|Hn]; [done|]. by rewrite EncodeZigzag32_overflow in Hx.
Qed.
Lemma writable_vint64 v : in_s 64 v -> is_Some (EncodeZigzag64 v) -> - 2 ^ 63 < v < 2 ^ 62.
Proof.
  intros Hv [x Hx]. destruct (decide (- 2 ^ 63 < v /\ v < 2 ^ 62)) as [|Hn]; [done|]. by rewrite EncodeZigzag64_overflow in Hx.
Qed.

(** An empty string is read where something is left only. *)
Definition readable_before (f : field) (rest : list byte) : Prop :=
  match f with F_str16 d | F_str32 d | F_str64 d | F_strv d => d ++ rest <> [] | _ => True end.
Fixpoint all_before (fs : list field) (rest : list byte) : Prop :=
  match fs with [] => True | [f] => readable_before f rest | _ :: fs => all_before fs rest end.

(** The format. *)
Definition encode (e : Z) (f : field) : list byte :=
  match f with
  | F_int8 v | F_uint8 v => le_split 1 v
  | F_int16 v | F_uint16 v => wire e 2 v
  | F_int32 v | F_uint32 v | F_float v => wire e 4 v
  | F_int64 v | F_uint64 v | F_double v => wire e 8 v
  | F_vint32 v => base128 5 (zigzag v) | F_vuint32 v => base128 5 v
  | F_vint64 v => base128 10 (zigzag v) | F_vuint64 v => base128 10 v
  | F_str16 d => wire e 2 (Z.of_nat (length d)) ++ d
  | F_str32 d => wire e 4 (Z.of_nat (length d)) ++ d
  | F_str64 d => wire e 8 (Z.of_nat (length d)) ++ d
  | F_strv d => base128 10 (Z.of_nat (length d)) ++ d
  end.

Definition encode_all (e : Z) (fs : list field) : list byte := concat (encode e <$> fs).

Section fields.
Context {T : Type} `{ByteIOSpec T}.

Definition write_field (f : field) : M T unit :=
  match f with
  | F_int8 v => writeFint8 v | F_uint8 v => writeFuint8 v
  | F_int16 v => writeFint16 v | F_uint16 v => writeFuint16 v
  | F_int32 v => writeFint32 v | F_uint32 v => writeFuint32 v
  | F_int64 v => writeFint64 v | F_uint64 v => writeFuint64 v
  | F_vint32 v => writeInt32 v | F_vuint32 v => writeUint32 v
  | F_vint64 v => writeInt64 v | F_vuint64 v => writeUint64 v
  | F_float v => writeFloat v | F_double v => writeDouble v
  | F_str16 d => writeStringF16 d | F_str32 d => writeStringF32 d
  | F_str64 d => writeStringF64 d | F_strv d => writeStringVint d
  end.

(** The reader of the type of [f]; the value of [f] is not looked at. *)
Definition read_field (f : field) : M T field :=
  match f with
  | F_int8 _ => v <- readFint8 ;; ret (F_int8 v) | F_uint8 _ => v <- readFuint8 ;; ret (F_uint8 v)
  | F_int16 _ => v <- readFint16 ;; ret (F_int16 v)
  | F_uint16 _ => v <- readFuint16 ;; ret (F_uint16 v)
  | F_int32 _ => v <- readFint32 ;; ret (F_int32 v)
  | F_uint32 _ => v <- readFuint32 ;; ret (F_uint32 v)
  | F_int64 _ => v <- readFint64 ;; ret (F_int64 v)
  | F_uint64 _ => v <- readFuint64 ;; ret (F_uint64 v)
  | F_vint32 _ => v <- readInt32 ;; ret (F_vint32 v)
  | F_vuint32 _ => v <- readUint32 ;; ret (F_vuint32 v)
  | F_vint64 _ => v <- readInt64 ;; ret (F_vint64 v)
  | F_vuint64 _ => v <- readUint64 ;; ret (F_vuint64 v)
  | F_float _ => v <- readFloat ;; ret (F_float v)
  | F_double _ => v <- readDouble ;; ret (F_double v)
  | F_str16 _ => d <- readStringF16 ;; ret (F_str16 d)
  | F_str32 _ => d <- readStringF32 ;; ret (F_str32 d)
  | F_str64 _ => d <- readStringF64 ;; ret (F_str64 d)
  | F_strv _ => d <- readStringVint ;; ret (F_strv d)
  end.

Fixpoint write_fields (fs : list field) : M T unit :=
  match fs with [] => ret tt | f :: fs => write_field f ;;; write_fields fs end.
Fixpoint read_fields (fs : list field) : M T (list field) :=
  match fs with
  | [] => ret []
  | f :: fs => v <- read_field f ;; vs <- read_fields fs ;; ret (v :: vs)
  end.

Lemma emits_varint room v s :
  (0 < room)%nat -> 0 <= v < 2 ^ (7 * Z.of_nat room) ->
  io_ok s -> io_room s (Z.of_nat (length (base128 room v))) ->
  emits (tmp <- or_undef out_of_bounds (varint_loop room v) ;; io_write tmp) s (base128 room v).
Proof.
  intros Hr Hv Hok Hm. destruct (base128_ok room v Hr Hv) as (-> & _).
  exact (emits_write _ _ Hok Hm).
Qed.

Lemma emits_prefixed n d s :
  (0 < n)%nat -> io_ok s -> io_room s (Z.of_nat (length (wire (order s) n (Z.of_nat (length d)) ++ d))) ->
  io_room s (Z.of_nat n) ->
  emits (write_int (byteswap_u n) n (uwrap (8 * Z.of_nat n) (Z.of_nat (length d))) ;;; io_write d) s
    (wire (order s) n (Z.of_nat (length d)) ++ d).
Proof.
  intros Hn Hok Hm Hm'. rewrite <- (wire_wrap (order s) n (Z.of_nat (length d))) in Hm |- *. apply emits_seq; [done|done| |].
  - apply write_int_emits; [done|done|apply bswap_split].
  - intros s' Hok' Hr' _. by apply emits_write.
Qed.

(** Room for a whole is room for its parts, as a law of the instance at hand. *)
Class RoomMono := room_mono : forall (s : T) n m, 0 <= m <= n -> io_room s n -> io_room s m.
Context `{RoomMono}.

Lemma write_field_emits f s :
  typed f -> writable f -> io_ok s -> io_room s (Z.of_nat (length (encode (order s) f))) ->
  emits (write_field f) s (encode (order s) f).
Proof.
  intros Hf Hwr Hok Hr.
  destruct f; cbn [typed writable encode write_field] in *; rewrite ?length_wire in Hr.
  1-2: by apply emits_write.
  1-6: apply write_int_emits; [done|done|by first [apply bswap_split|apply byteswap_s_split; lia]].
  - unfold writeInt32. rewrite EncodeZigzag32_ok by by apply writable_vint32.
    pose proof (zigzag_range 32 v ltac:(lia) Hf). apply emits_varint; (done || lia).
  - unfold in_u in Hf. apply emits_varint; (done || lia).
  - unfold writeInt64. rewrite EncodeZigzag64_ok by by apply writable_vint64.
    pose proof (zigzag_range 64 v ltac:(lia) Hf). apply emits_varint; (done || lia).
  - unfold in_u in Hf. apply emits_varint; (done || lia).
  - apply write_int_emits; [done|done|apply bswap_split].
  - apply write_int_emits; [done|done|apply bswap_split].
  - apply emits_prefixed; [lia|done|done|eapply room_mono, Hr; rewrite length_app, length_wire; lia].
  - apply emits_prefixed; [lia|done|done|eapply room_mono, Hr; rewrite length_app, length_wire; lia].
  - apply emits_prefixed; [lia|done|done|eapply room_mono, Hr; rewrite length_app, length_wire; lia].
  - unfold writeStringVint, u64. rewrite uwrap_id by fits.
    apply emits_seq; [done|done| |].
    + apply emits_varint; [lia|lia|done|]. eapply room_mono, Hr. rewrite length_app. lia.
    + intros s' Hok' Hr' _. by apply emits_write.
Qed.
Lemma write_field_undef f s : ~ writable f -> exists u, write_field f s = Undef u.
Proof.
  destruct f; cbn; try (intros []; done); intros Hn; exists signed_overflow.
  - unfold writeInt32. destruct (EncodeZigzag32 v); [|done]. destruct Hn; eauto.
  - unfold writeInt64. destruct (EncodeZigzag64 v); [|done]. destruct Hn; eauto.
Qed.

(** The prefix of a string, and any string of 64 bits, as the loop of [readUint64] reads it *)
Lemma readUint64_low v e : in_u 64 v -> v < 2 ^ 35 -> takes (T := T) readUint64 e (base128 10 v) (v mod 2 ^ 32).
Proof.
  intros Hv Hlt. unfold in_u in Hv. destruct (base128_ok 10 v) as (E & _ & L); [lia|simpl; lia|].
  pose proof (read_varint_takes 10 10 64 0 v 0 (base128 10 v) e E L ltac:(auto) ltac:(lia)) as P. cbn zeta in P. change (7 * Z.of_nat 0) with 0 in P.
  rewrite Z.mul_1_r, Z.add_0_l in P. apply P; simpl; lia.
Qed.
Lemma readUint64_high v s rest : in_u 64 v -> 2 ^ 35 <= v -> reads s (base128 10 v ++ rest) -> readUint64 s = Undef bad_shift.
Proof.
  intros Hv Hge Hr. unfold in_u in Hv. destruct (base128_ok 10 v) as (E & _ & L); [lia|simpl; lia|].
  by apply (read_varint_bad_shift 10 10 0 v 0 (base128 10 v) s rest); [|lia|lia|simpl; lia|].
Qed.

Lemma readUintv_takes room limit v e :
  (room = 5%nat /\ limit = 32 \/ room = 10%nat /\ limit = 64) -> in_u 32 v ->
  takes (T := T) (read_varint room limit 0 0) e (base128 room v) v.
Proof.
  intros Hrl Hv. unfold in_u in Hv.
  destruct (base128_ok room v) as (E & _ & L); [lia|destruct Hrl as [[-> _]|[-> _]]; simpl; lia|].
  pose proof (read_varint_takes room room limit 0 v 0 (base128 room v) e E L ltac:(lia) ltac:(lia)) as P.
  cbn zeta in P. change (7 * Z.of_nat 0) with 0 in P. rewrite Z.mul_1_r, Z.add_0_l in P.
  rewrite Z.mod_small in P by done. apply P; simpl; lia.
Qed.

Lemma takes_prefixed (len : M T Z) e pre d :
  takes len e pre (Z.of_nat (length d)) ->
  takes_before (fun rest => d ++ rest <> []) (n <- len ;; io_read n) e (pre ++ d) d.
Proof.
  intros Hl. eapply takes_bind; [exact Hl| |done]. intros s rest Hne _ Hr. by apply io_take.
Qed.

Lemma read_field_takes f e : field_ok f -> takes_before (readable_before f) (read_field f) e (encode e f) f.
Proof.
  intros Hf. destruct f; cbn [field_ok typed encode read_field] in *.
  1-14: apply takes_any. all: apply takes_map.
  - rewrite <- (swrap_id 8 v) at 2 by done. rewrite <- swrap_uwrap by lia.
    replace (uwrap 8 v) with (le_combine (le_split 1 v)) by by rewrite le_combine_split.
    apply (takes_map (fun _ => True) (io_read 1) (fun d => s8 (le_combine d)) e (le_split 1 v)).
    apply (takes_read e (le_split 1 v)). discriminate.
  - by apply byte1_takes.
  - by apply (read_s_takes e 2); [lia|].
  - by apply (read_u_takes e 2); [lia|].
  - by apply (read_s_takes e 4); [lia|].
  - by apply (read_u_takes e 4); [lia|].
  - by apply (read_s_takes e 8); [lia|].
  - by apply (read_u_takes e 8); [lia|].
  - assert (in_s 32 v) as Hv by fits.
    rewrite <- (unzigzag 32 v) at 2 by (done || lia).
    apply (takes_map _ readUint32 DecodeZigzag32). apply readUintv_takes; [auto|].
    by apply zigzag_range; [lia|].
  - by apply readUintv_takes; [auto|].
  - assert (in_s 64 v) as Hv by (unfold in_s in *; lia).
    rewrite <- (unzigzag 64 v) at 2 by (done || lia).
    apply (takes_map _ readUint64 DecodeZigzag64). apply readUintv_takes; [auto|].
    by apply zigzag_range; [lia|].
  - by apply readUintv_takes; [auto|].
  - by apply (read_u_takes e 4); [lia|].
  - by apply (read_u_takes e 8); [lia|].
  - apply takes_prefixed, (read_u_takes e 2); [lia|fits].
  - apply takes_prefixed, (read_u_takes e 4); [lia|fits].
  - apply takes_prefixed, (read_u_takes e 8); [lia|fits].
  - apply takes_prefixed, readUintv_takes; [auto|fits].
Qed.

(** What comes back from where an excluded value was written is another one, or nothing. *)
Lemma read_prefixed_size (len : M T Z) e pre n d s rest d' s' :
  takes len e pre n -> 0 <= n <= Z.of_nat (length d) -> d <> [] -> order s = e -> reads s ((pre ++ d) ++ rest) ->
  (n <- len ;; io_read n) s = Ok d' s' -> Z.of_nat (length d') = n.
Proof.
  intros Hl Hn Hd He Hr. rewrite <- app_assoc in Hr. destruct (Hl s _ I He Hr) as (s1 & E1 & [Hok Hu] & _). run E1.
  destruct (io_read_ok s1 n Hok) as (s2 & E2 & _); rewrite ?Hu; [by destruct d|rewrite length_app; lia|].
  rewrite E2, Hu. intros [= <- _]. rewrite length_take, length_app. lia.
Qed.
Lemma string_fits (len : M T Z) e pre d s rest s' w :
  0 <= w -> takes len e pre (Z.of_nat (length d) mod 2 ^ w) -> order s = e -> reads s ((pre ++ d) ++ rest) ->
  (n <- len ;; io_read n) s = Ok d s' -> Z.of_nat (length d) < 2 ^ w.
Proof.
  intros Hw Hl He Hr E. assert (0 < 2 ^ w) by (apply Z.pow_pos_nonneg; lia).
  pose proof (Z.mod_pos_bound (Z.of_nat (length d)) (2 ^ w)). pose proof (Z.mod_le (Z.of_nat (length d)) (2 ^ w)).
  destruct (decide (d = [])) as [->|Hd]; [simpl; lia|].
  pose proof (read_prefixed_size len e pre _ d s rest d s' Hl ltac:(lia) Hd He Hr E). lia.
Qed.
Lemma wire_takes n v e : (0 < n)%nat -> 0 <= v -> takes (T := T) (read_int id (byteswap_u n) n) e (wire e n v) (v mod 2 ^ (8 * Z.of_nat n)).
Proof. intros Hn Hv. rewrite <- (wire_wrap e n v). apply read_u_takes; [done|]. apply uwrap_range. lia. Qed.

Lemma read_field_exact f s rest s' :
  typed f -> writable f -> reads s (encode (order s) f ++ rest) -> read_field f s = Ok f s' -> field_ok f.
Proof.
  intros Ht Hwr Hr E. destruct f; cbn [typed writable field_ok encode read_field] in *; try done.
  - by apply writable_vint32.
  - pose proof (zigzag_range 64 v ltac:(lia) Ht) as Hz. apply bind_returns in E as (v' & s1 & E & [= -> _]).
    apply bind_returns in E as (x & s2 & E & [= Hd _]). rewrite <- Hd. destruct (Z.ltb_spec (zigzag v) (2 ^ 35)) as [Hlt|Hge].
    + destruct (readUint64_low (zigzag v) (order s) Hz Hlt s rest I eq_refl Hr) as (s3 & E3 & _). rewrite E in E3. injection E3 as Ex _.
      rewrite Ex. apply DecodeZigzag64_range. apply Z.mod_pos_bound. lia.
    + by rewrite (readUint64_high (zigzag v) s rest Hz Hge Hr) in E.
  - apply bind_returns in E as (v' & s1 & E & [= -> _]). destruct (Z.ltb_spec v (2 ^ 35)) as [Hlt|Hge].
    + destruct (readUint64_low v (order s) Ht Hlt s rest I eq_refl Hr) as (s3 & E3 & _). rewrite E in E3. injection E3 as -> _.
      apply Z.mod_pos_bound. lia.
    + by rewrite (readUint64_high v s rest Ht Hge Hr) in E.
  - apply bind_returns in E as (d' & s1 & E & [= -> _]). apply (string_fits _ (order s) _ d s rest s1 16 ltac:(lia) (wire_takes 2 (Z.of_nat (length d)) (order s) ltac:(lia) ltac:(lia)) eq_refl Hr E).
  - apply bind_returns in E as (d' & s1 & E & [= -> _]). apply (string_fits _ (order s) _ d s rest s1 32 ltac:(lia) (wire_takes 4 (Z.of_nat (length d)) (order s) ltac:(lia) ltac:(lia)) eq_refl Hr E).
  - apply bind_returns in E as (d' & s1 & E & [= -> _]). destruct (Z.ltb_spec (Z.of_nat (length d)) (2 ^ 35)) as [Hlt|Hge].
    + apply (string_fits _ (order s) _ d s rest s1 32 ltac:(lia) (readUint64_low (Z.of_nat (length d)) (order s) ltac:(unfold in_u; lia) Hlt) eq_refl Hr E).
    + rewrite <- app_assoc in Hr. unfold readStringVint in E. apply bind_returns in E as (n & s2 & E & _).
      by rewrite (readUint64_high (Z.of_nat (length d)) s _ ltac:(unfold in_u; lia) Hge Hr) in E.
Qed.

(** ** Sequences of fields *)

Lemma encode_all_cons e f fs : encode_all e (f :: fs) = encode e f ++ encode_all e fs.
Proof. done. Qed.
Lemma encode_not_nil e f : typed f -> encode e f <> [].
Proof.
  destruct f; cbn [typed encode]; intros Ht; try (apply wire_not_nil; lia); try (intros [??]%app_eq_nil; by eapply wire_not_nil; [|done]; lia); try done.
  all: first [intros [E _]%app_eq_nil; revert E|idtac]; apply base128_ok; try lia; unfold in_u, in_s in *; simpl in *;
    first [lia | pose proof (zigzag_range 32 v ltac:(lia) Ht); simpl in *; lia | pose proof (zigzag_range 64 v ltac:(lia) Ht); simpl in *; lia].
Qed.

Lemma write_fields_emits fs : forall s,
  Forall typed fs -> io_ok s -> io_room s (Z.of_nat (length (encode_all (order s) fs))) ->
  (Forall writable fs /\ emits (write_fields fs) s (encode_all (order s) fs)) \/
  (~ Forall writable fs /\ exists u, write_fields fs s = Undef u).
Proof.
  induction fs as [|f fs IH]; intros s Hfs Hok Hr.
  - left. split; [constructor|]. change (encode_all (order s) []) with (@nil byte) in *. exists s. split_and!; [done..| |].
    + unfold spec_write. rewrite splice_nil; simpl. rewrite Z.add_0_r. by destruct (io_abs s).
    + intros n _ R. by rewrite Z.add_0_l in R.
  - apply Forall_cons in Hfs as [Hf Hfs]. rewrite encode_all_cons in *. cbn [write_fields].
    destruct (writable_dec f) as [Hwf|Hwf].
    2: { right. split; [by intros [? _]%Forall_cons|]. destruct (write_field_undef f s Hwf) as [u E]. exists u. unfold bind. by rewrite E. }
    destruct (write_field_emits f s Hf Hwf Hok) as (s1 & E1 & Hok1 & A1 & R1); [eapply room_mono, Hr; rewrite length_app; lia|].
    assert (order s1 = order s) as Ho by (unfold order; by rewrite A1).
    assert (io_room s1 (Z.of_nat (length (encode_all (order s) fs)))) as Hr1.
    { apply R1; [lia|]. rewrite length_app, Nat2Z.inj_add in Hr. exact Hr. }
    destruct (IH s1 Hfs Hok1) as [[Hwfs (s2 & E2 & Hok2 & A2 & R2)]|[Hwfs [u E2]]]; [by rewrite Ho| |].
    + left. split; [by constructor|]. rewrite Ho in *. exists s2. run E1. split_and!; [done..| |].
      * rewrite A2, A1. by apply spec_write_app, io_pos_ok.
      * intros n Hn Hr'. apply R2; [done|]. apply R1; [lia|]. eapply eq_ind; [exact Hr'|]. rewrite length_app. lia.
    + right. split; [by intros [_ ?]%Forall_cons|]. exists u. by run E1.
Qed.

Lemma read_fields_takes fs e : Forall field_ok fs -> takes_before (all_before fs) (read_fields fs) e (encode_all e fs) fs.
Proof.
  induction 1 as [|f fs Hf Hfs IH].
  - intros s rest _ _ Hr. exists s. split_and!; [done..|]. unfold spec_skip.
    simpl. rewrite Z.add_0_r. by destruct (io_abs s).
  - rewrite encode_all_cons. cbn [read_fields].
    eapply takes_bind with (Q := readable_before f) (P := all_before (f :: fs)); [by apply read_field_takes| |].
    + intros s rest Hb. apply (takes_map (all_before fs) _ (cons f) _ _ _ IH). destruct fs; [done|exact Hb].
    + intros rest Hb. destruct fs as [|g fs]; [exact Hb|]. apply Forall_cons in Hfs as [Hg _]. rewrite encode_all_cons, <- app_assoc.
      pose proof (encode_not_nil e g (field_ok_typed g Hg)). destruct f; cbn; try done; destruct d; try done; by destruct (encode e g).
Qed.

Lemma read_fields_exact fs : forall s rest s', Forall typed fs -> Forall writable fs -> reads s (encode_all (order s) fs ++ rest) ->
  read_fields fs s = Ok fs s' -> Forall field_ok fs.
Proof.
  induction fs as [|f fs IH]; intros s rest s' Ht Hw Hr E; [constructor|]. apply Forall_cons in Ht as [Hf Ht]. apply Forall_cons in Hw as [Hwf Hw].
  rewrite encode_all_cons, <- app_assoc in Hr. cbn [read_fields] in E. apply bind_returns in E as (v & s1 & E1 & E).
  apply bind_returns in E as (vs & s2 & E2 & E). injection E as -> -> _.
  assert (field_ok f) as Hok by by eapply read_field_exact. constructor; [done|]. destruct fs as [|g fs]; [constructor|].
  assert (readable_before f (encode_all (order s) (g :: fs) ++ rest)) as Hb.
  { apply Forall_cons in Ht as [Hg _]. rewrite encode_all_cons, <- app_assoc. pose proof (encode_not_nil (order s) g Hg).
    destruct f; cbn; try done; destruct d; try done; by destruct (encode (order s) g). }
  destruct (read_field_takes f (order s) Hok s _ Hb eq_refl Hr) as (s3 & E3 & Hr3 & A3). rewrite E1 in E3. injection E3 as <-.
  apply (IH s1 rest s2 Ht Hw); [|done]. assert (order s1 = order s) as -> by (unfold order; by rewrite A3). done.
Qed.

End fields.

(** ** On ByteArray *)

Section properties.
Context `{Allocator}.

#[export] Instance ByteArray_room_mono : RoomMono (T := ByteArray).
Proof. intros s n m Hm Hr. change (room s n) in Hr. change (room s m). unfold room in *. lia. Qed.

(** Seeking back to where [d] was written, the array reads [d], and behind it what was there. *)
Lemma rewind_reads ba b1 d :
  wf ba -> wf b1 -> abs b1 = spec_write d (abs ba) ->
  setPosition (m_position ba) b1 = Ok tt (seeked b1 (m_position ba)) /\
    reads (seeked b1 (m_position ba)) (d ++ drop (length d) (unread (abs ba))) /\
    order (seeked b1 (m_position ba)) = order ba /\
    m_position (seeked b1 (m_position ba)) = m_position ba.
Proof.
  intros W W1 A1. pose proof (length_abs _ W) as L. pose proof (length_abs _ W1) as L1.
  pose proof W as [G Hs]. pose proof W1 as [G1 Hs1]. pose proof (g_pos _ G).
  assert (m_position b1 = m_position ba + Z.of_nat (length d)) as P1
    by exact (f_equal st_pos A1).
  assert (0 <= m_position ba <= m_capacity b1) as Hp by lia.
  split_and!; [by apply setPosition_ok| |exact (f_equal st_endian A1)|done].
  split; [by apply seeked_wf|]. change (io_abs (seeked b1 (m_position ba)))
    with (abs (seeked b1 (m_position ba))). rewrite seeked_abs by done.
  unfold exposed, slice. replace (Z.to_nat (m_position ba - m_size b1)) with 0%nat by lia.
  unfold spec_seek. rewrite take_0, app_nil_r, A1. unfold unread at 1. cbn [st_pos st_bytes].
  change (m_position ba) with (st_pos (abs ba)).
  rewrite <- unread_write by (simpl in *; lia). done.
Qed.
Lemma all_before_behind ba fs n : wf ba -> all_before fs [] \/ m_position ba + Z.of_nat n < m_size ba -> all_before fs (drop n (unread (abs ba))).
Proof.
  intros W Hb. assert (m_position ba + Z.of_nat n < m_size ba -> drop n (unread (abs ba)) <> []) as Hne.
  { intros Hlt E. apply (f_equal length) in E. rewrite length_drop in E. pose proof (length_unread ba W). simpl in E. lia. }
  induction fs as [|f [|g fs] IH]; [done| |exact (IH Hb)]. destruct Hb as [Hb|Hb%Hne].
  - destruct f; cbn in *; try done; rewrite app_nil_r in Hb; by destruct d.
  - destruct f; cbn; try done; by intros [_ ?]%app_eq_nil.
Qed.


(** What [readUint64] makes of what [writeUint64] wrote: the value modulo [2^32] below
    [2^35], because the loop shifts a [uint32_t], and from [2^35] on a shift by 35. *)
Theorem varint64_truncates ba v :
  wf ba -> in_u 64 v -> room ba 10 ->
  let run := (writeUint64 v ;;; setPosition (m_position ba) ;;; readUint64) ba in
  if v <? 2 ^ 35 then returned run = Some (v mod 2 ^ 32) else run = Undef bad_shift.
Proof.
  intros W Hv Hr run. destruct (base128_ok 10 v) as (_ & _ & L); [lia|unfold in_u in Hv; simpl; lia|].
  assert (io_ok ba) as Wi by exact W. destruct (write_field_emits (F_vuint64 v) ba Hv I Wi) as (b1 & E1 & W1 & A1 & _).
  { eapply (room_mono ba 10); [cbn [encode]; lia|exact Hr]. }
  destruct (rewind_reads ba b1 _ W W1 A1) as (E2 & Hrd & Ho & _). cbn [write_field] in E1. subst run. run E1, E2.
  destruct (Z.ltb_spec v (2 ^ 35)) as [Hlt|Hge].
  - destruct (readUint64_low v (order ba) Hv Hlt _ _ I Ho Hrd) as (b3 & -> & _). done.
  - by apply (readUint64_high v _ _ Hv Hge Hrd).
Qed.

(** [DecodeZigzag32] undoes [EncodeZigzag32] on every [int32_t] whose encoding the source
    can compute without signed overflow, and that is exactly the interval between [-2^31] and
    [2^30]: the encoder doubles (and negates) before it converts to unsigned. *)
Theorem zigzag32_exact v :
  in_s 32 v ->
  EncodeZigzag32 v = (if (- 2 ^ 31 <? v) && (v <? 2 ^ 30) then Some (zigzag v) else None) /\
  DecodeZigzag32 (zigzag v) = v /\ in_u 32 (zigzag v).
Proof.
  intros Hv. split_and!.
  - destruct (Z.ltb_spec (- 2 ^ 31) v), (Z.ltb_spec v (2 ^ 30)); simpl;
      first [by apply EncodeZigzag32_ok|apply EncodeZigzag32_overflow; [done|lia]].
  - by apply (unzigzag 32); [lia|].
  - by apply zigzag_range; [lia|].
Qed.

End properties.

(** *** Witnesses *)

Definition sample_fields : list field :=
  [F_int32 (-2); F_vint32 (-3); F_vuint32 300; F_str16 []; F_uint16 513; F_strv one_two; F_double 1].


(** An empty string at the end of the last block *)
Example empty_string_end : (@write_fields _ (@ByteArray_io zeroed) [F_str16 []] ;;; setPosition 0 ;;; @read_fields _ (@ByteArray_io zeroed) [F_str16 []])
  (@new_ByteArray zeroed 2) = Undef null_deref.
Proof. vm_compute. reflexivity. Qed.

Lemma varint64_truncates_witness :
  returned ((@writeUint64 _ (@ByteArray_io zeroed) (2 ^ 33 + 5) ;;; setPosition 0 ;;;
             @readUint64 _ (@ByteArray_io zeroed)) (@new_ByteArray zeroed 4)) = Some 5.
Proof.
  exact (@varint64_truncates zeroed (@new_ByteArray zeroed 4) (2 ^ 33 + 5)
    (wf_new 4 ltac:(lia)) ltac:(fits) ltac:(unfold room; simpl; lia)).
Defined.

Lemma zigzag32_exact_witness : EncodeZigzag32 (2 ^ 30) = None.
Proof. exact (proj1 (zigzag32_exact (2 ^ 30) ltac:(fits))). Defined.
