(* ===== verification/Timer.v ===== *)
(** * Timers (src/wyze/timer.h, src/wyze/timer.cpp)

    Timer objects live on a heap and are named by their address; the manager keeps a
    [std::set] of addresses ordered through the heap by [Comparator], and a timer is shared
    between the set and the users that hold its pointer.  Every operation runs under the
    manager's mutex and is one transition; the current time [GetCurrentMS()], an unsigned
    64-bit count of milliseconds, is an argument.  Operations that may call the virtual
    [onTimerInsertdAtFront()] return whether they do. *)

From stdpp Require Import gmap.
From S2P Require Import Prelude Containers.

(** A [std::function<void()>] handed to a timer: a function of the user, or the [std::bind]
    of [OnTimer] to a condition and a function.  [None] is the empty function. *)
Inductive callback := cb_fun (f : Z) | cb_OnTimer (weak_cond : Z) (f : option Z).

(** [OnTimer]: the function that is called, if [weak_cond.lock()] still gives an object. *)
Definition OnTimer (alive : Z -> bool) (weak_cond : Z) (cb : option Z) : option Z :=
  if alive weak_cond then cb else None.
Definition run_callback (alive : Z -> bool) (cb : callback) : option Z :=
  match cb with cb_fun f => Some f | cb_OnTimer w f => OnTimer alive w f end.

Record Timer := mkTimer {
  m_ms : Z; m_cb : option callback; m_recurring : bool; m_next : Z }.

Record TimerManager := mkTimerManager {
  m_timers : list Z; heap : gmap Z Timer; m_tickled : bool; m_previousTime : Z }.

Definition with_timers (s : TimerManager) (l : list Z) : TimerManager :=
  mkTimerManager l (heap s) (m_tickled s) (m_previousTime s).
Definition with_heap (s : TimerManager) (h : gmap Z Timer) : TimerManager :=
  mkTimerManager (m_timers s) h (m_tickled s) (m_previousTime s).
Definition with_tickled (s : TimerManager) (b : bool) : TimerManager :=
  mkTimerManager (m_timers s) (heap s) b (m_previousTime s).
Definition with_previousTime (s : TimerManager) (t : Z) : TimerManager :=
  mkTimerManager (m_timers s) (heap s) (m_tickled s) t.

(** Constructors: [Timer(ms, cb, recurring, manager)], [Timer(next)], [TimerManager()]. *)
Definition new_Timer (now ms : Z) (cb : option callback) (recurring : bool) : Timer :=
  mkTimer ms cb recurring (u64 (now + ms)).
Definition key_Timer (next : Z) : Timer := mkTimer 0 None false next.
Definition new_TimerManager (now : Z) : TimerManager := mkTimerManager [] ∅ false now.

(** [Timer::Comparator]; the null pointer is the address 0. *)
Definition next_at (h : gmap Z Timer) (a : Z) : Z :=
  match h !! a with Some t => m_next t | None => 0 end.
Definition Comparator (h : gmap Z Timer) (lhs rhs : Z) : bool :=
  if (lhs =? 0) && (rhs =? 0) then false
  else if lhs =? 0 then true
  else if rhs =? 0 then false
  else if next_at h lhs <? next_at h rhs then true
  else if next_at h rhs <? next_at h lhs then false
  else lhs <? rhs.

(** Access to a timer through a pointer. *)
Definition timer_at (a : Z) : M TimerManager Timer := fun s =>
  match heap s !! a with Some t => Ok t s | None => Undef null_deref end.
Definition update (a : Z) (t : Timer) : M TimerManager unit :=
  modify (fun s => with_heap s (<[a := t]> (heap s))).

(** [m_timers.find], [m_timers.insert], [m_timers.erase] *)
Definition found (a : Z) (s : TimerManager) : bool :=
  match set_find (Comparator (heap s)) a (m_timers s) with Some _ => true | None => false end.
Definition insert_timer (a : Z) : M TimerManager unit :=
  modify (fun s => with_timers s (set_insert (Comparator (heap s)) a (m_timers s))).
(** [erase(it)] of an iterator from [find]: undefined for [end()]. *)
Definition erase_found (a : Z) : M TimerManager unit := fun s =>
  if found a s then Ok tt (with_timers s (set_erase (Comparator (heap s)) a (m_timers s)))
  else Undef out_of_bounds.

(** [Timer::cancel()] *)
Definition cancel (a : Z) : M TimerManager bool :=
  t <- timer_at a ;;
  match m_cb t with
  | Some _ =>
      update a (mkTimer (m_ms t) None (m_recurring t) (m_next t)) ;;;
      erase_found a ;;; ret true
  | None => ret false
  end.

(** [Timer::refresh()] *)
Definition refresh (now a : Z) : M TimerManager bool :=
  t <- timer_at a ;;
  match m_cb t with
  | None => ret false
  | Some _ => fun s =>
      if negb (found a s) then Ok false s
      else (erase_found a ;;;
            update a (mkTimer (m_ms t) (m_cb t) (m_recurring t) (u64 (now + m_ms t))) ;;;
            insert_timer a ;;; ret true) s
  end.

(** [TimerManager::addTimer(val, wlock)]: is [onTimerInsertdAtFront()] called? *)
Definition addTimer_locked (a : Z) : M TimerManager bool :=
  insert_timer a ;;;
  s <- get ;;
  let at_front := match m_timers s with f :: _ => f =? a | [] => false end && negb (m_tickled s) in
  (if at_front then modify (fun s => with_tickled s true) else ret tt) ;;;
  ret at_front.

(** [Timer::reset(ms, from_now)]: the result and whether the front notification is called *)
Definition reset (now a ms : Z) (from_now : bool) : M TimerManager (bool * bool) :=
  t0 <- timer_at a ;;
  if (ms =? m_ms t0) && negb from_now then ret (true, false)
  else
  t <- timer_at a ;;
  match m_cb t with
  | None => ret (false, false)
  | Some _ => fun s =>
      if negb (found a s) then Ok (false, false) s
      else (erase_found a ;;;
            let start := if from_now then now else u64 (m_next t - m_ms t) in
            update a (mkTimer ms (m_cb t) (m_recurring t) (u64 (start + ms))) ;;;
            n <- addTimer_locked a ;; ret (true, n)) s
  end.

(** [TimerManager::addTimer(ms, cb, recurring)]; [a] is where [new] puts the timer. *)
Definition addTimer (now a ms : Z) (cb : option callback) (recurring : bool) :
    M TimerManager (Z * bool) :=
  update a (new_Timer now ms cb recurring) ;;;
  n <- addTimer_locked a ;; ret (a, n).

(** [TimerManager::addConditionTimer(ms, cb, weak_cond, recurring)] *)
Definition addConditionTimer (now a ms : Z) (cb : option Z) (weak_cond : Z) (recurring : bool) :
    M TimerManager (Z * bool) :=
  addTimer now a ms (Some (cb_OnTimer weak_cond cb)) recurring.

(** [TimerManager::getNextTimer()]; [~0ull] when there is no timer *)
Definition getNextTimer (now : Z) : M TimerManager Z :=
  modify (fun s => with_tickled s false) ;;;
  s <- get ;;
  match m_timers s with
  | [] => ret (2 ^ 64 - 1)
  | f :: _ =>
      next <- timer_at f ;;
      ret (if m_next next <=? now then 0 else u64 (m_next next - now))
  end.

(** [TimerManager::detectClockRollover(now_ms)] *)
Definition detectClockRollover (now : Z) : M TimerManager bool := fun s =>
  Ok ((now <? m_previousTime s) && (now <? u64 (m_previousTime s - 1000 * 60 * 60 * 12)))
     (with_previousTime s now).

(** The loop over the expired timers. *)
Fixpoint fire (now : Z) (expired : list Z) : M TimerManager (list (option callback)) :=
  match expired with
  | [] => ret []
  | a :: rest =>
      timer <- timer_at a ;;
      (if m_recurring timer then
         update a (mkTimer (m_ms timer) (m_cb timer) (m_recurring timer) (u64 (now + m_ms timer))) ;;;
         insert_timer a
       else update a (mkTimer (m_ms timer) None (m_recurring timer) (m_next timer))) ;;;
      cbs <- fire now rest ;;
      ret (m_cb timer :: cbs)
  end.

(** [while(it != end() && ( *it)->m_next == now_ms) ++it] *)
Fixpoint skip_now (h : gmap Z Timer) (now : Z) (it : list Z) : list Z :=
  match it with
  | a :: it' => if next_at h a =? now then skip_now h now it' else it
  | [] => []
  end.

(** The critical section of [TimerManager::listExpiredCb(cbs)]; [tmp] is the address of the
    temporary timer the search compares with. *)
Definition listExpired_locked (now tmp : Z) : M TimerManager (list (option callback)) := fun s =>
  match m_timers s with
  | [] => Ok [] s
  | f :: _ =>
     (rollover <- detectClockRollover now ;;
      front <- timer_at f ;;
      if negb rollover && (now <? m_next front) then ret [] else
      s <- get ;;
      let l := m_timers s in
      let h := <[tmp := key_Timer now]> (heap s) in
      let it := if (rollover : bool) then [] else skip_now h now (lower_bound (Comparator h) tmp l) in
      let expired := take (length l - length it) l in
      modify (fun s => with_timers s it) ;;;
      fire now expired) s
  end.
(** The whole method: an unlocked look first. *)
Definition listExpiredCb (now tmp : Z) : M TimerManager (list (option callback)) := fun s =>
  match m_timers s with
  | [] => Ok [] s
  | _ => listExpired_locked now tmp s
  end.

(** [TimerManager::hasTimer()] *)
Definition hasTimer (s : TimerManager) : bool :=
  match m_timers s with [] => false | _ => true end.
