(* ===== verification/TimerSpec.v ===== *)
(** * The timer queue: its invariant, what expires, and who is woken

    [ok] is the invariant of the manager: the set is sorted by deadline, it holds live timers
    only, and a timer that still has its callback is in it.  Every operation keeps it, so
    [erase] never gets an iterator from a failed search. *)

From stdpp Require Import gmap.
From S2P Require Import Prelude Containers Timer.

(** ** The comparator is a strict total order on addresses *)

#[export] Instance Comparator_order h : WeakOrder (Comparator h).
Proof.
  constructor; unfold Comparator; intros; repeat case_match;
    rewrite ?andb_true_iff, ?andb_false_iff, ?Z.eqb_eq, ?Z.eqb_neq, ?Z.ltb_lt, ?Z.ltb_ge in *;
    try done; try lia; intuition lia.
Qed.

Lemma Comparator_total h x y : eqv (Comparator h) x y = true -> x = y.
Proof.
  unfold eqv, Comparator; intros; repeat case_match;
    rewrite ?andb_true_iff, ?andb_false_iff, ?negb_true_iff, ?Z.eqb_eq, ?Z.eqb_neq, ?Z.ltb_lt,
      ?Z.ltb_ge in *; intuition (try discriminate; lia).
Qed.

(** Deadlines, ordered along the set. *)
Lemma Comparator_next h x y :
  x <> 0 -> y <> 0 -> Comparator h x y = true -> next_at h x <= next_at h y.
Proof.
  intros Hx Hy. unfold Comparator. rewrite !(proj2 (Z.eqb_neq _ _)) by done. simpl.
  repeat case_match; rewrite ?Z.ltb_lt, ?Z.ltb_ge in *; (done || lia).
Qed.

Lemma Comparator_ext h1 h2 x y :
  next_at h1 x = next_at h2 x -> next_at h1 y = next_at h2 y ->
  Comparator h1 x y = Comparator h2 x y.
Proof. unfold Comparator. by intros -> ->. Qed.

Lemma next_at_insert_ne h a t b : b <> a -> next_at (<[a := t]> h) b = next_at h b.
Proof. intros. unfold next_at. by rewrite lookup_insert_ne. Qed.

Lemma next_at_lookup h a t : h !! a = Some t -> next_at h a = m_next t.
Proof. unfold next_at. by intros ->. Qed.

(** ** The invariant *)

(** The set on its own: sorted, and of live timers. *)
Record linked (h : gmap Z Timer) (l : list Z) : Prop := {
  lk_sorted : sorted (Comparator h) l;
  lk_live : forall a, a ∈ l -> a <> 0 /\ is_Some (h !! a) }.

Record ok (s : TimerManager) : Prop := {
  ok_linked : linked (heap s) (m_timers s);
  ok_armed : forall a t, heap s !! a = Some t -> is_Some (m_cb t) -> a ∈ m_timers s;
  ok_range : forall a t, heap s !! a = Some t -> a <> 0 /\ in_u 64 (m_next t) }.

Lemma find_linked h l a : linked h l ->
  set_find (Comparator h) a l = if decide (a ∈ l) then Some a else None.
Proof.
  intros [Hs _]. case_decide as Ha.
  - apply (set_find_Some _ _ _ _ Hs). split; [done|]. apply (eqv_refl (Comparator h)).
  - apply (set_find_None _ _ _ Hs). intros y Hy. apply not_true_is_false.
    intros ->%Comparator_total. done.
Qed.

Lemma found_linked s a : linked (heap s) (m_timers s) -> found a s = bool_decide (a ∈ m_timers s).
Proof. intros L. unfold found. rewrite find_linked by done. by repeat case_decide || case_bool_decide. Qed.

Lemma linked_insert h l a :
  linked h l -> a <> 0 -> is_Some (h !! a) -> linked h (set_insert (Comparator h) a l) /\
  forall b, b ∈ set_insert (Comparator h) a l <-> b = a \/ b ∈ l.
Proof.
  intros L Ha Hl. pose proof (find_linked h l a L) as E. destruct L as [Hs Hlive].
  assert (forall b, b ∈ set_insert (Comparator h) a l <-> b = a \/ b ∈ l) as M.
  { intros b. case_decide as Hin.
    - unfold set_insert. rewrite E. split; [by right|]. by intros [->|].
    - by apply (elem_of_set_insert _). }
  split; [|done]. constructor; [by apply (set_insert_sorted _)|].
  intros b [->|Hb]%M; [done|by apply Hlive].
Qed.

Lemma linked_erase h l a :
  linked h l -> a ∈ l -> linked h (set_erase (Comparator h) a l) /\
  forall b, b ∈ set_erase (Comparator h) a l <-> b ∈ l /\ b <> a.
Proof.
  intros L Ha. pose proof (find_linked h l a L) as E. rewrite decide_True in E by done.
  destruct L as [Hs Hlive].
  assert (forall b, b ∈ set_erase (Comparator h) a l <-> b ∈ l /\ b <> a) as M
    by (intros b; by apply (elem_of_set_erase _)).
  split; [|done]. constructor; [by apply (set_erase_sorted _)|].
  intros b [Hb _]%M. by apply Hlive.
Qed.

(** Changing a timer outside the set, or changing no deadline, keeps the order. *)
Lemma linked_update h l a t :
  linked h l -> (a ∉ l \/ next_at h a = m_next t) -> linked (<[a := t]> h) l.
Proof.
  intros [Hs Hlive] Hc.
  assert (forall b, b ∈ l -> next_at h b = next_at (<[a := t]> h) b) as E.
  { intros b Hb. destruct (decide (b = a)) as [->|Hne]; [|by rewrite next_at_insert_ne].
    destruct Hc as [Hc|Hc]; [done|]. unfold next_at at 2. by rewrite lookup_insert_eq. }
  constructor.
  - eapply sorted_ext; [|exact Hs]. intros x y Hx Hy. by apply Comparator_ext; apply E.
  - intros b Hb. destruct (Hlive b Hb) as [Hb0 Hbl]. split; [done|].
    destruct (decide (b = a)) as [->|]; [by rewrite lookup_insert_eq; eauto|].
    by rewrite lookup_insert_ne.
Qed.

Lemma ok_new now : ok (new_TimerManager now).
Proof.
  constructor; [constructor; [constructor|]| |]; simpl.
  - by intros a ?%elem_of_nil.
  - intros a t Hl. by rewrite lookup_empty in Hl.
  - intros a t Hl. by rewrite lookup_empty in Hl.
Qed.

Lemma ok_member s a : ok s -> a ∈ m_timers s ->
  exists t, heap s !! a = Some t /\ a <> 0 /\ in_u 64 (m_next t) /\ next_at (heap s) a = m_next t.
Proof.
  intros O Ha. destruct (lk_live _ _ (ok_linked _ O) a Ha) as [_ [t Et]].
  exists t. destruct (ok_range _ O a t Et). split_and!; try done. by apply next_at_lookup.
Qed.

Lemma timer_at_ok s a t : heap s !! a = Some t -> timer_at a s = Ok t s.
Proof. unfold timer_at. by intros ->. Qed.

(** The front has the least deadline. *)
Lemma front_least s f l a :
  ok s -> m_timers s = f :: l -> a ∈ m_timers s -> next_at (heap s) f <= next_at (heap s) a.
Proof.
  intros O E Ha. pose proof (ok_linked _ O) as [Hs Hlive]. rewrite E in *.
  apply elem_of_cons in Ha as Ha'. destruct Ha' as [->|Hal]; [lia|].
  apply StronglySorted_inv in Hs as [_ Hf]. rewrite Forall_forall in Hf.
  apply Comparator_next; [| |by apply Hf].
  - apply Hlive. by apply elem_of_cons; left.
  - by apply Hlive.
Qed.

(** ** Operations on one timer *)

Definition disarmed (t : Timer) : Timer := mkTimer (m_ms t) None (m_recurring t) (m_next t).

Lemma cancel_ok s a t :
  ok s -> heap s !! a = Some t -> is_Some (m_cb t) ->
  exists s', cancel a s = Ok true s' /\ ok s' /\ heap s' = <[a := disarmed t]> (heap s) /\
    m_tickled s' = m_tickled s /\ forall b, b ∈ m_timers s' <-> b ∈ m_timers s /\ b <> a.
Proof.
  intros O E [cb Hcb]. pose proof (ok_armed _ O a t E ltac:(eauto)) as Hin.
  set (h := <[a := disarmed t]> (heap s)).
  assert (linked h (m_timers s)) as L
    by (apply linked_update; [apply (ok_linked _ O)|right; by rewrite (next_at_lookup _ _ _ E)]).
  destruct (linked_erase _ _ a L Hin) as [L' M].
  exists (with_timers (with_heap s h) (set_erase (Comparator h) a (m_timers s))).
  split_and!; [|constructor|done|done|done].
  - unfold cancel. rewrite (bind_ok _ _ _ _ _ (timer_at_ok _ _ _ E)), Hcb.
    unfold update, bind, modify, erase_found; simpl. fold (disarmed t) h.
    rewrite found_linked by done. simpl. by rewrite bool_decide_eq_true_2.
  - done.
  - simpl. intros b tb Eb Hb. apply M. unfold h in Eb. destruct (decide (b = a)) as [->|Hne].
    + rewrite lookup_insert_eq in Eb. simplify_eq. by destruct Hb.
    + rewrite lookup_insert_ne in Eb by done. split; [by eapply (ok_armed _ O)|done].
  - simpl. intros b tb Eb. unfold h in Eb. destruct (decide (b = a)) as [->|Hne].
    + rewrite lookup_insert_eq in Eb. simplify_eq. simpl. by apply (ok_range _ O).
    + rewrite lookup_insert_ne in Eb by done. by apply (ok_range _ O).
Qed.

(** The state in which timer [a] is [t], with its callback, and is (back) in the set. *)
Lemma ok_put s a t l :
  ok s -> a <> 0 -> in_u 64 (m_next t) ->
  linked (heap s) l -> (forall b, b ∈ l <-> b ∈ m_timers s /\ b <> a) ->
  let h := <[a := t]> (heap s) in
  let s' := with_timers (with_heap s h) (set_insert (Comparator h) a l) in
  ok s' /\ forall b, b ∈ m_timers s' <-> b = a \/ b ∈ m_timers s.
Proof.
  intros O Ha Hr L Ml h s'.
  assert (linked h l) as Lh by (apply linked_update; [done|left; rewrite Ml; tauto]).
  destruct (linked_insert h l a Lh Ha) as [L' M]; [by unfold h; rewrite lookup_insert_eq; eauto|].
  assert (forall b, b ∈ m_timers s' <-> b = a \/ b ∈ m_timers s) as M'.
  { intros b. change (m_timers s') with (set_insert (Comparator h) a l). rewrite M, Ml.
    destruct (decide (b = a)); tauto. }
  split; [|done]. constructor; [done| |].
  - intros b tb Eb Hb. apply M'. change (heap s') with h in Eb. unfold h in Eb.
    destruct (decide (b = a)) as [->|Hne]; [by left|]. rewrite lookup_insert_ne in Eb by done.
    right. by eapply (ok_armed _ O).
  - intros b tb Eb. change (heap s') with h in Eb. unfold h in Eb.
    destruct (decide (b = a)) as [->|Hne].
    + rewrite lookup_insert_eq in Eb. by simplify_eq.
    + rewrite lookup_insert_ne in Eb by done. by apply (ok_range _ O).
Qed.

Lemma erase_found_ok s a :
  ok s -> a ∈ m_timers s ->
  exists l, erase_found a s = Ok tt (with_timers s l) /\ linked (heap s) l /\
    forall b, b ∈ l <-> b ∈ m_timers s /\ b <> a.
Proof.
  intros O Ha. destruct (linked_erase _ _ a (ok_linked _ O) Ha) as [L M].
  eexists. unfold erase_found. rewrite found_linked by apply (ok_linked _ O).
  by rewrite bool_decide_eq_true_2.
Qed.

(** What [refresh] and [reset] have in common: the timer leaves the set, its deadline
    changes, and it comes back. *)
Definition rearmed (t : Timer) (ms next : Z) : Timer := mkTimer ms (m_cb t) (m_recurring t) next.

Lemma refresh_ok s now a t :
  ok s -> heap s !! a = Some t -> is_Some (m_cb t) ->
  exists s', refresh now a s = Ok true s' /\ ok s' /\
    heap s' = <[a := rearmed t (m_ms t) (u64 (now + m_ms t))]> (heap s) /\
    m_tickled s' = m_tickled s /\ forall b, b ∈ m_timers s' <-> b ∈ m_timers s.
Proof.
  intros O E Hcb. pose proof (ok_armed _ O a t E Hcb) as Hin. destruct Hcb as [cb Hcb].
  destruct (ok_range _ O a t E) as [Ha _].
  destruct (erase_found_ok s a O Hin) as (l & El & Ll & Ml).
  set (t' := rearmed t (m_ms t) (u64 (now + m_ms t))).
  destruct (ok_put s a t' l O Ha) as [O' M']; [by apply uwrap_range|done|done|].
  eexists. split_and!; [|exact O'|done|done|].
  - unfold refresh. rewrite (bind_ok _ _ _ _ _ (timer_at_ok _ _ _ E)), Hcb.
    rewrite found_linked by apply (ok_linked _ O). rewrite bool_decide_eq_true_2 by done. simpl.
    run El. unfold update, insert_timer, bind, modify, ret; simpl.
    rewrite <- Hcb. done.
  - intros b. rewrite M'. split; [by intros [->|]|by right].
Qed.

(** Insertion with notification. *)
Lemma addTimer_locked_ok s a :
  addTimer_locked a s =
    let l := set_insert (Comparator (heap s)) a (m_timers s) in
    let n := match l with f :: _ => f =? a | [] => false end && negb (m_tickled s) in
    Ok n (with_tickled (with_timers s l) (n || m_tickled s)).
Proof.
  unfold addTimer_locked, insert_timer, bind, modify, get. cbv zeta. cbn [m_timers with_timers m_tickled].
  by destruct (match set_insert _ _ _ with [] => _ | _ => _ end && negb (m_tickled s)).
Qed.

Lemma ok_tickled s b : ok s -> ok (with_tickled s b).
Proof. intros [L A R]. by constructor. Qed.

Lemma ok_previous s t : ok s -> ok (with_previousTime s t).
Proof. intros [L A R]. by constructor. Qed.

Lemma reset_ok s now a t ms from_now :
  ok s -> heap s !! a = Some t -> is_Some (m_cb t) -> (ms =? m_ms t) && negb from_now = false ->
  exists n s', reset now a ms from_now s = Ok (true, n) s' /\ ok s' /\
    heap s' = <[a := rearmed t ms (u64 ((if from_now then now else u64 (m_next t - m_ms t)) + ms))]>
                (heap s) /\
    (forall b, b ∈ m_timers s' <-> b ∈ m_timers s) /\
    n = match m_timers s' with f :: _ => f =? a | [] => false end && negb (m_tickled s) /\
    m_tickled s' = n || m_tickled s.
Proof.
  intros O E Hcb Hc. pose proof (ok_armed _ O a t E Hcb) as Hin. destruct Hcb as [cb Hcb].
  destruct (ok_range _ O a t E) as [Ha _].
  destruct (erase_found_ok s a O Hin) as (l & El & Ll & Ml).
  set (start := if from_now then now else u64 (m_next t - m_ms t)).
  set (t' := rearmed t ms (u64 (start + ms))).
  destruct (ok_put s a t' l O Ha) as [O' M']; [by apply uwrap_range|done|done|].
  set (h := <[a := t']> (heap s)) in *. set (l' := set_insert (Comparator h) a l) in *.
  set (n := match l' with f :: _ => f =? a | [] => false end && negb (m_tickled s)).
  exists n, (with_tickled (with_timers (with_heap s h) l') (n || m_tickled s)).
  split_and!; [| | | |done|].
  - unfold reset. rewrite (bind_ok _ _ _ _ _ (timer_at_ok _ _ _ E)), Hc.
    rewrite (bind_ok _ _ _ _ _ (timer_at_ok _ _ _ E)), Hcb.
    rewrite found_linked by apply (ok_linked _ O). rewrite bool_decide_eq_true_2 by done.
    cbn [negb]. run El. unfold update, bind, modify, ret.
    rewrite addTimer_locked_ok. cbv zeta. rewrite <- Hcb. reflexivity.
  - apply ok_tickled, O'.
  - done.
  - intros b. etransitivity; [apply M'|]. split; [by intros [->|]|by right].
  - done.
Qed.

Lemma addTimer_ok s now a ms cb recurring :
  ok s -> a <> 0 -> heap s !! a = None ->
  exists n s', addTimer now a ms cb recurring s = Ok (a, n) s' /\ ok s' /\
    heap s' = <[a := new_Timer now ms cb recurring]> (heap s) /\
    (forall b, b ∈ m_timers s' <-> b = a \/ b ∈ m_timers s) /\
    n = match m_timers s' with f :: _ => f =? a | [] => false end && negb (m_tickled s) /\
    m_tickled s' = n || m_tickled s.
Proof.
  intros O Ha E.
  assert (a ∉ m_timers s) as Hn.
  { intros Hin. destruct (ok_member _ _ O Hin) as (? & Et & _). congruence. }
  destruct (ok_put s a (new_Timer now ms cb recurring) (m_timers s) O Ha) as [O' M'].
  { by apply uwrap_range. } { apply (ok_linked _ O). } { intros b. split; [|tauto]. intros Hb. split; [done|]. by intros ->. }
  set (h := <[a := new_Timer now ms cb recurring]> (heap s)) in *. set (l' := set_insert (Comparator h) a (m_timers s)) in *.
  set (n := match l' with f :: _ => f =? a | [] => false end && negb (m_tickled s)).
  exists n, (with_tickled (with_timers (with_heap s h) l') (n || m_tickled s)).
  split_and!; [| | | |done|].
  - unfold addTimer, update, bind, modify, ret. rewrite addTimer_locked_ok. cbv zeta. reflexivity.
  - apply ok_tickled, O'.
  - done.
  - exact M'.
  - done.
Qed.

(** ** Expiry *)

(** What firing at [now] does to a timer. *)
Definition fired (now : Z) (t : Timer) : Timer :=
  if m_recurring t then mkTimer (m_ms t) (m_cb t) (m_recurring t) (u64 (now + m_ms t))
  else disarmed t.
Definition cb_at (h : gmap Z Timer) (a : Z) : option callback :=
  match h !! a with Some t => m_cb t | None => None end.
Definition recurring_at (h : gmap Z Timer) (a : Z) : Prop :=
  exists t, h !! a = Some t /\ m_recurring t = true.

(** One timer that is out of the set: a recurring one is put back with its new deadline. *)
Lemma fire_one now a t s :
  linked (heap s) (m_timers s) -> a ∉ m_timers s -> a <> 0 -> heap s !! a = Some t -> let h := <[a := fired now t]> (heap s) in
  exists l, (if m_recurring t then
      update a (mkTimer (m_ms t) (m_cb t) (m_recurring t) (u64 (now + m_ms t))) ;;; insert_timer a
    else update a (mkTimer (m_ms t) None (m_recurring t) (m_next t))) s = Ok tt (with_timers (with_heap s h) l) /\
    linked h l /\ forall b, b ∈ l <-> b ∈ m_timers s \/ b = a /\ m_recurring t = true.
Proof.
  intros L Hna Ha0 Et h. assert (linked h (m_timers s)) as Lh by (by apply linked_update; [|left]).
  exists (if m_recurring t then set_insert (Comparator h) a (m_timers s) else m_timers s). split.
  - unfold update, insert_timer, bind, modify, h, fired. destruct (m_recurring t) eqn:Er; unfold disarmed; rewrite ?Er; reflexivity.
  - destruct (m_recurring t); [|split; [done|intros b; split; [by left|by intros [|[_ ?]]]]].
    destruct (linked_insert h _ a Lh Ha0) as [L' M']; [by unfold h; rewrite lookup_insert_eq; eauto|].
    split; [done|]. intros b. rewrite M'. split; [intros [->|]|intros [|[-> _]]]; auto.
Qed.

(** The loop over timers that are out of the set: [s] satisfies the invariant but for them. *)
Lemma fire_ok now : forall expired s,
  linked (heap s) (m_timers s) -> NoDup expired ->
  (forall a, a ∈ expired -> (a ∉ m_timers s) /\ a <> 0 /\ is_Some (heap s !! a)) ->
  exists s', fire now expired s = Ok (cb_at (heap s) <$> expired) s' /\
    linked (heap s') (m_timers s') /\
    (forall b, heap s' !! b = (if decide (b ∈ expired) then fired now <$> heap s !! b
                               else heap s !! b)) /\
    (forall b, b ∈ m_timers s' <-> b ∈ m_timers s \/ b ∈ expired /\ recurring_at (heap s) b) /\
    m_tickled s' = m_tickled s /\ m_previousTime s' = m_previousTime s.
Proof.
  induction expired as [|a expired IH]; intros s L ND Hex.
  { exists s. split_and!; [done|done| | |done|done]; intros b.
    - by rewrite decide_False by apply not_elem_of_nil.
    - rewrite elem_of_nil. tauto. }
  apply NoDup_cons in ND as [Ha ND].
  destruct (Hex a) as (Hna & Ha0 & [t Et]); [by apply elem_of_cons; left|].
  set (h := <[a := fired now t]> (heap s)).
  destruct (fire_one now a t s L Hna Ha0 Et) as (l & E1 & Ll & Ml). fold h in E1, Ll.
  destruct (IH (with_timers (with_heap s h) l)) as (s' & E' & L' & H' & M' & T' & P'); [done|done| |].
  { intros b Hb. assert (b <> a) as Hne by by intros ->.
    destruct (Hex b) as (Hnb & Hb0 & Hbl); [by apply elem_of_cons; right|].
    simpl. split_and!; [rewrite Ml; tauto|done|]. unfold h. by rewrite lookup_insert_ne. }
  simpl in E', H', M', T', P'.
  assert (forall b, b ∈ expired -> h !! b = heap s !! b) as Hh.
  { intros b Hb. unfold h. rewrite lookup_insert_ne; [done|]. by intros ->. }
  exists s'. split_and!; [|done| | |done|done].
  - cbn [fire]. run (timer_at_ok _ _ _ Et).
    run E1, E'. unfold ret. f_equal.
    rewrite fmap_cons. f_equal; [unfold cb_at; by rewrite Et|].
    apply list_fmap_ext. intros i b Hb. unfold cb_at. rewrite Hh; [done|].
    by eapply list_elem_of_lookup_2.
  - intros b. rewrite H'. destruct (decide (b = a)) as [->|Hne].
    + rewrite decide_False by done. rewrite decide_True by (by apply elem_of_cons; left).
      unfold h. by rewrite lookup_insert_eq, Et.
    + case_decide as Hb.
      * rewrite decide_True by (by apply elem_of_cons; right). by rewrite Hh.
      * rewrite decide_False by (by rewrite elem_of_cons; intros [|]).
        unfold h. by rewrite lookup_insert_ne.
  - intros b. rewrite M', Ml, elem_of_cons. unfold recurring_at.
    split.
    + intros [[Hb|[-> Hr]]|[Hb (tb & Eb & Hr)]]; [by left|right; eauto|].
      right. rewrite Hh in Eb by done. eauto.
    + intros [Hb|[[->|Hb] (tb & Eb & Hr)]]; [by left; left| |].
      * left; right. split; [done|]. congruence.
      * right. split; [done|]. exists tb. by rewrite Hh.
Qed.

(** The timers due at [now]: all of them when the clock was set back. *)
Definition due (rollover : bool) (now : Z) (h : gmap Z Timer) (a : Z) : bool :=
  rollover || (next_at h a <=? now).

Lemma skip_now_split h now l :
  exists q, l = q ++ skip_now h now l /\ Forall (fun a => next_at h a = now) q /\
    match skip_now h now l with a :: _ => next_at h a <> now | [] => True end.
Proof.
  induction l as [|a l (q & E & Hq & Hr)]; [by exists []|]. cbn [skip_now].
  destruct (Z.eqb_spec (next_at h a) now) as [Ea|Ea].
  - exists (a :: q). split_and!; [simpl; by f_equal|by constructor|done].
  - by exists [].
Qed.

(** Behind the first timer that is due later than now, all are. *)
Lemma behind_now h now it : sorted (Comparator h) it -> match it with [] => True | b :: _ => next_at h b <> now end ->
  (forall b, b ∈ it -> b <> 0 /\ now <= next_at h b) -> forall a, a ∈ it -> ~ next_at h a <= now.
Proof.
  intros Hs Hb Hge a Ha. destruct it as [|b it]; [by apply elem_of_nil in Ha|].
  destruct (Hge b ltac:(by left)) as [Hb0 Hbn]. destruct (Hge a Ha) as [Ha0 _]. apply elem_of_cons in Ha as [->|Ha]; [lia|].
  apply StronglySorted_inv in Hs as [_ Hf]. rewrite Forall_forall in Hf. apply Hf, Comparator_next in Ha; [lia|done..].
Qed.

(** A sorted list splits where its deadlines pass [now]. *)
Lemma expired_prefix h l now tmp :
  linked h l -> tmp <> 0 -> h !! tmp = None ->
  let it := skip_now (<[tmp := key_Timer now]> h) now
              (lower_bound (Comparator (<[tmp := key_Timer now]> h)) tmp l) in
  take (length l - length it) l = filter (fun a => next_at h a <= now) l /\
  it = filter (fun a => ~ next_at h a <= now) l.
Proof.
  intros [Hs Hlive] Htmp Hfresh it. set (h' := <[tmp := key_Timer now]> h) in *.
  assert (forall a, a ∈ l -> a <> tmp /\ a <> 0) as Hne.
  { intros a Ha. destruct (Hlive a Ha) as [? [? ?]]. split; [|done]. intros ->. congruence. }
  assert (next_at h' tmp = now) as Etmp by (unfold next_at, h'; by rewrite lookup_insert_eq).
  assert (forall a, a ∈ l -> next_at h' a = next_at h a) as Eh.
  { intros a Ha. apply next_at_insert_ne. by apply Hne. }
  assert (sorted (Comparator h') l) as Hs'.
  { eapply sorted_ext; [|exact Hs]. intros x y Hx Hy. symmetry. apply Comparator_ext; by apply Eh. }
  pose proof (below_lower (Comparator h') tmp l) as E.
  pose proof (below_lt (Comparator h') tmp l) as Hlt.
  pose proof (lower_ge (Comparator h') tmp l Hs') as Hge.
  destruct (skip_now_split h' now (lower_bound (Comparator h') tmp l)) as (q & Eq & Hq & Hnext).
  fold it in Eq, Hnext. rewrite Forall_forall in Hlt, Hge, Hq.
  set (p := below (Comparator h') tmp l ++ q).
  assert (l = p ++ it) as El by (unfold p; rewrite <- app_assoc, <- Eq; done).
  assert (forall a, a ∈ p -> next_at h a <= now) as Hp.
  { intros a Ha. assert (a ∈ l) as Hal by (rewrite El; apply elem_of_app; by left).
    rewrite <- Eh by done. apply elem_of_app in Ha as [Ha|Ha]; [|apply Hq in Ha; lia].
    apply Hlt in Ha. apply Comparator_next in Ha; [lia|by apply Hne|done]. }
  assert (forall a, a ∈ it -> ~ next_at h a <= now) as Hit.
  { intros a Ha. assert (forall b, b ∈ lower_bound (Comparator h') tmp l -> b ∈ l) as Hlow by (intros b Hb; rewrite <- E; apply elem_of_app; by right).
    assert (a ∈ lower_bound (Comparator h') tmp l) as Hal by (rewrite Eq; apply elem_of_app; by right).
    rewrite <- Eh by by apply Hlow. eapply behind_now; [|exact Hnext| |exact Ha].
    - rewrite El in Hs'. by apply sorted_app in Hs' as (_ & ? & _).
    - intros b Hb. assert (b ∈ lower_bound (Comparator h') tmp l) as Hbl by (rewrite Eq; apply elem_of_app; by right).
      destruct (Hne b (Hlow b Hbl)) as [_ Hb0]. split; [done|]. pose proof (Hge b Hbl) as Hc. unfold Comparator in Hc.
      rewrite !(proj2 (Z.eqb_neq _ _)) in Hc by done. simpl in Hc. rewrite Etmp in Hc. destruct (Z.ltb_spec (next_at h' b) now); [done|lia]. }
  clearbody it p. subst l. split.
  - rewrite length_app, Nat.add_sub, take_app_length, filter_app.
    rewrite (filter_all _ p), (filter_none _ it) by done. by rewrite app_nil_r.
  - rewrite filter_app, (filter_none _ p), (filter_all _ it); [done|done|].
    intros a Ha. apply Hp in Ha. tauto.
Qed.

Definition rolled_back (s : TimerManager) (now : Z) : bool :=
  (now <? m_previousTime s) && (now <? u64 (m_previousTime s - 1000 * 60 * 60 * 12)).

(** What [listExpiredCb] leaves: [ex] are the expired timers. *)
Definition expiry (now : Z) (ex : list Z) (s s' : TimerManager) : Prop :=
  (forall b, heap s' !! b = (if decide (b ∈ ex) then fired now <$> heap s !! b
                             else heap s !! b)) /\
  (forall b, b ∈ m_timers s' <->
     (b ∈ m_timers s /\ b ∉ ex) \/ (b ∈ ex /\ recurring_at (heap s) b)) /\
  m_tickled s' = m_tickled s.

Lemma expiry_ok s now ex s' :
  ok s -> linked (heap s') (m_timers s') -> expiry now ex s s' -> ok s'.
Proof.
  intros O L (Hh & Ht & _). constructor; [done| |]; intros a t Ea.
  - intros Hcb. apply Ht. rewrite Hh in Ea. case_decide as Hex.
    + right. destruct (heap s !! a) as [t0|] eqn:E0; simplify_eq/=. split; [done|].
      exists t0. split; [done|]. unfold fired in Hcb. destruct (m_recurring t0); [done|].
      by destruct Hcb.
    + left. split; [|done]. by eapply (ok_armed _ O).
  - rewrite Hh in Ea. case_decide as Hex; [|by apply (ok_range _ O)].
    destruct (heap s !! a) as [t0|] eqn:E0; simplify_eq/=.
    destruct (ok_range _ O a t0 E0) as [Ha Hr]. split; [done|].
    unfold fired. destruct (m_recurring t0); [|done]. by apply uwrap_range.
Qed.

Lemma expiry_nil s now : expiry now [] s s.
Proof.
  split_and!; [..|done]; intros b.
  - by rewrite decide_False by apply not_elem_of_nil.
  - rewrite elem_of_nil. tauto.
Qed.

(** Firing the timers of a partition of the set. *)
Lemma fire_partition s now ex it :
  ok s -> (exists P : Z -> Prop, exists _ : forall a, Decision (P a),
    ex = filter P (m_timers s) /\ it = filter (fun a => ~ P a) (m_timers s)) ->
  exists s', fire now ex (with_timers s it) = Ok (cb_at (heap s) <$> ex) s' /\ ok s' /\
    expiry now ex s s'.
Proof.
  intros O (P & HP & -> & ->). pose proof (ok_linked _ O) as [Hs Hlive].
  pose proof (sorted_NoDup _ _ Hs) as ND.
  destruct (fire_ok now (filter P (m_timers s)) (with_timers s (filter (fun a => ~ P a) (m_timers s))))
    as (s' & E & L & Hh & Hm & Ht & _).
  - constructor; [|intros a [_ Ha]%list_elem_of_filter; by apply Hlive].
    eapply sorted_sublist, Hs. simpl. apply sublist_filter.
  - by apply NoDup_filter.
  - intros a [HPa Ha]%list_elem_of_filter. split; [|by apply Hlive].
    simpl. rewrite list_elem_of_filter. tauto.
  - simpl in *. assert (expiry now (filter P (m_timers s)) s s') as X.
    { split_and!; [done| |done]. intros b. rewrite Hm, !list_elem_of_filter. tauto. }
    exists s'. split_and!; [done|by eapply expiry_ok|done].
Qed.

Lemma listExpired_ok s now tmp :
  ok s -> tmp <> 0 -> heap s !! tmp = None ->
  let ex := filter (fun a => due (rolled_back s now) now (heap s) a = true) (m_timers s) in
  exists s', listExpiredCb now tmp s = Ok (cb_at (heap s) <$> ex) s' /\ ok s' /\
    expiry now ex s s'.
Proof.
  intros O Htmp Hfresh ex. unfold listExpiredCb, listExpired_locked.
  destruct (m_timers s) as [|f l] eqn:El.
  { exists s. split_and!; [done|done|apply expiry_nil]. }
  destruct (ok_member s f O) as (tf & Ef & Hf0 & Hfr & Enf);
    [rewrite El; by apply elem_of_cons; left|].
  set (s1 := with_previousTime s now).
  assert (ok s1) as O1 by (by apply ok_previous).
  assert (forall ex s', expiry now ex s1 s' -> expiry now ex s s') as Hx by (by intros ? ? ?).
  assert (detectClockRollover now s = Ok (rolled_back s now) s1) as Ed by done.
  run Ed, (timer_at_ok s1 f tf Ef).
  destruct (negb (rolled_back s now) && (now <? m_next tf)) eqn:Ec.
  - (* nothing is due *)
    apply andb_true_iff in Ec as [Er%negb_true_iff Hnow%Z.ltb_lt].
    assert (ex = []) as ->.
    { unfold ex. apply filter_none. rewrite Er. unfold due. simpl. intros a Ha. rewrite <- El in Ha.
      pose proof (front_least s f l a O El Ha). rewrite Enf in *. rewrite Z.leb_le. lia. }
    exists s1. split_and!; [done|done|apply Hx, expiry_nil].
  - unfold bind at 1, get, bind, modify. change (m_timers s1) with (m_timers s).
    change (heap s1) with (heap s).
    set (it := if rolled_back s now then [] else _).
    assert (take (length (m_timers s) - length it) (m_timers s) = ex /\
      it = filter (fun a => ~ due (rolled_back s now) now (heap s) a = true) (m_timers s)) as [E1 E2].
    { unfold ex, it, due. rewrite <- El. destruct (rolled_back s now); cbn [orb].
      - rewrite filter_all, filter_none; [|by intros; auto|done].
        rewrite Nat.sub_0_r, firstn_all. done.
      - destruct (expired_prefix (heap s) (m_timers s) now tmp (ok_linked _ O) Htmp Hfresh) as [-> ->].
        split; apply list_filter_iff; intros a; by rewrite Z.leb_le. }
    rewrite E1. destruct (fire_partition s1 now ex it O1) as (s' & E & O' & X).
    { exists (fun a => due (rolled_back s now) now (heap s) a = true), _.
      unfold ex. rewrite <- El. done. }
    exists s'. split_and!; [exact E|done|by apply Hx].
Qed.

(** ** Every operation, on every branch *)

(** The wait [getNextTimer] computes. *)
Definition next_wait (s : TimerManager) (now : Z) : Z :=
  match m_timers s with [] => 2 ^ 64 - 1 | f :: _ => Z.max 0 (next_at (heap s) f - now) end.

Lemma getNextTimer_ok s now :
  ok s -> in_u 64 now -> getNextTimer now s = Ok (next_wait s now) (with_tickled s false).
Proof.
  intros O Hn. unfold getNextTimer, next_wait, bind at 1 2, modify, get. simpl.
  destruct (m_timers s) as [|f l] eqn:E; [done|].
  destruct (ok_member s f O) as (t & Et & _ & Hr & En); [rewrite E; by apply elem_of_cons; left|].
  run (timer_at_ok (with_tickled s false) f t Et). unfold ret. f_equal.
  rewrite En. unfold in_u in *. destruct (Z.leb_spec (m_next t) now); [lia|].
  unfold u64. rewrite uwrap_id by fits. lia.
Qed.

Lemma cancel_dead s a t : heap s !! a = Some t -> m_cb t = None -> cancel a s = Ok false s.
Proof. intros E H. unfold cancel. by rewrite (bind_ok _ _ _ _ _ (timer_at_ok _ _ _ E)), H. Qed.

Lemma refresh_dead s now a t :
  heap s !! a = Some t -> m_cb t = None -> refresh now a s = Ok false s.
Proof. intros E H. unfold refresh. by rewrite (bind_ok _ _ _ _ _ (timer_at_ok _ _ _ E)), H. Qed.

Lemma reset_same s now a t ms from_now :
  heap s !! a = Some t -> (ms =? m_ms t) && negb from_now = true ->
  reset now a ms from_now s = Ok (true, false) s.
Proof. intros E H. unfold reset. by rewrite (bind_ok _ _ _ _ _ (timer_at_ok _ _ _ E)), H. Qed.

Lemma reset_dead s now a t ms from_now :
  heap s !! a = Some t -> m_cb t = None -> (ms =? m_ms t) && negb from_now = false ->
  reset now a ms from_now s = Ok (false, false) s.
Proof.
  intros E Hc H. unfold reset. rewrite (bind_ok _ _ _ _ _ (timer_at_ok _ _ _ E)), H.
  by rewrite (bind_ok _ _ _ _ _ (timer_at_ok _ _ _ E)), Hc.
Qed.

(** What users of the manager and of its timers do; the flag tells whether
    [onTimerInsertdAtFront()] is called. *)
Inductive client : TimerManager -> bool -> TimerManager -> Prop :=
  | cl_add s now a ms cb recurring n s' :
      a <> 0 -> heap s !! a = None ->
      addTimer now a ms cb recurring s = Ok (a, n) s' -> client s n s'
  | cl_cancel s a r s' : is_Some (heap s !! a) -> cancel a s = Ok r s' -> client s false s'
  | cl_reset s now a ms from_now r n s' :
      is_Some (heap s !! a) -> reset now a ms from_now s = Ok (r, n) s' -> client s n s'.
(** [refresh] is on its own: it never calls [onTimerInsertdAtFront()]. *)
Inductive refresher (now a : Z) (s s' : TimerManager) : Prop :=
  | cl_refresh r : is_Some (heap s !! a) -> refresh now a s = Ok r s' -> refresher now a s s'.
(** What the poller does. *)
Inductive poller : TimerManager -> TimerManager -> Prop :=
  | po_next s now d s' : in_u 64 now -> getNextTimer now s = Ok d s' -> poller s s'
  | po_expire s now tmp cbs s' :
      tmp <> 0 -> heap s !! tmp = None -> listExpiredCb now tmp s = Ok cbs s' -> poller s s'.
Inductive steps : TimerManager -> TimerManager -> Prop :=
  | steps_refl s : steps s s
  | steps_client s n s1 s2 : client s n s1 -> steps s1 s2 -> steps s s2
  | steps_refresher now a s s1 s2 : refresher now a s s1 -> steps s1 s2 -> steps s s2
  | steps_poller s s1 s2 : poller s s1 -> steps s1 s2 -> steps s s2.

(** The effect of a client's step, one case for each way it can change the set. *)
Inductive effect (s : TimerManager) : bool -> TimerManager -> Prop :=
  | ef_none : effect s false s
  | ef_cancel a t s' :
      heap s !! a = Some t -> is_Some (m_cb t) -> heap s' = <[a := disarmed t]> (heap s) ->
      m_tickled s' = m_tickled s -> (forall b, b ∈ m_timers s' <-> b ∈ m_timers s /\ b <> a) ->
      effect s false s'
  | ef_put a t n s' :
      (forall t0, heap s !! a = Some t0 -> is_Some (m_cb t0)) -> heap s' = <[a := t]> (heap s) ->
      (forall b, b ∈ m_timers s' <-> b = a \/ b ∈ m_timers s) ->
      n = match m_timers s' with f :: _ => f =? a | [] => false end && negb (m_tickled s) ->
      m_tickled s' = n || m_tickled s -> effect s n s'.

Lemma client_effect s n s' : ok s -> client s n s' -> ok s' /\ effect s n s'.
Proof.
  intros O. destruct 1 as [s now a ms cb r n s' Ha E R|s a r s' [t E] R
                          |s now a ms fn r n s' [t E] R].
  - destruct (addTimer_ok s now a ms cb r O Ha E) as (n1 & s1 & R1 & O1 & H1 & M1 & N1 & T1).
    rewrite R1 in R. injection R as -> ->. split; [done|]. eapply ef_put; try done. congruence.
  - destruct (m_cb t) eqn:Hc; [|rewrite (cancel_dead s a t E Hc) in R; by injection R as <- <-; split; [|constructor]].
    destruct (cancel_ok s a t O E) as (s1 & R1 & O1 & H1 & T1 & M1); [by rewrite Hc|].
    rewrite R1 in R. injection R as <- ->. split; [done|]. by eapply ef_cancel.
  - destruct ((ms =? m_ms t) && negb fn) eqn:Hs.
    { rewrite (reset_same s now a t ms fn E Hs) in R. injection R as <- <- <-. by split; [|constructor]. }
    destruct (m_cb t) eqn:Hc.
    + destruct (reset_ok s now a t ms fn O E) as (n1 & s1 & R1 & O1 & H1 & M1 & N1 & T1);
        [by rewrite Hc|done|].
      rewrite R1 in R. injection R as <- <- ->. split; [done|]. eapply ef_put; try done.
      * intros t0 E0. rewrite E in E0. injection E0 as <-. by rewrite Hc.
      * intros b. rewrite M1. split; [by right|]. intros [->|]; [|done].
        apply (ok_armed _ O a t E). by rewrite Hc.
    + rewrite (reset_dead s now a t ms fn E Hc Hs) in R. injection R as <- <- <-.
      by split; [|constructor].
Qed.

Lemma refresher_ok s now a s' : ok s -> refresher now a s s' ->
  ok s' /\ (s' = s \/ exists t, heap s !! a = Some t /\ is_Some (m_cb t) /\
    heap s' = <[a := rearmed t (m_ms t) (u64 (now + m_ms t))]> (heap s) /\
    m_tickled s' = m_tickled s /\ forall b, b ∈ m_timers s' <-> b ∈ m_timers s).
Proof.
  intros O [r [t E] R]. destruct (m_cb t) as [cb|] eqn:Hc.
  - destruct (refresh_ok s now a t O E) as (s1 & R1 & O1 & H1 & T1 & M1); [by rewrite Hc|].
    rewrite R1 in R. injection R as <- ->. split; [done|]. right. exists t. by rewrite Hc.
  - rewrite (refresh_dead s now a t E Hc) in R. injection R as <- <-. by split; [|left].
Qed.

Lemma poller_ok s s' : ok s -> poller s s' ->
  ok s' /\ exists now ex, expiry now ex s (with_tickled s' (m_tickled s)) /\ forall a, a ∈ ex -> a ∈ m_timers s.
Proof.
  intros O. destruct 1 as [s now d s' Hn R|s now tmp cbs s' Ht Hf R].
  - rewrite (getNextTimer_ok s now O Hn) in R. injection R as <- <-.
    split; [by apply ok_tickled|]. exists 0, []. split; [apply (expiry_nil s)|].
    by intros a ?%elem_of_nil.
  - destruct (listExpired_ok s now tmp O Ht Hf) as (s1 & R1 & O1 & X).
    rewrite R1 in R. injection R as <- ->. split; [done|]. eexists now, _. split.
    + destruct X as (X1 & X2 & X3). split_and!; [exact X1|exact X2|done].
    + by intros a [_ ?]%list_elem_of_filter.
Qed.

Lemma timerspec_steps_ok s s' : ok s -> steps s s' -> ok s'.
Proof.
  intros O. induction 1 as [|s n s1 s2 C _ IH|now a s s1 s2 C _ IH|s s1 s2 P _ IH]; [done|apply IH..].
  - by apply (client_effect s n s1).
  - by apply (refresher_ok s now a s1).
  - by apply (poller_ok s s1).
Qed.

(** A timer without callback that is out of the set stays so. *)
Definition dead (a : Z) (s : TimerManager) : Prop :=
  (a ∉ m_timers s) /\ exists t, heap s !! a = Some t /\ m_cb t = None.

Lemma effect_dead a s n s' : effect s n s' -> dead a s -> dead a s'.
Proof.
  intros Hef [Hn (t & E & Hc)].
  assert (forall b t0, heap s !! b = Some t0 -> is_Some (m_cb t0) -> b <> a) as Hne.
  { intros b t0 Eb Hb ->. rewrite E in Eb. injection Eb as <-. rewrite Hc in Hb. by destruct Hb. }
  destruct Hef as [|b tb s' Eb Hcb H' _ M'|b tb n s' Hcb H' M' _ _].
  - by split; eauto.
  - split; [rewrite M'; tauto|]. exists t. by rewrite H', lookup_insert_ne by (by eapply Hne).
  - assert (b <> a) as Hba.
    { intros ->. specialize (Hcb t E). rewrite Hc in Hcb. by destruct Hcb. }
    split; [rewrite M'; by intros [?|?]|]. exists t. by rewrite H', lookup_insert_ne.
Qed.

Lemma poller_dead a s s' : ok s -> poller s s' -> dead a s -> dead a s'.
Proof.
  intros O P [Hn (t & E & Hc)]. destruct (poller_ok s s' O P) as (_ & now & ex & (Hh & Hm & _) & Hex).
  simpl in *. assert (a ∉ ex) as Hax by (intros ?%Hex; done). split.
  - rewrite Hm. tauto.
  - exists t. by rewrite Hh, decide_False.
Qed.

Lemma steps_dead a s s' : ok s -> steps s s' -> dead a s -> dead a s'.
Proof.
  intros O. induction 1 as [|s n s1 s2 C _ IH|now b s s1 s2 C _ IH|s s1 s2 P _ IH]; [done|..]; intros D.
  - destruct (client_effect s n s1 O C) as [O1 Ef]. apply IH; [done|]. by eapply effect_dead.
  - destruct (refresher_ok s now b s1 O C) as [O1 [->|(t & E & Hcb & H1 & _ & M1)]]; [by apply IH|].
    apply IH; [done|]. destruct D as [Hn (t' & E' & Hc)]. split; [by rewrite M1|]. exists t'.
    rewrite H1, lookup_insert_ne; [done|]. intros ->. rewrite E in E'. injection E' as ->.
    rewrite Hc in Hcb. by destruct Hcb.
  - destruct (poller_ok s s1 O P) as [O1 _]. apply IH; [done|]. by apply (poller_dead a s s1).
Qed.

(** ** Wake-ups *)

(** A step of a user or of the poller at the time [now]; the flag tells whether
    [onTimerInsertdAtFront()] is called. *)
Inductive call (now : Z) : TimerManager -> bool -> TimerManager -> Prop :=
  | ca_add s a ms cb recurring n s' :
      a <> 0 -> heap s !! a = None ->
      addTimer now a ms cb recurring s = Ok (a, n) s' -> call now s n s'
  | ca_cancel s a r s' : is_Some (heap s !! a) -> cancel a s = Ok r s' -> call now s false s'
  | ca_reset s a ms from_now r n s' :
      is_Some (heap s !! a) -> reset now a ms from_now s = Ok (r, n) s' -> call now s n s'
  | ca_refresh s a r s' : is_Some (heap s !! a) -> refresh now a s = Ok r s' -> call now s false s'.
Inductive poll (now : Z) : TimerManager -> TimerManager -> Prop :=
  | pl_next s d s' : in_u 64 now -> getNextTimer now s = Ok d s' -> poll now s s'
  | pl_expire s tmp cbs s' :
      tmp <> 0 -> heap s !! tmp = None -> listExpiredCb now tmp s = Ok cbs s' -> poll now s s'.

(** A period added to the current time stays below [2^64]. *)
Definition periods_fit (now : Z) (s : TimerManager) : Prop :=
  forall a t, heap s !! a = Some t -> 0 <= m_ms t /\ now + m_ms t < 2 ^ 64.

(** What users do while the clock goes on, from [now] to [now'], and whether they called
    [onTimerInsertdAtFront()]. *)
Inductive meanwhile (now : Z) (s : TimerManager) : bool -> Z -> TimerManager -> Prop :=
  | mw_refl : meanwhile now s false now s
  | mw_call now1 n s1 m now2 s2 :
      now <= now1 -> call now1 s n s1 -> periods_fit now1 s1 -> meanwhile now1 s1 m now2 s2 ->
      meanwhile now s (n || m) now2 s2.

(** A manager that users and poller have used, from its constructor on, up to the time [now],
    on a clock that did not go back. *)
Inductive lived : Z -> TimerManager -> Prop :=
  | li_new now : 0 <= now -> lived now (new_TimerManager now)
  | li_call now s now1 n s1 :
      lived now s -> now <= now1 -> call now1 s n s1 -> periods_fit now1 s1 -> lived now1 s1
  | li_poll now s now1 s1 :
      lived now s -> now <= now1 -> poll now1 s s1 -> periods_fit now1 s1 -> lived now1 s1.

(** Then no timer was armed in the future. *)
Definition timely (now : Z) (s : TimerManager) : Prop :=
  forall a t, heap s !! a = Some t -> m_ms t <= m_next t <= now + m_ms t.

Lemma timely_later now now' s : now <= now' -> timely now s -> timely now' s.
Proof. intros Hle T a t E. specialize (T a t E). lia. Qed.

Lemma timely_insert now s s' a t :
  timely now s -> heap s' = <[a := t]> (heap s) -> m_ms t <= m_next t <= now + m_ms t ->
  timely now s'.
Proof.
  intros T H Ht b tb. rewrite H. destruct (decide (b = a)) as [->|Hne].
  - rewrite lookup_insert_eq. by intros [= <-].
  - rewrite lookup_insert_ne by done. apply T.
Qed.

Lemma period_sum now ms : 0 <= now -> 0 <= ms /\ now + ms < 2 ^ 64 -> u64 (now + ms) = now + ms.
Proof. intros. unfold u64. apply uwrap_id. fits. Qed.

(** A step as a [client]'s or a [refresh]. *)
Lemma call_client now s n s' : call now s n s' -> client s n s' \/ n = false /\ exists a, refresher now a s s'.
Proof.
  destruct 1 as [s a ms cb r n s' Ha E R|s a r s' E R|s a ms fn r n s' E R|s a r s' E R].
  - left. by eapply cl_add.
  - left. by eapply cl_cancel.
  - left. by eapply cl_reset.
  - right. split; [done|]. exists a. by econstructor.
Qed.

Lemma timer_call_ok now s n s' : ok s -> call now s n s' -> ok s'.
Proof.
  intros O [C|(_ & a & C)]%call_client; [by apply (client_effect s n s')|].
  by apply (refresher_ok s now a s').
Qed.

Lemma call_timely now s n s' :
  0 <= now -> ok s -> call now s n s' -> periods_fit now s' -> timely now s -> timely now s'.
Proof.
  intros Hnow O. destruct 1 as [s a ms cb r n s' Ha E R|s a r s' [t E] R
                          |s a ms fn r n s' [t E] R|s a r s' [t E] R]; intros P T.
  - destruct (addTimer_ok s now a ms cb r O Ha E) as (n1 & s1 & R1 & _ & H1 & _).
    rewrite R1 in R. injection R as _ ->. eapply timely_insert; [done|exact H1|].
    specialize (P a (new_Timer now ms cb r)). rewrite H1, lookup_insert_eq in P.
    specialize (P eq_refl). cbn in *. rewrite period_sum by done. lia.
  - destruct (m_cb t) eqn:Hc; [|rewrite (cancel_dead s a t E Hc) in R; by injection R as _ <-].
    destruct (cancel_ok s a t O E) as (s1 & R1 & _ & H1 & _); [by rewrite Hc|].
    rewrite R1 in R. injection R as _ ->. eapply timely_insert; [done|exact H1|]. apply (T a t E).
  - destruct ((ms =? m_ms t) && negb fn) eqn:Hs.
    { rewrite (reset_same s now a t ms fn E Hs) in R. by injection R as _ _ <-. }
    destruct (m_cb t) eqn:Hc; [|rewrite (reset_dead s now a t ms fn E Hc Hs) in R; by injection R as _ _ <-].
    destruct (reset_ok s now a t ms fn O E) as (n1 & s1 & R1 & _ & H1 & _); [by rewrite Hc|done|].
    rewrite R1 in R. injection R as _ _ ->. eapply timely_insert; [done|exact H1|].
    specialize (P a _ ltac:(by rewrite H1, lookup_insert_eq)). pose proof (T a t E).
    destruct (ok_range s O a t E) as [_ Hr]. cbn in *. destruct fn.
    + rewrite period_sum by done. lia.
    + assert (u64 (m_next t - m_ms t) = m_next t - m_ms t) as ->.
      { unfold u64. apply uwrap_id. unfold in_u in *.
        assert (m_ms t < 0 \/ 0 <= m_ms t) as [Hneg|] by lia; [|lia]. lia. }
      rewrite period_sum by lia. lia.
  - destruct (m_cb t) eqn:Hc; [|rewrite (refresh_dead s now a t E Hc) in R; by injection R as _ <-].
    destruct (refresh_ok s now a t O E) as (s1 & R1 & _ & H1 & _); [by rewrite Hc|].
    rewrite R1 in R. injection R as _ ->. eapply timely_insert; [done|exact H1|].
    specialize (P a _ ltac:(by rewrite H1, lookup_insert_eq)). cbn in *.
    rewrite period_sum by done. lia.
Qed.

Lemma poll_timely now s s' :
  0 <= now -> ok s -> poll now s s' -> periods_fit now s' -> timely now s -> ok s' /\ timely now s'.
Proof.
  intros Hnow O. destruct 1 as [s d s' Hn R|s tmp cbs s' Ht Hf R]; intros P T.
  - rewrite (getNextTimer_ok s now O Hn) in R. injection R as _ <-. by split; [apply ok_tickled|].
  - destruct (listExpired_ok s now tmp O Ht Hf) as (s1 & R1 & O1 & X & _).
    rewrite R1 in R. injection R as _ ->. split; [done|]. intros a t E.
    pose proof (P a t E) as Ht'. rewrite X in E. case_decide; [|by apply (T a t E)].
    destruct (heap s !! a) as [t0|] eqn:E0; simplify_eq/=. pose proof (T a t0 E0).
    unfold fired in *. destruct (m_recurring t0); cbn in *; [rewrite period_sum by done|]; lia.
Qed.

Lemma lived_timely now s : lived now s -> 0 <= now /\ ok s /\ timely now s.
Proof.
  induction 1 as [now Hn|now s now1 n s1 _ (Hn & O & T) Hle C P|now s now1 s1 _ (Hn & O & T) Hle C P].
  - split_and!; [done|apply ok_new|]. intros a t. cbn. by rewrite lookup_empty.
  - assert (0 <= now1) by lia. pose proof (timely_later _ _ _ Hle T).
    split_and!; [done|by eapply timer_call_ok|by eapply call_timely].
  - assert (0 <= now1) by lia. pose proof (timely_later _ _ _ Hle T).
    destruct (poll_timely now1 s s1); auto.
Qed.

(** The deadlines are at [D] or later, and the next insertion at the front is notified. *)
Definition quiet (D : Z) (s : TimerManager) : Prop :=
  m_tickled s = false /\ forall a, a ∈ m_timers s -> D <= next_at (heap s) a.

Lemma effect_quiet D s s' : ok s' -> effect s false s' -> quiet D s -> quiet D s'.
Proof.
  intros O' Hef [HT HD]. inversion Hef as [|a t s1 Ea Hcb H' T' M'|a t n s1 Hcb H' M' N' T']; subst.
  - done.
  - split; [congruence|]. intros b [Hb Hba]%M'. rewrite H', next_at_insert_ne by done. by apply HD.
  - rewrite HT, andb_true_r in N'. split; [by rewrite T', HT|]. intros b Hb.
    destruct (m_timers s') as [|f l] eqn:El; [by apply elem_of_nil in Hb|].
    symmetry in N'. apply Z.eqb_neq in N'.
    transitivity (next_at (heap s') f); [|apply (front_least s' f l); [done|done|by rewrite El]].
    rewrite H', next_at_insert_ne by done. apply HD.
    destruct (proj1 (M' f)) as [?|?]; [by apply elem_of_cons; left|done|done].
Qed.

(** On a clock that does not go back, [refresh] brings no deadline forward. *)
Lemma refresh_later now a s s' b :
  0 <= now -> ok s -> timely now s -> refresher now a s s' -> periods_fit now s' ->
  b ∈ m_timers s' -> b ∈ m_timers s /\ next_at (heap s) b <= next_at (heap s') b.
Proof.
  intros Hnow O T C P Hb.
  destruct (refresher_ok s now a s' O C) as [O1 [->|(t & E & Hcb & H1 & _ & M1)]]; [done|].
  apply M1 in Hb. split; [done|]. destruct (decide (b = a)) as [->|Hne].
  - specialize (P a _ ltac:(by rewrite H1, lookup_insert_eq)). pose proof (T a t E).
    rewrite (next_at_lookup _ _ _ E), H1.
    erewrite next_at_lookup by apply lookup_insert_eq. cbn in *. rewrite period_sum by done. lia.
  - by rewrite H1, next_at_insert_ne.
Qed.

Lemma call_quiet D now s s' :
  0 <= now -> ok s -> timely now s -> call now s false s' -> periods_fit now s' ->
  quiet D s -> quiet D s'.
Proof.
  intros Hnow O T [C|(_ & a & C)]%call_client P Q.
  - destruct (client_effect s false s' O C) as [O1 Ef]. by eapply effect_quiet.
  - destruct Q as [HT HD]. split.
    + destruct (refresher_ok s now a s' O C) as [_ [->|(t & _ & _ & _ & T1 & _)]]; congruence.
    + intros b Hb. destruct (refresh_later now a s s' b) as [Hb1 Hle]; [done..|].
      specialize (HD b Hb1). lia.
Qed.

Lemma meanwhile_quiet D now s n now' s' :
  meanwhile now s n now' s' -> 0 <= now -> ok s -> timely now s -> quiet D s ->
  ok s' /\ (n = true \/ quiet D s').
Proof.
  induction 1 as [now s|now s now1 n s1 m now2 s2 Hle C P M IH]; intros Hn O T Q; [by auto|].
  assert (0 <= now1) as Hn1 by lia. pose proof (timely_later _ _ _ Hle T) as T1.
  destruct n.
  - assert (forall now s n now' s', meanwhile now s n now' s' -> ok s -> ok s') as Hok.
    { clear. induction 1 as [|? ? ? ? ? ? ? ? _ C _ _ IH]; [done|]. intros O. apply IH. by eapply timer_call_ok. }
    split; [|by left]. eapply Hok, timer_call_ok; eauto.
  - destruct IH as [O2 [->|?]]; [done|by eapply timer_call_ok|by eapply call_timely|by eapply call_quiet| |].
    + split; [done|by left].
    + split; [done|by right].
Qed.

(** ** Properties *)

(** C12: whatever users and poller do from the constructor on, the set stays sorted by
    deadline and holds exactly live timers, every timer that still has a callback is in it,
    and therefore every call on a live timer returns: [erase] never gets [end()] and no
    dangling pointer is followed. *)
Theorem timers_invariant now0 s :
  steps (new_TimerManager now0) s ->
  ok s /\ forall now a ms from_now, in_u 64 now -> is_Some (heap s !! a) ->
    is_Some (returned (cancel a s)) /\ is_Some (returned (refresh now a s)) /\
    is_Some (returned (reset now a ms from_now s)) /\ is_Some (returned (getNextTimer now s)).
Proof.
  intros Hst. assert (ok s) as O by (eapply timerspec_steps_ok, Hst; apply ok_new).
  split; [done|]. intros now a ms fn Hn [t E].
  split_and!; [| | |by rewrite getNextTimer_ok; eauto].
  - destruct (m_cb t) eqn:Hc; [|rewrite (cancel_dead s a t E Hc); eauto].
    destruct (cancel_ok s a t O E) as (? & -> & _); [by rewrite Hc|]. eauto.
  - destruct (m_cb t) eqn:Hc; [|rewrite (refresh_dead s now a t E Hc); eauto].
    destruct (refresh_ok s now a t O E) as (? & -> & _); [by rewrite Hc|]. eauto.
  - destruct ((ms =? m_ms t) && negb fn) eqn:Hs; [rewrite (reset_same s now a t ms fn E Hs); eauto|].
    destruct (m_cb t) eqn:Hc; [|rewrite (reset_dead s now a t ms fn E Hc Hs); eauto].
    destruct (reset_ok s now a t ms fn O E) as (? & ? & -> & _); [by rewrite Hc|done|]. eauto.
Qed.

(** C30: [listExpiredCb] returns the callbacks of exactly the timers whose deadline has passed
    (of all timers when the clock was set back), in the order of the deadlines; of those the
    recurring ones come back with a deadline one period later and the others lose their
    callback and leave the set; no other timer changes. *)
Theorem listExpiredCb_exact s now tmp :
  ok s -> tmp <> 0 -> heap s !! tmp = None ->
  let ex := filter (fun a => due (rolled_back s now) now (heap s) a = true) (m_timers s) in
  exists s', listExpiredCb now tmp s = Ok (cb_at (heap s) <$> ex) s' /\ ok s' /\
    expiry now ex s s'.
Proof. apply listExpired_ok. Qed.

(** C24: take a manager that was used in any way from its constructor on; the poller asks for
    the time to the next timer at [now] and sleeps that long, and meanwhile timers are added,
    cancelled, reset and refreshed at any later times.  If none of these calls
    [onTimerInsertdAtFront()] then no timer in the set is due before the poller wakes up by
    itself.  In particular [refresh], which never makes that call, needs none.  Two conditions:
    the clock does not go back, and the current time plus a period stays below [2^64]. *)
Theorem no_missed_wakeup now0 s now d s1 n now' s2 :
  lived now0 s -> now0 <= now -> in_u 64 now -> getNextTimer now s = Ok d s1 ->
  meanwhile now s1 n now' s2 -> n = false ->
  forall a, a ∈ m_timers s2 -> d <= Z.max 0 (next_at (heap s2) a - now).
Proof.
  intros L Hle Hn E Hm -> a Ha. destruct (lived_timely _ _ L) as (Hn0 & O & T0).
  pose proof (timely_later _ _ _ Hle T0) as T. clear T0 L.
  rewrite (getNextTimer_ok s now O Hn) in E. injection E as <- <-.
  assert (ok (with_tickled s false)) as O1 by by apply ok_tickled.
  assert (0 <= now) as Hn1 by lia. unfold next_wait. destruct (m_timers s) as [|f l] eqn:El.
  - assert (quiet (2 ^ 64) (with_tickled s false)) as Q.
    { split; [done|]. simpl. rewrite El. by intros ? ?%elem_of_nil. }
    destruct (meanwhile_quiet _ _ _ _ _ _ Hm Hn1 O1 T Q) as [O2 [|[_ Q2]]]; [done|].
    pose proof (Q2 a Ha). unfold next_at in *.
    destruct (ok_member s2 a O2 Ha) as (t & Et & _ & Hr & _). rewrite Et in *. unfold in_u in Hr. lia.
  - assert (quiet (next_at (heap s) f) (with_tickled s false)) as Q.
    { split; [done|]. simpl. intros b Hb. by eapply front_least. }
    destruct (meanwhile_quiet _ _ _ _ _ _ Hm Hn1 O1 T Q) as [O2 [|[_ Q2]]]; [done|].
    pose proof (Q2 a Ha). lia.
Qed.

(** After a successful [cancel] nothing brings the timer back: in every later state it is
    out of the set without callback, so that it never expires again, and [cancel] and
    [refresh] on it return false. *)
Theorem cancelled_stays s a s1 s2 now :
  ok s -> cancel a s = Ok true s1 -> steps s1 s2 ->
  (a ∉ m_timers s2) /\ cb_at (heap s2) a = None /\
  cancel a s2 = Ok false s2 /\ refresh now a s2 = Ok false s2.
Proof.
  intros O E Hst. assert (is_Some (heap s !! a)) as [t Et].
  { unfold cancel, bind, timer_at in E. destruct (heap s !! a); [eauto|done]. }
  destruct (m_cb t) eqn:Hc; [|by rewrite (cancel_dead s a t Et Hc) in E].
  destruct (cancel_ok s a t O Et) as (s' & E' & O' & H' & _ & M'); [by rewrite Hc|].
  rewrite E' in E. injection E as ->.
  assert (dead a s1) as D.
  { split; [rewrite M'; tauto|]. exists (disarmed t). by rewrite H', lookup_insert_eq. }
  destruct (steps_dead a s1 s2 O' Hst D) as [Hn (t2 & E2 & Hc2)].
  split_and!; [done|by unfold cb_at; rewrite E2|by eapply cancel_dead|by eapply refresh_dead].
Qed.

(** The deadline [GetCurrentMS() + ms] is computed modulo [2^64]: a timer for the longest period,
    [~0ull], is due at once, whenever the timers are looked at after it was added. *)
Lemma longest_period_due s now now' a cb recurring tmp :
  ok s -> 0 < now < 2 ^ 64 -> now <= now' -> a <> 0 -> heap s !! a = None ->
  tmp <> 0 -> tmp <> a -> heap s !! tmp = None ->
  exists n s1 cbs s2, addTimer now a (2 ^ 64 - 1) cb recurring s = Ok (a, n) s1 /\
    next_at (heap s1) a = now - 1 /\
    listExpiredCb now' tmp s1 = Ok cbs s2 /\ cb ∈ cbs.
Proof.
  intros O Hn Hn' Ha Ea Ht Hta Et.
  destruct (addTimer_ok s now a (2 ^ 64 - 1) cb recurring O Ha Ea) as (n & s1 & E1 & O1 & H1 & M1 & _).
  destruct (listExpired_ok s1 now' tmp O1 Ht) as (s2 & E2 & _).
  { by rewrite H1, lookup_insert_ne. }
  assert (heap s1 !! a = Some (new_Timer now (2 ^ 64 - 1) cb recurring)) as Ea1
    by by rewrite H1, lookup_insert_eq.
  assert (next_at (heap s1) a = now - 1) as En.
  { rewrite (next_at_lookup _ _ _ Ea1). unfold new_Timer, u64, uwrap. cbn [m_next].
    replace (now + (2 ^ 64 - 1)) with (now - 1 + 1 * 2 ^ 64) by lia.
    rewrite Z_mod_plus_full. apply Z.mod_small. lia. }
  eexists n, s1, _, s2. split_and!; [done|done|done|].
  apply list_elem_of_fmap. exists a. split; [by unfold cb_at; rewrite Ea1|].
  apply list_elem_of_filter. split; [|apply M1; by left].
  unfold due. rewrite En. apply orb_true_iff. right. apply Z.leb_le. lia.
Qed.

(** *** Witnesses: two timers of 10 and 5 ms added at 100 *)

Definition two_timers : TimerManager :=
  default (new_TimerManager 100)
    (final ((addTimer 100 8 10 (Some (cb_fun 1)) false ;;; addTimer 100 16 5 (Some (cb_fun 2)) true)
       (new_TimerManager 100))).

Lemma two_timers_steps : steps (new_TimerManager 100) two_timers.
Proof.
  eapply steps_client with (n := true).
  { eapply (cl_add _ 100 8 10 (Some (cb_fun 1)) false); [lia|apply lookup_empty|reflexivity]. }
  eapply steps_client with (n := false).
  { eapply (cl_add _ 100 16 5 (Some (cb_fun 2)) true); [lia|vm_compute; reflexivity|].
    vm_compute. reflexivity. }
  vm_compute. constructor.
Qed.

Lemma two_timers_ok : ok two_timers.
Proof. eapply timerspec_steps_ok, two_timers_steps. apply ok_new. Qed.

Lemma timers_invariant_witness :
  ok two_timers /\ is_Some (returned (reset 103 8 1 true two_timers)).
Proof.
  destruct (timers_invariant 100 two_timers two_timers_steps) as [O H]. split; [exact O|].
  destruct (H 103 8 1 true) as (_ & _ & R & _).
  - fits.
  - vm_compute. eauto.
  - exact R.
Defined.

Lemma listExpiredCb_exact_witness :
  exists s', listExpiredCb 107 4 two_timers = Ok [Some (cb_fun 2)] s' /\ ok s'.
Proof.
  destruct (listExpiredCb_exact two_timers 107 4 two_timers_ok) as (s' & E & O & _).
  - lia.
  - vm_compute. reflexivity.
  - exists s'. split; [exact E|exact O].
Defined.

Lemma periods_fit_all now s :
  forallb (fun at' => (0 <=? m_ms at'.2) && (now + m_ms at'.2 <? 2 ^ 64)) (map_to_list (heap s)) = true ->
  periods_fit now s.
Proof.
  rewrite forallb_forall. intros H a t E%elem_of_map_to_list.
  specialize (H (a, t) (proj1 (list_elem_of_In _ _) E)). apply andb_true_iff in H as [?%Z.leb_le ?%Z.ltb_lt]. done.
Qed.

Lemma two_timers_lived : lived 100 two_timers.
Proof.
  eapply li_call with (n := false) (now := 100); [|lia| |].
  - eapply li_call with (n := true); [apply (li_new 100)|..]; [lia|lia| |].
    + eapply (ca_add 100 _ 8 10 (Some (cb_fun 1)) false); [lia|apply lookup_empty|reflexivity].
    + apply periods_fit_all. vm_compute. reflexivity.
  - eapply (ca_add 100 _ 16 5 (Some (cb_fun 2)) true); [lia|vm_compute; reflexivity|].
    vm_compute. reflexivity.
  - apply periods_fit_all. vm_compute. reflexivity.
Qed.

(** Timer 8 is refreshed at 103, while the poller sleeps until 105. *)
Definition refreshed_timers : TimerManager :=
  default two_timers (final (refresh 103 8 (with_tickled two_timers false))).

Lemma no_missed_wakeup_witness : 5 <= Z.max 0 (next_at (heap refreshed_timers) 8 - 100).
Proof.
  apply (no_missed_wakeup 100 two_timers 100 5 (with_tickled two_timers false) false 103
           refreshed_timers two_timers_lived).
  - lia.
  - fits.
  - vm_compute. reflexivity.
  - eapply (mw_call _ _ 103 false refreshed_timers false).
    + lia.
    + apply (ca_refresh 103 _ 8 true); vm_compute; eauto.
    + apply periods_fit_all. vm_compute. reflexivity.
    + constructor.
  - reflexivity.
  - vm_compute. apply elem_of_cons; right. apply elem_of_cons; left. reflexivity.
Defined.

Lemma cancelled_stays_witness :
  8 ∉ m_timers (default two_timers (final (cancel 8 two_timers))).
Proof.
  apply (cancelled_stays two_timers 8 (default two_timers (final (cancel 8 two_timers)))
           (default two_timers (final (cancel 8 two_timers))) 100 two_timers_ok).
  - vm_compute. reflexivity.
  - constructor.
Defined.
