(* ===== verification/Stream.v ===== *)
(** * Stream and SockStream
    (src/wyze/stream.cpp, src/wyze/sockstream.cpp; Socket::recv and Socket::send of
    src/wyze/socket.cpp)

    The kernel's [recv]/[recvmsg] and [send]/[sendmsg] are the parameters [Kernel]; the laws
    are what their manual says.  A stream's methods run on the state of the world and, for the
    overloads that take one, on a ByteArray. *)

From S2P Require Import Prelude ByteArray ByteArrayRep ByteIO ByteArraySpec.

(** ** The kernel *)

Class Kernel (W : Type) := {
  k_recv : Z -> M W (Z * list byte);   (* room for [n] bytes; the result and the bytes stored *)
  k_send : list byte -> M W Z }.

Class KernelSpec (W : Type) `{Kernel W} := {
  incoming : W -> list byte;           (* what the peer has sent and was not received *)
  outgoing : W -> list byte;           (* what the peer was sent *)
  k_recv_ok : forall n w, 0 < n -> exists rt d w', k_recv n w = Ok (rt, d) w' /\
    -1 <= rt <= n /\ rt < 2 ^ 31 /\ Z.of_nat (length d) = Z.max 0 rt /\
    incoming w = d ++ incoming w' /\ outgoing w' = outgoing w;
  k_send_ok : forall d w, d <> [] -> exists rt w', k_send d w = Ok rt w' /\
    -1 <= rt <= Z.of_nat (length d) /\ rt < 2 ^ 31 /\ incoming w' = incoming w /\
    outgoing w' = outgoing w ++ take (Z.to_nat rt) d }.

Record Socket := mkSocket { m_sock : Z; m_isConnected : bool }.

Section streams.
Context {W : Type} `{Kernel W} `{Allocator}.

(** [Socket::recv], both overloads: [length] is the room of the buffer or of the iovecs. *)
Definition Socket_recv (sock : Socket) (length : Z) : M W (Z * list byte) :=
  if negb (m_isConnected sock) then ret (-1, []) else k_recv length.
(** [Socket::send], both overloads *)
Definition Socket_send (sock : Socket) (buffer : list byte) : M W Z :=
  if negb (m_isConnected sock) then ret (-1) else k_send buffer.

(** ** Stream: the loops over a virtual [read] or [write] *)

Section fixed.
Context {T : Type}.

(** A pointer [buffer + offset] to a buffer of [n] bytes, and storing there. *)
Definition in_buffer (offset : Z) (buf : list byte) : bool := offset <=? Z.of_nat (length buf).
Definition store (offset : Z) (d buf : list byte) : option (list byte) :=
  if offset + Z.of_nat (length d) <=? Z.of_nat (length buf)
  then Some (splice (Z.to_nat offset) d buf) else None.

(** [readFixSize(void* buffer, size_t length)]: [len] is a [size_t] though [read] returns an
    [int].  [rd left] is [read] with the room [left]. *)
Fixpoint readFixSize_loop (fuel : nat) (rd : Z -> M T (Z * list byte)) (length offset left : Z)
    (buffer : list byte) : M T (Z * list byte) :=
  if left <=? 0 then ret (s32 length, buffer) else
  match fuel with
  | O => undef no_fuel
  | S fuel =>
      if negb (in_buffer offset buffer) then undef out_of_bounds else
      r <- rd left ;;
      let '(rt, d) := r in
      let len := u64 rt in
      buffer <- or_undef out_of_bounds (store offset d buffer) ;;
      if len <=? 0 then ret (s32 len, buffer)
      else readFixSize_loop fuel rd length (u64 (offset + len)) (u64 (left - len)) buffer
  end.
Definition readFixSize (fuel : nat) (rd : Z -> M T (Z * list byte)) (buffer : list byte)
    (length : Z) : M T (Z * list byte) :=
  readFixSize_loop fuel rd length 0 length buffer.

(** [writeFixSize(const void* buffer, size_t length)]; [wr buf] is [write] of the bytes it may
    take. *)
Fixpoint writeFixSize_loop (fuel : nat) (wr : list byte -> M T Z) (length offset left : Z)
    (buffer : list byte) : M T Z :=
  if left <=? 0 then ret (s32 length) else
  match fuel with
  | O => undef no_fuel
  | S fuel =>
      if negb (offset + left <=? Z.of_nat (base.length buffer)) then undef out_of_bounds else
      rt <- wr (slice (Z.to_nat offset) (Z.to_nat left) buffer) ;;
      let len := u64 rt in
      if len <=? 0 then ret (s32 len)
      else writeFixSize_loop fuel wr length (u64 (offset + len)) (u64 (left - len)) buffer
  end.
Definition writeFixSize (fuel : nat) (wr : list byte -> M T Z) (buffer : list byte) (length : Z) : M T Z :=
  writeFixSize_loop fuel wr length 0 length buffer.

(** [readFixSize(ByteArray::ptr ba, size_t length)] and [writeFixSize(ByteArray::ptr ba,
    size_t length)] are the same loop over [read(ba, left)] and [write(ba, left)]. *)
Fixpoint fixSize_loop (fuel : nat) (op : Z -> M T Z) (length left : Z) : M T Z :=
  if left <=? 0 then ret (s32 length) else
  match fuel with
  | O => undef no_fuel
  | S fuel =>
      rt <- op left ;;
      let len := u64 rt in
      if len <=? 0 then ret (s32 len)
      else fixSize_loop fuel op length (u64 (left - len))
  end.
Definition readFixSize_ba (fuel : nat) (rd : Z -> M T Z) (length : Z) : M T Z :=
  fixSize_loop fuel rd length length.
Definition writeFixSize_ba (fuel : nat) (wr : Z -> M T Z) (length : Z) : M T Z :=
  fixSize_loop fuel wr length length.

End fixed.

(** ** SockStream *)

Record SockStream := mkSockStream { ss_sock : Socket; m_owner : bool }.

Definition on_world {A} (m : M W A) : M (W * ByteArray) A := fun s =>
  match m (fst s) with
  | Ok a w => Ok a (w, snd s) | Throw e w => Throw e (w, snd s) | Undef u => Undef u
  end.
Definition on_ba {A} (m : M ByteArray A) : M (W * ByteArray) A := fun s =>
  match m (snd s) with
  | Ok a ba => Ok a (fst s, ba) | Throw e ba => Throw e (fst s, ba) | Undef u => Undef u
  end.

(** [SockStream::read(void*, size_t)] and [SockStream::write(const void*, size_t)] *)
Definition SockStream_read (ss : SockStream) (length : Z) : M W (Z * list byte) :=
  Socket_recv (ss_sock ss) length.
Definition SockStream_write (ss : SockStream) (buffer : list byte) : M W Z :=
  Socket_send (ss_sock ss) buffer.

(** [&iovs[0]] of an empty vector *)
Definition front_of (iovs : list iovec) : M (W * ByteArray) unit :=
  match iovs with [] => undef out_of_bounds | _ => ret tt end.

(** [SockStream::read(ByteArray::ptr, size_t)] *)
Definition SockStream_read_ba (ss : SockStream) (length : Z) : M (W * ByteArray) Z :=
  b <- on_ba (getWriteBuffers length) ;;
  let iovs := snd b in
  front_of iovs ;;;
  r <- on_world (Socket_recv (ss_sock ss) (fold_right Z.add 0 (iov_len <$> iovs))) ;;
  let '(rt, d) := r in
  on_ba (scatter iovs d) ;;;
  (if 0 <? rt then fun s => on_ba (setPosition (u64 (m_position (snd s) + rt))) s else ret tt) ;;;
  ret rt.

(** [SockStream::write(ByteArray::ptr, size_t)] *)
Definition SockStream_write_ba (ss : SockStream) (length : Z) : M (W * ByteArray) Z :=
  b <- on_ba (getReadBuffers length) ;;
  let iovs := snd b in
  front_of iovs ;;;
  d <- on_ba (gather iovs) ;;
  rt <- on_world (Socket_send (ss_sock ss) d) ;;
  (if 0 <? rt then fun s => on_ba (setPosition (u64 (m_position (snd s) + rt))) s else ret tt) ;;;
  ret rt.

Definition isConnected (ss : option SockStream) : bool :=
  match ss with Some ss => m_isConnected (ss_sock ss) | None => false end.

End streams.
