(* ===== verification/StreamSpec.v ===== *)
(** * What goes over a SockStream

    The ByteArray overloads move exactly the kernel's bytes between the socket and the
    abstract byte stream, through iovecs into the block chain, however the kernel splits them;
    the fixed-size loops move the whole length when every call makes progress, and lose the
    sign of an error. *)

From S2P Require Import Prelude ByteArray ByteArrayRep ByteIO ByteArraySpec Stream.

(** A kernel on which a call blocks until it can make progress and does not fail. *)
Class Lively (W : Type) `{KernelSpec W} := {
  lively_recv : forall n w rt d w', 0 < n -> incoming w <> [] -> k_recv n w = Ok (rt, d) w' -> 0 < rt;
  lively_send : forall d w rt w', d <> [] -> k_send d w = Ok rt w' -> 0 < rt }.

Section streams.
Context {W : Type} `{KernelSpec W} `{Allocator}.
Implicit Types (w : W) (ba : ByteArray) (ss : SockStream).

Definition open ss : Prop := m_isConnected (ss_sock ss) = true.

Lemma Socket_recv_open ss n : open ss -> Socket_recv (ss_sock ss) n = k_recv (W := W) n.
Proof. unfold open, Socket_recv. by intros ->. Qed.
Lemma Socket_send_open ss d : open ss -> Socket_send (ss_sock ss) d = k_send (W := W) d.
Proof. unfold open, Socket_send. by intros ->. Qed.

Lemma covers_sum base n iovs : forall pos len,
  covers base n pos len iovs -> fold_right Z.add 0 (iov_len <$> iovs) = len.
Proof.
  induction iovs as [|v iovs IH]; intros pos len Hc; cbn [covers] in Hc; [done|].
  destruct Hc as (_ & _ & _ & _ & _ & Hc). apply IH in Hc. rewrite fmap_cons. cbn [fold_right]. lia.
Qed.

Lemma covers_front base n pos len iovs w ba :
  covers base n pos len iovs -> 0 < len -> front_of iovs (w, ba) = Ok tt (w, ba).
Proof. intros Hc Hl. destruct iovs; [simpl in Hc; lia|done]. Qed.

(** The state after [d] was stored behind the position of [ba] and the position moved. *)
Lemma received_ok ba b1 b2 b3 d x :
  wf ba -> geom b3 -> flat b1 = flat ba ++ x -> flat b2 = splice (Z.to_nat (m_position ba)) d (flat b1) ->
  flat b3 = flat b2 -> m_position b3 = m_position ba + Z.of_nat (length d) ->
  m_size b3 = Z.max (m_size ba) (m_position ba + Z.of_nat (length d)) ->
  m_endian b3 = m_endian ba -> m_position ba + Z.of_nat (length d) <= Z.of_nat (length (flat b1)) ->
  abs b3 = spec_write d (abs ba).
Proof.
  intros [G Hs] G3 F1 F2 F3 P3 S3 E3 Hl. pose proof (g_pos _ G). pose proof (length_flat _ G).
  unfold abs, spec_write; simpl. f_equal; [|done|done].
  rewrite S3, F3, F2, F1.
  rewrite <- take_splice_grow with (x := x); [f_equal; lia|lia|lia|]. rewrite <- F1. lia.
Qed.

Lemma SockStream_read_ba_ok ss w ba n :
  open ss -> wf ba -> 0 < n -> room ba n ->
  exists rt d w' ba', SockStream_read_ba ss n (w, ba) = Ok rt (w', ba') /\
    k_recv n w = Ok (rt, d) w' /\ -1 <= rt <= n /\ Z.of_nat (length d) = Z.max 0 rt /\
    incoming w = d ++ incoming w' /\ outgoing w' = outgoing w /\
    wf ba' /\ abs ba' = spec_write d (abs ba) /\ m_basesize ba' = m_basesize ba.
Proof.
  intros Ho Hw Hn Hr. pose proof Hw as [G Hs].
  destruct (getWriteBuffers_ok ba n Hw Hn Hr) as (b1 & iovs & E1 & Gr & Hc).
  pose proof Gr as [G1 B1 P1 S1 N1 [x L1] R1 K1].
  destruct (k_recv_ok n w Hn) as (rt & d & w' & Ek & Hrt & Hrt2 & Hd & Hin & Hout).
  pose proof (g_pos _ G). pose proof (g_pos _ G1). pose proof (g_width _ G1).
  destruct (scatter_ok iovs b1 (m_position b1) n d G1) as (b2 & E2 & F2 & G2 & P2 & C2 & L2);
    [lia|done|lia|lia|].
  pose proof (length_flat _ G1). rewrite P1 in L2.
  assert (wf b2) as W2 by (constructor; [done|rewrite P2, P1, (fr_size _ _ F2), S1, (fr_cap _ _ F2); lia]).
  unfold SockStream_read_ba, on_ba at 1, bind at 1. cbn [snd fst]. rewrite E1. cbn [snd].
  run (covers_front _ _ _ _ _ w b1 Hc Hn).
  rewrite (covers_sum _ _ _ _ _ Hc), Socket_recv_open by done.
  unfold on_world, bind at 1. cbn [fst snd]. rewrite Ek. unfold on_ba at 1, bind at 1. cbn [fst snd].
  rewrite E2. destruct (Z.ltb_spec 0 rt).
  - unfold bind, on_ba. cbn [fst snd]. rewrite P2, P1. unfold u64.
    rewrite uwrap_id by fits.
    assert (0 <= m_position ba + rt <= m_capacity b2) by (rewrite (fr_cap _ _ F2); lia).
    rewrite setPosition_ok by done. unfold ret.
    exists rt, d, w', (seeked b2 (m_position ba + rt)).
    assert (wf (seeked b2 (m_position ba + rt))) as W3 by by apply seeked_wf.
    split_and!; try done; try lia.
    + eapply (received_ok ba b1 b2 _ d x); try done; try (simpl; lia).
      * apply W3.
      * simpl. rewrite (fr_size _ _ F2). lia.
      * simpl. by rewrite (fr_endian _ _ F2).
    + simpl. by rewrite (fr_base _ _ F2).
  - assert (d = []) as Ed by (apply nil_length_inv; lia).
    exists rt, d, w', b2. subst d. split_and!; try done; try (simpl; lia).
    + eapply (received_ok ba b1 b2 _ [] x); try done; try (simpl; lia).
      * rewrite (fr_size _ _ F2). simpl. lia.
      * by rewrite (fr_endian _ _ F2).
    + by rewrite (fr_base _ _ F2).
Qed.

Lemma SockStream_write_ba_ok ss w ba n :
  open ss -> wf ba -> 0 < n -> unread (abs ba) <> [] ->
  let d := take (Z.to_nat n) (unread (abs ba)) in
  exists rt w' ba', SockStream_write_ba ss n (w, ba) = Ok rt (w', ba') /\
    k_send d w = Ok rt w' /\ -1 <= rt <= Z.of_nat (length d) /\ incoming w' = incoming w /\
    outgoing w' = outgoing w ++ take (Z.to_nat rt) d /\
    wf ba' /\ abs ba' = spec_skip (Z.max 0 rt) (abs ba).
Proof.
  intros Ho Hw Hn Hu d. pose proof Hw as [G Hs]. pose proof (length_unread _ Hw) as Lu.
  assert (0 < length (unread (abs ba)))%nat by (destruct (unread (abs ba)); [done|simpl; lia]).
  destruct (getReadBuffers_ok ba n Hw Hn) as (iovs & E1 & Hc); [lia|].
  set (len := Z.min n (m_size ba - m_position ba)) in *.
  pose proof (g_pos _ G). pose proof (g_width _ G).
  assert (slice (Z.to_nat (m_position ba)) (Z.to_nat len) (flat ba) = d) as Ed.
  { rewrite slice_unread by (done || lia). unfold d, len.
    destruct (decide (n <= m_size ba - m_position ba)); [f_equal; lia|].
    rewrite !firstn_all2 by lia. done. }
  assert (d <> []) as Hd.
  { unfold d. destruct (unread (abs ba)); [done|]. by destruct (Z.to_nat n) eqn:?; [lia|]. }
  destruct (k_send_ok d w Hd) as (rt & w' & Ek & Hrt & Hrt2 & Hin & Hout).
  unfold SockStream_write_ba, on_ba at 1, bind at 1. cbn [snd fst]. rewrite E1. cbn [snd].
  run (covers_front _ _ _ _ _ w ba Hc ltac:(lia)).
  unfold on_ba at 1, bind at 1. cbn [fst snd].
  rewrite (gather_ok ba iovs (m_position ba) len G) by (lia || done). rewrite Ed.
  rewrite Socket_send_open by done. unfold on_world, bind at 1. cbn [fst snd]. rewrite Ek.
  assert (Z.of_nat (length d) <= m_size ba - m_position ba) as Ld
    by (unfold d; rewrite length_take; lia).
  exists rt, w'. destruct (Z.ltb_spec 0 rt).
  - unfold bind, on_ba. cbn [fst snd]. unfold u64. rewrite uwrap_id by fits.
    assert (0 <= m_position ba + rt <= m_capacity ba) by lia.
    rewrite setPosition_ok by done. unfold ret. exists (seeked ba (m_position ba + rt)).
    split_and!; try done; try lia; [by apply seeked_wf|].
    rewrite seeked_abs by done. unfold exposed, slice.
    replace (Z.to_nat (m_position ba + rt - m_size ba)) with 0%nat by lia.
    unfold spec_seek, spec_skip. rewrite take_0, app_nil_r. simpl. f_equal. lia.
  - exists ba. split_and!; try done; try lia. unfold spec_skip.
    replace (Z.max 0 rt) with 0 by lia. rewrite Z.add_0_r. by destruct (abs ba).
Qed.

(** ** The fixed-size loops, when every call makes progress *)

Context `{!Lively W}.

Lemma readFixSize_loop_ok ss len fuel : forall w buffer offset left,
  open ss -> 0 <= left -> left <= Z.of_nat fuel -> 0 <= offset -> offset + left = Z.of_nat (length buffer) ->
  left <= Z.of_nat (length (incoming w)) -> Z.of_nat (length buffer) < 2 ^ 63 ->
  exists w', readFixSize_loop fuel (SockStream_read ss) len offset left buffer w =
      Ok (s32 len, splice (Z.to_nat offset) (take (Z.to_nat left) (incoming w)) buffer) w' /\
    incoming w' = drop (Z.to_nat left) (incoming w) /\ outgoing w' = outgoing w.
Proof.
  induction fuel as [|fuel IH]; intros w buffer offset left Ho Hl Hf Hoff Hsum Hin Hb;
    cbn [readFixSize_loop].
  { assert (left = 0) as -> by lia. exists w. by rewrite take_0, splice_nil, drop_0. }
  destruct (Z.leb_spec left 0).
  { assert (left = 0) as -> by lia. exists w. by rewrite take_0, splice_nil, drop_0. }
  unfold in_buffer. rewrite (proj2 (Z.leb_le _ _)) by lia. cbn [negb].
  unfold SockStream_read at 1. rewrite Socket_recv_open by done.
  destruct (k_recv_ok left w) as (rt & d & w1 & Ek & Hrt & Hrt2 & Hd & Hi & Hout); [lia|].
  assert (0 < rt) as Hpos by (eapply lively_recv, Ek; [lia|]; intros E; rewrite E in Hin; simpl in Hin; lia).
  run Ek. unfold u64. rewrite (uwrap_id 64 rt) by fits.
  unfold store. rewrite (proj2 (Z.leb_le _ _)) by lia. unfold or_undef, bind at 1, ret at 1.
  rewrite (proj2 (Z.leb_gt _ _)) by lia. rewrite !uwrap_id by fits.
  destruct (IH w1 (splice (Z.to_nat offset) d buffer) (offset + rt) (left - rt))
    as (w' & E & Hi' & Hout'); rewrite ?length_splice by lia; try done; try lia.
  { rewrite Hi, length_app in Hin. lia. }
  exists w'. rewrite E. split_and!; [|rewrite Hi', Hi|congruence].
  - do 2 f_equal. replace (Z.to_nat (offset + rt)) with (Z.to_nat offset + length d)%nat by lia.
    rewrite <- splice_app.
    + f_equal. rewrite Hi. rewrite take_app_ge by lia. do 2 f_equal. lia.
    + rewrite length_take. lia.
  - rewrite drop_app_ge by lia. f_equal. lia.
Qed.

Lemma writeFixSize_loop_ok ss len fuel : forall w buffer offset left,
  open ss -> 0 <= left -> left <= Z.of_nat fuel -> 0 <= offset ->
  offset + left = Z.of_nat (length buffer) -> Z.of_nat (length buffer) < 2 ^ 63 ->
  exists w', writeFixSize_loop fuel (SockStream_write ss) len offset left buffer w = Ok (s32 len) w' /\
    incoming w' = incoming w /\ outgoing w' = outgoing w ++ drop (Z.to_nat offset) buffer.
Proof.
  induction fuel as [|fuel IH]; intros w buffer offset left Ho Hl Hf Hoff Hsum Hb;
    cbn [writeFixSize_loop].
  { assert (left = 0) as -> by lia. exists w. rewrite drop_ge by lia. by rewrite app_nil_r. }
  destruct (Z.leb_spec left 0).
  { assert (left = 0) as -> by lia. exists w. rewrite drop_ge by lia. by rewrite app_nil_r. }
  rewrite (proj2 (Z.leb_le (offset + left) _)) by lia. cbn [negb].
  unfold SockStream_write at 1. rewrite Socket_send_open by done.
  set (d := slice (Z.to_nat offset) (Z.to_nat left) buffer).
  assert (length d = Z.to_nat left) as Ld by (unfold d; apply length_slice; lia).
  assert (d <> []) as Hd by (intros E; rewrite E in Ld; simpl in Ld; lia).
  destruct (k_send_ok d w Hd) as (rt & w1 & Ek & Hrt & Hrt2 & Hi & Hout).
  pose proof (lively_send _ _ _ _ Hd Ek) as Hpos.
  run Ek. unfold u64. rewrite (uwrap_id 64 rt) by fits.
  rewrite (proj2 (Z.leb_gt _ _)) by lia. rewrite !uwrap_id by fits.
  destruct (IH w1 buffer (offset + rt) (left - rt)) as (w' & E & Hi' & Hout'); try done; try lia.
  exists w'. rewrite E. split_and!; [done|congruence|].
  rewrite Hout', Hout, <- app_assoc. f_equal. unfold d, slice. rewrite take_take, Nat.min_l by lia.
  rewrite <- (take_drop (Z.to_nat rt) (drop (Z.to_nat offset) buffer)) at 2. f_equal.
  rewrite drop_drop. f_equal. lia.
Qed.

Lemma readFixSize_ba_loop_ok ss len fuel : forall w ba left,
  open ss -> wf ba -> 0 <= left -> left <= Z.of_nat fuel -> room ba left -> left < 2 ^ 63 ->
  left <= Z.of_nat (length (incoming w)) ->
  exists w' ba', fixSize_loop fuel (SockStream_read_ba ss) len left (w, ba) = Ok (s32 len) (w', ba') /\
    incoming w' = drop (Z.to_nat left) (incoming w) /\ wf ba' /\
    abs ba' = spec_write (take (Z.to_nat left) (incoming w)) (abs ba).
Proof.
  assert (forall ba, wf ba -> abs ba = spec_write [] (abs ba)) as Hnil.
  { intros ba _. unfold spec_write. rewrite splice_nil; simpl. by rewrite Z.add_0_r. }
  induction fuel as [|fuel IH]; intros w ba left Ho Hw Hl Hf Hr Hmax Hin; cbn [fixSize_loop].
  { assert (left = 0) as -> by lia. exists w, ba. rewrite take_0, drop_0. auto. }
  destruct (Z.leb_spec left 0).
  { assert (left = 0) as -> by lia. exists w, ba. rewrite take_0, drop_0. auto. }
  destruct (SockStream_read_ba_ok ss w ba left Ho Hw) as
    (rt & d & w1 & b1 & E1 & Ek & Hrt & Hd & Hi & _ & W1 & A1 & B1); [lia|done|].
  assert (0 < rt) as Hpos by (eapply lively_recv, Ek; [lia|]; intros E; rewrite E in Hin; simpl in Hin; lia).
  run E1. unfold u64. rewrite (uwrap_id 64 rt) by fits.
  rewrite (proj2 (Z.leb_gt _ _)) by lia. rewrite uwrap_id by fits.
  assert (m_position b1 = m_position ba + Z.of_nat (length d)) as P1 by exact (f_equal st_pos A1).
  destruct (IH w1 b1 (left - rt)) as (w' & b' & E & Hi' & W' & A'); try done; try lia.
  { unfold room in *. lia. }
  { rewrite Hi, length_app in Hin. lia. }
  exists w', b'. rewrite E. split_and!; [done|rewrite Hi', Hi|done|].
  - rewrite drop_app_ge by lia. f_equal. lia.
  - pose proof (length_abs _ Hw). destruct Hw as [G Hs]. pose proof (g_pos _ G).
    rewrite A', A1, spec_write_app by (simpl in *; lia). f_equal. rewrite Hi.
    rewrite take_app_ge by lia. do 2 f_equal. lia.
Qed.

Lemma writeFixSize_ba_loop_ok ss len fuel : forall w ba left,
  open ss -> wf ba -> 0 <= left -> left <= Z.of_nat fuel -> left < 2 ^ 63 ->
  left <= Z.of_nat (length (unread (abs ba))) ->
  exists w' ba', fixSize_loop fuel (SockStream_write_ba ss) len left (w, ba) = Ok (s32 len) (w', ba') /\
    outgoing w' = outgoing w ++ take (Z.to_nat left) (unread (abs ba)) /\ wf ba' /\
    abs ba' = spec_skip left (abs ba).
Proof.
  assert (forall ba, wf ba -> abs ba = spec_skip 0 (abs ba)) as Hnil.
  { intros ba _. unfold spec_skip. rewrite Z.add_0_r. by destruct (abs ba). }
  induction fuel as [|fuel IH]; intros w ba left Ho Hw Hl Hf Hmax Hin; cbn [fixSize_loop].
  { assert (left = 0) as -> by lia. exists w, ba. rewrite take_0, app_nil_r. auto. }
  destruct (Z.leb_spec left 0).
  { assert (left = 0) as -> by lia. exists w, ba. rewrite take_0, app_nil_r. auto. }
  assert (unread (abs ba) <> []) as Hu by (intros E; rewrite E in Hin; simpl in Hin; lia).
  destruct (SockStream_write_ba_ok ss w ba left Ho Hw) as
    (rt & w1 & b1 & E1 & Ek & Hrt & Hi & Hout & W1 & A1); [lia|done|].
  set (d := take (Z.to_nat left) (unread (abs ba))) in *.
  assert (length d = Z.to_nat left) as Ld by (unfold d; rewrite length_take; lia).
  assert (0 < rt) as Hpos by (eapply lively_send, Ek; intros E; rewrite E in Ld; simpl in Ld; lia).
  run E1. unfold u64. rewrite (uwrap_id 64 rt) by fits.
  rewrite (proj2 (Z.leb_gt _ _)) by lia. rewrite uwrap_id by fits.
  replace (Z.max 0 rt) with rt in A1 by lia.
  pose proof (length_abs _ Hw). pose proof Hw as [G Hs]. pose proof (g_pos _ G).
  assert (unread (abs b1) = drop (Z.to_nat rt) (unread (abs ba))) as U1
    by (rewrite A1; apply unread_skip; simpl; lia).
  destruct (IH w1 b1 (left - rt)) as (w' & b' & E & Hout' & W' & A'); try done; try lia.
  { rewrite U1, length_drop. lia. }
  exists w', b'. rewrite E. split_and!; [done| |done|].
  - rewrite Hout', Hout, U1, <- app_assoc. f_equal. unfold d. rewrite take_take.
    rewrite Nat.min_l by lia.
    replace (Z.to_nat left) with (Z.to_nat rt + Z.to_nat (left - rt))%nat by lia.
    by rewrite take_take_drop.
  - rewrite A', A1. unfold spec_skip; simpl. f_equal. lia.
Qed.


(** ** Properties *)

(** [readFixSize(ba, length)] on a connected SockStream whose peer has sent enough receives
    exactly the next [length] bytes into the array, at its position and across its blocks, and
    takes no more from the socket, however the kernel splits them. *)
Theorem readFixSize_ba_receives ss w ba length :
  open ss -> wf ba -> 0 <= length < 2 ^ 31 -> room ba length ->
  length <= Z.of_nat (base.length (incoming w)) ->
  exists w' ba', readFixSize_ba (Z.to_nat length) (SockStream_read_ba ss) length (w, ba)
      = Ok length (w', ba') /\
    incoming w' = drop (Z.to_nat length) (incoming w) /\ wf ba' /\
    abs ba' = spec_write (take (Z.to_nat length) (incoming w)) (abs ba).
Proof.
  intros Ho Hw Hl Hr Hi. unfold readFixSize_ba.
  assert (s32 length = length) as E by (apply swrap_id; fits).
  pose proof (readFixSize_ba_loop_ok ss length (Z.to_nat length) w ba length) as P.
  rewrite E in P. apply P; (done || lia).
Qed.

(** [writeFixSize(ba, length)] on a connected SockStream sends exactly the next [length]
    unread bytes of the array and moves its position behind them, however the kernel splits
    them. *)
Theorem writeFixSize_ba_sends ss w ba length :
  open ss -> wf ba -> 0 <= length < 2 ^ 31 ->
  length <= Z.of_nat (base.length (unread (abs ba))) ->
  exists w' ba', writeFixSize_ba (Z.to_nat length) (SockStream_write_ba ss) length (w, ba)
      = Ok length (w', ba') /\
    outgoing w' = outgoing w ++ take (Z.to_nat length) (unread (abs ba)) /\ wf ba' /\
    abs ba' = spec_skip length (abs ba).
Proof.
  intros Ho Hw Hl Hi. unfold writeFixSize_ba.
  assert (s32 length = length) as E by (apply swrap_id; fits).
  pose proof (writeFixSize_ba_loop_ok ss length (Z.to_nat length) w ba length) as P.
  rewrite E in P. apply P; (done || lia).
Qed.

End streams.

(** A loop over an operation that always fails. *)
Lemma failing_loop {T} (op : Z -> M T Z) s len : forall fuel left,
  (forall n, 0 < n -> op n s = Ok (-1) s) -> 0 < left -> left + Z.of_nat fuel < 2 ^ 64 ->
  fixSize_loop fuel op len left s = Undef no_fuel.
Proof.
  induction fuel as [|fuel IH]; intros left Hop Hl Hf; cbn [fixSize_loop];
    rewrite (proj2 (Z.leb_gt left 0)) by done; [done|].
  run (Hop left Hl). change (u64 (-1)) with (2 ^ 64 - 1).
  rewrite (proj2 (Z.leb_gt _ _)) by lia. unfold u64, uwrap.
  replace (left - (2 ^ 64 - 1)) with (left + 1 + (-1) * 2 ^ 64) by lia.
  rewrite Z_mod_plus_full, Z.mod_small by lia. apply IH; [done|lia|lia].
Qed.

Section errors.
Context {W : Type} `{KernelSpec W} `{Allocator}.

(** The fixed-size loops keep the result of a call in a [size_t], so [-1] is neither zero
    nor negative: on a disconnected stream [writeFixSize(ba, length)] asks for one byte more
    after every failure, for any number [fuel] of rounds below [2^64], and [readFixSize] of a
    buffer continues in front of it. *)
Theorem fixSize_ignores_errors (ss : SockStream) (w : W) ba length fuel buffer :
  m_isConnected (ss_sock ss) = false -> wf ba -> unread (abs ba) <> [] ->
  0 < length -> length + Z.of_nat fuel < 2 ^ 64 - 1 -> Z.of_nat (base.length buffer) = length ->
  writeFixSize_ba fuel (SockStream_write_ba ss) length (w, ba) = Undef no_fuel /\
  readFixSize (2 + fuel) (SockStream_read ss) buffer length w = Undef out_of_bounds.
Proof.
  intros Hc Hw Hu Hl Hf Hb. split.
  - apply failing_loop; [|lia|lia]. intros n Hn.
    pose proof (length_unread _ Hw) as Lu.
    assert (0 < base.length (unread (abs ba)))%nat by (destruct (unread (abs ba)); [done|simpl; lia]).
    destruct (getReadBuffers_ok ba n Hw Hn) as (iovs & E1 & Hcov); [lia|].
    pose proof Hw as [G Hs]. pose proof (g_pos _ G).
    assert (0 < m_size ba - m_position ba) as Hlt by lia.
    unfold SockStream_write_ba, on_ba at 1, bind at 1. cbn [snd fst]. rewrite E1. cbn [snd].
    run (covers_front _ _ _ _ _ w ba Hcov (Z.min_glb_lt _ _ _ Hn Hlt)).
    unfold on_ba at 1, bind at 1. cbn [fst snd].
    rewrite (gather_ok ba iovs (m_position ba) (Z.min n (m_size ba - m_position ba)) G)
      by (lia || done).
    unfold Socket_send, on_world, bind. rewrite Hc. done.
  - unfold readFixSize. cbn [Nat.add readFixSize_loop].
    rewrite (proj2 (Z.leb_gt length 0)) by done.
    unfold in_buffer at 1. rewrite (proj2 (Z.leb_le 0 (Z.of_nat (base.length buffer)))) by lia.
    cbn [negb]. unfold SockStream_read at 1, Socket_recv. rewrite Hc. cbn [negb]. unfold bind at 1, ret at 1.
    unfold store at 1. rewrite (proj2 (Z.leb_le (0 + Z.of_nat (base.length [])) _)) by (simpl; lia).
    unfold or_undef at 1, bind at 1, ret at 1. rewrite splice_nil.
    change (u64 (-1)) with (2 ^ 64 - 1). rewrite (proj2 (Z.leb_gt (2 ^ 64 - 1) 0)) by lia.
    assert (u64 (length - (2 ^ 64 - 1)) = length + 1) as ->.
    { unfold u64, uwrap. replace (length - (2 ^ 64 - 1)) with (length + 1 + (-1) * 2 ^ 64) by lia.
      rewrite Z_mod_plus_full. apply Z.mod_small. lia. }
    rewrite (proj2 (Z.leb_gt (length + 1) 0)) by lia.
    change (u64 (0 + (2 ^ 64 - 1))) with (2 ^ 64 - 1). unfold in_buffer.
    by rewrite (proj2 (Z.leb_gt (2 ^ 64 - 1) (Z.of_nat (base.length buffer)))) by lia.
Qed.

End errors.

(** *** Witnesses: a kernel that moves at most two bytes per call *)

Definition pipe : Type := list byte * list byte.
#[export] Instance pipe_kernel : Kernel pipe := {
  k_recv n w :=
    let d := take (Nat.min 2 (Z.to_nat n)) (fst w) in
    match d with
    | [] => Ok (-1, []) w
    | _ => Ok (Z.of_nat (length d), d) (drop (length d) (fst w), snd w)
    end;
  k_send d w :=
    let s := take 2 d in Ok (Z.of_nat (length s)) (fst w, snd w ++ s) }.

#[export] Program Instance pipe_spec : KernelSpec pipe := { incoming := fst; outgoing := snd }.
Next Obligation.
  intros n [i o] Hn. unfold k_recv, pipe_kernel. cbn [fst snd].
  pose proof (length_take i (Nat.min 2 (Z.to_nat n))) as L.
  destruct (take (Nat.min 2 (Z.to_nat n)) i) as [|b d] eqn:E.
  - exists (-1), [], (i, o). split_and!; try done; lia.
  - eexists _, (b :: d), _. split_and!; try done; try lia. cbn [fst].
    assert (length (b :: d) = Nat.min (Nat.min 2 (Z.to_nat n)) (length i)) as L' by lia.
    rewrite <- E. rewrite E, L'.
    rewrite <- (take_drop (Nat.min (Nat.min 2 (Z.to_nat n)) (length i)) i) at 1. f_equal.
    rewrite <- E. destruct (decide (Nat.min 2 (Z.to_nat n) <= length i)%nat).
    + by rewrite Nat.min_l.
    + rewrite Nat.min_r by lia. rewrite !firstn_all2 by lia. done.
Qed.
Next Obligation.
  intros d [i o] Hd. unfold k_send, pipe_kernel. cbn [fst snd].
  exists (Z.of_nat (length (take 2 d))), (i, o ++ take 2 d). split_and!; [done|lia| | |done|].
  - rewrite length_take. lia.
  - rewrite length_take. lia.
  - cbn [snd]. f_equal. rewrite length_take, Nat2Z.id.
    destruct (decide (2 <= length d)%nat); [by rewrite Nat.min_l|].
    rewrite Nat.min_r by lia. rewrite !firstn_all2 by lia. done.
Qed.

#[export] Program Instance pipe_lively : Lively pipe.
Next Obligation.
  intros n [i o] rt d w' Hn Hi. cbn [incoming pipe_spec fst] in Hi.
  unfold k_recv, pipe_kernel, fst, snd.
  pose proof (length_take i (Nat.min 2 (Z.to_nat n))) as L.
  destruct (take (Nat.min 2 (Z.to_nat n)) i) as [|b d'].
  - destruct i; [done|]. cbn [length] in L. lia.
  - intros Hr. injection Hr as <- _ _. lia.
Qed.
Next Obligation.
  intros d [i o] rt w' Hd. unfold k_send, pipe_kernel. intros [= <- _].
  destruct d as [|? d]; [done|]. rewrite length_take. simpl. lia.
Qed.

Definition live_stream (b : bool) : SockStream := mkSockStream (mkSocket 3 b) true.

Lemma readFixSize_ba_receives_witness :
  exists w' ba', readFixSize_ba 5 (@SockStream_read_ba pipe _ zeroed (live_stream true)) 5
      ((one_two, []) : pipe, @new_ByteArray zeroed 4) = Ok 5 (w', ba') /\
    incoming w' = [Byte.x06] /\ wf ba' /\
    abs ba' = spec_write (take 5 one_two) (abs (@new_ByteArray zeroed 4)).
Proof.
  refine (@readFixSize_ba_receives pipe _ _ zeroed _ (live_stream true) (one_two, [])
            (@new_ByteArray zeroed 4) 5 _ _ _ _ _).
  - reflexivity.
  - apply wf_new. lia.
  - lia.
  - unfold room. simpl. lia.
  - simpl. lia.
Defined.

Definition loaded : ByteArray :=
  seeked (default (@new_ByteArray zeroed 4) (final (@write zeroed one_two (@new_ByteArray zeroed 4)))) 0.

Lemma loaded_wf : wf loaded.
Proof.
  apply seeked_wf; [|vm_compute; split; discriminate].
  destruct (write_ok (H := zeroed) (@new_ByteArray zeroed 4) one_two) as (b & E & Hw & _).
  - apply wf_new. lia.
  - unfold room. simpl. lia.
  - rewrite E. exact Hw.
Qed.

Lemma writeFixSize_ba_sends_witness :
  exists w' ba', writeFixSize_ba 5 (SockStream_write_ba (live_stream true)) 5
      (([], []) : pipe, loaded) = Ok 5 (w', ba') /\
    outgoing w' = take 5 one_two /\ wf ba' /\ abs ba' = spec_skip 5 (abs loaded).
Proof.
  refine (writeFixSize_ba_sends (live_stream true) (([], []) : pipe) loaded 5 _ _ _ _).
  - reflexivity.
  - apply loaded_wf.
  - lia.
  - vm_compute. discriminate.
Defined.

Lemma fixSize_ignores_errors_witness :
  writeFixSize_ba 1000 (SockStream_write_ba (live_stream false)) 6 (([], []) : pipe, loaded)
    = Undef no_fuel /\
  readFixSize (T := pipe) 1002 (SockStream_read (live_stream false)) one_two 6 ([], []) = Undef out_of_bounds.
Proof.
  apply (fixSize_ignores_errors (live_stream false) (([], []) : pipe) loaded 6 1000 one_two).
  - reflexivity.
  - apply loaded_wf.
  - vm_compute. discriminate.
  - lia.
  - lia.
  - reflexivity.
Defined.
