(* ===== verification/Http.v ===== *)
(** * HTTP messages (src/wyze/http/http.h, src/wyze/http/http.cpp)

    A [std::string] is its list of bytes.  Headers are a [std::map] with the comparator
    [CaseInsensitiveLess]: a sorted association list.  [boost::lexical_cast] is a parameter. *)

From stdpp Require Import pretty.
From S2P Require Import Prelude Containers.

Abbreviation bytes := (list byte).
Definition str (s : string) : bytes := String.list_byte_of_string s.

(** ** C strings *)

(** The string [s.c_str()] points to: up to the first NUL. *)
Fixpoint c_str (s : bytes) : bytes :=
  match s with
  | [] => []
  | b :: s => if byte.unsigned b =? 0 then [] else b :: c_str s
  end.
Definition tolower (b : byte) : Z :=
  let c := byte.unsigned b in if (65 <=? c) && (c <=? 90) then c + 32 else c.
(** [strcasecmp] of two NUL-terminated strings: the difference at the first mismatch. *)
Fixpoint strcasecmp (a b : bytes) : Z :=
  match a, b with
  | [], [] => 0
  | [], y :: _ => - tolower y
  | x :: _, [] => tolower x
  | x :: a, y :: b => if tolower x =? tolower y then strcasecmp a b else tolower x - tolower y
  end.
Definition strncasecmp (a b : bytes) (n : nat) : Z := strcasecmp (take n a) (take n b).
Fixpoint strcmp (a b : bytes) : Z :=
  match a, b with
  | [], [] => 0
  | [], y :: _ => - byte.unsigned y
  | x :: _, [] => byte.unsigned x
  | x :: a, y :: b => if byte.unsigned x =? byte.unsigned y then strcmp a b
                      else byte.unsigned x - byte.unsigned y
  end.
Definition strncmp (a b : bytes) (n : nat) : Z := strcmp (take n a) (take n b).

(** ** Methods and status codes *)

Inductive HttpMethod :=
  | DELETE | GET | HEAD | POST | PUT | CONNECT | OPTIONS | TRACE | COPY | LOCK | MKCOL | MOVE
  | PROPFIND | PROPPATCH | SEARCH | UNLOCK | BIND | REBIND | UNBIND | ACL | REPORT
  | MKACTIVITY | CHECKOUT | MERGE | MSEARCH | NOTIFY | SUBSCRIBE | UNSUBSCRIBE | PATCH | PURGE
  | MKCALENDAR | LINK | UNLINK | SOURCE | INVALID_METHOD.

#[export] Instance HttpMethod_eq_dec : EqDecision HttpMethod.
Proof. solve_decision. Defined.

(** The rows [XX(num, name, string)]. *)
Definition HTTP_METHOD_MAP : list (Z * HttpMethod * bytes) := [
  (0, DELETE, str "DELETE"); (1, GET, str "GET"); (2, HEAD, str "HEAD"); (3, POST, str "POST");
  (4, PUT, str "PUT"); (5, CONNECT, str "CONNECT"); (6, OPTIONS, str "OPTIONS");
  (7, TRACE, str "TRACE"); (8, COPY, str "COPY"); (9, LOCK, str "LOCK");
  (10, MKCOL, str "MKCOL"); (11, MOVE, str "MOVE"); (12, PROPFIND, str "PROPFIND");
  (13, PROPPATCH, str "PROPPATCH"); (14, SEARCH, str "SEARCH"); (15, UNLOCK, str "UNLOCK");
  (16, BIND, str "BIND"); (17, REBIND, str "REBIND"); (18, UNBIND, str "UNBIND");
  (19, ACL, str "ACL"); (20, REPORT, str "REPORT"); (21, MKACTIVITY, str "MKACTIVITY");
  (22, CHECKOUT, str "CHECKOUT"); (23, MERGE, str "MERGE"); (24, MSEARCH, str "M-SEARCH");
  (25, NOTIFY, str "NOTIFY"); (26, SUBSCRIBE, str "SUBSCRIBE");
  (27, UNSUBSCRIBE, str "UNSUBSCRIBE"); (28, PATCH, str "PATCH"); (29, PURGE, str "PURGE");
  (30, MKCALENDAR, str "MKCALENDAR"); (31, LINK, str "LINK"); (32, UNLINK, str "UNLINK");
  (33, SOURCE, str "SOURCE")].

(** An [HttpStatus] is the [int] behind the enum; the rows [XX(code, name, desc)]. *)
Definition HTTP_STATUS_MAP : list (Z * bytes) := [
  (100, str "Continue"); (101, str "Switching Protocols"); (102, str "Processing");
  (200, str "OK"); (201, str "Created"); (202, str "Accepted");
  (203, str "Non-Authoritative Information"); (204, str "No Content");
  (205, str "Reset Content"); (206, str "Partial Content"); (207, str "Multi-Status");
  (208, str "Already Reported"); (226, str "IM Used"); (300, str "Multiple Choices");
  (301, str "Moved Permanently"); (302, str "Found"); (303, str "See Other");
  (304, str "Not Modified"); (305, str "Use Proxy"); (307, str "Temporary Redirect");
  (308, str "Permanent Redirect"); (400, str "Bad Request"); (401, str "Unauthorized");
  (402, str "Payment Required"); (403, str "Forbidden"); (404, str "Not Found");
  (405, str "Method Not Allowed"); (406, str "Not Acceptable");
  (407, str "Proxy Authentication Required"); (408, str "Request Timeout");
  (409, str "Conflict"); (410, str "Gone"); (411, str "Length Required");
  (412, str "Precondition Failed"); (413, str "Payload Too Large"); (414, str "URI Too Long");
  (415, str "Unsupported Media Type"); (416, str "Range Not Satisfiable");
  (417, str "Expectation Failed"); (421, str "Misdirected Request");
  (422, str "Unprocessable Entity"); (423, str "Locked"); (424, str "Failed Dependency");
  (426, str "Upgrade Required"); (428, str "Precondition Required");
  (429, str "Too Many Requests"); (431, str "Request Header Fields Too Large");
  (451, str "Unavailable For Legal Reasons"); (500, str "Internal Server Error");
  (501, str "Not Implemented"); (502, str "Bad Gateway"); (503, str "Service Unavailable");
  (504, str "Gateway Timeout"); (505, str "HTTP Version Not Supported");
  (506, str "Variant Also Negotiates"); (507, str "Insufficient Storage");
  (508, str "Loop Detected"); (510, str "Not Extended");
  (511, str "Network Authentication Required")].

Definition StringToHttpMethod (m : bytes) : HttpMethod :=
  match List.find (fun r => strcasecmp (snd r) (c_str m) =? 0) HTTP_METHOD_MAP with
  | Some r => snd (fst r)
  | None => INVALID_METHOD
  end.
(** [m] is what the pointer sees. *)
Definition CharsToHttpMethod (m : bytes) : HttpMethod :=
  match List.find (fun r => strncasecmp (snd r) (c_str m) (length (snd r)) =? 0) HTTP_METHOD_MAP with
  | Some r => snd (fst r)
  | None => INVALID_METHOD
  end.
Definition s_method_string : list bytes :=
  (snd <$> HTTP_METHOD_MAP) ++ [str "INVALID_METHOD"].
(** The value of an enumerator. *)
Definition method_index (m : HttpMethod) : nat :=
  match List.find (fun r => bool_decide (snd (fst r) = m)) HTTP_METHOD_MAP with
  | Some r => Z.to_nat (fst (fst r))
  | None => length HTTP_METHOD_MAP
  end.
Definition HttpMethodToString (m : HttpMethod) : bytes :=
  let idx := method_index m in
  if (length s_method_string <=? idx)%nat then str "INVALID_METHOD"
  else default [] (s_method_string !! idx).
Definition HttpStatusToString (s : Z) : bytes :=
  match List.find (fun r => fst r =? s) HTTP_STATUS_MAP with
  | Some r => snd r
  | None => str "<UNKNOWN>"
  end.

(** ** Headers *)

Definition CaseInsensitiveLess (lhs rhs : bytes) : bool := strcasecmp (c_str lhs) (c_str rhs) <? 0.

Definition MapType : Type := list (bytes * bytes).
Definition key_less (x y : bytes * bytes) : bool := CaseInsensitiveLess (fst x) (fst y).

(** [m.find(key)], [m[key] = val] (the key that is there stays), [m.erase(key)] *)
Definition map_find (key : bytes) (m : MapType) : option bytes :=
  snd <$> set_find key_less (key, []) m.
Definition map_assign (key val : bytes) (m : MapType) : MapType :=
  match set_find key_less (key, []) m with
  | Some (k, _) => below key_less (key, []) m ++ (k, val) :: tail (lower_bound key_less (key, []) m)
  | None => set_insert key_less (key, val) m
  end.
Definition map_erase (key : bytes) (m : MapType) : MapType := set_erase key_less (key, []) m.

(** [GetAs] and [CheckGetAs]: [None] is what [lexical_cast] throws. *)
Section getas.
Context {T : Type} (lexical_cast : bytes -> option T).
Definition CheckGetAs (m : MapType) (key : bytes) (def : T) : bool * T :=
  match map_find key m with
  | None => (false, def)
  | Some v => match lexical_cast v with Some t => (true, t) | None => (false, def) end
  end.
Definition GetAs (m : MapType) (key : bytes) (def : T) : T :=
  match map_find key m with
  | None => def
  | Some v => match lexical_cast v with Some t => t | None => def end
  end.
End getas.

(** ** Requests and responses *)

Record HttpRequest := mkRequest {
  rq_method : HttpMethod; rq_version : Z; rq_close : bool; rq_path : bytes; rq_query : bytes;
  rq_fragment : bytes; rq_body : bytes; rq_headers : MapType }.
Record HttpResponse := mkResponse {
  rs_status : Z; rs_version : Z; rs_close : bool; rs_body : bytes; rs_reason : bytes;
  rs_headers : MapType }.

Definition new_HttpRequest (version : Z) (close : bool) : HttpRequest :=
  mkRequest GET version close (str "/") [] [] [] [].
Definition new_HttpResponse (version : Z) (close : bool) : HttpResponse :=
  mkResponse 200 version close [] [] [].

Definition rq_with_headers (r : HttpRequest) (h : MapType) : HttpRequest :=
  mkRequest (rq_method r) (rq_version r) (rq_close r) (rq_path r) (rq_query r) (rq_fragment r)
    (rq_body r) h.
Definition rs_with_headers (r : HttpResponse) (h : MapType) : HttpResponse :=
  mkResponse (rs_status r) (rs_version r) (rs_close r) (rs_body r) (rs_reason r) h.

Definition rq_getHeader (r : HttpRequest) (key : bytes) : bytes :=
  default [] (map_find key (rq_headers r)).
Definition rq_setHeader (r : HttpRequest) (key val : bytes) : HttpRequest :=
  rq_with_headers r (map_assign key val (rq_headers r)).
Definition rq_delHeader (r : HttpRequest) (key : bytes) : HttpRequest :=
  rq_with_headers r (map_erase key (rq_headers r)).
Definition rs_getHeader (r : HttpResponse) (key : bytes) : bytes :=
  default [] (map_find key (rs_headers r)).
Definition rs_setHeader (r : HttpResponse) (key val : bytes) : HttpResponse :=
  rs_with_headers r (map_assign key val (rs_headers r)).
Definition rs_delHeader (r : HttpResponse) (key : bytes) : HttpResponse :=
  rs_with_headers r (map_erase key (rs_headers r)).

(** ** Printing *)

Definition CRLF : bytes := [Byte.x0d; Byte.x0a].
(** [os << (uint32_t)n] *)
Definition dec (n : Z) : bytes := str (pretty (Z.to_N (u32 n))).
(** [os << s.size()] *)
Definition dec_size (s : bytes) : bytes := str (pretty (N.of_nat (length s))).
Definition empty (s : bytes) : bool := match s with [] => true | _ => false end.

(** The loop over the headers, without [connection]. *)
Definition dump_headers (h : MapType) : bytes :=
  concat ((fun i => if strcasecmp (c_str (fst i)) (str "connection") =? 0 then []
                    else fst i ++ str ": " ++ snd i ++ CRLF) <$> h).
Definition dump_body (body : bytes) : bytes :=
  if negb (empty body) then str "content-length: " ++ dec_size body ++ CRLF ++ CRLF ++ body
  else CRLF.

(** [HttpRequest::dump] *)
Definition rq_dump (r : HttpRequest) : bytes :=
  HttpMethodToString (rq_method r) ++ str " " ++ rq_path r ++
  (if empty (rq_query r) then [] else str "?") ++ rq_query r ++
  (if empty (rq_fragment r) then [] else str "#") ++ rq_fragment r ++
  str " HTTP/" ++ dec (Z.shiftr (rq_version r) 4) ++ str "." ++
  dec (Z.land (rq_version r) 0x0F) ++ CRLF ++
  str "connection: " ++ (if rq_close r then str "close" else str "keep-alive") ++ CRLF ++
  dump_headers (rq_headers r) ++ dump_body (rq_body r).

(** [HttpResponse::dump] *)
Definition rs_dump (r : HttpResponse) : bytes :=
  str "HTTP/" ++ dec (Z.shiftr (rs_version r) 4) ++ str "." ++
  dec (Z.land (rs_version r) 0x0F) ++ str " " ++ dec (rs_status r) ++ str " " ++
  (if empty (rs_reason r) then HttpStatusToString (rs_status r) else rs_reason r) ++ CRLF ++
  dump_headers (rs_headers r) ++
  str "connection: " ++ (if rs_close r then str "colse" else str "keep-alive") ++ CRLF ++
  dump_body (rs_body r).
