(* ===== verification/HttpSpec.v ===== *)
(** * Header maps, methods and the printed messages *)

From stdpp Require Import pretty.
From S2P Require Import Prelude Containers Http.

(** ** Case-insensitive order *)

(** What the comparator looks at. *)
Definition fold_key (s : bytes) : list Z := tolower <$> c_str s.

(** Lexicographic order. *)
Fixpoint lexlt (a b : list Z) : bool :=
  match a, b with
  | [], [] => false
  | [], _ :: _ => true
  | _ :: _, [] => false
  | x :: a, y :: b => (x <? y) || ((x =? y) && lexlt a b)
  end.

#[export] Instance lexlt_order : WeakOrder lexlt.
Proof.
  constructor.
  - induction x as [|x a IH]; [done|]. simpl. by rewrite Z.ltb_irrefl, Z.eqb_refl, IH.
  - induction x as [|x a IH]; intros [|y b] [|z c]; simpl; try done.
    rewrite !orb_true_iff, !andb_true_iff, !Z.ltb_lt, !Z.eqb_eq. intros [?|[-> ?]] [?|[-> ?]].
    + left; lia.
    + left; lia.
    + left; lia.
    + right. split; [done|]. by eapply IH.
  - induction x as [|x a IH]; intros [|y b] [|z c]; simpl; auto.
    rewrite !orb_true_iff, !andb_true_iff, !Z.ltb_lt, !Z.eqb_eq. intros [?|[-> H]].
    + destruct (Z.lt_total x y) as [?|[->|?]]; [by left; left|by right; left|right; left; lia].
    + destruct (Z.lt_total z y) as [?|[->|?]]; [by left; left| |right; left; lia].
      destruct (IH b c H); [left; right|right; right]; done.
Qed.

Lemma tolower_pos b : byte.unsigned b <> 0 -> 0 < tolower b.
Proof. unfold tolower. pose proof (byte.unsigned_range b). destruct (_ && _); lia. Qed.

(** No NUL inside, as in what [c_str] gives. *)
Definition no_nul (s : bytes) : Prop := Forall (fun b => byte.unsigned b <> 0) s.

Lemma c_str_no_nul s : no_nul (c_str s).
Proof.
  induction s as [|b s IH]; simpl; [constructor|].
  destruct (Z.eqb_spec (byte.unsigned b) 0); [constructor|by constructor].
Qed.

Lemma c_str_id s : no_nul s -> c_str s = s.
Proof.
  induction 1 as [|b s Hb _ IH]; [done|]. simpl. by rewrite (proj2 (Z.eqb_neq _ _)), IH.
Qed.

Lemma strcasecmp_lt a b :
  no_nul a -> no_nul b -> (strcasecmp a b <? 0) = lexlt (tolower <$> a) (tolower <$> b).
Proof.
  intros Ha. revert b. induction Ha as [|x a Hx _ IH]; intros b Hb; destruct Hb as [|y b Hy Hb].
  - done.
  - simpl. pose proof (tolower_pos y Hy). apply Z.ltb_lt. lia.
  - simpl. pose proof (tolower_pos x Hx). apply Z.ltb_ge. lia.
  - simpl. destruct (Z.eqb_spec (tolower x) (tolower y)) as [->|Hne].
    + rewrite Z.ltb_irrefl. simpl. by apply IH.
    + rewrite orb_false_r. destruct (Z.ltb_spec (tolower x) (tolower y)); [apply Z.ltb_lt|apply Z.ltb_ge]; lia.
Qed.

Lemma strcasecmp_eq a b :
  no_nul a -> no_nul b -> (strcasecmp a b =? 0) = bool_decide (tolower <$> a = tolower <$> b).
Proof.
  intros Ha. revert b. induction Ha as [|x a Hx _ IH]; intros b Hb; destruct Hb as [|y b Hy Hb].
  - done.
  - cbn [strcasecmp]. pose proof (tolower_pos y Hy). rewrite (proj2 (Z.eqb_neq _ _)) by lia.
    symmetry. by apply bool_decide_eq_false_2.
  - cbn [strcasecmp]. pose proof (tolower_pos x Hx). rewrite (proj2 (Z.eqb_neq _ _)) by lia.
    symmetry. by apply bool_decide_eq_false_2.
  - cbn [strcasecmp]. rewrite !fmap_cons. destruct (Z.eqb_spec (tolower x) (tolower y)) as [E|Hne].
    + rewrite IH, E by done. apply bool_decide_ext. split; [by intros ->|congruence].
    + rewrite bool_decide_eq_false_2 by congruence. apply Z.eqb_neq. lia.
Qed.

Lemma less_fold a b : CaseInsensitiveLess a b = lexlt (fold_key a) (fold_key b).
Proof. apply strcasecmp_lt; apply c_str_no_nul. Qed.

#[export] Instance CaseInsensitiveLess_order : WeakOrder CaseInsensitiveLess.
Proof.
  constructor; intros *; rewrite ?less_fold.
  - apply wo_irrefl.
  - apply wo_trans.
  - apply wo_incomp.
Qed.

#[export] Instance key_less_order : WeakOrder key_less.
Proof.
  constructor; intros *; unfold key_less.
  - apply wo_irrefl.
  - apply wo_trans.
  - apply wo_incomp.
Qed.

Lemma lexlt_total a b : lexlt a b = false -> lexlt b a = false -> a = b.
Proof.
  revert b. induction a as [|x a IH]; intros [|y b]; simpl; try done.
  rewrite !orb_false_iff, !andb_false_iff, !Z.ltb_ge, !Z.eqb_neq. intros [? Ha] [? Hb].
  assert (x = y) as -> by lia. f_equal. apply IH; tauto.
Qed.

(** Two keys are the same for the map when they are equal up to case. *)
Definition same_key (a b : bytes) : Prop := fold_key a = fold_key b.
#[export] Instance same_key_dec a b : Decision (same_key a b).
Proof. unfold same_key. apply _. Defined.
#[export] Instance same_key_equiv : Equivalence same_key.
Proof. split; unfold same_key; red; congruence. Qed.

Lemma eqv_same_key x y : eqv key_less x y = true <-> same_key (fst x) (fst y).
Proof.
  unfold eqv, key_less, same_key. rewrite !less_fold, andb_true_iff, !negb_true_iff. split.
  - intros [? ?]. by apply lexlt_total.
  - intros ->. by rewrite wo_irrefl.
Qed.

(** ** Header maps *)

Definition valid (m : MapType) : Prop := sorted key_less m.

Lemma map_find_Some m key v :
  valid m -> map_find key m = Some v <-> exists k, (k, v) ∈ m /\ same_key key k.
Proof.
  intros Hv. unfold map_find. rewrite fmap_Some. split.
  - intros ([k v'] & E & ->). apply (set_find_Some _ _ _ _ Hv) in E as [Hin He].
    exists k. split; [done|]. by apply eqv_same_key in He.
  - intros (k & Hin & He). exists (k, v). split; [|done].
    apply (set_find_Some _ _ _ _ Hv). split; [done|]. by apply eqv_same_key.
Qed.

Lemma map_find_ext m1 m2 key :
  valid m1 -> valid m2 ->
  (forall v, (exists k, (k, v) ∈ m1 /\ same_key key k) <-> (exists k, (k, v) ∈ m2 /\ same_key key k)) ->
  map_find key m1 = map_find key m2.
Proof.
  intros H1 H2 H. apply option_eq. intros v. rewrite !map_find_Some by done. apply H.
Qed.

(** The two shapes of [m[key] = val]. *)
Lemma map_assign_spec m key val :
  valid m -> valid (map_assign key val m) /\
  exists k0, same_key key k0 /\ forall k v, (k, v) ∈ map_assign key val m <->
    (k = k0 /\ v = val) \/ ((k, v) ∈ m /\ ~ same_key key k).
Proof.
  intros Hv. unfold map_assign. destruct (set_find key_less (key, []) m) as [[k0 v0]|] eqn:E.
  - pose proof E as E'. apply (set_find_Some _ _ _ _ Hv) in E' as [Hin He].
    pose proof E as Ef. unfold set_find in Ef.
    destruct (lower_bound key_less (key, []) m) as [|[k1 v1] rest] eqn:El; [done|].
    destruct (key_less (key, []) (k1, v1)); [done|]. injection Ef as -> ->. cbn [tail].
    pose proof (below_lower key_less (key, []) m) as Eb. rewrite El in Eb.
    apply eqv_same_key in He. cbn [fst] in He.
    pose proof Hv as Hs. unfold valid in Hs. rewrite <- Eb in Hs.
    apply sorted_app in Hs as (S1 & S2 & H12).
    apply StronglySorted_inv in S2 as [S2 Hk0]. rewrite Forall_forall in Hk0.
    split.
    + apply sorted_app. split_and!; [done| |].
      * constructor; [done|]. apply Forall_forall. intros y Hy. by apply Hk0.
      * intros x y Hx [->|Hy]%elem_of_cons.
        { apply (H12 x (k0, v0) Hx). by apply elem_of_cons; left. }
        { apply H12; [done|]. by apply elem_of_cons; right. }
    + exists k0. split; [done|]. intros k v. rewrite <- Eb at 2.
      rewrite !elem_of_app, !elem_of_cons.
      assert (forall y, y ∈ below key_less (key, []) m \/ y ∈ rest -> ~ same_key key (fst y)) as Hne.
      { intros y Hy Hsame. rewrite He in Hsame.
        assert (eqv key_less (k0, v0) y = true) as Hy' by by apply eqv_same_key.
        unfold eqv in Hy'. apply andb_true_iff in Hy' as [Hy1 Hy2].
        rewrite negb_true_iff in Hy1, Hy2. destruct Hy as [Hy|Hy].
        - rewrite (H12 y (k0, v0) Hy) in Hy2; [done|by apply elem_of_cons; left].
        - by rewrite Hk0 in Hy1. }
      split.
      * intros [H|[H|H]]; [right| |right].
        { split; [by left|]. by apply (Hne (k, v)); left. }
        { injection H as -> ->. by left. }
        { split; [by right; right|]. by apply (Hne (k, v)); right. }
      * intros [[-> ->]|[[H|[H|H]] Hn]]; [by right; left|by left| |by right; right].
        injection H as -> ->. done.
  - assert (forall y, y ∈ m -> ~ same_key key (fst y)) as Hne.
    { intros y Hy Hsame. pose proof (proj1 (set_find_None _ _ _ Hv) E y Hy) as Hf.
      by rewrite (proj2 (eqv_same_key (key, []) y) Hsame) in Hf. }
    assert (set_find key_less (key, val) m = None) as E'.
    { apply (set_find_None _ _ _ Hv). intros y Hy. apply not_true_is_false.
      intros Hs%eqv_same_key. by apply (Hne y). }
    split; [by apply (set_insert_sorted _)|]. exists key. split; [done|]. intros k v.
    rewrite (elem_of_set_insert _ _ _ _ E'). split.
    + intros [H|H]; [injection H as -> ->; by left|]. right. split; [done|]. by apply (Hne (k, v)).
    + intros [[-> ->]|[H _]]; [by left|by right].
Qed.

Lemma map_assign_find m key val key' :
  valid m -> map_find key' (map_assign key val m) =
    if decide (same_key key key') then Some val else map_find key' m.
Proof.
  intros Hv. destruct (map_assign_spec m key val Hv) as (Hv' & k0 & Hk0 & Hm).
  case_decide as Hs.
  - apply map_find_Some; [done|]. exists k0. split; [apply Hm; by left|]. by rewrite <- Hs.
  - apply map_find_ext; [done|done|]. intros v. split; intros (k & Hin & Hk).
    + apply Hm in Hin as [[-> ->]|[Hin _]]; [|by exists k]. rewrite <- Hk0 in Hk. by symmetry in Hk.
    + exists k. split; [|done]. apply Hm. right. split; [done|]. rewrite <- Hk. done.
Qed.

Lemma map_erase_find m key key' :
  valid m -> valid (map_erase key m) /\
  map_find key' (map_erase key m) = if decide (same_key key key') then None else map_find key' m.
Proof.
  intros Hv. assert (valid (map_erase key m)) as Hv' by by apply (set_erase_sorted _).
  split; [done|]. unfold map_erase in *.
  destruct (set_find key_less (key, []) m) as [[k0 v0]|] eqn:E.
  - assert (forall z, z ∈ set_erase key_less (key, []) m <-> z ∈ m /\ z <> (k0, v0)) as Hm
      by (intros z; by apply (elem_of_set_erase _)).
    apply (set_find_Some _ _ _ _ Hv) in E as [Hin He]. apply eqv_same_key in He. cbn [fst] in He.
    case_decide as Hs.
    + apply eq_None_not_Some. intros [v Ev]. apply map_find_Some in Ev as (k & Hk & Hkk); [|done].
      apply Hm in Hk as [Hk Hne]. apply Hne.
      apply (sorted_eqv key_less m (k, v) (k0, v0) Hv Hk Hin).
      apply eqv_same_key. cbn [fst]. by rewrite <- Hkk, <- Hs.
    + apply map_find_ext; [done|done|]. intros v. split; intros (k & Hk & Hkk).
      * apply Hm in Hk as [Hk _]. by exists k.
      * exists k. split; [|done]. apply Hm. split; [done|]. intros [= -> ->].
        apply Hs. by rewrite He, Hkk.
  - assert (set_erase key_less (key, []) m = m) as -> by (unfold set_erase; by rewrite E).
    case_decide as Hs; [|done].
    apply eq_None_not_Some. intros [v Ev]. apply map_find_Some in Ev as (k & Hk & Hkk); [|done].
    pose proof (proj1 (set_find_None _ _ _ Hv) E (k, v) Hk) as Hf.
    rewrite (proj2 (eqv_same_key (key, []) (k, v))) in Hf; [done|]. cbn [fst]. by rewrite Hs.
Qed.

(** ** A reference reader of messages

    Lines end with CRLF, an empty line ends the head, a field is a name, a colon, a space and
    a value; what is behind the head is the body. *)

Definition is_byte (c : Z) (b : byte) : bool := byte.unsigned b =? c.

Fixpoint read_line (s : bytes) : option (bytes * bytes) :=
  match s with
  | [] => None
  | a :: s' =>
      match s' with
      | b :: s'' => if is_byte 13 a && is_byte 10 b then Some ([], s'')
                    else r ← read_line s'; Some (a :: fst r, snd r)
      | [] => None
      end
  end.

Fixpoint read_head (fuel : nat) (s : bytes) : option (list bytes * bytes) :=
  match fuel with
  | O => None
  | S fuel =>
      r ← read_line s;
      match fst r with
      | [] => Some ([], snd r)
      | l => h ← read_head fuel (snd r); Some (l :: fst h, snd h)
      end
  end.

Fixpoint read_field (l : bytes) : option (bytes * bytes) :=
  match l with
  | [] => None
  | a :: l' =>
      if is_byte 58 a then
        match l' with b :: v => if is_byte 32 b then Some ([], v) else None | [] => None end
      else r ← read_field l'; Some (a :: fst r, snd r)
  end.

Definition read_message (s : bytes) : option (bytes * list (bytes * bytes) * bytes) :=
  h ← read_head (length s) s;
  match fst h with
  | [] => None
  | start :: fields => fs ← mapM read_field fields; Some (start, fs, snd h)
  end.

(** Texts that are safe in a line, and in the name of a field. *)
Definition line_safe (l : bytes) : bool := forallb (fun b => negb (is_byte 13 b)) l.
Definition name_safe (l : bytes) : bool := forallb (fun b => negb (is_byte 13 b) && negb (is_byte 58 b)) l.

Lemma line_safe_app a b : line_safe (a ++ b) = line_safe a && line_safe b.
Proof. apply forallb_app. Qed.

Lemma name_line_safe l : name_safe l = true -> line_safe l = true.
Proof.
  unfold name_safe, line_safe. rewrite !forallb_forall. intros H b Hb. apply H in Hb.
  by apply andb_true_iff in Hb as [? _].
Qed.

Lemma read_line_ok l rest : line_safe l = true -> read_line (l ++ CRLF ++ rest) = Some (l, rest).
Proof.
  induction l as [|a l IH]; [done|]. cbn [line_safe forallb]. rewrite andb_true_iff, negb_true_iff.
  intros [Ha Hl]. specialize (IH Hl). cbn [app read_line].
  destruct (l ++ CRLF ++ rest) as [|b s] eqn:E; [by destruct l|].
  rewrite Ha. cbn [andb]. by rewrite IH.
Qed.

Lemma read_field_ok n v : name_safe n = true -> read_field (n ++ str ": " ++ v) = Some (n, v).
Proof.
  induction n as [|a n IH]; [done|]. cbn [name_safe forallb].
  rewrite andb_true_iff, andb_true_iff, !negb_true_iff. intros [[_ Ha] Hn]. cbn [app read_field].
  rewrite Ha. by rewrite IH.
Qed.

Lemma read_head_ok ls : forall fuel rest,
  Forall (fun l => l <> [] /\ line_safe l = true) ls -> (length ls < fuel)%nat ->
  read_head fuel (concat ((fun l => l ++ CRLF) <$> ls) ++ CRLF ++ rest) = Some (ls, rest).
Proof.
  induction ls as [|l ls IH]; intros [|fuel] rest Hls Hf; simpl length in Hf; [lia| |lia|].
  - done.
  - apply Forall_cons in Hls as [[Hne Hl] Hls]. rewrite fmap_cons. cbn [concat read_head].
    rewrite <- !app_assoc. rewrite read_line_ok by done. cbn [mbind option_bind fst snd].
    destruct l as [|b l]; [done|]. by rewrite IH by (done || lia).
Qed.

Lemma read_message_ok start fs body :
  start <> [] -> line_safe start = true ->
  Forall (fun f => name_safe (fst f) = true /\ line_safe (snd f) = true) fs ->
  read_message (start ++ CRLF ++ concat ((fun f => fst f ++ str ": " ++ snd f ++ CRLF) <$> fs)
                ++ CRLF ++ body) = Some (start, fs, body).
Proof.
  intros Hne Hs Hfs. unfold read_message.
  set (lines := start :: ((fun f => fst f ++ str ": " ++ snd f) <$> fs)).
  assert (start ++ CRLF ++ concat ((fun f => fst f ++ str ": " ++ snd f ++ CRLF) <$> fs) ++ CRLF ++ body
    = concat ((fun l => l ++ CRLF) <$> lines) ++ CRLF ++ body) as ->.
  { unfold lines. rewrite fmap_cons. cbn [concat]. rewrite <- !app_assoc. do 3 f_equal.
    f_equal. rewrite <- list_fmap_compose. apply list_fmap_ext. intros i [n v] _. simpl.
    by rewrite <- !app_assoc. }
  rewrite read_head_ok.
  - cbn [mbind option_bind fst snd lines].
    assert (mapM read_field ((fun f => fst f ++ str ": " ++ snd f) <$> fs) = Some fs) as ->; [|done].
    induction Hfs as [|[n v] fs [Hn _] _ IH]; [done|]. rewrite fmap_cons. cbn [mapM fst snd].
    rewrite read_field_ok by done. cbn [mbind option_bind]. by rewrite IH.
  - unfold lines. constructor; [done|]. apply Forall_fmap. eapply Forall_impl; [exact Hfs|].
    intros [n v] [Hn Hv]. cbn [compose fst snd] in *. split.
    + by destruct n.
    + rewrite !line_safe_app, (name_line_safe n), Hv by done. done.
  - assert (forall ls : list bytes, (length ls <= length (concat ((fun l => l ++ CRLF) <$> ls)))%nat) as Hlen.
    { induction ls as [|l ls IH]; [simpl; lia|]. rewrite fmap_cons. cbn [concat length].
      rewrite !length_app. change (length CRLF) with 2%nat. lia. }
    specialize (Hlen lines). rewrite !length_app. change (length CRLF) with 2%nat. lia.
Qed.

(** ** Decimal numbers *)

Definition is_digit (b : byte) : bool := (48 <=? byte.unsigned b) && (byte.unsigned b <=? 57).
Definition dec_value (s : bytes) : Z := fold_left (fun a b => a * 10 + (byte.unsigned b - 48)) s 0.

Lemma str_cons a s : str (String a s) = Ascii.byte_of_ascii a :: str s.
Proof. done. Qed.

Lemma pretty_char x :
  (x < 10)%N -> let b := Ascii.byte_of_ascii (pretty_N_char x) in
  is_digit b = true /\ byte.unsigned b = 48 + Z.of_N x.
Proof.
  intros H. assert (x = 0 \/ x = 1 \/ x = 2 \/ x = 3 \/ x = 4 \/ x = 5 \/ x = 6 \/ x = 7 \/
    x = 8 \/ x = 9)%N as Hx by lia.
  by repeat destruct Hx as [->|Hx]; [done..|]; subst x.
Qed.

Lemma pretty_go x : forall s,
  forallb is_digit (str s) = true ->
  exists p, str (pretty_N_go x s) = p ++ str s /\ forallb is_digit p = true /\
    (forall a, fold_left (fun a b => a * 10 + (byte.unsigned b - 48)) p a =
       a * 10 ^ Z.of_nat (length p) + Z.of_N x) /\ (x <> 0%N -> p <> []).
Proof.
  induction (N.lt_wf_0 x) as [x _ IH]. intros s Hs.
  destruct (decide (x = 0%N)) as [->|Hx].
  { exists []. rewrite pretty_N_go_0. split_and!; [done|done| |done]. intros a. simpl. lia. }
  rewrite pretty_N_go_step by lia. set (d := pretty_N_char (x mod 10)).
  destruct (pretty_char (x mod 10)) as [Hd Hv]; [by apply N.mod_lt|]. fold d in Hd, Hv.
  destruct (IH (x / 10)%N ltac:(apply N.div_lt; lia) (String d s)) as (p & E & Hp & Hf & _).
  { rewrite str_cons. cbn [forallb]. by rewrite Hd. }
  exists (p ++ [Ascii.byte_of_ascii d]). split_and!.
  - by rewrite E, str_cons, <- app_assoc.
  - rewrite forallb_app, Hp. cbn [forallb]. by rewrite Hd.
  - intros a. rewrite fold_left_app, Hf. cbn [fold_left]. rewrite Hv, length_app.
    cbn [length]. rewrite Nat2Z.inj_add, Z.pow_add_r by lia.
    rewrite (N.div_mod x 10) at 3 by lia. rewrite N2Z.inj_add, N2Z.inj_mul. lia.
  - intros _. by destruct p.
Qed.

Lemma pretty_dec n :
  let s := str (pretty n) in
  forallb is_digit s = true /\ dec_value s = Z.of_N n /\ s <> [].
Proof.
  unfold pretty, pretty_N. case_decide as Hn; [by subst|].
  destruct (pretty_go n "") as (p & -> & Hp & Hf & Hne); [done|].
  rewrite app_nil_r. split_and!; [done|unfold dec_value; rewrite Hf; lia|by apply Hne].
Qed.

Lemma digits_safe l : forallb is_digit l = true -> line_safe l = true.
Proof.
  unfold line_safe. rewrite !forallb_forall. intros H b Hb. apply H in Hb.
  unfold is_digit, is_byte in *. rewrite andb_true_iff, !Z.leb_le in Hb.
  apply negb_true_iff, Z.eqb_neq. lia.
Qed.

Lemma dec_safe n : line_safe (dec n) = true.
Proof. apply digits_safe. apply pretty_dec. Qed.
Lemma dec_size_safe s : line_safe (dec_size s) = true.
Proof. apply digits_safe. apply pretty_dec. Qed.
Lemma dec_size_value s : dec_value (dec_size s) = Z.of_nat (length s).
Proof.
  unfold dec_size. destruct (pretty_dec (N.of_nat (length s))) as (_ & -> & _). lia.
Qed.

(** ** Methods and status texts *)

Lemma method_table m : m <> INVALID_METHOD ->
  HttpMethodToString m <> [] /\ line_safe (HttpMethodToString m) = true /\
  StringToHttpMethod (HttpMethodToString m) = m /\
  forall rest, CharsToHttpMethod (HttpMethodToString m ++ rest) = m.
Proof. by destruct m; intros; split_and!. Qed.

Lemma status_safe s : line_safe (HttpStatusToString s) = true.
Proof.
  unfold HttpStatusToString. destruct (List.find _ _) as [r|] eqn:E; [|done].
  apply List.find_some in E as [Hin _].
  assert (forallb (fun r => line_safe (snd r)) HTTP_STATUS_MAP = true) as H by done.
  rewrite forallb_forall in H. by apply H.
Qed.

(** ** Properties *)

(** The headers of a message are a map with case-insensitive names: after [setHeader] the
    value is found under every spelling of the name and all other headers are as before, after
    [delHeader] it is not found under any, and both keep the map sorted. *)
Theorem headers_case_insensitive (r : HttpRequest) key val key' :
  valid (rq_headers r) ->
  valid (rq_headers (rq_setHeader r key val)) /\ valid (rq_headers (rq_delHeader r key)) /\
  rq_getHeader (rq_setHeader r key val) key' =
    (if decide (same_key key key') then val else rq_getHeader r key') /\
  rq_getHeader (rq_delHeader r key) key' =
    (if decide (same_key key key') then [] else rq_getHeader r key').
Proof.
  intros Hv. destruct (map_erase_find (rq_headers r) key key' Hv) as [Hd Ed].
  split_and!; [by apply map_assign_spec|done| |].
  - unfold rq_getHeader, rq_setHeader. simpl. rewrite map_assign_find by done. by case_decide.
  - unfold rq_getHeader, rq_delHeader. simpl. rewrite Ed. by case_decide.
Qed.

(** Every method prints to a text that parses back to it, and [CharsToHttpMethod], which
    compares as many characters as the name has, gives the method for every text that begins
    with its name, whatever follows. *)
Theorem method_roundtrip m rest :
  m <> INVALID_METHOD ->
  StringToHttpMethod (HttpMethodToString m) = m /\
  CharsToHttpMethod (HttpMethodToString m ++ rest) = m.
Proof. intros Hm. destruct (method_table m Hm) as (_ & _ & ? & H). by split. Qed.

(** What a message puts on the wire. *)
Definition is_connection (f : bytes * bytes) : Prop := strcasecmp (c_str (fst f)) (str "connection") = 0.
Definition fields (h : list (bytes * bytes)) : list (bytes * bytes) := filter (fun f => ~ is_connection f) h.
Definition length_field (body : bytes) : list (bytes * bytes) :=
  if empty body then [] else [(str "content-length", dec_size body)].
Definition target (r : HttpRequest) : bytes :=
  rq_path r ++ (if empty (rq_query r) then [] else str "?" ++ rq_query r) ++
  (if empty (rq_fragment r) then [] else str "#" ++ rq_fragment r).
Definition version_text (v : Z) : bytes := str "HTTP/" ++ dec (Z.shiftr v 4) ++ str "." ++ dec (Z.land v 0x0F).

Definition clean_headers (h : MapType) : Prop :=
  Forall (fun f => name_safe (fst f) = true /\ line_safe (snd f) = true) h.

Lemma dump_headers_ok h :
  dump_headers h = concat ((fun f => fst f ++ str ": " ++ snd f ++ CRLF) <$> fields h).
Proof.
  unfold dump_headers, fields. induction h as [|f h IH]; [done|]. rewrite fmap_cons. cbn [concat].
  rewrite IH. destruct (Z.eqb_spec (strcasecmp (c_str (fst f)) (str "connection")) 0) as [E|E].
  - rewrite filter_cons_False; [done|]. intros Hn. by apply Hn.
  - rewrite filter_cons_True by done. by rewrite fmap_cons.
Qed.

Lemma dump_body_ok body :
  dump_body body = concat ((fun f => fst f ++ str ": " ++ snd f ++ CRLF) <$> length_field body)
                   ++ CRLF ++ body.
Proof.
  unfold dump_body, length_field. destruct body as [|b body]; [done|].
  set (s := b :: body). change (empty s) with false. cbn [negb fmap list_fmap concat fst snd].
  rewrite app_nil_r, <- !app_assoc. done.
Qed.

Lemma clean_fields h : clean_headers h -> clean_headers (fields h).
Proof.
  unfold clean_headers. rewrite !Forall_forall. intros H f [_ Hf]%list_elem_of_filter. by apply H.
Qed.

Lemma clean_length body : clean_headers (length_field body).
Proof.
  unfold length_field. destruct (empty body); [constructor|]. constructor; [|constructor].
  split; [done|]. apply dec_size_safe.
Qed.

(** A receiver that splits the printed request into lines and fields finds the request
    line, the [connection] field from the close flag, the headers other than [connection], and
    a [content-length] when there is a body, whose value is the number of bytes behind the
    empty line, which are the body. *)
Theorem request_framing r :
  line_safe (rq_path r) = true -> line_safe (rq_query r) = true ->
  line_safe (rq_fragment r) = true -> clean_headers (rq_headers r) ->
  read_message (rq_dump r) =
    Some (HttpMethodToString (rq_method r) ++ str " " ++ target r ++ str " " ++
            version_text (rq_version r),
          (str "connection", if rq_close r then str "close" else str "keep-alive")
            :: fields (rq_headers r) ++ length_field (rq_body r),
          rq_body r) /\
  dec_value (dec_size (rq_body r)) = Z.of_nat (length (rq_body r)).
Proof.
  intros Hp Hq Hf Hh. split; [|apply dec_size_value].
  assert (HttpMethodToString (rq_method r) <> [] /\ line_safe (HttpMethodToString (rq_method r)) = true)
    as [Hne Hm] by by destruct (rq_method r).
  rewrite <- read_message_ok.
  - f_equal. unfold rq_dump, target, version_text.
    rewrite dump_headers_ok, dump_body_ok, fmap_cons, fmap_app. cbn [concat fst snd].
    rewrite concat_app, <- !app_assoc.
    destruct (rq_query r), (rq_fragment r); cbn [empty app]; rewrite <- ?app_assoc; done.
  - intros [E _]%app_eq_nil. done.
  - unfold target, version_text. rewrite !line_safe_app, Hm, Hp, !dec_safe.
    destruct (rq_query r), (rq_fragment r); cbn [empty]; rewrite ?line_safe_app, ?Hq, ?Hf; done.
  - constructor; [by destruct (rq_close r)|].
    apply Forall_app. split; [by apply clean_fields|apply clean_length].
Qed.

(** The same for a response: status line with the reason or the standard text, the headers
    other than [connection], the [connection] field, [content-length] and body; a response
    that closes says [colse]. *)
Theorem response_framing r :
  line_safe (rs_reason r) = true -> clean_headers (rs_headers r) ->
  read_message (rs_dump r) =
    Some (version_text (rs_version r) ++ str " " ++ dec (rs_status r) ++ str " " ++
            (if empty (rs_reason r) then HttpStatusToString (rs_status r) else rs_reason r),
          fields (rs_headers r) ++
            (str "connection", if rs_close r then str "colse" else str "keep-alive")
            :: length_field (rs_body r),
          rs_body r).
Proof.
  intros Hr Hh. rewrite <- read_message_ok.
  - f_equal. unfold rs_dump, version_text.
    rewrite dump_headers_ok, dump_body_ok, fmap_app, fmap_cons. rewrite concat_app. cbn [concat fst snd].
    rewrite <- !app_assoc. done.
  - done.
  - unfold version_text. rewrite !line_safe_app, !dec_safe.
    destruct (rs_reason r); cbn [empty]; [rewrite status_safe|rewrite Hr]; done.
  - apply Forall_app. split; [by apply clean_fields|].
    constructor; [by destruct (rs_close r)|apply clean_length].
Qed.

(** *** Witnesses *)

Definition sample_request : HttpRequest :=
  rq_setHeader (mkRequest POST 0x11 true (str "/a") (str "q=1") [] (str "hello") [])
    (str "Host") (str "x").

Lemma sample_valid : valid (rq_headers sample_request).
Proof. repeat constructor. Qed.

Lemma headers_case_insensitive_witness :
  rq_getHeader (rq_setHeader sample_request (str "HOST") (str "y")) (str "host") = str "y".
Proof.
  etransitivity; [exact (proj1 (proj2 (proj2 (headers_case_insensitive sample_request (str "HOST")
    (str "y") (str "host") sample_valid))))|]. reflexivity.
Defined.

Lemma method_roundtrip_witness : CharsToHttpMethod (HttpMethodToString GET ++ str "X / HTTP") = GET.
Proof. apply (method_roundtrip GET (str "X / HTTP")). discriminate. Defined.

Lemma request_framing_witness :
  read_message (rq_dump sample_request) =
    Some (str "POST /a?q=1 HTTP/1.1",
          [(str "connection", str "close"); (str "Host", str "x"); (str "content-length", str "5")],
          str "hello").
Proof.
  etransitivity; [apply (request_framing sample_request)|vm_compute; reflexivity].
  - reflexivity.
  - reflexivity.
  - reflexivity.
  - repeat constructor.
Defined.

Lemma response_framing_witness :
  read_message (rs_dump (mkResponse 404 0x11 true [] [] [])) =
    Some (str "HTTP/1.1 404 Not Found", [(str "connection", str "colse")], []).
Proof.
  etransitivity; [apply (response_framing (mkResponse 404 0x11 true [] [] []))|vm_compute; reflexivity].
  - reflexivity.
  - constructor.
Defined.
