(* ===== verification/HttpParser.v ===== *)
(** * HttpRequestParser and HttpResponseParser
    (src/wyze/http/http_parser.h, src/wyze/http/http_parser.cpp)

    The classes wrap the state machines of http11_parser.rl and httpclient_parser.rl: they
    register callbacks that fill an HttpRequest or an HttpResponse.  A state machine is an
    instance of the interface [Machine]; a run of it makes a list of calls of the callbacks,
    each with the memory its pointers see.  [boost::lexical_cast<uint64_t>] is a parameter. *)

From S2P Require Import Prelude Containers Http.

(** ** The state machines *)

(** A call of one of the callbacks: [at] is the memory from the pointer on. *)
Inductive call :=
  | request_method (at_ : bytes) (length : nat) | request_uri (at_ : bytes) (length : nat)
  | fragment (at_ : bytes) (length : nat) | request_path (at_ : bytes) (length : nat)
  | query_string (at_ : bytes) (length : nat) | http_version (at_ : bytes) (length : nat)
  | header_done (at_ : bytes) (length : nat)
  | http_field (field : bytes) (flen : nat) (value : bytes) (vlen : nat)
  | reason_phrase (at_ : bytes) (length : nat) | status_code (at_ : bytes) (length : nat)
  | chunk_size (at_ : bytes) (length : nat) | last_chunk (at_ : bytes) (length : nat).

(** [*_parser_init], [*_parser_execute(parser, data, len, off)] with the memory [data] points
    to, [*_parser_finish] and [*_parser_has_error]. *)
Class Machine (P : Type) := {
  mc_init : P;
  mc_execute : P -> bytes -> Z -> Z -> P * Z * list call;
  mc_finish : P -> Z;
  mc_has_error : P -> bool }.

(** [std::string(at, length)] *)
Definition text (at_ : bytes) (length : nat) : bytes := take length at_.

(** [atoi]: spaces, a sign, digits, clamped to [long] and truncated to [int]. *)
Definition isspace (b : byte) : bool :=
  let c := byte.unsigned b in (c =? 32) || ((9 <=? c) && (c <=? 13)).
Fixpoint digits (s : bytes) (a : Z) : Z :=
  match s with
  | [] => a
  | b :: s => let c := byte.unsigned b in
              if (48 <=? c) && (c <=? 57) then digits s (a * 10 + (c - 48)) else a
  end.
Definition clamp_long (z : Z) : Z := Z.max (- 2 ^ 63) (Z.min (2 ^ 63 - 1) z).
Fixpoint atoi (s : bytes) : Z :=
  match s with
  | [] => 0
  | b :: s' =>
      if isspace b then atoi s'
      else if byte.unsigned b =? 45 then s32 (clamp_long (- digits s' 0))
      else if byte.unsigned b =? 43 then s32 (clamp_long (digits s' 0))
      else s32 (clamp_long (digits s 0))
  end.

(** [strncmp(at, "HTTP/1.1", length)] and the other version *)
Definition version_of (at_ : bytes) (length : nat) : option Z :=
  if strncmp (c_str at_) (str "HTTP/1.1") length =? 0 then Some 0x11
  else if strncmp (c_str at_) (str "HTTP/1.0") length =? 0 then Some 0x10
  else None.

Section parsers.
Context {P : Type} `{Machine P} (lexical_cast : bytes -> option Z).

(** ** Requests *)

Record HttpRequestParser := mkRequestParser {
  qp_parser : P; qp_data : HttpRequest; qp_error : Z }.

Definition new_HttpRequestParser : HttpRequestParser :=
  mkRequestParser mc_init (new_HttpRequest 0x11 true) 0.

Definition qp_setError (p : HttpRequestParser) (v : Z) : HttpRequestParser :=
  mkRequestParser (qp_parser p) (qp_data p) v.
Definition qp_set (p : HttpRequestParser) (r : HttpRequest) : HttpRequestParser :=
  mkRequestParser (qp_parser p) r (qp_error p).

Definition rq_with_method (r : HttpRequest) (v : HttpMethod) : HttpRequest :=
  mkRequest v (rq_version r) (rq_close r) (rq_path r) (rq_query r) (rq_fragment r) (rq_body r) (rq_headers r).
Definition rq_with_version (r : HttpRequest) (v : Z) : HttpRequest :=
  mkRequest (rq_method r) v (rq_close r) (rq_path r) (rq_query r) (rq_fragment r) (rq_body r) (rq_headers r).
Definition rq_with_close (r : HttpRequest) (v : bool) : HttpRequest :=
  mkRequest (rq_method r) (rq_version r) v (rq_path r) (rq_query r) (rq_fragment r) (rq_body r) (rq_headers r).
Definition rq_with_path (r : HttpRequest) (v : bytes) : HttpRequest :=
  mkRequest (rq_method r) (rq_version r) (rq_close r) v (rq_query r) (rq_fragment r) (rq_body r) (rq_headers r).
Definition rq_with_query (r : HttpRequest) (v : bytes) : HttpRequest :=
  mkRequest (rq_method r) (rq_version r) (rq_close r) (rq_path r) v (rq_fragment r) (rq_body r) (rq_headers r).
Definition rq_with_fragment (r : HttpRequest) (v : bytes) : HttpRequest :=
  mkRequest (rq_method r) (rq_version r) (rq_close r) (rq_path r) (rq_query r) v (rq_body r) (rq_headers r).
Definition rq_with_body (r : HttpRequest) (v : bytes) : HttpRequest :=
  mkRequest (rq_method r) (rq_version r) (rq_close r) (rq_path r) (rq_query r) (rq_fragment r) v (rq_headers r).

Definition on_request_method (p : HttpRequestParser) (at_ : bytes) (length : nat) : HttpRequestParser :=
  let m := CharsToHttpMethod at_ in
  if bool_decide (m = INVALID_METHOD) then qp_setError p 1000
  else qp_set p (rq_with_method (qp_data p) m).
Definition on_request_uri (p : HttpRequestParser) (at_ : bytes) (length : nat) := p.
Definition on_request_fragment (p : HttpRequestParser) (at_ : bytes) (length : nat) :=
  qp_set p (rq_with_fragment (qp_data p) (text at_ length)).
Definition on_request_path (p : HttpRequestParser) (at_ : bytes) (length : nat) :=
  qp_set p (rq_with_path (qp_data p) (text at_ length)).
Definition on_request_query (p : HttpRequestParser) (at_ : bytes) (length : nat) :=
  qp_set p (rq_with_query (qp_data p) (text at_ length)).
Definition on_request_version (p : HttpRequestParser) (at_ : bytes) (length : nat) :=
  match version_of at_ length with
  | Some v => qp_set p (rq_with_version (qp_data p) v)
  | None => qp_setError p 1001
  end.
Definition on_request_header_done (p : HttpRequestParser) (at_ : bytes) (length : nat) := p.
Definition on_request_http_field (p : HttpRequestParser) (field : bytes) (flen : nat)
    (value : bytes) (vlen : nat) : HttpRequestParser :=
  if (flen =? 0)%nat then qp_setError p 1002
  else qp_set p (rq_setHeader (qp_data p) (text field flen) (text value vlen)).

(** The callbacks the constructor registers. *)
Definition request_call (p : HttpRequestParser) (c : call) : HttpRequestParser :=
  match c with
  | request_method a n => on_request_method p a n
  | request_uri a n => on_request_uri p a n
  | fragment a n => on_request_fragment p a n
  | request_path a n => on_request_path p a n
  | query_string a n => on_request_query p a n
  | http_version a n => on_request_version p a n
  | header_done a n => on_request_header_done p a n
  | http_field f fl v vl => on_request_http_field p f fl v vl
  | _ => p
  end.

Definition qp_execute (p : HttpRequestParser) (data : bytes) (len offset : Z) : HttpRequestParser * Z :=
  let '(m, n, calls) := mc_execute (qp_parser p) data len offset in
  (fold_left request_call calls (mkRequestParser m (qp_data p) (qp_error p)), n).
(** [reset]: the buffer with [len] bytes moved to its front, and a fresh machine. *)
Definition move_front (data : bytes) (offset len : nat) : bytes :=
  splice 0 (slice offset len data) data.
Definition qp_reset (p : HttpRequestParser) (data : bytes) (offset len : nat) : HttpRequestParser * bytes :=
  (mkRequestParser mc_init (qp_data p) (qp_error p), move_front data offset len).
Definition qp_isFinished (p : HttpRequestParser) : Z := mc_finish (qp_parser p).
Definition qp_hasError (p : HttpRequestParser) : bool :=
  negb (qp_error p =? 0) || mc_has_error (qp_parser p).
Definition qp_getContentLength (p : HttpRequestParser) : Z :=
  GetAs lexical_cast (rq_headers (qp_data p)) (str "Content-length") 0.
(** [strncasecmp(str.c_str(), "close", str.length()) == 0] *)
Definition means_close (s : bytes) : bool := strncasecmp (c_str s) (str "close") (length s) =? 0.
Definition qp_getIsClose (p : HttpRequestParser) : HttpRequestParser * bool :=
  let p' := qp_set p (rq_with_close (qp_data p) (means_close (rq_getHeader (qp_data p) (str "Connection")))) in
  (p', rq_close (qp_data p')).

(** ** Responses *)

Record HttpResponseParser := mkResponseParser {
  sp_parser : P; sp_data : HttpResponse; sp_error : Z }.

Definition new_HttpResponseParser : HttpResponseParser :=
  mkResponseParser mc_init (new_HttpResponse 0x11 true) 0.

Definition sp_setError (p : HttpResponseParser) (v : Z) : HttpResponseParser :=
  mkResponseParser (sp_parser p) (sp_data p) v.
Definition sp_set (p : HttpResponseParser) (r : HttpResponse) : HttpResponseParser :=
  mkResponseParser (sp_parser p) r (sp_error p).

Definition rs_with_status (r : HttpResponse) (v : Z) : HttpResponse :=
  mkResponse v (rs_version r) (rs_close r) (rs_body r) (rs_reason r) (rs_headers r).
Definition rs_with_version (r : HttpResponse) (v : Z) : HttpResponse :=
  mkResponse (rs_status r) v (rs_close r) (rs_body r) (rs_reason r) (rs_headers r).
Definition rs_with_close (r : HttpResponse) (v : bool) : HttpResponse :=
  mkResponse (rs_status r) (rs_version r) v (rs_body r) (rs_reason r) (rs_headers r).
Definition rs_with_body (r : HttpResponse) (v : bytes) : HttpResponse :=
  mkResponse (rs_status r) (rs_version r) (rs_close r) v (rs_reason r) (rs_headers r).
Definition rs_with_reason (r : HttpResponse) (v : bytes) : HttpResponse :=
  mkResponse (rs_status r) (rs_version r) (rs_close r) (rs_body r) v (rs_headers r).

Definition on_response_reason (p : HttpResponseParser) (at_ : bytes) (length : nat) :=
  sp_set p (rs_with_reason (sp_data p) (text at_ length)).
Definition on_response_status (p : HttpResponseParser) (at_ : bytes) (length : nat) :=
  sp_set p (rs_with_status (sp_data p) (atoi (c_str at_))).
Definition on_response_chunk (p : HttpResponseParser) (at_ : bytes) (length : nat) := p.
Definition on_response_version (p : HttpResponseParser) (at_ : bytes) (length : nat) :=
  match version_of at_ length with
  | Some v => sp_set p (rs_with_version (sp_data p) v)
  | None => sp_setError p 1001
  end.
Definition on_response_header_done (p : HttpResponseParser) (at_ : bytes) (length : nat) := p.
Definition on_response_last_chunk (p : HttpResponseParser) (at_ : bytes) (length : nat) := p.
Definition on_response_http_field (p : HttpResponseParser) (field : bytes) (flen : nat)
    (value : bytes) (vlen : nat) : HttpResponseParser :=
  if (flen =? 0)%nat then sp_setError p 1002
  else sp_set p (rs_setHeader (sp_data p) (text field flen) (text value vlen)).

Definition response_call (p : HttpResponseParser) (c : call) : HttpResponseParser :=
  match c with
  | reason_phrase a n => on_response_reason p a n
  | status_code a n => on_response_status p a n
  | chunk_size a n => on_response_chunk p a n
  | http_version a n => on_response_version p a n
  | header_done a n => on_response_header_done p a n
  | last_chunk a n => on_response_last_chunk p a n
  | http_field f fl v vl => on_response_http_field p f fl v vl
  | _ => p
  end.

Definition sp_execute (p : HttpResponseParser) (data : bytes) (len offset : Z) : HttpResponseParser * Z :=
  let '(m, n, calls) := mc_execute (sp_parser p) data len offset in
  (fold_left response_call calls (mkResponseParser m (sp_data p) (sp_error p)), n).
Definition sp_reset (p : HttpResponseParser) (data : bytes) (offset len : nat) : HttpResponseParser * bytes :=
  (mkResponseParser mc_init (sp_data p) (sp_error p), move_front data offset len).
Definition sp_isFinished (p : HttpResponseParser) : Z := mc_finish (sp_parser p).
Definition sp_hasError (p : HttpResponseParser) : bool :=
  negb (sp_error p =? 0) || mc_has_error (sp_parser p).
Definition sp_getContentLength (p : HttpResponseParser) : Z :=
  GetAs lexical_cast (rs_headers (sp_data p)) (str "content-length") 0.
Definition sp_getIsClose (p : HttpResponseParser) : HttpResponseParser * bool :=
  let p' := sp_set p (rs_with_close (sp_data p) (means_close (rs_getHeader (sp_data p) (str "connection")))) in
  (p', rs_close (sp_data p')).

End parsers.
Arguments HttpRequestParser P : clear implicits.
Arguments HttpResponseParser P : clear implicits.
