(* ===== verification/HttpParserSpec.v ===== *)
(** * What the two ends make of the connection header *)

From S2P Require Import Prelude Containers Http HttpSpec HttpParser.

(** [means_close] accepts every prefix of "close" in any case, the empty one included. *)
Lemma means_close_spec s :
  no_nul s -> means_close s = bool_decide (fold_key s `prefix_of` fold_key (str "close")).
Proof.
  intros Hs. unfold means_close, strncasecmp. rewrite c_str_id by done.
  rewrite firstn_all. rewrite strcasecmp_eq.
  - apply bool_decide_ext. unfold fold_key. rewrite c_str_id by done. rewrite (c_str_id (str "close")).
    + rewrite fmap_take. split.
      * intros E. rewrite E. exists (drop (length s) (tolower <$> str "close")). by rewrite take_drop.
      * intros [k E]. rewrite E, take_app_le by (by rewrite length_fmap).
        symmetry. apply firstn_all2. by rewrite length_fmap.
    + by apply (c_str_no_nul (str "close")).
  - done.
  - apply Forall_take. by apply (c_str_no_nul (str "close")).
Qed.

Lemma same_connection k : same_key (str "connection") k <-> strcasecmp (c_str k) (str "connection") = 0.
Proof.
  rewrite <- Z.eqb_eq. rewrite strcasecmp_eq.
  - rewrite bool_decide_eq_true. unfold same_key, fold_key. rewrite (c_str_id (str "connection")); [done|].
    by apply (c_str_no_nul (str "connection")).
  - apply c_str_no_nul.
  - by apply (c_str_no_nul (str "connection")).
Qed.

Lemma text_all s : text s (length s) = s.
Proof. apply firstn_all. Qed.

Section close.
Context {P : Type} `{Machine P}.

(** The parser after the callbacks of the header fields [fs]. *)
Definition field_call (f : bytes * bytes) : call :=
  http_field (fst f) (length (fst f)) (snd f) (length (snd f)).
Definition request_of (fs : list (bytes * bytes)) : HttpRequestParser P :=
  fold_left request_call (field_call <$> fs) new_HttpRequestParser.
Definition response_of (fs : list (bytes * bytes)) : HttpResponseParser P :=
  fold_left response_call (field_call <$> fs) new_HttpResponseParser.

Lemma request_fields fs (p : HttpRequestParser P) key v :
  valid (rq_headers (qp_data p)) -> rq_getHeader (qp_data p) key = v ->
  Forall (fun f => ~ same_key key (fst f)) fs ->
  let p' := fold_left request_call (field_call <$> fs) p in
  valid (rq_headers (qp_data p')) /\ rq_getHeader (qp_data p') key = v.
Proof.
  intros Hv Hg Hfs. revert p Hv Hg. induction Hfs as [|[n w] fs Hn _ IH]; intros p Hv Hg; [done|].
  rewrite fmap_cons. cbn [fold_left]. apply IH; cbn [request_call field_call fst snd];
    unfold on_request_http_field; destruct (length n =? 0)%nat; try done; rewrite !text_all;
    unfold qp_set; cbn [qp_data].
  - by apply map_assign_spec.
  - unfold rq_getHeader, rq_setHeader. simpl. rewrite map_assign_find by done.
    cbn [fst] in Hn. rewrite decide_False; [exact Hg|]. intros E. apply Hn. by symmetry.
Qed.

Lemma response_fields fs (p : HttpResponseParser P) key v :
  valid (rs_headers (sp_data p)) -> rs_getHeader (sp_data p) key = v ->
  Forall (fun f => ~ same_key key (fst f)) fs ->
  let p' := fold_left response_call (field_call <$> fs) p in
  valid (rs_headers (sp_data p')) /\ rs_getHeader (sp_data p') key = v.
Proof.
  intros Hv Hg Hfs. revert p Hv Hg. induction Hfs as [|[n w] fs Hn _ IH]; intros p Hv Hg; [done|].
  rewrite fmap_cons. cbn [fold_left]. apply IH; cbn [response_call field_call fst snd];
    unfold on_response_http_field; destruct (length n =? 0)%nat; try done; rewrite !text_all;
    unfold sp_set; cbn [sp_data].
  - by apply map_assign_spec.
  - unfold rs_getHeader, rs_setHeader. simpl. rewrite map_assign_find by done.
    cbn [fst] in Hn. rewrite decide_False; [exact Hg|]. intros E. apply Hn. by symmetry.
Qed.

Lemma no_connection h : Forall (fun f => ~ same_key (str "connection") (fst f)) (fields h).
Proof.
  apply Forall_forall. intros f [Hf _]%list_elem_of_filter. by rewrite same_connection.
Qed.
Lemma no_connection_length body :
  Forall (fun f => ~ same_key (str "connection") (fst f)) (length_field body).
Proof.
  unfold length_field. destruct (empty body); [constructor|]. constructor; [|constructor].
  rewrite same_connection. done.
Qed.

(** The close flag of a request reaches the server: when the header fields of a printed
    request (see [request_framing]) are fed to the callbacks of the request parser,
    [getIsClose] is the flag the client set. *)
Theorem request_close_reaches_server r :
  snd (qp_getIsClose (request_of
    ((str "connection", if rq_close r then str "close" else str "keep-alive")
       :: fields (rq_headers r) ++ length_field (rq_body r)))) = rq_close r.
Proof.
  unfold request_of. rewrite fmap_cons. cbn [fold_left].
  set (p := request_call _ _).
  assert (valid (rq_headers (qp_data p)) /\ rq_getHeader (qp_data p) (str "Connection") =
    (if rq_close r then str "close" else str "keep-alive")) as [Hv Hg].
  { subst p. destruct (rq_close r); split; first [reflexivity|repeat constructor]. }
  destruct (request_fields (fields (rq_headers r) ++ length_field (rq_body r)) p
    (str "Connection") _ Hv Hg) as [_ Hg'].
  { apply Forall_app. split; [apply no_connection|apply no_connection_length]. }
  unfold qp_getIsClose. cbn [snd qp_data qp_set rq_close rq_with_close].
  rewrite Hg'. by destruct (rq_close r).
Qed.

(** The close flag of a response does not reach the client: a response that closes is
    printed with [colse], and [getIsClose] of the response parser is false on the fields of
    every printed response. *)
Theorem response_close_is_lost r :
  snd (sp_getIsClose (response_of
    (fields (rs_headers r) ++
       (str "connection", if rs_close r then str "colse" else str "keep-alive")
       :: length_field (rs_body r)))) = false.
Proof.
  unfold response_of. rewrite fmap_app, fold_left_app, fmap_cons. cbn [fold_left].
  destruct (response_fields (fields (rs_headers r)) new_HttpResponseParser (str "connection") [])
    as [Hv _]; [constructor|done|apply no_connection|].
  set (p0 := fold_left _ (field_call <$> fields (rs_headers r)) _) in *.
  set (p := response_call p0 _).
  assert (valid (rs_headers (sp_data p)) /\ rs_getHeader (sp_data p) (str "connection") =
    (if rs_close r then str "colse" else str "keep-alive")) as [Hv' Hg].
  { subst p. cbn [response_call field_call fst snd]. unfold on_response_http_field.
    change (length (str "connection") =? 0)%nat with false. cbv iota. rewrite !text_all.
    cbn [sp_set sp_data]. split; [by apply map_assign_spec|].
    unfold rs_getHeader, rs_setHeader. cbn [rs_headers rs_with_headers].
    rewrite map_assign_find by done. by rewrite decide_True. }
  destruct (response_fields (length_field (rs_body r)) p (str "connection") _ Hv' Hg) as [_ Hg'].
  { apply no_connection_length. }
  unfold sp_getIsClose. cbn [snd sp_data sp_set rs_close rs_with_close].
  rewrite Hg'. by destruct (rs_close r).
Qed.

End close.
