(* ===== verification/HttpSession.v ===== *)
(** * HttpSession: the server's end of a connection
    (src/wyze/http/http_session.h, src/wyze/http/http_session.cpp)

    A session is a SockStream with what was read beyond the last request.  Its methods run on
    the kernel and the session; the configured sizes are arguments, since listeners may change
    them between calls. *)

From S2P Require Import Prelude ByteArray Stream Containers Http HttpParser.

Record HttpSession := mkSession {
  hs_stream : SockStream; m_left_size : Z; m_left_data : bytes }.

(** [s_http_request_buffer_size > 4096 ? s_http_request_buffer_size : 4096] *)
Definition buffer_size_of (configured : Z) : Z := if 4 * 1024 <? configured then configured else 4 * 1024.


Section session.
Context {W : Type} `{Kernel W} `{Allocator} {P : Type} `{Machine P} (lexical_cast : bytes -> option Z).

(** Fresh memory of [n] bytes. *)
Definition fresh (n : Z) : bytes := fresh_byte 0 <$> seq 0 (Z.to_nat n).

Definition new_HttpSession (configured : Z) (sock : Socket) (owner : bool) : HttpSession :=
  mkSession (mkSockStream sock owner) 0 (fresh (buffer_size_of configured)).

Definition SS : Type := W * HttpSession.

(** A method of the base class. *)
Definition on_stream {A} (m : SockStream -> M W A) : M SS A := fun s =>
  match m (hs_stream (snd s)) (fst s) with
  | Ok a w => Ok a (w, snd s) | Throw e w => Throw e (w, snd s) | Undef u => Undef u
  end.
(** [Socket::close] and [SockStream::close] *)
Definition Socket_close (sock : Socket) : Socket :=
  if m_sock sock =? -1 then sock else mkSocket (-1) false.
Definition close : M SS unit := modify (fun s =>
  let hs := snd s in
  (fst s, mkSession (mkSockStream (Socket_close (ss_sock (hs_stream hs))) (m_owner (hs_stream hs)))
            (m_left_size hs) (m_left_data hs))).

(** [saveLeftData(data, len, nparse)] *)
Definition saveLeftData (data : bytes) (len nparse : Z) : M SS unit := fun s =>
  let hs := snd s in
  let n := u64 (len - nparse) in
  if (n <=? Z.of_nat (length data)) && (n <=? Z.of_nat (length (m_left_data hs)))
  then Ok tt (fst s, mkSession (hs_stream hs) n (splice 0 (take (Z.to_nat n) data) (m_left_data hs)))
  else Undef out_of_bounds.

(** The [do] loop: [None] when the method returns [nullptr], else the parser, the buffer, how
    much was read and how much of it was parsed. *)
Fixpoint recv_loop (fuel : nat) (buffer_size : Z) (parser : HttpRequestParser P) (data : bytes)
    (offset nparse : Z) : M SS (option (HttpRequestParser P * bytes * Z * Z)) :=
  match fuel with
  | O => undef no_fuel
  | S fuel =>
      r <- on_stream (fun ss => SockStream_read ss (u64 (buffer_size - offset))) ;;
      let '(len, d) := r in
      data <- or_undef out_of_bounds (store offset d data) ;;
      if len <=? 0 then close ;;; ret None
      else
        len <- or_undef signed_overflow (sadd32 len offset) ;;
        let '(parser, nparse) := qp_execute parser data len nparse in
        if qp_hasError parser then close ;;; ret None
        else
          let offset := len in
          if negb (qp_isFinished parser =? 0) then ret (Some (parser, data, offset, nparse))
          else if offset =? s32 buffer_size then close ;;; ret None
          else recv_loop fuel buffer_size parser data offset nparse
  end.

(** The part with a message body: [None] when the method returns [nullptr]. *)
Definition recv_body (data : bytes) (offset nparse length : Z) : M SS (option bytes) :=
  let body := repeat Byte.x00 (Z.to_nat length) in
  if u64 offset <? u64 (length + nparse) then
    let copy_len := s32 (u64 (offset - nparse)) in
    if copy_len <? 0 then undef out_of_bounds else
    let body := splice 0 (slice (Z.to_nat nparse) (Z.to_nat copy_len) data) body in
    let length := if 0 <? copy_len then length - copy_len else length in
    r <- on_stream (fun ss => readFixSize (Z.to_nat length) (SockStream_read ss)
                                (drop (Z.to_nat copy_len) body) length) ;;
    let '(rt, rest) := r in
    if rt <=? 0 then ret None
    else ret (Some (take (Z.to_nat copy_len) body ++ rest))
  else
    (if negb (u64 (length + nparse) =? u64 offset)
     then saveLeftData data offset (u64 (nparse + length)) else ret tt) ;;;
    ret (Some (slice (Z.to_nat nparse) (Z.to_nat length) data)).

(** [recvRequest()] *)
Definition recvRequest (configured max_body : Z) : M SS (option HttpRequest) := fun s =>
  let buffer_size := buffer_size_of configured in
  let left_size := m_left_size (snd s) in
  let offset := s32 (if buffer_size <? left_size then 0 else left_size) in
  (data <- or_undef out_of_bounds
     (if offset =? 0 then Some (fresh (buffer_size + 1))
      else if (0 <? offset) && (offset <=? Z.of_nat (length (m_left_data (snd s))))
      then store 0 (take (Z.to_nat offset) (m_left_data (snd s))) (fresh (buffer_size + 1))
      else None) ;;
   r <- recv_loop (Z.to_nat buffer_size + 1) buffer_size new_HttpRequestParser data offset 0 ;;
   match r with
   | None => ret None
   | Some (parser, data, offset, nparse) =>
       let length := s64 (qp_getContentLength lexical_cast parser) in
       if s64 max_body <? length then ret None
       else if 0 <? length then
         b <- recv_body data offset nparse length ;;
         match b with
         | None => ret None
         | Some body =>
             let parser := qp_set parser (rq_with_body (qp_data parser) body) in
             ret (Some (qp_data (fst (qp_getIsClose parser))))
         end
       else
         saveLeftData data offset nparse ;;;
         ret (Some (qp_data (fst (qp_getIsClose parser))))
   end) s.

(** [sendResponse(rsp)] *)
Definition sendResponse (rsp : HttpResponse) : M SS Z :=
  let data := rs_dump rsp in
  on_stream (fun ss => writeFixSize (length data) (SockStream_write ss) data (Z.of_nat (length data))).

End session.
