(* ===== verification/HttpSessionSpec.v ===== *)
(** * Receiving requests, however the network splits them *)

From S2P Require Import Prelude ByteArray ByteArraySpec Stream StreamSpec Containers Http.
From S2P Require Import HttpSpec HttpParser HttpSession.

(** What the session needs of the request machine: [is_head h r] says that the bytes [h] are
    the head of a request that parses to [r]; [fed h r p n k] that the parser [p] was fed the
    first [k] bytes of [h] and returned [n].  Fed more, but not all of [h], it is neither
    finished nor in error; fed [h] and whatever follows it stops behind [h] with [r]. *)
Class RequestMachine (P : Type) `{Machine P} := {
  is_head : bytes -> HttpRequest -> Prop;
  fed : bytes -> HttpRequest -> HttpRequestParser P -> Z -> nat -> Prop;
  fed_start : forall h r, is_head h r -> fed h r new_HttpRequestParser 0 0;
  fed_more : forall h r p n k mem len, fed h r p n k -> (k <= len < length h)%nat ->
    Z.of_nat len < 2 ^ 31 -> (len <= length mem)%nat -> take len mem = take len h ->
    let '(p', n') := qp_execute p mem (Z.of_nat len) n in
    qp_hasError p' = false /\ qp_isFinished p' = 0 /\ fed h r p' n' len;
  fed_done : forall h r p n k mem len, fed h r p n k -> (k < length h)%nat ->
    (length h <= len <= length mem)%nat -> Z.of_nat len < 2 ^ 31 -> take (length h) mem = h ->
    let '(p', n') := qp_execute p mem (Z.of_nat len) n in
    qp_hasError p' = false /\ qp_isFinished p' <> 0 /\ n' = Z.of_nat (length h) /\ qp_data p' = r }.

Section session.
Context {W : Type} `{KernelSpec W} `{!Lively W} `{Allocator} {P : Type} `{RequestMachine P}.
Context (lexical_cast : bytes -> option Z).
Implicit Types (w : W) (hs : HttpSession).

Lemma on_stream_ok {A} (m : SockStream -> M W A) w hs a w' :
  m (hs_stream hs) w = Ok a w' -> on_stream m (w, hs) = Ok a (w', hs).
Proof. unfold on_stream. cbn [fst snd]. by intros ->. Qed.

Lemma buffer_size_range c : c < 2 ^ 31 -> 4096 <= buffer_size_of c < 2 ^ 31.
Proof. unfold buffer_size_of. destruct (Z.ltb_spec (4 * 1024) c); lia. Qed.

(** Storing what was read behind the first [offset] bytes. *)
Lemma store_prefix all data d offset rest :
  drop offset all = d ++ rest -> take offset data = take offset all ->
  (offset <= length all)%nat -> (offset + length d <= length data)%nat ->
  exists data', store (Z.of_nat offset) d data = Some data' /\ length data' = length data /\
    take (offset + length d) data' = take (offset + length d) all /\
    rest = drop (offset + length d) all.
Proof.
  intros Hall Ht Ho Hl. unfold store. rewrite (proj2 (Z.leb_le _ _)) by lia. rewrite Nat2Z.id.
  exists (splice offset d data). split_and!; [done|by apply length_splice| |].
  - assert (length (take offset all ++ d) = offset + length d)%nat as L
      by (rewrite length_app, length_take; lia).
    assert (take (offset + length d) all = take offset all ++ d) as ->.
    { rewrite <- (take_drop offset all) at 1. rewrite Hall, app_assoc, <- L. apply take_app_length. }
    unfold splice. rewrite Ht, app_assoc, <- L at 1. apply take_app_length.
  - rewrite <- drop_drop, Hall. by rewrite drop_app_length.
Qed.

(** The receive loop on a stream [h ++ tail]. *)
Lemma recv_loop_ok h tail r c : forall fuel w hs p data offset n,
  let all := h ++ tail in let buffer_size := buffer_size_of c in
  c < 2 ^ 31 -> open (hs_stream hs) -> fed h r p n offset -> (offset < length h)%nat ->
  Z.of_nat (length h) <= buffer_size -> Z.of_nat (length data) = buffer_size + 1 ->
  take offset data = take offset all -> incoming w = drop offset all ->
  buffer_size < Z.of_nat fuel + Z.of_nat offset ->
  exists w' p' data' k, (length h <= k <= length all)%nat /\ Z.of_nat k <= buffer_size /\
    recv_loop fuel buffer_size p data (Z.of_nat offset) n (w, hs) =
      Ok (Some (p', data', Z.of_nat k, Z.of_nat (length h))) (w', hs) /\
    qp_data p' = r /\ take k data' = take k all /\ (k <= length data')%nat /\
    incoming w' = drop k all /\ outgoing w' = outgoing w.
Proof.
  induction fuel as [|fuel IH]; intros w hs p data offset n all buffer_size Hc Ho Hfed Hlt Hh Hlen
    Ht Hi Hfuel; pose proof (buffer_size_range c Hc) as HB;
    change (buffer_size_of c) with buffer_size in HB; [lia|].
  cbn [recv_loop]. unfold u64. rewrite uwrap_id by fits.
  destruct (k_recv_ok (buffer_size - Z.of_nat offset) w) as (rt & d & w1 & Ek & Hrt & Hrt2 & Hd & Hin & Hout);
    [lia|].
  assert (0 < rt) as Hpos.
  { eapply lively_recv, Ek; [lia|]. rewrite Hi. intros E.
    assert (length (drop offset all) = 0%nat) as E0 by by rewrite E.
    unfold all in E0. rewrite length_drop, length_app in E0. lia. }
  rewrite (bind_ok _ _ _ (rt, d) (w1, hs)); [|apply on_stream_ok; unfold SockStream_read;
    by rewrite Socket_recv_open].
  assert (length (drop offset all) = length (d ++ incoming w1)) as Ll by (by rewrite <- Hi, Hin).
  rewrite length_drop, length_app in Ll.
  destruct (store_prefix all data d offset (incoming w1)) as (data1 & Es & Hl1 & Ht1 & Hi1);
    [by rewrite <- Hi|done|lia|lia|].
  rewrite Es. unfold or_undef at 1, ret at 1, bind at 1.
  rewrite (proj2 (Z.leb_gt rt 0)) by lia. unfold sadd32.
  rewrite (proj2 (in_sb_spec 32 _)) by fits. unfold or_undef at 1, ret at 1, bind at 1.
  set (k := (offset + length d)%nat) in *.
  replace (rt + Z.of_nat offset) with (Z.of_nat k) by lia.
  destruct (decide (k < length h)%nat) as [Hk|Hk].
  - pose proof (fed_more h r p n offset data1 k Hfed ltac:(lia) ltac:(lia) ltac:(lia)) as Hm.
    assert (take k data1 = take k h) as Htk.
    { rewrite Ht1. unfold all. by rewrite take_app_le by lia. }
    specialize (Hm Htk). destruct (qp_execute p data1 (Z.of_nat k) n) as [p1 n1].
    destruct Hm as (He & Hf & Hfed1). rewrite He, Hf. cbn [Z.eqb negb].
    unfold s32. rewrite swrap_id by fits.
    rewrite (proj2 (Z.eqb_neq _ _)) by lia.
    destruct (IH w1 hs p1 data1 k n1) as (w' & p' & data' & k' & Hk' & Hkb & E & Hr & Htk' & Hlk' & Hi' & Ho');
      try done; try lia.
    exists w', p', data', k'. split_and!; try done; try lia; [exact (proj2 Hk')|congruence].
  - pose proof (fed_done h r p n offset data1 k Hfed Hlt ltac:(lia) ltac:(lia)) as Hm.
    assert (take (length h) data1 = h) as Htk.
    { replace (length h) with (Nat.min (length h) k) by lia. rewrite <- take_take, Ht1.
      unfold all. rewrite take_take, take_app_le by lia. apply firstn_all2. lia. }
    specialize (Hm Htk). destruct (qp_execute p data1 (Z.of_nat k) n) as [p1 n1].
    destruct Hm as (He & Hf & -> & Hr). rewrite He. rewrite (proj2 (Z.eqb_neq _ _)) by done. cbn [negb].
    exists w1, p1, data1, k. split_and!; try done; try lia.
Qed.

Lemma slice_prefix (h body data : bytes) k :
  take k data = take k (h ++ body) -> (length h <= k <= length (h ++ body))%nat -> (k <= length data)%nat ->
  slice (length h) (k - length h) data = take (k - length h) body.
Proof.
  intros Ht Hk Hl. unfold slice. rewrite take_drop_commute.
  replace (length h + (k - length h))%nat with k by lia. rewrite Ht, take_app_ge by lia.
  by rewrite drop_app_length.
Qed.

(** The body, of which [k - length h] bytes are in the buffer and the others still come. *)
Lemma recv_body_ok h body data k w hs :
  open (hs_stream hs) -> 0 < Z.of_nat (length body) < 2 ^ 31 -> Z.of_nat (length h) < 2 ^ 31 ->
  (length h <= k <= length (h ++ body))%nat -> take k data = take k (h ++ body) -> (k <= length data)%nat ->
  Z.of_nat k < 2 ^ 31 -> incoming w = drop k (h ++ body) ->
  exists w', recv_body data (Z.of_nat k) (Z.of_nat (length h)) (Z.of_nat (length body)) (w, hs) =
      Ok (Some body) (w', hs) /\ incoming w' = [] /\ outgoing w' = outgoing w.
Proof.
  intros Ho Hb Hh Hk Ht Hl Hk2 Hi. rewrite length_app in Hk.
  assert (slice (length h) (k - length h) data = take (k - length h) body) as Hsl
    by (apply slice_prefix; rewrite ?length_app; (done || lia)).
  set (c := (k - length h)%nat) in *.
  unfold recv_body, u64. rewrite !(uwrap_id 64) by fits.
  rewrite drop_app_ge in Hi by lia. fold c in Hi.
  destruct (Z.ltb_spec (Z.of_nat k) (Z.of_nat (length body) + Z.of_nat (length h))) as [Hmore|Hall].
  - replace (Z.of_nat k - Z.of_nat (length h)) with (Z.of_nat c) by lia.
    unfold s32. rewrite (swrap_id 32 (Z.of_nat c)) by fits.
    rewrite (proj2 (Z.ltb_ge (Z.of_nat c) 0)) by lia. rewrite !Nat2Z.id, Hsl.
    set (body0 := splice 0 (take c body) (repeat Byte.x00 (length body))).
    assert (length body0 = length body) as L0.
    { unfold body0. rewrite length_splice, repeat_length; [done|]. rewrite repeat_length, length_take. lia. }
    assert (take c body0 = take c body) as T0.
    { unfold body0, splice. rewrite take_0. simpl.
      rewrite take_app_le by (rewrite length_take; lia). by rewrite take_take, Nat.min_id. }
    assert ((if 0 <? Z.of_nat c then Z.of_nat (length body) - Z.of_nat c else Z.of_nat (length body))
      = Z.of_nat (length body - c)) as -> by (destruct (Z.ltb_spec 0 (Z.of_nat c)); lia).
    rewrite Nat2Z.id.
    destruct (readFixSize_loop_ok (hs_stream hs) (Z.of_nat (length body - c)) (length body - c) w
      (drop c body0) 0 (Z.of_nat (length body - c))) as (w' & E & Hi' & Hout);
      rewrite ?length_drop, ?Hi; try done; try lia.
    { rewrite length_drop. lia. }
    assert (readFixSize (length body - c) (SockStream_read (hs_stream hs)) (drop c body0)
      (Z.of_nat (length body - c)) w =
      Ok (Z.of_nat (length body - c), drop c body) w') as E'.
    { unfold readFixSize. rewrite E, Hi. f_equal. f_equal.
      - apply swrap_id; [done|]. fits.
      - rewrite Nat2Z.id. change (Z.to_nat 0) with 0%nat. unfold splice. rewrite take_0. simpl.
        rewrite (drop_ge (drop c body0)) by (rewrite length_take, !length_drop; lia).
        rewrite app_nil_r. apply firstn_all2. rewrite length_drop. lia. }
    exists w'. run (on_stream_ok _ w hs _ w' E').
    rewrite (proj2 (Z.leb_gt _ 0)) by lia. unfold ret. split_and!; [|rewrite Hi', Hi, Nat2Z.id|done].
    + do 2 f_equal. rewrite T0. apply take_drop.
    + rewrite drop_drop. apply drop_ge. lia.
  - rewrite (proj2 (Z.eqb_eq _ _)) by lia. cbn [negb]. unfold bind, ret.
    exists w. split_and!; [|rewrite Hi; apply drop_ge; lia|done]. do 2 f_equal.
    rewrite !Nat2Z.id. replace (length body) with c by lia. rewrite Hsl. apply firstn_all2. lia.
Qed.

Lemma recv_start h r c : is_head h r -> c < 2 ^ 31 -> Z.of_nat (length h) <= buffer_size_of c ->
  (0 < length h)%nat -> Z.of_nat (length (fresh (buffer_size_of c + 1))) = buffer_size_of c + 1.
Proof.
  intros _ Hc _ _. unfold fresh. rewrite length_fmap, length_seq.
  pose proof (buffer_size_range c Hc). lia.
Qed.

(** The request as the caller gets it. *)
Definition delivered (r : HttpRequest) (body : bytes) : HttpRequest :=
  let r := if empty body then r else rq_with_body r body in
  rq_with_close r (means_close (rq_getHeader r (str "Connection"))).

Lemma recvRequest_ok c max_body h r body w hs :
  open (hs_stream hs) -> m_left_size hs = 0 -> is_head h r -> (0 < length h)%nat -> c < 2 ^ 31 ->
  Z.of_nat (length h) <= buffer_size_of c ->
  GetAs lexical_cast (rq_headers r) (str "Content-length") 0 = Z.of_nat (length body) ->
  Z.of_nat (length body) < 2 ^ 31 -> Z.of_nat (length body) <= max_body < 2 ^ 63 ->
  incoming w = h ++ body ->
  exists w' hs', recvRequest lexical_cast c max_body (w, hs) = Ok (Some (delivered r body)) (w', hs') /\
    incoming w' = [] /\ outgoing w' = outgoing w /\ m_left_size hs' = 0 /\ hs_stream hs' = hs_stream hs.
Proof.
  intros Ho Hleft Hhead Hh0 Hc Hh Hcl Hb Hmax Hi.
  pose proof (buffer_size_range c Hc) as HB. pose proof (recv_start h r c Hhead Hc Hh Hh0) as Lf.
  destruct (recv_loop_ok h body r c (Z.to_nat (buffer_size_of c) + 1) w hs new_HttpRequestParser
    (fresh (buffer_size_of c + 1)) 0 0) as (w1 & p & data & k & Hk & Hkb & E & Hr & Ht & Hkl & Hi1 & Ho1);
    try done; try lia; [by apply fed_start|].
  unfold recvRequest. cbn [snd]. rewrite Hleft.
  rewrite (proj2 (Z.ltb_ge (buffer_size_of c) 0)) by lia. change (s32 0) with 0.
  cbn [Z.eqb]. unfold or_undef at 1, ret at 1, bind at 1.
  run E. unfold qp_getContentLength. rewrite Hr, Hcl.
  unfold s64. rewrite !(swrap_id 64) by fits.
  rewrite (proj2 (Z.ltb_ge max_body _)) by lia. unfold delivered.
  destruct body as [|b body].
  - change (0 <? Z.of_nat (length [])) with false. cbv iota.
    rewrite app_nil_r in *. assert (k = length h) as -> by lia.
    unfold saveLeftData, bind. cbn [fst snd]. rewrite Z.sub_diag. change (u64 0) with 0.
    rewrite !(proj2 (Z.leb_le 0 _)) by lia. cbn [andb].
    eexists w1, _. split_and!; [unfold ret, qp_getIsClose; cbn [fst qp_data qp_set]; by rewrite Hr| |done|done|done].
    rewrite Hi1. apply drop_ge. lia.
  - rewrite (proj2 (Z.ltb_lt 0 _)) by (cbn [length]; lia).
    destruct (recv_body_ok h (b :: body) data k w1 hs) as (w2 & E2 & Hi2 & Ho2);
      try done; try lia.
    run E2. exists w2, hs. by split_and!; try done; try congruence.
Qed.

(** A request without a body, with more behind it: [k] bytes were read. *)
Lemma recvRequest_left c max_body h r tail w hs :
  open (hs_stream hs) -> m_left_size hs = 0 -> is_head h r -> (0 < length h)%nat -> c < 2 ^ 31 ->
  Z.of_nat (length h) <= buffer_size_of c -> buffer_size_of c <= Z.of_nat (length (m_left_data hs)) ->
  GetAs lexical_cast (rq_headers r) (str "Content-length") 0 = 0 -> 0 <= max_body < 2 ^ 63 ->
  incoming w = h ++ tail ->
  exists k w' hs', (length h <= k <= length (h ++ tail))%nat /\
    recvRequest lexical_cast c max_body (w, hs) = Ok (Some (delivered r [])) (w', hs') /\
    incoming w' = drop (k - length h) tail /\ m_left_size hs' = Z.of_nat (k - length h) /\
    take (k - length h) (m_left_data hs') = take (k - length h) (h ++ tail).
Proof.
  intros Ho Hleft Hhead Hh0 Hc Hh Hcap Hcl Hmax Hi.
  pose proof (buffer_size_range c Hc) as HB. pose proof (recv_start h r c Hhead Hc Hh Hh0) as Lf.
  destruct (recv_loop_ok h tail r c (Z.to_nat (buffer_size_of c) + 1) w hs new_HttpRequestParser
    (fresh (buffer_size_of c + 1)) 0 0) as (w1 & p & data & k & Hk & Hkb & E & Hr & Ht & Hkl & Hi1 & Ho1);
    try done; try lia; [by apply fed_start|].
  unfold recvRequest. cbn [snd]. rewrite Hleft.
  rewrite (proj2 (Z.ltb_ge (buffer_size_of c) 0)) by lia. change (s32 0) with 0.
  cbn [Z.eqb]. unfold or_undef at 1, ret at 1, bind at 1.
  run E. unfold qp_getContentLength. rewrite Hr, Hcl.
  change (s64 0) with 0. unfold s64. rewrite (swrap_id 64) by fits.
  rewrite (proj2 (Z.ltb_ge max_body 0)) by lia. change (0 <? 0) with false. cbv iota.
  unfold saveLeftData, bind. cbn [fst snd].
  replace (Z.of_nat k - Z.of_nat (length h)) with (Z.of_nat (k - length h)) by lia.
  unfold u64. rewrite uwrap_id by fits.
  rewrite !(proj2 (Z.leb_le _ _)) by lia. cbn [andb]. rewrite Nat2Z.id.
  eexists k, w1, _. split_and!;
    [lia|apply Hk|unfold ret, qp_getIsClose; cbn [fst qp_data qp_set]; by rewrite Hr| |done|].
  - rewrite Hi1. by rewrite drop_app_ge by lia.
  - cbn [m_left_data]. unfold splice. rewrite take_0. cbn [app].
    rewrite take_app_le by (rewrite length_take; lia). rewrite take_take, Nat.min_id.
    assert (take (k - length h) (take k data) = take (k - length h) (take k (h ++ tail))) as E2
      by (by rewrite Ht).
    rewrite !take_take, !Nat.min_l in E2 by lia. exact E2.
Qed.

(** ** Properties *)

(** C28: a request with its body is received whole whatever pieces the network delivers it in:
    when the stream holds the head of a request, of at most the buffer size, and a body of the
    announced length, [recvRequest] returns the request with that body and the close flag of
    its [Connection] header, and has taken exactly these bytes from the socket. *)
Theorem recvRequest_fragmented c max_body h r body w hs :
  open (hs_stream hs) -> m_left_size hs = 0 -> is_head h r -> (0 < length h)%nat -> c < 2 ^ 31 ->
  Z.of_nat (length h) <= buffer_size_of c ->
  GetAs lexical_cast (rq_headers r) (str "Content-length") 0 = Z.of_nat (length body) ->
  Z.of_nat (length body) < 2 ^ 31 -> Z.of_nat (length body) <= max_body < 2 ^ 63 ->
  incoming w = h ++ body ->
  exists w' hs', recvRequest lexical_cast c max_body (w, hs) = Ok (Some (delivered r body)) (w', hs') /\
    incoming w' = [] /\ outgoing w' = outgoing w /\ m_left_size hs' = 0 /\ hs_stream hs' = hs_stream hs.
Proof. apply recvRequest_ok. Qed.

(** What is read beyond a request is not kept: when more bytes follow a request without
    body and the last read takes some of them, [saveLeftData] copies as many bytes from the
    start of the buffer, which are the beginning of the request just handled; the bytes
    themselves are gone from the socket. *)
Theorem pipelined_bytes_lost c max_body h r tail w hs :
  open (hs_stream hs) -> m_left_size hs = 0 -> is_head h r -> (0 < length h)%nat -> c < 2 ^ 31 ->
  Z.of_nat (length h) <= buffer_size_of c -> buffer_size_of c <= Z.of_nat (length (m_left_data hs)) ->
  GetAs lexical_cast (rq_headers r) (str "Content-length") 0 = 0 -> 0 <= max_body < 2 ^ 63 ->
  incoming w = h ++ tail ->
  exists k w' hs', (length h <= k <= length (h ++ tail))%nat /\
    recvRequest lexical_cast c max_body (w, hs) = Ok (Some (delivered r [])) (w', hs') /\
    incoming w' = drop (k - length h) tail /\ m_left_size hs' = Z.of_nat (k - length h) /\
    take (k - length h) (m_left_data hs') = take (k - length h) (h ++ tail).
Proof. apply recvRequest_left. Qed.

(** Sending, shared with what calls it. *)
Lemma sendResponse_ok rsp w hs :
  open (hs_stream hs) -> Z.of_nat (length (rs_dump rsp)) < 2 ^ 31 ->
  exists w', sendResponse rsp (w, hs) = Ok (Z.of_nat (length (rs_dump rsp))) (w', hs) /\
    outgoing w' = outgoing w ++ rs_dump rsp /\ incoming w' = incoming w.
Proof.
  intros Ho Hl. set (d := rs_dump rsp) in *.
  destruct (writeFixSize_loop_ok (hs_stream hs) (Z.of_nat (length d)) (length d) w d 0 (Z.of_nat (length d)))
    as (w' & E & Hi & Hout); try done; try lia.
  exists w'. split_and!; [|exact Hout|done]. unfold sendResponse. fold d. apply on_stream_ok.
  unfold writeFixSize. rewrite E. f_equal. apply swrap_id; [done|]. fits.
Qed.

End session.

(** *** Witnesses: a machine whose heads are a path and a newline *)

Definition line_machine : Type := bool.
Definition line_head (h : bytes) (r : HttpRequest) : Prop :=
  exists p, h = p ++ [Byte.x0a] /\ line_safe p = true /\ Forall (fun b => b <> Byte.x0a) p /\
    r = rq_with_path (new_HttpRequest 0x11 true) p.
Fixpoint newline_at (s : bytes) : option nat :=
  match s with
  | [] => None
  | b :: s => if is_byte 10 b then Some 0%nat else Nat.succ <$> newline_at s
  end.
#[export] Instance line_mc : Machine line_machine := {
  mc_init := false;
  mc_execute m mem len off :=
    match newline_at (take (Z.to_nat len) mem) with
    | Some i => (true, Z.of_nat (i + 1), [request_path mem i])
    | None => (false, len, [])
    end;
  mc_finish m := if m then 1 else 0;
  mc_has_error m := false }.

Lemma newline_at_app p s : Forall (fun b => b <> Byte.x0a) p -> newline_at (p ++ Byte.x0a :: s) = Some (length p).
Proof.
  induction 1 as [|b p Hb _ IH]; [done|]. cbn [app newline_at]. rewrite IH.
  assert (is_byte 10 b = false) as ->; [|done].
  apply Z.eqb_neq. intros E. apply Hb. rewrite <- (byte.of_Z_unsigned b), E. done.
Qed.

Lemma newline_at_none p : Forall (fun b => b <> Byte.x0a) p -> newline_at p = None.
Proof.
  induction 1 as [|b p Hb _ IH]; [done|]. cbn [newline_at]. rewrite IH.
  assert (is_byte 10 b = false) as ->; [|done].
  apply Z.eqb_neq. intros E. apply Hb. rewrite <- (byte.of_Z_unsigned b), E. done.
Qed.

#[export] Program Instance line_rm : RequestMachine line_machine := {
  is_head := line_head;
  fed h r p n k := line_head h r /\ p = new_HttpRequestParser }.
Next Obligation. done. Qed.
Next Obligation.
  intros h r p n k mem len [(q & -> & Hs & Hq & ->) ->] Hk _ _ Ht.
  unfold qp_execute. cbn [mc_execute line_mc qp_parser]. rewrite Nat2Z.id, Ht.
  rewrite length_app in Hk. cbn [length] in Hk. rewrite take_app_le by lia.
  rewrite newline_at_none by by apply Forall_take.
  split_and!; [done|done|by exists q|done].
Qed.
Next Obligation.
  intros h r p n k mem len [(q & -> & Hs & Hq & ->) ->] Hk Hl _ Ht.
  unfold qp_execute. cbn [mc_execute line_mc qp_parser]. rewrite Nat2Z.id.
  assert (take len mem = q ++ Byte.x0a :: drop (length (q ++ [Byte.x0a])) (take len mem)) as ->.
  { rewrite <- (take_drop (length (q ++ [Byte.x0a])) (take len mem)) at 1.
    rewrite take_take, Nat.min_l by lia. rewrite Ht. by rewrite <- app_assoc. }
  rewrite newline_at_app by done. rewrite length_app in *. cbn [length] in *.
  split_and!; [done|done|lia|]. cbn. unfold on_request_path, qp_set, text. cbn.
  unfold rq_with_path. cbn. f_equal.
  assert (take (length q) (take (length q + 1) mem) = q) as Hq' by (rewrite Ht; apply take_app_length).
  rewrite take_take, Nat.min_l in Hq' by lia. exact Hq'.
Qed.

Definition no_number : bytes -> option Z := fun _ => None.
Definition session0 (left_cap : Z) : HttpSession :=
  @new_HttpSession zeroed left_cap (mkSocket 3 true) true.

Lemma line_abc : line_head (str "abc" ++ [Byte.x0a]) (rq_with_path (new_HttpRequest 0x11 true) (str "abc")).
Proof. exists (str "abc"). split_and!; [done|done|repeat constructor; discriminate|done]. Qed.

Definition abc_request : HttpRequest := rq_with_path (new_HttpRequest 0x11 true) (str "abc").

Lemma recvRequest_fragmented_witness :
  exists w' hs', @recvRequest pipe _ zeroed line_machine _ no_number 0 100
      ((str "abc" ++ [Byte.x0a], []), session0 0) = Ok (Some (delivered abc_request [])) (w', hs') /\
    incoming w' = [] /\ outgoing w' = [] /\ m_left_size hs' = 0 /\
    hs_stream hs' = hs_stream (session0 0).
Proof.
  refine (@recvRequest_fragmented pipe _ _ _ zeroed line_machine _ _ no_number 0 100
    (str "abc" ++ [Byte.x0a]) abc_request [] (str "abc" ++ [Byte.x0a], []) (session0 0)
    _ _ line_abc _ _ _ _ _ _ _).
  - reflexivity.
  - reflexivity.
  - vm_compute. lia.
  - lia.
  - vm_compute. discriminate.
  - reflexivity.
  - reflexivity.
  - simpl. lia.
  - reflexivity.
Defined.

Lemma pipelined_bytes_lost_witness :
  exists k w' hs', (4 <= k <= 9)%nat /\
    @recvRequest pipe _ zeroed line_machine _ no_number 0 100
      ((str "abc" ++ [Byte.x0a] ++ str "wxyz" ++ [Byte.x0a], []), session0 0)
      = Ok (Some (delivered abc_request [])) (w', hs') /\
    incoming w' = drop (k - 4) (str "wxyz" ++ [Byte.x0a]) /\ m_left_size hs' = Z.of_nat (k - 4) /\
    take (k - 4) (m_left_data hs') =
      take (k - 4) ((str "abc" ++ [Byte.x0a]) ++ str "wxyz" ++ [Byte.x0a]).
Proof.
  refine (@pipelined_bytes_lost pipe _ _ _ zeroed line_machine _ _ no_number 0 100
    (str "abc" ++ [Byte.x0a]) abc_request (str "wxyz" ++ [Byte.x0a])
    (str "abc" ++ [Byte.x0a] ++ str "wxyz" ++ [Byte.x0a], []) (session0 0)
    _ _ line_abc _ _ _ _ _ _ _).
  - reflexivity.
  - reflexivity.
  - vm_compute. lia.
  - lia.
  - vm_compute. discriminate.
  - vm_compute. discriminate.
  - reflexivity.
  - lia.
  - reflexivity.
Defined.
