(* ===== verification/HttpConnection.v ===== *)
(** * HttpConnection and HttpConnectionPool: the client's end
    (src/wyze/http/http_connection.h, src/wyze/http/http_connection.cpp)

    A connection is a SockStream with what was read beyond the last response.  The texts of an
    HttpResult are left out.  Here a connection is on one kernel's [Kernel]; Client puts it on the
    socket it is made from, and looks up and connects addresses. *)

From S2P Require Import Prelude ByteArray Stream Containers Http HttpParser HttpSession.

Record HttpConnection := mkConnection {
  hc_stream : SockStream; left_size : Z; left_data : bytes; m_createTimes : Z; m_request : Z }.

(** The fields of the C parser that recvResponse reads. *)
Class ClientMachine (P : Type) `{Machine P} := {
  cm_chunked : P -> bool; cm_content_len : P -> Z; cm_chunks_done : P -> bool }.

Section connection.
Context {W : Type} `{Kernel W} `{Allocator} {P : Type} `{ClientMachine P}
  (lexical_cast : bytes -> option Z).

Definition new_HttpConnection (configured now : Z) (sock : Socket) (owner : bool) : HttpConnection :=
  mkConnection (mkSockStream sock owner) 0 (fresh (buffer_size_of configured)) now 0.

Definition CS : Type := W * HttpConnection.

Definition on_conn {A} (m : SockStream -> M W A) : M CS A := fun s =>
  match m (hc_stream (snd s)) (fst s) with
  | Ok a w => Ok a (w, snd s) | Throw e w => Throw e (w, snd s) | Undef u => Undef u
  end.
Definition conn_close : M CS unit := modify (fun s =>
  let hc := snd s in
  (fst s, mkConnection (mkSockStream (Socket_close (ss_sock (hc_stream hc))) (m_owner (hc_stream hc)))
            (left_size hc) (left_data hc) (m_createTimes hc) (m_request hc))).

(** [saveLeftData(data, len, nparse)] *)
Definition conn_saveLeftData (data : bytes) (len nparse : Z) : M CS unit := fun s =>
  let hc := snd s in
  let n := u64 (len - nparse) in
  if (n <=? Z.of_nat (length data)) && (n <=? Z.of_nat (length (left_data hc)))
  then Ok tt (fst s, mkConnection (hc_stream hc) n (splice 0 (take (Z.to_nat n) data) (left_data hc))
                       (m_createTimes hc) (m_request hc))
  else Undef out_of_bounds.

(** The inner [do] loop, for the head and again for every chunk header. *)
Fixpoint parse_loop (fuel : nat) (buffer_size : Z) (parser : HttpResponseParser P) (data : bytes)
    (offset nparse : Z) : M CS (option (HttpResponseParser P * bytes * Z * Z)) :=
  match fuel with
  | O => undef no_fuel
  | S fuel =>
      r <- on_conn (fun ss => SockStream_read ss (u64 (buffer_size - offset))) ;;
      let '(len, d) := r in
      data <- or_undef out_of_bounds (store offset d data) ;;
      if len <=? 0 then conn_close ;;; ret None
      else
        len <- or_undef signed_overflow (sadd32 len offset) ;;
        data <- or_undef out_of_bounds (store len [Byte.x00] data) ;;
        let '(parser, nparse) := sp_execute parser data len nparse in
        if sp_hasError parser then conn_close ;;; ret None
        else
          let offset := len in
          if negb (sp_isFinished parser =? 0) then ret (Some (parser, data, offset, nparse))
          else if offset =? s32 buffer_size then conn_close ;;; ret None
          else parse_loop fuel buffer_size parser data offset nparse
  end.

(** The [while(left > 0)] loop: the rest of a chunk and its CRLF, read to the front of the
    buffer and appended. *)
Fixpoint chunk_rest (fuel : nat) (buffer_size : Z) (data body : bytes) (left : Z)
    : M CS (option (bytes * bytes)) :=
  if left <=? 0 then ret (Some (data, body)) else
  match fuel with
  | O => undef no_fuel
  | S fuel =>
      r <- on_conn (fun ss => SockStream_read ss (if s32 buffer_size <? left then buffer_size else left)) ;;
      let '(rt, d) := r in
      data <- or_undef out_of_bounds (store 0 d data) ;;
      if rt <=? 0 then conn_close ;;; ret None
      else chunk_rest fuel buffer_size data (body ++ take (Z.to_nat rt) data) (left - rt)
  end.

(** [data + from], [n] bytes *)
Definition from_buffer (from n : Z) (data : bytes) : option bytes :=
  if (0 <=? from) && (0 <=? n) && (from + n <=? Z.of_nat (length data))
  then Some (slice (Z.to_nat from) (Z.to_nat n) data) else None.

(** The outer loop over chunks. *)
Fixpoint chunk_loop (fuel : nat) (buffer_size max_body : Z) (parser : HttpResponseParser P)
    (data body : bytes) (offset nparse : Z)
    : M CS (option (HttpResponseParser P * bytes * bytes * Z * Z)) :=
  match fuel with
  | O => undef no_fuel
  | S fuel =>
      let offset := s32 (u64 (offset - nparse)) in
      let '(parser, data) := sp_reset parser data (Z.to_nat nparse) (Z.to_nat offset) in
      r <- parse_loop (Z.to_nat buffer_size + 1) buffer_size parser data offset 0 ;;
      match r with
      | None => ret None
      | Some (parser, data, offset, nparse) =>
          let content_len := cm_content_len (sp_parser parser) in
          need <- or_undef signed_overflow (sadd32 content_len 2) ;;
          b <- (if need <=? s32 (u64 (offset - nparse)) then
                  d <- (if content_len <? 0 then throw (logic_error "basic_string::append")
                        else or_undef out_of_bounds (from_buffer nparse content_len data)) ;;
                  ret (Some (data, body ++ d, offset, u64 (nparse + content_len + 2)))
                else
                  d <- or_undef out_of_bounds (from_buffer nparse (u64 (offset - nparse)) data) ;;
                  let left := s32 (u64 (content_len - (offset - nparse) + 2)) in
                  x <- chunk_rest (Z.to_nat left) buffer_size data (body ++ d) left ;;
                  match x with
                  | None => ret None
                  | Some (data, body) =>
                      if (length body <? 2)%nat then throw (logic_error "basic_string::resize")
                      else ret (Some (data, take (length body - 2) body, 0, 0))
                  end) ;;
          match b with
          | None => ret None
          | Some (data, body, offset, nparse) =>
              if max_body <? Z.of_nat (length body) then conn_close ;;; ret None
              else if cm_chunks_done (sp_parser parser) then ret (Some (parser, data, body, offset, nparse))
              else chunk_loop fuel buffer_size max_body parser data body offset nparse
          end
      end
  end.

(** The body of a response with a length. *)
Definition sized_body (data : bytes) (offset nparse length : Z) : M CS (option bytes) :=
  let body := repeat Byte.x00 (Z.to_nat length) in
  if u64 offset <? u64 (length + nparse) then
    d <- or_undef out_of_bounds (from_buffer nparse offset data) ;;
    body <- or_undef out_of_bounds (store 0 d body) ;;
    let length := s64 (u64 (length + nparse - offset)) in
    let at_ := u64 (offset - nparse) in
    r <- on_conn (fun ss => readFixSize (Z.to_nat length) (SockStream_read ss)
                              (drop (Z.to_nat at_) body) length) ;;
    let '(rt, rest) := r in
    if rt <=? 0 then conn_close ;;; ret None
    else ret (Some (take (Z.to_nat at_) body ++ rest))
  else
    d <- or_undef out_of_bounds (from_buffer nparse length data) ;;
    conn_saveLeftData data offset (u64 (nparse + length)) ;;;
    ret (Some d).

(** [recvResponse()]; [chunks] bounds the number of chunks. *)
Definition recvResponse (chunks : nat) (configured max_body : Z) : M CS (option HttpResponse) := fun s =>
  let buffer_size := buffer_size_of configured in
  let left := left_size (snd s) in
  let offset := s32 (if buffer_size <? left then 0 else left) in
  (l <- or_undef out_of_bounds (from_buffer 0 offset (left_data (snd s))) ;;
   data <- or_undef out_of_bounds (store 0 l (fresh (buffer_size + 1))) ;;
   r <- parse_loop (Z.to_nat buffer_size + 1) buffer_size new_HttpResponseParser data offset 0 ;;
   match r with
   | None => ret None
   | Some (parser, data, offset, nparse) =>
       if cm_chunked (sp_parser parser) then
         c <- chunk_loop chunks buffer_size max_body parser data [] offset nparse ;;
         match c with
         | None => ret None
         | Some (parser, data, body, offset, nparse) =>
             conn_saveLeftData data offset nparse ;;;
             let parser := sp_set parser (rs_with_body (sp_data parser) body) in
             ret (Some (sp_data (fst (sp_getIsClose parser))))
         end
       else
         let length := s64 (sp_getContentLength lexical_cast parser) in
         if s64 max_body <? length then conn_close ;;; ret None
         else if 0 <? length then
           b <- sized_body data offset nparse length ;;
           match b with
           | None => ret None
           | Some body =>
               let parser := sp_set parser (rs_with_body (sp_data parser) body) in
               ret (Some (sp_data (fst (sp_getIsClose parser))))
           end
         else
           conn_saveLeftData data offset nparse ;;;
           ret (Some (sp_data (fst (sp_getIsClose parser))))
   end) s.

(** [sendRequest(req)] *)
Definition sendRequest (req : HttpRequest) : M CS Z :=
  let data := rq_dump req in
  on_conn (fun ss => writeFixSize (length data) (SockStream_write ss) data (Z.of_nat (length data))).

(** ** Requests *)

Inductive Error :=
  | OK_ | INVALID_URL | INVALID_HOST | CONNECT_FAIL | CLOSE_BY_PEER | SOCKET_ERROR | TIMEOUT
  | CREATE_SOCKET_ERROR | POOL_GET_CONNECTION | POOL_INVALID_CONNECTION.
Record HttpResult := mkResult { res : Error; rsp : option HttpResponse }.

(** The loop over the caller's headers in [DoRequest]: the request, and whether a connection
    header, a host header, a non-empty host header were seen. *)
Definition add_header (keep_alive : bool) (st : HttpRequest * bool * bool * bool) (i : bytes * bytes)
    : HttpRequest * bool * bool * bool :=
  let '(req, find_connection, find_host, has_host) := st in
  if negb find_connection && (strcasecmp (c_str (fst i)) (str "connection") =? 0) then
    (if keep_alive && (strcasecmp (c_str (snd i)) (str "keep-alive") =? 0)
     then rq_with_close req false else req, true, find_host, has_host)
  else
    let '(find_host, has_host) :=
      if negb find_host && (strcasecmp (c_str (fst i)) (str "host") =? 0)
      then (true, negb (empty (snd i))) else (find_host, has_host) in
    (rq_setHeader req (fst i) (snd i), find_connection, find_host, has_host).

(** [DoRequest(method, uri, timeout_ms, headers, body)]: the request it sends *)
Definition build_request (method : HttpMethod) (path query fragment host : bytes)
    (headers : list (bytes * bytes)) (body : bytes) : HttpRequest :=
  let req := rq_with_method (rq_with_fragment (rq_with_query (rq_with_path
               (new_HttpRequest 0x11 true) path) query) fragment) method in
  let '(req, _, _, has_host) := fold_left (add_header true) headers (req, false, false, false) in
  let req := if has_host then req else rq_setHeader req (str "host") host in
  rq_with_body req body.

End connection.

(** ** The pool

    Connections are named by their address; [lent] counts the ones handed out. *)

Record HttpConnectionPool := mkPool {
  m_host : bytes; m_vhost : bytes; m_port : Z;
  m_maxSize : Z; m_maxAliveTime : Z; m_maxRequest : Z;
  m_conns : list HttpConnection; m_total : Z }.

Definition new_HttpConnectionPool (now : Z) (host : bytes) (port max_size max_alive_time max_request : Z)
    (vhost : bytes) : HttpConnectionPool :=
  mkPool host vhost port max_size (u32 (u64 (max_alive_time + now))) max_request [] 0.

Definition with_conns (p : HttpConnectionPool) (l : list HttpConnection) (total : Z) : HttpConnectionPool :=
  mkPool (m_host p) (m_vhost p) (m_port p) (m_maxSize p) (m_maxAliveTime p) (m_maxRequest p) l total.

Definition conn_isConnected (c : HttpConnection) : bool := m_isConnected (ss_sock (hc_stream c)).
(** [createTimes + m_maxAliveTime <= GetCurrentMS()] *)
Definition expired (p : HttpConnectionPool) (now : Z) (c : HttpConnection) : bool :=
  u64 (m_createTimes c + m_maxAliveTime p) <=? now.

(** The [while] loop: the idle connections behind the first usable one, that one, and how many
    were dropped. *)
Fixpoint take_idle (p : HttpConnectionPool) (now : Z) (l : list HttpConnection)
    : list HttpConnection * option HttpConnection * nat :=
  match l with
  | [] => ([], None, 0%nat)
  | c :: l =>
      if negb (conn_isConnected c) || expired p now c
      then let '(rest, r, n) := take_idle p now l in (rest, r, S n)
      else (l, Some c, 0%nat)
  end.

(** [getConnection()]; [connect] is a new connection to the host, when it can be made. *)
Definition getConnection (now : Z) (connect : option HttpConnection) (p : HttpConnectionPool)
    : HttpConnectionPool * option HttpConnection :=
  let '(rest, r, n) := take_idle p now (m_conns p) in
  let p := with_conns p rest (u32 (m_total p - Z.of_nat n)) in
  match r with
  | Some c => (p, Some c)
  | None =>
      match connect with
      | None => (p, None)
      | Some c => (with_conns p (m_conns p) (u32 (m_total p + 1)), Some c)
      end
  end.

(** [ReleasePtr(ptr, pool)]: the deleter of the pointers handed out *)
Definition ReleasePtr (now : Z) (c : HttpConnection) (p : HttpConnectionPool) : HttpConnectionPool :=
  let c := mkConnection (hc_stream c) (left_size c) (left_data c) (m_createTimes c) (u64 (m_request c + 1)) in
  if negb (conn_isConnected c) || (m_maxSize p <? m_total p) || expired p now c
     || (m_maxRequest p <=? m_request c)
  then with_conns p (m_conns p) (u32 (m_total p - 1))
  else with_conns p (m_conns p ++ [c]) (m_total p).

(** [doRequest(method, url, timeout_ms, headers, body)]: the request it sends *)
Definition pool_request (p : HttpConnectionPool) (method : HttpMethod) (url : bytes)
    (headers : list (bytes * bytes)) (body : bytes) : HttpRequest :=
  let req := rq_with_close (rq_with_method (rq_with_path (new_HttpRequest 0x11 true) url) method) false in
  let '(req, _, _, has_host) := fold_left (add_header false) headers (req, false, false, false) in
  let req := if has_host then req
             else rq_setHeader req (str "host") (if empty (m_vhost p) then m_host p else m_vhost p) in
  rq_with_body req body.

(** The url that [doGet(uri)], [doPost(uri)] and [doRequest(method, uri)] make of a Uri, and
    the method of [doPost(uri)]. *)
Definition uri_url (host query fragment : bytes) : bytes :=
  host ++ (if empty query then [] else str "?") ++ query ++
  (if empty fragment then [] else str "#") ++ fragment.
Definition pool_doGet_uri (p : HttpConnectionPool) (host query fragment : bytes)
    (headers : list (bytes * bytes)) (body : bytes) : HttpRequest :=
  pool_request p GET (uri_url host query fragment) headers body.
Definition pool_doPost_uri (p : HttpConnectionPool) (host query fragment : bytes)
    (headers : list (bytes * bytes)) (body : bytes) : HttpRequest :=
  pool_request p GET (uri_url host query fragment) headers body.
