(* ===== verification/HttpConnectionSpec.v ===== *)
(** * Receiving responses, and the connection pool *)

From stdpp Require Import relations.
From S2P Require Import Prelude ByteArray ByteArraySpec Stream StreamSpec Containers Http.
From S2P Require Import HttpSpec HttpParser HttpSession HttpSessionSpec HttpConnection.

(** What the connection needs of the response machine for a head [h] that parses to [r] and
    announces chunks when [chunked]. *)
Class ResponseMachine (P : Type) `{ClientMachine P} := {
  is_rhead : bytes -> bool -> HttpResponse -> Prop;
  rfed : bytes -> bool -> HttpResponse -> HttpResponseParser P -> Z -> nat -> Prop;
  rfed_start : forall h ch r, is_rhead h ch r -> rfed h ch r new_HttpResponseParser 0 0;
  rfed_more : forall h ch r p n k mem len, rfed h ch r p n k -> (k <= len < length h)%nat -> (0 < len)%nat ->
    Z.of_nat len < 2 ^ 31 -> mem !! len = Some Byte.x00 -> take len mem = take len h ->
    let '(p', n') := sp_execute p mem (Z.of_nat len) n in
    sp_hasError p' = false /\ sp_isFinished p' = 0 /\ rfed h ch r p' n' len;
  rfed_done : forall h ch r p n k mem len, rfed h ch r p n k -> (k < length h)%nat ->
    (length h <= len)%nat -> Z.of_nat len < 2 ^ 31 -> mem !! len = Some Byte.x00 -> take (length h) mem = h ->
    let '(p', n') := sp_execute p mem (Z.of_nat len) n in
    sp_hasError p' = false /\ sp_isFinished p' <> 0 /\ n' = Z.of_nat (length h) /\ sp_data p' = r /\
    cm_chunked (sp_parser p') = ch }.

Section connection.
Context {W : Type} `{KernelSpec W} `{!Lively W} `{Allocator} {P : Type} `{ResponseMachine P}.
Context (lexical_cast : bytes -> option Z).
Implicit Types (w : W) (hc : HttpConnection).

Lemma on_conn_ok {A} (m : SockStream -> M W A) w hc a w' :
  m (hc_stream hc) w = Ok a w' -> on_conn m (w, hc) = Ok a (w', hc).
Proof. unfold on_conn. cbn [fst snd]. by intros ->. Qed.

Lemma store_nul (data : bytes) k :
  (k < length data)%nat -> exists data', store (Z.of_nat k) [Byte.x00] data = Some data' /\
    length data' = length data /\ take k data' = take k data /\ data' !! k = Some Byte.x00.
Proof.
  intros Hk. unfold store. cbn [length]. rewrite (proj2 (Z.leb_le _ _)) by lia. rewrite Nat2Z.id.
  eexists. split_and!; [done|apply length_splice; cbn [length]; lia|apply take_splice; lia|].
  unfold splice. rewrite lookup_app_r; rewrite length_take; [|lia]. by replace (k - Nat.min k (length data))%nat with 0%nat by lia.
Qed.

(** The kernel hands over all it has when there is room. *)
Definition greedy : Prop := forall n w rt d w', n < 2 ^ 31 -> k_recv n w = Ok (rt, d) w' ->
  Z.of_nat (length (incoming w)) <= n -> d = incoming w.

(** A turn of the loop: what arrives is behind what is in the buffer, with a NUL behind it. *)
Lemma parse_turn_ok all c fuel w hc (p : HttpResponseParser P) data offset n :
  let buffer_size := buffer_size_of c in
  c < 2 ^ 31 -> open (hc_stream hc) -> (offset < length all)%nat -> Z.of_nat offset < buffer_size ->
  Z.of_nat (length data) = buffer_size + 1 -> take offset data = take offset all -> incoming w = drop offset all ->
  exists w1 data2 k, (offset < k <= length all)%nat /\ Z.of_nat k <= buffer_size /\ length data2 = length data /\
    take k data2 = take k all /\ data2 !! k = Some Byte.x00 /\ incoming w1 = drop k all /\ outgoing w1 = outgoing w /\
    (greedy -> Z.of_nat (length all) <= buffer_size -> k = length all) /\
    parse_loop (S fuel) buffer_size p data (Z.of_nat offset) n (w, hc) =
      (let '(p, n) := sp_execute p data2 (Z.of_nat k) n in
       if sp_hasError p then conn_close ;;; ret None
       else if negb (sp_isFinished p =? 0) then ret (Some (p, data2, Z.of_nat k, n))
       else if Z.of_nat k =? s32 buffer_size then conn_close ;;; ret None
       else parse_loop fuel buffer_size p data2 (Z.of_nat k) n) (w1, hc).
Proof.
  intros buffer_size Hc Ho Hlt Hb Hlen Ht Hi. pose proof (buffer_size_range c Hc) as HB. change (buffer_size_of c) with buffer_size in HB.
  cbn [parse_loop]. unfold u64. rewrite uwrap_id by fits.
  destruct (k_recv_ok (buffer_size - Z.of_nat offset) w) as (rt & d & w1 & Ek & Hrt & Hrt2 & Hd & Hin & Hout); [lia|].
  assert (0 < rt) as Hpos.
  { eapply lively_recv, Ek; [lia|]. rewrite Hi. intros E. apply (f_equal length) in E. rewrite length_drop in E. cbn in E. lia. }
  rewrite (bind_ok _ _ _ (rt, d) (w1, hc)); [|apply on_conn_ok; unfold SockStream_read; by rewrite Socket_recv_open].
  assert (length (drop offset all) = length (d ++ incoming w1)) as Ll by (by rewrite <- Hi, Hin). rewrite length_drop, length_app in Ll.
  destruct (store_prefix all data d offset (incoming w1)) as (data1 & Es & Hl1 & Ht1 & Hi1); [by rewrite <- Hi|done|lia|lia|].
  rewrite Es, bind_some, (proj2 (Z.leb_gt rt 0)) by lia. unfold sadd32. rewrite (proj2 (in_sb_spec 32 _)), bind_some by fits.
  set (k := (offset + length d)%nat) in *. replace (rt + Z.of_nat offset) with (Z.of_nat k) by lia.
  destruct (store_nul data1 k) as (data2 & Es2 & Hl2 & Ht2 & Hnul); [lia|]. rewrite Es2, bind_some.
  exists w1, data2, k. split_and!; try done; try lia; try congruence. intros Hg Hfit. assert (length (incoming w) = (length all - offset)%nat) as Li by (rewrite Hi; apply length_drop).
  assert (buffer_size - Z.of_nat offset < 2 ^ 31) as H31 by lia. pose proof (Hg _ _ _ _ _ H31 Ek ltac:(lia)) as Ed. subst k. rewrite Ed, Li. lia.
Qed.

(** The loop on a stream that begins with the head [h]. *)
Lemma parse_loop_ok h ch tail r c : forall fuel w hc p data offset n,
  let all := h ++ tail in let buffer_size := buffer_size_of c in
  c < 2 ^ 31 -> open (hc_stream hc) -> rfed h ch r p n offset -> (offset < length h)%nat ->
  Z.of_nat (length h) <= buffer_size -> Z.of_nat (length data) = buffer_size + 1 ->
  take offset data = take offset all -> incoming w = drop offset all ->
  buffer_size < Z.of_nat fuel + Z.of_nat offset ->
  exists w' p' data' k, (length h <= k <= length all)%nat /\ Z.of_nat k <= buffer_size /\
    parse_loop fuel buffer_size p data (Z.of_nat offset) n (w, hc) =
      Ok (Some (p', data', Z.of_nat k, Z.of_nat (length h))) (w', hc) /\
    sp_data p' = r /\ cm_chunked (sp_parser p') = ch /\ take k data' = take k all /\
    length data' = length data /\ incoming w' = drop k all /\ outgoing w' = outgoing w /\
    (greedy -> Z.of_nat (length all) <= buffer_size -> k = length all).
Proof.
  induction fuel as [|fuel IH]; intros w hc p data offset n all buffer_size Hc Ho Hfed Hlt Hh Hlen
    Ht Hi Hfuel; pose proof (buffer_size_range c Hc) as HB;
    change (buffer_size_of c) with buffer_size in HB; [lia|].
  destruct (parse_turn_ok all c fuel w hc p data offset n) as (w1 & data2 & k & [Hk1 Hk2] & Hkb & Hl2 & Ht2 & Hnul & Hi1 & Hout & Hg & Et);
    try done; [unfold all; rewrite length_app; lia|unfold buffer_size in *; lia|]. fold buffer_size in Hkb, Hg, Et. rewrite Et.
  destruct (decide (k < length h)%nat) as [Hk|Hk].
  - pose proof (rfed_more h ch r p n offset data2 k Hfed ltac:(lia) ltac:(lia) ltac:(lia) Hnul) as Hm.
    assert (take k data2 = take k h) as Htk by (rewrite Ht2; unfold all; by rewrite take_app_le by lia).
    specialize (Hm Htk). destruct (sp_execute p data2 (Z.of_nat k) n) as [p1 n1].
    destruct Hm as (He & Hf & Hfed1). rewrite He, Hf. cbn [Z.eqb negb].
    unfold s32. rewrite swrap_id by fits. rewrite (proj2 (Z.eqb_neq _ _)) by lia.
    destruct (IH w1 hc p1 data2 k n1) as
      (w' & p' & data' & k' & Hk' & Hkb' & E & Hr & Hch & Htk' & Hlk' & Hi' & Ho' & Hg'); try done; try lia.
    exists w', p', data', k'. split_and!; try done; try lia; try congruence; exact (proj2 Hk').
  - pose proof (rfed_done h ch r p n offset data2 k Hfed Hlt ltac:(lia) ltac:(lia) Hnul) as Hm.
    assert (take (length h) data2 = h) as Htk.
    { replace (length h) with (Nat.min (length h) k) by lia. rewrite <- take_take, Ht2.
      unfold all. rewrite take_take, take_app_le by lia. apply firstn_all2. lia. }
    specialize (Hm Htk). destruct (sp_execute p data2 (Z.of_nat k) n) as [p1 n1].
    destruct Hm as (He & Hf & -> & Hr & Hch). rewrite He. rewrite (proj2 (Z.eqb_neq _ _)) by done.
    cbn [negb]. exists w1, p1, data2, k. split_and!; try done; lia.
Qed.

(** The first loop of [recvResponse] on a connection without left data. *)
Definition delivered_rsp (r : HttpResponse) (body : bytes) : HttpResponse :=
  let r := rs_with_body r body in
  rs_with_close r (means_close (rs_getHeader r (str "connection"))).

Lemma recvResponse_start chunks c max_body h ch r tail w hc :
  open (hc_stream hc) -> left_size hc = 0 -> is_rhead h ch r -> (0 < length h)%nat -> c < 2 ^ 31 ->
  Z.of_nat (length h) <= buffer_size_of c -> incoming w = h ++ tail ->
  exists w1 p data k, (length h <= k <= length (h ++ tail))%nat /\ Z.of_nat k <= buffer_size_of c /\
    sp_data p = r /\ cm_chunked (sp_parser p) = ch /\ take k data = take k (h ++ tail) /\
    Z.of_nat (length data) = buffer_size_of c + 1 /\ incoming w1 = drop k (h ++ tail) /\
    (greedy -> Z.of_nat (length (h ++ tail)) <= buffer_size_of c -> k = length (h ++ tail)) /\
    recvResponse lexical_cast chunks c max_body (w, hc) =
      (if cm_chunked (sp_parser p) then
         c0 <- chunk_loop chunks (buffer_size_of c) max_body p data [] (Z.of_nat k) (Z.of_nat (length h)) ;;
         match c0 with
         | None => ret None
         | Some (parser, data, body, offset, nparse) =>
             conn_saveLeftData data offset nparse ;;;
             let parser := sp_set parser (rs_with_body (sp_data parser) body) in
             ret (Some (sp_data (fst (sp_getIsClose parser))))
         end
       else
         let length_ := s64 (sp_getContentLength lexical_cast p) in
         if s64 max_body <? length_ then conn_close ;;; ret None
         else if 0 <? length_ then
           b <- sized_body data (Z.of_nat k) (Z.of_nat (length h)) length_ ;;
           match b with
           | None => ret None
           | Some body =>
               let parser := sp_set p (rs_with_body (sp_data p) body) in
               ret (Some (sp_data (fst (sp_getIsClose parser))))
           end
         else
           conn_saveLeftData data (Z.of_nat k) (Z.of_nat (length h)) ;;;
           ret (Some (sp_data (fst (sp_getIsClose p))))) (w1, hc).
Proof.
  intros Ho Hleft Hhead Hh0 Hc Hh Hi. pose proof (buffer_size_range c Hc) as HB.
  assert (Z.of_nat (length (fresh (buffer_size_of c + 1))) = buffer_size_of c + 1) as Lf
    by (unfold fresh; rewrite length_fmap, length_seq; lia).
  destruct (parse_loop_ok h ch tail r c (Z.to_nat (buffer_size_of c) + 1) w hc new_HttpResponseParser
    (fresh (buffer_size_of c + 1)) 0 0) as (w1 & p & data & k & Hk & Hkb & E & Hr & Hch & Ht & Hkl & Hi1 & _ & Hg);
    try done; try lia; [by apply rfed_start|].
  exists w1, p, data, k. split_and!; try done; try lia.
  unfold recvResponse. cbn [snd]. rewrite Hleft.
  rewrite (proj2 (Z.ltb_ge (buffer_size_of c) 0)) by lia. change (s32 0) with 0.
  unfold from_buffer at 1. rewrite (proj2 (Z.leb_le (0 + 0) (Z.of_nat (length (left_data hc))))) by lia.
  change ((0 <=? 0) && (0 <=? 0) && true) with true. cbv iota.
  unfold or_undef at 1, ret at 1, bind at 1. change (Z.to_nat 0) with 0%nat. rewrite slice_0.
  unfold store. rewrite (proj2 (Z.leb_le (0 + Z.of_nat (length (@nil byte)))
    (Z.of_nat (length (fresh (buffer_size_of c + 1)))))) by (cbn [length]; lia).
  unfold or_undef at 1, ret at 1, bind at 1. rewrite splice_nil.
  change (Z.of_nat 0) with 0 in E. run E. done.
Qed.

(** All that a buffer wants is there. *)
Lemma readFixSize_all ss (buffer : bytes) w : open ss -> length (incoming w) = length buffer -> Z.of_nat (length buffer) < 2 ^ 31 ->
  exists w', readFixSize (length buffer) (SockStream_read ss) buffer (Z.of_nat (length buffer)) w =
    Ok (Z.of_nat (length buffer), incoming w) w' /\ incoming w' = [].
Proof.
  intros Ho Hi Hb. destruct (readFixSize_loop_ok ss (Z.of_nat (length buffer)) (length buffer) w buffer 0 (Z.of_nat (length buffer)))
    as (w' & E & Hi' & _); try done; try lia. exists w'. split; [|rewrite Hi'; apply drop_ge; lia].
  unfold readFixSize. rewrite E. f_equal. f_equal; [apply swrap_id; [done|fits]|]. change (Z.to_nat 0) with 0%nat. rewrite Nat2Z.id.
  unfold splice. rewrite take_0. cbn [app]. rewrite firstn_all2 by lia. rewrite drop_ge, app_nil_r by lia. done.
Qed.

(** The body of announced length, of which [k - length h] bytes are in the buffer. *)
Lemma sized_body_ok h body data k w hc c :
  open (hc_stream hc) -> c < 2 ^ 31 -> 0 < Z.of_nat (length body) < 2 ^ 31 ->
  (length h <= k <= length (h ++ body))%nat -> Z.of_nat k <= buffer_size_of c ->
  take k data = take k (h ++ body) ->
  Z.of_nat (length data) = buffer_size_of c + 1 -> incoming w = drop k (h ++ body) ->
  let m := sized_body data (Z.of_nat k) (Z.of_nat (length h)) (Z.of_nat (length body)) in
  if (k =? length (h ++ body))%nat then
    exists hc', m (w, hc) = Ok (Some body) (w, hc') /\ left_size hc' = 0 /\ hc_stream hc' = hc_stream hc
  else if (k <=? length body)%nat && (Z.of_nat (length h + k) <=? buffer_size_of c + 1) then
    exists w', m (w, hc) = Ok (Some body) (w', hc) /\ incoming w' = []
  else m (w, hc) = Undef out_of_bounds.
Proof.
  intros Ho Hc Hb Hk Hkb Ht Hl Hi m. pose proof (buffer_size_range c Hc) as HB.
  rewrite length_app in *.
  assert (slice (length h) (k - length h) data = take (k - length h) body) as Hsl
    by (apply slice_prefix; rewrite ?length_app; (done || lia)).
  subst m. unfold sized_body, u64. rewrite !(uwrap_id 64) by fits.
  destruct (Nat.eqb_spec k (length h + length body)) as [->|Hne].
  - rewrite (proj2 (Z.ltb_ge _ _)) by lia. unfold from_buffer.
    rewrite !(proj2 (Z.leb_le _ _)) by lia. cbn [andb]. unfold or_undef, ret at 1, bind at 1.
    unfold conn_saveLeftData, bind. cbn [fst snd].
    replace (Z.of_nat (length h + length body) - (Z.of_nat (length h) + Z.of_nat (length body)))
      with 0 by lia. change (u64 0) with 0. rewrite !(proj2 (Z.leb_le 0 _)) by lia. cbn [andb].
    replace (length h + length body - length h)%nat with (length body) in Hsl by lia.
    rewrite firstn_all in Hsl. rewrite !Nat2Z.id, Hsl.
    eexists. split_and!; [reflexivity|done|done].
  - rewrite (proj2 (Z.ltb_lt _ _)) by lia. unfold from_buffer.
    rewrite (proj2 (Z.leb_le 0 _)), (proj2 (Z.leb_le 0 _)) by lia. cbn [andb].
    rewrite Hl. rewrite <- Nat2Z.inj_add.
    destruct (Z.leb_spec (Z.of_nat (length h + k)) (buffer_size_of c + 1)) as [Hfit|Hfit];
      [|rewrite andb_false_r; done].
    rewrite bind_some, !Nat2Z.id.
    assert (length (slice (length h) k data) = k) as Lk by (apply length_slice; lia).
    unfold store. rewrite Lk, repeat_length, andb_true_r.
    destruct (Nat.leb_spec k (length body)) as [Hle|Hgt];
      [|by rewrite (proj2 (Z.leb_gt _ _)), bind_none by lia].
    rewrite (proj2 (Z.leb_le _ _)), bind_some by lia.
    change (Z.to_nat 0) with 0%nat.
    set (body0 := splice 0 (slice (length h) k data) (repeat Byte.x00 (length body))).
    assert (length body0 = length body) as L0
      by (unfold body0; rewrite length_splice, repeat_length; [done|rewrite repeat_length; lia]).
    set (t := (k - length h)%nat) in *.
    assert (take t body0 = take t body) as T0.
    { unfold body0, splice. rewrite take_0. cbn [app]. rewrite take_app_le by lia.
      rewrite <- Hsl. unfold slice. rewrite take_take. f_equal. lia. }
    replace (Z.of_nat (length body) + Z.of_nat (length h) - Z.of_nat k)
      with (Z.of_nat (length body - t)) by lia.
    replace (Z.of_nat k - Z.of_nat (length h)) with (Z.of_nat t) by lia.
    unfold s64. rewrite (swrap_id 64) by fits. rewrite !Nat2Z.id.
    rewrite drop_app_ge in Hi by lia. fold t in Hi.
    assert (length (drop t body0) = length body - t)%nat as Ld by (rewrite length_drop; lia).
    destruct (readFixSize_all (hc_stream hc) (drop t body0) w) as (w' & E' & Hi'); [done|by rewrite Hi, Ld, length_drop|lia|]. rewrite Ld in E'.
    exists w'. run (on_conn_ok _ w hc _ w' E').
    rewrite (proj2 (Z.leb_gt _ 0)) by lia. unfold ret. split; [|done]. rewrite Hi, T0, take_drop. done.
Qed.

(** ** Properties of a connection *)

(** A response with a length that arrives in pieces is received whole exactly when, of the
    [k] bytes read by the time its head was complete, there is either the whole body or so
    little that copying [k] bytes (not [k] less the head) stays inside the body and the buffer;
    otherwise [recvResponse] writes or reads outside them. *)
Theorem recvResponse_sized chunks c max_body h r body w hc :
  open (hc_stream hc) -> left_size hc = 0 -> is_rhead h false r -> (0 < length h)%nat -> c < 2 ^ 31 ->
  Z.of_nat (length h) <= buffer_size_of c ->
  GetAs lexical_cast (rs_headers r) (str "content-length") 0 = Z.of_nat (length body) ->
  0 < Z.of_nat (length body) < 2 ^ 31 -> Z.of_nat (length body) <= max_body < 2 ^ 63 ->
  incoming w = h ++ body ->
  exists k, (length h <= k <= length (h ++ body))%nat /\ Z.of_nat k <= buffer_size_of c /\
    let run := recvResponse lexical_cast chunks c max_body (w, hc) in
    if (k =? length (h ++ body))%nat
       || ((k <=? length body)%nat && (Z.of_nat (length h + k) <=? buffer_size_of c + 1))
    then exists w' hc', run = Ok (Some (delivered_rsp r body)) (w', hc') /\ incoming w' = []
    else run = Undef out_of_bounds.
Proof.
  intros Ho Hleft Hhead Hh0 Hc Hh Hcl Hb Hmax Hi.
  destruct (recvResponse_start chunks c max_body h false r body w hc) as
    (w1 & p & data & k & Hk & Hkb & Hr & Hch & Ht & Hl & Hi1 & _ & E); try done.
  exists k. split_and!; [lia|lia|done|]. cbv zeta. rewrite E, Hch. clear E.
  unfold sp_getContentLength. rewrite Hr, Hcl. unfold s64.
  rewrite !(swrap_id 64) by fits.
  rewrite (proj2 (Z.ltb_ge max_body _)), (proj2 (Z.ltb_lt 0 _)) by lia.
  pose proof (sized_body_ok h body data k w1 hc c Ho Hc Hb Hk Hkb Ht Hl Hi1) as S. cbv zeta in S.
  destruct (Nat.eqb_spec k (length (h ++ body))) as [Ek|Hne]; cbn [orb].
  - destruct S as (hc' & E & _ & _). exists w1, hc'. run E.
    unfold ret, sp_getIsClose. cbn [fst sp_data sp_set].
    split; [done|]. rewrite Hi1, Ek. apply drop_all.
  - destruct ((k <=? length body)%nat && _).
    + destruct S as (w' & E & Hi'). exists w', hc. run E.
      done.
    + unfold bind. by rewrite S.
Qed.

(** A chunked response whose chunks come together with its head is not received: before
    it looks at the bytes it has, [recvResponse] reads again, and when nothing more comes it
    closes the connection and returns null. *)
Theorem recvResponse_chunked_rereads chunks c max_body h r tail w hc :
  greedy -> open (hc_stream hc) -> left_size hc = 0 -> is_rhead h true r -> (0 < length h)%nat ->
  c < 2 ^ 31 -> Z.of_nat (length (h ++ tail)) <= buffer_size_of c -> incoming w = h ++ tail ->
  (0 < chunks)%nat ->
  exists w', recvResponse lexical_cast chunks c max_body (w, hc) = (conn_close ;;; ret None) (w', hc).
Proof.
  intros Hg Ho Hleft Hhead Hh0 Hc Hall Hi Hch0. pose proof (buffer_size_range c Hc) as HB.
  pose proof Hall as Hh. rewrite length_app in Hh.
  destruct (recvResponse_start chunks c max_body h true r tail w hc) as
    (w1 & p & data & k & Hk & Hkb & Hr & Hch & Ht & Hl & Hi1 & Hkall & E); try done; [lia|].
  specialize (Hkall Hg Hall). subst k. rewrite E, Hch. clear E.
  destruct chunks as [|chunks]; [lia|]. cbn [chunk_loop].
  unfold u64, s32. rewrite (uwrap_id 64) by (rewrite length_app in *; fits).
  rewrite (swrap_id 32) by (rewrite length_app in *; fits).
  set (offset := Z.of_nat (length (h ++ tail)) - Z.of_nat (length h)).
  assert (0 <= offset < buffer_size_of c) as Hoff by (unfold offset; rewrite length_app in *; lia).
  unfold sp_reset. set (data' := move_front data _ _).
  destruct (k_recv_ok (buffer_size_of c - offset) w1) as (rt & d & w2 & Ek & Hrt & _ & Hd & Hin & _); [lia|].
  rewrite Hi1, drop_all in Hin. symmetry in Hin. apply app_eq_nil in Hin as [-> _].
  cbn [length] in Hd. rewrite Nat.add_1_r. cbn [parse_loop].
  unfold u64 at 1. rewrite (uwrap_id 64 (buffer_size_of c - offset)) by fits.
  assert (on_conn (fun ss => SockStream_read ss (buffer_size_of c - offset)) (w1, hc) = Ok (rt, []) (w2, hc))
    as Er by (apply on_conn_ok; unfold SockStream_read; by rewrite Socket_recv_open).
  assert (length data' = length data) as Ld.
  { unfold data', move_front. apply length_splice. unfold slice. rewrite length_take, length_drop.
    unfold offset. rewrite length_app. lia. }
  exists w2. unfold bind at 1 2 3. rewrite Er. unfold store. cbn [length].
  rewrite (proj2 (Z.leb_le (offset + Z.of_nat 0) _)) by lia. cbn [or_undef]. unfold ret at 1.
  rewrite (proj2 (Z.leb_le rt 0)) by lia. done.
Qed.

End connection.

(** ** The pool *)

Lemma take_idle_ok p now l : forall rest r n, take_idle p now l = (rest, r, n) ->
  rest `suffix_of` l /\
  length l = (length rest + n + match r with Some _ => 1 | None => 0 end)%nat /\
  match r with
  | Some c => c ∈ l /\ conn_isConnected c = true /\ expired p now c = false
  | None => rest = []
  end.
Proof.
  induction l as [|c l IH]; intros rest r n E; cbn [take_idle] in E.
  { injection E as <- <- <-. done. }
  destruct (negb (conn_isConnected c) || expired p now c) eqn:Ec.
  - destruct (take_idle p now l) as [[rest' r'] n'] eqn:El. injection E as <- <- <-.
    destruct (IH _ _ _ eq_refl) as (Hs & Hl & Hr). split_and!.
    + by apply suffix_cons_r.
    + cbn [length]. lia.
    + destruct r'; [|done]. destruct Hr as (Hin & ? & ?). split_and!; [|done|done].
      by apply elem_of_cons; right.
  - injection E as <- <- <-. apply orb_false_iff in Ec as [Ec1%negb_false_iff Ec2].
    split_and!; try done; [by apply suffix_cons_r|cbn [length]; lia|by apply elem_of_cons; left].
Qed.

(** A pool and the number of connections it has lent. *)
Inductive pool_step : HttpConnectionPool * nat -> HttpConnectionPool * nat -> Prop :=
  | ps_get p lent now connect p' r :
      Z.of_nat (length (m_conns p) + lent) + 1 < 2 ^ 32 ->
      getConnection now connect p = (p', r) ->
      pool_step (p, lent) (p', match r with Some _ => S lent | None => lent end)
  | ps_release p lent now c :
      pool_step (p, S lent) (ReleasePtr now c p, lent).

Record pool_ok (p : HttpConnectionPool) (lent : nat) : Prop := {
  po_total : m_total p = Z.of_nat (length (m_conns p) + lent);
  po_width : m_total p < 2 ^ 32;
  po_idle : Z.of_nat (length (m_conns p)) <= m_maxSize p;
  po_fresh : Forall (fun c => m_request c < m_maxRequest p /\ conn_isConnected c = true) (m_conns p) }.

Lemma getConnection_step p lent now connect p' r :
  pool_ok p lent -> Z.of_nat (length (m_conns p) + lent) + 1 < 2 ^ 32 ->
  getConnection now connect p = (p', r) ->
  pool_ok p' (match r with Some _ => S lent | None => lent end) /\
  match r with
  | Some c => (c ∈ m_conns p /\ conn_isConnected c = true /\ expired p now c = false) \/
              (connect = Some c /\ m_conns p' = [])
  | None => connect = None
  end.
Proof.
  intros [Pt Pw Pi Pf] Hw E. unfold getConnection in E.
  destruct (take_idle p now (m_conns p)) as [[rest r0] n] eqn:Et.
  destruct (take_idle_ok p now _ _ _ _ Et) as (Hs & Hl & Hr).
  assert (Forall (fun c => m_request c < m_maxRequest p /\ conn_isConnected c = true) rest) as Hf
    by (destruct Hs as [pre Hs]; rewrite Hs in Pf; by apply Forall_app in Pf as [_ ?]).
  assert (u32 (m_total p - Z.of_nat n) = m_total p - Z.of_nat n) as En
    by (apply uwrap_id; fits).
  destruct r0 as [c|].
  - injection E as <- <-. split; [|by left]. constructor; cbn; rewrite ?En; try done; lia.
  - destruct connect as [c|]; injection E as <- <-.
    + split; [|right; by rewrite Hr]. constructor; cbn; rewrite ?En.
      * unfold u32. rewrite uwrap_id by fits. lia.
      * apply uwrap_range. lia.
      * lia.
      * done.
    + split; [|done]. constructor; cbn; rewrite ?En; try done; lia.
Qed.

Lemma ReleasePtr_step p lent now c : pool_ok p (S lent) -> pool_ok (ReleasePtr now c p) lent.
Proof.
  intros [Pt Pw Pi Pf]. unfold ReleasePtr. set (c' := mkConnection _ _ _ _ _).
  destruct (negb (conn_isConnected c') || _ || _ || _) eqn:Ec.
  - constructor; cbn; try done.
    + unfold u32. rewrite uwrap_id by fits. lia.
    + apply uwrap_range. lia.
  - apply orb_false_iff in Ec as [Ec Ereq%Z.leb_gt]. apply orb_false_iff in Ec as [Ec _].
    apply orb_false_iff in Ec as [Econn%negb_false_iff Esize%Z.ltb_ge].
    constructor; cbn; rewrite ?length_app; cbn [length]; try lia.
    apply Forall_app. split; [done|]. by constructor.
Qed.

Lemma pool_steps_ok now0 host port max_size max_alive max_request vhost st :
  0 <= max_size ->
  rtc pool_step (new_HttpConnectionPool now0 host port max_size max_alive max_request vhost, 0%nat) st ->
  pool_ok (fst st) (snd st).
Proof.
  intros Hm. revert st. apply rtc_ind_r; [by constructor|].
  intros y z _ Hs O. destruct Hs as [p lent now connect p' r Hw E|p lent now c]; cbn [fst snd] in *.
  - by eapply getConnection_step.
  - by apply ReleasePtr_step.
Qed.

(** C38: in every reachable state of the pool the total is the number of idle and lent
    connections, no more than [m_maxSize] are idle, every idle one was connected and had
    requests left when it came back, and a connection that is handed out is either an idle one
    that is connected and not expired, or a new one made when no idle one was left. *)
Theorem pool_invariant now0 host port max_size max_alive max_request vhost p lent now connect p' r :
  0 <= max_size ->
  rtc pool_step (new_HttpConnectionPool now0 host port max_size max_alive max_request vhost, 0%nat) (p, lent) ->
  Z.of_nat (length (m_conns p) + lent) + 1 < 2 ^ 32 ->
  getConnection now connect p = (p', r) ->
  pool_ok p lent /\
  match r with
  | Some c => (c ∈ m_conns p /\ conn_isConnected c = true /\ expired p now c = false) \/
              (connect = Some c /\ m_conns p' = [])
  | None => connect = None
  end.
Proof.
  intros Hm Hst Hw E.
  assert (pool_ok (fst (p, lent)) (snd (p, lent))) as O by (by eapply pool_steps_ok, Hst).
  split; [done|]. by eapply getConnection_step.
Qed.

(** *** Witnesses: a greedy kernel, and a machine whose heads are a line *)

Record tank : Type := mkTank { t_in : list byte; t_out : list byte }.
Definition portion (n : Z) (d : list byte) : list byte :=
  if Z.of_nat (length d) <=? Z.min n (2 ^ 31 - 1) then d else take 1 d.
#[export] Instance tank_kernel : Kernel tank := {
  k_recv n w :=
    match portion n (t_in w) with
    | [] => Ok (-1, []) w
    | d => Ok (Z.of_nat (length d), d) (mkTank (drop (length d) (t_in w)) (t_out w))
    end;
  k_send d w :=
    let s := portion (2 ^ 31 - 1) d in
    Ok (Z.of_nat (length s)) (mkTank (t_in w) (t_out w ++ s)) }.

Lemma portion_ok n d : 0 < n ->
  Z.of_nat (length (portion n d)) <= Z.min n (2 ^ 31 - 1) /\
  portion n d = take (length (portion n d)) d /\ (portion n d = [] -> d = []).
Proof.
  intros Hn. unfold portion. destruct (Z.leb_spec (Z.of_nat (length d)) (Z.min n (2 ^ 31 - 1))).
  - split_and!; [lia|by rewrite firstn_all|done].
  - destruct d as [|b d]; [by split_and!; cbn; try done; lia|].
    change (take 1 (b :: d)) with [b]. cbn [length take]. rewrite take_0. split_and!; [lia|done|done].
Qed.

#[export] Program Instance tank_spec : KernelSpec tank := { incoming := t_in; outgoing := t_out }.
Next Obligation.
  intros n [i o] Hn. unfold k_recv, tank_kernel, t_in, t_out.
  destruct (portion_ok n i Hn) as (Hl & Et & He).
  destruct (portion n i) as [|b d] eqn:E.
  - exists (-1), [], (mkTank i o). split_and!; try done; lia.
  - eexists _, (b :: d), _. split_and!; [reflexivity|lia|lia|lia|lia| |done].
    rewrite Et at 1. by rewrite take_drop.
Qed.
Next Obligation.
  intros d [i o] Hd. unfold k_send, tank_kernel, t_in, t_out.
  destruct (portion_ok (2 ^ 31 - 1) d ltac:(lia)) as (Hl & Et & He).
  eexists _, _. split_and!; [reflexivity|lia| |lia|done|].
  - pose proof (f_equal length Et) as El. rewrite length_take in El. lia.
  - rewrite Nat2Z.id, <- Et. done.
Qed.

#[export] Program Instance tank_lively : Lively tank.
Next Obligation.
  intros n [i o] rt d w' Hn Hi. cbn [incoming tank_spec t_in] in Hi.
  unfold k_recv, tank_kernel, t_in, t_out. destruct (portion_ok n i Hn) as (_ & _ & He).
  destruct (portion n i) as [|b d'] eqn:E; [by destruct Hi; apply He|].
  intros Hr. injection Hr as <- _ _. cbn [length]. lia.
Qed.
Next Obligation.
  intros d [i o] rt w' Hd. unfold k_send, tank_kernel, t_in, t_out.
  destruct (portion_ok (2 ^ 31 - 1) d ltac:(lia)) as (_ & _ & He).
  destruct (portion (2 ^ 31 - 1) d) as [|b d'] eqn:E; [by destruct Hd; apply He|].
  intros Hr. injection Hr as <- _. cbn [length]. lia.
Qed.

Lemma tank_greedy : greedy (W := tank).
Proof.
  intros n [i o] rt d w' Hn. cbn [incoming tank_spec t_in].
  unfold k_recv, tank_kernel, t_in, t_out. intros Hr Hl.
  assert (portion n i = i) as E by (unfold portion; rewrite (proj2 (Z.leb_le _ _)); [done|lia]).
  rewrite E in Hr. destruct i as [|b i]; by injection Hr as _ <- _.
Qed.

(** The first byte of a line tells whether chunks follow; a [content-length] of 3 is always
    announced. *)
Definition reply_machine : Type := bool * bool.
Definition starts_c (h : bytes) : bool := match h with b :: _ => is_byte 99 b | [] => false end.
Definition three : call := http_field (str "content-length") 14 (str "3") 1.
#[export] Instance reply_mc : Machine reply_machine := {
  mc_init := (false, false);
  mc_execute m mem len off :=
    match newline_at (take (Z.to_nat len) mem) with
    | Some i => ((true, starts_c mem), Z.of_nat (i + 1), [reason_phrase mem i; three])
    | None => ((false, false), len, [])
    end;
  mc_finish m := if fst m then 1 else 0;
  mc_has_error m := false }.
#[export] Instance reply_cm : ClientMachine reply_machine := {
  cm_chunked m := snd m; cm_content_len m := 0; cm_chunks_done m := true }.

Definition reply_of (p : bytes) : HttpResponse :=
  rs_setHeader (rs_with_reason (new_HttpResponse 0x11 true) p) (str "content-length") (str "3").
Definition reply_head (h : bytes) (ch : bool) (r : HttpResponse) : Prop :=
  exists p, h = p ++ [Byte.x0a] /\ p <> [] /\ Forall (fun b => b <> Byte.x0a) p /\ ch = starts_c p /\ r = reply_of p.

#[export] Program Instance reply_rm : ResponseMachine reply_machine := {
  is_rhead := reply_head;
  rfed h ch r p n k := reply_head h ch r /\ p = new_HttpResponseParser }.
Next Obligation. done. Qed.
Next Obligation.
  intros h ch r p n k mem len [(q & -> & Hs & Hq & -> & ->) ->] Hk _ _ _ Ht.
  unfold sp_execute. cbn [mc_execute reply_mc sp_parser]. rewrite Nat2Z.id, Ht.
  rewrite length_app in Hk. cbn [length] in Hk. rewrite take_app_le by lia.
  rewrite newline_at_none by by apply Forall_take.
  split_and!; [done|done|by exists q|done].
Qed.
Next Obligation.
  intros h ch r p n k mem len [(q & -> & Hs & Hq & -> & ->) ->] Hk Hl _ Hnul Ht.
  apply lookup_lt_Some in Hnul.
  unfold sp_execute. cbn [mc_execute reply_mc sp_parser]. rewrite Nat2Z.id.
  assert (take len mem = q ++ Byte.x0a :: drop (length (q ++ [Byte.x0a])) (take len mem)) as ->.
  { rewrite <- (take_drop (length (q ++ [Byte.x0a])) (take len mem)) at 1.
    rewrite take_take, Nat.min_l by lia. rewrite Ht. by rewrite <- app_assoc. }
  rewrite newline_at_app by done. rewrite length_app in *. cbn [length] in *.
  assert (take (length q) mem = q) as Hq'.
  { assert (take (length q) (take (length q + 1) mem) = q) as E by (rewrite Ht; apply take_app_length).
    by rewrite take_take, Nat.min_l in E by lia. }
  split_and!; [done|done|lia| |].
  - cbn [fold_left response_call sp_data]. unfold on_response_reason, text. by rewrite Hq'.
  - cbn [fold_left response_call sp_parser]. change (snd (true, starts_c mem) = starts_c q).
    cbn [snd]. rewrite <- Hq'. destruct q as [|b q]; [done|]. by destruct mem.
Qed.

Definition decimal : bytes -> option Z := fun s => Some (dec_value s).
Definition conn0 : HttpConnection := @new_HttpConnection zeroed 0 0 (mkSocket 3 true) true.

Lemma recvResponse_sized_witness :
  exists k, (2 <= k <= 5)%nat /\ Z.of_nat k <= 4096 /\
    let run := @recvResponse tank _ zeroed reply_machine _ _ decimal 1 0 100
                 (mkTank (str "a" ++ [Byte.x0a] ++ str "xyz") [], conn0) in
    if (k =? 5)%nat || ((k <=? 3)%nat && (Z.of_nat (2 + k) <=? 4096 + 1))
    then exists w' hc', run = Ok (Some (delivered_rsp (reply_of (str "a")) (str "xyz"))) (w', hc') /\
           incoming w' = []
    else run = Undef out_of_bounds.
Proof.
  refine (@recvResponse_sized tank _ _ _ zeroed reply_machine _ _ _ decimal 1 0 100
    (str "a" ++ [Byte.x0a]) (reply_of (str "a")) (str "xyz")
    (mkTank (str "a" ++ [Byte.x0a] ++ str "xyz") []) conn0 _ _ _ _ _ _ _ _ _ _).
  - reflexivity.
  - reflexivity.
  - exists (str "a"). split_and!; [done|done|repeat constructor; discriminate|done|done].
  - vm_compute. lia.
  - lia.
  - vm_compute. discriminate.
  - reflexivity.
  - vm_compute. intuition discriminate.
  - vm_compute. intuition discriminate.
  - reflexivity.
Defined.

Lemma recvResponse_chunked_rereads_witness :
  exists w', @recvResponse tank _ zeroed reply_machine _ _ decimal 1 0 100
    (mkTank (str "c" ++ [Byte.x0a] ++ str "3;xyz") [], conn0) =
    (conn_close ;;; ret None) (w', conn0).
Proof.
  refine (@recvResponse_chunked_rereads tank _ _ _ zeroed reply_machine _ _ _ decimal 1 0 100
    (str "c" ++ [Byte.x0a]) (reply_of (str "c")) (str "3;xyz")
    (mkTank (str "c" ++ [Byte.x0a] ++ str "3;xyz") []) conn0 tank_greedy _ _ _ _ _ _ _ _).
  - reflexivity.
  - reflexivity.
  - exists (str "c"). split_and!; [done|done|repeat constructor; discriminate|done|done].
  - vm_compute. lia.
  - lia.
  - vm_compute. discriminate.
  - reflexivity.
  - lia.
Defined.

Lemma pool_invariant_witness :
  pool_ok (new_HttpConnectionPool 5 [] 80 2 1000 10 []) 0.
Proof.
  refine (proj1 (pool_invariant 5 [] 80 2 1000 10 [] (new_HttpConnectionPool 5 [] 80 2 1000 10 []) 0
    6 None _ None _ (rtc_refl _ _) _ eq_refl)).
  - lia.
  - simpl. lia.
Defined.
