(* ===== verification/Fiber.v ===== *)
(** * Fiber: coroutines (src/wyze/fiber.h, src/wyze/fiber.cpp)

    What a callback does is a [code]: the calls of this library that matter to the scheduler,
    in order.  A machine context (ucontext_t) of a fiber is the code that is left; a
    [swapcontext] saves the code left of one and goes on with the code saved in the other.
    Fibers live in a heap and are named by their index in it.  The stack is the fact that there
    is one. *)

From S2P Require Import Prelude.

Inductive State := INIT | HOLD | READY | EXEC | TERM | EXCEPT.
#[export] Instance State_eq_dec : EqDecision State.
Proof. solve_decision. Defined.

Inductive code :=
  | Return
  | Raise
  | Act (a : Z) (k : code)
  | YieldReady (k : code)
  | YieldHold (k : code)
  | ScheduleCb (c : code) (thread : Z) (k : code)
  | ScheduleFiber (f : nat) (thread : Z) (k : code).

Record Fiber := mkFiber {
  m_id : Z; m_stacksize : Z; m_stack : bool; m_state : State; m_context : code; m_cb : bool;
  m_useCaller : bool }.

(** The fibers of the process, with what one thread keeps in its thread-local variables:
    [t_fiber] and [t_threadFiber] of fiber.cpp, and [t_fiber] of scheduler.cpp, here
    [t_mainFiber]. *)
Record Fibers := mkFibers {
  heap : list Fiber; s_fiber_id : Z; s_fiber_count : Z;
  t_fiber : option nat; t_threadFiber : option nat; t_mainFiber : option nat }.

Definition FM := M Fibers.

Definition set_heap (h : list Fiber) (w : Fibers) : Fibers :=
  mkFibers h (s_fiber_id w) (s_fiber_count w) (t_fiber w) (t_threadFiber w) (t_mainFiber w).
Definition the_fiber (f : nat) : FM Fiber := fun w => or_undef null_deref (heap w !! f) w.
Definition set_state (f : nat) (st : State) : FM unit := fun w =>
  match heap w !! f with
  | None => Undef null_deref
  | Some x => Ok tt (set_heap (<[f := mkFiber (m_id x) (m_stacksize x) (m_stack x) st (m_context x)
                                        (m_cb x) (m_useCaller x)]> (heap w)) w)
  end.
(** the half of a [swapcontext] that saves the code left *)
Definition save_context (f : nat) (k : code) : FM unit := fun w =>
  match heap w !! f with
  | None => Undef null_deref
  | Some x => Ok tt (set_heap (<[f := mkFiber (m_id x) (m_stacksize x) (m_stack x) (m_state x) k
                                        (m_cb x) (m_useCaller x)]> (heap w)) w)
  end.

Definition wyze_assert {S} (b : bool) (what : string) : M S unit :=
  if b then ret tt else throw (assert_failed what).

(** [SetThis(f)] *)
Definition SetThis (f : option nat) : FM unit :=
  modify (fun w => mkFibers (heap w) (s_fiber_id w) (s_fiber_count w) f (t_threadFiber w) (t_mainFiber w)).

(** [Fiber(cb, stack_size, use_caller)]; [configured] is fiber.stack_size *)
Definition new_Fiber (configured : Z) (cb : code) (stack_size : Z) (use_caller : bool) : FM nat := fun w =>
  let size := u32 (if 16 * 1024 <? stack_size then stack_size else configured) in
  Ok (length (heap w))
    (mkFibers (heap w ++ [mkFiber (s_fiber_id w) size true INIT cb true use_caller])
       (u64 (s_fiber_id w + 1)) (u64 (s_fiber_count w + 1)) (t_fiber w) (t_threadFiber w) (t_mainFiber w)).

(** [Fiber()]: a thread's own fiber *)
Definition main_Fiber : FM nat := fun w =>
  let f := length (heap w) in
  Ok f (mkFibers (heap w ++ [mkFiber (s_fiber_id w) 0 false EXEC Return false false])
          (u64 (s_fiber_id w + 1)) (u64 (s_fiber_count w + 1)) (Some f) (t_threadFiber w) (t_mainFiber w)).

(** [GetThis()] *)
Definition GetThis : FM nat :=
  w <- get ;;
  match t_fiber w with
  | Some f => ret f
  | None =>
      main_fiber <- main_Fiber ;;
      w <- get ;;
      wyze_assert (bool_decide (t_fiber w = Some main_fiber)) "t_fiber == main_fiber.get()" ;;;
      put (mkFibers (heap w) (s_fiber_id w) (s_fiber_count w) (t_fiber w) (Some main_fiber) (t_mainFiber w)) ;;;
      ret main_fiber
  end.

Definition finished (st : State) : bool := match st with TERM | EXCEPT => true | _ => false end.

(** [swapIn()] up to its [swapcontext]; does it come to that? *)
Definition swapIn (f : nat) : FM bool :=
  x <- the_fiber f ;;
  wyze_assert (negb (bool_decide (m_state x = EXEC))) "m_state != State::EXEC" ;;;
  w <- get ;;
  wyze_assert (bool_decide (is_Some (t_mainFiber w))) "make sure Scheduler init befor use Fiber::swapIn" ;;;
  if finished (m_state x) then ret false
  else SetThis (Some f) ;;; set_state f EXEC ;;; ret true.

(** [call()], in the same way *)
Definition call (f : nat) : FM bool :=
  x <- the_fiber f ;;
  wyze_assert (negb (bool_decide (m_state x = EXEC))) "m_state != State::EXEC" ;;;
  w <- get ;;
  wyze_assert (bool_decide (is_Some (t_threadFiber w))) "use Fiber::GetThis befor use Fiber::call" ;;;
  if finished (m_state x) then ret false
  else SetThis (Some f) ;;; set_state f EXEC ;;; ret true.

(** [swapOut()] up to its [swapcontext] *)
Definition swapOut : FM unit :=
  w <- get ;;
  wyze_assert (bool_decide (is_Some (t_mainFiber w))) "Fiber::swapIn Fiber::swapOut is pair" ;;;
  SetThis (t_threadFiber w).

(** [back()] up to its [swapcontext] *)
Definition back (f : nat) : FM unit :=
  w <- get ;;
  wyze_assert (bool_decide (is_Some (t_threadFiber w))) "Fiber::call Fiber::back is pair" ;;;
  SetThis (t_threadFiber w) ;;;
  x <- the_fiber f ;;
  if decide (m_state x = EXEC) then set_state f READY else ret tt.

(** [YeildToReady()] and [YeildToHold()] up to the [swapcontext] of [swapOut]: the fiber whose
    context is to be saved *)
Definition YeildTo (st : State) : FM nat :=
  cur <- GetThis ;;
  set_state cur st ;;;
  swapOut ;;;
  ret cur.
Definition YeildToReady : FM nat := YeildTo READY.
Definition YeildToHold : FM nat := YeildTo HOLD.

(** [MainFunc()] of fiber [cur] once the callback has returned, or thrown, up to the last
    [swapcontext] *)
Definition drop_cb (f : nat) : FM unit := fun w =>
  match heap w !! f with
  | None => Undef null_deref
  | Some x => Ok tt (set_heap (<[f := mkFiber (m_id x) (m_stacksize x) (m_stack x) (m_state x)
                                        (m_context x) false (m_useCaller x)]> (heap w)) w)
  end.
Definition MainFunc_end (cur : nat) (threw : bool) : FM unit :=
  (if threw then set_state cur EXCEPT else drop_cb cur ;;; set_state cur TERM) ;;;
  x <- the_fiber cur ;;
  if m_useCaller x then back cur else swapOut.

(** [reset(cb)] *)
Definition may_restart (st : State) : bool := match st with INIT | TERM | EXCEPT => true | _ => false end.
Definition reset (f : nat) (cb : code) : FM unit :=
  x <- the_fiber f ;;
  wyze_assert (m_stack x) "m_stack" ;;;
  wyze_assert (may_restart (m_state x)) "m_state == State::INIT || TERM || EXCEPT" ;;;
  modify (fun w => set_heap (<[f := mkFiber (m_id x) (m_stacksize x) (m_stack x) INIT cb true
                                      (m_useCaller x)]> (heap w)) w).

(** [~Fiber()] *)
Definition delete_Fiber (f : nat) : FM unit :=
  x <- the_fiber f ;;
  modify (fun w => mkFibers (heap w) (s_fiber_id w) (u64 (s_fiber_count w - 1)) (t_fiber w)
                     (t_threadFiber w) (t_mainFiber w)) ;;;
  if m_stack x then wyze_assert (may_restart (m_state x)) "m_state == State::INIT || TERM || EXCEPT"
  else
    wyze_assert (negb (m_cb x)) "!m_cb" ;;;
    wyze_assert (bool_decide (m_state x = EXEC)) "m_state == State::EXEC" ;;;
    w <- get ;;
    if decide (t_fiber w = Some f) then SetThis None else ret tt.

(** [GetFiberId()] *)
Definition GetFiberId (w : Fibers) : Z :=
  match t_fiber w with Some f => from_option m_id 0 (heap w !! f) | None => 0 end.
