(* ===== verification/Scheduler.v ===== *)
(** * Scheduler: threads that run fibers (src/wyze/scheduler.h, src/wyze/scheduler.cpp)

    The state is that of the whole process: the queue and counters of one scheduler, the
    fibers, and for every thread its place in [Scheduler::run] and its thread-local variables;
    thread 0 is the one that made the scheduler.  [thread_step i] is one step of thread [i]: a
    section under [m_mutex], one change of an atomic counter, a switch of contexts up to the
    point where a context is saved, the saving, or one call of the library by the running
    code.  The choice of the thread that moves next is the interleaving.  The idle fiber of a
    thread is only its state; it is not in the heap of fibers. *)

From S2P Require Import Prelude Fiber.

Record FiberAndThread := mkFT { fiber : option nat; cb : option code; thread : Z }.

(** Where a thread is in [run]. *)
Inductive Pc :=
  | NotStarted                          (* the thread that made the scheduler, outside [run] *)
  | Begin
  | Pick                                (* at the head of the loop *)
  | Took (ft : FiberAndThread)          (* after the locked section, with a task *)
  | Inside (f : nat) (k : code)         (* in [swapIn] of [f]; [k] is left of what runs *)
  | Leaving (f : nat) (k : option code) (* the running code is about to switch back *)
  | Back (f : nat)                      (* [swapIn] has returned *)
  | Again (f : nat)                     (* [m_activeThreadCount] has been decremented *)
  | Idle                                (* [m_idleThreadCount] has been incremented *)
  | Exit.

Record Thread := mkThread {
  tid : Z; loc : Pc; idle_fiber : State;
  th_fiber : option nat; th_threadFiber : option nat; th_mainFiber : option nat }.

Record Scheduler := mkScheduler {
  m_fibers : list FiberAndThread;
  m_activeThreadCount : Z; m_idleThreadCount : Z; m_stopping : bool; m_autoStop : bool;
  m_rootThread : Z; m_rootFiber : option nat; m_threadCount : Z;
  fibers : list Fiber; next_id : Z; fiber_count : Z;
  threads : list Thread; output : list Z; tickles : Z }.

(** What a step has done to the queue. *)
Inductive event :=
  | Scheduled (ft : FiberAndThread)
  | Taken (tid : Z) (ft : FiberAndThread).

Definition SM := M Scheduler.

Definition set_queue (q : list FiberAndThread) (w : Scheduler) : Scheduler :=
  mkScheduler q (m_activeThreadCount w) (m_idleThreadCount w) (m_stopping w) (m_autoStop w)
    (m_rootThread w) (m_rootFiber w) (m_threadCount w) (fibers w) (next_id w) (fiber_count w)
    (threads w) (output w) (tickles w).
Definition add_active (d : Z) (w : Scheduler) : Scheduler :=
  mkScheduler (m_fibers w) (u64 (m_activeThreadCount w + d)) (m_idleThreadCount w) (m_stopping w)
    (m_autoStop w) (m_rootThread w) (m_rootFiber w) (m_threadCount w) (fibers w) (next_id w)
    (fiber_count w) (threads w) (output w) (tickles w).
Definition add_idle (d : Z) (w : Scheduler) : Scheduler :=
  mkScheduler (m_fibers w) (m_activeThreadCount w) (u64 (m_idleThreadCount w + d)) (m_stopping w)
    (m_autoStop w) (m_rootThread w) (m_rootFiber w) (m_threadCount w) (fibers w) (next_id w)
    (fiber_count w) (threads w) (output w) (tickles w).
Definition set_stop (stop auto_ : bool) (w : Scheduler) : Scheduler :=
  mkScheduler (m_fibers w) (m_activeThreadCount w) (m_idleThreadCount w) stop auto_
    (m_rootThread w) (m_rootFiber w) (m_threadCount w) (fibers w) (next_id w) (fiber_count w)
    (threads w) (output w) (tickles w).
Definition set_root (thread_ : Z) (root : option nat) (count : Z) (w : Scheduler) : Scheduler :=
  mkScheduler (m_fibers w) (m_activeThreadCount w) (m_idleThreadCount w) (m_stopping w) (m_autoStop w)
    thread_ root count (fibers w) (next_id w) (fiber_count w) (threads w) (output w) (tickles w).
Definition set_threads (l : list Thread) (w : Scheduler) : Scheduler :=
  mkScheduler (m_fibers w) (m_activeThreadCount w) (m_idleThreadCount w) (m_stopping w) (m_autoStop w)
    (m_rootThread w) (m_rootFiber w) (m_threadCount w) (fibers w) (next_id w) (fiber_count w) l
    (output w) (tickles w).
Definition emit (a : Z) (w : Scheduler) : Scheduler :=
  mkScheduler (m_fibers w) (m_activeThreadCount w) (m_idleThreadCount w) (m_stopping w) (m_autoStop w)
    (m_rootThread w) (m_rootFiber w) (m_threadCount w) (fibers w) (next_id w) (fiber_count w)
    (threads w) (output w ++ [a]) (tickles w).

(** [tickle()]: how often it was called *)
Definition tickle : SM unit := modify (fun w =>
  mkScheduler (m_fibers w) (m_activeThreadCount w) (m_idleThreadCount w) (m_stopping w) (m_autoStop w)
    (m_rootThread w) (m_rootFiber w) (m_threadCount w) (fibers w) (next_id w) (fiber_count w)
    (threads w) (output w) (tickles w + 1)).

(** A thread's place in [run]. *)
Definition goto (i : nat) (pc : Pc) : SM unit := fun w =>
  match threads w !! i with
  | None => Undef null_deref
  | Some t => Ok tt (set_threads (<[i := mkThread (tid t) pc (idle_fiber t) (th_fiber t)
                                           (th_threadFiber t) (th_mainFiber t)]> (threads w)) w)
  end.
Definition set_idle_fiber (i : nat) (st : State) : SM unit := fun w =>
  match threads w !! i with
  | None => Undef null_deref
  | Some t => Ok tt (set_threads (<[i := mkThread (tid t) (loc t) st (th_fiber t)
                                           (th_threadFiber t) (th_mainFiber t)]> (threads w)) w)
  end.

(** An operation of Fiber, made by thread [i]. *)
Definition on_thread {A} (i : nat) (m : FM A) : SM A := fun w =>
  match threads w !! i with
  | None => Undef null_deref
  | Some t =>
      let put_back v := mkScheduler (m_fibers w) (m_activeThreadCount w) (m_idleThreadCount w)
        (m_stopping w) (m_autoStop w) (m_rootThread w) (m_rootFiber w) (m_threadCount w)
        (heap v) (s_fiber_id v) (s_fiber_count v)
        (<[i := mkThread (tid t) (loc t) (idle_fiber t) (t_fiber v) (t_threadFiber v) (t_mainFiber v)]>
           (threads w)) (output w) (tickles w) in
      match m (mkFibers (fibers w) (next_id w) (fiber_count w) (th_fiber t) (th_threadFiber t)
                 (th_mainFiber t)) with
      | Ok a v => Ok a (put_back v)
      | Throw e v => Throw e (put_back v)
      | Undef u => Undef u
      end
  end.

Definition state_of (fs : list Fiber) (f : nat) : State := from_option m_state TERM (fs !! f).

(** [scheduleNolock(fc, thread)]: is a thread to be woken? *)
Definition scheduleNolock (ft : FiberAndThread) : SM bool := fun w =>
  let need_tickle := match m_fibers w with [] => true | _ => false end in
  match fiber ft, cb ft with
  | None, None => Ok need_tickle w
  | _, _ => Ok need_tickle (set_queue (m_fibers w ++ [ft]) w)
  end.
(** [schedule(fc, thread)] *)
Definition schedule (ft : FiberAndThread) : SM unit :=
  need_tickle <- scheduleNolock ft ;; if need_tickle : bool then tickle else ret tt.
(** [schedule(begin, end)], and what it does under its lock *)
Fixpoint schedule_range (l : list FiberAndThread) (need_tickle : bool) : SM bool :=
  match l with
  | [] => ret need_tickle
  | ft :: l => n <- scheduleNolock (mkFT (fiber ft) (cb ft) (-1)) ;; schedule_range l (n || need_tickle)
  end.
Definition schedule_all (l : list FiberAndThread) : SM unit :=
  need_tickle <- schedule_range l false ;; if need_tickle : bool then tickle else ret tt.

(** The locked section of [run]: whether a task of another thread was passed over, and the
    task taken with what is left. *)
Definition eligible (fs : list Fiber) (me : Z) (ft : FiberAndThread) : bool :=
  ((thread ft =? -1) || (thread ft =? me)) &&
  match fiber ft with Some f => negb (bool_decide (state_of fs f = EXEC)) | None => true end.
Fixpoint pick (fs : list Fiber) (me : Z) (l : list FiberAndThread)
    : bool * option (FiberAndThread * list FiberAndThread) :=
  match l with
  | [] => (false, None)
  | it :: l =>
      let skip (tickle_me : bool) :=
        let '(t, r) := pick fs me l in
        (tickle_me || t, match r with Some (ft, rest) => Some (ft, it :: rest) | None => None end) in
      if negb (thread it =? -1) && negb (thread it =? me) then skip true
      else match fiber it with
           | Some f => if decide (state_of fs f = EXEC) then skip false else (false, Some (it, l))
           | None => (false, Some (it, l))
           end
  end.

(** [stopping()] *)
Definition stopping (w : Scheduler) : bool :=
  m_autoStop w && m_stopping w && match m_fibers w with [] => true | _ => false end
  && (m_activeThreadCount w =? 0).

(** One step of the code that runs in fiber [f] on thread [i]. *)
Definition code_step (i f : nat) (k : code) : SM (list event) :=
  match k with
  | Return => on_thread i (MainFunc_end f false) ;;; goto i (Leaving f None) ;;; ret []
  | Raise => on_thread i (MainFunc_end f true) ;;; goto i (Leaving f None) ;;; ret []
  | Act a k => modify (emit a) ;;; goto i (Inside f k) ;;; ret []
  | YieldReady k => c <- on_thread i YeildToReady ;; goto i (Leaving c (Some k)) ;;; ret []
  | YieldHold k => c <- on_thread i YeildToHold ;; goto i (Leaving c (Some k)) ;;; ret []
  | ScheduleCb c thr k =>
      let ft := mkFT None (Some c) thr in
      schedule ft ;;; goto i (Inside f k) ;;; ret [Scheduled ft]
  | ScheduleFiber g thr k =>
      let ft := mkFT (Some g) None thr in
      schedule ft ;;; goto i (Inside f k) ;;; ret [Scheduled ft]
  end.

(** [t_fiber = f] in this file *)
Definition set_main (f : option nat) : FM unit := modify (fun v =>
  mkFibers (heap v) (s_fiber_id v) (s_fiber_count v) (t_fiber v) (t_threadFiber v) f).

(** The switch to fiber [f] in [run]. *)
Definition enter (i f : nat) : SM unit :=
  b <- on_thread i (swapIn f) ;;
  x <- on_thread i (the_fiber f) ;;
  goto i (if b : bool then Inside f (m_context x) else Back f).

(** What [run] does before its loop, and after it when it is the root fiber. *)
Definition run_begin (i : nat) : SM unit := fun w =>
  match threads w !! i with
  | None => Undef null_deref
  | Some t =>
      ((if tid t =? m_rootThread w then ret tt
        else on_thread i (f <- GetThis ;; set_main (Some f))) ;;;
       on_thread i (modify (fun v => mkFibers (heap v) (u64 (s_fiber_id v + 1)) (u64 (s_fiber_count v + 1))
                                       (t_fiber v) (t_threadFiber v) (t_mainFiber v))) ;;;
       set_idle_fiber i INIT) w
  end.
Definition run_end (i : nat) : SM unit := fun w =>
  match m_rootFiber w with
  | Some r => if decide (i = 0%nat) then on_thread i (MainFunc_end r false) w else Ok tt w
  | None => Ok tt w
  end.

(** A visit to the idle fiber: [idle()] asks [stopping()] and holds, or ends. *)
Definition idle_visit (i : nat) : SM unit := fun w =>
  (set_idle_fiber i (if stopping w then TERM else HOLD) ;;;
   on_thread i (v <- get ;; SetThis (t_threadFiber v))) w.

(** [run()], a step of thread [i]; [configured] is fiber.stack_size. *)
Definition thread_step (configured : Z) (i : nat) : SM (list event) := fun w =>
  match threads w !! i with
  | None => Ok [] w
  | Some t =>
      (match loc t with
       | NotStarted | Exit => ret []
       | Begin => run_begin i ;;; goto i Pick ;;; ret []
       | Pick =>
           let '(tickle_me, r) := pick (fibers w) (tid t) (m_fibers w) in
           match r with
           | Some (ft, rest) =>
               modify (set_queue rest) ;;; modify (add_active 1) ;;;
               (if tickle_me : bool then tickle else ret tt) ;;;
               goto i (Took ft) ;;; ret [Taken (tid t) ft]
           | None =>
               (if tickle_me : bool then tickle else ret tt) ;;;
               (if decide (idle_fiber t = TERM) then run_end i ;;; goto i Exit
                else modify (add_idle 1) ;;; goto i Idle) ;;; ret []
           end
       | Took ft =>
           let live := match fiber ft with
                       | Some f => if finished (state_of (fibers w) f) then None else Some f
                       | None => None
                       end in
           match live, cb ft with
           | Some f, _ => enter i f ;;; ret []
           | None, Some c =>
               f <- on_thread i (new_Fiber configured c 0 false) ;; enter i f ;;; ret []
           | None, None => modify (add_active (-1)) ;;; goto i Pick ;;; ret []
           end
       | Inside f k => code_step i f k
       | Leaving f k =>
           match k with Some k => on_thread i (save_context f k) | None => ret tt end ;;;
           goto i (Back f) ;;; ret []
       | Back f => modify (add_active (-1)) ;;; goto i (Again f) ;;; ret []
       | Again f =>
           if decide (state_of (fibers w) f = READY) then
             let ft := mkFT (Some f) None (-1) in
             schedule ft ;;; goto i Pick ;;; ret [Scheduled ft]
           else goto i Pick ;;; ret []
       | Idle =>
           idle_visit i ;;; modify (add_idle (-1)) ;;; goto i Pick ;;; ret []
       end) w
  end.

(** An interleaving. *)
Fixpoint steps (configured : Z) (order : list nat) : SM (list event) :=
  match order with
  | [] => ret []
  | i :: order => e <- thread_step configured i ;; e' <- steps configured order ;; ret (e ++ e')
  end.

(** ** Starting and stopping *)

(** [Scheduler(threads, use_caller, name)], in a process in which the thread [me] has made the
    fibers of [v] and, when [busy], belongs to another scheduler. *)
Definition blank (me : Z) (v : Fibers) : Scheduler :=
  mkScheduler [] 0 0 true false 0 None 0 (heap v) (s_fiber_id v) (s_fiber_count v)
    [mkThread me NotStarted INIT (t_fiber v) (t_threadFiber v) (t_mainFiber v)] [] 0.
Definition construct (configured me n : Z) (use_caller busy : bool) : SM unit :=
  wyze_assert (0 <? n) "threads > 0" ;;;
  if use_caller then
    on_thread 0 GetThis ;;;
    wyze_assert (negb busy) "GetThis() == nullptr" ;;;
    r <- on_thread 0 (new_Fiber configured Return 0 true) ;;
    on_thread 0 (set_main (Some r)) ;;;
    modify (set_root me (Some r) (n - 1))
  else modify (set_root (-1) None n).

(** [start()]; [tids] are the ids of the new threads. *)
Definition start (tids : list Z) : SM unit := fun w =>
  if negb (m_stopping w) then Ok tt w
  else
    let w := set_stop false (m_autoStop w) w in
    (wyze_assert (length (threads w) =? 1)%nat "m_threads.empty()" ;;;
     modify (fun w => set_threads (threads w ++
       map (fun t => mkThread t Begin INIT None None None) (take (Z.to_nat (m_threadCount w)) tids)) w)) w.

(** [stop()] up to the joining of the threads; [this]: is it called in one of the scheduler's
    own threads? *)
Definition stop (this : bool) : SM unit := fun w =>
  let w := set_stop (m_stopping w) true w in
  let at_rest := match m_rootFiber w with
                 | Some r => (m_threadCount w =? 0) &&
                     (bool_decide (state_of (fibers w) r = TERM) || bool_decide (state_of (fibers w) r = INIT))
                 | None => false
                 end in
  let w := if at_rest then set_stop true true w else w in
  if at_rest && stopping w then Ok tt w
  else
    (wyze_assert (if m_rootThread w =? -1 then negb this else this) "GetThis() == this" ;;;
     modify (set_stop true true) ;;;
     Nat.iter (Z.to_nat (m_threadCount w)) (fun m => m ;;; tickle) (ret tt) ;;;
     match m_rootFiber w with
     | None => ret tt
     | Some r =>
         tickle ;;;
         w <- get ;;
         if stopping w then ret tt
         else b <- on_thread 0 (call r) ;; if b : bool then goto 0 Begin else ret tt
     end) w.
