(* ===== verification/SchedulerSpec.v ===== *)
(** * What the scheduler guarantees: every task is taken once, by a thread that may take it;
    one thread drains the queue; and where two threads run one fiber *)

From S2P Require Import Prelude Fiber Scheduler.

(** ** What the steps do to the queue and the counters *)

Record View := mkView {
  v_queue : list FiberAndThread; v_active : Z; v_idle : Z; v_pcs : list Pc; v_tids : list Z }.
Definition view (w : Scheduler) : View :=
  mkView (m_fibers w) (m_activeThreadCount w) (m_idleThreadCount w) (map loc (threads w)) (map tid (threads w)).
Definition v_goto (i : nat) (pc : Pc) (v : View) : View :=
  mkView (v_queue v) (v_active v) (v_idle v) (<[i := pc]> (v_pcs v)) (v_tids v).
Definition v_push (ft : FiberAndThread) (v : View) : View :=
  mkView (v_queue v ++ [ft]) (v_active v) (v_idle v) (v_pcs v) (v_tids v).

(** Operations that leave the view alone. *)
Create HintDb keeps.
Definition keeps {A} (m : SM A) : Prop := forall w a w', m w = Ok a w' -> view w' = view w.

Lemma keeps_ret {A} (a : A) : keeps (ret a).
Proof. intros w x w' [= <- <-]. done. Qed.
Lemma keeps_bind {A B} (m : SM A) (k : A -> SM B) : keeps m -> (forall a, keeps (k a)) -> keeps (bind m k).
Proof. intros Hm Hk w b w' (a & w1 & E1 & E2)%bind_returns. by rewrite (Hk a _ _ _ E2), (Hm _ _ _ E1). Qed.
Lemma keeps_tickle : keeps tickle.
Proof. intros w a w' [= <- <-]. done. Qed.
Lemma keeps_assert b s : keeps (wyze_assert b s).
Proof. intros w a w'. by destruct b; intros [= <- <-]. Qed.

Lemma view_insert_thread w i t t' fs a b o tk :
  threads w !! i = Some t -> loc t' = loc t -> tid t' = tid t ->
  view (mkScheduler (m_fibers w) (m_activeThreadCount w) (m_idleThreadCount w) (m_stopping w) (m_autoStop w)
    (m_rootThread w) (m_rootFiber w) (m_threadCount w) fs a b (<[i := t']> (threads w)) o tk) = view w.
Proof.
  intros Hi Hl Ht. unfold view. cbn. f_equal;
    rewrite list_fmap_insert; apply list_insert_id; rewrite list_lookup_fmap, Hi; cbn; by f_equal.
Qed.

Lemma keeps_on_thread {A} i (m : FM A) : keeps (on_thread i m).
Proof.
  intros w a w' H. unfold on_thread in H. destruct (threads w !! i) as [t|] eqn:Hi; [|done].
  destruct (m _) as [x v|e v|u]; [|done|done]. injection H as _ <-.
  by apply view_insert_thread with t.
Qed.
Lemma keeps_set_idle_fiber i st : keeps (set_idle_fiber i st).
Proof.
  intros w a w' H. unfold set_idle_fiber in H. destruct (threads w !! i) as [t|] eqn:Hi; [|done].
  injection H as _ <-. by apply (view_insert_thread w i t).
Qed.
#[local] Hint Resolve keeps_ret keeps_bind keeps_tickle keeps_assert keeps_on_thread keeps_set_idle_fiber : keeps.

Lemma keeps_if (b : bool) {A} (m n : SM A) : keeps m -> keeps n -> keeps (if b then m else n).
Proof. by destruct b. Qed.
#[local] Hint Resolve keeps_if : keeps.

Lemma keeps_run_begin i : keeps (run_begin i).
Proof.
  intros w a w' H. unfold run_begin in H. destruct (threads w !! i) as [t|] eqn:Hi; [|done].
  revert H. apply keeps_bind; [|intros _; auto with keeps].
  destruct (tid t =? m_rootThread w); auto with keeps.
Qed.
Lemma keeps_run_end i : keeps (run_end i).
Proof.
  intros w a w' H. unfold run_end in H.
  destruct (m_rootFiber w); [destruct (decide _)|]; [by eapply keeps_on_thread| |]; by injection H as _ <-.
Qed.

Lemma keeps_idle_visit i : keeps (idle_visit i).
Proof.
  intros w a w' H. unfold idle_visit in H. revert H. apply keeps_bind; intros; auto with keeps.
Qed.

Lemma goto_view i pc w a w' : goto i pc w = Ok a w' -> view w' = v_goto i pc (view w).
Proof.
  intros H. unfold goto in H. destruct (threads w !! i) as [t|] eqn:Hi; [|done]. injection H as _ <-.
  unfold view, v_goto. cbn. rewrite !list_fmap_insert. cbn. f_equal.
  apply list_insert_id. by rewrite list_lookup_fmap, Hi.
Qed.

Lemma schedule_view ft w a w' : is_Some (fiber ft) \/ is_Some (cb ft) ->
  schedule ft w = Ok a w' -> view w' = v_push ft (view w).
Proof.
  intros Hs H. unfold schedule in H. apply bind_returns in H as (b & w1 & E & H).
  assert (view w1 = v_push ft (view w)) as <-.
  { unfold scheduleNolock in E. destruct (fiber ft), (cb ft); try (by injection E as _ <-).
    by destruct Hs as [[]|[]]. }
  destruct b; [by eapply keeps_tickle|by eapply keeps_ret].
Qed.

Lemma schedule_cb_view c thr w a w' :
  schedule (mkFT None (Some c) thr) w = Ok a w' -> view w' = v_push (mkFT None (Some c) thr) (view w).
Proof. apply schedule_view. right. by exists c. Qed.
Lemma schedule_fiber_view f thr w a w' :
  schedule (mkFT (Some f) None thr) w = Ok a w' -> view w' = v_push (mkFT (Some f) None thr) (view w).
Proof. apply schedule_view. left. by exists f. Qed.

(** Is a thread at [pc] running a task, is it in its idle fiber? *)
Definition busy (pc : Pc) : bool :=
  match pc with Took _ | Inside _ _ | Leaving _ _ | Back _ => true | _ => false end.
Definition idling (pc : Pc) : bool := match pc with Idle => true | _ => false end.

Lemma enter_view i f w a w' : enter i f w = Ok a w' ->
  exists pc, busy pc = true /\ idling pc = false /\ view w' = v_goto i pc (view w).
Proof.
  intros H. unfold enter in H. apply bind_returns in H as (b & w1 & E1 & H).
  apply bind_returns in H as (x & w2 & E2 & H).
  rewrite (goto_view _ _ _ _ _ H), (keeps_on_thread _ _ _ _ _ E2), (keeps_on_thread _ _ _ _ _ E1).
  eexists. split_and!; [..|done]; by destruct b.
Qed.

Lemma pick_take fs me l t ft rest : pick fs me l = (t, Some (ft, rest)) ->
  exists pre, l = pre ++ ft :: drop (length pre) rest /\ take (length pre) rest = pre /\
    eligible fs me ft = true /\ Forall (fun x => eligible fs me x = false) pre.
Proof.
  revert t rest. induction l as [|it l IH]; intros t rest H; cbn [pick] in H; [done|].
  assert (forall b, (let '(t, r) := pick fs me l in
      (b || t, match r with Some (ft, rest) => Some (ft, it :: rest) | None => None end)) = (t, Some (ft, rest)) ->
    eligible fs me it = false ->
    exists pre, it :: l = pre ++ ft :: drop (length pre) rest /\ take (length pre) rest = pre /\
    eligible fs me ft = true /\ Forall (fun x => eligible fs me x = false) pre) as Hskip.
  { intros b Hb Hn. destruct (pick fs me l) as [t0 [[ft0 rest0]|]]; [|done].
    injection Hb as _ -> <-. destruct (IH _ _ eq_refl) as (pre & Hl & Ht & He & Hf).
    exists (it :: pre). cbn [length drop take app]. rewrite Hl, Ht at 1. split_and!; try done. by constructor. }
  destruct (negb (thread it =? -1) && negb (thread it =? me)) eqn:Ethr.
  { apply (Hskip true H). unfold eligible. apply andb_true_iff in Ethr as [E1%negb_true_iff E2%negb_true_iff].
    by rewrite E1, E2. }
  assert ((thread it =? -1) || (thread it =? me) = true) as Hok.
  { apply andb_false_iff in Ethr as [E%negb_false_iff|E%negb_false_iff]; rewrite E; [done|apply orb_true_r]. }
  destruct (fiber it) as [f|] eqn:Ef.
  - destruct (decide (state_of fs f = EXEC)) as [Hx|Hx].
    + apply (Hskip false H). unfold eligible. rewrite Ef, bool_decide_eq_true_2 by done. apply andb_false_r.
    + injection H as _ <- <-. exists []. cbn. split_and!; try done.
      unfold eligible. by rewrite Hok, Ef, bool_decide_eq_false_2.
  - injection H as _ <- <-. exists []. cbn. split_and!; try done. unfold eligible. by rewrite Hok, Ef.
Qed.

(** A step of thread [i], with what it did to the queue. *)
Inductive vstep (i : nat) : View -> list event -> View -> Prop :=
  | vs_same v pc pc' : v_pcs v !! i = Some pc -> busy pc' = busy pc -> idling pc' = idling pc ->
      vstep i v [] (v_goto i pc' v)
  | vs_none v : vstep i v [] v
  | vs_push v pc pc' ft : v_pcs v !! i = Some pc -> busy pc' = busy pc -> idling pc' = idling pc ->
      vstep i v [Scheduled ft] (v_goto i pc' (v_push ft v))
  | vs_take v pre ft post me act idle pcs tids fs : v = mkView (pre ++ ft :: post) act idle pcs tids ->
      pcs !! i = Some Pick -> tids !! i = Some me -> eligible fs me ft = true ->
      Forall (fun x => eligible fs me x = false) pre ->
      vstep i v [Taken me ft] (mkView (pre ++ post) (u64 (act + 1)) idle (<[i := Took ft]> pcs) tids)
  | vs_finish v pc pc' : v_pcs v !! i = Some pc -> busy pc = true -> busy pc' = false ->
      idling pc = false -> idling pc' = false ->
      vstep i v [] (mkView (v_queue v) (u64 (v_active v + -1)) (v_idle v) (<[i := pc']> (v_pcs v)) (v_tids v))
  | vs_rest v : v_pcs v !! i = Some Pick ->
      vstep i v [] (mkView (v_queue v) (v_active v) (u64 (v_idle v + 1)) (<[i := Idle]> (v_pcs v)) (v_tids v))
  | vs_wake v : v_pcs v !! i = Some Idle ->
      vstep i v [] (mkView (v_queue v) (v_active v) (u64 (v_idle v + -1)) (<[i := Pick]> (v_pcs v)) (v_tids v)).

Lemma keeps_goto_view {A} (m : SM A) i pc w a w' :
  keeps m -> (m ;;; goto i pc) w = Ok a w' -> view w' = v_goto i pc (view w).
Proof.
  intros Hm (x & w1 & E1 & E2)%bind_returns. by rewrite (goto_view _ _ _ _ _ E2), (Hm _ _ _ E1).
Qed.

Lemma code_step_vstep i f k w e w' pc : map loc (threads w) !! i = Some pc -> pc = Inside f k ->
  code_step i f k w = Ok e w' -> vstep i (view w) e (view w').
Proof.
  intros Hi -> H. destruct k; cbn [code_step] in H; cbv zeta in H.
  1,2,4,5: invert_binds H; match goal with
    | Eg : goto _ _ _ = Ok _ _, Ek : on_thread _ _ _ = Ok _ _ |- _ =>
        rewrite (goto_view _ _ _ _ _ Eg), (keeps_on_thread _ _ _ _ _ Ek);
        by eapply vs_same; [exact Hi|done..] end.
  - invert_binds H. invert_binds E.
    match goal with Eg : goto _ _ _ = Ok _ _ |- _ => rewrite (goto_view _ _ _ _ _ Eg) end.
    change (view (emit a w)) with (view w). by eapply vs_same; [exact Hi|done..].
  - invert_binds H. match goal with Eg : goto _ _ _ = Ok _ _, Es : schedule _ _ = Ok _ _ |- _ =>
      rewrite (goto_view _ _ _ _ _ Eg), (schedule_cb_view _ _ _ _ _ Es) end.
    by eapply vs_push; [exact Hi|done..].
  - invert_binds H. match goal with Eg : goto _ _ _ = Ok _ _, Es : schedule _ _ = Ok _ _ |- _ =>
      rewrite (goto_view _ _ _ _ _ Eg), (schedule_fiber_view _ _ _ _ _ Es) end.
    by eapply vs_push; [exact Hi|done..].
Qed.

Lemma take_vstep i w t tickle_me ft rest w1 pcs :
  threads w !! i = Some t -> loc t = Pick -> pick (fibers w) (tid t) (m_fibers w) = (tickle_me, Some (ft, rest)) ->
  pcs = map loc (threads w) -> view w1 = v_goto i (Took ft) (view (add_active 1 (set_queue rest w))) ->
  vstep i (view w) [Taken (tid t) ft] (view w1).
Proof.
  intros Hi Hl Hp -> ->. destruct (pick_take _ _ _ _ _ _ Hp) as (pre & Hq & Ht & He & Hf).
  rewrite <- (take_drop (length pre) rest), Ht. unfold view, v_goto. cbn.
  eapply vs_take; try done; [by rewrite Hq at 1| |]; rewrite list_lookup_fmap, Hi; cbn; by f_equal.
Qed.

Lemma thread_step_vstep configured i w e w' :
  thread_step configured i w = Ok e w' -> vstep i (view w) e (view w').
Proof.
  unfold thread_step. destruct (threads w !! i) as [t|] eqn:Hi; [|intros [= <- <-]; constructor].
  assert (map loc (threads w) !! i = Some (loc t)) as Hpc by by rewrite list_lookup_fmap, Hi.
  destruct (loc t) as [| | |ft|f k|f k|f|f| |] eqn:Hl; intros H.
  - invert_binds H. constructor.
  - invert_binds H. match goal with Eg : goto _ _ _ = Ok _ _, Eb : run_begin _ _ = Ok _ _ |- _ =>
      rewrite (goto_view _ _ _ _ _ Eg), (keeps_run_begin _ _ _ _ Eb) end.
    by eapply vs_same; [exact Hpc|..].
  - destruct (pick (fibers w) (tid t) (m_fibers w)) as [tickle_me [[ft rest]|]] eqn:Hp.
    + invert_binds H. invert_binds E. invert_binds E0.
      match goal with Eg : goto _ _ _ = Ok _ _, Ei : _ = Ok _ ?x |- _ =>
        eapply take_vstep; try done; rewrite (goto_view _ _ _ _ _ Eg) end.
      f_equal. destruct tickle_me; [by rewrite (keeps_tickle _ _ _ E1)|by rewrite (keeps_ret _ _ _ _ E1)].
    + invert_binds H. assert (view w0 = view w) as Hv
        by (destruct tickle_me; [by rewrite (keeps_tickle _ _ _ E)|by rewrite (keeps_ret _ _ _ _ E)]).
      destruct (decide (idle_fiber t = TERM)).
      * rewrite (keeps_goto_view _ _ _ _ _ _ (keeps_run_end i) E0), Hv. by eapply vs_same; [exact Hpc|..].
      * invert_binds E0. match goal with Eg : goto _ _ _ = Ok _ _ |- _ => rewrite (goto_view _ _ _ _ _ Eg) end.
        invert_binds E1. change (view (add_idle 1 w0)) with
          (mkView (v_queue (view w0)) (v_active (view w0)) (u64 (v_idle (view w0) + 1)) (v_pcs (view w0)) (v_tids (view w0))).
        rewrite Hv. by apply vs_rest.
  - destruct (match fiber ft with Some f => if finished (state_of (fibers w) f) then None else Some f | None => None end)
      as [f|] eqn:Ef; [|destruct (cb ft) as [c|]]; cbv zeta in H; rewrite ?Ef in H; invert_binds H.
    + destruct (enter_view _ _ _ _ _ E) as (pc & Hb & Hd & ->). by eapply vs_same; [exact Hpc|..].
    + destruct (enter_view _ _ _ _ _ E0) as (pc & Hb & Hd & ->). rewrite (keeps_on_thread _ _ _ _ _ E).
      by eapply vs_same; [exact Hpc|..].
    + invert_binds E. rewrite (goto_view _ _ _ _ _ E0). by eapply (vs_finish i (view w)); [exact Hpc|..].
  - by eapply code_step_vstep.
  - invert_binds H. rewrite (goto_view _ _ _ _ _ E0).
    assert (view w0 = view w) as -> by (destruct k; [by eapply keeps_on_thread|by eapply keeps_ret]).
    by eapply vs_same; [exact Hpc|..].
  - invert_binds H. invert_binds E. rewrite (goto_view _ _ _ _ _ E0).
    by eapply (vs_finish i (view w)); [exact Hpc|..].
  - destruct (decide _); cbv zeta in H; invert_binds H.
    + rewrite (goto_view _ _ _ _ _ E0), (schedule_fiber_view _ _ _ _ _ E).
      by eapply vs_push; [exact Hpc|..].
    + rewrite (goto_view _ _ _ _ _ E). by eapply vs_same; [exact Hpc|..].
  - invert_binds H. invert_binds E0. rewrite (goto_view _ _ _ _ _ E1).
    change (view (add_idle (-1) w0)) with
      (mkView (v_queue (view w0)) (v_active (view w0)) (u64 (v_idle (view w0) + -1)) (v_pcs (view w0)) (v_tids (view w0))).
    rewrite (keeps_idle_visit _ _ _ _ E). by apply vs_wake.
  - invert_binds H. constructor.
Qed.

(** ** Safety under every interleaving *)

Fixpoint count (b : Pc -> bool) (l : list Pc) : Z :=
  match l with [] => 0 | pc :: l => (if b pc then 1 else 0) + count b l end.

Lemma count_range b l : 0 <= count b l <= Z.of_nat (length l).
Proof. induction l as [|pc l IH]; cbn [count length]; [lia|]. destruct (b pc); lia. Qed.

Lemma count_insert b l : forall i pc pc', l !! i = Some pc ->
  count b (<[i := pc']> l) + (if b pc then 1 else 0) = count b l + (if b pc' then 1 else 0).
Proof.
  induction l as [|x l IH]; intros [|i] pc pc' H; try done.
  - injection H as ->. cbn. lia.
  - change (<[S i := pc']> (x :: l)) with (x :: <[i := pc']> l). cbn [count].
    specialize (IH i pc pc' H). lia.
Qed.

Lemma count_0 b l : count b l = 0 -> Forall (fun pc => b pc = false) l.
Proof.
  induction l as [|x l IH]; cbn [count]; [by constructor|]. intros H. pose proof (count_range b l).
  destruct (b x) eqn:E; [lia|]. constructor; [done|apply IH; lia].
Qed.

(** The counters count the threads that run a task and those in their idle fiber. *)
Definition v_consistent (v : View) : Prop :=
  v_active v = count busy (v_pcs v) /\ v_idle v = count idling (v_pcs v) /\
  Z.of_nat (length (v_pcs v)) < 2 ^ 64.
Definition consistent (w : Scheduler) : Prop :=
  m_activeThreadCount w = count busy (map loc (threads w)) /\
  m_idleThreadCount w = count idling (map loc (threads w)) /\
  Z.of_nat (length (threads w)) < 2 ^ 64.

Lemma consistent_view w : consistent w <-> v_consistent (view w).
Proof. unfold consistent, v_consistent. cbn. by rewrite length_map. Qed.

Lemma vstep_consistent i v e v' : vstep i v e v' -> v_consistent v -> v_consistent v'.
Proof.
  intros S (Ha & Hi & Hl). pose proof (count_range busy (v_pcs v')) as Rb.
  pose proof (count_range idling (v_pcs v')) as Ri.
  assert (forall pc pc', v_pcs v !! i = Some pc ->
    count busy (<[i:=pc']> (v_pcs v)) + (if busy pc then 1 else 0) = count busy (v_pcs v) + (if busy pc' then 1 else 0) /\
    count idling (<[i:=pc']> (v_pcs v)) + (if idling pc then 1 else 0) = count idling (v_pcs v) + (if idling pc' then 1 else 0))
    as C by (intros; split; by apply count_insert).
  unfold v_consistent. destruct S as
    [v pc pc' Hp Eb Ed|v|v pc pc' ft Hp Eb Ed|v pre ft post me act idle pcs tids fs -> Hp _ _ _
    |v pc pc' Hp E1 E2 E3 E4|v Hp|v Hp]; cbn in *; try (destruct (C _ pc' Hp) as [Cb Ci]);
    rewrite ?length_insert in *; try (rewrite ?Eb, ?Ed in *; lia).
  - destruct (C _ (Took ft) Hp) as [Cb Ci]. cbn in Cb, Ci. split_and!; [|lia|done].
    unfold u64. rewrite uwrap_id by fits. lia.
  - rewrite E1, E2, E3, E4 in *. split_and!; [|lia|done].
    unfold u64. rewrite uwrap_id by fits. lia.
  - destruct (C _ Idle Hp) as [Cb Ci]. cbn in Cb, Ci. split_and!; [lia| |done].
    unfold u64. rewrite uwrap_id by fits. lia.
  - destruct (C _ Pick Hp) as [Cb Ci]. cbn in Cb, Ci. split_and!; [lia| |done].
    unfold u64. rewrite uwrap_id by fits. lia.
Qed.

Definition scheduled (evs : list event) : list FiberAndThread :=
  omap (fun e => match e with Scheduled ft => Some ft | _ => None end) evs.
Definition taken (evs : list event) : list FiberAndThread :=
  omap (fun e => match e with Taken _ ft => Some ft | _ => None end) evs.
(** A task is taken by a thread of the scheduler, the one it is meant for when it names one. *)
Definition allowed (tids : list Z) (e : event) : Prop :=
  match e with
  | Taken me ft => me ∈ tids /\ (thread ft = -1 \/ thread ft = me)
  | Scheduled _ => True
  end.

Lemma vstep_queue i v e v' : vstep i v e v' ->
  v_queue v ++ scheduled e ≡ₚ taken e ++ v_queue v' /\ Forall (allowed (v_tids v)) e /\ v_tids v' = v_tids v.
Proof.
  destruct 1 as [v pc pc' Hp Eb Ed|v|v pc pc' ft Hp Eb Ed|v pre ft post me act idle pcs tids fs -> Hp Ht He _
    |v pc pc' Hp E1 E2 E3 E4|v Hp|v Hp]; cbn; rewrite ?app_nil_r; split_and!; try done.
  - by constructor.
  - symmetry. apply Permutation_middle.
  - constructor; [|done]. split; [by eapply list_elem_of_lookup_2|].
    unfold eligible in He. apply andb_true_iff in He as [He _]. apply orb_true_iff in He. lia.
Qed.

Lemma steps_view configured order : forall w evs w', steps configured order w = Ok evs w' ->
  v_consistent (view w) ->
  v_consistent (view w') /\ v_tids (view w') = v_tids (view w) /\
  m_fibers w ++ scheduled evs ≡ₚ taken evs ++ m_fibers w' /\ Forall (allowed (v_tids (view w))) evs.
Proof.
  induction order as [|i order IH]; intros w evs w' H Hc; cbn [steps] in H.
  { injection H as <- <-. cbn. rewrite app_nil_r. done. }
  apply bind_returns in H as (e & w1 & E1 & H). apply bind_returns in H as (e' & w2 & E2 & H).
  injection H as <- <-. apply thread_step_vstep in E1. pose proof (vstep_consistent _ _ _ _ E1 Hc) as Hc1.
  destruct (vstep_queue _ _ _ _ E1) as (Q1 & A1 & T1), (IH _ _ _ E2 Hc1) as (Hc2 & T2 & Q2 & A2).
  split_and!; [done|congruence| |apply Forall_app; rewrite T1 in A2; done].
  unfold scheduled, taken in *. rewrite !omap_app, app_assoc. change (m_fibers w) with (v_queue (view w)).
  rewrite Q1, <- app_assoc. cbn [view v_queue]. rewrite Q2. by rewrite app_assoc.
Qed.

(** C9: whatever the interleaving of the threads, every task scheduled is in the queue until
    exactly one thread takes it, a thread that may; the counters are right; and when
    [stopping()] answers true the queue is empty and no thread runs a task. *)
Theorem scheduler_safety configured order w evs w' :
  consistent w -> steps configured order w = Ok evs w' ->
  m_fibers w ++ scheduled evs ≡ₚ taken evs ++ m_fibers w' /\
  Forall (allowed (map tid (threads w))) evs /\ consistent w' /\
  (stopping w' = true -> m_fibers w' = [] /\ Forall (fun t => busy (loc t) = false) (threads w')).
Proof.
  intros Hc%consistent_view H. destruct (steps_view _ _ _ _ _ H Hc) as (Hc' & _ & Hq & Ha).
  split_and!; [done|done|by apply consistent_view|]. intros Hs. unfold stopping in Hs.
  apply andb_true_iff in Hs as [Hs Hact%Z.eqb_eq]. apply andb_true_iff in Hs as [_ Hs].
  split; [by destruct (m_fibers w')|]. destruct Hc' as [Hb _]. cbn in Hb. rewrite Hact in Hb.
  symmetry in Hb. apply count_0 in Hb. by apply Forall_fmap in Hb.
Qed.

(** ** One thread drains the queue *)

(** How much a callback has left to do; a fiber or a task of the queue. *)
Fixpoint cost (k : code) : nat :=
  match k with
  | Return | Raise => 1
  | Act _ k | YieldHold k => 1 + cost k
  | YieldReady k => 3 + cost k
  | ScheduleCb c _ k => 3 + cost c + cost k
  | ScheduleFiber _ _ k => 3 + cost k
  end%nat.
Definition fiber_cost (x : Fiber) : nat :=
  match m_state x with INIT | HOLD | READY => cost (m_context x) | _ => 0 end%nat.
Definition task_cost (ft : FiberAndThread) : nat :=
  (2 + match cb ft with Some c => cost c | None => 0 end)%nat.

Lemma sum_insert {A} (g : A -> nat) l : forall i x y, l !! i = Some x ->
  (sum_list_with g (<[i := y]> l) + g x = sum_list_with g l + g y)%nat.
Proof.
  induction l as [|z l IH]; intros [|i] x y H; try done.
  - injection H as ->. cbn. lia.
  - change (<[S i := y]> (z :: l)) with (z :: <[i := y]> l). cbn [sum_list_with foldr].
    specialize (IH i x y H). cbn in *. lia.
Qed.

Section lone.
(** One thread [me], whose own fiber is [mf] and whose root fiber is [r]; callbacks refer to the
    fibers below [hi]. *)
Context (configured me : Z) (hi mf r : nat).

Fixpoint ok_code (k : code) : Prop :=
  match k with
  | Return | Raise => True
  | Act _ k | YieldHold k | YieldReady k => ok_code k
  | ScheduleCb c thr k => (thr = -1 \/ thr = me) /\ ok_code c /\ ok_code k
  | ScheduleFiber g thr k => (thr = -1 \/ thr = me) /\ (g < hi)%nat /\ ok_code k
  end.
Definition user_fiber (x : Fiber) : Prop :=
  m_state x <> EXEC /\ m_useCaller x = false /\ ok_code (m_context x).
Inductive ok_task : FiberAndThread -> Prop :=
  | ot_cb c thr : thr = -1 \/ thr = me -> ok_code c -> ok_task (mkFT None (Some c) thr)
  | ot_fiber g thr : thr = -1 \/ thr = me -> ok_task (mkFT (Some g) None thr).
(** A task's fiber: one of the callers', or one that a callback runs in. *)
Definition known (fs : list Fiber) (ft : FiberAndThread) : Prop :=
  forall g, fiber ft = Some g -> (g < length fs)%nat /\ g <> mf /\ g <> r.
(** Every fiber but the thread's own, the root and [ex] is at rest. *)
Definition ok_heap (ex : option nat) (fs : list Fiber) : Prop :=
  (hi <= mf)%nat /\ (mf < r)%nat /\ (r < length fs)%nat /\
  (exists x, fs !! r = Some x /\ m_state x = EXEC /\ m_useCaller x = true) /\
  (exists x, fs !! mf = Some x /\ m_state x = EXEC) /\
  forall g x, fs !! g = Some x -> g = mf \/ g = r \/ ex = Some g \/ user_fiber x.
Definition ok_queue (fs : list Fiber) (q : list FiberAndThread) : Prop :=
  Forall (fun ft => ok_task ft /\ known fs ft) q.

Definition lone (q : list FiberAndThread) (act idle : Z) (fs : list Fiber) (id n : Z) (pc : Pc)
    (idl : State) (thf : option nat) (out : list Z) (tk : Z) : Scheduler :=
  mkScheduler q act idle true true me (Some r) 0 fs id n
    [mkThread me pc idl thf (Some mf) (Some r)] out tk.

Definition reach (w w' : Scheduler) : Prop :=
  exists n evs, steps configured (repeat 0%nat n) w = Ok evs w'.

Lemma reach_refl w : reach w w.
Proof. by exists 0%nat, []. Qed.
Lemma reach_step w e w1 w' : thread_step configured 0 w = Ok e w1 -> reach w1 w' -> reach w w'.
Proof.
  intros E (n & evs & H). exists (S n), (e ++ evs). cbn [repeat steps].
  by run E, H.
Qed.
Lemma reach_trans w w1 w2 : reach w w1 -> reach w1 w2 -> reach w w2.
Proof.
  intros (n & e & H). revert w e H. induction n as [|n IH]; intros w e H H2; cbn [repeat steps] in H.
  - by injection H as _ <-.
  - apply bind_returns in H as (e1 & w' & E1 & H). apply bind_returns in H as (e2 & w2' & E2 & H).
    injection H as _ <-. eapply reach_step; [exact E1|]. by eapply IH.
Qed.

Lemma ok_queue_mono fs fs' q : (length fs <= length fs')%nat -> ok_queue fs q -> ok_queue fs' q.
Proof.
  intros Hl Hq. eapply Forall_impl; [exact Hq|]. intros ft [Ht Hk]. split; [done|]. intros g Hg.
  destruct (Hk g Hg) as (? & ? & ?). split_and!; (done || lia).
Qed.
Lemma ok_queue_push fs q ft : ok_queue fs q -> ok_task ft -> known fs ft -> ok_queue fs (q ++ [ft]).
Proof. intros. apply Forall_app. split; [done|]. by constructor. Qed.

Lemma ok_heap_insert ex f fs x y :
  ok_heap ex fs -> fs !! f = Some x -> f <> mf -> f <> r -> ex = Some f \/ ex = None ->
  (user_fiber y -> ok_heap None (<[f := y]> fs)) /\ ok_heap (Some f) (<[f := y]> fs).
Proof.
  intros (H1 & H2 & H3 & (xr & Hr & Hr') & (xm & Hm & Hm') & H) Hf Nm Nr Hex.
  assert (forall g z, <[f := y]> fs !! g = Some z -> g = f /\ z = y \/ g <> f /\ fs !! g = Some z) as Hg.
  { intros g z Hg. destruct (decide (g = f)) as [->|Hn].
    - rewrite list_lookup_insert_eq in Hg by (by eapply lookup_lt_Some). left. split; [done|congruence].
    - rewrite list_lookup_insert_ne in Hg by done. by right. }
  split; [intros Hy|]; (split_and!; [done|done|by rewrite length_insert| | |]).
  1,4: exists xr; by rewrite list_lookup_insert_ne.
  1,3: exists xm; by rewrite list_lookup_insert_ne.
  - intros g z [[-> ->]|[Hn Hz]]%Hg; [auto|]. destruct (H g z Hz) as [|[|[Hx|]]]; [auto|auto| |auto].
    destruct Hex; congruence.
  - intros g z [[-> ->]|[Hn Hz]]%Hg; [auto|]. destruct (H g z Hz) as [|[|[Hx|]]]; [auto|auto| |auto].
    destruct Hex; congruence.
Qed.

Definition weight (q : list FiberAndThread) (fs : list Fiber) : nat :=
  (sum_list_with task_cost q + sum_list_with fiber_cost fs)%nat.

(** From the moment a context is to be saved back to the head of the loop. *)
Lemma leave_run q fs id n idl out tk f x k :
  ok_heap (Some f) fs -> fs !! f = Some x -> f <> mf -> f <> r ->
  m_state x <> EXEC -> m_useCaller x = false -> (finished (m_state x) = false -> is_Some k) ->
  match k with Some k => ok_code k | None => ok_code (m_context x) end -> ok_queue fs q ->
  exists q' fs' tk',
    reach (lone q 1 0 fs id n (Leaving f k) idl (Some mf) out tk)
          (lone q' 0 0 fs' id n Pick idl (Some mf) out tk') /\
    ok_heap None fs' /\ ok_queue fs' q' /\
    (weight q' fs' + fiber_cost x <=
       weight q fs + (if decide (m_state x = READY) then 2 else 0) + match k with Some k => cost k | None => 0 end)%nat.
Proof.
  intros Hh Hx Nm Nr Hst Huc Hk Hok Hq. pose proof (lookup_lt_Some _ _ _ Hx) as Hlt.
  set (y := match k with Some k => mkFiber (m_id x) (m_stacksize x) (m_stack x) (m_state x) k (m_cb x) (m_useCaller x)
                       | None => x end).
  set (fs' := <[f := y]> fs).
  assert (user_fiber y /\ m_state y = m_state x) as [Hy Hys] by (unfold y, user_fiber; by destruct k).
  destruct (ok_heap_insert _ f fs x y Hh Hx Nm Nr (or_introl eq_refl)) as [Hh' _]. specialize (Hh' Hy).
  assert (ok_queue fs' q) as Hq' by (eapply ok_queue_mono; [|exact Hq]; unfold fs'; by rewrite length_insert).
  assert (fs' !! f = Some y) as Hy' by by apply list_lookup_insert_eq.
  assert (reach (lone q 1 0 fs id n (Leaving f k) idl (Some mf) out tk)
                (lone q 0 0 fs' id n (Again f) idl (Some mf) out tk)) as R.
  { eapply (reach_step _ [] (lone q 1 0 fs' id n (Back f) idl (Some mf) out tk));
      [|eapply reach_step; [reflexivity|apply reach_refl]].
    unfold fs', y. destruct k as [k|].
    - unfold thread_step, lone. cbn. unfold on_thread, bind, save_context. cbn. by rewrite Hx.
    - by rewrite list_insert_id. }
  assert (state_of fs' f = m_state x) as Ey by (unfold state_of; rewrite Hy'; done).
  pose proof (sum_insert fiber_cost fs f x y Hx) as Hs. fold fs' in Hs.
  assert (fiber_cost y <= match k with Some k => cost k | None => 0 end)%nat as Hc.
  { unfold fiber_cost. rewrite Hys. unfold y. destruct k as [k|]; [cbn; destruct (m_state x); lia|].
    destruct (m_state x); cbn [finished] in Hk; try lia; destruct (Hk eq_refl); done. }
  unfold weight. destruct (decide (m_state x = READY)) as [Er|Er].
  - exists (q ++ [mkFT (Some f) None (-1)]), fs', (match q with [] => tk + 1 | _ => tk end).
    split_and!; [|done| |rewrite sum_list_with_app; cbn; lia].
    + eapply reach_trans; [exact R|]. eapply reach_step; [|apply reach_refl].
      unfold thread_step. cbn [lone threads lookup list_lookup loc fibers]. rewrite decide_True by congruence.
      by destruct q.
    + apply ok_queue_push; [done|constructor; by left|]. intros g [= <-]. unfold fs'. by rewrite length_insert.
  - exists q, fs', tk. split_and!; [|done|done|lia].
    eapply reach_trans; [exact R|]. eapply reach_step; [|apply reach_refl].
    unfold thread_step. cbn [lone threads lookup list_lookup loc fibers]. by rewrite decide_False by congruence.
Qed.

Lemma set_state_ok f st fs id n a b c x : fs !! f = Some x ->
  set_state f st (mkFibers fs id n a b c) =
  Ok tt (mkFibers (<[f := mkFiber (m_id x) (m_stacksize x) (m_stack x) st (m_context x) (m_cb x) (m_useCaller x)]> fs)
           id n a b c).
Proof. unfold set_state. cbn. by intros ->. Qed.

Lemma drop_cb_ok f fs id n a b c x : fs !! f = Some x ->
  drop_cb f (mkFibers fs id n a b c) =
  Ok tt (mkFibers (<[f := mkFiber (m_id x) (m_stacksize x) (m_stack x) (m_state x) (m_context x) false (m_useCaller x)]> fs)
           id n a b c).
Proof. unfold drop_cb. cbn. by intros ->. Qed.

(** A yield, or the end of the callback, comes to [leave_run]. *)
Lemma yield_run k st q fs id n idl out tk f x :
  st = READY \/ st = HOLD -> ok_heap (Some f) fs -> fs !! f = Some x -> f <> mf -> f <> r ->
  m_state x = EXEC -> m_useCaller x = false -> ok_code k -> ok_queue fs q ->
  exists q' fs' tk',
    reach (lone q 1 0 fs id n (Inside f (if decide (st = READY) then YieldReady k else YieldHold k)) idl (Some f) out tk)
          (lone q' 0 0 fs' id n Pick idl (Some mf) out tk') /\
    ok_heap None fs' /\ ok_queue fs' q' /\
    (weight q' fs' <= weight q fs + (if decide (st = READY) then 2 else 0) + cost k)%nat.
Proof.
  intros Hst Hh Hx Nm Nr Hs Huc Hk Hq.
  set (y := mkFiber (m_id x) (m_stacksize x) (m_stack x) st (m_context x) (m_cb x) (m_useCaller x)).
  destruct (ok_heap_insert _ f fs x y Hh Hx Nm Nr (or_introl eq_refl)) as [_ Hh'].
  destruct (leave_run q (<[f := y]> fs) id n idl out tk f y (Some k)) as (q' & fs' & tk' & R & H1 & H2 & H3);
    try done; [by apply list_lookup_insert_eq, (lookup_lt_Some _ _ _ Hx)|by destruct Hst as [-> | ->]| |].
  { eapply ok_queue_mono; [|exact Hq]. by rewrite length_insert. }
  exists q', fs', tk'. split_and!; try done.
  - eapply reach_step; [|exact R]. unfold thread_step, lone.
    destruct Hst as [-> | ->]; [rewrite decide_True by done|rewrite decide_False by done];
      cbn; unfold on_thread, bind; cbn; unfold YeildToReady, YeildToHold, YeildTo, GetThis, bind; cbn;
      by rewrite (set_state_ok _ _ _ _ _ _ _ _ _ Hx).
  - pose proof (sum_insert fiber_cost fs f x y Hx) as Hsum.
    assert (fiber_cost x = 0)%nat as Hc by (unfold fiber_cost; by rewrite Hs).
    unfold weight in *. cbn [m_state y] in H3. lia.
Qed.

Lemma end_run (threw : bool) q fs id n idl out tk f x :
  ok_heap (Some f) fs -> fs !! f = Some x -> f <> mf -> f <> r -> m_state x = EXEC ->
  m_useCaller x = false -> ok_code (m_context x) -> ok_queue fs q ->
  exists q' fs' tk',
    reach (lone q 1 0 fs id n (Inside f (if threw then Raise else Return)) idl (Some f) out tk)
          (lone q' 0 0 fs' id n Pick idl (Some mf) out tk') /\
    ok_heap None fs' /\ ok_queue fs' q' /\ (weight q' fs' <= weight q fs)%nat.
Proof.
  intros Hh Hx Nm Nr Hs Huc Hk Hq. pose proof (lookup_lt_Some _ _ _ Hx) as Hlt.
  set (y := mkFiber (m_id x) (m_stacksize x) (m_stack x) (if threw then EXCEPT else TERM) (m_context x)
              (if threw then m_cb x else false) (m_useCaller x)).
  destruct (ok_heap_insert _ f fs x y Hh Hx Nm Nr (or_introl eq_refl)) as [_ Hh'].
  assert (<[f := y]> fs !! f = Some y) as Hy by by apply list_lookup_insert_eq.
  destruct (leave_run q (<[f := y]> fs) id n idl out tk f y None) as (q' & fs' & tk' & R & H1 & H2 & H3);
    try done; [by destruct threw|by destruct threw| |].
  { eapply ok_queue_mono; [|exact Hq]. by rewrite length_insert. }
  exists q', fs', tk'. split_and!; try done.
  - eapply reach_step; [|exact R]. unfold thread_step, lone. cbn.
    assert (forall v, v = mkFibers fs id n (Some f) (Some mf) (Some r) ->
      MainFunc_end f threw v = Ok tt (mkFibers (<[f := y]> fs) id n (Some mf) (Some mf) (Some r))) as E.
    { intros v ->. unfold MainFunc_end. unfold y in *. destruct threw.
      - run (set_state_ok _ _ _ _ _ _ _ _ _ Hx).
        unfold bind, the_fiber. cbn. rewrite Hy. cbn. by rewrite Huc.
      - run (drop_cb_ok _ _ _ _ _ _ _ _ Hx).
        run (set_state_ok _ _ _ _ _ _ _ _ _ (list_lookup_insert_eq _ _ _ Hlt)).
        cbn [m_id m_stacksize m_stack m_context m_cb m_useCaller]. rewrite list_insert_insert_eq.
        unfold bind, the_fiber. cbn. rewrite Hy. cbn. by rewrite Huc. }
    destruct threw; cbn; unfold on_thread, bind; cbn; by rewrite (E _ eq_refl).
  - pose proof (sum_insert fiber_cost fs f x y Hx) as Hsum.
    assert (fiber_cost x = 0)%nat as Hc by (unfold fiber_cost; by rewrite Hs).
    assert (fiber_cost y = 0)%nat as Hc' by (unfold fiber_cost, y; by destruct threw).
    rewrite decide_False in H3 by (unfold y; by destruct threw). unfold weight in *. lia.
Qed.

Lemma inside_run k : forall q fs id n idl out tk f x,
  ok_heap (Some f) fs -> fs !! f = Some x -> f <> mf -> f <> r -> m_state x = EXEC ->
  m_useCaller x = false -> ok_code k -> ok_code (m_context x) -> ok_queue fs q ->
  exists q' fs' out' tk',
    reach (lone q 1 0 fs id n (Inside f k) idl (Some f) out tk)
          (lone q' 0 0 fs' id n Pick idl (Some mf) out' tk') /\
    ok_heap None fs' /\ ok_queue fs' q' /\ (weight q' fs' <= weight q fs + cost k)%nat.
Proof.
  induction k as [| |a k IH|k IH|k IH|c IHc thr k IH|g thr k IH]; intros q fs id n idl out tk f x Hh Hx Nm Nr Hs Huc Hk Hc Hq.
  - destruct (end_run false q fs id n idl out tk f x) as (q' & fs' & tk' & R & H1 & H2 & H3); try done.
    exists q', fs', out, tk'. split_and!; try done. lia.
  - destruct (end_run true q fs id n idl out tk f x) as (q' & fs' & tk' & R & H1 & H2 & H3); try done.
    exists q', fs', out, tk'. split_and!; try done. lia.
  - destruct (IH q fs id n idl (out ++ [a]) tk f x) as (q' & fs' & out' & tk' & R & H1 & H2 & H3); try done.
    exists q', fs', out', tk'. split_and!; try done; [|cbn [cost]; lia].
    by eapply reach_step; [|exact R].
  - destruct (yield_run k READY q fs id n idl out tk f x) as (q' & fs' & tk' & R & H1 & H2 & H3); try done; [by left|].
    exists q', fs', out, tk'. split_and!; try done. cbn [cost]. rewrite decide_True in H3 by done. lia.
  - destruct (yield_run k HOLD q fs id n idl out tk f x) as (q' & fs' & tk' & R & H1 & H2 & H3); try done; [by right|].
    exists q', fs', out, tk'. split_and!; try done. cbn [cost]. rewrite decide_False in H3 by done. lia.
  - destruct Hk as (Ht & Hkc & Hk). set (ft := mkFT None (Some c) thr).
    destruct (IH (q ++ [ft]) fs id n idl out (match q with [] => tk + 1 | _ => tk end) f x)
      as (q' & fs' & out' & tk' & R & H1 & H2 & H3); try done.
    { apply ok_queue_push; [done|by constructor|done]. }
    exists q', fs', out', tk'. split_and!; try done.
    + eapply reach_step; [|exact R]. by destruct q.
    + unfold weight in *. rewrite sum_list_with_app in H3. cbn in H3. cbn [cost]. lia.
  - destruct Hk as (Ht & Hg & Hk). set (ft := mkFT (Some g) None thr).
    destruct (IH (q ++ [ft]) fs id n idl out (match q with [] => tk + 1 | _ => tk end) f x)
      as (q' & fs' & out' & tk' & R & H1 & H2 & H3); try done.
    { apply ok_queue_push; [done|by constructor|]. destruct Hh as (? & ? & ? & _). intros ? [= <-]. lia. }
    exists q', fs', out', tk'. split_and!; try done.
    + eapply reach_step; [|exact R]. by destruct q.
    + unfold weight in *. rewrite sum_list_with_app in H3. cbn in H3. cbn [cost]. lia.
Qed.

Lemma swapIn_ok f fs id n a b c x : fs !! f = Some x -> m_state x <> EXEC -> finished (m_state x) = false ->
  swapIn f (mkFibers fs id n a b (Some c)) =
  Ok true (mkFibers (<[f := mkFiber (m_id x) (m_stacksize x) (m_stack x) EXEC (m_context x) (m_cb x) (m_useCaller x)]> fs)
             id n (Some f) b (Some c)).
Proof.
  intros Hx Hs Hf. unfold swapIn. unfold bind at 1, the_fiber. cbn [heap]. rewrite Hx. cbn [or_undef ret].
  rewrite bool_decide_eq_false_2 by done. cbn. rewrite Hf. unfold bind, SetThis, modify. cbn [heap s_fiber_id s_fiber_count t_threadFiber t_mainFiber].
  by rewrite (set_state_ok _ _ _ _ _ _ _ _ _ Hx).
Qed.

Lemma enter_run q fs id n pc idl thf out tk f x :
  ok_heap None fs -> fs !! f = Some x -> f <> mf -> f <> r -> user_fiber x -> finished (m_state x) = false ->
  ok_queue fs q ->
  exists w q' fs' out' tk', enter 0 f (lone q 1 0 fs id n pc idl thf out tk) = Ok tt w /\
    reach w (lone q' 0 0 fs' id n Pick idl (Some mf) out' tk') /\
    ok_heap None fs' /\ ok_queue fs' q' /\ (weight q' fs' <= weight q fs)%nat.
Proof.
  intros Hh Hx Nm Nr (Hs & Huc & Hk) Hf Hq. pose proof (lookup_lt_Some _ _ _ Hx) as Hlt.
  set (y := mkFiber (m_id x) (m_stacksize x) (m_stack x) EXEC (m_context x) (m_cb x) (m_useCaller x)).
  destruct (ok_heap_insert _ f fs x y Hh Hx Nm Nr (or_intror eq_refl)) as [_ Hh'].
  assert (<[f := y]> fs !! f = Some y) as Hy by by apply list_lookup_insert_eq.
  destruct (inside_run (m_context x) q (<[f := y]> fs) id n idl out tk f y) as (q' & fs' & out' & tk' & R & H1 & H2 & H3);
    try done.
  { eapply ok_queue_mono; [|exact Hq]. by rewrite length_insert. }
  exists (lone q 1 0 (<[f := y]> fs) id n (Inside f (m_context x)) idl (Some f) out tk), q', fs', out', tk'.
  split_and!; try done.
  - unfold enter, lone. unfold on_thread at 1. unfold bind at 1. cbn [threads fibers next_id fiber_count].
    change ([mkThread me pc idl thf (Some mf) (Some r)] !! 0%nat) with (Some (mkThread me pc idl thf (Some mf) (Some r))).
    cbn. rewrite (swapIn_ok _ _ _ _ _ _ _ _ Hx Hs Hf). unfold bind, on_thread. cbn. unfold the_fiber, y. cbn.
    unfold y in Hy. by rewrite Hy.
  - pose proof (sum_insert fiber_cost fs f x y Hx) as Hsum. unfold weight in *.
    assert (fiber_cost x = cost (m_context x)) as Hc by (unfold fiber_cost; by destruct (m_state x)).
    assert (fiber_cost y = 0)%nat as Hc' by done. lia.
Qed.

Lemma pick_first fs ft q : ok_heap None fs -> ok_task ft -> known fs ft ->
  pick fs me (ft :: q) = (false, Some (ft, q)).
Proof.
  intros (_ & _ & _ & _ & _ & H) Ht Hk. cbn [pick].
  assert (negb (thread ft =? -1) && negb (thread ft =? me) = false) as ->
    by (destruct Ht as [c thr [-> | ->] _|g thr [-> | ->]]; cbn [thread]; rewrite ?Z.eqb_refl, ?andb_false_r; done).
  destruct (fiber ft) as [g|] eqn:Eg; [|done]. rewrite decide_False; [done|]. destruct (Hk g Eg) as (Hg & Nm & Nr).
  destruct (lookup_lt_is_Some_2 fs g Hg) as [x Hx]. unfold state_of. rewrite Hx. cbn.
  destruct (H g x Hx) as [|[|[|[]]]]; done.
Qed.

Lemma root_end_ok fs id n a c x : fs !! r = Some x -> m_useCaller x = true ->
  exists y, MainFunc_end r false (mkFibers fs id n a (Some mf) c) =
    Ok tt (mkFibers (<[r := y]> fs) id n (Some mf) (Some mf) c).
Proof.
  intros Hx Huc. pose proof (lookup_lt_Some _ _ _ Hx) as Hlt. eexists.
  unfold MainFunc_end. run (drop_cb_ok _ _ _ _ _ _ _ _ Hx).
  run (set_state_ok _ _ _ _ _ _ _ _ _ (list_lookup_insert_eq _ _ _ Hlt)).
  cbn [m_id m_stacksize m_stack m_context m_cb m_useCaller]. rewrite list_insert_insert_eq.
  unfold back, bind, the_fiber. cbn. rewrite list_lookup_insert_eq by done. cbn. rewrite Huc. cbn.
  rewrite list_lookup_insert_eq by done. cbn. reflexivity.
Qed.

Lemma exit_run fs id n idl thf out tk : ok_heap None fs -> idl <> TERM -> exists fs',
  reach (lone [] 0 0 fs id n Pick idl thf out tk) (lone [] 0 0 fs' id n Exit TERM (Some mf) out tk).
Proof.
  intros (_ & _ & Hlt & (x & Hx & Hs & Huc) & _) Hi.
  destruct (root_end_ok fs id n (Some mf) (Some r) x Hx Huc) as [y E]. exists (<[r := y]> fs).
  eapply (reach_step _ [] (lone [] 0 1 fs id n Idle idl thf out tk)).
  { unfold thread_step, lone. cbn. by rewrite decide_False. }
  eapply (reach_step _ [] (lone [] 0 0 fs id n Pick TERM (Some mf) out tk)); [reflexivity|].
  eapply (reach_step _ []); [|apply reach_refl].
  unfold thread_step, lone. cbn -[run_end]. rewrite (decide_True (P := TERM = TERM)) by done.
  unfold run_end, on_thread, bind. cbn -[MainFunc_end]. rewrite (decide_True (P := 0%nat = 0%nat)) by done.
  by rewrite E.
Qed.

Lemma drain N : forall q fs id n idl thf out tk, (weight q fs < N)%nat ->
  ok_heap None fs -> ok_queue fs q -> idl <> TERM ->
  exists fs' id' n' out' tk',
    reach (lone q 0 0 fs id n Pick idl thf out tk) (lone [] 0 0 fs' id' n' Exit TERM (Some mf) out' tk').
Proof.
  induction N as [|N IH]; intros q fs id n idl thf out tk HN Hh Hq Hi; [lia|].
  destruct q as [|ft q].
  { destruct (exit_run fs id n idl thf out tk Hh Hi) as [fs' R]. by exists fs', id, n, out, tk. }
  apply Forall_cons in Hq as [[Ht Hk] Hq].
  assert (reach (lone (ft :: q) 0 0 fs id n Pick idl thf out tk) (lone q 1 0 fs id n (Took ft) idl thf out tk)) as R0.
  { eapply reach_step; [|apply reach_refl]. unfold thread_step, lone. cbn -[pick].
    by rewrite (pick_first fs ft q Hh Ht Hk). }
  assert (weight (ft :: q) fs = task_cost ft + weight q fs)%nat as Hw by (unfold weight; cbn; lia).
  unfold task_cost in Hw.
  assert (forall f w1 q' fs' id' n' out' tk' e, thread_step configured 0 (lone q 1 0 fs id n (Took ft) idl thf out tk) = Ok e w1 ->
     reach w1 (lone q' 0 0 fs' id' n' Pick idl f out' tk') -> ok_heap None fs' -> ok_queue fs' q' ->
     (weight q' fs' < weight (ft :: q) fs)%nat -> exists fs' id' n' out' tk',
    reach (lone (ft :: q) 0 0 fs id n Pick idl thf out tk) (lone [] 0 0 fs' id' n' Exit TERM (Some mf) out' tk')) as Hgo.
  { intros f w1 q' fs' id' n' out' tk' e E R1 Hh' Hq' Hl.
    destruct (IH q' fs' id' n' idl f out' tk') as (fs2 & id2 & n2 & out2 & tk2 & R2); try done; [lia|].
    exists fs2, id2, n2, out2, tk2. eapply reach_trans; [exact R0|]. eapply reach_step; [exact E|].
    by eapply reach_trans. }
  destruct Ht as [c thr Hthr Hc|g thr Hthr].
  - set (x := mkFiber id (u32 configured) true INIT c true false).
    assert ((fs ++ [x]) !! length fs = Some x) as Hx by (by rewrite list_lookup_middle).
    destruct Hh as (H1 & H2 & H3 & (xr & Hr & Hr') & (xm & Hm & Hm') & H).
    assert (ok_heap None (fs ++ [x])) as Hh'.
    { split_and!; [done|done|rewrite length_app; cbn; lia| | |].
      - exists xr. by rewrite lookup_app_l.
      - exists xm. rewrite lookup_app_l by lia. done.
      - intros g z Hz. apply lookup_app_Some in Hz as [Hz|[Hge Hz]]; [by eapply H|].
        apply list_lookup_singleton_Some in Hz as [_ <-]. by do 3 right. }
    destruct (enter_run q (fs ++ [x]) (u64 (id + 1)) (u64 (n + 1)) (Took (mkFT None (Some c) thr)) idl thf out tk (length fs) x)
      as (w & q' & fs' & out' & tk' & E & R & Hh2 & Hq2 & Hl); try done; try lia.
    { eapply ok_queue_mono; [|exact Hq]. rewrite length_app. cbn. lia. }
    eapply Hgo; [|exact R|done|done|].
    + unfold thread_step, lone. cbn -[enter]. unfold on_thread, new_Fiber, bind. cbn -[enter].
      unfold lone, x in E. change (16 * 1024 <? 0) with false. cbv iota. by rewrite E.
    + unfold weight in *. rewrite sum_list_with_app in Hl. cbn in Hl, Hw. cbn. lia.
  - destruct (Hk g eq_refl) as (Hg & Nm & Nr). destruct (lookup_lt_is_Some_2 fs g Hg) as [x Hx].
    assert (user_fiber x) as Hu by (destruct Hh as (_ & _ & _ & _ & _ & H); by destruct (H g x Hx) as [|[|[|]]]).
    assert (state_of fs g = m_state x) as Es by (unfold state_of; by rewrite Hx).
    destruct (finished (m_state x)) eqn:Ef.
    + eapply (Hgo thf); [|apply reach_refl|done|done|lia].
      unfold thread_step, lone. cbn. rewrite Es, Ef. reflexivity.
    + destruct (enter_run q fs id n (Took (mkFT (Some g) None thr)) idl thf out tk g x)
        as (w & q' & fs' & out' & tk' & E & R & Hh2 & Hq2 & Hl); try done.
      eapply Hgo; [|exact R|done|done|lia].
      unfold thread_step, lone. cbn -[enter]. rewrite Es, Ef. unfold bind. unfold lone in E. by rewrite E.
Qed.

End lone.

(** ** From the constructor to the end of [stop] *)

Definition schedule_each (l : list FiberAndThread) : SM unit :=
  fold_right (fun ft m => schedule ft ;;; m) (ret tt) l.

Lemma schedule_each_ok me hi l : forall q act idle st au rt rf c fs id n ts out tk,
  Forall (ok_task me hi) l ->
  exists tk', schedule_each l (mkScheduler q act idle st au rt rf c fs id n ts out tk) =
    Ok tt (mkScheduler (q ++ l) act idle st au rt rf c fs id n ts out tk').
Proof.
  induction l as [|ft l IH]; intros q act idle st au rt rf c fs id n ts out tk Hl; cbn [schedule_each fold_right].
  { exists tk. by rewrite app_nil_r. }
  apply Forall_cons in Hl as [Ht Hl].
  assert (exists tk1, schedule ft (mkScheduler q act idle st au rt rf c fs id n ts out tk) =
    Ok tt (mkScheduler (q ++ [ft]) act idle st au rt rf c fs id n ts out tk1)) as [tk1 E].
  { destruct Ht; destruct q; eexists; reflexivity. }
  destruct (IH (q ++ [ft]) act idle st au rt rf c fs id n ts out tk1 Hl) as [tk' E'].
  exists tk'. run E. unfold schedule_each in E'. by rewrite E', <- app_assoc.
Qed.

Definition life (configured me : Z) (l : list FiberAndThread) : SM unit :=
  construct configured me 1 true false ;;; start [] ;;; schedule_each l ;;; stop true.

Lemma call_ok f fs id n a b c x : fs !! f = Some x -> m_state x = INIT ->
  call f (mkFibers fs id n a (Some b) c) =
  Ok true (mkFibers (<[f := mkFiber (m_id x) (m_stacksize x) (m_stack x) EXEC (m_context x) (m_cb x) (m_useCaller x)]> fs)
             id n (Some f) (Some b) c).
Proof.
  intros Hx Hs. unfold call. unfold bind at 1, the_fiber. cbn [heap]. rewrite Hx. cbn [or_undef ret]. rewrite Hs.
  change (negb (bool_decide (INIT = EXEC))) with true. unfold bind, SetThis, modify, get, wyze_assert, ret.
  cbn [heap s_fiber_id s_fiber_count t_fiber t_threadFiber t_mainFiber]. rewrite bool_decide_eq_true_2 by done.
  cbn [heap s_fiber_id s_fiber_count t_fiber t_threadFiber t_mainFiber finished].
  by rewrite (set_state_ok _ _ _ _ _ _ _ _ _ Hx).
Qed.

Lemma life_ok configured me fs id n l : me <> -1 -> l <> [] -> Forall (ok_task me (length fs)) l ->
  exists w0 tk fs', life configured me l (blank me (mkFibers fs id n None None None)) = Ok tt w0 /\
    thread_step configured 0 w0 = Ok [] (lone me (length fs) (S (length fs)) l 0 0 fs'
      (u64 (u64 (u64 (id + 1) + 1) + 1)) (u64 (u64 (u64 (n + 1) + 1) + 1)) Pick INIT (Some (S (length fs))) [] tk) /\
    m_fibers w0 = l /\ consistent w0 /\
    exists xm xr, fs' = fs ++ [xm; xr] /\ m_state xm = EXEC /\ m_state xr = EXEC /\ m_useCaller xr = true.
Proof.
  intros Hme Hne Hl. set (fs1 := (fs ++ [mkFiber id 0 false EXEC Return false false]) ++
    [mkFiber (u64 (id + 1)) (u32 configured) true INIT Return true true]).
  set (w1 := mkScheduler [] 0 0 false false me (Some (S (length fs))) 0 fs1 (u64 (u64 (id + 1) + 1))
    (u64 (u64 (n + 1) + 1))
    [mkThread me NotStarted INIT (Some (length fs)) (Some (length fs)) (Some (S (length fs)))] [] 0).
  assert (construct configured me 1 true false (blank me (mkFibers fs id n None None None)) = Ok tt (set_stop true false w1)
          /\ start [] (set_stop true false w1) = Ok tt w1) as [E1 E2].
  { split; [|reflexivity]. unfold construct, blank. cbn. unfold on_thread, bind, GetThis, main_Fiber, new_Fiber, set_main. cbn.
    unfold bind, get. cbn. rewrite bool_decide_eq_true_2 by done. cbn.
    rewrite length_app. cbn [length]. by rewrite Nat.add_1_r. }
  destruct (schedule_each_ok me (length fs) l [] 0 0 false false me (Some (S (length fs))) 0 fs1 (u64 (u64 (id + 1) + 1))
    (u64 (u64 (n + 1) + 1)) (threads w1) [] 0 Hl) as [tk E3].
  assert (fs1 !! S (length fs) = Some (mkFiber (u64 (id + 1)) (u32 configured) true INIT Return true true)) as Hr.
  { unfold fs1. replace (S (length fs)) with (length (fs ++ [mkFiber id 0 false EXEC Return false false]))
      by (rewrite length_app; cbn; lia). apply list_lookup_middle. lia. }
  set (y := mkFiber (u64 (id + 1)) (u32 configured) true EXEC Return true true).
  set (w0 := mkScheduler l 0 0 true true me (Some (S (length fs))) 0 (<[S (length fs) := y]> fs1) (u64 (u64 (id + 1) + 1))
    (u64 (u64 (n + 1) + 1))
    [mkThread me Begin INIT (Some (S (length fs))) (Some (length fs)) (Some (S (length fs)))] [] (tk + 1)).
  exists w0, (tk + 1), (<[S (length fs) := y]> fs1). split_and!; [| |done| |].
  - unfold life. rewrite (bind_ok _ _ _ _ _ E1), (bind_ok _ _ _ _ _ E2), (bind_ok _ _ _ _ _ E3).
    destruct l as [|ft l]; [done|]. unfold stop, set_stop, stopping. cbn -[Z.eqb]. unfold state_of. rewrite Hr.
    cbn -[Z.eqb]. change ((0 =? 0) && (bool_decide (INIT = TERM) || bool_decide (INIT = INIT))) with true.
    cbn -[Z.eqb call]. rewrite (proj2 (Z.eqb_neq me (-1))) by done.
    unfold bind, get, ret, tickle, modify, on_thread, wyze_assert. change (Z.to_nat 0) with 0%nat.
    cbn -[call]. by rewrite (call_ok _ _ _ _ _ _ _ _ Hr eq_refl).
  - unfold thread_step, w0. cbn. unfold bind, run_begin. cbn. rewrite Z.eqb_refl. done.
  - done.
  - exists (mkFiber id 0 false EXEC Return false false), y. split_and!; try done. unfold fs1.
    replace (S (length fs)) with (length (fs ++ [mkFiber id 0 false EXEC Return false false]) + 0)%nat
      by (rewrite length_app; cbn; lia). rewrite insert_app_r. cbn. by rewrite <- app_assoc.
Qed.

(** A task for a thread that the scheduler does not have is never taken, and as long as it is in the
    queue [stopping()] is false: then [stop] does not come to an end. *)
Lemma foreign_task_stays configured order w evs w' ft :
  consistent w -> steps configured order w = Ok evs w' ->
  ft ∈ m_fibers w -> thread ft <> -1 -> thread ft ∉ map tid (threads w) ->
  ft ∈ m_fibers w' /\ stopping w' = false.
Proof.
  intros Hc%consistent_view H Hin Hn Hf. destruct (steps_view _ _ _ _ _ H Hc) as (_ & _ & Hq & Ha).
  assert (ft ∈ m_fibers w') as Hin'.
  { assert (ft ∈ taken evs ++ m_fibers w') as [Ht|?]%elem_of_app by (rewrite <- Hq; apply elem_of_app; by left); [|done].
    apply list_elem_of_omap in Ht as (e & He & Et). destruct e as [|me ft']; [done|]. injection Et as ->.
    rewrite Forall_forall in Ha. destruct (Ha _ He) as [Hme [?|Heq]]; [done|]. rewrite Heq in Hf. by destruct Hf. }
  split; [done|]. unfold stopping. destruct (m_fibers w'); [by apply elem_of_nil in Hin'|]. by rewrite andb_false_r.
Qed.

(** C11: on one thread [stop] comes to an end, however many callbacks and fibers were scheduled, and
    whatever more the callbacks schedule or yield, as long as every task, scheduled from outside or by
    a callback, is for any thread or for this one, and every fiber is one of those that were
    made, not running and no root fiber: the queue is drained, every task has been taken once, and
    nothing is active.  (With a task for another thread it does not: [foreign_task_stays].) *)
Theorem stop_drains configured me fs id n l :
  me <> -1 -> l <> [] -> Forall (user_fiber me (length fs)) fs ->
  Forall (fun ft => ok_task me (length fs) ft /\ forall g, fiber ft = Some g -> (g < length fs)%nat) l ->
  exists w0 k evs w, life configured me l (blank me (mkFibers fs id n None None None)) = Ok tt w0 /\
    steps configured (repeat 0%nat k) w0 = Ok evs w /\
    map loc (threads w) = [Exit] /\ m_fibers w = [] /\ m_activeThreadCount w = 0 /\
    l ++ scheduled evs ≡ₚ taken evs.
Proof.
  intros Hme Hne Hfs Hl.
  destruct (life_ok configured me fs id n l Hme Hne) as (w0 & tk & fs' & E0 & E1 & Hq & Hc & xm & xr & -> & Hm & Hr & Hu).
  { eapply Forall_impl; [exact Hl|]. by intros ft [Ht _]. }
  set (h := fs ++ [xm; xr]) in *. assert (length h = length fs + 2)%nat as Lh by (unfold h; by rewrite length_app).
  assert (h !! length fs = Some xm) as Hxm by by apply list_lookup_middle.
  assert (h !! S (length fs) = Some xr) as Hxr
    by (unfold h; rewrite lookup_app_r, Nat.sub_succ_l, Nat.sub_diag by lia; done).
  destruct (drain configured me (length fs) (length fs) (S (length fs)) (S (weight l h)) l h
    (u64 (u64 (u64 (id + 1) + 1) + 1)) (u64 (u64 (u64 (n + 1) + 1) + 1)) INIT (Some (S (length fs))) [] tk)
    as (fs' & id' & n' & out' & tk' & k & evs & E); [lia| | |done|].
  - split_and!; [lia|lia|lia|by exists xr|by exists xm|]. intros g x Hg.
    unfold h in Hg. apply lookup_app_Some in Hg as [Hg|[Hge Hg]].
    + do 3 right. by eapply Forall_lookup_1 in Hg.
    + apply lookup_lt_Some in Hg as Hlt. cbn in Hlt.
      assert (g = length fs \/ g = S (length fs)) as [-> | ->] by lia; auto.
  - eapply Forall_impl; [exact Hl|]. intros ft [Ht Hg]. split; [done|]. intros g E. specialize (Hg g E). lia.
  - assert (steps configured (repeat 0%nat (S k)) w0 = Ok evs
      (lone me (length fs) (S (length fs)) [] 0 0 fs' id' n' Exit TERM (Some (length fs)) out' tk')) as ES
      by (cbn [repeat steps]; by run E1, E).
    eexists w0, (S k), evs, _. split_and!; [done|exact ES|done|done|done|].
    apply consistent_view in Hc. destruct (steps_view _ _ _ _ _ ES Hc) as (_ & _ & Hp & _).
    rewrite Hq in Hp. cbn in Hp. by rewrite app_nil_r in Hp.
Qed.

(** ** A fiber that holds can be run by two threads *)

(** The callback makes its own fiber runnable, as [addEvent] and an event that is there at once
    do, and holds. *)
Definition racing : code := ScheduleFiber 2 (-1) (YieldHold (Act 7 Return)).
Definition two_threads : outcome Scheduler unit :=
  (construct 16384 1 2 false false ;;; start [2; 3] ;;; schedule (mkFT None (Some racing) (-1)))
    (blank 1 (mkFibers [] 0 0 None None None)).

(** [YeildToHold] marks a fiber as holding before its context is saved.  A second thread
    that has the fiber in its queue enters it in between, and runs the callback again from its
    beginning while the first thread has not left it. *)
Theorem held_fiber_race : exists w0 order evs w t1 t2,
  two_threads = Ok tt w0 /\ steps 16384 order w0 = Ok evs w /\
  threads w !! 1%nat = Some t1 /\ threads w !! 2%nat = Some t2 /\
  loc t1 = Leaving 2 (Some (Act 7 Return)) /\ loc t2 = Inside 2 racing /\ taken evs =
    [mkFT None (Some racing) (-1); mkFT (Some 2%nat) None (-1)].
Proof.
  eexists _, [1; 2; 1; 1; 1; 1; 2; 2]%nat, _, _, _, _. split; [vm_compute; reflexivity|].
  split; [vm_compute; reflexivity|]. split; [reflexivity|]. split; [reflexivity|]. done.
Qed.

Lemma scheduler_safety_witness :
  exists w evs w', two_threads = Ok tt w /\ steps 16384 [1; 1; 1; 1]%nat w = Ok evs w' /\
    m_fibers w ++ scheduled evs ≡ₚ taken evs ++ m_fibers w' /\
    Forall (allowed (map tid (threads w))) evs /\ consistent w' /\
    (stopping w' = true -> m_fibers w' = [] /\ Forall (fun t => busy (loc t) = false) (threads w')).
Proof.
  eexists _, _, _. split; [vm_compute; reflexivity|]. split; [vm_compute; reflexivity|].
  refine (scheduler_safety 16384 [1; 1; 1; 1]%nat _ _ _ _ _); [|vm_compute; reflexivity].
  vm_compute. split_and!; reflexivity.
Defined.

Lemma stop_drains_witness :
  let l := [mkFT None (Some (YieldReady (ScheduleFiber 0 5 Return))) 5; mkFT (Some 0%nat) None (-1)] in
  let fs := [mkFiber 0 16384 true INIT (Act 1 (YieldHold Return)) true false] in
  exists w0 k evs w, life 16384 5 l (blank 5 (mkFibers fs 1 1 None None None)) = Ok tt w0 /\
    steps 16384 (repeat 0%nat k) w0 = Ok evs w /\
    map loc (threads w) = [Exit] /\ m_fibers w = [] /\ m_activeThreadCount w = 0 /\
    l ++ scheduled evs ≡ₚ taken evs.
Proof.
  intros l fs. refine (stop_drains 16384 5 fs 1 1 l _ _ _ _); [discriminate|discriminate| |].
  - constructor; [|constructor]. split_and!; [discriminate|done|cbn; done].
  - constructor; [split; [constructor; [by right|cbn; split_and!; [by right|lia|done]]|done]|].
    constructor; [|constructor]. split; [constructor; by left|]. intros g [= <-]. cbn. lia.
Defined.
