(* ===== verification/IOManager.v ===== *)
(** * IOManager: fibers that wait for file descriptors and timers
    (src/wyze/iomanager.h, src/wyze/iomanager.cpp)

    An IOManager is a Scheduler and a TimerManager with a table of descriptors.  Every
    operation on a descriptor runs under that descriptor's mutex and is one transition.  epoll
    is the kernel's: the class [Epoll] has its calls, and for each of them the value they
    return. *)

From S2P Require Import Prelude Fiber Scheduler Timer.

Definition EPOLLIN : Z := 1.
Definition EPOLLOUT : Z := 4.
Definition EPOLLERR : Z := 8.
Definition EPOLLHUP : Z := 16.
Definition EPOLLET : Z := 2 ^ 31.
Inductive epoll_op := EPOLL_CTL_ADD | EPOLL_CTL_MOD | EPOLL_CTL_DEL.

Class Epoll (W : Type) := {
  (** [epoll_ctl(m_epfd, op, fd, &ev)] with [ev.events]; 0 or -1 *)
  epoll_ctl : epoll_op -> Z -> Z -> M W Z }.

Inductive Event := NONE | READ | WRITE.
#[export] Instance Event_eq_dec : EqDecision Event.
Proof. solve_decision. Defined.
Definition bits (e : Event) : Z := match e with NONE => 0 | READ => 1 | WRITE => 4 end.

Record EventContext := mkContext { has_scheduler : bool; ev_fiber : option nat; ev_cb : option code }.
Record FdContext := mkFdContext { read : EventContext; write : EventContext; fd : Z; events : Z }.
Definition no_context : EventContext := mkContext false None None.
Definition new_FdContext (i : nat) : FdContext := mkFdContext no_context no_context (Z.of_nat i) 0.

Record IOManager := mkIOManager {
  sched : Scheduler; timers : TimerManager; m_tickleFd : Z; m_pendingEvent : Z;
  m_fdContexts : list FdContext; pipe_writes : Z }.

Definition set_sched (s : Scheduler) (m : IOManager) : IOManager :=
  mkIOManager s (timers m) (m_tickleFd m) (m_pendingEvent m) (m_fdContexts m) (pipe_writes m).
Definition set_timers (t : TimerManager) (m : IOManager) : IOManager :=
  mkIOManager (sched m) t (m_tickleFd m) (m_pendingEvent m) (m_fdContexts m) (pipe_writes m).
Definition add_pending (d : Z) (m : IOManager) : IOManager :=
  mkIOManager (sched m) (timers m) (m_tickleFd m) (u64 (m_pendingEvent m + d)) (m_fdContexts m) (pipe_writes m).
Definition set_contexts (l : list FdContext) (m : IOManager) : IOManager :=
  mkIOManager (sched m) (timers m) (m_tickleFd m) (m_pendingEvent m) l (pipe_writes m).

Section iomanager.
Context {W : Type} `{Epoll W}.

Definition IM := M (W * IOManager).

Definition on_sched {A} (m : SM A) : IM A := fun s =>
  match m (sched (snd s)) with
  | Ok a x => Ok a (fst s, set_sched x (snd s))
  | Throw e x => Throw e (fst s, set_sched x (snd s))
  | Undef u => Undef u
  end.
Definition on_timers {A} (m : M TimerManager A) : IM A := fun s =>
  match m (timers (snd s)) with
  | Ok a x => Ok a (fst s, set_timers x (snd s))
  | Throw e x => Throw e (fst s, set_timers x (snd s))
  | Undef u => Undef u
  end.
Definition on_epoll {A} (m : M W A) : IM A := fun s =>
  match m (fst s) with
  | Ok a w => Ok a (w, snd s) | Throw e w => Throw e (w, snd s) | Undef u => Undef u
  end.
Definition update_io (f : IOManager -> IOManager) : IM unit := modify (fun s => (fst s, f (snd s))).

(** [m_fdContexts[fd]], and an assignment to the context it points to *)
Definition fd_at (f : Z) : IM FdContext := fun s =>
  if f <? 0 then Undef out_of_bounds else or_undef out_of_bounds (m_fdContexts (snd s) !! Z.to_nat f) s.
Definition set_fd (f : Z) (x : FdContext) : IM unit :=
  update_io (fun m => set_contexts (<[Z.to_nat f := x]> (m_fdContexts m)) m).

(** [FdContext::getContext(event)]; the context assigned to *)
Definition getContext (x : FdContext) (e : Event) : IM EventContext :=
  match e with
  | READ => ret (read x) | WRITE => ret (write x)
  | NONE => throw (assert_failed "getContext")
  end.
Definition with_context (x : FdContext) (e : Event) (c : EventContext) (evs : Z) : FdContext :=
  match e with
  | READ => mkFdContext c (write x) (fd x) evs
  | WRITE => mkFdContext (read x) c (fd x) evs
  | NONE => mkFdContext (read x) (write x) (fd x) evs
  end.
(** [FdContext::resetContext(ctx)] *)
Definition resetContext (c : EventContext) : EventContext := no_context.

(** [tickle()]: a byte into the pipe unless a thread is idle *)
Definition tickle_io : IM unit := update_io (fun m =>
  if 0 <? m_idleThreadCount (sched m) then m
  else mkIOManager (sched m) (timers m) (m_tickleFd m) (m_pendingEvent m) (m_fdContexts m) (pipe_writes m + 1)).

(** [schedule(fc, thread)] and [schedule(begin, end)], whose [tickle()] is that of the IOManager *)
Definition schedule_io (ft : FiberAndThread) : IM unit :=
  need_tickle <- on_sched (scheduleNolock ft) ;; if need_tickle : bool then tickle_io else ret tt.
Definition schedule_all_io (l : list FiberAndThread) : IM unit :=
  need_tickle <- on_sched (schedule_range l false) ;; if need_tickle : bool then tickle_io else ret tt.

(** [FdContext::triggerEvent(event)] *)
Definition triggerEvent (f : Z) (e : Event) : IM unit :=
  x <- fd_at f ;;
  wyze_assert (negb (Z.land (events x) (bits e) =? 0)) "events & event" ;;;
  let evs := Z.land (events x) (Z.lnot (bits e)) in
  ctx <- getContext x e ;;
  if negb (has_scheduler ctx) then undef null_deref
  else
    match ev_cb ctx with
    | Some c =>
        schedule_io (mkFT None (Some c) (-1)) ;;;
        set_fd f (with_context x e (mkContext false (ev_fiber ctx) None) evs)
    | None =>
        schedule_io (mkFT (ev_fiber ctx) None (-1)) ;;;
        set_fd f (with_context x e (mkContext false None None) evs)
    end.

(** [contextResize(size)] *)
Definition contextResize (size : nat) : IM unit :=
  update_io (fun m =>
    let l := take size (m_fdContexts m) in
    set_contexts (l ++ map new_FdContext (seq (length l) (size - length l))) m).

(** [addEvent(fd, event, cb)], called on thread [i] of the scheduler; no other thread changes the table
    between its two locks *)
Definition addEvent (i : nat) (f : Z) (e : Event) (cb : option code) : IM Z := fun s =>
  let size := s32 (u64 (Z.of_nat (length (m_fdContexts (snd s))))) in
  (x <- (if f <? size then fd_at f else contextResize (Z.to_nat (f * 3 / 2)) ;;; fd_at f) ;;
   wyze_assert (Z.land (events x) (bits e) =? 0) "!(fd_ctx->events & event)" ;;;
   let op := if events x =? 0 then EPOLL_CTL_ADD else EPOLL_CTL_MOD in
   rt <- on_epoll (epoll_ctl op f (Z.lor (Z.lor EPOLLET (events x)) (bits e))) ;;
   if negb (rt =? 0) then ret (-1)
   else
     update_io (add_pending 1) ;;;
     let evs := Z.lor (events x) (bits e) in
     ev_ctx <- getContext x e ;;
     wyze_assert (match ev_ctx with mkContext false None None => true | _ => false end)
       "!ev_ctx.scheduler && !ev_ctx.fiber && !ev_ctx.cb" ;;;
     match cb with
     | Some c => set_fd f (with_context x e (mkContext true None (Some c)) evs) ;;; ret 0
     | None =>
         g <- on_sched (on_thread i GetThis) ;;
         set_fd f (with_context x e (mkContext true (Some g) None) evs) ;;;
         y <- on_sched (on_thread i (the_fiber g)) ;;
         wyze_assert (bool_decide (m_state y = EXEC)) "ev_ctx.fiber->getState() == Fiber::State::EXEC" ;;;
         ret 0
     end) s.

(** [delEvent(fd, event)] and [canceEvent(fd, event)] up to what they do after epoll_ctl *)
Definition unregister (f : Z) (e : Event) (done_ : FdContext -> Z -> IM unit) : IM bool := fun s =>
  if s32 (u64 (Z.of_nat (length (m_fdContexts (snd s))))) <=? f then Ok false s
  else
    (x <- fd_at f ;;
     if Z.land (events x) (bits e) =? 0 then ret false
     else
       let new_ev := Z.land (events x) (Z.lnot (bits e)) in
       let op := if new_ev =? 0 then EPOLL_CTL_DEL else EPOLL_CTL_MOD in
       rt <- on_epoll (epoll_ctl op f (Z.lor EPOLLET new_ev)) ;;
       if negb (rt =? 0) then ret false else done_ x new_ev ;;; ret true) s.
Definition delEvent (f : Z) (e : Event) : IM bool :=
  unregister f e (fun x new_ev =>
    update_io (add_pending (-1)) ;;;
    ev_ctx <- getContext x e ;;
    set_fd f (with_context x e (resetContext ev_ctx) new_ev)).
Definition canceEvent (f : Z) (e : Event) : IM bool :=
  unregister f e (fun _ _ => triggerEvent f e ;;; update_io (add_pending (-1))).

(** [if(fd_ctx->events & event) { triggerEvent(event); --m_pendingEvent; }] for the bits of [evs] *)
Definition trigger_if (evs : Z) (f : Z) (e : Event) : IM unit :=
  if Z.land evs (bits e) =? 0 then ret () else triggerEvent f e ;;; update_io (add_pending (-1)).

(** [canceAll(fd)] *)
Definition canceAll (f : Z) : IM bool := fun s =>
  if s32 (u64 (Z.of_nat (length (m_fdContexts (snd s))))) <=? f then Ok false s
  else
    (x <- fd_at f ;;
     if events x =? 0 then ret false
     else
       rt <- on_epoll (epoll_ctl EPOLL_CTL_DEL f 0) ;;
       if negb (rt =? 0) then ret false
       else
         x <- fd_at f ;; trigger_if (events x) f READ ;;;
         x <- fd_at f ;; trigger_if (events x) f WRITE ;;;
         x <- fd_at f ;; wyze_assert (events x =? 0) "fd_ctx->events == 0" ;;;
         ret true) s.

(** What [IOManager(threads, use_caller, name)] does once the epoll descriptor and the pipe are
    made; [tids] are the ids of the threads that [start()] makes. *)
Definition construct_io (tids : list Z) : IM unit := fun s =>
  (rt <- on_epoll (epoll_ctl EPOLL_CTL_ADD (m_tickleFd (snd s)) (Z.lor EPOLLET EPOLLIN)) ;;
   wyze_assert (rt =? 0) "!rt" ;;;
   contextResize 32 ;;;
   on_sched (start tids)) s.

(** [stopping(timeout)]: the answer and [timeout] *)
Definition stopping_io (now : Z) : IM (bool * Z) :=
  timeout <- on_timers (getNextTimer now) ;;
  s <- get ;;
  ret ((timeout =? 2 ^ 64 - 1) && (m_pendingEvent (snd s) =? 0) && stopping (sched (snd s)), timeout).

(** the time [epoll_wait] is given *)
Definition wait_time (next_timeout : Z) : Z :=
  s32 (if next_timeout =? 2 ^ 64 - 1 then 5000 else if s32 next_timeout <? 5000 then next_timeout else 5000).

(** The events of [ev] that the loop in [idle] acts on. *)
Definition real_events (ev registered : Z) : Z :=
  let ev := if Z.land ev (Z.lor EPOLLERR EPOLLHUP) =? 0 then ev
            else Z.lor ev (Z.lor (Z.land registered EPOLLIN) (Z.land registered EPOLLOUT)) in
  Z.lor (if Z.land ev EPOLLIN =? 0 then 0 else bits READ)
        (if Z.land ev EPOLLOUT =? 0 then 0 else bits WRITE).

(** What [idle] does with one event of descriptor [f]: did it trigger anything? *)
Definition on_event (f ev : Z) : IM bool :=
  x <- fd_at f ;;
  let real_evs := real_events ev (events x) in
  if Z.land (events x) real_evs =? 0 then ret false
  else
    let left_evs := Z.land (events x) (Z.lnot real_evs) in
    let op := if left_evs =? 0 then EPOLL_CTL_DEL else EPOLL_CTL_MOD in
    rt2 <- on_epoll (epoll_ctl op (fd x) (Z.lor EPOLLET left_evs)) ;;
    if negb (rt2 =? 0) then ret false
    else trigger_if real_evs f READ ;;; trigger_if real_evs f WRITE ;;; ret true.

Fixpoint on_events (evs : list (Z * Z)) : IM unit :=
  match evs with
  | [] => ret tt
  | (f, ev) :: evs =>
      s <- get ;;
      (if f =? m_tickleFd (snd s) then ret tt else b <- on_event f ev ;; ret tt) ;;; on_events evs
  end.

(** One round of the loop of [idle]; [evs] is what [epoll_wait] gave.  Does the loop go on? *)
Definition idle_round (now now' tmp : Z) (code_of : callback -> code) (evs : list (Z * Z)) : IM bool :=
  st <- stopping_io now ;;
  if fst st : bool then ret false
  else
    cbs <- on_timers (listExpiredCb now' tmp) ;;
    (match cbs with
     | [] => ret tt
     | _ => schedule_all_io (map (fun c => mkFT None (option_map code_of c) (-1)) cbs)
     end) ;;;
    on_events evs ;;;
    ret true.

End iomanager.
