(* ===== verification/IOManagerSpec.v ===== *)
(** * The table of waited-for events is what the kernel watches, and every waiter is woken once *)

From S2P Require Import Prelude Fiber Scheduler SchedulerSpec Timer IOManager.

(** What epoll documents: the events it watches for a descriptor, and how a call changes them. *)
Class EpollSpec (W : Type) `{Epoll W} := {
  interest : W -> Z -> option Z;
  epoll_ctl_ok : forall op f ev w, exists rt w', epoll_ctl op f ev w = Ok rt w' /\
    (rt = -1 /\ (forall g, interest w' g = interest w g) \/
     rt = 0 /\ (match op with EPOLL_CTL_ADD => interest w f = None | _ => is_Some (interest w f) end) /\
     forall g, interest w' g =
       if decide (g = f) then match op with EPOLL_CTL_DEL => None | _ => Some ev end else interest w g) }.

(** ** The table, abstractly: who waits for which event of which descriptor *)

Definition handler (c : EventContext) : FiberAndThread := mkFT (ev_fiber c) (ev_cb c) (-1).
Definition context (x : FdContext) (e : Event) : EventContext :=
  match e with READ => read x | WRITE => write x | NONE => no_context end.
Definition waits (x : FdContext) (e : Event) : bool := negb (Z.land (events x) (bits e) =? 0).
Definition waiter (x : FdContext) (e : Event) : option FiberAndThread :=
  if waits x e then Some (handler (context x e)) else None.
Definition registered (m : IOManager) (f : Z) (e : Event) : option FiberAndThread :=
  if f <? 0 then None else match m_fdContexts m !! Z.to_nat f with Some x => waiter x e | None => None end.

Definition ctx_ok (c : EventContext) (on : bool) : Prop :=
  if on then has_scheduler c = true /\ (ev_fiber c = None /\ is_Some (ev_cb c) \/ is_Some (ev_fiber c) /\ ev_cb c = None)
  else c = no_context.
Definition fd_ok (x : FdContext) (i : nat) : Prop :=
  fd x = Z.of_nat i /\ (events x = 0 \/ events x = 1 \/ events x = 4 \/ events x = 5) /\ ctx_ok (read x) (waits x READ) /\ ctx_ok (write x) (waits x WRITE).
Definition n_events (x : FdContext) : Z :=
  (if waits x READ then 1 else 0) + (if waits x WRITE then 1 else 0).
Definition watched (x : FdContext) : option Z :=
  if events x =? 0 then None else Some (Z.lor EPOLLET (events x)).

Fixpoint total (l : list FdContext) : Z := match l with [] => 0 | x :: l => n_events x + total l end.

Lemma total_app l l' : total (l ++ l') = total l + total l'.
Proof. induction l as [|x l IH]; cbn [total app]; lia. Qed.
Lemma total_insert l : forall i x y, l !! i = Some x -> total (<[i := y]> l) = total l + n_events y - n_events x.
Proof.
  induction l as [|z l IH]; intros [|i] x y H; try done.
  - injection H as ->. cbn. lia.
  - change (<[S i := y]> (z :: l)) with (z :: <[i := y]> l). cbn [total]. specialize (IH i x y H). lia.
Qed.
Lemma n_events_range x : 0 <= n_events x <= 2.
Proof. unfold n_events. destruct (waits x READ), (waits x WRITE); lia. Qed.
Lemma total_range l : 0 <= total l <= 2 * Z.of_nat (length l).
Proof. induction l as [|x l IH]; cbn [total length]; [lia|]. pose proof (n_events_range x). lia. Qed.

Section spec.
Context {W : Type} `{EpollSpec W}.
Implicit Types (w : W) (m : IOManager) (x y : FdContext).

(** The kernel watches exactly the events in the table, apart from the pipe; the count of
    pending events is their number; a context holds a handler when its event is waited for and
    is empty otherwise. *)
Record io_ok (w : W) (m : IOManager) : Prop := {
  io_fd : forall i x, m_fdContexts m !! i = Some x -> fd_ok x i;
  io_epoll : forall i x, m_fdContexts m !! i = Some x -> Z.of_nat i <> m_tickleFd m ->
    interest w (Z.of_nat i) = watched x;
  io_new : forall f, Z.of_nat (length (m_fdContexts m)) <= f -> f <> m_tickleFd m -> interest w f = None;
  io_tickle : 0 <= m_tickleFd m /\ is_Some (interest w (m_tickleFd m)) /\
    forall x, m_fdContexts m !! Z.to_nat (m_tickleFd m) = Some x -> events x = 0;
  io_pending : m_pendingEvent m = total (m_fdContexts m);
  io_size : 32 <= Z.of_nat (length (m_fdContexts m)) < 2 ^ 31 }.

(** A context replaced, with the kernel told. *)
Lemma io_set w w' m m' i x y :
  io_ok w m -> m_fdContexts m !! i = Some x -> fd_ok y i ->
  (forall g, interest w' g = if decide (g = Z.of_nat i) then watched y else interest w g) ->
  Z.of_nat i <> m_tickleFd m -> m_tickleFd m' = m_tickleFd m ->
  m_fdContexts m' = <[i := y]> (m_fdContexts m) ->
  m_pendingEvent m' = u64 (m_pendingEvent m + (n_events y - n_events x)) -> io_ok w' m'.
Proof.
  intros [Hfd Hep Hnew (Ht0 & Ht1 & Ht2) Hp Hs] Hx Hy Hw Hi Et Ec Ep.
  pose proof (lookup_lt_Some _ _ _ Hx) as Hlt.
  assert (forall j z, <[i := y]> (m_fdContexts m) !! j = Some z -> j = i /\ z = y \/ j <> i /\ m_fdContexts m !! j = Some z) as Hj.
  { intros j z Hz. destruct (decide (j = i)) as [->|Hn].
    - rewrite list_lookup_insert_eq in Hz by done. left. by injection Hz as <-.
    - rewrite list_lookup_insert_ne in Hz by done. by right. }
  pose proof (total_insert _ _ _ y Hx) as Htot. pose proof (total_range (<[i := y]> (m_fdContexts m))) as Hr.
  rewrite length_insert in Hr. constructor; rewrite ?Et, ?Ec, ?length_insert; try done.
  - intros j z [[-> ->]|[_ Hz]]%Hj; [done|by apply Hfd].
  - intros j z [[-> ->]|[Hn Hz]]%Hj Hjt; rewrite Hw.
    + by rewrite decide_True.
    + rewrite decide_False by lia. by apply Hep.
  - intros f Hf Hft. rewrite Hw, decide_False by lia. by apply Hnew.
  - split_and!; [done|by rewrite Hw, decide_False by done|].
    intros z [[Hz _]|[_ Hz]]%Hj; [lia|by apply Ht2].
  - rewrite Ep, Hp, Htot. rewrite Z.add_sub_assoc. unfold u64. apply uwrap_id. fits.
Qed.

Lemma registered_at m f e i x : f = Z.of_nat i -> m_fdContexts m !! i = Some x -> registered m f e = waiter x e.
Proof.
  intros -> Hx. unfold registered. rewrite (proj2 (Z.ltb_ge _ _)) by lia. by rewrite Nat2Z.id, Hx.
Qed.
Lemma registered_set m m' i y g e : m_fdContexts m' = <[i := y]> (m_fdContexts m) ->
  (i < length (m_fdContexts m))%nat ->
  registered m' g e = if decide (g = Z.of_nat i) then waiter y e else registered m g e.
Proof.
  intros E Hi. unfold registered. rewrite E. destruct (Z.ltb_spec g 0); [by rewrite decide_False by lia|].
  destruct (decide (g = Z.of_nat i)) as [->|Hn].
  - by rewrite Nat2Z.id, list_lookup_insert_eq.
  - by rewrite list_lookup_insert_ne by lia.
Qed.

Lemma fd_at_ok f i w m x : f = Z.of_nat i -> m_fdContexts m !! i = Some x -> fd_at f (w, m) = Ok x (w, m).
Proof. intros -> Hx. unfold fd_at. rewrite (proj2 (Z.ltb_ge _ _)) by lia. cbn [snd]. by rewrite Nat2Z.id, Hx. Qed.

(** ** Triggering *)

Definition drop_event (x : FdContext) (e : Event) : FdContext :=
  with_context x e no_context (Z.land (events x) (Z.lnot (bits e))).

Lemma schedule_io_ok ft w m : is_Some (fiber ft) \/ is_Some (cb ft) -> exists m1, schedule_io ft (w, m) = Ok tt (w, m1) /\
  m_fibers (sched m1) = m_fibers (sched m) ++ [ft] /\ m_fdContexts m1 = m_fdContexts m /\
  m_pendingEvent m1 = m_pendingEvent m /\ m_tickleFd m1 = m_tickleFd m.
Proof.
  intros Hs. unfold schedule_io, bind, on_sched, scheduleNolock, tickle_io, update_io, modify, set_queue. cbn [fst snd].
  destruct ft as [[f|] [c|] t]; cbn in *; [| | |by destruct Hs as [[]|[]]];
    destruct (m_fibers (sched m)); cbn; try destruct (0 <? _); by eexists.
Qed.

Lemma triggerEvent_ok i e w m x : m_fdContexts m !! i = Some x -> fd_ok x i -> e <> NONE -> waits x e = true ->
  exists m1, triggerEvent (Z.of_nat i) e (w, m) = Ok tt (w, set_contexts (<[i := drop_event x e]> (m_fdContexts m)) m1) /\
    m_fibers (sched m1) = m_fibers (sched m) ++ [handler (context x e)] /\
    m_pendingEvent m1 = m_pendingEvent m /\ m_tickleFd m1 = m_tickleFd m.
Proof.
  intros Hx (_ & _ & Hr & Hw) He Hon. unfold triggerEvent.
  run (fd_at_ok _ _ w m x eq_refl Hx). unfold waits in Hon. rewrite Hon. cbn [wyze_assert].
  unfold bind at 1, ret at 1. assert (getContext x e (w, m) = Ok (context x e) (w, m)) as Eg by by destruct e.
  run Eg.
  assert (has_scheduler (context x e) = true /\ (ev_fiber (context x e) = None /\ is_Some (ev_cb (context x e)) \/
    is_Some (ev_fiber (context x e)) /\ ev_cb (context x e) = None)) as [Hs Hc].
  { unfold ctx_ok, waits in Hr, Hw. destruct e; [done| |]; rewrite Hon in *; done. }
  rewrite Hs. cbn [negb].
  destruct (schedule_io_ok (handler (context x e)) w m) as (m1 & Es & Eq & Ec & Ep & Et).
  { cbn. destruct Hc as [[_ ?]|[? _]]; auto. }
  exists m1. split; [|done]. rewrite <- Ec. unfold handler in Es. destruct Hc as [[Hf [c Hcb]]|[[g Hg] Hcb]]; rewrite Hcb in *.
  - rewrite Hf in Es. run Es. unfold set_fd, update_io, modify. cbn [fst snd]. rewrite Nat2Z.id, Hf. by destruct e.
  - run Es. unfold set_fd, update_io, modify. cbn [fst snd]. rewrite Nat2Z.id. by destruct e.
Qed.

Lemma drop_event_ok x i e : fd_ok x i -> fd_ok (drop_event x e) i /\
  forall e', e' <> NONE -> waiter (drop_event x e) e' = if decide (e' = e) then None else waiter x e'.
Proof.
  intros (Hf & Hc & Hr & Hw). revert Hr Hw.
  unfold drop_event, fd_ok, waiter, waits. destruct x as [r wr f ev]. cbn in *.
  destruct Hc as [->|[->|[->| ->]]]; cbn; intros Hr Hw.
  all: destruct e; cbn; (split; [split_and!; try done; vm_compute; auto|intros [] He; by cbn]).
Qed.

Lemma n_drop x i e : fd_ok x i -> e <> NONE -> waits x e = true -> n_events (drop_event x e) = n_events x - 1.
Proof.
  intros (_ & Hc & _) He Hw. unfold n_events, drop_event, waits in *. destruct x as [r wr f ev]. cbn in *.
  destruct Hc as [->|[->|[->| ->]]], e; cbn in *; done.
Qed.
Lemma events_drop x e : events (drop_event x e) = Z.land (events x) (Z.lnot (bits e)).
Proof. by destruct e. Qed.

Lemma io_ok_ext w w' m : (forall g, interest w' g = interest w g) -> io_ok w m -> io_ok w' m.
Proof.
  intros E [H1 H2 H3 (H4 & H5 & H6) H7 H8]. constructor; try done.
  - intros. rewrite E. by apply H2.
  - intros. rewrite E. by apply H3.
  - split_and!; [done|by rewrite E|done].
Qed.

Lemma io_pending_range w m : io_ok w m -> 0 <= m_pendingEvent m < 2 ^ 64.
Proof. intros [_ _ _ _ Hp Hs]. pose proof (total_range (m_fdContexts m)). lia. Qed.

Lemma table_size w m : io_ok w m -> s32 (u64 (Z.of_nat (length (m_fdContexts m)))) = Z.of_nat (length (m_fdContexts m)).
Proof.
  intros [_ _ _ _ _ Hs]. unfold u64. rewrite uwrap_id by fits.
  apply swrap_id; [done|fits].
Qed.

(** [trigger_if], and two of them *)
Definition trig (b : bool) (x : FdContext) (e : Event) : FdContext := if b then drop_event x e else x.
Definition woke (b : bool) (x : FdContext) (e : Event) : list FiberAndThread :=
  if b then [handler (context x e)] else [].

Lemma trig_ok b x i e : fd_ok x i -> fd_ok (trig b x e) i.
Proof. intros Hx. destruct b; [|done]. by apply drop_event_ok. Qed.

Lemma trigger_if_ok evs i e w m x : m_fdContexts m !! i = Some x -> fd_ok x i -> e <> NONE ->
  0 <= m_pendingEvent m < 2 ^ 64 ->
  let b := negb (Z.land evs (bits e) =? 0) in (b = true -> waits x e = true) ->
  exists m', trigger_if evs (Z.of_nat i) e (w, m) = Ok tt (w, m') /\
    m_fdContexts m' = <[i := trig b x e]> (m_fdContexts m) /\
    m_pendingEvent m' = u64 (m_pendingEvent m + (n_events (trig b x e) - n_events x)) /\
    m_tickleFd m' = m_tickleFd m /\ m_fibers (sched m') = m_fibers (sched m) ++ woke b x e.
Proof.
  intros Hx Hok He Hp b Hb. unfold trigger_if. subst b.
  destruct (Z.land evs (bits e) =? 0); cbn [negb trig woke] in *.
  - exists m. split_and!; try done; [by rewrite list_insert_id| |by rewrite app_nil_r].
    replace (m_pendingEvent m + (n_events x - n_events x)) with (m_pendingEvent m) by lia.
    symmetry. by apply uwrap_id.
  - destruct (triggerEvent_ok i e w m x Hx Hok He (Hb eq_refl)) as (m1 & E & Eq & Ep & Et).
    run E. eexists. split_and!; [reflexivity|done| |done|done].
    cbn. rewrite Ep, (n_drop x i e Hok He (Hb eq_refl)). f_equal. lia.
Qed.

Lemma u64_add a b : u64 (u64 a + b) = u64 (a + b).
Proof. unfold u64, uwrap. apply Zplus_mod_idemp_l. Qed.

Definition trig2 (b1 b2 : bool) (x : FdContext) : FdContext := trig b2 (trig b1 x READ) WRITE.

Lemma context_trig b x : context (trig b x READ) WRITE = context x WRITE /\ waits (trig b x READ) WRITE = waits x WRITE.
Proof.
  destruct b; [|done]. split; [done|]. unfold waits. cbn [trig]. rewrite events_drop.
  by rewrite <- Z.land_assoc.
Qed.

Lemma waiter_trig2 b1 b2 x i e : fd_ok x i -> e <> NONE ->
  waiter (trig2 b1 b2 x) e = if match e with READ => b1 | WRITE => b2 | NONE => false end then None else waiter x e.
Proof.
  intros Hx He. unfold trig2. pose proof (trig_ok b1 x i READ Hx) as H1.
  destruct (drop_event_ok x i READ Hx) as [_ D1]. destruct (drop_event_ok (trig b1 x READ) i WRITE H1) as [_ D2].
  destruct b2; cbn [trig]; [rewrite D2 by done|]; destruct b1; cbn [trig]; rewrite ?D1 by done;
    by destruct e.
Qed.

Lemma triggers_ok (evs1 : Z) (evs2 : FdContext -> Z) (b1 b2 : bool) i w m x : m_fdContexts m !! i = Some x -> fd_ok x i ->
  0 <= m_pendingEvent m < 2 ^ 64 ->
  b1 = negb (Z.land evs1 (bits READ) =? 0) -> (b1 = true -> waits x READ = true) ->
  b2 = negb (Z.land (evs2 (trig b1 x READ)) (bits WRITE) =? 0) -> (b2 = true -> waits x WRITE = true) ->
  exists m', (forall A (k : IM A), (trigger_if evs1 (Z.of_nat i) READ ;;; y <- fd_at (Z.of_nat i) ;;
                trigger_if (evs2 y) (Z.of_nat i) WRITE ;;; k) (w, m) = k (w, m')) /\
    (forall A (k : IM A), (trigger_if evs1 (Z.of_nat i) READ ;;;
                trigger_if (evs2 (trig b1 x READ)) (Z.of_nat i) WRITE ;;; k) (w, m) = k (w, m')) /\
    m_fdContexts m' = <[i := trig2 b1 b2 x]> (m_fdContexts m) /\
    m_pendingEvent m' = u64 (m_pendingEvent m + (n_events (trig2 b1 b2 x) - n_events x)) /\
    m_tickleFd m' = m_tickleFd m /\
    m_fibers (sched m') = m_fibers (sched m) ++ woke b1 x READ ++ woke b2 x WRITE.
Proof.
  intros Hx Hok Hp -> H1 -> H2. pose proof (lookup_lt_Some _ _ _ Hx) as Hlt.
  destruct (trigger_if_ok evs1 i READ w m x Hx Hok ltac:(done) Hp H1) as (m1 & E1 & C1 & P1 & T1 & Q1).
  set (b1 := negb (Z.land evs1 (bits READ) =? 0)) in *. destruct (context_trig b1 x) as [Ec Ew].
  assert (m_fdContexts m1 !! i = Some (trig b1 x READ)) as Hx1 by (rewrite C1; by apply list_lookup_insert_eq).
  destruct (trigger_if_ok (evs2 (trig b1 x READ)) i WRITE w m1 (trig b1 x READ) Hx1) as (m2 & E2 & C2 & P2 & T2 & Q2);
    [by apply trig_ok|done|rewrite P1; by apply uwrap_range|by rewrite Ew|].
  exists m2. split_and!; [| | | |by rewrite T2|].
  - intros A k. run E1, (fd_at_ok _ _ w m1 _ eq_refl Hx1).
    by run E2.
  - intros A k. by run E1, E2.
  - rewrite C2, C1, list_insert_insert_eq. done.
  - rewrite P2, P1, u64_add. f_equal. unfold trig2. lia.
  - rewrite Q2, Q1, <- app_assoc. unfold woke. by rewrite Ec.
Qed.

(** ** The operations, and their abstract effect *)

Inductive io_op :=
  | Add (i : nat) (f : Z) (e : Event) (cb : option code)
  | Del (f : Z) (e : Event)
  | Cancel (f : Z) (e : Event)
  | CancelAll (f : Z)
  | Ready (f ev : Z).

Definition run_op (op : io_op) : @IM W bool :=
  match op with
  | Add i f e cb => rt <- addEvent i f e cb ;; ret (rt =? 0)
  | Del f e => delEvent f e
  | Cancel f e => canceEvent f e
  | CancelAll f => canceAll f
  | Ready f ev => on_event f ev
  end.

(** Does the epoll event [ev] of [f] concern [e]? *)
Definition concerns (m : IOManager) (f ev : Z) (e : Event) : bool :=
  match m_fdContexts m !! Z.to_nat f with
  | Some x => negb (Z.land (real_events ev (events x)) (bits e) =? 0)
  | None => false
  end.
Definition current (i : nat) (m : IOManager) : option nat :=
  match threads (sched m) !! i with Some t => th_fiber t | None => None end.

(** What the callers see to: descriptors are not negative, an event is added once; a waiter is
    a callback or the fiber that runs; an event that is delivered was not given up since for
    one direction only. *)
Definition op_pre (m : IOManager) (op : io_op) : Prop :=
  match op with
  | Add i f e cb => 0 <= f < 2 ^ 30 /\ e <> NONE /\ registered m f e = None /\
      (is_Some cb \/ exists g (y : Fiber), current i m = Some g /\ fibers (sched m) !! g = Some y /\ m_state y = EXEC)
  | Del f e | Cancel f e => 0 <= f /\ e <> NONE
  | CancelAll f => 0 <= f
  | Ready f ev => 0 <= f < Z.of_nat (length (m_fdContexts m)) /\
      ((forall e, e <> NONE -> concerns m f ev e = true -> is_Some (registered m f e)) \/
       (forall e, concerns m f ev e = true -> registered m f e = None))
  end.

(** Who waits for [e] of [g] after an operation that returned [r]. *)
Definition after (m : IOManager) (op : io_op) (r : bool) (g : Z) (e : Event) : option FiberAndThread :=
  let gone f e0 := bool_decide (g = f) && bool_decide (e = e0) in
  if negb r then registered m g e
  else match op with
       | Add i f e0 cb =>
           if gone f e0 then Some (mkFT (match cb with None => current i m | _ => None end) cb (-1))
           else registered m g e
       | Del f e0 | Cancel f e0 => if gone f e0 then None else registered m g e
       | CancelAll f => if bool_decide (g = f) then None else registered m g e
       | Ready f ev => if bool_decide (g = f) && concerns m f ev e then None else registered m g e
       end.

(** The waiters that go to the scheduler's queue. *)
Definition woken (m : IOManager) (op : io_op) (r : bool) : list FiberAndThread :=
  let take_ f e := option_list (registered m f e) in
  if negb r then []
  else match op with
       | Add _ _ _ _ | Del _ _ => []
       | Cancel f e => take_ f e
       | CancelAll f => take_ f READ ++ take_ f WRITE
       | Ready f ev => (if concerns m f ev READ then take_ f READ else []) ++
                       (if concerns m f ev WRITE then take_ f WRITE else [])
       end.

Definition op_done (w : W) (m : IOManager) (op : io_op) : Prop :=
  exists r w' m', run_op op (w, m) = Ok r (w', m') /\ io_ok w' m' /\
    (forall g e, e <> NONE -> registered m' g e = after m op r g e) /\
    m_fibers (sched m') = m_fibers (sched m) ++ woken m op r.

Lemma on_epoll_ok op f ev w m : exists rt w', on_epoll (epoll_ctl op f ev) (w, m) = Ok rt (w', m) /\
  (rt = -1 /\ (forall g, interest w' g = interest w g) \/
   rt = 0 /\ (match op with EPOLL_CTL_ADD => interest w f = None | _ => is_Some (interest w f) end) /\
   forall g, interest w' g =
     if decide (g = f) then match op with EPOLL_CTL_DEL => None | _ => Some ev end else interest w g).
Proof.
  destruct (epoll_ctl_ok op f ev w) as (rt & w' & E & Hr). exists rt, w'. unfold on_epoll. cbn [fst]. by rewrite E.
Qed.

Lemma op_failed w w' m op : io_ok w m -> (forall g, interest w' g = interest w g) ->
  run_op op (w, m) = Ok false (w', m) -> op_done w m op.
Proof.
  intros Hok Hi E. exists false, w', m. split_and!; [done|by eapply io_ok_ext|done|by rewrite app_nil_r].
Qed.

Lemma wait_not_tickle w m i x e : io_ok w m -> m_fdContexts m !! i = Some x -> waits x e = true ->
  Z.of_nat i <> m_tickleFd m.
Proof.
  intros [_ _ _ (_ & _ & Ht) _ _] Hx Hw Hi. unfold waits in Hw. rewrite (Ht x) in Hw; [done|].
  rewrite <- Hi, Nat2Z.id. done.
Qed.

(** The common beginning of [delEvent] and [canceEvent]. *)
Lemma unregister_ok f e k w m : io_ok w m -> 0 <= f -> e <> NONE ->
  (exists w', unregister f e k (w, m) = Ok false (w', m) /\ forall g, interest w' g = interest w g) \/
  (exists w' i x, f = Z.of_nat i /\ m_fdContexts m !! i = Some x /\ waits x e = true /\
     (forall g, interest w' g = if decide (g = f) then watched (drop_event x e) else interest w g) /\
     unregister f e k (w, m) = (k x (Z.land (events x) (Z.lnot (bits e))) ;;; ret true) (w', m)).
Proof.
  intros Hok Hf He. unfold unregister. cbn [snd]. rewrite (table_size w m Hok).
  destruct (Z.leb_spec (Z.of_nat (length (m_fdContexts m))) f) as [Hge|Hlt]; [left; by exists w|].
  assert (f = Z.of_nat (Z.to_nat f)) as Ef by lia. set (i := Z.to_nat f) in *.
  destruct (lookup_lt_is_Some_2 (m_fdContexts m) i ltac:(lia)) as [x Hx].
  run (fd_at_ok f i w m x Ef Hx).
  destruct (Z.land (events x) (bits e) =? 0) eqn:Ew; [left; by exists w|].
  assert (waits x e = true) as Hw by (unfold waits; by rewrite Ew).
  cbv zeta. set (new_ev := Z.land (events x) (Z.lnot (bits e))).
  destruct (on_epoll_ok (if new_ev =? 0 then EPOLL_CTL_DEL else EPOLL_CTL_MOD) f (Z.lor EPOLLET new_ev) w m)
    as (rt & w' & E & [[-> Hi]|(-> & _ & Hi)]); run E; [left; by exists w'|].
  right. exists w', i, x. split_and!; try done. intros g. rewrite Hi. unfold watched. rewrite events_drop.
  fold new_ev. by destruct (new_ev =? 0).
Qed.

Lemma fd_found w m i x : io_ok w m -> m_fdContexts m !! i = Some x -> fd_ok x i.
Proof. intros [H1 _ _ _ _ _] Hx. by apply H1. Qed.

(** A dropped event in the table. *)
Lemma drop_done w w' m m' i x e (op : io_op) : io_ok w m -> m_fdContexts m !! i = Some x -> waits x e = true -> e <> NONE ->
  (forall g, interest w' g = if decide (g = Z.of_nat i) then watched (drop_event x e) else interest w g) ->
  run_op op (w, m) = Ok true (w', m') ->
  m_fdContexts m' = <[i := drop_event x e]> (m_fdContexts m) ->
  m_pendingEvent m' = u64 (m_pendingEvent m + -1) -> m_tickleFd m' = m_tickleFd m ->
  m_fibers (sched m') = m_fibers (sched m) ++ woken m op true ->
  (forall g e', after m op true g e' =
     if bool_decide (g = Z.of_nat i) && bool_decide (e' = e) then None else registered m g e') ->
  op_done w m op.
Proof.
  intros Hok Hx Hw He Hi E Ec Ep Et Eq Ha. pose proof (fd_found _ _ _ _ Hok Hx) as Hf.
  exists true, w', m'. split_and!; try done.
  - eapply (io_set w w' m m' i x (drop_event x e)); try done; [exact (proj1 (drop_event_ok x i e Hf))|by eapply wait_not_tickle|].
    rewrite Ep, (n_drop x i e Hf He Hw). f_equal. lia.
  - intros g e' He'. rewrite Ha, (registered_set m m' i _ g e' Ec (lookup_lt_Some _ _ _ Hx)).
    destruct (decide (g = Z.of_nat i)) as [->|Hn].
    + rewrite bool_decide_eq_true_2 by done. destruct (drop_event_ok x i e Hf) as [_ D]. rewrite D by done.
      destruct (decide (e' = e)) as [->|Hne]; [by rewrite bool_decide_eq_true_2|].
      rewrite bool_decide_eq_false_2 by done. cbn. by rewrite (registered_at m _ e' i x eq_refl Hx).
    + by rewrite bool_decide_eq_false_2.
Qed.

Lemma del_done w m f e : io_ok w m -> op_pre m (Del f e) -> op_done w m (Del f e).
Proof.
  intros Hok [Hf He]. destruct (unregister_ok f e (fun x new_ev =>
      update_io (add_pending (-1)) ;;; ev_ctx <- getContext x e ;;
      set_fd f (with_context x e (resetContext ev_ctx) new_ev)) w m Hok Hf He)
    as [(w' & E & Hi)|(w' & i & x & -> & Hx & Hw & Hi & E)]; [by eapply op_failed|].
  assert (run_op (Del (Z.of_nat i) e) (w, m) = Ok true (w',
    set_contexts (<[i := drop_event x e]> (m_fdContexts m)) (add_pending (-1) m))) as E'.
  { cbn [run_op]. unfold delEvent. rewrite E.
    assert (forall s : W * IOManager, getContext x e s = Ok (context x e) s) as Eg by (intros; by destruct e).
    unfold bind, update_io, modify. rewrite Eg. unfold set_fd, update_io, modify. cbn [fst snd].
    by rewrite Nat2Z.id. }
  eapply (drop_done w w' m _ i x e _ Hok Hx Hw He Hi E'); try done. cbn. by rewrite app_nil_r.
Qed.

Lemma cancel_done w m f e : io_ok w m -> op_pre m (Cancel f e) -> op_done w m (Cancel f e).
Proof.
  intros Hok [Hf He]. destruct (unregister_ok f e (fun _ _ => triggerEvent f e ;;; update_io (add_pending (-1))) w m Hok Hf He)
    as [(w' & E & Hi)|(w' & i & x & -> & Hx & Hw & Hi & E)]; [by eapply op_failed|].
  destruct (triggerEvent_ok i e w' m x Hx (fd_found _ _ _ _ Hok Hx) He Hw) as (m1 & Et & Eq & Ep & Ef).
  assert (run_op (Cancel (Z.of_nat i) e) (w, m) = Ok true (w',
    add_pending (-1) (set_contexts (<[i := drop_event x e]> (m_fdContexts m)) m1))) as E'
    by (cbn [run_op]; unfold canceEvent; by rewrite E, bind_assoc, (bind_ok _ _ _ _ _ Et)).
  eapply (drop_done w w' m _ i x e _ Hok Hx Hw He Hi E'); try done; [by cbn; rewrite Ep|].
  cbn. rewrite Eq, (registered_at m _ e i x eq_refl Hx). unfold waiter. by rewrite Hw.
Qed.

(** Both events of a descriptor at once. *)
Lemma trig2_done w w' m m' i x b1 b2 (op : io_op) : io_ok w m -> m_fdContexts m !! i = Some x ->
  (b1 = true -> waits x READ = true) -> (b2 = true -> waits x WRITE = true) -> b1 || b2 = true ->
  (forall g, interest w' g = if decide (g = Z.of_nat i) then watched (trig2 b1 b2 x) else interest w g) ->
  run_op op (w, m) = Ok true (w', m') ->
  m_fdContexts m' = <[i := trig2 b1 b2 x]> (m_fdContexts m) ->
  m_pendingEvent m' = u64 (m_pendingEvent m + (n_events (trig2 b1 b2 x) - n_events x)) ->
  m_tickleFd m' = m_tickleFd m -> m_fibers (sched m') = m_fibers (sched m) ++ woken m op true ->
  (forall g e', e' <> NONE -> after m op true g e' =
     if bool_decide (g = Z.of_nat i) && match e' with READ => b1 | WRITE => b2 | NONE => false end
     then None else registered m g e') ->
  op_done w m op.
Proof.
  intros Hok Hx H1 H2 H12 Hi E Ec Ep Et Eq Ha. pose proof (fd_found _ _ _ _ Hok Hx) as Hf.
  exists true, w', m'. split_and!; try done.
  - eapply (io_set w w' m m' i x (trig2 b1 b2 x)); try done; [by do 2 apply trig_ok|].
    destruct b1; [by eapply wait_not_tickle; [..|apply H1]|]. destruct b2; [by eapply wait_not_tickle; [..|apply H2]|done].
  - intros g e' He'. rewrite Ha by done. rewrite (registered_set m m' i _ g e' Ec (lookup_lt_Some _ _ _ Hx)).
    destruct (decide (g = Z.of_nat i)) as [->|Hn]; [|by rewrite bool_decide_eq_false_2].
    rewrite bool_decide_eq_true_2, (waiter_trig2 b1 b2 x i e' Hf He') by done. cbn [andb].
    by rewrite (registered_at m _ e' i x eq_refl Hx).
Qed.

Lemma land_trig x i : fd_ok x i ->
  Z.land (events (trig (waits x READ) x READ)) (bits WRITE) = Z.land (events x) (bits WRITE) /\
  events (trig2 (waits x READ) (waits x WRITE) x) = 0.
Proof.
  intros (_ & Hc & _). unfold trig2, trig, waits, drop_event. destruct x as [r wr f ev]. cbn in *.
  by destruct Hc as [->|[->|[->| ->]]]; cbn.
Qed.

Lemma option_list_waits x e : option_list (waiter x e) = woke (waits x e) x e.
Proof. unfold waiter, woke. by destruct (waits x e). Qed.

Lemma cancelall_done w m f : io_ok w m -> op_pre m (CancelAll f) -> op_done w m (CancelAll f).
Proof.
  intros Hok Hf. cbn in Hf.
  assert (canceAll f (w, m) = run_op (CancelAll f) (w, m)) as E0 by done. unfold canceAll in E0. cbn [snd] in E0.
  rewrite (table_size w m Hok) in E0.
  destruct (Z.leb_spec (Z.of_nat (length (m_fdContexts m))) f) as [Hge|Hlt]; [by eapply op_failed|].
  assert (f = Z.of_nat (Z.to_nat f)) as Ef by lia. set (i := Z.to_nat f) in *. clearbody i. subst f.
  destruct (lookup_lt_is_Some_2 (m_fdContexts m) i ltac:(lia)) as [x Hx].
  run (fd_at_ok _ i w m x eq_refl Hx) in E0. pose proof (fd_found _ _ _ _ Hok Hx) as Hfd.
  destruct (events x =? 0) eqn:Ee; [by eapply op_failed|].
  destruct (on_epoll_ok EPOLL_CTL_DEL (Z.of_nat i) 0 w m) as (rt & w' & E & [[-> Hi]|(-> & _ & Hi)]);
    run E in E0; [by eapply op_failed|]. cbn [Z.eqb negb] in E0.
  run (fd_at_ok _ i w' m x eq_refl Hx) in E0.
  destruct (land_trig x i Hfd) as [El E2].
  destruct (triggers_ok (events x) events (waits x READ) (waits x WRITE) i w' m x Hx Hfd (io_pending_range _ _ Hok))
    as (m' & Et & _ & Ec & Ep & Ett & Eq); try done; [unfold waits at 1; by rewrite El|].
  rewrite Et in E0. set (x2 := trig2 (waits x READ) (waits x WRITE) x) in *.
  assert (m_fdContexts m' !! i = Some x2) as Hx2
    by (rewrite Ec; by apply list_lookup_insert_eq, (lookup_lt_Some _ _ _ Hx)).
  rewrite (bind_ok _ _ _ _ _ (fd_at_ok _ i w' m' x2 eq_refl Hx2)), E2 in E0.
  eapply (trig2_done w w' m m' i x (waits x READ) (waits x WRITE)); try done.
  - destruct Hfd as (_ & Hc & _). unfold waits. by destruct Hc as [Hc|[Hc|[Hc|Hc]]]; rewrite Hc in *.
  - intros g. rewrite Hi. unfold watched. fold x2. by rewrite E2.
  - cbn. by rewrite Eq, !(registered_at m _ _ i x eq_refl Hx), !option_list_waits.
  - intros g e' He'. cbn. destruct (decide (g = Z.of_nat i)) as [->|Hn]; [|by rewrite bool_decide_eq_false_2].
    rewrite bool_decide_eq_true_2, (registered_at m _ e' i x eq_refl Hx) by done. unfold waiter. cbn.
    by destruct e'; cbn; [|destruct (waits x READ)|destruct (waits x WRITE)].
Qed.

Lemma real_cases ev evs : real_events ev evs = 0 \/ real_events ev evs = 1 \/ real_events ev evs = 4 \/ real_events ev evs = 5.
Proof.
  unfold real_events. set (ev' := if Z.land ev _ =? 0 then ev else _). cbv zeta. generalize ev'. clear ev'. intros ev'.
  destruct (Z.land ev' EPOLLIN =? 0), (Z.land ev' EPOLLOUT =? 0); auto.
Qed.

Lemma left_events x i real : fd_ok x i -> real = 0 \/ real = 1 \/ real = 4 \/ real = 5 ->
  let b1 := negb (Z.land real (bits READ) =? 0) in let b2 := negb (Z.land real (bits WRITE) =? 0) in
  ((Z.land (events x) real =? 0) = false -> b1 || b2 = true) /\
  events (trig2 b1 b2 x) = Z.land (events x) (Z.lnot real) /\
  ((Z.land (events x) real =? 0) = negb (b1 && waits x READ || b2 && waits x WRITE)).
Proof.
  intros (_ & Hc & _) Hr. unfold trig2, trig, drop_event, waits. destruct x as [r wr f ev]. cbn in *.
  by destruct Hc as [->|[->|[->| ->]]], Hr as [->|[->|[->| ->]]].
Qed.

Lemma waits_registered m i x e : m_fdContexts m !! i = Some x -> is_Some (registered m (Z.of_nat i) e) <-> waits x e = true.
Proof.
  intros Hx. rewrite (registered_at m _ e i x eq_refl Hx). unfold waiter.
  destruct (waits x e); split; intros Hs; [done|by eexists|by destruct Hs|done].
Qed.

Lemma ready_done w m f ev : io_ok w m -> op_pre m (Ready f ev) -> op_done w m (Ready f ev).
Proof.
  intros Hok [Hf Hpre]. assert (f = Z.of_nat (Z.to_nat f)) as Ef by lia.
  set (i := Z.to_nat f) in *. clearbody i. subst f.
  destruct (lookup_lt_is_Some_2 (m_fdContexts m) i ltac:(lia)) as [x Hx]. pose proof (fd_found _ _ _ _ Hok Hx) as Hfd.
  assert (on_event (Z.of_nat i) ev (w, m) = run_op (Ready (Z.of_nat i) ev) (w, m)) as E0 by done. unfold on_event in E0.
  run (fd_at_ok _ i w m x eq_refl Hx) in E0. cbv zeta in E0.
  assert (forall e, concerns m (Z.of_nat i) ev e = negb (Z.land (real_events ev (events x)) (bits e) =? 0)) as Hcon
    by (intros e; unfold concerns; by rewrite Nat2Z.id, Hx).
  pose proof (real_cases ev (events x)) as Hreal. set (real := real_events ev (events x)) in *. clearbody real.
  destruct (left_events x i real Hfd Hreal) as (Hb & Hl & Hz). rewrite <- !Hcon in Hb, Hl, Hz.
  destruct (Z.land (events x) real =? 0) eqn:Ez; [by eapply op_failed|].
  assert (forall e, e <> NONE -> concerns m (Z.of_nat i) ev e = true -> waits x e = true) as Hw.
  { destruct Hpre as [Hp|Hp]; intros e He Hc; [apply (waits_registered m i x e Hx); auto|].
    assert (forall e, concerns m (Z.of_nat i) ev e && waits x e = false) as Hno.
    { intros e'. destruct (concerns m (Z.of_nat i) ev e') eqn:Ec; [|done]. specialize (Hp e' Ec).
      destruct (waits x e') eqn:Ew; [|done]. apply (waits_registered m i x e' Hx) in Ew as [? Ew]. by rewrite Hp in Ew. }
    by rewrite !Hno in Hz. }
  assert (fd x = Z.of_nat i) as Efd by apply Hfd. rewrite Efd in E0.
  destruct (on_epoll_ok (if Z.land (events x) (Z.lnot real) =? 0 then EPOLL_CTL_DEL else EPOLL_CTL_MOD) (Z.of_nat i)
    (Z.lor EPOLLET (Z.land (events x) (Z.lnot real))) w m) as (rt & w' & E & [[-> Hi]|(-> & _ & Hi)]);
    run E in E0; [by eapply op_failed|]. cbn [Z.eqb negb] in E0.
  set (b1 := concerns m (Z.of_nat i) ev READ) in *. set (b2 := concerns m (Z.of_nat i) ev WRITE) in *.
  destruct (triggers_ok real (fun _ => real) b1 b2 i w' m x Hx Hfd (io_pending_range _ _ Hok))
    as (m' & _ & Et & Ec & Ep & Ett & Eq); [by apply Hcon|by apply Hw|by apply Hcon|by apply Hw|].
  rewrite Et in E0.
  eapply (trig2_done w w' m m' i x b1 b2); try done; [by apply Hw|by apply Hw|by apply Hb| | |].
  - intros g. rewrite Hi. unfold watched. rewrite Hl. by destruct (Z.land (events x) (Z.lnot real) =? 0).
  - cbn. rewrite Eq, !(registered_at m _ _ i x eq_refl Hx), !option_list_waits. fold b1 b2.
    f_equal. f_equal.
    + destruct b1 eqn:Eb; [|done]. by rewrite (Hw READ ltac:(done) Eb).
    + destruct b2 eqn:Eb; [|done]. by rewrite (Hw WRITE ltac:(done) Eb).
  - intros g e' He'. cbn. by destruct e'.
Qed.

(** ** Adding *)

Definition resized (n : nat) m : IOManager :=
  set_contexts (m_fdContexts m ++ map new_FdContext (seq (length (m_fdContexts m)) (n - length (m_fdContexts m)))) m.

Lemma resize_lookup n m j z : m_fdContexts (resized n m) !! j = Some z ->
  m_fdContexts m !! j = Some z \/ (length (m_fdContexts m) <= j)%nat /\ z = new_FdContext j.
Proof.
  unfold resized. cbn. intros Hz. apply lookup_app_Some in Hz as [Hz|[Hge Hz]]; [by left|right]. split; [done|].
  rewrite list_lookup_fmap in Hz. destruct (seq _ _ !! _) eqn:Es; [|done]. injection Hz as <-.
  apply lookup_seq in Es as [-> _]. f_equal. lia.
Qed.

Lemma resize_ok n w m : io_ok w m -> (length (m_fdContexts m) <= n)%nat -> Z.of_nat n < 2 ^ 31 -> io_ok w (resized n m).
Proof.
  intros [H1 H2 H3 (H4 & H5 & H6) H7 H8] Hn Hm.
  assert (length (m_fdContexts (resized n m)) = n) as Ln
    by (unfold resized; cbn; rewrite length_app, length_map, length_seq; lia).
  constructor; rewrite ?Ln; cbn [m_tickleFd resized set_contexts m_pendingEvent].
  - intros j z [Hz|[Hge ->]]%resize_lookup; [by apply H1|]. split_and!; try done. by left.
  - intros j z [Hz|[Hge ->]]%resize_lookup Hj; [by apply H2|]. rewrite H3 by lia. done.
  - intros f Hf Hft. apply H3; lia.
  - split_and!; [done|done|]. intros z [Hz|[Hge ->]]%resize_lookup; [by apply H6|done].
  - rewrite H7. cbn. rewrite total_app. assert (forall l, total (map new_FdContext l) = 0) as ->; [|lia].
    intros l. induction l as [|a l IH]; [done|]. cbn. rewrite IH. done.
  - lia.
Qed.

Lemma resize_registered n m g e : registered (resized n m) g e = registered m g e.
Proof.
  unfold registered. destruct (g <? 0); [done|]. unfold resized. cbn.
  destruct (m_fdContexts m !! Z.to_nat g) as [x|] eqn:Hx; [by erewrite lookup_app_l_Some|].
  destruct ((m_fdContexts m ++ _) !! Z.to_nat g) as [z|] eqn:Hz; [|done].
  apply (resize_lookup n m) in Hz as [Hz|[_ ->]]; [congruence|]. unfold waiter, waits. by destruct e.
Qed.

Lemma current_ok i (m : IOManager) g (z : Fiber) : current i m = Some g -> fibers (sched m) !! g = Some z ->
  on_thread i GetThis (sched m) = Ok g (sched m) /\ on_thread i (the_fiber g) (sched m) = Ok z (sched m).
Proof.
  unfold current, on_thread. destruct (threads (sched m) !! i) as [t|] eqn:Ht; [|done]. intros Hg Hz.
  assert (forall v, v = mkFibers (fibers (sched m)) (next_id (sched m)) (fiber_count (sched m)) (th_fiber t)
    (th_threadFiber t) (th_mainFiber t) ->
    GetThis v = Ok g v /\ the_fiber g v = Ok z v) as Hv.
  { intros v ->. unfold GetThis, bind, get, the_fiber. cbn. by rewrite Hg, Hz. }
  destruct (Hv _ eq_refl) as [-> ->]. cbn [heap s_fiber_id s_fiber_count t_fiber t_threadFiber t_mainFiber].
  rewrite list_insert_id by (rewrite Ht; by destruct t). by destruct (sched m).
Qed.

Definition added (x : FdContext) (e : Event) (g : option nat) (cb : option code) : FdContext :=
  with_context x e (mkContext true g cb) (Z.lor (events x) (bits e)).

Lemma added_ok x i e g cb : fd_ok x i -> e <> NONE -> waits x e = false ->
  (g = None /\ is_Some cb \/ is_Some g /\ cb = None) ->
  fd_ok (added x e g cb) i /\ n_events (added x e g cb) = n_events x + 1 /\ events (added x e g cb) <> 0 /\
  events (added x e g cb) = Z.lor (events x) (bits e) /\ context x e = no_context /\
  forall e', e' <> NONE -> waiter (added x e g cb) e' = if decide (e' = e) then Some (mkFT g cb (-1)) else waiter x e'.
Proof.
  intros (Hf & Hc & Hr & Hw) He Hn Hg. revert Hr Hw Hn. unfold added, fd_ok, waiter, waits, n_events.
  destruct x as [r wr f ev]. cbn in *.
  destruct Hc as [->|[->|[->| ->]]]; destruct e; cbn; intros Hr Hw Hn; try done;
    (split_and!; try done; [vm_compute; auto|intros [] He'; by cbn]).
Qed.

(** Adding to a context of the table. *)
Definition add_tail (i : nat) (f : Z) (e : Event) (cb : option code) (x : FdContext) : @IM W Z :=
  wyze_assert (Z.land (events x) (bits e) =? 0) "!(fd_ctx->events & event)" ;;;
  let op := if events x =? 0 then EPOLL_CTL_ADD else EPOLL_CTL_MOD in
  rt <- on_epoll (epoll_ctl op f (Z.lor (Z.lor EPOLLET (events x)) (bits e))) ;;
  if negb (rt =? 0) then ret (-1)
  else
    update_io (add_pending 1) ;;;
    let evs := Z.lor (events x) (bits e) in
    ev_ctx <- getContext x e ;;
    wyze_assert (match ev_ctx with mkContext false None None => true | _ => false end)
      "!ev_ctx.scheduler && !ev_ctx.fiber && !ev_ctx.cb" ;;;
    match cb with
    | Some c => set_fd f (with_context x e (mkContext true None (Some c)) evs) ;;; ret 0
    | None =>
        g <- on_sched (on_thread i GetThis) ;;
        set_fd f (with_context x e (mkContext true (Some g) None) evs) ;;;
        y <- on_sched (on_thread i (the_fiber g)) ;;
        wyze_assert (bool_decide (m_state y = EXEC)) "ev_ctx.fiber->getState() == Fiber::State::EXEC" ;;;
        ret 0
    end.

Lemma add_tail_ok k i e cb w m x : io_ok w m -> m_fdContexts m !! i = Some x -> e <> NONE -> waits x e = false ->
  (is_Some cb \/ exists g (z : Fiber), current k m = Some g /\ fibers (sched m) !! g = Some z /\ m_state z = EXEC) ->
  let g := match cb with None => current k m | _ => None end in
  (exists w', add_tail k (Z.of_nat i) e cb x (w, m) = Ok (-1) (w', m) /\ io_ok w' m) \/
  (exists w' m', add_tail k (Z.of_nat i) e cb x (w, m) = Ok 0 (w', m') /\ io_ok w' m' /\
    m_fdContexts m' = <[i := added x e g cb]> (m_fdContexts m) /\ sched m' = sched m).
Proof.
  intros Hok Hx He Hn Hcb g. pose proof (fd_found _ _ _ _ Hok Hx) as Hfd.
  destruct (added_ok x i e g cb Hfd He Hn) as (Ha & Hna & Hnz & Hev & Hctx & _).
  { unfold g. destruct cb as [c|]; [left; by split; [|exists c]|]. destruct Hcb as [[]|(g0 & z & Hg & _)]; [done|].
    right. by split; [exists g0|]. }
  unfold add_tail. assert ((Z.land (events x) (bits e) =? 0) = true) as -> by (unfold waits in Hn; by apply negb_false_iff in Hn).
  cbn [wyze_assert]. rewrite bind_ret. cbv zeta.
  destruct (on_epoll_ok (if events x =? 0 then EPOLL_CTL_ADD else EPOLL_CTL_MOD) (Z.of_nat i)
    (Z.lor (Z.lor EPOLLET (events x)) (bits e)) w m) as (rt & w' & E & [[-> Hi]|(-> & Hop & Hi)]);
    run E; [left; exists w'; split; [done|by eapply io_ok_ext]|].
  right. cbn [Z.eqb negb]. unfold update_io at 1. rewrite bind_modify. cbn [fst snd].
  assert (forall s : W * IOManager, getContext x e s = Ok (context x e) s) as Eg by (intros; by destruct e).
  rewrite (bind_ok _ _ _ _ _ (Eg _)), Hctx. unfold no_context. cbn [wyze_assert]. rewrite bind_ret.
  set (m2 := set_contexts (<[i := added x e g cb]> (m_fdContexts m)) (add_pending 1 m)).
  exists w', m2. split_and!; [|eapply (io_set w w' m m2 i x (added x e g cb)); try done|done|done].
  - unfold g, m2, added in *. destruct cb as [c|].
    + unfold bind, set_fd, update_io, modify. cbn [fst snd]. by rewrite Nat2Z.id.
    + destruct Hcb as [[]|(g0 & z & Hg & Hz & Hs)]; [done|].
      destruct (current_ok k m g0 z Hg Hz) as [E1 E2].
      assert (g = Some g0) as -> by exact Hg.
      unfold bind at 1, on_sched at 1. cbn [snd fst add_pending sched]. rewrite E1.
      unfold bind, set_fd, update_io, modify, on_sched. cbn [fst snd set_contexts sched add_pending set_sched]. rewrite E2.
      rewrite bool_decide_eq_true_2 by done. cbn. by rewrite Nat2Z.id.
  - intros g'. rewrite Hi. destruct (decide (g' = Z.of_nat i)); [|done]. unfold watched.
    rewrite (proj2 (Z.eqb_neq _ _) Hnz). rewrite Hev, Z.lor_assoc. by destruct (events x =? 0).
  - intros Ht. destruct Hok as [_ _ _ (_ & Htk & Htz) _ _]. rewrite <- Ht in *.
    rewrite (Htz x) in Hop by by rewrite Nat2Z.id. cbn in Hop. rewrite Hop in Htk. by destruct Htk.
  - cbn. rewrite Hna. f_equal. lia.
Qed.

Lemma add_done w m k f e cb : io_ok w m -> op_pre m (Add k f e cb) -> op_done w m (Add k f e cb).
Proof.
  intros Hok (Hf & He & Hreg & Hcb). assert (f = Z.of_nat (Z.to_nat f)) as Ef by lia.
  set (i := Z.to_nat f) in *. clearbody i. subst f.
  assert (exists m1 x, io_ok w m1 /\ (forall g e, registered m1 g e = registered m g e) /\ sched m1 = sched m /\
    m_fdContexts m1 !! i = Some x /\ addEvent k (Z.of_nat i) e cb (w, m) = add_tail k (Z.of_nat i) e cb x (w, m1))
    as (m1 & x & Hok1 & Hr1 & Hs1 & Hx & E).
  { unfold addEvent. cbn [snd]. rewrite (table_size w m Hok).
    destruct (Z.ltb_spec (Z.of_nat i) (Z.of_nat (length (m_fdContexts m)))) as [Hlt|Hge].
    - destruct (lookup_lt_is_Some_2 (m_fdContexts m) i ltac:(lia)) as [x Hx]. exists m, x.
      by run (fd_at_ok _ i w m x eq_refl Hx).
    - pose proof (io_size _ _ Hok) as Hsz. set (n := Z.to_nat (Z.of_nat i * 3 / 2)).
      assert (Z.of_nat n = Z.of_nat i * 3 / 2) as En by (unfold n; rewrite Z2Nat.id; [done|apply Z.div_pos; lia]).
      assert (Z.of_nat i < Z.of_nat n < 2 ^ 31) as Hn.
      { rewrite En. split; [|apply Z.div_lt_upper_bound; lia]. apply Z.lt_le_trans with (Z.of_nat i + 1); [lia|].
        apply Z.div_le_lower_bound; lia. }
      pose proof (resize_ok n w m Hok ltac:(lia) ltac:(lia)) as Hokr.
      destruct (lookup_lt_is_Some_2 (m_fdContexts (resized n m)) i) as [x Hx].
      { unfold resized. cbn. rewrite length_app, length_map, length_seq. lia. }
      exists (resized n m), x. split_and!; [done|apply resize_registered|done|done|].
      assert (contextResize n (w, m) = Ok tt (w, resized n m)) as Er.
      { unfold contextResize, update_io, modify, resized. cbn [fst snd]. by rewrite firstn_all2 by lia. }
      run Er.
      by run (fd_at_ok _ i w (resized n m) x eq_refl Hx). }
  assert (waits x e = false) as Hn.
  { rewrite <- Hr1, (registered_at m1 _ e i x eq_refl Hx) in Hreg. unfold waiter in Hreg. by destruct (waits x e). }
  assert (current k m1 = current k m) as Ek by (unfold current; by rewrite Hs1).
  destruct (add_tail_ok k i e cb w m1 x Hok1 Hx He Hn) as [(w' & Et & Hok')|(w' & m' & Et & Hok' & Ec & Es)].
  { rewrite Ek, Hs1. done. }
  - exists false, w', m1. unfold run_op. run (eq_trans E Et).
    split_and!; [done|done|intros; apply Hr1|by rewrite app_nil_r, Hs1].
  - rewrite Ek in Ec. exists true, w', m'. unfold run_op. run (eq_trans E Et).
    split_and!; [done|done| |by rewrite app_nil_r, Es, Hs1]. intros g e' He'.
    rewrite (registered_set m1 m' i _ g e' Ec (lookup_lt_Some _ _ _ Hx)). cbn [after negb].
    destruct (decide (g = Z.of_nat i)) as [->|Hg]; [|by rewrite bool_decide_eq_false_2].
    rewrite bool_decide_eq_true_2 by done. cbn [andb].
    destruct (added_ok x i e (match cb with None => current k m | _ => None end) cb (fd_found _ _ _ _ Hok1 Hx) He Hn)
      as (_ & _ & _ & _ & _ & Hwt).
    { destruct cb as [c|]; [left; by split; [|exists c]|]. destruct Hcb as [[]|(g0 & z & Hg & _)]; [done|].
      right. by split; [exists g0|]. }
    rewrite Hwt by done. destruct (decide (e' = e)) as [->|Hne]; [by rewrite bool_decide_eq_true_2|].
    rewrite bool_decide_eq_false_2 by done. by rewrite <- (registered_at m1 _ e' i x eq_refl Hx), Hr1.
Qed.

(** C1: adding, deleting and cancelling events, and the events epoll reports, keep the table,
    the kernel's interest and the count of pending events in step, and do to the set of waiters
    exactly what they should: an event that is cancelled, or comes, is no longer waited for and
    its waiter goes to the scheduler's queue, once; a call that fails changes nothing. *)
Theorem events_refine w m op : io_ok w m -> op_pre m op -> op_done w m op.
Proof.
  intros Hok Hp. destruct op; [by apply add_done|by apply del_done|by apply cancel_done|by apply cancelall_done|by apply ready_done].
Qed.

(** When epoll reports both directions of a descriptor but only one is still waited for,
    the other having been given up in the meantime, the assertion in [triggerEvent] fails and
    ends the process, unless epoll_ctl fails. *)
Theorem stale_event_aborts w m f ev e e' : io_ok w m -> 0 <= f < Z.of_nat (length (m_fdContexts m)) ->
  (e, e') = (READ, WRITE) \/ (e, e') = (WRITE, READ) ->
  concerns m f ev READ = true -> concerns m f ev WRITE = true ->
  is_Some (registered m f e) -> registered m f e' = None ->
  exists w' m', run_op (Ready f ev) (w, m) = Throw (assert_failed "events & event") (w', m') \/
                run_op (Ready f ev) (w, m) = Ok false (w', m).
Proof.
  intros Hok Hf Hee Hc1 Hc2 Hre Hre'. assert (f = Z.of_nat (Z.to_nat f)) as Ef by lia.
  set (i := Z.to_nat f) in *. clearbody i. subst f.
  destruct (lookup_lt_is_Some_2 (m_fdContexts m) i ltac:(lia)) as [x Hx]. pose proof (fd_found _ _ _ _ Hok Hx) as Hfd.
  assert (on_event (Z.of_nat i) ev (w, m) = run_op (Ready (Z.of_nat i) ev) (w, m)) as E0 by done. rewrite <- E0. unfold on_event.
  run (fd_at_ok _ i w m x eq_refl Hx). cbv zeta.
  unfold concerns in Hc1, Hc2. rewrite Nat2Z.id, Hx in Hc1, Hc2.
  set (real := real_events ev (events x)) in *. clearbody real.
  apply (waits_registered m i x e Hx) in Hre.
  assert (waits x e' = false) as Hw'.
  { destruct (waits x e') eqn:Ew; [|done]. apply (waits_registered m i x e' Hx) in Ew as [? Ew]. congruence. }
  destruct (Z.land (events x) real =? 0) eqn:Ez; [by exists w, m; right|].
  assert (fd x = Z.of_nat i) as -> by apply Hfd.
  destruct (on_epoll_ok (if Z.land (events x) (Z.lnot real) =? 0 then EPOLL_CTL_DEL else EPOLL_CTL_MOD) (Z.of_nat i)
    (Z.lor EPOLLET (Z.land (events x) (Z.lnot real))) w m) as (rt & w' & E & [[-> Hi]|(-> & _ & Hi)]);
    run E; [by exists w', m; right|]. cbn [Z.eqb negb].
  apply negb_true_iff in Hc1, Hc2.
  assert (forall m' y, m_fdContexts m' !! i = Some y -> waits y e' = false ->
    exists m'', triggerEvent (Z.of_nat i) e' (w', m') = Throw (assert_failed "events & event") (w', m'')) as Hthrow.
  { intros m' y Hy Hwy. exists m'. unfold triggerEvent. run (fd_at_ok _ i w' m' y eq_refl Hy).
    unfold waits in Hwy. rewrite Hwy. done. }
  destruct Hee as [[= -> ->]|[= -> ->]].
  - destruct (trigger_if_ok real i READ w' m x Hx Hfd ltac:(done) (io_pending_range _ _ Hok)) as (m1 & E1 & C1 & _); [done|].
    run E1. rewrite Hc1 in C1. cbn [negb trig] in C1.
    destruct (Hthrow m1 (drop_event x READ)) as [m'' Et].
    { rewrite C1. by apply list_lookup_insert_eq, (lookup_lt_Some _ _ _ Hx). }
    { pose proof (context_trig true x) as [_ Ew]. cbn [trig] in Ew. by rewrite Ew. }
    exists w', m''. left. unfold trigger_if. rewrite Hc2. unfold bind. by rewrite Et.
  - destruct (Hthrow m x Hx Hw') as [m'' Et]. exists w', m''. left. unfold trigger_if. rewrite Hc1. unfold bind. by rewrite Et.
Qed.
End spec.

(** *** Witnesses: an epoll that does what is documented *)

Definition table : Type := Z -> option Z.
#[export] Instance table_epoll : Epoll table := {
  epoll_ctl op f ev w :=
    let put_ v : table := fun g => if decide (g = f) then v else w g in
    match op, w f with
    | EPOLL_CTL_ADD, None | EPOLL_CTL_MOD, Some _ => Ok 0 (put_ (Some ev))
    | EPOLL_CTL_DEL, Some _ => Ok 0 (put_ None)
    | _, _ => Ok (-1) w
    end }.
#[export] Program Instance table_spec : EpollSpec table := { interest w g := w g }.
Next Obligation.
  intros op f ev w. cbn. destruct op, (w f) eqn:E; do 2 eexists; (split; [reflexivity|]); auto;
    right; (split; [done|]); split; try done; by eexists.
Qed.

(** Descriptor 3 is the pipe; 7 is waited for in both directions. *)
Definition both (f : nat) : FdContext :=
  mkFdContext (mkContext true None (Some (Act 1 Return))) (mkContext true None (Some (Act 2 Return))) (Z.of_nat f) 5.
Definition io0 (x : FdContext) : IOManager :=
  mkIOManager (blank 1 (mkFibers [] 0 0 None None None)) (new_TimerManager 0) 3 (n_events x)
    (<[7%nat := x]> (map new_FdContext (seq 0 32))) 0.
Definition w0 (x : FdContext) : table := fun g =>
  if decide (g = 3) then Some (Z.lor EPOLLET EPOLLIN) else if decide (g = 7) then watched x else None.

Lemma io0_ok x : fd_ok x 7 -> io_ok (w0 x) (io0 x).
Proof.
  intros Hx.
  assert (forall i z, m_fdContexts (io0 x) !! i = Some z -> i = 7%nat /\ z = x \/ i <> 7%nat /\ z = new_FdContext i) as Hl.
  { intros i z Hz. unfold io0 in Hz. cbn [m_fdContexts] in Hz. destruct (decide (i = 7%nat)) as [->|Hi].
    - left. split; [done|]. by injection Hz as <-.
    - rewrite list_lookup_insert_ne in Hz by done. right. split; [done|]. rewrite list_lookup_fmap in Hz.
      destruct (seq 0 32 !! i) eqn:Es; [|done]. injection Hz as <-. by apply lookup_seq in Es as [-> _]. }
  constructor.
  - intros i z [[-> ->]|[_ ->]]%Hl; [done|]. split_and!; try done. by left.
  - intros i z [[-> ->]|[Hi ->]]%Hl Ht; [done|]. cbn in Ht. unfold interest, table_spec, w0.
    rewrite !decide_False by lia. done.
  - intros f Hf _. unfold interest, table_spec, w0. cbn in Hf. rewrite !decide_False by lia. done.
  - split_and!; [done|by eexists|]. by intros z [= <-].
  - unfold io0. cbn [m_pendingEvent m_fdContexts]. rewrite (total_insert _ 7 (new_FdContext 7)) by done.
    cbn [n_events]. change (total (map new_FdContext (seq 0 32))) with 0. change (n_events (new_FdContext 7)) with 0. lia.
  - by vm_compute.
Qed.

Lemma events_refine_witness : op_done (w0 (both 7)) (io0 (both 7)) (Ready 7 (Z.lor EPOLLIN EPOLLOUT)).
Proof.
  refine (events_refine _ _ _ (io0_ok _ _) _).
  - split; [done|]. split; [vm_compute; auto|]. split; (split; [done|left; split; [done|by eexists]]).
  - split; [by vm_compute|]. left. intros [] He; [done| |]; intros _; vm_compute; by eexists.
Defined.

Lemma stale_event_aborts_witness :
  let x := mkFdContext (mkContext true None (Some (Act 1 Return))) no_context 7 1 in
  exists w' m', run_op (Ready 7 (Z.lor EPOLLIN EPOLLOUT)) (w0 x, io0 x) = Throw (assert_failed "events & event") (w', m') \/
    run_op (Ready 7 (Z.lor EPOLLIN EPOLLOUT)) (w0 x, io0 x) = Ok false (w', io0 x).
Proof.
  intros x. refine (stale_event_aborts (w0 x) (io0 x) 7 _ READ WRITE (io0_ok x _) _ _ _ _ _ _).
  - split; [done|]. split; [vm_compute; auto|]. split; [|done]. split; [done|left; split; [done|by eexists]].
  - by vm_compute.
  - by left.
  - reflexivity.
  - reflexivity.
  - vm_compute. by eexists.
  - reflexivity.
Defined.
