(* ===== verification/Hook.v ===== *)
(** * Hook and FdManager: blocking calls on fibers
    (src/wyze/fdmanager.h, src/wyze/fdmanager.cpp, src/wyze/hook.cpp)

    [errno] is part of what a system call gives.  The kernel's answers for a descriptor,
    [fstat] and the flags that [fcntl] keeps, are the fields of a [Kernel_fds]. *)

From S2P Require Import Prelude Fiber Scheduler Timer IOManager.

(** ** What is known of a descriptor *)

Definition O_NONBLOCK : Z := 2048.
Inductive timeout_type := SO_RCVTIMEO | SO_SNDTIMEO | other_option.

Record FdCtx := mkFdCtx {
  m_isInit : bool; m_isSocket : bool; m_sysNonblock : bool; m_userNonblock : bool; m_isClosed : bool;
  m_fd : Z; m_recvTimeout : Z; m_sendTimeout : Z }.

(** [fstat]: is there such a descriptor, is it a socket; the file status flags *)
Record Kernel_fds := mkFds { kf_stat : Z -> option bool; kf_flags : Z -> Z }.
Definition set_flags (f v : Z) (k : Kernel_fds) : Kernel_fds :=
  mkFds (kf_stat k) (fun g => if g =? f then v else kf_flags k g).

(** [FdCtx(fd)] with [init()] *)
Definition new_FdCtx (f : Z) : M Kernel_fds FdCtx := fun k =>
  match kf_stat k f with
  | None => Ok (mkFdCtx false false false false false f (2 ^ 64 - 1) (2 ^ 64 - 1)) k
  | Some false => Ok (mkFdCtx false false false false false f (2 ^ 64 - 1) (2 ^ 64 - 1)) k
  | Some true =>
      Ok (mkFdCtx false true true false false f (2 ^ 64 - 1) (2 ^ 64 - 1))
         (if Z.land (kf_flags k f) O_NONBLOCK =? 0 then set_flags f (Z.lor (kf_flags k f) O_NONBLOCK) k else k)
  end.

Definition setTimeout (t : timeout_type) (v : Z) (c : FdCtx) : option FdCtx :=
  match t with
  | SO_RCVTIMEO => Some (mkFdCtx (m_isInit c) (m_isSocket c) (m_sysNonblock c) (m_userNonblock c) (m_isClosed c)
                           (m_fd c) v (m_sendTimeout c))
  | SO_SNDTIMEO => Some (mkFdCtx (m_isInit c) (m_isSocket c) (m_sysNonblock c) (m_userNonblock c) (m_isClosed c)
                           (m_fd c) (m_recvTimeout c) v)
  | other_option => None
  end.
Definition getTimeout (t : timeout_type) (c : FdCtx) : option Z :=
  match t with SO_RCVTIMEO => Some (m_recvTimeout c) | SO_SNDTIMEO => Some (m_sendTimeout c) | other_option => None end.
Definition setUserNonblock (v : bool) (c : FdCtx) : FdCtx :=
  mkFdCtx (m_isInit c) (m_isSocket c) (m_sysNonblock c) v (m_isClosed c) (m_fd c) (m_recvTimeout c) (m_sendTimeout c).

(** [FdManager]: the contexts by descriptor, next to the kernel's *)
Record FdManager := mkFdManager { m_datas : list (option FdCtx); kernel : Kernel_fds }.
Definition new_FdManager (k : Kernel_fds) : FdManager := mkFdManager (repeat None 1024) k.

(** [m_datas[fd]] of a negative or a too big [fd] is undefined. *)
Definition data_at (f : Z) : M FdManager (option FdCtx) := fun s =>
  if f <? 0 then Undef out_of_bounds else or_undef out_of_bounds (m_datas s !! Z.to_nat f) s.
Definition set_data (f : Z) (c : option FdCtx) : M FdManager unit := fun s =>
  if (f <? 0) || (Z.of_nat (length (m_datas s)) <=? f) then Undef out_of_bounds
  else Ok tt (mkFdManager (<[Z.to_nat f := c]> (m_datas s)) (kernel s)).
Definition on_kernel {A} (m : M Kernel_fds A) : M FdManager A := fun s =>
  match m (kernel s) with
  | Ok a k => Ok a (mkFdManager (m_datas s) k)
  | Throw e k => Throw e (mkFdManager (m_datas s) k)
  | Undef u => Undef u
  end.

(** [get(fd, auto_create)] *)
Definition fd_get (f : Z) (auto_create : bool) : M FdManager (option FdCtx) := fun s =>
  let size := s32 (Z.of_nat (length (m_datas s))) in
  (if f =? -1 then ret None
   else if auto_create then
     d <- (if size <=? f then ret None else data_at f) ;;
     match d with
     | Some c => ret (Some c)
     | None => ctx <- on_kernel (new_FdCtx f) ;; set_data f (Some ctx) ;;; ret (Some ctx)
     end
   else if size <=? f then ret None else data_at f) s.
(** [del(fd)] *)
Definition fd_del (f : Z) : M FdManager unit := fun s =>
  if s32 (Z.of_nat (length (m_datas s))) <=? f then Ok tt s else set_data f None s.

(** ** Flags and options *)

Section hooked.
(** [t_hook_enable] *)
Context (t_hook_enable : bool).

(** A context the hooked calls act on. *)
Definition hooked_socket (c : option FdCtx) : option FdCtx :=
  match c with Some c => if m_isClosed c || negb (m_isSocket c) then None else Some c | None => None end.

(** [fcntl(fd, F_SETFL, arg)] and [fcntl(fd, F_GETFL)] *)
Definition fcntl_setfl (f arg : Z) : M FdManager unit :=
  if t_hook_enable then
    c <- fd_get f false ;;
    match hooked_socket c with
    | None => on_kernel (modify (set_flags f arg))
    | Some c =>
        set_data f (Some (setUserNonblock (negb (Z.land arg O_NONBLOCK =? 0)) c)) ;;;
        on_kernel (modify (set_flags f (if m_sysNonblock c then Z.lor arg O_NONBLOCK
                                        else Z.land arg (Z.lnot O_NONBLOCK))))
    end
  else on_kernel (modify (set_flags f arg)).
Definition fcntl_getfl (f : Z) : M FdManager Z :=
  s <- get ;;
  let arg := kf_flags (kernel s) f in
  if t_hook_enable then
    c <- fd_get f false ;;
    match hooked_socket c with
    | None => ret arg
    | Some c => ret (if m_userNonblock c then Z.lor arg O_NONBLOCK else Z.land arg (Z.lnot O_NONBLOCK))
    end
  else ret arg.

(** [ioctl(fd, FIONBIO, &v)]; what the kernel does with the flag it is given *)
Definition ioctl_f (f v : Z) : M FdManager unit := fun s =>
  on_kernel (modify (set_flags f (if v =? 0 then Z.land (kf_flags (kernel s) f) (Z.lnot O_NONBLOCK)
                                  else Z.lor (kf_flags (kernel s) f) O_NONBLOCK))) s.
Definition ioctl_fionbio (f v : Z) : M FdManager unit :=
  if t_hook_enable then
    c <- fd_get f false ;;
    match hooked_socket c with
    | Some c => set_data f (Some (setUserNonblock (negb (v =? 0)) c)) ;;; ioctl_f f 1
    | None => ioctl_f f v
    end
  else ioctl_f f v.

(** [setsockopt(fd, SOL_SOCKET, optname, {sec, usec})]; is the system's called? *)
Definition setsockopt (f : Z) (t : timeout_type) (sec usec : Z) : M FdManager bool :=
  match t with
  | other_option => ret true
  | _ =>
      if t_hook_enable then
        c <- fd_get f false ;;
        match c with
        | Some c => match setTimeout t (u64 (sec * 1000 + Z.quot usec 1000)) c with
                    | Some c => set_data f (Some c)
                    | None => throw (assert_failed "setTimeout")
                    end
        | None => ret tt
        end ;;; ret false
      else ret true
  end.

(** ** Blocking calls *)

Definition EINTR : Z := 4.
Definition EAGAIN : Z := 11.
Definition EBADF : Z := 9.
Definition EINPROGRESS : Z := 115.
Definition ETIMEDOUT : Z := 110.

(** What a blocked call does besides calling the system. *)
Class Blocking (W : Type) := {
  (** the system's function on [fd]: its result and [errno] *)
  bl_fun : Z -> M W (Z * Z);
  (** [addConditionTimer(ms, ...)], whose callback sets the flag to ETIMEDOUT and
      cancels the event of [fd], and the cancellation of that timer *)
  bl_addTimer : Z -> Z -> Event -> M W unit;
  bl_cancelTimer : M W unit;
  (** [addEvent(fd, event)], [delEvent(fd, event)] *)
  bl_addEvent : Z -> Event -> M W Z;
  bl_delEvent : Z -> Event -> M W unit;
  (** [YeildToHold()], and the flag when the fiber runs again *)
  bl_yield : M W Z }.

Section do_io.
Context {W : Type} `{Blocking W}.

(** [while(n == -1 && errno == EINTR) n = fun(...)] *)
Fixpoint retry (fuel : nat) (f : Z) (r : Z * Z) : M W (Z * Z) :=
  if (fst r =? -1) && (snd r =? EINTR) then
    match fuel with
    | O => undef no_fuel
    | S fuel => r <- bl_fun f ;; retry fuel f r
    end
  else ret r.

(** The loop of [do_io]; the errno of a failed [addEvent] is whatever it left, [err]. *)
Fixpoint do_io_loop (fuel : nat) (f : Z) (e : Event) (ms err : Z) : M W (Z * Z) :=
  match fuel with
  | O => undef no_fuel
  | S fuel' =>
      r <- bl_fun f ;;
      r <- retry fuel' f r ;;
      if (fst r =? -1) && (snd r =? EAGAIN) then
        (if negb (ms =? 0) then bl_addTimer ms f e else ret tt) ;;;
        rt <- bl_addEvent f e ;;
        if negb (rt =? 0) then ret (-1, err)
        else
          cancelled <- bl_yield ;;
          (if negb (ms =? 0) then bl_cancelTimer else ret tt) ;;;
          if negb (cancelled =? 0) then bl_delEvent f e ;;; ret (-1, cancelled)
          else do_io_loop fuel' f e ms err
      else ret r
  end.

(** [do_io(fd, fun, name, event, timeout_so, args...)]; [ctx] is the descriptor's context *)
Definition do_io (fuel : nat) (f : Z) (ctx : option FdCtx) (event : Event) (timeout_so : timeout_type) (err : Z) : M W (Z * Z) :=
  if negb t_hook_enable then bl_fun f
  else
    match ctx with
    | None => bl_fun f
    | Some c =>
        if m_isClosed c then ret (-1, EBADF)
        else if negb (m_isSocket c) || m_userNonblock c then bl_fun f
        else
          match getTimeout timeout_so c with
          | None => throw (assert_failed "getTimeout")
          | Some ms => do_io_loop fuel f event ms err
          end
    end.

(** [connect_with_tiemout]; [so_error] is what getsockopt gives for SO_ERROR, when it works *)
Definition connect_with_timeout (f : Z) (ctx : option FdCtx) (timeout_ms : Z) (so_error : option Z) (err : Z) : M W (Z * Z) :=
  if negb t_hook_enable then bl_fun f
  else
    match ctx with
    | None => ret (-1, EBADF)
    | Some c =>
        if m_isClosed c then ret (-1, EBADF)
        else if negb (m_isSocket c) || m_userNonblock c then bl_fun f
        else
          n <- bl_fun f ;;
          if fst n =? 0 then ret (0, snd n)
          else if negb (fst n =? -1) || negb (snd n =? EINPROGRESS) then ret n
          else
            let result := match so_error with
                          | None => (-1, err)
                          | Some e => if e =? 0 then (0, snd n) else (-1, e)
                          end in
            rt <- bl_addEvent f WRITE ;;
            if negb (rt =? 0) then ret result
            else
              (if negb (timeout_ms =? 2 ^ 64 - 1) then bl_addTimer timeout_ms f WRITE else ret tt) ;;;
              cancelled <- bl_yield ;;
              (if negb (timeout_ms =? 2 ^ 64 - 1) then bl_cancelTimer else ret tt) ;;;
              if negb (cancelled =? 0) then bl_delEvent f WRITE ;;; ret (-1, cancelled)
              else ret result
    end.

End do_io.

(** ** Waiting on an IOManager

    The part of [do_io] before the fiber holds, on the IOManager itself: the timer at address
    [a], with the flag [cond], and the event. *)
Definition park {W} `{Epoll W} (now a : Z) (cond cb : Z) (i : nat) (f : Z) (e : Event) (ms : Z) : M (W * IOManager) Z :=
  (if negb (ms =? 0) then
     r <- on_timers (addConditionTimer now a ms (Some cb) cond false) ;;
     if snd r : bool then tickle_io else ret tt
   else ret tt) ;;;
  addEvent i f e None.

(** [sleep(seconds)], [usleep(usec)] and [nanosleep], hooked: the timer they set, of a callback that schedules the
    calling fiber; [nanosleep] without the hook calls itself and is not modelled *)
Definition sleep_timer {W} (now a : Z) (cb : Z) (ms : Z) : M (W * IOManager) unit :=
  r <- on_timers (addTimer now a ms (Some (cb_fun cb)) false) ;;
  if snd r : bool then tickle_io else ret tt.
Definition sleep {W} (now a cb seconds : Z) : M (W * IOManager) unit :=
  sleep_timer now a cb (u32 (seconds * 1000)).
Definition usleep {W} (now a cb usec : Z) : M (W * IOManager) unit := sleep_timer now a cb (usec / 1000).
Definition nanosleep {W} (now a cb sec nsec : Z) : M (W * IOManager) unit :=
  sleep_timer now a cb (u64 (s32 (sec * 1000 + nsec / 1000 / 1000))).

End hooked.

(** ** The hooked functions

    What programs call: descriptors are made, used and closed through these.  The state is that of the
    descriptors next to a world [W], in which a blocked call waits and other fibers run.  [connect]
    without a name of its own takes its timeout from the variable tcp.connect.timeout.  The
    addresses that dlsym gives, [socket_f] and the like, are the kernel's calls. *)

(** The calls that [do_io] wraps, with their event and their timeout *)
Inductive io_call :=
  | io_accept | io_read | io_readv | io_recv | io_recvfrom | io_recvmsg
  | io_write | io_writev | io_send | io_sendto | io_sendmsg.
Definition io_event (c : io_call) : Event :=
  match c with
  | io_accept | io_read | io_readv | io_recv | io_recvfrom | io_recvmsg => READ
  | io_write | io_writev | io_send | io_sendto | io_sendmsg => WRITE
  end.
Definition io_timeout (c : io_call) : timeout_type :=
  match c with
  | io_accept | io_read | io_readv | io_recv | io_recvfrom | io_recvmsg => SO_RCVTIMEO
  | io_write | io_writev | io_send | io_sendto | io_sendmsg => SO_SNDTIMEO
  end.

(** The kernel's tables when a descriptor is made and when it is closed *)
Definition open_fd (f : Z) (is_socket : bool) (flags : Z) (k : Kernel_fds) : Kernel_fds :=
  mkFds (fun g => if g =? f then Some is_socket else kf_stat k g) (fun g => if g =? f then flags else kf_flags k g).
Definition close_fd (f : Z) (k : Kernel_fds) : Kernel_fds :=
  mkFds (fun g => if g =? f then None else kf_stat k g) (kf_flags k).

(** The commands of fcntl, by what the switch passes on *)
Definition F_GETFL : Z := 3.
Definition F_SETFL : Z := 4.
(** F_DUPFD, F_DUPFD_CLOEXEC, F_SETFD, F_SETOWN, F_SETSIG, F_SETLEASE, F_NOTIFY, F_SETPIPE_SZ *)
Definition int_commands : list Z := [0; 1030; 2; 8; 10; 1024; 1026; 1031].
(** F_GETFD, F_GETOWN, F_GETLEASE, F_GETPIPE_SZ *)
Definition bare_commands : list Z := [1; 9; 1025; 1032].
(** F_SETLK, F_SETLKW, F_GETLK, F_OFD_SETLK, F_OFD_SETLKW, F_OFD_GETLK, F_GETOWN_EX, F_SETOWN_EX *)
Definition pointer_commands : list Z := [6; 7; 5; 37; 38; 36; 16; 15].

Section hooked.
Context (t_hook_enable : bool).

(** [fcntl(fd, cmd, arg)]; [fcntl_f] is the kernel's for the commands that are only passed on *)
Definition fcntl (fcntl_f : Z -> Z -> option Z -> M Kernel_fds Z) (f cmd arg : Z) : M FdManager Z :=
  if cmd =? F_SETFL then fcntl_setfl t_hook_enable f arg ;;; ret 0
  else if cmd =? F_GETFL then fcntl_getfl t_hook_enable f
  else if bool_decide (cmd ∈ int_commands) || bool_decide (cmd ∈ pointer_commands) then on_kernel (fcntl_f f cmd (Some arg))
  else if bool_decide (cmd ∈ bare_commands) then on_kernel (fcntl_f f cmd None)
  else throw (assert_failed "cmd").

Context {W : Type}.
Definition on_fds {A} (m : M FdManager A) : M (W * FdManager) A := fun s =>
  match m (snd s) with
  | Ok a d => Ok a (fst s, d)
  | Throw e d => Throw e (fst s, d)
  | Undef u => Undef u
  end.
Definition on_world {A} (m : M W A) : M (W * FdManager) A := fun s =>
  match m (fst s) with
  | Ok a w => Ok a (w, snd s)
  | Throw e w => Throw e (w, snd s)
  | Undef u => Undef u
  end.

(** [socket(...)]; the kernel's answer is a new descriptor with its flags, or nothing *)
Definition socket_f (answer : option (Z * Z)) : M FdManager Z :=
  match answer with
  | Some (f, flags) => on_kernel (modify (open_fd f true flags)) ;;; ret f
  | None => ret (-1)
  end.
Definition socket (answer : option (Z * Z)) : M FdManager Z :=
  f <- socket_f answer ;;
  if negb t_hook_enable || (f =? -1) then ret f else fd_get f true ;;; ret f.

(** [close(fd)]; [canceAll] is that of the thread's IOManager, when it has one *)
Definition close (canceAll : option (Z -> M W unit)) (f : Z) : M (W * FdManager) unit :=
  (if t_hook_enable then
     ctx <- on_fds (fd_get f false) ;;
     match ctx with
     | Some _ => match canceAll with Some cancel => on_world (cancel f) | None => ret tt end ;;; on_fds (fd_del f)
     | None => ret tt
     end
   else ret tt) ;;;
  on_fds (on_kernel (modify (close_fd f))).

(** The calls that block: what [io_blocks] gives for one of them is the kernel's call, and waiting. *)
Context (io_blocks : io_call -> Blocking (W * FdManager)) (connect_blocks : Blocking (W * FdManager)).

Definition io (fuel : nat) (c : io_call) (f err : Z) : M (W * FdManager) (Z * Z) :=
  if t_hook_enable then
    ctx <- on_fds (fd_get f false) ;;
    do_io (H := io_blocks c) t_hook_enable fuel f ctx (io_event c) (io_timeout c) err
  else bl_fun (Blocking := io_blocks c) f.

(** What [accept] does with the descriptor it got, hooked or not *)
Definition accepted (f : Z) : M FdManager Z := if 0 <=? f then fd_get f true ;;; ret f else ret f.
Definition accept (fuel : nat) (f err : Z) : M (W * FdManager) (Z * Z) :=
  r <- io fuel io_accept f err ;;
  f' <- on_fds (accepted (s32 (fst r))) ;; ret (f', snd r).

(** [s_connect_timeout] is unsigned: a negative value of the variable is a very long time. *)
Definition s_connect_timeout (value : Z) : Z := u64 value.
Definition connect (value f : Z) (so_error : option Z) (err : Z) : M (W * FdManager) (Z * Z) :=
  if t_hook_enable then
    ctx <- on_fds (fd_get f false) ;;
    connect_with_timeout (H := connect_blocks) t_hook_enable f ctx (s_connect_timeout value) so_error err
  else bl_fun (Blocking := connect_blocks) f.
End hooked.

(** ** The callback of the timers of do_io and connect

    [cancelled] is the field of the TimerCond, when it still exists. *)
Definition timed_out {W} `{Epoll W} (f : Z) (e : Event) (cancelled : option Z) : M (W * IOManager) (option Z) :=
  match cancelled with
  | None => ret None
  | Some c => if negb (c =? 0) then ret (Some c) else canceEvent f e ;;; ret (Some ETIMEDOUT)
  end.
