(* ===== verification/HookSpec.v ===== *)
(** * Blocking calls on fibers: what the caller sees *)

From stdpp Require Import gmap.
From S2P Require Import Prelude Fiber Scheduler Timer TimerSpec IOManager IOManagerSpec Hook.

(** ** A system that answers from a script

    Everything that is not the library's own is answered from the script, failures included, and everything
    the library does is written down. *)

Inductive answer :=
  | said (n errno : Z)                      (* by the system's function *)
  | added (rt : Z)                          (* by addEvent *)
  | woken (cancelled : Z).                  (* the fiber runs again, and this is the flag *)
Inductive action :=
  | did_call (c : io_call) (f : Z)
  | did_arm (ms f : Z) (e : Event)          (* a timer of [ms] that cancels [e] of [f] *)
  | did_disarm
  | did_add (f : Z) (e : Event)
  | did_wait
  | did_delete (f : Z) (e : Event).
Record Script := mkScript { answers : list answer; actions : list action }.

(** It runs next to other state, which it leaves alone. *)
Definition act {D} (a : action) : M (Script * D) unit := modify (fun s => (mkScript (answers (fst s)) (actions (fst s) ++ [a]), snd s)).
Definition next {D} : M (Script * D) answer := fun s =>
  match answers (fst s) with a :: rest => Ok a (mkScript rest (actions (fst s)), snd s) | [] => Undef no_fuel end.
Definition scripted {D} (c : io_call) : Blocking (Script * D) := {|
  bl_fun f := act (did_call c f) ;;; a <- next ;; match a with said n errno => ret (n, errno) | _ => undef no_fuel end;
  bl_addTimer ms f e := act (did_arm ms f e);
  bl_cancelTimer := act did_disarm;
  bl_addEvent f e := act (did_add f e) ;;; a <- next ;; match a with added rt => ret rt | _ => undef no_fuel end;
  bl_delEvent f e := act (did_delete f e);
  bl_yield := act did_wait ;;; a <- next ;; match a with woken k => ret k | _ => undef no_fuel end |}.

(** ** Waiting *)

(** The sending calls and the others *)
#[export] Instance io_call_eq : EqDecision io_call.
Proof. solve_decision. Defined.
Definition sends (c : io_call) : bool := bool_decide (c ∈ [io_write; io_writev; io_send; io_sendto; io_sendmsg]).
Definition waits_for (c : io_call) : Event := if sends c then WRITE else READ.
Definition waits_at_most (c : io_call) (ctx : option FdCtx) : Z :=
  match ctx with Some x => if sends c then m_sendTimeout x else m_recvTimeout x | None => 0 end.

Definition definite (n errno : Z) : Prop := n <> -1 \/ errno <> EINTR /\ errno <> EAGAIN.

(** [blocks c f e ms err as ds r]: on the answers [as], a call that waits for [e] for [ms] milliseconds
    (0: for ever) does [ds] and gives [r]. *)
Inductive blocks (c : io_call) (f : Z) (e : Event) (ms err : Z) : list answer -> list action -> Z * Z -> Prop :=
  | w_done n errno : definite n errno -> blocks c f e ms err [said n errno] [did_call c f] (n, errno)
  | w_interrupted rest ds r : blocks c f e ms err rest ds r ->
      blocks c f e ms err (said (-1) EINTR :: rest) (did_call c f :: ds) r
  | w_ready rest ds r : blocks c f e ms err rest ds r ->
      blocks c f e ms err (said (-1) EAGAIN :: added 0 :: woken 0 :: rest)
        ([did_call c f] ++ (if ms =? 0 then [] else [did_arm ms f e]) ++ [did_add f e; did_wait] ++
         (if ms =? 0 then [] else [did_disarm]) ++ ds) r
  | w_timeout k : k <> 0 ->
      blocks c f e ms err [said (-1) EAGAIN; added 0; woken k]
        ([did_call c f] ++ (if ms =? 0 then [] else [did_arm ms f e]) ++ [did_add f e; did_wait] ++
         (if ms =? 0 then [] else [did_disarm]) ++ [did_delete f e]) (-1, k)
  | w_refused rt : rt <> 0 ->
      blocks c f e ms err [said (-1) EAGAIN; added rt]
        ([did_call c f] ++ (if ms =? 0 then [] else [did_arm ms f e]) ++ [did_add f e]) (-1, err).

(** The timers that are still set *)
Fixpoint left_armed (ds : list action) : Z :=
  match ds with
  | [] => 0
  | did_arm _ _ _ :: ds => 1 + left_armed ds
  | did_disarm :: ds => left_armed ds - 1
  | _ :: ds => left_armed ds
  end.
Definition refused (a : answer) : bool := match a with added rt => negb (rt =? 0) | _ => false end.

Lemma left_armed_app ds ds' : left_armed (ds ++ ds') = left_armed ds + left_armed ds'.
Proof. induction ds as [|[] ds IH]; cbn [app left_armed]; lia. Qed.
Lemma blocks_armed c f e ms err rest ds r : blocks c f e ms err rest ds r ->
  left_armed ds = if existsb refused rest && negb (ms =? 0) then 1 else 0.
Proof.
  induction 1 as [n errno _|rest ds r _ IH|rest ds r _ IH|k _|rt Hrt]; [done|exact IH|..]; cbn [existsb refused orb];
    rewrite ?left_armed_app, ?IH, ?(proj2 (Z.eqb_neq _ 0) Hrt); destruct (ms =? 0); first [by destruct (existsb refused _)|done].
Qed.

(** What [do_io_loop] does with an answer. *)
Section loop.
Context {D : Type} (c : io_call) (f : Z) (e : Event) (ms err : Z).

Definition handled (f1 f2 : nat) (r : Z * Z) : M (Script * D) (Z * Z) :=
  r <- retry (H := scripted c) f1 f r ;;
  if (fst r =? -1) && (snd r =? EAGAIN) then
    (if negb (ms =? 0) then bl_addTimer (Blocking := scripted c) ms f e else ret tt) ;;;
    rt <- bl_addEvent (Blocking := scripted c) f e ;;
    if negb (rt =? 0) then ret (-1, err)
    else
      cancelled <- bl_yield (Blocking := scripted c) ;;
      (if negb (ms =? 0) then bl_cancelTimer (Blocking := scripted c) else ret tt) ;;;
      if negb (cancelled =? 0) then bl_delEvent (Blocking := scripted c) f e ;;; ret (-1, cancelled)
      else do_io_loop (H := scripted c) f2 f e ms err
  else ret r.

(** After EAGAIN: the event is refused, or the fiber waits. *)
Lemma handled_again (d : D) f1 f2 rest ds rt :
  handled f1 f2 (-1, EAGAIN) (mkScript (added rt :: rest) ds, d) =
    let ds1 := (ds ++ if ms =? 0 then [] else [did_arm ms f e]) ++ [did_add f e] in
    if rt =? 0 then
      (cancelled <- bl_yield (Blocking := scripted c) ;;
       (if negb (ms =? 0) then bl_cancelTimer (Blocking := scripted c) else ret tt) ;;;
       if negb (cancelled =? 0) then bl_delEvent (Blocking := scripted c) f e ;;; ret (-1, cancelled)
       else do_io_loop (H := scripted c) f2 f e ms err) (mkScript rest ds1, d)
    else Ok (-1, err) (mkScript rest ds1, d).
Proof. unfold handled. destruct f1; cbn [retry fst snd]; destruct (ms =? 0); unfold bind; cbn; rewrite ?app_nil_r; by destruct (rt =? 0). Qed.
Lemma handled_wait (d : D) f1 f2 rest ds k :
  handled f1 f2 (-1, EAGAIN) (mkScript (added 0 :: woken k :: rest) ds, d) =
    let ds1 := ds ++ (if ms =? 0 then [] else [did_arm ms f e]) ++ [did_add f e; did_wait] ++ (if ms =? 0 then [] else [did_disarm]) in
    if k =? 0 then do_io_loop (H := scripted c) f2 f e ms err (mkScript rest ds1, d)
    else Ok (-1, k) (mkScript rest (ds1 ++ [did_delete f e]), d).
Proof.
  rewrite handled_again. destruct (ms =? 0); unfold bind; cbn; destruct (k =? 0); cbn; rewrite <- ?app_assoc; done.
Qed.

Lemma handled_ok (d : D) as0 ds r : blocks c f e ms err as0 ds r -> forall n errno rest f1 f2 ds0,
  as0 = said n errno :: rest -> (length rest <= f1)%nat -> (length rest <= f2)%nat ->
  handled f1 f2 (n, errno) (mkScript rest (ds0 ++ [did_call c f]), d) = Ok r (mkScript [] (ds0 ++ ds), d).
Proof.
  induction 1 as [n0 e0 Hd|as0 ds r Hs IH|as0 ds r Hs IH|k Hk|rt Hrt]; intros n errno rest f1 f2 ds0 [= <- <- <-] H1 H2.
  - unfold handled. assert ((n0 =? -1) && (e0 =? EINTR) = false /\ (n0 =? -1) && (e0 =? EAGAIN) = false) as [E1 E2]
      by (destruct Hd as [|[]]; split; apply andb_false_iff; rewrite !Z.eqb_neq; auto).
    destruct f1; cbn [retry fst snd]; by rewrite E1, bind_ret; cbn [fst snd]; rewrite E2.
  - destruct as0 as [|a rest]; [inversion Hs|]. assert (exists n errno, a = said n errno) as (n & errno & ->) by (inversion Hs; eauto).
    destruct f1 as [|f1]; [cbn in H1; lia|]. cbn [length] in *. change (did_call c f :: ds) with ([did_call c f] ++ ds). rewrite app_assoc.
    rewrite <- (IH n errno rest f1 f2 (ds0 ++ [did_call c f]) eq_refl) by lia. unfold handled at 1. cbn [retry fst snd].
    change ((-1 =? -1) && (EINTR =? EINTR)) with true. cbv iota. by rewrite bind_assoc.
  - destruct as0 as [|a rest]; [inversion Hs|]. assert (exists n errno, a = said n errno) as (n & errno & ->) by (inversion Hs; eauto).
    rewrite handled_wait. change (0 =? 0) with true. cbv zeta iota. destruct f2 as [|f2]; [cbn in H2; lia|]. cbn [length] in *.
    assert (forall l, do_io_loop (H := scripted c) (S f2) f e ms err (mkScript (said n errno :: rest) l, d) =
      handled f2 f2 (n, errno) (mkScript rest (l ++ [did_call c f]), d)) as -> by done.
    rewrite (IH n errno rest f2 f2 _ eq_refl) by lia. by rewrite <- !app_assoc.
  - rewrite handled_wait, (proj2 (Z.eqb_neq k 0)) by done. cbv zeta. by rewrite <- !app_assoc.
  - rewrite handled_again, (proj2 (Z.eqb_neq rt 0)) by done. cbv zeta. by rewrite <- !app_assoc.
Qed.
End loop.

(** [do_io] on a context that is known *)
Lemma do_io_ok {D} (d : D) fuel hook f ctx c t err as0 ds r :
  t <> other_option -> (match ctx with Some x => m_isClosed x = false /\ getTimeout t x = Some (waits_at_most c ctx) | None => True end) ->
  blocks c f (waits_for c) (waits_at_most c ctx) err as0 ds r -> (length as0 <= fuel)%nat ->
  do_io (H := scripted c) hook fuel f ctx (waits_for c) t err (mkScript as0 [], d) =
    match hooked_socket ctx with
    | Some x => if hook && negb (m_userNonblock x) then Ok r (mkScript [] ds, d) else bl_fun (Blocking := scripted c) f (mkScript as0 [], d)
    | None => bl_fun (Blocking := scripted c) f (mkScript as0 [], d)
    end.
Proof.
  intros Ht Hc Hs Hf. unfold do_io, hooked_socket. destruct ctx as [x|]; [|by destruct hook]. destruct Hc as [-> Et].
  destruct hook, (m_isSocket x); cbn [negb orb andb]; try done; [|by destruct (m_userNonblock x)..].
  destruct (m_userNonblock x); [done|]. cbn [negb]. rewrite Et.
  destruct as0 as [|a rest]; [inversion Hs|]. assert (exists n errno, a = said n errno) as (n & errno & ->) by (inversion Hs; eauto).
  destruct fuel as [|fuel]; [cbn in Hf; lia|]. cbn [length] in Hf.
  exact (handled_ok c f _ _ err d _ _ _ Hs n errno rest fuel fuel [] eq_refl ltac:(lia) ltac:(lia)).
Qed.

(** ** The flags a program sees *)

Lemma nonblock_bits arg n : 0 <= n -> Z.testbit (Z.lor arg O_NONBLOCK) n = Z.testbit arg n || (n =? 11).
Proof. intros Hn. rewrite Z.lor_spec. change O_NONBLOCK with (2 ^ 11). by rewrite Z.pow2_bits_eqb, Z.eqb_sym. Qed.

Lemma land_nonblock arg : negb (Z.land arg O_NONBLOCK =? 0) = Z.testbit arg 11.
Proof.
  destruct (Z.testbit arg 11) eqn:E.
  - apply negb_true_iff, Z.eqb_neq. intros H. apply (f_equal (fun z => Z.testbit z 11)) in H.
    rewrite Z.land_spec, E, Z.bits_0 in H. done.
  - apply negb_false_iff, Z.eqb_eq, Z.bits_inj'. intros n Hn. rewrite Z.land_spec, Z.bits_0.
    change O_NONBLOCK with (2 ^ 11). rewrite Z.pow2_bits_eqb by done. destruct (Z.eqb_spec 11 n) as [<-|]; [by rewrite E|apply andb_false_r].
Qed.

Lemma user_flags arg :
  (if Z.testbit arg 11 then Z.lor (Z.lor arg O_NONBLOCK) O_NONBLOCK
   else Z.land (Z.lor arg O_NONBLOCK) (Z.lnot O_NONBLOCK)) = arg.
Proof.
  apply Z.bits_inj'. intros n Hn. assert (Z.testbit O_NONBLOCK n = (n =? 11)) as En
    by (change O_NONBLOCK with (2 ^ 11); by rewrite Z.pow2_bits_eqb, Z.eqb_sym).
  destruct (Z.testbit arg 11) eqn:E.
  - rewrite !Z.lor_spec, En. destruct (Z.eqb_spec n 11) as [->|]; [by rewrite E|by rewrite !orb_false_r].
  - rewrite Z.land_spec, Z.lor_spec, Z.lnot_spec, En by done.
    destruct (Z.eqb_spec n 11) as [->|]; [by rewrite E|by rewrite orb_false_r, andb_true_r].
Qed.

(** The context of a socket in the table. *)
Definition socket_at (s : FdManager) (f : Z) (c : FdCtx) : Prop :=
  0 <= f /\ m_datas s !! Z.to_nat f = Some (Some c) /\ Z.of_nat (length (m_datas s)) < 2 ^ 31 /\
  m_isSocket c = true /\ m_isClosed c = false /\ m_sysNonblock c = true.

Lemma fd_get_at s f c : socket_at s f c -> fd_get f false s = Ok (Some c) s /\ hooked_socket (Some c) = Some c.
Proof.
  intros (Hf & Hd & Hl & Hs & Hc & _). pose proof (lookup_lt_Some _ _ _ Hd). split.
  - unfold fd_get. unfold s32. rewrite swrap_id by fits.
    rewrite (proj2 (Z.eqb_neq f (-1))), (proj2 (Z.leb_gt _ f)) by lia. unfold data_at.
    rewrite (proj2 (Z.ltb_ge f 0)) by lia. by rewrite Hd.
  - unfold hooked_socket. by rewrite Hc, Hs.
Qed.
Lemma set_data_at s f c x : socket_at s f c ->
  set_data f x s = Ok tt (mkFdManager (<[Z.to_nat f := x]> (m_datas s)) (kernel s)).
Proof.
  intros (Hf & Hd & _). pose proof (lookup_lt_Some _ _ _ Hd). unfold set_data.
  by rewrite (proj2 (Z.ltb_ge f 0)), (proj2 (Z.leb_gt _ f)) by lia.
Qed.

(** A program that sets the flags of a hooked socket reads back exactly the flags it set,
    while the kernel's descriptor stays non-blocking, and from then on hooked calls wait on
    behalf of the program exactly when it has not asked for O_NONBLOCK. *)
Theorem fcntl_transparent s f c arg : socket_at s f c -> exists s' c',
  fcntl_setfl true f arg s = Ok tt s' /\ fcntl_getfl true f s' = Ok arg s' /\
  Z.testbit (kf_flags (kernel s') f) 11 = true /\ socket_at s' f c' /\ m_userNonblock c' = Z.testbit arg 11.
Proof.
  intros Hc. destruct (fd_get_at s f c Hc) as [Eg Eh]. pose proof Hc as (Hf & Hd & Hl & Hs & Hcl & Hn).
  set (c' := setUserNonblock (Z.testbit arg 11) c).
  set (s' := mkFdManager (<[Z.to_nat f := Some c']> (m_datas s)) (set_flags f (Z.lor arg O_NONBLOCK) (kernel s))).
  assert (socket_at s' f c') as Hc'.
  { split_and!; try done; cbn; [|by rewrite length_insert]. by apply list_lookup_insert_eq, (lookup_lt_Some _ _ _ Hd). }
  destruct (fd_get_at s' f c' Hc') as [Eg' Eh'].
  exists s', c'. split_and!; try done.
  - unfold fcntl_setfl. rewrite (bind_ok _ _ _ _ _ Eg), Eh, land_nonblock.
    rewrite (bind_ok _ _ _ _ _ (set_data_at s f c _ Hc)), Hn. done.
  - unfold fcntl_getfl, bind at 1, get. cbv zeta. rewrite (bind_ok _ _ _ _ _ Eg'), Eh'. unfold ret. f_equal.
    unfold s', set_flags. cbn [kernel kf_flags]. rewrite Z.eqb_refl. rewrite <- (user_flags arg) at 3.
    unfold c', setUserNonblock. cbn [m_userNonblock]. by destruct (Z.testbit arg 11).
  - unfold s', set_flags. cbn [kernel kf_flags]. rewrite Z.eqb_refl, nonblock_bits by done. apply orb_true_r.
Qed.

(** ** A socket without a timeout *)

(** Operations of the IOManager that leave the timers alone. *)
Create HintDb timers_kept.
Section keeps.
Context {W : Type} `{Epoll W}.
Definition keeps_timers {A} (m : M (W * IOManager) A) : Prop :=
  forall s a s', m s = Ok a s' -> timers (snd s') = timers (snd s).

Lemma kt_ret {A} (a : A) : keeps_timers (ret a).
Proof. by intros s x s' [= _ <-]. Qed.
Lemma kt_throw {A} e : keeps_timers (A := A) (throw e).
Proof. by intros s x s'. Qed.
Lemma kt_bind {A B} (m : M (W * IOManager) A) (k : A -> M (W * IOManager) B) :
  keeps_timers m -> (forall a, keeps_timers (k a)) -> keeps_timers (bind m k).
Proof. intros Hm Hk s b s' (a & s1 & E1 & E2)%bind_returns. by rewrite (Hk a _ _ _ E2), (Hm _ _ _ E1). Qed.
Lemma kt_assert b w : keeps_timers (wyze_assert b w).
Proof. intros s a s'. by destruct b; intros [= _ <-]. Qed.
Lemma kt_fd_at f : keeps_timers (fd_at f).
Proof.
  intros s a s'. unfold fd_at. destruct (f <? 0); [done|]. by destruct (_ !! _); intros [= _ <-].
Qed.
Lemma kt_update g : (forall m, timers (g m) = timers m) -> keeps_timers (update_io g).
Proof. intros Hg s a s' [= _ <-]. apply Hg. Qed.
Lemma kt_sched {A} (m : SM A) : keeps_timers (on_sched m).
Proof. intros s a s'. unfold on_sched. by destruct (m _); intros [= _ <-]. Qed.
Lemma kt_epoll {A} (m : M W A) : keeps_timers (on_epoll m).
Proof. intros s a s'. unfold on_epoll. by destruct (m _); intros [= _ <-]. Qed.
Lemma kt_context x e : keeps_timers (getContext x e).
Proof. destruct e; [apply kt_throw|apply kt_ret|apply kt_ret]. Qed.
Lemma kt_if {A} (b : bool) (m n : M (W * IOManager) A) : keeps_timers m -> keeps_timers n -> keeps_timers (if b then m else n).
Proof. by destruct b. Qed.
#[local] Hint Resolve kt_ret kt_throw kt_bind kt_assert kt_fd_at kt_update kt_sched kt_epoll kt_context kt_if : timers_kept.

Lemma kt_addEvent i f e cb : keeps_timers (addEvent i f e cb).
Proof.
  intros s a s' Hs. unfold addEvent in Hs. revert Hs. apply kt_bind; [|intros x].
  - apply kt_if; [auto with timers_kept|]. apply kt_bind; [by apply kt_update|auto with timers_kept].
  - apply kt_bind; [auto with timers_kept|intros _]. apply kt_bind; [auto with timers_kept|intros rt].
    apply kt_if; [auto with timers_kept|]. apply kt_bind; [by apply kt_update|intros _].
    apply kt_bind; [auto with timers_kept|intros ctx]. apply kt_bind; [auto with timers_kept|intros _].
    destruct cb as [c|].
    + apply kt_bind; [by apply kt_update|auto with timers_kept].
    + apply kt_bind; [auto with timers_kept|intros g]. apply kt_bind; [by apply kt_update|intros _].
      repeat (apply kt_bind; [auto with timers_kept|intros ?]). auto with timers_kept.
Qed.
End keeps.

(** A socket for which no timeout was set has the timeout [~0ull], which is not 0, so a call
    that has to wait sets a timer for it, and that timer is due at once: whenever the timers
    are looked at afterwards, its callback is among the expired ones. *)
Theorem unset_timeout_expires {W} `{Epoll W} k f c k' t now now' a cond cb i e (s : W * IOManager) rt s' tmp :
  new_FdCtx f k = Ok c k' -> t <> other_option -> 0 < now < 2 ^ 64 -> now <= now' ->
  ok (timers (snd s)) -> a <> 0 -> heap (timers (snd s)) !! a = None ->
  tmp <> 0 -> tmp <> a -> heap (timers (snd s)) !! tmp = None ->
  match getTimeout t c with
  | Some ms => park now a cond cb i f e ms s = Ok rt s' ->
      exists cbs x, listExpiredCb now' tmp (timers (snd s')) = Ok cbs x /\ Some (cb_OnTimer cond (Some cb)) ∈ cbs
  | None => False
  end.
Proof.
  intros Hnew Ht Hn Hn' O Ha Ea Htmp Hta Et.
  assert (getTimeout t c = Some (2 ^ 64 - 1)) as ->.
  { unfold new_FdCtx in Hnew. destruct (kf_stat k f) as [[]|]; injection Hnew as <- _; by destruct t. }
  unfold park. change (negb (2 ^ 64 - 1 =? 0)) with true. cbv iota. intros Hp.
  set (cb0 := Some (cb_OnTimer cond (Some cb))).
  destruct (longest_period_due (timers (snd s)) now now' a cb0 false tmp O Hn Hn' Ha Ea Htmp Hta Et)
    as (n & t1 & cbs & x2 & E1 & _ & E4 & Hin).
  assert (on_timers (addConditionTimer now a (2 ^ 64 - 1) (Some cb) cond false) s =
    Ok (a, n) (fst s, set_timers t1 (snd s))) as Eadd.
  { unfold on_timers, addConditionTimer. fold cb0. by rewrite E1. }
  run Eadd in Hp. cbn [snd] in Hp.
  apply bind_returns in Hp as (x & s1 & E2 & E3).
  assert (timers (snd s1) = t1) as Et1.
  { destruct n; [|by injection E2 as _ <-]. injection E2 as _ <-. cbn. by destruct (0 <? _). }
  rewrite (kt_addEvent _ _ _ _ _ _ _ E3), Et1. by exists cbs, x2.
Qed.

(** *** Witnesses *)

Definition a_socket : FdCtx := mkFdCtx false true true false false 5 (2 ^ 64 - 1) (2 ^ 64 - 1).
Definition some_fds : Kernel_fds := mkFds (fun f => if f =? 5 then Some true else None) (fun _ => 2).

Lemma fcntl_transparent_witness :
  let s := mkFdManager [None; None; None; None; None; Some a_socket] some_fds in exists s' c',
  fcntl_setfl true 5 4 s = Ok tt s' /\ fcntl_getfl true 5 s' = Ok 4 s' /\
  Z.testbit (kf_flags (kernel s') 5) 11 = true /\ socket_at s' 5 c' /\ m_userNonblock c' = Z.testbit 4 11.
Proof. intros s. refine (fcntl_transparent s 5 a_socket 4 _). split_and!; done. Defined.

Lemma unset_timeout_expires_witness :
  let s := (w0 (new_FdContext 7), io0 (new_FdContext 7)) in
  exists rt s', park 100 8 1 2 0 5 READ (2 ^ 64 - 1) s = Ok rt s' /\
    exists cbs x, listExpiredCb 100 4 (timers (snd s')) = Ok cbs x /\ Some (cb_OnTimer 1 (Some 2)) ∈ cbs.
Proof.
  intros s. eexists _, _. split; [vm_compute; reflexivity|].
  refine (unset_timeout_expires some_fds 5 a_socket _ SO_RCVTIMEO 100 100 8 1 2 0 READ s _ _ 4
    eq_refl _ _ _ (ok_new 0) _ _ _ _ _ _); first [discriminate|reflexivity|lia|idtac].
  vm_compute. reflexivity.
Defined.

(** ** What programs and the kernel do to descriptors *)

Inductive fd_call :=
  | call_socket (f flags : Z)               (* socket, for which the kernel makes [f] *)
  | call_accept (f flags : Z)               (* accept, the same *)
  | call_open (f flags : Z)                 (* a file; not hooked *)
  | call_close (f : Z)
  | call_fcntl (f cmd arg : Z)
  | call_ioctl (f v : Z)                    (* ioctl(f, FIONBIO, &v) *)
  | call_setsockopt (f : Z) (t : timeout_type) (sec usec : Z).

(** The commands of fcntl that make another descriptor of the same socket: F_DUPFD and F_DUPFD_CLOEXEC.
    Like dup and dup2, they are not followed by the library. *)
Definition duplicates : list Z := [0; 1030].

(** A new descriptor is one that is not in use, and fcntl is not asked to duplicate one. *)
Definition may (c : fd_call) (s : FdManager) : Prop :=
  match c with
  | call_socket f _ | call_accept f _ | call_open f _ => 0 <= f < 2 ^ 31 /\ kf_stat (kernel s) f = None
  | call_fcntl f cmd _ => -1 <= f /\ cmd ∉ duplicates
  | call_close f | call_ioctl f _ | call_setsockopt f _ _ _ => -1 <= f
  end.
(** The table of contexts has 1024 places. *)
Definition fits_table (c : fd_call) : Prop :=
  match c with call_socket f _ | call_accept f _ => f < 1024 | _ => True end.
(** The commands that the switch of fcntl has: F_DUPFD, F_GETFD, F_SETFD, F_GETFL, F_SETFL, the locks, the
    owners, F_SETSIG, the leases, F_NOTIFY and the pipe sizes, but not F_GETSIG (11) *)
Definition in_switch (c : fd_call) : Prop :=
  match c with
  | call_fcntl _ cmd _ => 0 <= cmd <= 10 \/ cmd ∈ [15; 16; 36; 37; 38; 1024; 1025; 1026; 1030; 1031; 1032]
  | _ => True
  end.

#[export] Instance fits_table_dec c : Decision (fits_table c).
Proof. destruct c; apply _. Defined.
#[export] Instance in_switch_dec c : Decision (in_switch c).
Proof. destruct c; apply _. Defined.

Section steps.
Context {W : Type} (fcntl_f : Z -> Z -> option Z -> M Kernel_fds Z) (cancel : Z -> M W unit).

Definition fd_step (c : fd_call) : M (W * FdManager) unit :=
  match c with
  | call_socket f flags => on_fds (socket true (Some (f, flags)) ;;; ret tt)
  | call_accept f flags => on_fds (f <- socket_f (Some (f, flags)) ;; accepted f ;;; ret tt)
  | call_open f flags => on_fds (on_kernel (modify (open_fd f false flags)))
  | call_close f => close true (Some cancel) f
  | call_fcntl f cmd arg => on_fds (fcntl true fcntl_f f cmd arg ;;; ret tt)
  | call_ioctl f v => on_fds (ioctl_fionbio true f v)
  | call_setsockopt f t sec usec => on_fds (setsockopt true f t sec usec ;;; ret tt)
  end.

(** The states that a program comes to which makes every descriptor through the hooked functions. *)
Inductive reaches : W * FdManager -> Prop :=
  | r_start w k : (forall f, kf_stat k f <> Some true) -> reaches (w, new_FdManager k)
  | r_step c s s' : reaches s -> may c (snd s) -> fd_step c s = Ok tt s' -> reaches s'.
End steps.

(** ** The invariant *)

Record managed (s : FdManager) : Prop := {
  mg_size : length (m_datas s) = 1024%nat;
  mg_context f c : m_datas s !! f = Some (Some c) ->
    kf_stat (kernel s) (Z.of_nat f) = Some true /\ Z.testbit (kf_flags (kernel s) (Z.of_nat f)) 11 = true /\
    m_isSocket c = true /\ m_isClosed c = false /\ m_sysNonblock c = true;
  mg_socket f : kf_stat (kernel s) f = Some true -> 0 <= f /\ exists c, m_datas s !! Z.to_nat f = Some (Some c) }.

Lemma managed_new k : (forall f, kf_stat k f <> Some true) -> managed (new_FdManager k).
Proof.
  intros Hk. split; [done| |].
  - intros f c Hf. apply list_elem_of_lookup_2 in Hf. by apply list_elem_of_In, repeat_spec in Hf.
  - intros f Hf. by destruct (Hk f).
Qed.

(** What is known of a descriptor, and that [get] finds it *)
Definition known (s : FdManager) (f : Z) : option FdCtx := if f <? 0 then None else mjoin (m_datas s !! Z.to_nat f).

Lemma known_at s f c : managed s -> known s f = Some c <-> 0 <= f /\ m_datas s !! Z.to_nat f = Some (Some c).
Proof.
  intros Hm. unfold known. destruct (Z.ltb_spec f 0); [split; [done|intros [? _]; lia]|].
  destruct (m_datas s !! Z.to_nat f) as [[x|]|]; cbn; (split; [intros [=]|intros [_ [=]]]); by subst.
Qed.
Lemma known_none s f : managed s -> known s f = None -> kf_stat (kernel s) f <> Some true.
Proof. intros Hm Hn [Hf [c Hc]]%(mg_socket _ Hm). by rewrite (proj2 (known_at s f c Hm)) in Hn. Qed.
Lemma known_socket s f c : managed s -> known s f = Some c -> socket_at s f c /\ kf_stat (kernel s) f = Some true /\ Z.testbit (kf_flags (kernel s) f) 11 = true.
Proof.
  intros Hm [Hf Hc]%(known_at s f c Hm). destruct (mg_context _ Hm _ _ Hc) as (H1 & H2 & H3 & H4 & H5). rewrite Z2Nat.id in H1, H2 by done.
  pose proof (mg_size _ Hm). split; [|done]. split_and!; first [done|lia].
Qed.

Lemma size_32 s : managed s -> s32 (Z.of_nat (length (m_datas s))) = 1024.
Proof. intros Hm. by rewrite (mg_size _ Hm). Qed.
Lemma fd_get_sized s f : length (m_datas s) = 1024%nat -> -1 <= f -> fd_get f false s = Ok (known s f) s.
Proof.
  intros Hl Hf. unfold fd_get. rewrite Hl. change (s32 (Z.of_nat 1024)) with 1024. unfold known. destruct (Z.eqb_spec f (-1)) as [->|]; [done|].
  rewrite (proj2 (Z.ltb_ge f 0)) by lia. destruct (Z.leb_spec 1024 f).
  - by rewrite lookup_ge_None_2 by (rewrite Hl; lia).
  - unfold data_at. rewrite (proj2 (Z.ltb_ge f 0)) by lia. destruct (lookup_lt_is_Some_2 (m_datas s) (Z.to_nat f)) as [x E]; [rewrite Hl; lia|].
    by rewrite E.
Qed.
Lemma fd_get_known s f : managed s -> -1 <= f -> fd_get f false s = Ok (known s f) s.
Proof. intros Hm. apply fd_get_sized, Hm. Qed.

(** [k'] is [k] but at [f]. *)
Definition same_but (f : Z) (k k' : Kernel_fds) : Prop :=
  forall g, g <> f -> kf_stat k' g = kf_stat k g /\ kf_flags k' g = kf_flags k g.

Lemma managed_insert s f x k : managed s -> 0 <= f < 1024 -> same_but f (kernel s) k ->
  match x with
  | Some c => kf_stat k f = Some true /\ Z.testbit (kf_flags k f) 11 = true /\ m_isSocket c = true /\ m_isClosed c = false /\ m_sysNonblock c = true
  | None => kf_stat k f <> Some true
  end -> managed (mkFdManager (<[Z.to_nat f := x]> (m_datas s)) k).
Proof.
  intros Hm Hf Hk Hx. pose proof (mg_size _ Hm) as Hl. split; cbn [m_datas kernel].
  - by rewrite length_insert.
  - intros g c Hg. destruct (decide (g = Z.to_nat f)) as [->|Hne].
    + rewrite list_lookup_insert_eq in Hg by lia. injection Hg as ->. by rewrite Z2Nat.id by lia.
    + rewrite list_lookup_insert_ne in Hg by done. destruct (Hk (Z.of_nat g)) as [-> ->]; [lia|]. by apply (mg_context _ Hm).
  - intros g Hg. destruct (decide (g = f)) as [->|Hne].
    + split; [lia|]. rewrite list_lookup_insert_eq by lia. destruct x as [c|]; [by exists c|done].
    + destruct (Hk g Hne) as [Es _]. rewrite Es in Hg. destruct (mg_socket _ Hm g Hg) as [Hg0 Hc]. split; [done|].
      by rewrite list_lookup_insert_ne by lia.
Qed.
Lemma managed_kernel s f k : managed s -> known s f = None -> same_but f (kernel s) k -> kf_stat k f <> Some true ->
  managed (mkFdManager (m_datas s) k).
Proof.
  intros Hm Hn Hk Hx. split; cbn [m_datas kernel]; [apply Hm| |].
  - intros g c Hg. assert (Z.of_nat g <> f) as Hne.
    { intros <-. by rewrite (proj2 (known_at s _ c Hm)) in Hn by (rewrite Nat2Z.id; split; [lia|done]). }
    destruct (Hk _ Hne) as [-> ->]. by apply (mg_context _ Hm).
  - intros g Hg. destruct (decide (g = f)) as [->|Hne]; [done|]. destruct (Hk g Hne) as [Es _]. rewrite Es in Hg. by apply (mg_socket _ Hm).
Qed.

Lemma same_flags f v k : same_but f k (set_flags f v k).
Proof. intros g Hg. cbn. by rewrite (proj2 (Z.eqb_neq g f)). Qed.
Lemma same_open f b v k : same_but f k (open_fd f b v k).
Proof. intros g Hg. cbn. by rewrite (proj2 (Z.eqb_neq g f)). Qed.
Lemma same_close f k : same_but f k (close_fd f k).
Proof. intros g Hg. cbn. by rewrite (proj2 (Z.eqb_neq g f)). Qed.
#[local] Hint Resolve same_flags same_open same_close : core.

(** ** The calls keep it *)

(** A new socket gets a context; beyond the table, [get] writes outside it. *)
Lemma socket_register_ok s f flags : managed s -> 0 <= f < 2 ^ 31 -> kf_stat (kernel s) f = None ->
  let s1 := mkFdManager (m_datas s) (open_fd f true flags (kernel s)) in
  if f <? 1024 then exists c s', fd_get f true s1 = Ok (Some c) s' /\ managed s' else fd_get f true s1 = Undef out_of_bounds.
Proof.
  intros Hm Hf Hn s1. unfold fd_get. cbn [s1 m_datas]. rewrite size_32 by done. rewrite (proj2 (Z.eqb_neq f (-1))) by lia.
  set (k := open_fd f true flags (kernel s)). assert (kf_stat k f = Some true /\ kf_flags k f = flags) as [Es Ef] by (cbn; by rewrite Z.eqb_refl).
  pose (c := mkFdCtx false true true false false f (2 ^ 64 - 1) (2 ^ 64 - 1)).
  pose (k' := if Z.land flags O_NONBLOCK =? 0 then set_flags f (Z.lor flags O_NONBLOCK) k else k).
  assert (on_kernel (new_FdCtx f) s1 = Ok c (mkFdManager (m_datas s) k')) as Ec.
  { unfold on_kernel, new_FdCtx. cbn [s1 kernel m_datas]. fold k. rewrite Es, Ef. subst k'. by destruct (_ =? 0). }
  destruct (Z.ltb_spec f 1024) as [Hlt|Hge].
  - rewrite (proj2 (Z.leb_gt 1024 f)) by done. destruct (known s f) as [x|] eqn:Ek; [by destruct (known_socket _ _ _ Hm Ek) as (_ & ? & _); congruence|].
    assert (data_at f s1 = Ok None s1) as Ed.
    { unfold data_at. rewrite (proj2 (Z.ltb_ge f 0)) by lia. unfold known in Ek. rewrite (proj2 (Z.ltb_ge f 0)) in Ek by lia. cbn [s1 m_datas].
      destruct (lookup_lt_is_Some_2 (m_datas s) (Z.to_nat f)) as [x E]; [rewrite (mg_size _ Hm); lia|]. rewrite E in *. by destruct x. }
    run Ed. run Ec. eexists c, (mkFdManager (<[Z.to_nat f := Some c]> (m_datas s)) k').
    split.
    + unfold bind, set_data. cbn [m_datas]. rewrite (mg_size _ Hm).
      by rewrite (proj2 (Z.ltb_ge f 0)), (proj2 (Z.leb_gt _ f)) by lia.
    + apply managed_insert; [done|lia| |].
      * intros g Hg. destruct (same_open f true flags (kernel s) g Hg) as [<- <-]. fold k. subst k'. destruct (_ =? 0); [by apply same_flags|done].
      * assert (Z.testbit (kf_flags k' f) 11 = true) as Hb.
        { subst k'. destruct (Z.land flags O_NONBLOCK =? 0) eqn:E; [cbn [set_flags kf_flags]; rewrite Z.eqb_refl, nonblock_bits by done; apply orb_true_r|].
          rewrite Ef, <- land_nonblock, E. done. }
        split_and!; [|done..]. subst k'. by destruct (_ =? 0).
  - rewrite (proj2 (Z.leb_le 1024 f)) by done. rewrite bind_ret. run Ec. unfold bind, set_data. cbn [m_datas]. rewrite (mg_size _ Hm).
    by rewrite (proj2 (Z.ltb_ge f 0)), (proj2 (Z.leb_le _ f)) by lia.
Qed.

Section theorems.
Context {W : Type} (fcntl_f : Z -> Z -> option Z -> M Kernel_fds Z) (cancel : Z -> M W unit).
(** The commands that are passed on, but for those that duplicate, return and leave alone which descriptors
    are open and their file status flags. *)
Context (fcntl_keeps : forall f cmd arg k, cmd ∉ duplicates -> exists r, fcntl_f f cmd arg k = Ok r k).
(** [canceAll] returns. *)
Context (cancel_ok : forall f w, exists w', cancel f w = Ok tt w').

Lemma on_fds_ok {A} (m : M FdManager A) w s a s' : m s = Ok a s' -> on_fds m (w, s) = Ok a ((w, s') : W * FdManager).
Proof. intros E. unfold on_fds. cbn [snd]. by rewrite E. Qed.

(** A context that stays one of a non-blocking socket *)
Lemma managed_update s f c c' k : managed s -> known s f = Some c -> same_but f (kernel s) k -> kf_stat k f = kf_stat (kernel s) f ->
  Z.testbit (kf_flags k f) 11 = true -> m_isSocket c' = m_isSocket c -> m_isClosed c' = m_isClosed c -> m_sysNonblock c' = m_sysNonblock c ->
  managed (mkFdManager (<[Z.to_nat f := Some c']> (m_datas s)) k).
Proof.
  intros Hm Hc Hk Es Hb E1 E2 E3. destruct (known_socket _ _ _ Hm Hc) as ((Hf & Hd & _ & H1 & H2 & H3) & Ho & _).
  pose proof (lookup_lt_Some _ _ _ Hd) as Hl. rewrite (mg_size _ Hm) in Hl.
  apply managed_insert; [done|lia|done|]. split_and!; congruence.
Qed.

(** What the calls on flags share: on sockets the context and the kernel change, elsewhere the kernel *)
Lemma flags_kept s f v : managed s -> known s f = None -> managed (mkFdManager (m_datas s) (set_flags f v (kernel s))).
Proof. intros Hm Hn. apply (managed_kernel s f); [done..|]. by apply known_none. Qed.
Lemma hooked_known s f : managed s -> hooked_socket (known s f) = known s f.
Proof.
  intros Hm. destruct (known s f) as [c|] eqn:E; [|done]. destruct (known_socket _ _ _ Hm E) as ((_ & _ & _ & H1 & H2 & _) & _). cbn. by rewrite H1, H2.
Qed.

Lemma setfl_ok s f arg : managed s -> -1 <= f -> exists s', fcntl_setfl true f arg s = Ok tt s' /\ managed s'.
Proof.
  intros Hm Hf. unfold fcntl_setfl. run (fd_get_known s f Hm Hf). rewrite hooked_known by done. destruct (known s f) as [c|] eqn:E.
  - destruct (known_socket _ _ _ Hm E) as (Hs & _). pose proof Hs as (_ & _ & _ & _ & _ & Hn). run (set_data_at _ _ _ _ Hs). eexists. split; [done|].
    cbn [on_kernel modify m_datas kernel]. rewrite Hn. eapply managed_update; try done.
    cbn [set_flags kf_flags]. rewrite Z.eqb_refl, nonblock_bits by done. apply orb_true_r.
  - eexists. split; [done|]. by apply flags_kept.
Qed.
Lemma ioctl_ok s f v : managed s -> -1 <= f -> exists s', ioctl_fionbio true f v s = Ok tt s' /\ managed s'.
Proof.
  intros Hm Hf. unfold ioctl_fionbio. run (fd_get_known s f Hm Hf). rewrite hooked_known by done. destruct (known s f) as [c|] eqn:E.
  - destruct (known_socket _ _ _ Hm E) as (Hs & _). run (set_data_at _ _ _ _ Hs). eexists. split; [done|].
    cbn [on_kernel modify m_datas kernel]. eapply managed_update; try done.
    cbn [set_flags kf_flags]. rewrite Z.eqb_refl. change (1 =? 0) with false. cbv iota. rewrite nonblock_bits by done. apply orb_true_r.
  - eexists. split; [done|]. by apply flags_kept.
Qed.
Lemma setsockopt_ok s f t sec usec : managed s -> -1 <= f -> exists b s', setsockopt true f t sec usec s = Ok b s' /\ managed s'.
Proof.
  intros Hm Hf. unfold setsockopt. destruct t; [| |by exists true, s].
  all: cbv iota; run (fd_get_known s f Hm Hf); destruct (known s f) as [c|] eqn:E; [|by exists false, s].
  all: destruct (known_socket _ _ _ Hm E) as (Hs & Ho & Hb); cbn [setTimeout].
  all: run (set_data_at _ _ _ _ Hs); eexists false, _; split; [done|]; by eapply managed_update.
Qed.
Lemma close_ok s f w : managed s -> -1 <= f -> exists w' s', close true (Some cancel) f (w, s) = Ok tt (w', s') /\ managed s'.
Proof.
  intros Hm Hf. unfold close. rewrite bind_assoc. run (on_fds_ok _ w _ _ _ (fd_get_known s f Hm Hf)). destruct (known s f) as [c|] eqn:E.
  - destruct (known_socket _ _ _ Hm E) as (Hs & _). pose proof Hs as (H0 & Hd & _). destruct (cancel_ok f w) as [w' Ew].
    pose proof (lookup_lt_Some _ _ _ Hd) as Hl. rewrite (mg_size _ Hm) in Hl.
    assert (on_world (cancel f) (w, s) = Ok tt (w', s)) as E1 by (unfold on_world; cbn [fst snd]; by rewrite Ew).
    assert (fd_del f s = Ok tt (mkFdManager (<[Z.to_nat f := None]> (m_datas s)) (kernel s))) as E2.
    { unfold fd_del. rewrite size_32, (proj2 (Z.leb_gt 1024 f)) by (done || lia). apply (set_data_at _ _ _ _ Hs). }
    rewrite bind_assoc. run E1. run (on_fds_ok _ w' _ _ _ E2). eexists w', _. split; [done|].
    apply managed_insert; [done|lia|apply same_close|]. cbn. by rewrite Z.eqb_refl.
  - eexists w, _. split; [done|]. apply (managed_kernel s f); [done|done|apply same_close|]. cbn. by rewrite Z.eqb_refl.
Qed.

Lemma getfl_ok s f : managed s -> -1 <= f -> exists v, fcntl_getfl true f s = Ok v s.
Proof.
  intros Hm Hf. unfold fcntl_getfl, bind at 1, get. cbv zeta iota. run (fd_get_known s f Hm Hf).
  destruct (hooked_socket (known s f)) as [x|]; by eexists.
Qed.
Lemma passed_on s f cmd arg : cmd ∉ duplicates -> exists v, on_kernel (fcntl_f f cmd arg) s = Ok v s.
Proof. intros Hd. destruct (fcntl_keeps f cmd arg (kernel s) Hd) as [v E]. exists v. unfold on_kernel. rewrite E. by destruct s. Qed.
Lemma switch_commands f cmd arg : in_switch (call_fcntl f cmd arg) <->
  cmd = F_SETFL \/ cmd = F_GETFL \/ (cmd ∈ int_commands \/ cmd ∈ pointer_commands) \/ cmd ∈ bare_commands.
Proof.
  cbn [in_switch]. unfold int_commands, pointer_commands, bare_commands, F_SETFL, F_GETFL. rewrite !elem_of_cons, !elem_of_nil. lia.
Qed.
(** [fcntl], on any command but those that duplicate *)
Lemma fcntl_ok s f cmd arg : managed s -> -1 <= f -> cmd ∉ duplicates ->
  (in_switch (call_fcntl f cmd arg) -> exists v s', fcntl true fcntl_f f cmd arg s = Ok v s' /\ managed s') /\
  (~ in_switch (call_fcntl f cmd arg) -> fcntl true fcntl_f f cmd arg s = Throw (assert_failed "cmd") s).
Proof.
  intros Hm Hf Hd. rewrite switch_commands. unfold fcntl.
  destruct (Z.eqb_spec cmd F_SETFL) as [->|H4]; [|destruct (Z.eqb_spec cmd F_GETFL) as [->|H3]].
  - split; [intros _|intros []; by left]. destruct (setfl_ok s f arg Hm Hf) as (s' & E & Hm'). run E. by eexists _, s'.
  - split; [intros _|intros []; by right; left]. destruct (getfl_ok s f Hm Hf) as (v & E). by exists v, s.
  - rewrite <- bool_decide_or. case_bool_decide as H1.
    { split; [intros _|intros []; tauto]. destruct (passed_on s f cmd (Some arg) Hd) as [v E]. by exists v, s. }
    case_bool_decide as H2; [|by split; [tauto|]].
    split; [intros _|intros []; tauto]. destruct (passed_on s f cmd None Hd) as [v E]. by exists v, s.
Qed.

Abbreviation step := (fd_step fcntl_f cancel).

Lemma made_ok (m : M FdManager unit) s w f v : managed s -> may (call_socket f v) s ->
  m s = (fd_get f true ;;; ret tt) (mkFdManager (m_datas s) (open_fd f true v (kernel s))) ->
  (f < 1024 -> True -> exists w' s', on_fds m (w, s) = Ok tt ((w', s') : W * FdManager) /\ managed s') /\
  (~ f < 1024 -> on_fds m (w, s) = Undef (S := W * FdManager) out_of_bounds) /\
  (~ True -> on_fds m (w, s) = Throw (assert_failed "cmd") (w, s)).
Proof.
  intros Hm [Hf Hn] E. pose proof (socket_register_ok s f v Hm Hf Hn) as Hr. cbv zeta in Hr. unfold on_fds. cbn [fst snd]. rewrite E.
  split; [intros Hl _|split; [intros Hl|by intros []]].
  - rewrite (proj2 (Z.ltb_lt _ _) Hl) in Hr. destruct Hr as (c & s' & Er & Hm'). run Er. by exists w, s'.
  - rewrite (proj2 (Z.ltb_nlt _ _) Hl) in Hr. unfold bind. by rewrite Hr.
Qed.

Lemma fd_step_ok c w s : managed s -> may c s ->
  (fits_table c -> in_switch c -> exists w' s', step c (w, s) = Ok tt (w', s') /\ managed s') /\
  (~ fits_table c -> step c (w, s) = Undef out_of_bounds) /\
  (~ in_switch c -> step c (w, s) = Throw (assert_failed "cmd") (w, s)).
Proof.
  intros Hm Hc. destruct c as [f v|f v|f v|f|f cmd v|f v|f t sec usec]; cbn [fits_table in_switch fd_step] in *.
  - apply (made_ok _ s w f v); [done..|]. destruct Hc as [Hf _]. unfold socket, socket_f, bind. cbn [negb orb on_kernel modify kernel m_datas ret].
    rewrite (proj2 (Z.eqb_neq f (-1))) by lia. by destruct (fd_get f true _).
  - apply (made_ok _ s w f v); [done..|]. destruct Hc as [Hf _]. unfold accepted, socket_f, bind. cbn [on_kernel modify kernel m_datas ret].
    rewrite (proj2 (Z.leb_le 0 f)) by lia. by destruct (fd_get f true _).
  - split; [|by split]. intros _ _. destruct Hc as [Hf Hn]. exists w. eexists. split; [done|]. cbn [on_kernel modify].
    assert (known s f = None) as Hk by (destruct (known s f) eqn:E; [|done]; destruct (known_socket _ _ _ Hm E) as (_ & ? & _); congruence).
    apply (managed_kernel s f); [done|done|apply same_open|]. cbn. by rewrite Z.eqb_refl.
  - split; [|by split]. intros _ _. by apply close_ok.
  - destruct Hc as [Hf Hd]. split; [intros _ Hs|split; [done|intros Hs]]; [|pose proof (proj2 (fcntl_ok s f cmd v Hm Hf Hd) Hs) as E; unfold on_fds, bind; cbn [snd]; by rewrite E].
    destruct (proj1 (fcntl_ok s f cmd v Hm Hf Hd) Hs) as (r & s' & E & Hm'). exists w, s'. split; [|done]. apply on_fds_ok. by run E.
  - split; [|by split]. intros _ _. destruct (ioctl_ok s f v Hm Hc) as (s' & E & Hm'). exists w, s'. split; [|done]. by apply on_fds_ok.
  - split; [|by split]. intros _ _. destruct (setsockopt_ok s f t sec usec Hm Hc) as (b & s' & E & Hm'). exists w, s'. split; [|done]. apply on_fds_ok. by run E.
Qed.

Lemma reaches_managed s : reaches fcntl_f cancel s -> managed (snd s).
Proof.
  induction 1 as [w k Hk|c [w s] [w' s'] _ IH Hc E]; [by apply managed_new|]. destruct (fd_step_ok c w s IH Hc) as (H1 & H2 & H3).
  destruct (decide (fits_table c)) as [Hf|Hf]; [|by rewrite (H2 Hf) in E]. destruct (decide (in_switch c)) as [Hs|Hs]; [|by rewrite (H3 Hs) in E].
  destruct (H1 Hf Hs) as (w1 & s1 & E1 & Hm). rewrite E in E1. by injection E1 as -> ->.
Qed.

Lemma reaches_ran c s : reaches fcntl_f cancel s -> may c (snd s) -> is_ok (step c s) = true -> reaches fcntl_f cancel (ran (step c) s).
Proof. intros Hs Hc E. eapply r_step; [done..|]. by apply ran_unit. Qed.

(** A socket that is duplicated through the hooked [fcntl] is open and not known: the calls on it
    are the kernel's. *)
Lemma duplicate_unknown s w f g cmd arg (dup : Z -> Z -> option Z -> M Kernel_fds Z) : managed s -> cmd ∈ duplicates ->
  kf_stat (kernel s) f = Some true -> 0 <= g -> kf_stat (kernel s) g = None ->
  (forall k, dup f cmd (Some arg) k = Ok g (open_fd g true (kf_flags k f) k)) ->
  exists s', fd_step dup cancel (call_fcntl f cmd arg) (w, s) = Ok tt (w, s') /\ kf_stat (kernel s') g = Some true /\ fd_get g false s' = Ok None s'.
Proof.
  intros Hm Hd Hf Hg Hn Ek. set (s' := mkFdManager (m_datas s) (open_fd g true (kf_flags (kernel s) f) (kernel s))).
  assert (known s g = None) as Hk by (destruct (known s g) eqn:E; [|done]; destruct (known_socket _ _ _ Hm E) as (_ & ? & _); congruence).
  exists s'. split_and!.
  - cbn [fd_step]. apply on_fds_ok. assert (fcntl true dup f cmd arg s = Ok g s') as E; [|by run E].
    unfold duplicates in Hd. rewrite !elem_of_cons, elem_of_nil in Hd.
    unfold fcntl. assert (cmd =? F_SETFL = false /\ cmd =? F_GETFL = false) as [-> ->] by (unfold F_SETFL, F_GETFL; lia).
    rewrite bool_decide_true by (unfold int_commands; rewrite !elem_of_cons; lia). cbn [orb]. unfold on_kernel. by rewrite Ek.
  - cbn. by rewrite Z.eqb_refl.
  - rewrite fd_get_sized by (apply Hm || lia). by rewrite <- Hk.
Qed.

(** C10: the kernel never blocks a thread on a socket.  Whatever a program does with its descriptors
    through socket, accept, close, fcntl, ioctl(FIONBIO) and setsockopt, hooked, and with files, the flags of every open socket
    have O_NONBLOCK, and the library knows the socket, so that the calls on it wait on their fiber.  Every further
    call returns, except that a socket whose descriptor is 1024 or more is written outside the table, and
    that fcntl fails its assertion for the commands that its switch has not, such as F_GETSIG.  Not among the
    calls are the commands F_DUPFD and F_DUPFD_CLOEXEC: what they make of a socket is not known
    ([duplicate_unknown]).  The commands of fcntl that are only passed on are taken to return, and to leave alone
    which descriptors are open and their status flags; so is [canceAll] to return. *)
Theorem sockets_managed s : reaches fcntl_f cancel s ->
  (forall f, kf_stat (kernel (snd s)) f = Some true ->
     Z.testbit (kf_flags (kernel (snd s)) f) 11 = true /\ exists c, socket_at (snd s) f c) /\
  (forall c, may c (snd s) ->
     (fits_table c -> in_switch c -> exists s', step c s = Ok tt s') /\
     (~ fits_table c -> step c s = Undef out_of_bounds) /\
     (~ in_switch c -> step c s = Throw (assert_failed "cmd") s)).
Proof.
  intros Hm%reaches_managed. destruct s as [w s]. cbn [snd] in *. split.
  - intros f Hf. destruct (mg_socket _ Hm f Hf) as (H0 & c & Hc).
    destruct (known_socket s f c Hm) as (Hs & _ & Hb); [by apply known_at|]. by split; [|exists c].
  - intros c Hc. destruct (fd_step_ok c w s Hm Hc) as [H1 H2]. split; [|done]. intros Hf Hs. destruct (H1 Hf Hs) as (w' & s' & E & _). by exists (w', s').
Qed.
End theorems.

(** ** Blocking calls *)

(** C29: a hooked call waits for its fiber only.  Whatever the system's function, [addEvent] and the timers
    answer, a call on a socket that the program left blocking does exactly this: it calls the function on its
    descriptor, again at once after EINTR; after EAGAIN it sets a timer of the socket's send or receive timeout
    (none when that is 0), adds the event that it waits for, WRITE for the sending calls and READ for the others,
    and holds the fiber; when the fiber runs again it cancels the timer, and calls again or, when the timer ended the wait, deletes
    the event and gives -1 with the timer's errno.  When the event cannot be added it gives -1.  What the function
    says otherwise is the result.  Every timer is cancelled, but the one that was set before an
    event which could not be added.  On any other descriptor, and without the hook, it is the system's call. *)
Theorem hooked_io hook c fuel f err as0 ds r s : managed s -> -1 <= f ->
  blocks c f (waits_for c) (waits_at_most c (known s f)) err as0 ds r -> (length as0 <= fuel)%nat ->
  io hook scripted fuel c f err (mkScript as0 [], s) =
    match known s f with
    | Some x => if hook && negb (m_userNonblock x) then Ok r (mkScript [] ds, s)
                else bl_fun (Blocking := scripted c) f (mkScript as0 [], s)
    | None => bl_fun (Blocking := scripted c) f (mkScript as0 [], s)
    end /\
  left_armed ds = (if existsb refused as0 && negb (waits_at_most c (known s f) =? 0) then 1 else 0).
Proof.
  intros Hm Hf Hs Hl. split; [|by eapply blocks_armed]. unfold io. destruct hook; [|by destruct (known s f)].
  run (on_fds_ok _ (mkScript as0 []) _ _ _ (fd_get_known s f Hm Hf)).
  assert (io_event c = waits_for c) as -> by by destruct c.
  rewrite (do_io_ok s fuel true f (known s f) c (io_timeout c) err as0 ds r), hooked_known; [done|done|by destruct c| |done|done].
  destruct (known s f) as [x|] eqn:E; [|done]. destruct (known_socket _ _ _ Hm E) as ((_ & _ & _ & _ & ? & _) & _). split; [done|by destruct c].
Qed.

(** *** Witnesses *)

Definition no_sockets : Kernel_fds := mkFds (fun _ => None) (fun _ => 0).
Definition log_cancel (f : Z) : M (list Z) unit := modify (fun l => f :: l).
Definition plain_fcntl (f cmd : Z) (arg : option Z) : M Kernel_fds Z := ret 0.
Lemma plain_fcntl_keeps f cmd arg k : cmd ∉ duplicates -> exists r, plain_fcntl f cmd arg k = Ok r k.
Proof. intros _. by exists 0. Qed.

(** A socket is made, made blocking and closed on exec by the program, and closed: its waiters are cancelled, and its number
    can be used again. *)
Lemma sockets_managed_witness :
  let steps := [call_socket 7 2; call_fcntl 7 F_SETFL 2; call_fcntl 7 2 1; call_accept 8 0; call_close 7; call_open 7 0; call_ioctl 7 0] in
  let run := fold_left (fun s c => ran (fd_step plain_fcntl log_cancel c) s) steps ([], new_FdManager no_sockets) in
  fst run = [7] /\ Z.testbit (kf_flags (kernel (snd run)) 8) 11 = true.
Proof.
  intros steps run. split; [reflexivity|].
  refine (proj1 (proj1 (sockets_managed plain_fcntl log_cancel plain_fcntl_keeps (fun f w => ex_intro _ (f :: w) eq_refl) run _) 8 eq_refl)).
  subst run. cbn [fold_left steps].
  do 7 (apply reaches_ran; [|first [vm_compute; repeat split; discriminate|split; [lia|apply (bool_decide_unpack _); reflexivity]]|reflexivity]). apply r_start. discriminate.
Defined.

(** A receive on a socket with a timeout of 3 seconds is interrupted, and waits; a send has no event. *)
Lemma hooked_io_witness : exists s,
  io true scripted 5 io_recv 7 0 (mkScript [said (-1) EINTR; said (-1) EAGAIN; added 0; woken 0; said 5 0] [], s) =
    Ok (5, 0) (mkScript [] [did_call io_recv 7; did_call io_recv 7; did_arm 3000 7 READ; did_add 7 READ; did_wait; did_disarm; did_call io_recv 7], s) /\
  io true scripted 5 io_send 7 9 (mkScript [said (-1) EAGAIN; added (-1)] [], s) =
    Ok (-1, 9) (mkScript [] [did_call io_send 7; did_arm (2 ^ 64 - 1) 7 WRITE; did_add 7 WRITE], s).
Proof.
  set (run := fold_left (fun s c => ran (fd_step (W := unit) plain_fcntl (fun _ => ret tt) c) s) [call_socket 7 2; call_setsockopt 7 SO_RCVTIMEO 3 0] (tt, new_FdManager no_sockets)).
  assert (managed (snd run)) as Hm.
  { apply (reaches_managed plain_fcntl (fun _ => ret tt) plain_fcntl_keeps (fun _ w => ex_intro _ w eq_refl)). subst run. cbn [fold_left].
    do 2 (apply reaches_ran; [|vm_compute; repeat split; discriminate|reflexivity]). apply r_start. discriminate. }
  exists (snd run). split.
  - refine (proj1 (hooked_io true io_recv 5 7 0 _ [did_call io_recv 7; did_call io_recv 7; did_arm 3000 7 READ; did_add 7 READ; did_wait; did_disarm; did_call io_recv 7] (5, 0) (snd run) Hm _ _ _)); [lia| |cbn; lia].
    apply w_interrupted. refine (w_ready _ _ _ _ _ _ [did_call io_recv 7] _ _). apply w_done. by left.
  - refine (proj1 (hooked_io true io_send 5 7 9 _ [did_call io_send 7; did_arm (2 ^ 64 - 1) 7 WRITE; did_add 7 WRITE] (-1, 9) (snd run) Hm _ _ _)); [lia| |cbn; lia].
    refine (w_refused _ _ _ _ _ (-1) _). discriminate.
Defined.
