(* ===== verification/Servlet.v ===== *)
(** * Servlets and the HTTP server (src/wyze/http/servlet.h, src/wyze/http/servlet.cpp,
    src/wyze/http/http_server.h, src/wyze/http/http_server.cpp)

    A servlet is its name and what [handle] does with the request, the response and the
    session.  [fnmatch] is a parameter: does the pattern match the string?  A shared pointer to
    a servlet may be null, which is [None]. *)

From S2P Require Import Prelude ByteArray Stream Containers Http HttpParser HttpSession.


Section servlet.
Context {W : Type}.

Record Servlet := mkServlet {
  s_name : bytes;
  s_handle : HttpRequest -> HttpResponse -> M (W * HttpSession) (Z * HttpResponse) }.

(** [FunctionServlet(cb)] *)
Definition FunctionServlet (cb : HttpRequest -> HttpResponse -> M (W * HttpSession) (Z * HttpResponse)) : Servlet :=
  mkServlet (str "FunctonServlet") cb.

(** [NotFoundServer]: the page is cut to the 1023 characters of the buffer *)
Definition not_found_page (server : bytes) : bytes :=
  c_str (take 1023 (str "<html><head><title>404 Not Found" ++
    str "</title></head><body><center><h1>404 Not Found</h1></center>" ++
    str "<hr><center>" ++ c_str server ++ str "</center></body></html>")).
Definition rs_with_status (r : HttpResponse) (st : Z) : HttpResponse :=
  mkResponse st (rs_version r) (rs_close r) (rs_body r) (rs_reason r) (rs_headers r).
Definition not_found (rsp : HttpResponse) : HttpResponse :=
  let buf := not_found_page (rs_getHeader rsp (str "Server")) in
  let rsp := rs_setHeader (rs_with_status rsp 404) (str "Content-Type") (str "text/html") in
  mkResponse (rs_status rsp) (rs_version rsp) (rs_close rsp) buf (rs_reason rsp) (rs_headers rsp).
Definition NotFoundServer : Servlet :=
  mkServlet (str "NotFoundServlet") (fun _ rsp => ret (0, not_found rsp)).

(** ** Dispatch *)

Record ServletDispatch := mkDispatch {
  m_datas : list (bytes * option Servlet);   (* a hash map: one entry for a key, in no order *)
  m_globs : list (bytes * option Servlet);
  m_default : option Servlet }.

Definition new_ServletDispatch : ServletDispatch := mkDispatch [] [] (Some NotFoundServer).

Definition without (uri : bytes) (l : list (bytes * option Servlet)) : list (bytes * option Servlet) :=
  filter (fun p => fst p <> uri) l.
(** The loop that looks for a pattern and erases the first one found. *)
Fixpoint erase_first (uri : bytes) (l : list (bytes * option Servlet)) : list (bytes * option Servlet) :=
  match l with
  | [] => []
  | p :: l => if decide (fst p = uri) then l else p :: erase_first uri l
  end.
Fixpoint assoc (uri : bytes) (l : list (bytes * option Servlet)) : option (option Servlet) :=
  match l with
  | [] => None
  | p :: l => if decide (fst p = uri) then Some (snd p) else assoc uri l
  end.

(** [addServlet(uri, slt)] and the overload for a callback *)
Definition addServlet (uri : bytes) (slt : option Servlet) (d : ServletDispatch) : ServletDispatch :=
  mkDispatch ((uri, slt) :: without uri (m_datas d)) (m_globs d) (m_default d).
Definition addServlet_cb (uri : bytes) cb (d : ServletDispatch) : ServletDispatch :=
  addServlet uri (Some (FunctionServlet cb)) d.
(** [addGlobServlet(uri, slt)] and the overload for a callback *)
Definition addGlobServlet (uri : bytes) (slt : option Servlet) (d : ServletDispatch) : ServletDispatch :=
  mkDispatch (m_datas d) (erase_first uri (m_globs d) ++ [(uri, slt)]) (m_default d).
Definition addGlobServlet_cb (uri : bytes) cb (d : ServletDispatch) : ServletDispatch :=
  addGlobServlet uri (Some (FunctionServlet cb)) d.
Definition delServlet (uri : bytes) (d : ServletDispatch) : ServletDispatch :=
  mkDispatch (without uri (m_datas d)) (m_globs d) (m_default d).
Definition delGlobServlet (uri : bytes) (d : ServletDispatch) : ServletDispatch :=
  mkDispatch (m_datas d) (erase_first uri (m_globs d)) (m_default d).
Definition setDefault (v : option Servlet) (d : ServletDispatch) : ServletDispatch :=
  mkDispatch (m_datas d) (m_globs d) v.
Definition getServlet (uri : bytes) (d : ServletDispatch) : option Servlet := mjoin (assoc uri (m_datas d)).
Definition getGlobServlet (uri : bytes) (d : ServletDispatch) : option Servlet := mjoin (assoc uri (m_globs d)).

Context (fnmatch : bytes -> bytes -> bool).

Fixpoint first_match (uri : bytes) (l : list (bytes * option Servlet)) : option (option Servlet) :=
  match l with
  | [] => None
  | p :: l => if fnmatch (c_str (fst p)) (c_str uri) then Some (snd p) else first_match uri l
  end.
(** [getMatchedServlet(uri)] *)
Definition getMatchedServlet (uri : bytes) (d : ServletDispatch) : option Servlet :=
  match assoc uri (m_datas d) with
  | Some s => s
  | None => match first_match uri (m_globs d) with Some s => s | None => m_default d end
  end.
(** [ServletDispatch::handle(req, rsp, session)]: its result and what became of the response *)
Definition dispatch (d : ServletDispatch) (req : HttpRequest) (rsp : HttpResponse)
    : M (W * HttpSession) (Z * HttpResponse) :=
  match getMatchedServlet (rq_path req) d with
  | Some slt => s_handle slt req rsp
  | None => ret (-1, rsp)
  end.

(** ** The server *)

Record HttpServer := mkServer { srv_name : bytes; m_isKeepalive : bool; m_dispatch : ServletDispatch }.

Context `{Kernel W} `{Allocator} {P : Type} `{Machine P} (lexical_cast : bytes -> option Z).

(** The loop of [handleClient(client)]; [fuel] bounds the requests of one client. *)
Fixpoint serve_loop (fuel : nat) (configured max_body : Z) (srv : HttpServer) : M (W * HttpSession) unit :=
  match fuel with
  | O => undef no_fuel
  | S fuel =>
      req <- recvRequest lexical_cast configured max_body ;;
      match req with
      | None => ret tt
      | Some req =>
          let rsp := rs_setHeader (new_HttpResponse (rq_version req) (rq_close req || negb (m_isKeepalive srv)))
                       (str "Server") (srv_name srv) in
          r <- dispatch (m_dispatch srv) req rsp ;;
          sendResponse (snd r) ;;;
          if rq_close req then ret tt
          else if m_isKeepalive srv then serve_loop fuel configured max_body srv else ret tt
      end
  end.
Definition handleClient (fuel : nat) (configured max_body : Z) (srv : HttpServer) : M (W * HttpSession) unit :=
  serve_loop fuel configured max_body srv ;;; HttpSession.close.

End servlet.
Arguments Servlet : clear implicits.
Arguments ServletDispatch : clear implicits.
Arguments HttpServer : clear implicits.
