(* ===== verification/ServletSpec.v ===== *)
(** * Which servlet answers, and a request answered end to end *)

From S2P Require Import Prelude ByteArray ByteArraySpec Stream StreamSpec Containers Http HttpSpec.
From S2P Require Import HttpParser HttpSession HttpSessionSpec Servlet.

Section spec.
Context {W : Type} (fnmatch : bytes -> bytes -> bool).
Implicit Types (uri : bytes) (slt : option (Servlet W)).

(** What is done to a dispatch, in order. *)
Inductive change :=
  | Add uri slt | AddGlob uri slt | Del uri | DelGlob uri | Default slt.
Definition apply_change (d : ServletDispatch W) (c : change) : ServletDispatch W :=
  match c with
  | Add u s => addServlet u s d | AddGlob u s => addGlobServlet u s d
  | Del u => delServlet u d | DelGlob u => delGlobServlet u d | Default s => setDefault s d
  end.
Definition build (cs : list change) : ServletDispatch W := fold_left apply_change cs new_ServletDispatch.

(** The meaning of a history, most recent change first: the servlet registered for exactly
    [uri]; the patterns in the order in which they were last added; the default. *)
Fixpoint exact_at (uri : bytes) (cs : list change) : option (option (Servlet W)) :=
  match cs with
  | [] => None
  | Add u s :: cs => if decide (u = uri) then Some s else exact_at uri cs
  | Del u :: cs => if decide (u = uri) then None else exact_at uri cs
  | _ :: cs => exact_at uri cs
  end.
Fixpoint globs_of (cs : list change) : list (bytes * option (Servlet W)) :=
  match cs with
  | [] => []
  | AddGlob u s :: cs => without u (globs_of cs) ++ [(u, s)]
  | DelGlob u :: cs => without u (globs_of cs)
  | _ :: cs => globs_of cs
  end.
Fixpoint default_of (cs : list change) : option (Servlet W) :=
  match cs with [] => Some NotFoundServer | Default s :: _ => s | _ :: cs => default_of cs end.

Lemma assoc_without u uri (l : list (bytes * option (Servlet W))) :
  assoc uri (without u l) = if decide (u = uri) then None else assoc uri l.
Proof.
  induction l as [|p l IH]; [by destruct (decide _)|]. unfold without in *. rewrite filter_cons.
  destruct (decide (fst p <> u)) as [Hp|Hp]; cbn [assoc].
  - rewrite IH. destruct (decide (fst p = uri)) as [E|E]; [|done]. destruct (decide (u = uri)); [congruence|done].
  - rewrite IH. apply dec_stable in Hp. destruct (decide (u = uri)); [done|]. rewrite decide_False; [done|congruence].
Qed.

Lemma erase_first_without u (l : list (bytes * option (Servlet W))) :
  NoDup (map fst l) -> erase_first u l = without u l.
Proof.
  induction l as [|p l IH]; intros Hd; [done|]. cbn in Hd. apply NoDup_cons in Hd as [Hp Hd].
  unfold without in *. rewrite filter_cons. cbn [erase_first].
  destruct (decide (fst p = u)) as [E|E]; [|rewrite decide_True, IH by done; done].
  rewrite decide_False by (intros N; by apply N). symmetry. apply filter_all.
  intros q Hq Eq. apply Hp. rewrite E, <- Eq. by apply list_elem_of_fmap_2.
Qed.

Lemma without_NoDup u (l : list (bytes * option (Servlet W))) : NoDup (map fst l) ->
  NoDup (map fst (without u l)) /\ u ∉ map fst (without u l).
Proof.
  intros Hd. unfold without. split.
  - induction l as [|p l IH]; [constructor|]. cbn in Hd. apply NoDup_cons in Hd as [Hp Hd]. rewrite filter_cons.
    destruct (decide _); [|by apply IH]. cbn. constructor; [|by apply IH]. intros Hin. apply Hp.
    apply list_elem_of_fmap in Hin as (q & -> & Hq). apply list_elem_of_filter in Hq as [_ Hq].
    by apply list_elem_of_fmap_2.
  - intros Hin. apply list_elem_of_fmap in Hin as (q & -> & Hq). by apply list_elem_of_filter in Hq as [Hq _].
Qed.

Lemma globs_NoDup cs : NoDup (map fst (globs_of cs)).
Proof.
  induction cs as [|[u s|u s|u|u|s] cs IH]; try done; cbn [globs_of]; [constructor| |by apply without_NoDup].
  destruct (without_NoDup u _ IH) as [H1 H2]. rewrite map_app. apply NoDup_app. split_and!; [done| |by apply NoDup_singleton].
  intros x Hx Hx'. apply list_elem_of_singleton in Hx' as ->. done.
Qed.

Lemma build_state cs :
  m_globs (build cs) = globs_of (rev cs) /\ m_default (build cs) = default_of (rev cs) /\
  forall uri, assoc uri (m_datas (build cs)) = exact_at uri (rev cs).
Proof.
  induction cs as [|c cs IH] using rev_ind; [done|]. unfold build in *. rewrite fold_left_app, rev_app_distr.
  cbn [fold_left rev app]. destruct IH as (Hg & Hd & Ha). set (d := fold_left apply_change cs new_ServletDispatch) in *.
  pose proof (globs_NoDup (rev cs)) as Hn. rewrite <- Hg in Hn.
  destruct c as [u s|u s|u|u|s]; cbn; split_and!; try done.
  - intros uri. rewrite assoc_without, Ha. by destruct (decide (u = uri)).
  - by rewrite erase_first_without, Hg.
  - intros uri. by rewrite assoc_without, Ha.
  - by rewrite erase_first_without, Hg.
Qed.

(** Whatever was registered and removed, in any order, the servlet for a path is the one
    registered last, and not removed since, for exactly this path; else that of the first
    matching pattern, in the order in which the patterns were last added; else the default. *)
Theorem dispatch_matches cs uri :
  getMatchedServlet fnmatch uri (build cs) =
    match exact_at uri (rev cs) with
    | Some s => s
    | None => match List.find (fun p => fnmatch (c_str (fst p)) (c_str uri)) (globs_of (rev cs)) with
              | Some p => snd p
              | None => default_of (rev cs)
              end
    end.
Proof.
  destruct (build_state cs) as (Hg & Hd & Ha). unfold getMatchedServlet. rewrite Ha, Hg, Hd.
  destruct (exact_at uri (rev cs)); [done|]. clear Hg.
  induction (globs_of (rev cs)) as [|p l IH]; [done|]. cbn [first_match List.find]. destruct (fnmatch (c_str (fst p)) (c_str uri)); [done|exact IH].
Qed.

End spec.

Section serve.
Context {W : Type} `{KernelSpec W} `{!Lively W} `{Allocator} {P : Type} `{RequestMachine P}.
Context (fnmatch : bytes -> bytes -> bool) (lexical_cast : bytes -> option Z).
Implicit Types (w : W) (hs : HttpSession) (srv : HttpServer W).

(** The response handed to the servlet. *)
Definition blank_response srv (req : HttpRequest) : HttpResponse :=
  rs_setHeader (new_HttpResponse (rq_version req) (rq_close req || negb (m_isKeepalive srv)))
    (str "Server") (srv_name srv).

(** C27: a request that ends the conversation (it asks to close, or the server does not keep
    connections) is answered end to end: however the network splits it, the client is sent
    exactly the printed response that the matching servlet made of the request and a blank
    response in the request's version, and the connection is closed. *)
Theorem handleClient_answers c max_body h r body w hs srv rsp rt fuel :
  open (hs_stream hs) -> m_left_size hs = 0 -> is_head h r -> (0 < length h)%nat -> c < 2 ^ 31 ->
  Z.of_nat (length h) <= buffer_size_of c ->
  GetAs lexical_cast (rq_headers r) (str "Content-length") 0 = Z.of_nat (length body) ->
  Z.of_nat (length body) < 2 ^ 31 -> Z.of_nat (length body) <= max_body < 2 ^ 63 ->
  incoming w = h ++ body ->
  let req := delivered r body in
  rq_close req = true \/ m_isKeepalive srv = false ->
  (forall s, dispatch fnmatch (m_dispatch srv) req (blank_response srv req) s = Ok (rt, rsp) s) ->
  Z.of_nat (length (rs_dump rsp)) < 2 ^ 31 -> (0 < fuel)%nat ->
  exists w' hs', handleClient fnmatch lexical_cast fuel c max_body srv (w, hs) = Ok tt (w', hs') /\
    outgoing w' = outgoing w ++ rs_dump rsp /\ incoming w' = [] /\
    ss_sock (hs_stream hs') = Socket_close (ss_sock (hs_stream hs)).
Proof.
  intros Ho Hl Hh Hh0 Hc Hb Hcl Hb1 Hb2 Hi req Hend Hd Hr Hf.
  destruct (recvRequest_ok lexical_cast c max_body h r body w hs) as (w1 & hs1 & E1 & Hi1 & Ho1 & Hl1 & Hs1); try done.
  destruct (sendResponse_ok rsp w1 hs1) as (w2 & E2 & Ho2 & Hi2); [by rewrite Hs1|done|].
  eexists w2, _. split_and!; [|by rewrite Ho2, Ho1|by rewrite Hi2|].
  - unfold handleClient. destruct fuel as [|fuel]; [lia|]. cbn [serve_loop].
    run E1. fold req. cbv zeta. fold (blank_response srv req).
    run (Hd _). cbn [snd].
    run E2.
    destruct (rq_close req) eqn:Eq; [rewrite bind_ret; reflexivity|].
    destruct Hend as [Hend|Hend]; [done|]. rewrite Hend, bind_ret. reflexivity.
  - cbn. by rewrite Hs1.
Qed.

End serve.

(** *** Witnesses *)

Definition hello : Servlet pipe := FunctionServlet (fun _ rsp => ret (0, rs_with_body rsp (str "hello"))).
Definition a_server : HttpServer pipe :=
  mkServer (str "wyze") false (addServlet (str "abc") (Some hello) new_ServletDispatch).

Lemma handleClient_answers_witness :
  exists w' hs', @handleClient pipe (fun _ _ => false) _ zeroed line_machine _ no_number 1 0 100 a_server
      ((str "abc" ++ [Byte.x0a], []), session0 0) = Ok tt (w', hs') /\
    outgoing w' = rs_dump (rs_with_body (blank_response a_server (delivered abc_request [])) (str "hello")) /\
    incoming w' = [] /\ ss_sock (hs_stream hs') = Socket_close (mkSocket 3 true).
Proof.
  refine (@handleClient_answers pipe _ _ _ zeroed line_machine _ _ (fun _ _ => false) no_number 0 100
    (str "abc" ++ [Byte.x0a]) abc_request [] (str "abc" ++ [Byte.x0a], []) (session0 0) a_server _ 0 1
    _ _ line_abc _ _ _ _ _ _ _ _ _ _ _).
  - reflexivity.
  - reflexivity.
  - vm_compute. lia.
  - lia.
  - vm_compute. discriminate.
  - reflexivity.
  - reflexivity.
  - simpl. lia.
  - reflexivity.
  - right. reflexivity.
  - intros s. reflexivity.
  - vm_compute. reflexivity.
  - lia.
Defined.
