(* ===== verification/Address.v ===== *)
(** * Addresses (src/wyze/address.h, src/wyze/address.cpp)

    An IPv4 address is the fields of its [sockaddr_in] as they are stored: port and address in
    network byte order, read on the little-endian host.  An IPv6 address is its sixteen bytes
    and its port.  [getaddrinfo], [getifaddrs] and the text forms of addresses are the
    system's. *)

From S2P Require Import Prelude Codec Http.

(** [htons] and [htonl] *)
Definition htons (v : Z) : Z := bswap 2 v.
Definition htonl (v : Z) : Z := bswap 4 v.

(** [CreateMask<T>(bits)] of a [T] of [size] bytes: [1] is an [int] *)
Definition CreateMask {S} (size bits : Z) : M S Z :=
  let n := u64 (size * 8 - bits) in
  if n <? 32 then
    m <- or_undef signed_overflow (sadd32 (s32 (2 ^ n)) (-1)) ;; ret (uwrap (8 * size) m)
  else undef bad_shift.

(** [CountBytes(value)] *)
Fixpoint CountBytes_loop (fuel : nat) (size value rt : Z) : option Z :=
  if value =? 0 then Some rt else
  match fuel with
  | O => None
  | S fuel => CountBytes_loop fuel size (Z.land value (uwrap (8 * size) (value - 1))) (u32 (rt + 1))
  end.
Definition CountBytes (size value : Z) : option Z := CountBytes_loop (Z.to_nat (8 * size)) size value 0.

(** ** IPv4 *)

Definition AF_INET : Z := 2.
Record IPv4Address := mkIPv4 { sin_family : Z; sin_port : Z; s_addr : Z }.

(** [IPv4Address(address, port)] *)
Definition new_IPv4Address (address port : Z) : IPv4Address := mkIPv4 AF_INET (htons port) (htonl address).
Definition with_addr (x : IPv4Address) (a : Z) : IPv4Address := mkIPv4 (sin_family x) (sin_port x) a.

Definition broadcastAddress (prefix_len : Z) (x : IPv4Address) : M unit (option IPv4Address) :=
  if 32 <? prefix_len then ret None
  else m <- CreateMask 4 prefix_len ;; ret (Some (with_addr x (Z.lor (s_addr x) (htonl m)))).
Definition networkAddress (prefix_len : Z) (x : IPv4Address) : M unit (option IPv4Address) :=
  if 32 <? prefix_len then ret None
  else
    m <- CreateMask 4 prefix_len ;;
    let a := Z.land (s_addr x) (u32 (Z.lnot (htonl m))) in
    ret (Some (with_addr x (Z.lor a (htonl 1)))).
Definition subnetMask (prefix_len : Z) : M unit IPv4Address :=
  m <- CreateMask 4 prefix_len ;; ret (mkIPv4 AF_INET 0 (u32 (Z.lnot (htonl m)))).
Definition getPort (x : IPv4Address) : Z := bswap 2 (sin_port x).
Definition setPort (v : Z) (x : IPv4Address) : IPv4Address := mkIPv4 (sin_family x) (htons v) (s_addr x).

(** The memory of a [sockaddr_in]. *)
Definition getAddr (x : IPv4Address) : bytes :=
  le_split 2 (sin_family x) ++ le_split 2 (sin_port x) ++ le_split 4 (s_addr x) ++ repeat Byte.x00 8.

(** ** IPv6 *)

Record IPv6Address := mkIPv6 { sin6_port : Z; s6_addr : list Z }.

(** [s6_addr[i]], read and written *)
Definition byte_at (i : Z) (l : list Z) : M unit Z :=
  if i <? 0 then undef out_of_bounds else or_undef out_of_bounds (l !! Z.to_nat i).
(** [for(int i = k; i < 16; ++i) s6_addr[i] = v] *)
Definition fill_from (k : Z) (v : Z) (l : list Z) : list Z :=
  imap (fun i x => if k <=? Z.of_nat i then v else x) l.

Definition broadcastAddress6 (prefix_len : Z) (x : IPv6Address) : M unit IPv6Address :=
  m <- CreateMask 1 (prefix_len mod 8) ;;
  b <- byte_at (prefix_len / 8) (s6_addr x) ;;
  let l := <[Z.to_nat (prefix_len / 8) := Z.lor b m]> (s6_addr x) in
  ret (mkIPv6 (sin6_port x) (fill_from (prefix_len / 8 + 1) 255 l)).
Definition networkAddress6 (prefix_len : Z) (x : IPv6Address) : M unit IPv6Address :=
  m <- CreateMask 1 (prefix_len mod 8) ;;
  b <- byte_at (prefix_len / 8) (s6_addr x) ;;
  let l := <[Z.to_nat (prefix_len / 8) := Z.land b m]> (s6_addr x) in
  ret (mkIPv6 (sin6_port x) (fill_from (prefix_len / 8 + 1) 0 l)).
Definition subnetMask6 (prefix_len : Z) : M unit IPv6Address :=
  m <- CreateMask 1 (prefix_len mod 8) ;;
  b <- byte_at (prefix_len / 8) (repeat 0 16) ;;
  let l := <[Z.to_nat (prefix_len / 8) := uwrap 8 (Z.lnot m)]> (repeat 0 16) in
  ret (mkIPv6 0 (imap (fun i x => if Z.of_nat i <? prefix_len / 8 then 255 else x) l)).

(** ** Unix addresses: the length and the bytes of the path *)

Definition new_UnixAddress {S} (path : bytes) : M S (Z * bytes) :=
  let m_length := u32 (Z.of_nat (length path) + 1) in
  let m_length := match path with
                  | b :: _ => if Byte.byte_eq_dec b Byte.x00 then u32 (m_length - 1) else m_length
                  | [] => m_length
                  end in
  if 108 <? m_length then throw (logic_error "path too long")
  else if (108 <? length path)%nat then undef out_of_bounds
  else ret (u32 (m_length + 2), path).

(** ** Comparison, on the memory of the addresses *)

Fixpoint memcmp (a b : bytes) : Z :=
  match a, b with
  | x :: a, y :: b => if byte.unsigned x =? byte.unsigned y then memcmp a b else byte.unsigned x - byte.unsigned y
  | _, _ => 0
  end.
Definition addr_lt (a b : bytes) : bool :=
  let minlen := Nat.min (length a) (length b) in
  let rt := memcmp (take minlen a) (take minlen b) in
  if rt <? 0 then true else if 0 <? rt then false else (length a <? length b)%nat.
Definition addr_eq (a b : bytes) : bool :=
  (length a =? length b)%nat && (memcmp a b =? 0).

(** ** Lookup: the node and the service in a host text

    The pointers into [host.c_str()] are what is left of the text from there on. *)

Definition colon : byte := Byte.x3a.
Definition bracket : byte := Byte.x5d.

(** [memchr]: the text before the first [c], and from it on *)
Fixpoint memchr (c : byte) (s : bytes) : option (bytes * bytes) :=
  match s with
  | [] => None
  | b :: s => if Byte.byte_eq_dec b c then Some ([], b :: s)
              else match memchr c s with Some (p, q) => Some (b :: p, q) | None => None end
  end.

(** The arguments [node] and [service] of [getaddrinfo] that [Lookup] makes of [host], both as
    C strings. *)
Definition lookup_args (host : bytes) : bytes * option bytes :=
  let '(node, service) :=
    match host with
    | Byte.x5b :: rest =>
        match memchr bracket rest with
        | Some (inside, endipv6) =>
            (inside, if (3 <=? length (c_str endipv6))%nat
                     then match endipv6 with
                          | _ :: c :: s => if Byte.byte_eq_dec c colon then Some s else None
                          | _ => None
                          end
                     else None)
        | None => ([], None)
        end
    | _ => ([], None)
    end in
  let '(node, service) :=
    match node with
    | [] =>
        match memchr colon host with
        | Some (before, at_colon) =>
            match memchr colon (tail at_colon) with
            | None => (before, Some (tail at_colon))
            | Some _ => (node, Some at_colon)
            end
        | None => (node, None)
        end
    | _ => (node, service)
    end in
  (c_str (match node with [] => host | _ => node end), c_str <$> service).
