(* ===== verification/Ragel.v ===== *)
(** * Running the state machines that Ragel generates

    The generated code (http11_parser.cpp, httpclient_parser.cpp, uri.cpp) is a [switch] into
    labelled blocks that jump to one another.  A table holds the blocks; [exec] runs them on
    the characters from [p] to [pe].  A [char] is signed. *)

From S2P Require Import Prelude.

(** [goto stN] and [goto trN] *)
Inductive label := St (n : Z) | Tr (n : Z).
(** How the actions of a transition end: [goto stN], or [p++; cs = N; goto _out] *)
Inductive next := GOTO (n : Z) | BREAK (n : Z).
(** [case N: ...], a function of the character, and [trN: ...] *)
Inductive block (A : Type) := CASE (n : Z) (f : Z -> label) | TR (n : Z) (acts : list A) (k : next).
Arguments CASE {A} n f.
Arguments TR {A} n acts k.

(** [switch(c) { case v: goto l; ... }], and the code after it *)
Fixpoint sw (c : Z) (cases : list (Z * label)) (k : label) : label :=
  match cases with
  | [] => k
  | (v, l) :: cases => if c =? v then l else sw c cases k
  end.

Fixpoint find_case {A} (n : Z) (bs : list (block A)) : option (Z -> label) :=
  match bs with
  | [] => None
  | CASE m f :: bs => if m =? n then Some f else find_case n bs
  | TR _ _ _ :: bs => find_case n bs
  end.
Fixpoint find_tr {A} (n : Z) (bs : list (block A)) : option (list A * next) :=
  match bs with
  | [] => None
  | TR m a k :: bs => if m =? n then Some (a, k) else find_tr n bs
  | CASE _ _ :: bs => find_tr n bs
  end.

(** What state [cs] does with the character [b]: the actions, and where they lead. *)
Definition trans {A} (bs : list (block A)) (cs : Z) (b : byte) : option (list A * next) :=
  match find_case cs bs with
  | Some f => match f (s8 (byte.unsigned b)) with St n => Some ([], GOTO n) | Tr t => find_tr t bs end
  | None => None
  end.

Section exec.
Context {A X : Type} (bs : list (block A)) (act : A -> Z -> M X unit).

(** [fallen] is the state of the first label behind the [switch], where it falls through to
    when it has no case for [cs]. *)
Context (fallen : Z).

Fixpoint perform (acts : list A) (p : Z) : M X unit :=
  match acts with
  | [] => ret tt
  | a :: acts => act a p ;;; perform acts p
  end.

(** The new [cs] and [p], and was it [goto _out]? *)
Definition step (cs p : Z) (b : byte) : M X (Z * Z * bool) :=
  match trans bs cs b with
  | Some (acts, k) =>
      perform acts p ;;;
      match k with
      | GOTO n => ret (if n =? 0 then (0, p, true) else (n, p + 1, false))
      | BREAK n => ret (n, p + 1, true)
      end
  | None => ret (fallen, p, true)
  end.

Fixpoint exec (cs p : Z) (input : list byte) : M X (Z * Z * bool) :=
  match input with
  | [] => ret (cs, p, false)
  | b :: input =>
      r <- step cs p b ;;
      let '(cs, p, out) := r in if out then ret r else exec cs p input
  end.

End exec.
