(* ===== verification/RagelSpec.v ===== *)
(** * Reasoning about generated state machines

    Running a machine in pieces, and deciding facts about all characters by computation. *)

From S2P Require Import Prelude Ragel.

(** ** All characters *)

Definition all_bytes : list byte := byte.of_Z ∘ Z.of_nat <$> seq 0 256.

Lemma elem_of_all_bytes b : b ∈ all_bytes.
Proof.
  unfold all_bytes. apply list_elem_of_fmap. exists (Z.to_nat (byte.unsigned b)).
  pose proof (byte.unsigned_range b). split.
  - cbn. rewrite Z2Nat.id by lia. symmetry. apply byte.of_Z_unsigned.
  - apply elem_of_seq. lia.
Qed.

Lemma all_bytes_ok (f : byte -> bool) : forallb f all_bytes = true -> forall b, f b = true.
Proof.
  intros Hf b. rewrite forallb_forall in Hf. apply Hf, list_elem_of_In, elem_of_all_bytes.
Qed.

(** A fact decided by computation, behind a name so that tactics do not compute it again. *)
Inductive checked (b : bool) : Prop := Checked : b = true -> checked b.

Lemma checked_true b : checked b -> b = true.
Proof. by intros []. Qed.
Lemma checked_andb a b : checked (a && b) <-> checked a /\ checked b.
Proof.
  split; [intros [[]%andb_true_iff]; by split; constructor|].
  intros [[] []]. constructor. by apply andb_true_iff.
Qed.
Lemma checked_forallb {A} (f : A -> bool) l x : checked (forallb f l) -> In x l -> checked (f x).
Proof. intros [H] Hx. constructor. rewrite forallb_forall in H. by apply H. Qed.

(** A class of characters, decided. *)
Definition all_in (cls : byte -> bool) (s : list byte) : Prop := forallb cls s = true.

Lemma all_in_cons cls b s : all_in cls (b :: s) <-> cls b = true /\ all_in cls s.
Proof. unfold all_in. cbn [forallb]. apply andb_true_iff. Qed.
Lemma all_in_app cls s t : all_in cls (s ++ t) <-> all_in cls s /\ all_in cls t.
Proof. unfold all_in. rewrite forallb_app. apply andb_true_iff. Qed.

Section exec.
Context {A X : Type} `{EqDecision A} (bs : list (block A)) (act : A -> Z -> M X unit) (fallen : Z).

#[local] Instance next_eq_dec : EqDecision next.
Proof. solve_decision. Defined.

#[local] Abbreviation exec := (exec bs act fallen).
#[local] Abbreviation step := (step bs act fallen).
#[local] Abbreviation perform := (perform act).

(** ** Running in pieces *)

Lemma exec_app xs : forall cs p ys s,
  exec cs p (xs ++ ys) s =
  bind (exec cs p xs) (fun r => let '(cs, p, out) := r in if out : bool then ret r else exec cs p ys) s.
Proof.
  induction xs as [|b xs IH]; intros cs p ys s; [done|]. cbn [exec app]. unfold Ragel.exec at 1 3.
  fold exec. rewrite bind_assoc. apply bind_ext. intros [[cs' p'] [|]] s'; [done|apply IH].
Qed.

Lemma perform_app xs ys p s : perform (xs ++ ys) p s = bind (perform xs p) (fun _ => perform ys p) s.
Proof.
  revert s. induction xs as [|a xs IH]; intros s; [done|]. cbn [Ragel.perform app]. rewrite bind_assoc.
  apply bind_ext. intros [] s'. apply IH.
Qed.

(** Where a run stops: it reads a prefix of its input, the character it leaves at included. *)
Lemma exec_position input : forall cs p s cs' p' out s', exec cs p input s = Ok (cs', p', out) s' ->
  p <= p' <= p + Z.of_nat (length input) /\ (out = false -> p' = p + Z.of_nat (length input)).
Proof.
  induction input as [|b input IH]; intros cs p s cs' p' out s' E.
  - injection E as <- <- <- <-. cbn [length]. lia.
  - cbn [Ragel.exec] in E. apply bind_returns in E as ([[cs1 p1] o1] & s1 & E1 & E).
    assert (p <= p1 <= p + 1 /\ (o1 = false -> p1 = p + 1)) as [Hp1 Ho1].
    { unfold Ragel.step in E1. destruct (trans bs cs b) as [[acts [n|n]]|].
      - apply bind_returns in E1 as ([] & s2 & _ & E1). injection E1 as E1 _.
        destruct (n =? 0); injection E1 as <- <- <-; split; lia || done.
      - apply bind_returns in E1 as ([] & s2 & _ & E1). injection E1 as <- <- <- <-. lia.
      - injection E1 as <- <- <- <-. lia. }
    cbn [length]. destruct o1.
    + injection E as <- <- <- <-. split; [lia|done].
    + specialize (Ho1 eq_refl) as ->. apply IH in E as [? ?]. split; [lia|]. intros ->. lia.
Qed.

(** ** Moves, decided for all characters of a class *)

(** In state [cs] every character of [cls] runs [acts] and leads to [cs']. *)
Definition moves (cs : Z) (cls : byte -> bool) (acts : list A) (cs' : Z) : bool :=
  negb (cs' =? 0) &&
  forallb (fun b => implb (cls b) (bool_decide (trans bs cs b = Some (acts, GOTO cs')))) all_bytes.

Lemma moves_step cs cls acts cs' b p s s' : checked (moves cs cls acts cs') -> cls b = true ->
  perform acts p s = Ok tt s' -> step cs p b s = Ok (cs', p + 1, false) s'.
Proof.
  intros [[Hn Hm]%andb_true_iff] Hb Ea. pose proof (all_bytes_ok _ Hm b) as Hm'. cbn beta in Hm'.
  rewrite Hb in Hm'. apply bool_decide_eq_true in Hm'. unfold Ragel.step. rewrite Hm'.
  run Ea. apply negb_true_iff in Hn. by rewrite Hn.
Qed.

Lemma exec_move cs cls acts cs' b ys p s s' : checked (moves cs cls acts cs') -> cls b = true ->
  perform acts p s = Ok tt s' -> exec cs p (b :: ys) s = exec cs' (p + 1) ys s'.
Proof. intros Hm Hb Ea. cbn [Ragel.exec]. by run (moves_step _ _ _ _ _ _ _ _ Hm Hb Ea). Qed.

(** A state that loops on a class reads a whole text of it. *)
Lemma exec_loop cs cls xs : forall ys p s, checked (moves cs cls [] cs) -> all_in cls xs ->
  exec cs p (xs ++ ys) s = exec cs (p + Z.of_nat (length xs)) ys s.
Proof.
  induction xs as [|b xs IH]; intros ys p s Hm Hx; [cbn [length app]; f_equal; lia|].
  apply all_in_cons in Hx as [Hb Hx]. cbn [app]. rewrite (exec_move cs cls [] cs _ _ _ _ s Hm Hb) by done.
  rewrite IH by done. f_equal. cbn [length]. lia.
Qed.

(** Literal text: a character at a time. *)
Definition lit (c : byte) (b : byte) : bool := bool_decide (b = c).

Lemma lit_refl c : lit c c = true.
Proof. by apply bool_decide_eq_true. Qed.

Lemma exec_char cs c acts cs' ys p s s' : checked (moves cs (lit c) acts cs') ->
  perform acts p s = Ok tt s' -> exec cs p (c :: ys) s = exec cs' (p + 1) ys s'.
Proof. intros Hm Ea. by eapply exec_move, Ea; [|apply lit_refl]. Qed.

(** A literal text without actions, through the states of [path]. *)
Fixpoint spells (cs : Z) (text : list byte) (path : list Z) : bool :=
  match text, path with
  | [], [] => true
  | c :: text, cs' :: path => moves cs (lit c) [] cs' && spells cs' text path
  | _, _ => false
  end.

Lemma exec_spell text : forall cs path ys p s, checked (spells cs text path) ->
  exec cs p (text ++ ys) s = exec (List.last path cs) (p + Z.of_nat (length text)) ys s.
Proof.
  induction text as [|c text IH]; intros cs [|cs' path] ys p s H; try by destruct H.
  - cbn [app length List.last]. f_equal. lia.
  - cbn [spells] in H. apply checked_andb in H as [Hm H]. cbn [app].
    rewrite (exec_char cs c [] cs' _ _ _ s Hm) by done. rewrite (IH cs' path) by done.
    cbn [length]. f_equal; [|lia]. destruct path as [|x path]; [done|].
    clear. cbn [List.last]. revert x. induction path as [|y path IH]; intros x; [done|]. cbn. apply IH.
Qed.
End exec.
