(* ===== verification/RagelRun.v ===== *)
(** * Runs of a generated machine on two memories

    What a table and its actions must satisfy so that every run returns and depends only on the
    bytes it has read.  [flags] says what a state knows of the parser; the table is checked,
    for every state and character, to establish what it claims. *)

From S2P Require Import Prelude Ragel RagelSpec.

(** Looking a state up finds one of the blocks. *)
Lemma find_case_in {A} n (bs : list (block A)) f : find_case n bs = Some f -> List.In (CASE n f) bs.
Proof.
  induction bs as [|[m g|m a k] bs IH]; cbn [find_case]; [done| |by right; apply IH].
  destruct (Z.eqb_spec m n) as [->|]; [intros [= ->]; by left|by right; apply IH].
Qed.

Section table.
Context {A F : Type} (bs : list (block A)) (final last : Z).
(** What an action needs and leaves known, at a character; what stays known behind it. *)
Context (flow1 : byte -> A -> F -> option F) (adv : byte -> F -> F) (flags : Z -> F) (leF : F -> F -> bool).
(** The states of which something is claimed. *)
Context (good : Z -> bool).

Fixpoint flow (b : byte) (acts : list A) (f : F) : option F :=
  match acts with
  | [] => Some f
  | a :: acts => match flow1 b a f with Some f => flow b acts f | None => None end
  end.

(** What a state does with a character: run these actions, go there. *)
Definition move_safe (cs : Z) (b : byte) (acts : list A) (k : next) : bool :=
  match flow b acts (flags cs) with
  | Some f =>
      match k with
      | GOTO n => if n =? 0 then match acts with [] => true | _ => false end
                  else (0 <? n) && (n <? final) && implb (good n) (leF (flags n) (adv b f))
      | BREAK n => (final <=? n) && (n <=? last) && good n && leF (flags n) (adv b f)
      end
  | None => false
  end.
Definition block_safe (x : block A) : bool :=
  match x with
  | TR _ _ _ => true
  | CASE cs f =>
      forallb (fun b =>
        match f (s8 (byte.unsigned b)) with
        | St n => implb (good cs) (move_safe cs b [] (GOTO n))
        | Tr t => match find_tr t bs with Some (acts, k) => implb (good cs) (move_safe cs b acts k) | None => false end
        end) all_bytes
  end.
Definition has_case (n : Z) : bool := match find_case n bs with Some _ => true | None => false end.
Definition table_ok : bool :=
  forallb block_safe bs && forallb has_case (Z.of_nat <$> seq 1 (Z.to_nat last)) && negb (has_case 0) &&
  (0 <? final) && (final <=? last + 1).

Hypothesis Htable : checked table_ok.

Lemma trans_safe cs b acts k : good cs = true -> trans bs cs b = Some (acts, k) -> move_safe cs b acts k = true.
Proof.
  intros Hg. unfold trans. destruct (find_case cs bs) as [f|] eqn:Ef; [|done]. apply find_case_in in Ef.
  apply checked_andb in Htable as [[[[[Ht] _]%checked_andb _]%checked_andb _]%checked_andb _]. rewrite forallb_forall in Ht. specialize (Ht _ Ef).
  cbn [block_safe] in Ht. pose proof (all_bytes_ok _ Ht b) as Hb. cbn beta in Hb.
  destruct (f (s8 (byte.unsigned b))) as [n|t]; [intros [= <- <-]; by rewrite Hg in Hb|].
  intros Et. by rewrite Et, Hg in Hb.
Qed.

(** The path of a run depends on its input alone; does it keep to good states? *)
Definition stays1 (cs : Z) (b : byte) : bool :=
  match trans bs cs b with Some (_, GOTO n) => (n =? 0) || good n | _ => true end.
Fixpoint stays (cs : Z) (input : list byte) : bool :=
  match input with
  | [] => true
  | b :: input =>
      stays1 cs b && match trans bs cs b with Some (_, GOTO n) => stays n input | _ => true end
  end.

(** A known state does something with every character. *)
Lemma trans_total cs b : 1 <= cs <= last -> exists acts k, trans bs cs b = Some (acts, k).
Proof.
  intros Hc. unfold trans. apply checked_andb in Htable as [[[[[Ht] [Hl]]%checked_andb _]%checked_andb _]%checked_andb _]. rewrite forallb_forall in Ht, Hl.
  assert (has_case cs = true) as Hh.
  { apply Hl, list_elem_of_In, list_elem_of_fmap. exists (Z.to_nat cs). split; [lia|apply elem_of_seq; lia]. }
  unfold has_case in Hh. destruct (find_case cs bs) as [f|] eqn:Ef; [|done]. apply find_case_in in Ef.
  specialize (Ht _ Ef). cbn [block_safe] in Ht. pose proof (all_bytes_ok _ Ht b) as Hb. cbn beta in Hb.
  destruct (f (s8 (byte.unsigned b))) as [n|t]; [eauto|].
  destruct (find_tr t bs) as [[acts k]|]; [eauto|done].
Qed.

Lemma trans_error b : trans bs 0 b = None.
Proof.
  apply checked_andb in Htable as [[[_ [H]]%checked_andb _]%checked_andb _]. unfold has_case, trans in *.
  by destruct (find_case 0 bs).
Qed.
Lemma final_pos : 0 < final <= last + 1.
Proof. apply checked_andb in Htable as [[_ [H]]%checked_andb [H']]. apply Z.ltb_lt in H. apply Z.leb_le in H'. lia. Qed.

(** ** Runs *)

Context {St C : Type} (act : list byte -> Z -> A -> Z -> M (St * list C) unit) (fallen : Z) (cut : C -> C).
(** What is known while the actions of the character at [p] run, and before it is read. *)
Context (during rest_ : list byte -> F -> Z -> St -> Prop) (same : relation St) `{!PreOrder same}.

Definition fits_int (b : list byte) (len : Z) : Prop := 0 < len <= Z.of_nat (length b) /\ len < 2 ^ 31.
Definition agree (q : Z) (b1 b2 : list byte) : Prop := take (Z.to_nat q) b1 = take (Z.to_nat q) b2.

Record Laws : Prop := {
  law_error : forall buffer f p h, rest_ buffer f p h -> rest_ buffer (flags 0) p h;
  law_start : forall buffer f p h, rest_ buffer f p h -> 0 <= p /\ during buffer f p h;
  law_next : forall buffer f f' p h b, during buffer f p h -> 0 <= p -> buffer !! Z.to_nat p = Some b ->
    leF f' (adv b f) = true -> rest_ buffer f' (p + 1) h;
  law_act : forall b1 len1 b2 len2 q b a f f' p h c1 c2, fits_int b1 len1 -> fits_int b2 len2 ->
    q <= len1 -> q <= len2 -> agree q b1 b2 -> during b1 f p h -> b1 !! Z.to_nat p = Some b ->
    flow1 b a f = Some f' -> 0 <= p < q ->
    exists h' d1 d2, act b1 len1 a p (h, c1) = Ok tt (h', c1 ++ d1) /\ act b2 len2 a p (h, c2) = Ok tt (h', c2 ++ d2) /\
      map cut d1 = map cut d2 /\ during b1 f' p h' /\ same h h' }.
Hypothesis L : Laws.

Definition known (cs : Z) : Prop := 0 <= cs <= last.
Definition rest (buffer : list byte) (cs p : Z) (h : St) : Prop := rest_ buffer (flags cs) p h.

Section alike.
Context (b1 b2 : list byte) (len1 len2 q : Z) (F1 : fits_int b1 len1) (F2 : fits_int b2 len2).
Context (Q1 : q <= len1) (Q2 : q <= len2) (Ag : agree q b1 b2).

Lemma perform_alike b acts : forall f f' p h c1 c2, during b1 f p h -> b1 !! Z.to_nat p = Some b ->
  flow b acts f = Some f' -> 0 <= p < q ->
  exists h' d1 d2, perform (act b1 len1) acts p (h, c1) = Ok tt (h', c1 ++ d1) /\
    perform (act b2 len2) acts p (h, c2) = Ok tt (h', c2 ++ d2) /\ map cut d1 = map cut d2 /\
    during b1 f' p h' /\ same h h'.
Proof.
  induction acts as [|a acts IH]; intros f f' p h c1 c2 D Hb Hf Hp; cbn [flow perform] in *.
  - injection Hf as <-. exists h, [], []. by rewrite !app_nil_r.
  - destruct (flow1 b a f) as [f1|] eqn:E1; [|done].
    destruct (law_act L b1 len1 b2 len2 q b a f f1 p h c1 c2 F1 F2 Q1 Q2 Ag D Hb E1 Hp)
      as (h1 & d1 & d2 & A1 & A2 & Hd & D1 & S1).
    destruct (IH f1 f' p h1 (c1 ++ d1) (c2 ++ d2) D1 Hb Hf Hp) as (h2 & e1 & e2 & B1 & B2 & He & D2 & S2).
    exists h2, (d1 ++ e1), (d2 ++ e2). run A1. run A2. rewrite !app_assoc, !map_app, Hd, He.
    split_and!; [done..|by etrans].
Qed.

(** Both memories are read alike. *)
Definition alike_from (cs p : Z) (h : St) (r : Z * Z * bool) (h' : St) : Prop :=
  let '(cs', p', out) := r in
  same h h' /\
  (cs <> 0 -> known cs' /\ (cs' = 0 \/ good cs' = true) /\ rest b1 cs' p' h' /\ if out : bool then cs' = 0 \/ final <= cs' else 0 < cs' < final) /\
  (cs = 0 -> h' = h /\ p' = p /\ cs' = fallen /\ out = true).

Lemma step_alike cs p b h c1 c2 : known cs -> good cs = true -> stays1 cs b = true -> rest b1 cs p h -> b1 !! Z.to_nat p = Some b -> p < q ->
  exists r h' d1 d2,
    step bs (act b1 len1) fallen cs p b (h, c1) = Ok r (h', c1 ++ d1) /\
    step bs (act b2 len2) fallen cs p b (h, c2) = Ok r (h', c2 ++ d2) /\
    map cut d1 = map cut d2 /\ alike_from cs p h r h'.
Proof.
  intros Hk Hg Hst R Hb Hl. destruct (law_start L _ _ _ _ R) as [Hp D]. unfold step, stays1 in *.
  destruct (decide (cs = 0)) as [->|Hn].
  - rewrite trans_error. eexists _, h, [], []. rewrite !app_nil_r. by split_and!.
  - destruct (trans_total cs b ltac:(unfold known in Hk; lia)) as (acts & k & Et). rewrite Et.
    rewrite Et in Hst. pose proof (trans_safe _ _ _ _ Hg Et) as Hm. unfold move_safe in Hm.
    destruct (flow b acts (flags cs)) as [f|] eqn:Ef; [|done]. pose proof final_pos as Hf.
    destruct (perform_alike b acts (flags cs) f p h c1 c2 D Hb Ef ltac:(lia)) as (h' & d1 & d2 & E1 & E2 & Hd & D' & Hs).
    run E1. run E2. destruct k as [n|n].
    + revert Hst. destruct (Z.eqb_spec n 0) as [->|Hn0]; intros Hst.
      * destruct acts; [|done]. cbn in E1, E2. injection E1 as <- E1. eexists _, h, d1, d2.
        split_and!; [reflexivity|reflexivity|done|]. split; [done|]. split; [|done]. intros _.
        split; [unfold known in *; lia|]. split; [by left|]. split; [by eapply (law_error L)|by left].
      * apply andb_true_iff in Hm as [[Hn1 Hn2]%andb_true_iff Hle].
        eexists _, h', d1, d2. split_and!; [reflexivity|reflexivity|done|]. split; [done|]. split; [|done]. intros _.
        apply Z.ltb_lt in Hn1, Hn2. cbn [orb] in Hst. rewrite Hst in Hle.
        split; [unfold known in *; lia|]. split; [by right|]. split; [by eapply (law_next L)|lia].
    + apply andb_true_iff in Hm as [[[Hn1 Hn2]%andb_true_iff Hgn]%andb_true_iff Hle].
      eexists _, h', d1, d2. split_and!; [reflexivity|reflexivity|done|]. split; [done|]. split; [|done]. intros _.
      apply Z.leb_le in Hn1, Hn2. split; [unfold known; lia|].
      split; [by right|]. split; [by eapply (law_next L)|by right].
Qed.
Lemma exec_alike input : forall cs p h c1 c2,
  known cs -> good cs = true -> stays cs input = true -> rest b1 cs p h -> take (length input) (drop (Z.to_nat p) b1) = input -> p + Z.of_nat (length input) <= q ->
  exists cs' p' out h' d1 d2,
    exec bs (act b1 len1) fallen cs p input (h, c1) = Ok (cs', p', out) (h', c1 ++ d1) /\
    exec bs (act b2 len2) fallen cs p input (h, c2) = Ok (cs', p', out) (h', c2 ++ d2) /\
    map cut d1 = map cut d2 /\ same h h' /\
    (cs <> 0 -> known cs' /\ (cs' = 0 \/ good cs' = true) /\ rest b1 cs' p' h' /\
      if out then cs' = 0 \/ final <= cs' else input <> [] -> 0 < cs' < final) /\
    (cs = 0 -> h' = h /\ p' = p /\ (input <> [] -> cs' = fallen)).
Proof.
  induction input as [|b input IH]; intros cs p h c1 c2 Hk Hg Hst R Hin Hl.
  - exists cs, p, false, h, [], []. rewrite !app_nil_r. split_and!; try done. intros _. split_and!; [done|by right|done|done].
  - cbn [length] in Hl. destruct (law_start L _ _ _ _ R) as [Hp _]. apply andb_true_iff in Hst as [Hst1 Hst].
    assert (b1 !! Z.to_nat p = Some b) as Hb.
    { rewrite <- (Nat.add_0_r (Z.to_nat p)), <- lookup_drop. cbn [length] in Hin.
      destruct (drop (Z.to_nat p) b1); [done|]. cbn in Hin. by injection Hin as ->. }
    assert (take (length input) (drop (Z.to_nat (p + 1)) b1) = input) as Hin'.
    { replace (Z.to_nat (p + 1)) with (Z.to_nat p + 1)%nat by lia. rewrite <- drop_drop. cbn [length] in Hin.
      destruct (drop (Z.to_nat p) b1); [done|]. cbn in Hin |- *. injection Hin as _ Hin. by rewrite drop_0. }
    destruct (step_alike cs p b h c1 c2 Hk Hg Hst1 R Hb ltac:(lia)) as ([[cs1 p1] out] & h1 & d1 & d2 & E1 & E2 & Hd & Hs & Hc & H0).
    cbn [exec]. run E1. run E2. destruct (decide (cs = 0)) as [->|Hn].
    + destruct (H0 eq_refl) as (-> & -> & -> & ->). by exists fallen, p, true, h, d1, d2.
    + destruct (Hc Hn) as (Hk1 & Hg1 & R1 & Ho). destruct out; [by exists cs1, p1, true, h1, d1, d2|].
      assert (p1 = p + 1) as ->.
      { destruct (exec_position bs (act b1 len1) fallen [b] cs p (h, c1) cs1 p1 false (h1, c1 ++ d1))
          as [_ Hp1]; [by cbn [exec]; run E1|by apply Hp1]. }
      assert (good cs1 = true) as Hg1' by (destruct Hg1; [lia|done]).
      assert (stays cs1 input = true) as Hst'.
      { unfold step in E1. destruct (trans bs cs b) as [[acts [n|n]]|] eqn:Et; [|by apply bind_returns in E1 as ([] & ? & _ & E1)|done].
        apply bind_returns in E1 as ([] & ? & _ & E1). destruct (n =? 0); [done|]. by injection E1 as <- _. }
      destruct (IH cs1 (p + 1) h1 (c1 ++ d1) (c2 ++ d2) Hk1 Hg1' Hst' R1 Hin' ltac:(lia))
        as (cs' & p' & out & h' & e1 & e2 & G1 & G2 & He & Hs' & Hc' & _).
      exists cs', p', out, h', (d1 ++ e1), (d2 ++ e2). rewrite !app_assoc, !map_app, Hd, He.
      split_and!; [done|done|done|by etrans| |done]. intros _.
      destruct (Hc' ltac:(lia)) as (? & ? & ? & Hout). split_and!; [done..|]. destruct out; [done|]. intros _.
      destruct input as [|b' input]; [|by apply Hout]. cbn in G1. injection G1 as <- _ _ _. done.
Qed.
End alike.

Lemma stays_app xs : forall cs ys, stays cs (xs ++ ys) = true -> stays cs xs = true.
Proof.
  induction xs as [|b xs IH]; intros cs ys H; [done|]. cbn [app stays] in *. apply andb_true_iff in H as [H1 H].
  rewrite H1. cbn [andb]. destruct (trans bs cs b) as [[acts [n|n]]|]; [by eapply IH|done..].
Qed.

Lemma stays_exec b len xs : forall cs ys p s cs' p' s', stays cs (xs ++ ys) = true ->
  exec bs (act b len) fallen cs p xs s = Ok (cs', p', false) s' -> stays cs' ys = true.
Proof.
  induction xs as [|x xs IH]; intros cs ys p s cs' p' s' H E; [by injection E as <- _ _|].
  cbn [app stays] in H. apply andb_true_iff in H as [_ H]. cbn [exec] in E.
  apply bind_returns in E as ([[cs1 p1] out] & s1 & E1 & E2). destruct out; [by injection E2|].
  eapply IH; [|exact E2]. unfold step in E1. destruct (trans bs cs x) as [[acts [n|n]]|]; [| |done].
  - apply bind_returns in E1 as ([] & ? & _ & E1). destruct (n =? 0); [done|]. by injection E1 as <- _.
  - by apply bind_returns in E1 as ([] & ? & _ & E1).
Qed.

(** Going on, in a memory that begins with what was read: the calls are those of one run. *)
Lemma exec_continue b1 len1 b2 len2 cs0 h0 k m cs h1 c1 :
  fits_int b1 len1 -> fits_int b2 len2 -> Z.of_nat k <= len1 -> (k <= m)%nat -> Z.of_nat m <= len2 ->
  take k b1 = take k b2 -> known cs0 -> cs0 <> 0 -> good cs0 = true -> stays cs0 (take m b2) = true ->
  (forall b, rest b cs0 0 h0) ->
  exec bs (act b1 len1) fallen cs0 0 (take k b1) (h0, []) = Ok (cs, Z.of_nat k, false) (h1, c1) ->
  exists r h2 d c2, exec bs (act b2 len2) fallen cs (Z.of_nat k) (slice k (m - k) b2) (h1, []) = Ok r (h2, d) /\
    exec bs (act b2 len2) fallen cs0 0 (take m b2) (h0, []) = Ok r (h2, c2) /\ map cut (c1 ++ d) = map cut c2.
Proof.
  intros F1 F2 Hk Hkm Hm Ag Hkn Hn0 Hg0 Hst R0 E. pose proof F1 as [L1 _]. pose proof F2 as [L2 _].
  assert (take m b2 = take k b2 ++ slice k (m - k) b2) as Em.
  { unfold slice. rewrite <- (take_drop k (take m b2)), take_take, Nat.min_l by lia. f_equal.
    rewrite take_drop_commute. do 2 f_equal. lia. }
  assert (agree (Z.of_nat k) b2 b1) as Ag' by (unfold agree; by rewrite !Nat2Z.id).
  assert (length (take k b2) = k) as Lk by (rewrite length_take; lia).
  pose proof Hst as Hst1. rewrite Em in Hst1. apply stays_app in Hst1 as Hst2.
  destruct (exec_alike b2 b1 len2 len1 (Z.of_nat k) F2 F1 ltac:(lia) Hk Ag' (take k b2) cs0 0 h0 [] [] Hkn Hg0 Hst2 (R0 b2))
    as (cs' & p' & out & h' & d2 & d1 & E2 & E1 & Hd & Hs & Hc & _);
    [by rewrite drop_0, Lk|rewrite Lk; lia|].
  rewrite <- Ag, E in E1. injection E1 as <- <- <- <- ->. destruct (Hc Hn0) as (Hk1 & Hg1 & R1 & Ho).
  assert (good cs = true) as Hg.
  { destruct Hg1 as [->|]; [|done]. destruct (decide (take k b2 = [])) as [E0|E0]; [|specialize (Ho E0); lia].
    rewrite E0 in E2. injection E2 as ? _ _ _. congruence. }
  pose proof (stays_exec b2 len2 _ _ _ _ _ _ _ _ Hst1 E2) as Hst3.
  destruct (exec_alike b2 b2 len2 len2 (Z.of_nat m) F2 F2 Hm Hm eq_refl (slice k (m - k) b2) cs (Z.of_nat k) h1
    [] ([] ++ d2) Hk1 Hg Hst3 R1) as (cs' & p' & out & h2 & e1 & e2 & G1 & G2 & He & _).
  { unfold slice. rewrite Nat2Z.id, length_take. by rewrite Nat.min_l by (rewrite length_drop; lia). }
  { unfold slice. rewrite length_take, length_drop. lia. }
  exists (cs', p', out), h2, e1, (d2 ++ e2). split_and!; [done| |by rewrite !map_app, <- Hd, He].
  rewrite Em, exec_app. by run E2.
Qed.
End table.

(** When all states are good every run stays. *)
Lemma stays_all {A} (bs : list (block A)) input : forall cs, stays bs (fun _ => true) cs input = true.
Proof.
  induction input as [|b input IH]; intros cs; [done|]. cbn [stays]. unfold stays1.
  destruct (trans bs cs b) as [[acts [n|n]]|]; [|done..]. by rewrite orb_true_r, IH.
Qed.

(** ** What the machine does not look at *)

Section tag.
Context {A St C : Type} (bs : list (block A)) (act : A -> Z -> M (St * list C) unit) (fallen : Z) (tag : St -> St).

Definition tag_out {X} (o : outcome (St * list C) X) : outcome (St * list C) X :=
  match o with
  | Ok a (h, c) => Ok a (tag h, c) | Throw e (h, c) => Throw e (tag h, c) | Undef u => Undef u
  end.

Lemma tag_bind {X Y} (m m' : M (St * list C) X) (k k' : X -> M (St * list C) Y) h c :
  m' (tag h, c) = tag_out (m (h, c)) -> (forall a h c, k' a (tag h, c) = tag_out (k a (h, c))) ->
  bind m' k' (tag h, c) = tag_out (bind m k (h, c)).
Proof. intros Em Ek. unfold bind. rewrite Em. destruct (m (h, c)) as [a [h1 c1]|e [h1 c1]|u]; cbn; done. Qed.

Hypothesis Hact : forall a p h c, act a p (tag h, c) = tag_out (act a p (h, c)).

Lemma tag_perform acts p : forall h c, perform act acts p (tag h, c) = tag_out (perform act acts p (h, c)).
Proof. induction acts as [|a acts IH]; intros h c; [done|]. cbn [perform]. apply tag_bind; [apply Hact|done]. Qed.

Lemma tag_exec input : forall cs p h c,
  exec bs act fallen cs p input (tag h, c) = tag_out (exec bs act fallen cs p input (h, c)).
Proof.
  induction input as [|b input IH]; intros cs p h c; [done|]. cbn [exec]. apply tag_bind.
  - unfold step. destruct (trans bs cs b) as [[acts k]|]; [|done].
    apply tag_bind; [apply tag_perform|]. by destruct k.
  - intros [[cs1 p1] [|]] h1 c1; [done|apply IH].
Qed.
End tag.
