(* ===== verification/Digits.v ===== *)
(** * Numbers in texts: strtol, atoi and decimals

    [strtol] and [atoi] of the C library on the memory behind a pointer, and what they make of
    texts of digits; the decimals that streams print are read back. *)

From stdpp Require Import pretty.
From S2P Require Import Prelude Http HttpSpec HttpParser RagelSpec.

(** [strtol(s, NULL, base)], for base 10 and 16: [None] when no character of [s] stops it. *)
Definition digit_value (base : Z) (b : byte) : option Z :=
  let c := byte.unsigned b in
  let v := if (48 <=? c) && (c <=? 57) then c - 48
           else if (65 <=? c) && (c <=? 90) then c - 55
           else if (97 <=? c) && (c <=? 122) then c - 87 else 99 in
  if v <? base then Some v else None.
Fixpoint digits_from (base : Z) (s : bytes) (a : Z) : option Z :=
  match s with
  | [] => None
  | b :: s => match digit_value base b with Some d => digits_from base s (a * base + d) | None => Some a end
  end.
Definition skip_0x (base : Z) (s : bytes) : bytes :=
  match s with
  | z :: x :: d :: _ =>
      if (base =? 16) && (byte.unsigned z =? 48) && ((byte.unsigned x =? 120) || (byte.unsigned x =? 88)) &&
         match digit_value 16 d with Some _ => true | None => false end
      then drop 2 s else s
  | _ => s
  end.
Fixpoint strtol (base : Z) (s : bytes) : option Z :=
  match s with
  | [] => None
  | b :: s' =>
      if isspace b then strtol base s'
      else if byte.unsigned b =? 45 then (fun v => clamp_long (- v)) <$> digits_from base (skip_0x base s') 0
      else if byte.unsigned b =? 43 then clamp_long <$> digits_from base (skip_0x base s') 0
      else clamp_long <$> digits_from base (skip_0x base s) 0
  end.

(** ** Digits *)

Definition is_dec (b : byte) : bool := match digit_value 10 b with Some _ => true | None => false end.
Definition is_hex (b : byte) : bool := match digit_value 16 b with Some _ => true | None => false end.
Definition is_x (b : byte) : bool := (byte.unsigned b =? 120) || (byte.unsigned b =? 88).

Lemma dec_hex b : is_dec b = true -> is_hex b = true.
Proof.
  assert (forallb (fun b => implb (is_dec b) (is_hex b)) all_bytes = true) as H by (vm_compute; reflexivity).
  intros Hb. pose proof (all_bytes_ok _ H b) as Hf. clear H. cbn beta in Hf. by rewrite Hb in Hf.
Qed.
Lemma all_dec_hex s : all_in is_dec s -> all_in is_hex s.
Proof. unfold all_in. rewrite !forallb_forall. intros H b Hb. by apply dec_hex, H. Qed.

(** The value of a text of digits. *)
Definition value_of (base : Z) (s : bytes) : Z :=
  fold_left (fun a b => a * base + default 0 (digit_value base b)) s 0.

Lemma digits_from_ok base ds b rest : (forall d, List.In d ds -> digit_value base d <> None) -> digit_value base b = None ->
  forall a, digits_from base (ds ++ b :: rest) a =
    Some (fold_left (fun a b => a * base + default 0 (digit_value base b)) ds a).
Proof.
  intros Hd Hb. induction ds as [|d ds IH]; intros a; cbn [app digits_from fold_left]; [by rewrite Hb|].
  destruct (digit_value base d) as [v|] eqn:E; [|by destruct (Hd d); [left|]]. cbn [default]. apply IH.
  intros x Hx. apply Hd. by right.
Qed.

Lemma digit_plain b base : base = 10 \/ base = 16 -> digit_value base b <> None ->
  isspace b = false /\ (byte.unsigned b =? 45) = false /\ (byte.unsigned b =? 43) = false /\
  (byte.unsigned b =? 120) || (byte.unsigned b =? 88) = false.
Proof.
  intros Hbase. assert (forallb (fun b => implb (is_hex b) (negb (isspace b) && negb (byte.unsigned b =? 45) &&
    negb (byte.unsigned b =? 43) && negb ((byte.unsigned b =? 120) || (byte.unsigned b =? 88)))) all_bytes = true) as H
    by (vm_compute; reflexivity).
  intros Hb. pose proof (all_bytes_ok _ H b) as Hf. clear H. cbn beta in Hf.
  assert (is_hex b = true) as E.
  { destruct Hbase as [-> | ->]; [|unfold is_hex; by destruct (digit_value 16 b)].
    apply dec_hex. unfold is_dec. by destruct (digit_value 10 b). }
  rewrite E in Hf. cbn [implb] in Hf. apply andb_true_iff in Hf as [[[?%negb_true_iff ?%negb_true_iff]%andb_true_iff
    ?%negb_true_iff]%andb_true_iff ?%negb_true_iff]. done.
Qed.

Lemma skip_0x_digits base ds b rest : base = 10 \/ base = 16 -> (forall d, List.In d ds -> digit_value base d <> None) ->
  is_x b = false \/ base = 10 -> ds <> [] -> skip_0x base (ds ++ b :: rest) = ds ++ b :: rest.
Proof.
  intros Hbase Hd Hx Hne. destruct ds as [|d ds]; [done|]. cbn [app].
  assert (forall x, (base =? 16) && (byte.unsigned x =? 48) && is_x b = true -> False) as Hno.
  { intros x H. destruct Hx as [Hx| ->]; [|done]. rewrite Hx, andb_false_r in H. done. }
  destruct ds as [|d2 ds]; cbn [app skip_0x].
  - destruct rest as [|r rest]; [done|]. fold (is_x b). destruct ((base =? 16) && _ && is_x b) eqn:E; [by apply Hno in E|done].
  - destruct (ds ++ b :: rest) as [|r l] eqn:El; [done|].
    destruct (digit_plain d2 base Hbase ltac:(apply Hd; right; by left)) as (_ & _ & _ & ->). by rewrite !andb_false_r.
Qed.

Lemma strtol_digits base ds b rest : base = 10 \/ base = 16 -> (forall d, List.In d ds -> digit_value base d <> None) ->
  digit_value base b = None -> is_x b = false \/ base = 10 -> ds <> [] ->
  strtol base (ds ++ b :: rest) = Some (clamp_long (value_of base ds)).
Proof.
  intros Hbase Hd Hb Hx Hne. destruct ds as [|d ds]; [done|].
  destruct (digit_plain d base Hbase ltac:(apply Hd; by left)) as (E1 & E2 & E3 & _).
  cbn [app strtol]. rewrite E1, E2, E3. change (d :: ds ++ b :: rest) with ((d :: ds) ++ b :: rest).
  rewrite (skip_0x_digits base (d :: ds) b rest Hbase Hd Hx Hne).
  by rewrite (digits_from_ok base (d :: ds) b rest Hd Hb).
Qed.

(** ** Decimals *)

Lemma dec_not_space b : is_dec b = true ->
  isspace b = false /\ (byte.unsigned b =? 45) = false /\ (byte.unsigned b =? 43) = false /\ (byte.unsigned b =? 0) = false /\
  ((48 <=? byte.unsigned b) && (byte.unsigned b <=? 57)) = true.
Proof.
  assert (forallb (fun b => implb (is_dec b) (negb (isspace b) && negb (byte.unsigned b =? 45) &&
    negb (byte.unsigned b =? 43) && negb (byte.unsigned b =? 0) && ((48 <=? byte.unsigned b) && (byte.unsigned b <=? 57)))) all_bytes = true) as H
    by (vm_compute; reflexivity).
  intros Hb. pose proof (all_bytes_ok _ H b) as Hf. clear H. cbn beta in Hf. rewrite Hb in Hf. cbn [implb] in Hf.
  apply andb_true_iff in Hf as [[[[?%negb_true_iff ?%negb_true_iff]%andb_true_iff ?%negb_true_iff]%andb_true_iff
    ?%negb_true_iff]%andb_true_iff ?]. done.
Qed.

Lemma not_dec b : is_dec b = false -> ((48 <=? byte.unsigned b) && (byte.unsigned b <=? 57)) = false.
Proof.
  assert (forallb (fun b => implb ((48 <=? byte.unsigned b) && (byte.unsigned b <=? 57)) (is_dec b)) all_bytes = true) as H
    by (vm_compute; reflexivity).
  intros Hb. pose proof (all_bytes_ok _ H b) as Hf. clear H. cbn beta in Hf. rewrite Hb in Hf.
  by destruct ((48 <=? byte.unsigned b) && (byte.unsigned b <=? 57)).
Qed.

Lemma c_str_dec s t : all_in is_dec s -> c_str (s ++ t) = s ++ c_str t.
Proof.
  induction s as [|b s IH]; intros Hs; [done|]. apply all_in_cons in Hs as [Hb Hs].
  destruct (dec_not_space b Hb) as (_ & _ & _ & E & _). cbn [app c_str]. by rewrite E, IH.
Qed.
Lemma digits_stop s b t a : all_in is_dec s -> is_dec b = false -> HttpParser.digits (s ++ c_str (b :: t)) a = HttpParser.digits s a.
Proof.
  revert a. induction s as [|x s IH]; intros a Hs Hb.
  - cbn [app c_str]. destruct (byte.unsigned b =? 0); [done|]. cbn [HttpParser.digits]. by rewrite not_dec.
  - apply all_in_cons in Hs as [Hx Hs]. destruct (dec_not_space x Hx) as (_ & _ & _ & _ & E).
    cbn [app HttpParser.digits]. by rewrite E, IH.
Qed.
(** The status ends at the first character that is not a digit. *)
Lemma atoi_stop s b t : s <> [] -> all_in is_dec s -> is_dec b = false -> atoi (c_str (s ++ b :: t)) = atoi s.
Proof.
  intros Hne Hs Hb. rewrite c_str_dec by done. destruct s as [|x s]; [done|]. pose proof Hs as [Hx _]%all_in_cons.
  destruct (dec_not_space x Hx) as (E1 & E2 & E3 & _). cbn [app atoi]. rewrite E1, E2, E3.
  change (x :: s ++ c_str (b :: t)) with ((x :: s) ++ c_str (b :: t)). by rewrite digits_stop.
Qed.

Lemma digits_dec s a : forallb HttpSpec.is_digit s = true ->
  HttpParser.digits s a = fold_left (fun a b => a * 10 + (byte.unsigned b - 48)) s a.
Proof.
  revert a. induction s as [|b s IH]; intros a Hs; [done|]. cbn [forallb] in Hs. apply andb_true_iff in Hs as [Hb Hs].
  cbn [HttpParser.digits fold_left]. unfold HttpSpec.is_digit in Hb. by rewrite Hb, IH.
Qed.
Lemma digit_dec b : HttpSpec.is_digit b = true -> is_dec b = true.
Proof.
  assert (forallb (fun b => implb (HttpSpec.is_digit b) (is_dec b)) all_bytes = true) as H by (vm_compute; reflexivity).
  intros Hb. pose proof (all_bytes_ok _ H b) as Hf. clear H. cbn beta in Hf. by rewrite Hb in Hf.
Qed.
Lemma digits_all s : forallb HttpSpec.is_digit s = true -> all_in is_dec s.
Proof. unfold all_in. rewrite !forallb_forall. intros H b Hb. by apply digit_dec, H. Qed.

Lemma atoi_dec n : 0 <= n < 2 ^ 31 -> atoi (dec n) = n /\ all_in is_dec (dec n) /\ dec n <> [].
Proof.
  intros Hn. unfold dec. destruct (pretty_dec (Z.to_N (u32 n))) as (H1 & H2 & H3).
  set (s := str (pretty (Z.to_N (u32 n)))) in *. split; [|split; [by apply digits_all|done]].
  assert (u32 n = n) as Eu by (apply uwrap_id; fits). rewrite Eu in H2.
  assert (HttpParser.digits s 0 = n) as Ed by (rewrite digits_dec by done; unfold dec_value in H2; lia).
  destruct s as [|b s]; [done|]. cbn [atoi].
  assert (is_dec b = true) as Hb by (apply digit_dec; cbn [forallb] in H1; by apply andb_true_iff in H1 as [? _]).
  destruct (dec_not_space b Hb) as (E1 & E2 & E3 & _). rewrite E1, E2, E3, Ed.
  assert (clamp_long n = n) as -> by (unfold clamp_long; fits; lia).
  unfold s32. apply swrap_id; [done|]. fits.
Qed.

