(* ===== verification/Http11Table.v ===== *)
(** * The state machine of HTTP requests (src/wyze/http/http11_parser.cpp)

    The code of the machine, block by block: [CASE n] is the code behind the label of state [n],
    a function of the next character; [TR n] the actions of a transition and the state it goes
    to, or leaves the machine in.  [widec] widens the characters that are allowed only when
    [uri_relaxed] is set. *)

From S2P Require Import Prelude Ragel.

(** The actions of http11_parser.rl *)
Inductive http_action :=
  | mark | start_field | write_field | start_value | write_value | act_request_method
  | act_request_uri | act_fragment | start_query | act_query_string | act_http_version
  | act_request_path | done_ | xml | json.

(** [_widec]: [^], [{] and [}] become 256 characters of their own, by [uri_relaxed] *)
Definition widec (relaxed : bool) (c : Z) : Z :=
  let wide := let w := s16 (128 + (c - -128)) in if relaxed then w + 256 else w in
  if c <? 123 then (if (94 <=? c) && (c <=? 94) then wide else c)
  else if c >? 123 then (if (125 <=? c) && (c <=? 125) then wide else c)
  else wide.

Definition http_blocks_1 (relaxed : bool) : list (block http_action) := [
  CASE 1 (fun c => sw c [(60, Tr 2); (64, Tr 3)] (if c >? 57 then (if (65 <=? c) && (c <=? 90) then Tr 0
      else St 0) else if c >=? 48 then Tr 0 else St 0));
  TR 0 [mark] (GOTO 2);
  CASE 2 (fun c => if c =? 32 then Tr 4 else if c >? 57 then (if (65 <=? c) && (c <=? 90) then St 175
      else St 0) else if c >=? 48 then St 175 else St 0);
  TR 4 [act_request_method] (GOTO 3);
  CASE 3 (fun c => let w := widec relaxed c in sw w [(32, Tr 6); (33, Tr 7); (35, Tr 8); (37, Tr 9);
      (47, Tr 10); (59, Tr 7); (61, Tr 7); (63, Tr 11); (64, Tr 7); (95, Tr 7); (126, Tr 7);
      (606, Tr 7); (635, Tr 7); (637, Tr 7)] (if w <? 65 then (if (36 <=? w) && (w <=? 57) then Tr 7
      else St 0) else if w >? 90 then (if (97 <=? w) && (w <=? 122) then Tr 12 else St 0) else Tr 12));
  TR 6 [mark; act_request_path; act_request_uri] (GOTO 4);
  TR 37 [act_request_path; act_request_uri] (GOTO 4);
  TR 43 [mark; act_fragment] (GOTO 4);
  TR 46 [act_fragment] (GOTO 4);
  TR 53 [start_query; act_query_string; act_request_uri] (GOTO 4)].

Definition http_blocks_2 (relaxed : bool) : list (block http_action) := [
  TR 57 [act_query_string; act_request_uri] (GOTO 4);
  CASE 4 (fun c => if c =? 72 then Tr 13 else St 0);
  TR 13 [mark] (GOTO 5);
  CASE 5 (fun c => if c =? 84 then St 6 else St 0);
  CASE 6 (fun c => if c =? 84 then St 7 else St 0);
  CASE 7 (fun c => if c =? 80 then St 8 else St 0);
  CASE 8 (fun c => if c =? 47 then St 9 else St 0);
  CASE 9 (fun c => if c =? 49 then St 10 else St 0);
  CASE 10 (fun c => if c =? 46 then St 11 else St 0);
  CASE 11 (fun c => if (48 <=? c) && (c <=? 49) then St 12 else St 0);
  CASE 12 (fun c => sw c [(10, Tr 21); (13, Tr 22)] (St 0));
  TR 21 [act_http_version] (GOTO 13);
  TR 30 [start_value; write_value] (GOTO 13);
  TR 33 [write_value] (GOTO 13);
  CASE 13 (fun c => sw c [(10, Tr 24); (13, Tr 25); (33, Tr 23); (124, Tr 23); (126, Tr 23)] (if c <? 42
      then (if c <? 11 then (if (1 <=? c) && (c <=? 8) then Tr 23 else St 0) else if c >? 31 then (if
      (35 <=? c) && (c <=? 39) then Tr 23 else St 0) else Tr 23) else if c >? 43 then (if c <? 48 then
      (if (45 <=? c) && (c <=? 46) then Tr 23 else St 0) else if c >? 57 then (if c >? 90 then (if
      (94 <=? c) && (c <=? 122) then Tr 23 else St 0) else if c >=? 65 then Tr 23 else St 0) else Tr 23)
      else Tr 23));
  TR 23 [start_field] (GOTO 14)].

Definition http_blocks_3 (relaxed : bool) : list (block http_action) := [
  CASE 14 (fun c => sw c [(33, St 14); (58, Tr 27); (124, St 14); (126, St 14)] (if c <? 42 then (if
      c <? 10 then (if (1 <=? c) && (c <=? 8) then St 14 else St 0) else if c >? 31 then (if (35 <=? c)
      && (c <=? 39) then St 14 else St 0) else St 14) else if c >? 43 then (if c <? 48 then (if
      (45 <=? c) && (c <=? 46) then St 14 else St 0) else if c >? 57 then (if c >? 90 then (if
      (94 <=? c) && (c <=? 122) then St 14 else St 0) else if c >=? 65 then St 14 else St 0) else St 14)
      else St 14));
  TR 27 [write_field] (GOTO 15);
  TR 29 [start_value] (GOTO 15);
  CASE 15 (fun c => sw c [(0, St 0); (9, Tr 29); (10, Tr 30); (13, Tr 31); (32, Tr 29); (127, St 0)]
      (Tr 28));
  TR 28 [start_value] (GOTO 16);
  CASE 16 (fun c => sw c [(0, St 0); (10, Tr 33); (13, Tr 34); (127, St 0)] (St 16));
  TR 22 [act_http_version] (GOTO 17);
  TR 31 [start_value; write_value] (GOTO 17);
  TR 34 [write_value] (GOTO 17);
  CASE 17 (fun c => if c =? 10 then St 13 else St 0);
  TR 24 [start_field; done_] (BREAK 348);
  TR 36 [done_] (BREAK 348)].

Definition http_blocks_4 (relaxed : bool) : list (block http_action) := [
  CASE 348 (fun c => sw c [(33, St 14); (58, Tr 27); (124, St 14); (126, St 14)] (if c <? 42 then (if
      c <? 10 then (if (1 <=? c) && (c <=? 8) then St 14 else St 0) else if c >? 31 then (if (35 <=? c)
      && (c <=? 39) then St 14 else St 0) else St 14) else if c >? 43 then (if c <? 48 then (if
      (45 <=? c) && (c <=? 46) then St 14 else St 0) else if c >? 57 then (if c >? 90 then (if
      (94 <=? c) && (c <=? 122) then St 14 else St 0) else if c >=? 65 then St 14 else St 0) else St 14)
      else St 14));
  TR 25 [start_field] (GOTO 18);
  CASE 18 (fun c => sw c [(10, Tr 36); (33, St 14); (58, Tr 27); (124, St 14); (126, St 14)] (if c <? 42
      then (if c <? 11 then (if (1 <=? c) && (c <=? 8) then St 14 else St 0) else if c >? 31 then (if
      (35 <=? c) && (c <=? 39) then St 14 else St 0) else St 14) else if c >? 43 then (if c <? 48 then
      (if (45 <=? c) && (c <=? 46) then St 14 else St 0) else if c >? 57 then (if c >? 90 then (if
      (94 <=? c) && (c <=? 122) then St 14 else St 0) else if c >=? 65 then St 14 else St 0) else St 14)
      else St 14));
  TR 7 [mark] (GOTO 19);
  CASE 19 (fun c => let w := widec relaxed c in sw w [(32, Tr 37); (33, St 19); (35, Tr 39);
      (37, St 24); (47, St 26); (59, St 19); (61, St 19); (63, Tr 42); (95, St 19); (126, St 19);
      (606, St 19); (635, St 19); (637, St 19)] (if w <? 64 then (if (36 <=? w) && (w <=? 57) then St 19
      else St 0) else if w >? 90 then (if (97 <=? w) && (w <=? 122) then St 19 else St 0) else St 19));
  TR 8 [mark; act_request_path; act_request_uri] (GOTO 20)].

Definition http_blocks_5 (relaxed : bool) : list (block http_action) := [
  TR 39 [act_request_path; act_request_uri] (GOTO 20);
  TR 55 [start_query; act_query_string; act_request_uri] (GOTO 20);
  TR 59 [act_query_string; act_request_uri] (GOTO 20);
  CASE 20 (fun c => let w := widec relaxed c in sw w [(32, Tr 43); (33, Tr 44); (37, Tr 45);
      (61, Tr 44); (95, Tr 44); (126, Tr 44); (606, Tr 44); (635, Tr 44); (637, Tr 44)] (if w <? 63 then
      (if (36 <=? w) && (w <=? 59) then Tr 44 else St 0) else if w >? 90 then (if (97 <=? w) &&
      (w <=? 122) then Tr 44 else St 0) else Tr 44));
  TR 44 [mark] (GOTO 21);
  CASE 21 (fun c => let w := widec relaxed c in sw w [(32, Tr 46); (33, St 21); (37, St 22);
      (61, St 21); (95, St 21); (126, St 21); (606, St 21); (635, St 21); (637, St 21)] (if w <? 63 then
      (if (36 <=? w) && (w <=? 59) then St 21 else St 0) else if w >? 90 then (if (97 <=? w) &&
      (w <=? 122) then St 21 else St 0) else St 21));
  TR 45 [mark] (GOTO 22)].

Definition http_blocks_6 (relaxed : bool) : list (block http_action) := [
  CASE 22 (fun c => if c <? 65 then (if (48 <=? c) && (c <=? 57) then St 23 else St 0) else if c >? 70
      then (if (97 <=? c) && (c <=? 102) then St 23 else St 0) else St 23);
  CASE 23 (fun c => if c <? 65 then (if (48 <=? c) && (c <=? 57) then St 21 else St 0) else if c >? 70
      then (if (97 <=? c) && (c <=? 102) then St 21 else St 0) else St 21);
  TR 9 [mark] (GOTO 24);
  CASE 24 (fun c => if c <? 65 then (if (48 <=? c) && (c <=? 57) then St 25 else St 0) else if c >? 70
      then (if (97 <=? c) && (c <=? 102) then St 25 else St 0) else St 25);
  CASE 25 (fun c => if c <? 65 then (if (48 <=? c) && (c <=? 57) then St 19 else St 0) else if c >? 70
      then (if (97 <=? c) && (c <=? 102) then St 19 else St 0) else St 19);
  TR 203 [mark] (GOTO 26);
  CASE 26 (fun c => let w := widec relaxed c in sw w [(32, Tr 37); (33, St 26); (35, Tr 39);
      (37, St 27); (61, St 26); (63, Tr 42); (95, St 26); (126, St 26); (606, St 26); (635, St 26);
      (637, St 26)] (if w <? 64 then (if (36 <=? w) && (w <=? 59) then St 26 else St 0) else if w >? 90
      then (if (97 <=? w) && (w <=? 122) then St 26 else St 0) else St 26));
  TR 204 [mark] (GOTO 27);
  CASE 27 (fun c => if c <? 65 then (if (48 <=? c) && (c <=? 57) then St 28 else St 0) else if c >? 70
      then (if (97 <=? c) && (c <=? 102) then St 28 else St 0) else St 28);
  CASE 28 (fun c => if c <? 65 then (if (48 <=? c) && (c <=? 57) then St 26 else St 0) else if c >? 70
      then (if (97 <=? c) && (c <=? 102) then St 26 else St 0) else St 26);
  TR 11 [mark; act_request_path] (GOTO 29)].

Definition http_blocks_7 (relaxed : bool) : list (block http_action) := [
  TR 42 [act_request_path] (GOTO 29);
  CASE 29 (fun c => let w := widec relaxed c in sw w [(32, Tr 53); (33, Tr 54); (35, Tr 55);
      (37, Tr 56); (61, Tr 54); (95, Tr 54); (126, Tr 54); (606, Tr 54); (635, Tr 54); (637, Tr 54)] (if
      w <? 63 then (if (36 <=? w) && (w <=? 59) then Tr 54 else St 0) else if w >? 90 then (if
      (97 <=? w) && (w <=? 122) then Tr 54 else St 0) else Tr 54));
  TR 54 [start_query] (GOTO 30);
  CASE 30 (fun c => let w := widec relaxed c in sw w [(32, Tr 57); (33, St 30); (35, Tr 59);
      (37, St 31); (61, St 30); (95, St 30); (126, St 30); (606, St 30); (635, St 30); (637, St 30)] (if
      w <? 63 then (if (36 <=? w) && (w <=? 59) then St 30 else St 0) else if w >? 90 then (if
      (97 <=? w) && (w <=? 122) then St 30 else St 0) else St 30));
  TR 56 [start_query] (GOTO 31);
  CASE 31 (fun c => if c <? 65 then (if (48 <=? c) && (c <=? 57) then St 32 else St 0) else if c >? 70
      then (if (97 <=? c) && (c <=? 102) then St 32 else St 0) else St 32);
  CASE 32 (fun c => if c <? 65 then (if (48 <=? c) && (c <=? 57) then St 30 else St 0) else if c >? 70
      then (if (97 <=? c) && (c <=? 102) then St 30 else St 0) else St 30);
  TR 10 [mark] (GOTO 33)].

Definition http_blocks_8 (relaxed : bool) : list (block http_action) := [
  CASE 33 (fun c => let w := widec relaxed c in sw w [(32, Tr 37); (33, St 26); (35, Tr 39);
      (37, St 27); (47, St 34); (61, St 26); (63, Tr 42); (95, St 26); (126, St 26); (606, St 26);
      (635, St 26); (637, St 26)] (if w <? 64 then (if (36 <=? w) && (w <=? 59) then St 26 else St 0)
      else if w >? 90 then (if (97 <=? w) && (w <=? 122) then St 26 else St 0) else St 26));
  CASE 34 (fun c => let w := widec relaxed c in sw w [(32, Tr 37); (33, St 35); (35, Tr 39);
      (37, St 36); (47, St 26); (58, St 38); (61, St 35); (63, Tr 42); (64, St 42); (91, St 47);
      (95, St 35); (126, St 35); (606, St 35); (635, St 35); (637, St 35)] (if w <? 65 then (if
      (36 <=? w) && (w <=? 59) then St 35 else St 0) else if w >? 90 then (if (97 <=? w) && (w <=? 122)
      then St 35 else St 0) else St 35));
  CASE 35 (fun c => let w := widec relaxed c in sw w [(32, Tr 37); (33, St 35); (35, Tr 39);
      (37, St 36); (47, St 26); (58, St 38); (61, St 35); (63, Tr 42); (64, St 42); (95, St 35);
      (126, St 35); (606, St 35); (635, St 35); (637, St 35)] (if w <? 65 then (if (36 <=? w) &&
      (w <=? 59) then St 35 else St 0) else if w >? 90 then (if (97 <=? w) && (w <=? 122) then St 35
      else St 0) else St 35))].

Definition http_blocks_9 (relaxed : bool) : list (block http_action) := [
  CASE 36 (fun c => if c <? 65 then (if (48 <=? c) && (c <=? 57) then St 37 else St 0) else if c >? 70
      then (if (97 <=? c) && (c <=? 102) then St 37 else St 0) else St 37);
  CASE 37 (fun c => if c <? 65 then (if (48 <=? c) && (c <=? 57) then St 35 else St 0) else if c >? 70
      then (if (97 <=? c) && (c <=? 102) then St 35 else St 0) else St 35);
  CASE 38 (fun c => let w := widec relaxed c in sw w [(32, Tr 37); (33, St 39); (35, Tr 39);
      (37, St 40); (47, St 26); (61, St 39); (63, Tr 42); (64, St 42); (95, St 39); (126, St 39);
      (606, St 39); (635, St 39); (637, St 39)] (if w <? 58 then (if w >? 46 then (if (48 <=? w) &&
      (w <=? 57) then St 38 else St 0) else if w >=? 36 then St 39 else St 0) else if w >? 59 then (if
      w >? 90 then (if (97 <=? w) && (w <=? 122) then St 39 else St 0) else if w >=? 65 then St 39 else
      St 0) else St 39));
  CASE 39 (fun c => let w := widec relaxed c in sw w [(33, St 39); (37, St 40); (61, St 39);
      (64, St 42); (95, St 39); (126, St 39); (606, St 39); (635, St 39); (637, St 39)] (if w <? 48 then
      (if (36 <=? w) && (w <=? 46) then St 39 else St 0) else if w >? 59 then (if w >? 90 then (if
      (97 <=? w) && (w <=? 122) then St 39 else St 0) else if w >=? 65 then St 39 else St 0) else
      St 39));
  CASE 40 (fun c => if c <? 65 then (if (48 <=? c) && (c <=? 57) then St 41 else St 0) else if c >? 70
      then (if (97 <=? c) && (c <=? 102) then St 41 else St 0) else St 41)].

Definition http_blocks_10 (relaxed : bool) : list (block http_action) := [
  CASE 41 (fun c => if c <? 65 then (if (48 <=? c) && (c <=? 57) then St 39 else St 0) else if c >? 70
      then (if (97 <=? c) && (c <=? 102) then St 39 else St 0) else St 39);
  CASE 42 (fun c => let w := widec relaxed c in sw w [(32, Tr 37); (33, St 43); (35, Tr 39);
      (37, St 44); (47, St 26); (58, St 46); (61, St 43); (63, Tr 42); (91, St 47); (95, St 43);
      (126, St 43); (606, St 43); (635, St 43); (637, St 43)] (if w <? 65 then (if (36 <=? w) &&
      (w <=? 59) then St 43 else St 0) else if w >? 90 then (if (97 <=? w) && (w <=? 122) then St 43
      else St 0) else St 43));
  CASE 43 (fun c => let w := widec relaxed c in sw w [(32, Tr 37); (33, St 43); (35, Tr 39);
      (37, St 44); (47, St 26); (58, St 46); (61, St 43); (63, Tr 42); (95, St 43); (126, St 43);
      (606, St 43); (635, St 43); (637, St 43)] (if w <? 65 then (if (36 <=? w) && (w <=? 59) then St 43
      else St 0) else if w >? 90 then (if (97 <=? w) && (w <=? 122) then St 43 else St 0) else St 43));
  CASE 44 (fun c => if c <? 65 then (if (48 <=? c) && (c <=? 57) then St 45 else St 0) else if c >? 70
      then (if (97 <=? c) && (c <=? 102) then St 45 else St 0) else St 45);
  CASE 45 (fun c => if c <? 65 then (if (48 <=? c) && (c <=? 57) then St 43 else St 0) else if c >? 70
      then (if (97 <=? c) && (c <=? 102) then St 43 else St 0) else St 43)].

Definition http_blocks_11 (relaxed : bool) : list (block http_action) := [
  CASE 46 (fun c => sw c [(32, Tr 37); (35, Tr 39); (47, St 26); (63, Tr 42)] (if (48 <=? c) &&
      (c <=? 57) then St 46 else St 0));
  CASE 47 (fun c => sw c [(6, St 48); (58, St 167); (118, St 169)] (if c <? 65 then (if (48 <=? c) &&
      (c <=? 57) then St 91 else St 0) else if c >? 70 then (if (97 <=? c) && (c <=? 102) then St 91
      else St 0) else St 91));
  CASE 48 (fun c => if c <? 65 then (if (48 <=? c) && (c <=? 57) then St 49 else St 0) else if c >? 70
      then (if (97 <=? c) && (c <=? 102) then St 49 else St 0) else St 49);
  CASE 49 (fun c => if c =? 58 then St 53 else if c <? 65 then (if (48 <=? c) && (c <=? 57) then St 50
      else St 0) else if c >? 70 then (if (97 <=? c) && (c <=? 102) then St 50 else St 0) else St 50);
  CASE 50 (fun c => if c =? 58 then St 53 else if c <? 65 then (if (48 <=? c) && (c <=? 57) then St 51
      else St 0) else if c >? 70 then (if (97 <=? c) && (c <=? 102) then St 51 else St 0) else St 51);
  CASE 51 (fun c => if c =? 58 then St 53 else if c <? 65 then (if (48 <=? c) && (c <=? 57) then St 52
      else St 0) else if c >? 70 then (if (97 <=? c) && (c <=? 102) then St 52 else St 0) else St 52);
  CASE 52 (fun c => if c =? 58 then St 53 else St 0);
  CASE 53 (fun c => sw c [(49, St 84); (50, St 87)] (if c <? 65 then (if (48 <=? c) && (c <=? 57) then
      St 54 else St 0) else if c >? 70 then (if (97 <=? c) && (c <=? 102) then St 90 else St 0) else
      St 90));
  CASE 54 (fun c => sw c [(46, St 55); (58, St 80)] (if c <? 65 then (if (48 <=? c) && (c <=? 57) then
      St 77 else St 0) else if c >? 70 then (if (97 <=? c) && (c <=? 102) then St 77 else St 0) else
      St 77));
  CASE 55 (fun c => sw c [(49, St 72); (50, St 74)] (if (48 <=? c) && (c <=? 57) then St 56 else St 0));
  CASE 56 (fun c => if c =? 46 then St 57 else St 0)].

Definition http_blocks_12 (relaxed : bool) : list (block http_action) := [
  CASE 57 (fun c => sw c [(49, St 67); (50, St 69)] (if (48 <=? c) && (c <=? 57) then St 58 else St 0));
  CASE 58 (fun c => if c =? 46 then St 59 else St 0);
  CASE 59 (fun c => sw c [(49, St 62); (50, St 64)] (if (48 <=? c) && (c <=? 57) then St 60 else St 0));
  CASE 60 (fun c => if c =? 93 then St 61 else St 0);
  CASE 61 (fun c => sw c [(32, Tr 37); (35, Tr 39); (47, St 26); (58, St 46); (63, Tr 42)] (St 0));
  CASE 62 (fun c => if c =? 93 then St 61 else if (48 <=? c) && (c <=? 57) then St 63 else St 0);
  CASE 63 (fun c => if c =? 93 then St 61 else if (48 <=? c) && (c <=? 57) then St 60 else St 0);
  CASE 64 (fun c => sw c [(48, St 65); (53, St 66); (93, St 61)] (St 0));
  CASE 65 (fun c => if (48 <=? c) && (c <=? 57) then St 60 else St 0);
  CASE 66 (fun c => if c =? 48 then St 60 else St 0);
  CASE 67 (fun c => if c =? 46 then St 59 else if (48 <=? c) && (c <=? 57) then St 68 else St 0);
  CASE 68 (fun c => if c =? 46 then St 59 else if (48 <=? c) && (c <=? 57) then St 58 else St 0);
  CASE 69 (fun c => sw c [(46, St 59); (48, St 70); (53, St 71)] (St 0));
  CASE 70 (fun c => if (48 <=? c) && (c <=? 57) then St 58 else St 0);
  CASE 71 (fun c => if c =? 48 then St 58 else St 0);
  CASE 72 (fun c => if c =? 46 then St 57 else if (48 <=? c) && (c <=? 57) then St 73 else St 0);
  CASE 73 (fun c => if c =? 46 then St 57 else if (48 <=? c) && (c <=? 57) then St 56 else St 0)].

Definition http_blocks_13 (relaxed : bool) : list (block http_action) := [
  CASE 74 (fun c => sw c [(46, St 57); (48, St 75); (53, St 76)] (St 0));
  CASE 75 (fun c => if (48 <=? c) && (c <=? 57) then St 56 else St 0);
  CASE 76 (fun c => if c =? 48 then St 56 else St 0);
  CASE 77 (fun c => if c =? 58 then St 80 else if c <? 65 then (if (48 <=? c) && (c <=? 57) then St 78
      else St 0) else if c >? 70 then (if (97 <=? c) && (c <=? 102) then St 78 else St 0) else St 78);
  CASE 78 (fun c => if c =? 58 then St 80 else if c <? 65 then (if (48 <=? c) && (c <=? 57) then St 79
      else St 0) else if c >? 70 then (if (97 <=? c) && (c <=? 102) then St 79 else St 0) else St 79);
  CASE 79 (fun c => if c =? 58 then St 80 else St 0);
  CASE 80 (fun c => if c <? 65 then (if (48 <=? c) && (c <=? 57) then St 81 else St 0) else if c >? 70
      then (if (97 <=? c) && (c <=? 102) then St 81 else St 0) else St 81);
  CASE 81 (fun c => if c =? 93 then St 61 else if c <? 65 then (if (48 <=? c) && (c <=? 57) then St 82
      else St 0) else if c >? 70 then (if (97 <=? c) && (c <=? 102) then St 82 else St 0) else St 82);
  CASE 82 (fun c => if c =? 93 then St 61 else if c <? 65 then (if (48 <=? c) && (c <=? 57) then St 83
      else St 0) else if c >? 70 then (if (97 <=? c) && (c <=? 102) then St 83 else St 0) else St 83);
  CASE 83 (fun c => if c =? 93 then St 61 else if c <? 65 then (if (48 <=? c) && (c <=? 57) then St 60
      else St 0) else if c >? 70 then (if (97 <=? c) && (c <=? 102) then St 60 else St 0) else St 60);
  CASE 84 (fun c => sw c [(46, St 55); (58, St 80)] (if c <? 65 then (if (48 <=? c) && (c <=? 57) then
      St 85 else St 0) else if c >? 70 then (if (97 <=? c) && (c <=? 102) then St 77 else St 0) else
      St 77))].

Definition http_blocks_14 (relaxed : bool) : list (block http_action) := [
  CASE 85 (fun c => sw c [(46, St 55); (58, St 80)] (if c <? 65 then (if (48 <=? c) && (c <=? 57) then
      St 86 else St 0) else if c >? 70 then (if (97 <=? c) && (c <=? 102) then St 78 else St 0) else
      St 78));
  CASE 86 (fun c => sw c [(46, St 55); (58, St 80)] (if c <? 65 then (if (48 <=? c) && (c <=? 57) then
      St 79 else St 0) else if c >? 70 then (if (97 <=? c) && (c <=? 102) then St 79 else St 0) else
      St 79));
  CASE 87 (fun c => sw c [(46, St 55); (48, St 88); (53, St 89); (58, St 80)] (if c <? 65 then (if
      (49 <=? c) && (c <=? 57) then St 77 else St 0) else if c >? 70 then (if (97 <=? c) && (c <=? 102)
      then St 77 else St 0) else St 77));
  CASE 88 (fun c => if c =? 58 then St 80 else if c <? 65 then (if (48 <=? c) && (c <=? 57) then St 86
      else St 0) else if c >? 70 then (if (97 <=? c) && (c <=? 102) then St 78 else St 0) else St 78);
  CASE 89 (fun c => sw c [(48, St 86); (58, St 80)] (if c <? 65 then (if (49 <=? c) && (c <=? 57) then
      St 78 else St 0) else if c >? 70 then (if (97 <=? c) && (c <=? 102) then St 78 else St 0) else
      St 78));
  CASE 90 (fun c => if c =? 58 then St 80 else if c <? 65 then (if (48 <=? c) && (c <=? 57) then St 77
      else St 0) else if c >? 70 then (if (97 <=? c) && (c <=? 102) then St 77 else St 0) else St 77);
  CASE 91 (fun c => if c =? 58 then St 95 else if c <? 65 then (if (48 <=? c) && (c <=? 57) then St 92
      else St 0) else if c >? 70 then (if (97 <=? c) && (c <=? 102) then St 92 else St 0) else St 92);
  CASE 92 (fun c => if c =? 58 then St 95 else if c <? 65 then (if (48 <=? c) && (c <=? 57) then St 93
      else St 0) else if c >? 70 then (if (97 <=? c) && (c <=? 102) then St 93 else St 0) else St 93);
  CASE 93 (fun c => if c =? 58 then St 95 else if c <? 65 then (if (48 <=? c) && (c <=? 57) then St 94
      else St 0) else if c >? 70 then (if (97 <=? c) && (c <=? 102) then St 94 else St 0) else St 94)].

Definition http_blocks_15 (relaxed : bool) : list (block http_action) := [
  CASE 94 (fun c => if c =? 58 then St 95 else St 0);
  CASE 95 (fun c => if c =? 58 then St 166 else if c <? 65 then (if (48 <=? c) && (c <=? 57) then St 96
      else St 0) else if c >? 70 then (if (97 <=? c) && (c <=? 102) then St 96 else St 0) else St 96);
  CASE 96 (fun c => if c =? 58 then St 100 else if c <? 65 then (if (48 <=? c) && (c <=? 57) then St 97
      else St 0) else if c >? 70 then (if (97 <=? c) && (c <=? 102) then St 97 else St 0) else St 97);
  CASE 97 (fun c => if c =? 58 then St 100 else if c <? 65 then (if (48 <=? c) && (c <=? 57) then St 98
      else St 0) else if c >? 70 then (if (97 <=? c) && (c <=? 102) then St 98 else St 0) else St 98);
  CASE 98 (fun c => if c =? 58 then St 100 else if c <? 65 then (if (48 <=? c) && (c <=? 57) then St 99
      else St 0) else if c >? 70 then (if (97 <=? c) && (c <=? 102) then St 99 else St 0) else St 99);
  CASE 99 (fun c => if c =? 58 then St 100 else St 0);
  CASE 100 (fun c => if c =? 58 then St 165 else if c <? 65 then (if (48 <=? c) && (c <=? 57) then
      St 101 else St 0) else if c >? 70 then (if (97 <=? c) && (c <=? 102) then St 101 else St 0) else
      St 101);
  CASE 101 (fun c => if c =? 58 then St 105 else if c <? 65 then (if (48 <=? c) && (c <=? 57) then
      St 102 else St 0) else if c >? 70 then (if (97 <=? c) && (c <=? 102) then St 102 else St 0) else
      St 102);
  CASE 102 (fun c => if c =? 58 then St 105 else if c <? 65 then (if (48 <=? c) && (c <=? 57) then
      St 103 else St 0) else if c >? 70 then (if (97 <=? c) && (c <=? 102) then St 103 else St 0) else
      St 103);
  CASE 103 (fun c => if c =? 58 then St 105 else if c <? 65 then (if (48 <=? c) && (c <=? 57) then
      St 104 else St 0) else if c >? 70 then (if (97 <=? c) && (c <=? 102) then St 104 else St 0) else
      St 104);
  CASE 104 (fun c => if c =? 58 then St 105 else St 0)].

Definition http_blocks_16 (relaxed : bool) : list (block http_action) := [
  CASE 105 (fun c => if c =? 58 then St 164 else if c <? 65 then (if (48 <=? c) && (c <=? 57) then
      St 106 else St 0) else if c >? 70 then (if (97 <=? c) && (c <=? 102) then St 106 else St 0) else
      St 106);
  CASE 106 (fun c => if c =? 58 then St 110 else if c <? 65 then (if (48 <=? c) && (c <=? 57) then
      St 107 else St 0) else if c >? 70 then (if (97 <=? c) && (c <=? 102) then St 107 else St 0) else
      St 107);
  CASE 107 (fun c => if c =? 58 then St 110 else if c <? 65 then (if (48 <=? c) && (c <=? 57) then
      St 108 else St 0) else if c >? 70 then (if (97 <=? c) && (c <=? 102) then St 108 else St 0) else
      St 108);
  CASE 108 (fun c => if c =? 58 then St 110 else if c <? 65 then (if (48 <=? c) && (c <=? 57) then
      St 109 else St 0) else if c >? 70 then (if (97 <=? c) && (c <=? 102) then St 109 else St 0) else
      St 109);
  CASE 109 (fun c => if c =? 58 then St 110 else St 0);
  CASE 110 (fun c => if c =? 58 then St 163 else if c <? 65 then (if (48 <=? c) && (c <=? 57) then
      St 111 else St 0) else if c >? 70 then (if (97 <=? c) && (c <=? 102) then St 111 else St 0) else
      St 111);
  CASE 111 (fun c => if c =? 58 then St 115 else if c <? 65 then (if (48 <=? c) && (c <=? 57) then
      St 112 else St 0) else if c >? 70 then (if (97 <=? c) && (c <=? 102) then St 112 else St 0) else
      St 112);
  CASE 112 (fun c => if c =? 58 then St 115 else if c <? 65 then (if (48 <=? c) && (c <=? 57) then
      St 113 else St 0) else if c >? 70 then (if (97 <=? c) && (c <=? 102) then St 113 else St 0) else
      St 113);
  CASE 113 (fun c => if c =? 58 then St 115 else if c <? 65 then (if (48 <=? c) && (c <=? 57) then
      St 114 else St 0) else if c >? 70 then (if (97 <=? c) && (c <=? 102) then St 114 else St 0) else
      St 114);
  CASE 114 (fun c => if c =? 58 then St 115 else St 0);
  CASE 115 (fun c => if c =? 58 then St 151 else if c <? 65 then (if (48 <=? c) && (c <=? 57) then
      St 116 else St 0) else if c >? 70 then (if (97 <=? c) && (c <=? 102) then St 116 else St 0) else
      St 116)].

Definition http_blocks_17 (relaxed : bool) : list (block http_action) := [
  CASE 116 (fun c => if c =? 58 then St 120 else if c <? 65 then (if (48 <=? c) && (c <=? 57) then
      St 117 else St 0) else if c >? 70 then (if (97 <=? c) && (c <=? 102) then St 117 else St 0) else
      St 117);
  CASE 117 (fun c => if c =? 58 then St 120 else if c <? 65 then (if (48 <=? c) && (c <=? 57) then
      St 118 else St 0) else if c >? 70 then (if (97 <=? c) && (c <=? 102) then St 118 else St 0) else
      St 118);
  CASE 118 (fun c => if c =? 58 then St 120 else if c <? 65 then (if (48 <=? c) && (c <=? 57) then
      St 119 else St 0) else if c >? 70 then (if (97 <=? c) && (c <=? 102) then St 119 else St 0) else
      St 119);
  CASE 119 (fun c => if c =? 58 then St 120 else St 0);
  CASE 120 (fun c => if c =? 58 then St 150 else if c <? 65 then (if (48 <=? c) && (c <=? 57) then
      St 121 else St 0) else if c >? 70 then (if (97 <=? c) && (c <=? 102) then St 121 else St 0) else
      St 121);
  CASE 121 (fun c => if c =? 58 then St 125 else if c <? 65 then (if (48 <=? c) && (c <=? 57) then
      St 122 else St 0) else if c >? 70 then (if (97 <=? c) && (c <=? 102) then St 122 else St 0) else
      St 122);
  CASE 122 (fun c => if c =? 58 then St 125 else if c <? 65 then (if (48 <=? c) && (c <=? 57) then
      St 123 else St 0) else if c >? 70 then (if (97 <=? c) && (c <=? 102) then St 123 else St 0) else
      St 123);
  CASE 123 (fun c => if c =? 58 then St 125 else if c <? 65 then (if (48 <=? c) && (c <=? 57) then
      St 124 else St 0) else if c >? 70 then (if (97 <=? c) && (c <=? 102) then St 124 else St 0) else
      St 124);
  CASE 124 (fun c => if c =? 58 then St 125 else St 0);
  CASE 125 (fun c => if c =? 58 then St 126 else if c <? 65 then (if (48 <=? c) && (c <=? 57) then
      St 121 else St 0) else if c >? 70 then (if (97 <=? c) && (c <=? 102) then St 121 else St 0) else
      St 121)].

Definition http_blocks_18 (relaxed : bool) : list (block http_action) := [
  CASE 126 (fun c => sw c [(49, St 143); (50, St 146); (93, St 61)] (if c <? 48 then (if (2 <=? c) &&
      (c <=? 3) then St 48 else St 0) else if c >? 57 then (if c >? 70 then (if (97 <=? c) &&
      (c <=? 102) then St 149 else St 0) else if c >=? 65 then St 149 else St 0) else St 127));
  CASE 127 (fun c => sw c [(46, St 55); (58, St 131); (93, St 61)] (if c <? 65 then (if (48 <=? c) &&
      (c <=? 57) then St 128 else St 0) else if c >? 70 then (if (97 <=? c) && (c <=? 102) then St 128
      else St 0) else St 128));
  CASE 128 (fun c => sw c [(58, St 131); (93, St 61)] (if c <? 65 then (if (48 <=? c) && (c <=? 57) then
      St 129 else St 0) else if c >? 70 then (if (97 <=? c) && (c <=? 102) then St 129 else St 0) else
      St 129));
  CASE 129 (fun c => sw c [(58, St 131); (93, St 61)] (if c <? 65 then (if (48 <=? c) && (c <=? 57) then
      St 130 else St 0) else if c >? 70 then (if (97 <=? c) && (c <=? 102) then St 130 else St 0) else
      St 130));
  CASE 130 (fun c => sw c [(58, St 131); (93, St 61)] (St 0));
  CASE 131 (fun c => sw c [(49, St 136); (50, St 139)] (if c <? 65 then (if (48 <=? c) && (c <=? 57)
      then St 132 else St 0) else if c >? 70 then (if (97 <=? c) && (c <=? 102) then St 142 else St 0)
      else St 142));
  CASE 132 (fun c => sw c [(46, St 55); (58, St 80); (93, St 61)] (if c <? 65 then (if (48 <=? c) &&
      (c <=? 57) then St 133 else St 0) else if c >? 70 then (if (97 <=? c) && (c <=? 102) then St 133
      else St 0) else St 133));
  CASE 133 (fun c => sw c [(58, St 80); (93, St 61)] (if c <? 65 then (if (48 <=? c) && (c <=? 57) then
      St 134 else St 0) else if c >? 70 then (if (97 <=? c) && (c <=? 102) then St 134 else St 0) else
      St 134))].

Definition http_blocks_19 (relaxed : bool) : list (block http_action) := [
  CASE 134 (fun c => sw c [(58, St 80); (93, St 61)] (if c <? 65 then (if (48 <=? c) && (c <=? 57) then
      St 135 else St 0) else if c >? 70 then (if (97 <=? c) && (c <=? 102) then St 135 else St 0) else
      St 135));
  CASE 135 (fun c => sw c [(58, St 80); (93, St 61)] (St 0));
  CASE 136 (fun c => sw c [(46, St 55); (58, St 80); (93, St 61)] (if c <? 65 then (if (48 <=? c) &&
      (c <=? 57) then St 137 else St 0) else if c >? 70 then (if (97 <=? c) && (c <=? 102) then St 133
      else St 0) else St 133));
  CASE 137 (fun c => sw c [(46, St 55); (58, St 80); (93, St 61)] (if c <? 65 then (if (48 <=? c) &&
      (c <=? 57) then St 138 else St 0) else if c >? 70 then (if (97 <=? c) && (c <=? 102) then St 134
      else St 0) else St 134));
  CASE 138 (fun c => sw c [(46, St 55); (58, St 80); (93, St 61)] (if c <? 65 then (if (48 <=? c) &&
      (c <=? 57) then St 135 else St 0) else if c >? 70 then (if (97 <=? c) && (c <=? 102) then St 135
      else St 0) else St 135));
  CASE 139 (fun c => sw c [(46, St 55); (48, St 140); (53, St 141); (58, St 80); (93, St 61)] (if
      c <? 65 then (if (49 <=? c) && (c <=? 57) then St 133 else St 0) else if c >? 70 then (if
      (97 <=? c) && (c <=? 102) then St 133 else St 0) else St 133));
  CASE 140 (fun c => sw c [(58, St 80); (93, St 61)] (if c <? 65 then (if (48 <=? c) && (c <=? 57) then
      St 138 else St 0) else if c >? 70 then (if (97 <=? c) && (c <=? 102) then St 134 else St 0) else
      St 134));
  CASE 141 (fun c => sw c [(48, St 138); (58, St 80); (93, St 61)] (if c <? 65 then (if (49 <=? c) &&
      (c <=? 57) then St 134 else St 0) else if c >? 70 then (if (97 <=? c) && (c <=? 102) then St 134
      else St 0) else St 134))].

Definition http_blocks_20 (relaxed : bool) : list (block http_action) := [
  CASE 142 (fun c => sw c [(58, St 80); (93, St 61)] (if c <? 65 then (if (48 <=? c) && (c <=? 57) then
      St 133 else St 0) else if c >? 70 then (if (97 <=? c) && (c <=? 102) then St 133 else St 0) else
      St 133));
  CASE 143 (fun c => sw c [(46, St 55); (58, St 131); (93, St 61)] (if c <? 65 then (if (48 <=? c) &&
      (c <=? 57) then St 144 else St 0) else if c >? 70 then (if (97 <=? c) && (c <=? 102) then St 128
      else St 0) else St 128));
  CASE 144 (fun c => sw c [(46, St 55); (58, St 131); (93, St 61)] (if c <? 65 then (if (48 <=? c) &&
      (c <=? 57) then St 145 else St 0) else if c >? 70 then (if (97 <=? c) && (c <=? 102) then St 129
      else St 0) else St 129));
  CASE 145 (fun c => sw c [(46, St 55); (58, St 131); (93, St 61)] (if c <? 65 then (if (48 <=? c) &&
      (c <=? 57) then St 130 else St 0) else if c >? 70 then (if (97 <=? c) && (c <=? 102) then St 130
      else St 0) else St 130));
  CASE 146 (fun c => sw c [(46, St 55); (48, St 147); (53, St 148); (58, St 131); (93, St 61)] (if
      c <? 65 then (if (49 <=? c) && (c <=? 57) then St 128 else St 0) else if c >? 70 then (if
      (97 <=? c) && (c <=? 102) then St 128 else St 0) else St 128));
  CASE 147 (fun c => sw c [(58, St 131); (93, St 61)] (if c <? 65 then (if (48 <=? c) && (c <=? 57) then
      St 145 else St 0) else if c >? 70 then (if (97 <=? c) && (c <=? 102) then St 129 else St 0) else
      St 129));
  CASE 148 (fun c => sw c [(48, St 145); (58, St 131); (93, St 61)] (if c <? 65 then (if (49 <=? c) &&
      (c <=? 57) then St 129 else St 0) else if c >? 70 then (if (97 <=? c) && (c <=? 102) then St 129
      else St 0) else St 129));
  CASE 149 (fun c => sw c [(58, St 131); (93, St 61)] (if c <? 65 then (if (48 <=? c) && (c <=? 57) then
      St 128 else St 0) else if c >? 70 then (if (97 <=? c) && (c <=? 102) then St 128 else St 0) else
      St 128))].

Definition http_blocks_21 (relaxed : bool) : list (block http_action) := [
  CASE 150 (fun c => sw c [(49, St 143); (50, St 146)] (if c <? 48 then (if (2 <=? c) && (c <=? 3) then
      St 48 else St 0) else if c >? 57 then (if c >? 70 then (if (97 <=? c) && (c <=? 102) then St 149
      else St 0) else if c >=? 65 then St 149 else St 0) else St 127));
  CASE 151 (fun c => sw c [(49, St 156); (50, St 159)] (if c <? 48 then (if (2 <=? c) && (c <=? 3) then
      St 48 else St 0) else if c >? 57 then (if c >? 70 then (if (97 <=? c) && (c <=? 102) then St 162
      else St 0) else if c >=? 65 then St 162 else St 0) else St 152));
  CASE 152 (fun c => sw c [(46, St 55); (58, St 131)] (if c <? 65 then (if (48 <=? c) && (c <=? 57) then
      St 153 else St 0) else if c >? 70 then (if (97 <=? c) && (c <=? 102) then St 153 else St 0) else
      St 153));
  CASE 153 (fun c => if c =? 58 then St 131 else if c <? 65 then (if (48 <=? c) && (c <=? 57) then
      St 154 else St 0) else if c >? 70 then (if (97 <=? c) && (c <=? 102) then St 154 else St 0) else
      St 154);
  CASE 154 (fun c => if c =? 58 then St 131 else if c <? 65 then (if (48 <=? c) && (c <=? 57) then
      St 155 else St 0) else if c >? 70 then (if (97 <=? c) && (c <=? 102) then St 155 else St 0) else
      St 155);
  CASE 155 (fun c => if c =? 58 then St 131 else St 0);
  CASE 156 (fun c => sw c [(46, St 55); (58, St 131)] (if c <? 65 then (if (48 <=? c) && (c <=? 57) then
      St 157 else St 0) else if c >? 70 then (if (97 <=? c) && (c <=? 102) then St 153 else St 0) else
      St 153));
  CASE 157 (fun c => sw c [(46, St 55); (58, St 131)] (if c <? 65 then (if (48 <=? c) && (c <=? 57) then
      St 158 else St 0) else if c >? 70 then (if (97 <=? c) && (c <=? 102) then St 154 else St 0) else
      St 154));
  CASE 158 (fun c => sw c [(46, St 55); (58, St 131)] (if c <? 65 then (if (48 <=? c) && (c <=? 57) then
      St 155 else St 0) else if c >? 70 then (if (97 <=? c) && (c <=? 102) then St 155 else St 0) else
      St 155))].

Definition http_blocks_22 (relaxed : bool) : list (block http_action) := [
  CASE 159 (fun c => sw c [(46, St 55); (48, St 160); (53, St 161); (58, St 131)] (if c <? 65 then (if
      (49 <=? c) && (c <=? 57) then St 153 else St 0) else if c >? 70 then (if (97 <=? c) && (c <=? 102)
      then St 153 else St 0) else St 153));
  CASE 160 (fun c => if c =? 58 then St 131 else if c <? 65 then (if (48 <=? c) && (c <=? 57) then
      St 158 else St 0) else if c >? 70 then (if (97 <=? c) && (c <=? 102) then St 154 else St 0) else
      St 154);
  CASE 161 (fun c => sw c [(48, St 158); (58, St 131)] (if c <? 65 then (if (49 <=? c) && (c <=? 57)
      then St 154 else St 0) else if c >? 70 then (if (97 <=? c) && (c <=? 102) then St 154 else St 0)
      else St 154));
  CASE 162 (fun c => if c =? 58 then St 131 else if c <? 65 then (if (48 <=? c) && (c <=? 57) then
      St 153 else St 0) else if c >? 70 then (if (97 <=? c) && (c <=? 102) then St 153 else St 0) else
      St 153);
  CASE 163 (fun c => if c <? 48 then (if (2 <=? c) && (c <=? 3) then St 48 else St 0) else if c >? 57
      then (if c >? 70 then (if (97 <=? c) && (c <=? 102) then St 49 else St 0) else if c >=? 65 then
      St 49 else St 0) else St 49);
  CASE 164 (fun c => if (2 <=? c) && (c <=? 3) then St 48 else St 0);
  CASE 165 (fun c => if c =? 3 then St 48 else St 0);
  CASE 166 (fun c => if c =? 4 then St 48 else St 0);
  CASE 167 (fun c => if c =? 58 then St 168 else St 0);
  CASE 168 (fun c => sw c [(49, St 143); (50, St 146); (93, St 61)] (if c <? 48 then (if (2 <=? c) &&
      (c <=? 5) then St 48 else St 0) else if c >? 57 then (if c >? 70 then (if (97 <=? c) &&
      (c <=? 102) then St 149 else St 0) else if c >=? 65 then St 149 else St 0) else St 127));
  CASE 169 (fun c => if c <? 65 then (if (48 <=? c) && (c <=? 57) then St 170 else St 0) else if c >? 70
      then (if (97 <=? c) && (c <=? 102) then St 170 else St 0) else St 170)].

Definition http_blocks_23 (relaxed : bool) : list (block http_action) := [
  CASE 170 (fun c => if c =? 46 then St 171 else if c <? 65 then (if (48 <=? c) && (c <=? 57) then
      St 170 else St 0) else if c >? 70 then (if (97 <=? c) && (c <=? 102) then St 170 else St 0) else
      St 170);
  CASE 171 (fun c => let w := widec relaxed c in sw w [(33, St 172); (36, St 172); (61, St 172);
      (95, St 172); (126, St 172); (606, St 172); (635, St 172); (637, St 172)] (if w <? 48 then (if
      (38 <=? w) && (w <=? 46) then St 172 else St 0) else if w >? 59 then (if w >? 90 then (if
      (97 <=? w) && (w <=? 122) then St 172 else St 0) else if w >=? 65 then St 172 else St 0) else
      St 172));
  CASE 172 (fun c => let w := widec relaxed c in sw w [(33, St 172); (36, St 172); (61, St 172);
      (93, St 61); (95, St 172); (126, St 172); (606, St 172); (635, St 172); (637, St 172)] (if w <? 48
      then (if (38 <=? w) && (w <=? 46) then St 172 else St 0) else if w >? 59 then (if w >? 90 then (if
      (97 <=? w) && (w <=? 122) then St 172 else St 0) else if w >=? 65 then St 172 else St 0) else
      St 172));
  TR 12 [mark] (GOTO 173)].

Definition http_blocks_24 (relaxed : bool) : list (block http_action) := [
  CASE 173 (fun c => let w := widec relaxed c in sw w [(32, Tr 37); (33, St 19); (35, Tr 39);
      (37, St 24); (43, St 173); (47, St 26); (58, St 174); (59, St 19); (61, St 19); (63, Tr 42);
      (64, St 19); (95, St 19); (126, St 19); (606, St 19); (635, St 19); (637, St 19)] (if w <? 45 then
      (if (36 <=? w) && (w <=? 44) then St 19 else St 0) else if w >? 57 then (if w >? 90 then (if
      (97 <=? w) && (w <=? 122) then St 173 else St 0) else if w >=? 65 then St 173 else St 0) else
      St 173));
  CASE 174 (fun c => let w := widec relaxed c in sw w [(32, Tr 6); (33, Tr 203); (35, Tr 8);
      (37, Tr 204); (47, Tr 10); (61, Tr 203); (63, Tr 11); (95, Tr 203); (126, Tr 203); (606, Tr 203);
      (635, Tr 203); (637, Tr 203)] (if w <? 64 then (if (36 <=? w) && (w <=? 59) then Tr 203 else St 0)
      else if w >? 90 then (if (97 <=? w) && (w <=? 122) then Tr 203 else St 0) else Tr 203));
  CASE 175 (fun c => if c =? 32 then Tr 4 else if c >? 57 then (if (65 <=? c) && (c <=? 90) then St 176
      else St 0) else if c >=? 48 then St 176 else St 0);
  CASE 176 (fun c => if c =? 32 then Tr 4 else if c >? 57 then (if (65 <=? c) && (c <=? 90) then St 177
      else St 0) else if c >=? 48 then St 177 else St 0);
  CASE 177 (fun c => if c =? 32 then Tr 4 else if c >? 57 then (if (65 <=? c) && (c <=? 90) then St 178
      else St 0) else if c >=? 48 then St 178 else St 0)].

Definition http_blocks_25 (relaxed : bool) : list (block http_action) := [
  CASE 178 (fun c => if c =? 32 then Tr 4 else if c >? 57 then (if (65 <=? c) && (c <=? 90) then St 179
      else St 0) else if c >=? 48 then St 179 else St 0);
  CASE 179 (fun c => if c =? 32 then Tr 4 else if c >? 57 then (if (65 <=? c) && (c <=? 90) then St 180
      else St 0) else if c >=? 48 then St 180 else St 0);
  CASE 180 (fun c => if c =? 32 then Tr 4 else if c >? 57 then (if (65 <=? c) && (c <=? 90) then St 181
      else St 0) else if c >=? 48 then St 181 else St 0);
  CASE 181 (fun c => if c =? 32 then Tr 4 else if c >? 57 then (if (65 <=? c) && (c <=? 90) then St 182
      else St 0) else if c >=? 48 then St 182 else St 0);
  CASE 182 (fun c => if c =? 32 then Tr 4 else if c >? 57 then (if (65 <=? c) && (c <=? 90) then St 183
      else St 0) else if c >=? 48 then St 183 else St 0);
  CASE 183 (fun c => if c =? 32 then Tr 4 else if c >? 57 then (if (65 <=? c) && (c <=? 90) then St 184
      else St 0) else if c >=? 48 then St 184 else St 0);
  CASE 184 (fun c => if c =? 32 then Tr 4 else if c >? 57 then (if (65 <=? c) && (c <=? 90) then St 185
      else St 0) else if c >=? 48 then St 185 else St 0);
  CASE 185 (fun c => if c =? 32 then Tr 4 else if c >? 57 then (if (65 <=? c) && (c <=? 90) then St 186
      else St 0) else if c >=? 48 then St 186 else St 0);
  CASE 186 (fun c => if c =? 32 then Tr 4 else if c >? 57 then (if (65 <=? c) && (c <=? 90) then St 187
      else St 0) else if c >=? 48 then St 187 else St 0);
  CASE 187 (fun c => if c =? 32 then Tr 4 else if c >? 57 then (if (65 <=? c) && (c <=? 90) then St 188
      else St 0) else if c >=? 48 then St 188 else St 0);
  CASE 188 (fun c => if c =? 32 then Tr 4 else if c >? 57 then (if (65 <=? c) && (c <=? 90) then St 189
      else St 0) else if c >=? 48 then St 189 else St 0);
  CASE 189 (fun c => if c =? 32 then Tr 4 else if c >? 57 then (if (65 <=? c) && (c <=? 90) then St 190
      else St 0) else if c >=? 48 then St 190 else St 0)].

Definition http_blocks_26 (relaxed : bool) : list (block http_action) := [
  CASE 190 (fun c => if c =? 32 then Tr 4 else if c >? 57 then (if (65 <=? c) && (c <=? 90) then St 191
      else St 0) else if c >=? 48 then St 191 else St 0);
  CASE 191 (fun c => if c =? 32 then Tr 4 else if c >? 57 then (if (65 <=? c) && (c <=? 90) then St 192
      else St 0) else if c >=? 48 then St 192 else St 0);
  CASE 192 (fun c => if c =? 32 then Tr 4 else if c >? 57 then (if (65 <=? c) && (c <=? 90) then St 193
      else St 0) else if c >=? 48 then St 193 else St 0);
  CASE 193 (fun c => if c =? 32 then Tr 4 else St 0);
  TR 2 [mark] (GOTO 194);
  CASE 194 (fun c => if c <? 48 then (if (45 <=? c) && (c <=? 46) then St 195 else St 0) else if c >? 57
      then (if c >? 90 then (if (97 <=? c) && (c <=? 122) then St 195 else St 0) else if c >=? 65 then
      St 195 else St 0) else St 195);
  CASE 195 (fun c => sw c [(32, Tr 224); (47, Tr 224); (62, Tr 224)] (if c <? 45 then (if (9 <=? c) &&
      (c <=? 13) then Tr 224 else St 0) else if c >? 57 then (if c >? 90 then (if (97 <=? c) &&
      (c <=? 122) then St 195 else St 0) else if c >=? 65 then St 195 else St 0) else St 195));
  TR 224 [act_request_path] (GOTO 196);
  CASE 196 (fun c => if c =? 62 then St 197 else St 196);
  CASE 197 (fun c => sw c [(0, Tr 227); (62, St 197)] (St 196));
  TR 227 [xml; done_] (BREAK 349)].

Definition http_blocks_27 (relaxed : bool) : list (block http_action) := [
  TR 235 [json; done_] (BREAK 349);
  CASE 349 (fun c => St 0);
  TR 3 [mark] (GOTO 198);
  CASE 198 (fun c => let w := widec relaxed c in sw w [(32, Tr 228); (33, St 202); (37, St 203);
      (47, St 208); (59, St 202); (61, St 202); (95, St 202); (126, St 202); (606, St 202);
      (635, St 202); (637, St 202)] (if w <? 64 then (if (36 <=? w) && (w <=? 57) then St 202 else St 0)
      else if w >? 90 then (if (97 <=? w) && (w <=? 122) then St 202 else St 0) else St 202));
  TR 228 [act_request_path] (GOTO 199);
  CASE 199 (fun c => if c =? 123 then Tr 232 else St 0);
  TR 232 [mark] (GOTO 200);
  CASE 200 (fun c => if c =? 125 then St 201 else St 200);
  CASE 201 (fun c => sw c [(0, Tr 235); (125, St 201)] (St 200))].

Definition http_blocks_28 (relaxed : bool) : list (block http_action) := [
  CASE 202 (fun c => let w := widec relaxed c in sw w [(32, Tr 228); (33, St 202); (37, St 203);
      (47, St 205); (59, St 202); (61, St 202); (95, St 202); (126, St 202); (606, St 202);
      (635, St 202); (637, St 202)] (if w <? 64 then (if (36 <=? w) && (w <=? 57) then St 202 else St 0)
      else if w >? 90 then (if (97 <=? w) && (w <=? 122) then St 202 else St 0) else St 202));
  CASE 203 (fun c => if c <? 65 then (if (48 <=? c) && (c <=? 57) then St 204 else St 0) else if c >? 70
      then (if (97 <=? c) && (c <=? 102) then St 204 else St 0) else St 204);
  CASE 204 (fun c => if c <? 65 then (if (48 <=? c) && (c <=? 57) then St 202 else St 0) else if c >? 70
      then (if (97 <=? c) && (c <=? 102) then St 202 else St 0) else St 202);
  CASE 205 (fun c => let w := widec relaxed c in sw w [(32, Tr 228); (33, St 205); (37, St 206);
      (61, St 205); (95, St 205); (126, St 205); (606, St 205); (635, St 205); (637, St 205)] (if
      w <? 64 then (if (36 <=? w) && (w <=? 59) then St 205 else St 0) else if w >? 90 then (if
      (97 <=? w) && (w <=? 122) then St 205 else St 0) else St 205));
  CASE 206 (fun c => if c <? 65 then (if (48 <=? c) && (c <=? 57) then St 207 else St 0) else if c >? 70
      then (if (97 <=? c) && (c <=? 102) then St 207 else St 0) else St 207);
  CASE 207 (fun c => if c <? 65 then (if (48 <=? c) && (c <=? 57) then St 205 else St 0) else if c >? 70
      then (if (97 <=? c) && (c <=? 102) then St 205 else St 0) else St 205)].

Definition http_blocks_29 (relaxed : bool) : list (block http_action) := [
  CASE 208 (fun c => let w := widec relaxed c in sw w [(32, Tr 228); (33, St 205); (37, St 206);
      (47, St 209); (61, St 205); (95, St 205); (126, St 205); (606, St 205); (635, St 205);
      (637, St 205)] (if w <? 64 then (if (36 <=? w) && (w <=? 59) then St 205 else St 0) else if
      w >? 90 then (if (97 <=? w) && (w <=? 122) then St 205 else St 0) else St 205));
  CASE 209 (fun c => let w := widec relaxed c in sw w [(32, Tr 228); (33, St 210); (37, St 211);
      (47, St 205); (58, St 213); (61, St 210); (64, St 217); (91, St 222); (95, St 210); (126, St 210);
      (606, St 210); (635, St 210); (637, St 210)] (if w <? 65 then (if (36 <=? w) && (w <=? 59) then
      St 210 else St 0) else if w >? 90 then (if (97 <=? w) && (w <=? 122) then St 210 else St 0) else
      St 210));
  CASE 210 (fun c => let w := widec relaxed c in sw w [(32, Tr 228); (33, St 210); (37, St 211);
      (47, St 205); (58, St 213); (61, St 210); (64, St 217); (95, St 210); (126, St 210);
      (606, St 210); (635, St 210); (637, St 210)] (if w <? 65 then (if (36 <=? w) && (w <=? 59) then
      St 210 else St 0) else if w >? 90 then (if (97 <=? w) && (w <=? 122) then St 210 else St 0) else
      St 210))].

Definition http_blocks_30 (relaxed : bool) : list (block http_action) := [
  CASE 211 (fun c => if c <? 65 then (if (48 <=? c) && (c <=? 57) then St 212 else St 0) else if c >? 70
      then (if (97 <=? c) && (c <=? 102) then St 212 else St 0) else St 212);
  CASE 212 (fun c => if c <? 65 then (if (48 <=? c) && (c <=? 57) then St 210 else St 0) else if c >? 70
      then (if (97 <=? c) && (c <=? 102) then St 210 else St 0) else St 210);
  CASE 213 (fun c => let w := widec relaxed c in sw w [(32, Tr 228); (33, St 214); (37, St 215);
      (47, St 205); (61, St 214); (64, St 217); (95, St 214); (126, St 214); (606, St 214);
      (635, St 214); (637, St 214)] (if w <? 58 then (if w >? 46 then (if (48 <=? w) && (w <=? 57) then
      St 213 else St 0) else if w >=? 36 then St 214 else St 0) else if w >? 59 then (if w >? 90 then
      (if (97 <=? w) && (w <=? 122) then St 214 else St 0) else if w >=? 65 then St 214 else St 0) else
      St 214));
  CASE 214 (fun c => let w := widec relaxed c in sw w [(33, St 214); (37, St 215); (61, St 214);
      (64, St 217); (95, St 214); (126, St 214); (606, St 214); (635, St 214); (637, St 214)] (if
      w <? 48 then (if (36 <=? w) && (w <=? 46) then St 214 else St 0) else if w >? 59 then (if w >? 90
      then (if (97 <=? w) && (w <=? 122) then St 214 else St 0) else if w >=? 65 then St 214 else St 0)
      else St 214));
  CASE 215 (fun c => if c <? 65 then (if (48 <=? c) && (c <=? 57) then St 216 else St 0) else if c >? 70
      then (if (97 <=? c) && (c <=? 102) then St 216 else St 0) else St 216)].

Definition http_blocks_31 (relaxed : bool) : list (block http_action) := [
  CASE 216 (fun c => if c <? 65 then (if (48 <=? c) && (c <=? 57) then St 214 else St 0) else if c >? 70
      then (if (97 <=? c) && (c <=? 102) then St 214 else St 0) else St 214);
  CASE 217 (fun c => let w := widec relaxed c in sw w [(32, Tr 228); (33, St 218); (37, St 219);
      (47, St 205); (58, St 221); (61, St 218); (91, St 222); (95, St 218); (126, St 218);
      (606, St 218); (635, St 218); (637, St 218)] (if w <? 65 then (if (36 <=? w) && (w <=? 59) then
      St 218 else St 0) else if w >? 90 then (if (97 <=? w) && (w <=? 122) then St 218 else St 0) else
      St 218));
  CASE 218 (fun c => let w := widec relaxed c in sw w [(32, Tr 228); (33, St 218); (37, St 219);
      (47, St 205); (58, St 221); (61, St 218); (95, St 218); (126, St 218); (606, St 218);
      (635, St 218); (637, St 218)] (if w <? 65 then (if (36 <=? w) && (w <=? 59) then St 218 else St 0)
      else if w >? 90 then (if (97 <=? w) && (w <=? 122) then St 218 else St 0) else St 218));
  CASE 219 (fun c => if c <? 65 then (if (48 <=? c) && (c <=? 57) then St 220 else St 0) else if c >? 70
      then (if (97 <=? c) && (c <=? 102) then St 220 else St 0) else St 220);
  CASE 220 (fun c => if c <? 65 then (if (48 <=? c) && (c <=? 57) then St 218 else St 0) else if c >? 70
      then (if (97 <=? c) && (c <=? 102) then St 218 else St 0) else St 218);
  CASE 221 (fun c => sw c [(32, Tr 228); (47, St 205)] (if (48 <=? c) && (c <=? 57) then St 221 else
      St 0))].

Definition http_blocks_32 (relaxed : bool) : list (block http_action) := [
  CASE 222 (fun c => sw c [(6, St 223); (58, St 342); (118, St 344)] (if c <? 65 then (if (48 <=? c) &&
      (c <=? 57) then St 266 else St 0) else if c >? 70 then (if (97 <=? c) && (c <=? 102) then St 266
      else St 0) else St 266));
  CASE 223 (fun c => if c <? 65 then (if (48 <=? c) && (c <=? 57) then St 224 else St 0) else if c >? 70
      then (if (97 <=? c) && (c <=? 102) then St 224 else St 0) else St 224);
  CASE 224 (fun c => if c =? 58 then St 228 else if c <? 65 then (if (48 <=? c) && (c <=? 57) then
      St 225 else St 0) else if c >? 70 then (if (97 <=? c) && (c <=? 102) then St 225 else St 0) else
      St 225);
  CASE 225 (fun c => if c =? 58 then St 228 else if c <? 65 then (if (48 <=? c) && (c <=? 57) then
      St 226 else St 0) else if c >? 70 then (if (97 <=? c) && (c <=? 102) then St 226 else St 0) else
      St 226);
  CASE 226 (fun c => if c =? 58 then St 228 else if c <? 65 then (if (48 <=? c) && (c <=? 57) then
      St 227 else St 0) else if c >? 70 then (if (97 <=? c) && (c <=? 102) then St 227 else St 0) else
      St 227);
  CASE 227 (fun c => if c =? 58 then St 228 else St 0);
  CASE 228 (fun c => sw c [(49, St 259); (50, St 262)] (if c <? 65 then (if (48 <=? c) && (c <=? 57)
      then St 229 else St 0) else if c >? 70 then (if (97 <=? c) && (c <=? 102) then St 265 else St 0)
      else St 265));
  CASE 229 (fun c => sw c [(46, St 230); (58, St 255)] (if c <? 65 then (if (48 <=? c) && (c <=? 57)
      then St 252 else St 0) else if c >? 70 then (if (97 <=? c) && (c <=? 102) then St 252 else St 0)
      else St 252));
  CASE 230 (fun c => sw c [(49, St 247); (50, St 249)] (if (48 <=? c) && (c <=? 57) then St 231 else
      St 0));
  CASE 231 (fun c => if c =? 46 then St 232 else St 0);
  CASE 232 (fun c => sw c [(49, St 242); (50, St 244)] (if (48 <=? c) && (c <=? 57) then St 233 else
      St 0))].

Definition http_blocks_33 (relaxed : bool) : list (block http_action) := [
  CASE 233 (fun c => if c =? 46 then St 234 else St 0);
  CASE 234 (fun c => sw c [(49, St 237); (50, St 239)] (if (48 <=? c) && (c <=? 57) then St 235 else
      St 0));
  CASE 235 (fun c => if c =? 93 then St 236 else St 0);
  CASE 236 (fun c => sw c [(32, Tr 228); (47, St 205); (58, St 221)] (St 0));
  CASE 237 (fun c => if c =? 93 then St 236 else if (48 <=? c) && (c <=? 57) then St 238 else St 0);
  CASE 238 (fun c => if c =? 93 then St 236 else if (48 <=? c) && (c <=? 57) then St 235 else St 0);
  CASE 239 (fun c => sw c [(48, St 240); (53, St 241); (93, St 236)] (St 0));
  CASE 240 (fun c => if (48 <=? c) && (c <=? 57) then St 235 else St 0);
  CASE 241 (fun c => if c =? 48 then St 235 else St 0);
  CASE 242 (fun c => if c =? 46 then St 234 else if (48 <=? c) && (c <=? 57) then St 243 else St 0);
  CASE 243 (fun c => if c =? 46 then St 234 else if (48 <=? c) && (c <=? 57) then St 233 else St 0);
  CASE 244 (fun c => sw c [(46, St 234); (48, St 245); (53, St 246)] (St 0));
  CASE 245 (fun c => if (48 <=? c) && (c <=? 57) then St 233 else St 0);
  CASE 246 (fun c => if c =? 48 then St 233 else St 0);
  CASE 247 (fun c => if c =? 46 then St 232 else if (48 <=? c) && (c <=? 57) then St 248 else St 0);
  CASE 248 (fun c => if c =? 46 then St 232 else if (48 <=? c) && (c <=? 57) then St 231 else St 0);
  CASE 249 (fun c => sw c [(46, St 232); (48, St 250); (53, St 251)] (St 0))].

Definition http_blocks_34 (relaxed : bool) : list (block http_action) := [
  CASE 250 (fun c => if (48 <=? c) && (c <=? 57) then St 231 else St 0);
  CASE 251 (fun c => if c =? 48 then St 231 else St 0);
  CASE 252 (fun c => if c =? 58 then St 255 else if c <? 65 then (if (48 <=? c) && (c <=? 57) then
      St 253 else St 0) else if c >? 70 then (if (97 <=? c) && (c <=? 102) then St 253 else St 0) else
      St 253);
  CASE 253 (fun c => if c =? 58 then St 255 else if c <? 65 then (if (48 <=? c) && (c <=? 57) then
      St 254 else St 0) else if c >? 70 then (if (97 <=? c) && (c <=? 102) then St 254 else St 0) else
      St 254);
  CASE 254 (fun c => if c =? 58 then St 255 else St 0);
  CASE 255 (fun c => if c <? 65 then (if (48 <=? c) && (c <=? 57) then St 256 else St 0) else if c >? 70
      then (if (97 <=? c) && (c <=? 102) then St 256 else St 0) else St 256);
  CASE 256 (fun c => if c =? 93 then St 236 else if c <? 65 then (if (48 <=? c) && (c <=? 57) then
      St 257 else St 0) else if c >? 70 then (if (97 <=? c) && (c <=? 102) then St 257 else St 0) else
      St 257);
  CASE 257 (fun c => if c =? 93 then St 236 else if c <? 65 then (if (48 <=? c) && (c <=? 57) then
      St 258 else St 0) else if c >? 70 then (if (97 <=? c) && (c <=? 102) then St 258 else St 0) else
      St 258);
  CASE 258 (fun c => if c =? 93 then St 236 else if c <? 65 then (if (48 <=? c) && (c <=? 57) then
      St 235 else St 0) else if c >? 70 then (if (97 <=? c) && (c <=? 102) then St 235 else St 0) else
      St 235);
  CASE 259 (fun c => sw c [(46, St 230); (58, St 255)] (if c <? 65 then (if (48 <=? c) && (c <=? 57)
      then St 260 else St 0) else if c >? 70 then (if (97 <=? c) && (c <=? 102) then St 252 else St 0)
      else St 252));
  CASE 260 (fun c => sw c [(46, St 230); (58, St 255)] (if c <? 65 then (if (48 <=? c) && (c <=? 57)
      then St 261 else St 0) else if c >? 70 then (if (97 <=? c) && (c <=? 102) then St 253 else St 0)
      else St 253))].

Definition http_blocks_35 (relaxed : bool) : list (block http_action) := [
  CASE 261 (fun c => sw c [(46, St 230); (58, St 255)] (if c <? 65 then (if (48 <=? c) && (c <=? 57)
      then St 254 else St 0) else if c >? 70 then (if (97 <=? c) && (c <=? 102) then St 254 else St 0)
      else St 254));
  CASE 262 (fun c => sw c [(46, St 230); (48, St 263); (53, St 264); (58, St 255)] (if c <? 65 then (if
      (49 <=? c) && (c <=? 57) then St 252 else St 0) else if c >? 70 then (if (97 <=? c) && (c <=? 102)
      then St 252 else St 0) else St 252));
  CASE 263 (fun c => if c =? 58 then St 255 else if c <? 65 then (if (48 <=? c) && (c <=? 57) then
      St 261 else St 0) else if c >? 70 then (if (97 <=? c) && (c <=? 102) then St 253 else St 0) else
      St 253);
  CASE 264 (fun c => sw c [(48, St 261); (58, St 255)] (if c <? 65 then (if (49 <=? c) && (c <=? 57)
      then St 253 else St 0) else if c >? 70 then (if (97 <=? c) && (c <=? 102) then St 253 else St 0)
      else St 253));
  CASE 265 (fun c => if c =? 58 then St 255 else if c <? 65 then (if (48 <=? c) && (c <=? 57) then
      St 252 else St 0) else if c >? 70 then (if (97 <=? c) && (c <=? 102) then St 252 else St 0) else
      St 252);
  CASE 266 (fun c => if c =? 58 then St 270 else if c <? 65 then (if (48 <=? c) && (c <=? 57) then
      St 267 else St 0) else if c >? 70 then (if (97 <=? c) && (c <=? 102) then St 267 else St 0) else
      St 267);
  CASE 267 (fun c => if c =? 58 then St 270 else if c <? 65 then (if (48 <=? c) && (c <=? 57) then
      St 268 else St 0) else if c >? 70 then (if (97 <=? c) && (c <=? 102) then St 268 else St 0) else
      St 268);
  CASE 268 (fun c => if c =? 58 then St 270 else if c <? 65 then (if (48 <=? c) && (c <=? 57) then
      St 269 else St 0) else if c >? 70 then (if (97 <=? c) && (c <=? 102) then St 269 else St 0) else
      St 269);
  CASE 269 (fun c => if c =? 58 then St 270 else St 0);
  CASE 270 (fun c => if c =? 58 then St 341 else if c <? 65 then (if (48 <=? c) && (c <=? 57) then
      St 271 else St 0) else if c >? 70 then (if (97 <=? c) && (c <=? 102) then St 271 else St 0) else
      St 271)].

Definition http_blocks_36 (relaxed : bool) : list (block http_action) := [
  CASE 271 (fun c => if c =? 58 then St 275 else if c <? 65 then (if (48 <=? c) && (c <=? 57) then
      St 272 else St 0) else if c >? 70 then (if (97 <=? c) && (c <=? 102) then St 272 else St 0) else
      St 272);
  CASE 272 (fun c => if c =? 58 then St 275 else if c <? 65 then (if (48 <=? c) && (c <=? 57) then
      St 273 else St 0) else if c >? 70 then (if (97 <=? c) && (c <=? 102) then St 273 else St 0) else
      St 273);
  CASE 273 (fun c => if c =? 58 then St 275 else if c <? 65 then (if (48 <=? c) && (c <=? 57) then
      St 274 else St 0) else if c >? 70 then (if (97 <=? c) && (c <=? 102) then St 274 else St 0) else
      St 274);
  CASE 274 (fun c => if c =? 58 then St 275 else St 0);
  CASE 275 (fun c => if c =? 58 then St 340 else if c <? 65 then (if (48 <=? c) && (c <=? 57) then
      St 276 else St 0) else if c >? 70 then (if (97 <=? c) && (c <=? 102) then St 276 else St 0) else
      St 276);
  CASE 276 (fun c => if c =? 58 then St 280 else if c <? 65 then (if (48 <=? c) && (c <=? 57) then
      St 277 else St 0) else if c >? 70 then (if (97 <=? c) && (c <=? 102) then St 277 else St 0) else
      St 277);
  CASE 277 (fun c => if c =? 58 then St 280 else if c <? 65 then (if (48 <=? c) && (c <=? 57) then
      St 278 else St 0) else if c >? 70 then (if (97 <=? c) && (c <=? 102) then St 278 else St 0) else
      St 278);
  CASE 278 (fun c => if c =? 58 then St 280 else if c <? 65 then (if (48 <=? c) && (c <=? 57) then
      St 279 else St 0) else if c >? 70 then (if (97 <=? c) && (c <=? 102) then St 279 else St 0) else
      St 279);
  CASE 279 (fun c => if c =? 58 then St 280 else St 0);
  CASE 280 (fun c => if c =? 58 then St 339 else if c <? 65 then (if (48 <=? c) && (c <=? 57) then
      St 281 else St 0) else if c >? 70 then (if (97 <=? c) && (c <=? 102) then St 281 else St 0) else
      St 281);
  CASE 281 (fun c => if c =? 58 then St 285 else if c <? 65 then (if (48 <=? c) && (c <=? 57) then
      St 282 else St 0) else if c >? 70 then (if (97 <=? c) && (c <=? 102) then St 282 else St 0) else
      St 282)].

Definition http_blocks_37 (relaxed : bool) : list (block http_action) := [
  CASE 282 (fun c => if c =? 58 then St 285 else if c <? 65 then (if (48 <=? c) && (c <=? 57) then
      St 283 else St 0) else if c >? 70 then (if (97 <=? c) && (c <=? 102) then St 283 else St 0) else
      St 283);
  CASE 283 (fun c => if c =? 58 then St 285 else if c <? 65 then (if (48 <=? c) && (c <=? 57) then
      St 284 else St 0) else if c >? 70 then (if (97 <=? c) && (c <=? 102) then St 284 else St 0) else
      St 284);
  CASE 284 (fun c => if c =? 58 then St 285 else St 0);
  CASE 285 (fun c => if c =? 58 then St 338 else if c <? 65 then (if (48 <=? c) && (c <=? 57) then
      St 286 else St 0) else if c >? 70 then (if (97 <=? c) && (c <=? 102) then St 286 else St 0) else
      St 286);
  CASE 286 (fun c => if c =? 58 then St 290 else if c <? 65 then (if (48 <=? c) && (c <=? 57) then
      St 287 else St 0) else if c >? 70 then (if (97 <=? c) && (c <=? 102) then St 287 else St 0) else
      St 287);
  CASE 287 (fun c => if c =? 58 then St 290 else if c <? 65 then (if (48 <=? c) && (c <=? 57) then
      St 288 else St 0) else if c >? 70 then (if (97 <=? c) && (c <=? 102) then St 288 else St 0) else
      St 288);
  CASE 288 (fun c => if c =? 58 then St 290 else if c <? 65 then (if (48 <=? c) && (c <=? 57) then
      St 289 else St 0) else if c >? 70 then (if (97 <=? c) && (c <=? 102) then St 289 else St 0) else
      St 289);
  CASE 289 (fun c => if c =? 58 then St 290 else St 0);
  CASE 290 (fun c => if c =? 58 then St 326 else if c <? 65 then (if (48 <=? c) && (c <=? 57) then
      St 291 else St 0) else if c >? 70 then (if (97 <=? c) && (c <=? 102) then St 291 else St 0) else
      St 291);
  CASE 291 (fun c => if c =? 58 then St 295 else if c <? 65 then (if (48 <=? c) && (c <=? 57) then
      St 292 else St 0) else if c >? 70 then (if (97 <=? c) && (c <=? 102) then St 292 else St 0) else
      St 292);
  CASE 292 (fun c => if c =? 58 then St 295 else if c <? 65 then (if (48 <=? c) && (c <=? 57) then
      St 293 else St 0) else if c >? 70 then (if (97 <=? c) && (c <=? 102) then St 293 else St 0) else
      St 293)].

Definition http_blocks_38 (relaxed : bool) : list (block http_action) := [
  CASE 293 (fun c => if c =? 58 then St 295 else if c <? 65 then (if (48 <=? c) && (c <=? 57) then
      St 294 else St 0) else if c >? 70 then (if (97 <=? c) && (c <=? 102) then St 294 else St 0) else
      St 294);
  CASE 294 (fun c => if c =? 58 then St 295 else St 0);
  CASE 295 (fun c => if c =? 58 then St 325 else if c <? 65 then (if (48 <=? c) && (c <=? 57) then
      St 296 else St 0) else if c >? 70 then (if (97 <=? c) && (c <=? 102) then St 296 else St 0) else
      St 296);
  CASE 296 (fun c => if c =? 58 then St 300 else if c <? 65 then (if (48 <=? c) && (c <=? 57) then
      St 297 else St 0) else if c >? 70 then (if (97 <=? c) && (c <=? 102) then St 297 else St 0) else
      St 297);
  CASE 297 (fun c => if c =? 58 then St 300 else if c <? 65 then (if (48 <=? c) && (c <=? 57) then
      St 298 else St 0) else if c >? 70 then (if (97 <=? c) && (c <=? 102) then St 298 else St 0) else
      St 298);
  CASE 298 (fun c => if c =? 58 then St 300 else if c <? 65 then (if (48 <=? c) && (c <=? 57) then
      St 299 else St 0) else if c >? 70 then (if (97 <=? c) && (c <=? 102) then St 299 else St 0) else
      St 299);
  CASE 299 (fun c => if c =? 58 then St 300 else St 0);
  CASE 300 (fun c => if c =? 58 then St 301 else if c <? 65 then (if (48 <=? c) && (c <=? 57) then
      St 296 else St 0) else if c >? 70 then (if (97 <=? c) && (c <=? 102) then St 296 else St 0) else
      St 296);
  CASE 301 (fun c => sw c [(49, St 318); (50, St 321); (93, St 236)] (if c <? 48 then (if (2 <=? c) &&
      (c <=? 3) then St 223 else St 0) else if c >? 57 then (if c >? 70 then (if (97 <=? c) &&
      (c <=? 102) then St 324 else St 0) else if c >=? 65 then St 324 else St 0) else St 302));
  CASE 302 (fun c => sw c [(46, St 230); (58, St 306); (93, St 236)] (if c <? 65 then (if (48 <=? c) &&
      (c <=? 57) then St 303 else St 0) else if c >? 70 then (if (97 <=? c) && (c <=? 102) then St 303
      else St 0) else St 303))].

Definition http_blocks_39 (relaxed : bool) : list (block http_action) := [
  CASE 303 (fun c => sw c [(58, St 306); (93, St 236)] (if c <? 65 then (if (48 <=? c) && (c <=? 57)
      then St 304 else St 0) else if c >? 70 then (if (97 <=? c) && (c <=? 102) then St 304 else St 0)
      else St 304));
  CASE 304 (fun c => sw c [(58, St 306); (93, St 236)] (if c <? 65 then (if (48 <=? c) && (c <=? 57)
      then St 305 else St 0) else if c >? 70 then (if (97 <=? c) && (c <=? 102) then St 305 else St 0)
      else St 305));
  CASE 305 (fun c => sw c [(58, St 306); (93, St 236)] (St 0));
  CASE 306 (fun c => sw c [(49, St 311); (50, St 314)] (if c <? 65 then (if (48 <=? c) && (c <=? 57)
      then St 307 else St 0) else if c >? 70 then (if (97 <=? c) && (c <=? 102) then St 317 else St 0)
      else St 317));
  CASE 307 (fun c => sw c [(46, St 230); (58, St 255); (93, St 236)] (if c <? 65 then (if (48 <=? c) &&
      (c <=? 57) then St 308 else St 0) else if c >? 70 then (if (97 <=? c) && (c <=? 102) then St 308
      else St 0) else St 308));
  CASE 308 (fun c => sw c [(58, St 255); (93, St 236)] (if c <? 65 then (if (48 <=? c) && (c <=? 57)
      then St 309 else St 0) else if c >? 70 then (if (97 <=? c) && (c <=? 102) then St 309 else St 0)
      else St 309));
  CASE 309 (fun c => sw c [(58, St 255); (93, St 236)] (if c <? 65 then (if (48 <=? c) && (c <=? 57)
      then St 310 else St 0) else if c >? 70 then (if (97 <=? c) && (c <=? 102) then St 310 else St 0)
      else St 310));
  CASE 310 (fun c => sw c [(58, St 255); (93, St 236)] (St 0));
  CASE 311 (fun c => sw c [(46, St 230); (58, St 255); (93, St 236)] (if c <? 65 then (if (48 <=? c) &&
      (c <=? 57) then St 312 else St 0) else if c >? 70 then (if (97 <=? c) && (c <=? 102) then St 308
      else St 0) else St 308))].

Definition http_blocks_40 (relaxed : bool) : list (block http_action) := [
  CASE 312 (fun c => sw c [(46, St 230); (58, St 255); (93, St 236)] (if c <? 65 then (if (48 <=? c) &&
      (c <=? 57) then St 313 else St 0) else if c >? 70 then (if (97 <=? c) && (c <=? 102) then St 309
      else St 0) else St 309));
  CASE 313 (fun c => sw c [(46, St 230); (58, St 255); (93, St 236)] (if c <? 65 then (if (48 <=? c) &&
      (c <=? 57) then St 310 else St 0) else if c >? 70 then (if (97 <=? c) && (c <=? 102) then St 310
      else St 0) else St 310));
  CASE 314 (fun c => sw c [(46, St 230); (48, St 315); (53, St 316); (58, St 255); (93, St 236)] (if
      c <? 65 then (if (49 <=? c) && (c <=? 57) then St 308 else St 0) else if c >? 70 then (if
      (97 <=? c) && (c <=? 102) then St 308 else St 0) else St 308));
  CASE 315 (fun c => sw c [(58, St 255); (93, St 236)] (if c <? 65 then (if (48 <=? c) && (c <=? 57)
      then St 313 else St 0) else if c >? 70 then (if (97 <=? c) && (c <=? 102) then St 309 else St 0)
      else St 309));
  CASE 316 (fun c => sw c [(48, St 313); (58, St 255); (93, St 236)] (if c <? 65 then (if (49 <=? c) &&
      (c <=? 57) then St 309 else St 0) else if c >? 70 then (if (97 <=? c) && (c <=? 102) then St 309
      else St 0) else St 309));
  CASE 317 (fun c => sw c [(58, St 255); (93, St 236)] (if c <? 65 then (if (48 <=? c) && (c <=? 57)
      then St 308 else St 0) else if c >? 70 then (if (97 <=? c) && (c <=? 102) then St 308 else St 0)
      else St 308));
  CASE 318 (fun c => sw c [(46, St 230); (58, St 306); (93, St 236)] (if c <? 65 then (if (48 <=? c) &&
      (c <=? 57) then St 319 else St 0) else if c >? 70 then (if (97 <=? c) && (c <=? 102) then St 303
      else St 0) else St 303));
  CASE 319 (fun c => sw c [(46, St 230); (58, St 306); (93, St 236)] (if c <? 65 then (if (48 <=? c) &&
      (c <=? 57) then St 320 else St 0) else if c >? 70 then (if (97 <=? c) && (c <=? 102) then St 304
      else St 0) else St 304))].

Definition http_blocks_41 (relaxed : bool) : list (block http_action) := [
  CASE 320 (fun c => sw c [(46, St 230); (58, St 306); (93, St 236)] (if c <? 65 then (if (48 <=? c) &&
      (c <=? 57) then St 305 else St 0) else if c >? 70 then (if (97 <=? c) && (c <=? 102) then St 305
      else St 0) else St 305));
  CASE 321 (fun c => sw c [(46, St 230); (48, St 322); (53, St 323); (58, St 306); (93, St 236)] (if
      c <? 65 then (if (49 <=? c) && (c <=? 57) then St 303 else St 0) else if c >? 70 then (if
      (97 <=? c) && (c <=? 102) then St 303 else St 0) else St 303));
  CASE 322 (fun c => sw c [(58, St 306); (93, St 236)] (if c <? 65 then (if (48 <=? c) && (c <=? 57)
      then St 320 else St 0) else if c >? 70 then (if (97 <=? c) && (c <=? 102) then St 304 else St 0)
      else St 304));
  CASE 323 (fun c => sw c [(48, St 320); (58, St 306); (93, St 236)] (if c <? 65 then (if (49 <=? c) &&
      (c <=? 57) then St 304 else St 0) else if c >? 70 then (if (97 <=? c) && (c <=? 102) then St 304
      else St 0) else St 304));
  CASE 324 (fun c => sw c [(58, St 306); (93, St 236)] (if c <? 65 then (if (48 <=? c) && (c <=? 57)
      then St 303 else St 0) else if c >? 70 then (if (97 <=? c) && (c <=? 102) then St 303 else St 0)
      else St 303));
  CASE 325 (fun c => sw c [(49, St 318); (50, St 321)] (if c <? 48 then (if (2 <=? c) && (c <=? 3) then
      St 223 else St 0) else if c >? 57 then (if c >? 70 then (if (97 <=? c) && (c <=? 102) then St 324
      else St 0) else if c >=? 65 then St 324 else St 0) else St 302));
  CASE 326 (fun c => sw c [(49, St 331); (50, St 334)] (if c <? 48 then (if (2 <=? c) && (c <=? 3) then
      St 223 else St 0) else if c >? 57 then (if c >? 70 then (if (97 <=? c) && (c <=? 102) then St 337
      else St 0) else if c >=? 65 then St 337 else St 0) else St 327));
  CASE 327 (fun c => sw c [(46, St 230); (58, St 306)] (if c <? 65 then (if (48 <=? c) && (c <=? 57)
      then St 328 else St 0) else if c >? 70 then (if (97 <=? c) && (c <=? 102) then St 328 else St 0)
      else St 328))].

Definition http_blocks_42 (relaxed : bool) : list (block http_action) := [
  CASE 328 (fun c => if c =? 58 then St 306 else if c <? 65 then (if (48 <=? c) && (c <=? 57) then
      St 329 else St 0) else if c >? 70 then (if (97 <=? c) && (c <=? 102) then St 329 else St 0) else
      St 329);
  CASE 329 (fun c => if c =? 58 then St 306 else if c <? 65 then (if (48 <=? c) && (c <=? 57) then
      St 330 else St 0) else if c >? 70 then (if (97 <=? c) && (c <=? 102) then St 330 else St 0) else
      St 330);
  CASE 330 (fun c => if c =? 58 then St 306 else St 0);
  CASE 331 (fun c => sw c [(46, St 230); (58, St 306)] (if c <? 65 then (if (48 <=? c) && (c <=? 57)
      then St 332 else St 0) else if c >? 70 then (if (97 <=? c) && (c <=? 102) then St 328 else St 0)
      else St 328));
  CASE 332 (fun c => sw c [(46, St 230); (58, St 306)] (if c <? 65 then (if (48 <=? c) && (c <=? 57)
      then St 333 else St 0) else if c >? 70 then (if (97 <=? c) && (c <=? 102) then St 329 else St 0)
      else St 329));
  CASE 333 (fun c => sw c [(46, St 230); (58, St 306)] (if c <? 65 then (if (48 <=? c) && (c <=? 57)
      then St 330 else St 0) else if c >? 70 then (if (97 <=? c) && (c <=? 102) then St 330 else St 0)
      else St 330));
  CASE 334 (fun c => sw c [(46, St 230); (48, St 335); (53, St 336); (58, St 306)] (if c <? 65 then (if
      (49 <=? c) && (c <=? 57) then St 328 else St 0) else if c >? 70 then (if (97 <=? c) && (c <=? 102)
      then St 328 else St 0) else St 328));
  CASE 335 (fun c => if c =? 58 then St 306 else if c <? 65 then (if (48 <=? c) && (c <=? 57) then
      St 333 else St 0) else if c >? 70 then (if (97 <=? c) && (c <=? 102) then St 329 else St 0) else
      St 329);
  CASE 336 (fun c => sw c [(48, St 333); (58, St 306)] (if c <? 65 then (if (49 <=? c) && (c <=? 57)
      then St 329 else St 0) else if c >? 70 then (if (97 <=? c) && (c <=? 102) then St 329 else St 0)
      else St 329))].

Definition http_blocks_43 (relaxed : bool) : list (block http_action) := [
  CASE 337 (fun c => if c =? 58 then St 306 else if c <? 65 then (if (48 <=? c) && (c <=? 57) then
      St 328 else St 0) else if c >? 70 then (if (97 <=? c) && (c <=? 102) then St 328 else St 0) else
      St 328);
  CASE 338 (fun c => if c <? 48 then (if (2 <=? c) && (c <=? 3) then St 223 else St 0) else if c >? 57
      then (if c >? 70 then (if (97 <=? c) && (c <=? 102) then St 224 else St 0) else if c >=? 65 then
      St 224 else St 0) else St 224);
  CASE 339 (fun c => if (2 <=? c) && (c <=? 3) then St 223 else St 0);
  CASE 340 (fun c => if c =? 3 then St 223 else St 0);
  CASE 341 (fun c => if c =? 4 then St 223 else St 0);
  CASE 342 (fun c => if c =? 58 then St 343 else St 0);
  CASE 343 (fun c => sw c [(49, St 318); (50, St 321); (93, St 236)] (if c <? 48 then (if (2 <=? c) &&
      (c <=? 5) then St 223 else St 0) else if c >? 57 then (if c >? 70 then (if (97 <=? c) &&
      (c <=? 102) then St 324 else St 0) else if c >=? 65 then St 324 else St 0) else St 302));
  CASE 344 (fun c => if c <? 65 then (if (48 <=? c) && (c <=? 57) then St 345 else St 0) else if c >? 70
      then (if (97 <=? c) && (c <=? 102) then St 345 else St 0) else St 345);
  CASE 345 (fun c => if c =? 46 then St 346 else if c <? 65 then (if (48 <=? c) && (c <=? 57) then
      St 345 else St 0) else if c >? 70 then (if (97 <=? c) && (c <=? 102) then St 345 else St 0) else
      St 345)].

Definition http_blocks_44 (relaxed : bool) : list (block http_action) := [
  CASE 346 (fun c => let w := widec relaxed c in sw w [(33, St 347); (36, St 347); (61, St 347);
      (95, St 347); (126, St 347); (606, St 347); (635, St 347); (637, St 347)] (if w <? 48 then (if
      (38 <=? w) && (w <=? 46) then St 347 else St 0) else if w >? 59 then (if w >? 90 then (if
      (97 <=? w) && (w <=? 122) then St 347 else St 0) else if w >=? 65 then St 347 else St 0) else
      St 347));
  CASE 347 (fun c => let w := widec relaxed c in sw w [(33, St 347); (36, St 347); (61, St 347);
      (93, St 236); (95, St 347); (126, St 347); (606, St 347); (635, St 347); (637, St 347)] (if
      w <? 48 then (if (38 <=? w) && (w <=? 46) then St 347 else St 0) else if w >? 59 then (if w >? 90
      then (if (97 <=? w) && (w <=? 122) then St 347 else St 0) else if w >=? 65 then St 347 else St 0)
      else St 347))].

(** The blocks of the machine, in the order of the code. *)
Definition http_blocks (relaxed : bool) : list (block http_action) :=
  http_blocks_1 relaxed ++ http_blocks_2 relaxed ++ http_blocks_3 relaxed ++ http_blocks_4 relaxed ++
      http_blocks_5 relaxed ++ http_blocks_6 relaxed ++ http_blocks_7 relaxed ++ http_blocks_8 relaxed
      ++ http_blocks_9 relaxed ++ http_blocks_10 relaxed ++ http_blocks_11 relaxed ++ http_blocks_12
      relaxed ++ http_blocks_13 relaxed ++ http_blocks_14 relaxed ++ http_blocks_15 relaxed ++
      http_blocks_16 relaxed ++ http_blocks_17 relaxed ++ http_blocks_18 relaxed ++ http_blocks_19
      relaxed ++ http_blocks_20 relaxed ++ http_blocks_21 relaxed ++ http_blocks_22 relaxed ++
      http_blocks_23 relaxed ++ http_blocks_24 relaxed ++ http_blocks_25 relaxed ++ http_blocks_26
      relaxed ++ http_blocks_27 relaxed ++ http_blocks_28 relaxed ++ http_blocks_29 relaxed ++
      http_blocks_30 relaxed ++ http_blocks_31 relaxed ++ http_blocks_32 relaxed ++ http_blocks_33
      relaxed ++ http_blocks_34 relaxed ++ http_blocks_35 relaxed ++ http_blocks_36 relaxed ++
      http_blocks_37 relaxed ++ http_blocks_38 relaxed ++ http_blocks_39 relaxed ++ http_blocks_40
      relaxed ++ http_blocks_41 relaxed ++ http_blocks_42 relaxed ++ http_blocks_43 relaxed ++
      http_blocks_44 relaxed.
