(* ===== verification/HttpClientTable.v ===== *)
(** * The state machine of HTTP responses (src/wyze/http/httpclient_parser.cpp)

    The blocks of the code, as in Http11Table. *)

From S2P Require Import Prelude Ragel.

(** The actions of httpclient_parser.rl *)
Inductive client_action :=
  | c_mark | c_start_field | c_write_field | c_start_value | c_write_content_len
  | c_write_connection_close | c_write_value | c_reason_phrase | c_status_code | c_http_version
  | c_chunk_size | c_trans_chunked | c_done.

Definition client_blocks_1 : list (block client_action) := [
  CASE 1 (fun c => if c =? 72 then Tr 2 else if c <? 65 then (if (48 <=? c) && (c <=? 57) then Tr 0 else
      St 0) else if c >? 70 then (if (97 <=? c) && (c <=? 102) then Tr 0 else St 0) else Tr 0);
  TR 0 [c_mark] (GOTO 2);
  CASE 2 (fun c => sw c [(10, Tr 3); (13, Tr 4); (59, Tr 6)] (if c <? 65 then (if (48 <=? c) &&
      (c <=? 57) then St 2 else St 0) else if c >? 70 then (if (97 <=? c) && (c <=? 102) then St 2 else
      St 0) else St 2));
  TR 3 [c_chunk_size; c_done] (BREAK 120);
  TR 7 [c_done] (BREAK 120);
  TR 9 [c_write_field; c_start_value; c_write_value; c_done] (BREAK 120);
  TR 15 [c_write_value; c_done] (BREAK 120);
  TR 74 [c_write_connection_close; c_done] (BREAK 120);
  CASE 120 (fun c => St 0);
  TR 4 [c_chunk_size] (GOTO 3)].

Definition client_blocks_2 : list (block client_action) := [
  TR 10 [c_write_field; c_start_value; c_write_value] (GOTO 3);
  TR 16 [c_write_value] (GOTO 3);
  TR 75 [c_write_connection_close] (GOTO 3);
  CASE 3 (fun c => if c =? 10 then Tr 7 else St 0);
  TR 6 [c_chunk_size] (GOTO 4);
  TR 12 [c_write_field; c_start_value; c_write_value] (GOTO 4);
  TR 18 [c_write_value] (GOTO 4);
  CASE 4 (fun c => sw c [(33, Tr 8); (124, Tr 8); (126, Tr 8)] (if c <? 45 then (if c >? 39 then (if
      (42 <=? c) && (c <=? 43) then Tr 8 else St 0) else if c >=? 35 then Tr 8 else St 0) else if
      c >? 46 then (if c <? 65 then (if (48 <=? c) && (c <=? 57) then Tr 8 else St 0) else if c >? 90
      then (if (94 <=? c) && (c <=? 122) then Tr 8 else St 0) else Tr 8) else Tr 8));
  TR 8 [c_start_field] (GOTO 5);
  CASE 5 (fun c => sw c [(10, Tr 9); (13, Tr 10); (33, St 5); (59, Tr 12); (61, Tr 13); (124, St 5);
      (126, St 5)] (if c <? 45 then (if c >? 39 then (if (42 <=? c) && (c <=? 43) then St 5 else St 0)
      else if c >=? 35 then St 5 else St 0) else if c >? 46 then (if c <? 65 then (if (48 <=? c) &&
      (c <=? 57) then St 5 else St 0) else if c >? 90 then (if (94 <=? c) && (c <=? 122) then St 5 else
      St 0) else St 5) else St 5));
  TR 13 [c_write_field; c_start_value] (GOTO 6)].

Definition client_blocks_3 : list (block client_action) := [
  CASE 6 (fun c => sw c [(33, Tr 14); (124, Tr 14); (126, Tr 14)] (if c <? 45 then (if c >? 39 then (if
      (42 <=? c) && (c <=? 43) then Tr 14 else St 0) else if c >=? 35 then Tr 14 else St 0) else if
      c >? 46 then (if c <? 65 then (if (48 <=? c) && (c <=? 57) then Tr 14 else St 0) else if c >? 90
      then (if (94 <=? c) && (c <=? 122) then Tr 14 else St 0) else Tr 14) else Tr 14));
  TR 14 [c_start_value] (GOTO 7);
  CASE 7 (fun c => sw c [(10, Tr 15); (13, Tr 16); (33, St 7); (59, Tr 18); (124, St 7); (126, St 7)]
      (if c <? 45 then (if c >? 39 then (if (42 <=? c) && (c <=? 43) then St 7 else St 0) else if
      c >=? 35 then St 7 else St 0) else if c >? 46 then (if c <? 65 then (if (48 <=? c) && (c <=? 57)
      then St 7 else St 0) else if c >? 90 then (if (94 <=? c) && (c <=? 122) then St 7 else St 0) else
      St 7) else St 7));
  TR 2 [c_mark] (GOTO 8);
  CASE 8 (fun c => if c =? 84 then St 9 else St 0);
  CASE 9 (fun c => if c =? 84 then St 10 else St 0);
  CASE 10 (fun c => if c =? 80 then St 11 else St 0);
  CASE 11 (fun c => if c =? 47 then St 12 else St 0);
  CASE 12 (fun c => if (48 <=? c) && (c <=? 57) then St 13 else St 0);
  CASE 13 (fun c => if c =? 46 then St 14 else if (48 <=? c) && (c <=? 57) then St 13 else St 0);
  CASE 14 (fun c => if (48 <=? c) && (c <=? 57) then St 15 else St 0);
  CASE 15 (fun c => if c =? 32 then Tr 26 else if (48 <=? c) && (c <=? 57) then St 15 else St 0);
  TR 26 [c_http_version] (GOTO 16);
  CASE 16 (fun c => if (48 <=? c) && (c <=? 57) then Tr 27 else St 0);
  TR 27 [c_mark] (GOTO 17)].

Definition client_blocks_4 : list (block client_action) := [
  CASE 17 (fun c => if c =? 32 then Tr 28 else if (48 <=? c) && (c <=? 57) then St 17 else St 0);
  TR 28 [c_status_code] (GOTO 18);
  CASE 18 (fun c => if c =? 10 then St 0 else Tr 30);
  TR 30 [c_mark] (GOTO 19);
  CASE 19 (fun c => sw c [(10, Tr 32); (13, Tr 33)] (St 19));
  TR 45 [c_write_value] (GOTO 20);
  TR 32 [c_reason_phrase] (GOTO 20);
  TR 42 [c_start_value; c_write_value] (GOTO 20);
  TR 111 [c_write_value; c_trans_chunked] (GOTO 20);
  TR 113 [c_trans_chunked] (GOTO 20);
  TR 158 [c_write_content_len; c_write_value] (GOTO 20);
  CASE 20 (fun c => sw c [(10, Tr 7); (13, St 3); (33, Tr 35); (67, Tr 36); (84, Tr 37); (99, Tr 36);
      (116, Tr 37); (124, Tr 35); (126, Tr 35)] (if c <? 45 then (if c >? 39 then (if (42 <=? c) &&
      (c <=? 43) then Tr 35 else St 0) else if c >=? 35 then Tr 35 else St 0) else if c >? 46 then (if
      c <? 65 then (if (48 <=? c) && (c <=? 57) then Tr 35 else St 0) else if c >? 90 then (if
      (94 <=? c) && (c <=? 122) then Tr 35 else St 0) else Tr 35) else Tr 35));
  TR 35 [c_start_field] (GOTO 21);
  TR 76 [c_write_connection_close; c_start_field] (GOTO 21)].

Definition client_blocks_5 : list (block client_action) := [
  CASE 21 (fun c => sw c [(33, St 21); (58, Tr 39); (124, St 21); (126, St 21)] (if c <? 45 then (if
      c >? 39 then (if (42 <=? c) && (c <=? 43) then St 21 else St 0) else if c >=? 35 then St 21 else
      St 0) else if c >? 46 then (if c <? 65 then (if (48 <=? c) && (c <=? 57) then St 21 else St 0)
      else if c >? 90 then (if (94 <=? c) && (c <=? 122) then St 21 else St 0) else St 21) else St 21));
  TR 41 [c_start_value] (GOTO 22);
  TR 39 [c_write_field] (GOTO 22);
  CASE 22 (fun c => sw c [(10, Tr 42); (13, Tr 43); (32, Tr 41)] (if (9 <=? c) && (c <=? 12) then Tr 41
      else Tr 40));
  TR 40 [c_start_value] (GOTO 23);
  CASE 23 (fun c => sw c [(10, Tr 45); (13, Tr 46)] (St 23));
  TR 46 [c_write_value] (GOTO 24);
  TR 33 [c_reason_phrase] (GOTO 24);
  TR 43 [c_start_value; c_write_value] (GOTO 24);
  TR 159 [c_write_content_len; c_write_value] (GOTO 24);
  CASE 24 (fun c => if c =? 10 then St 20 else St 0);
  TR 36 [c_start_field] (GOTO 25);
  TR 77 [c_write_connection_close; c_start_field] (GOTO 25)].

Definition client_blocks_6 : list (block client_action) := [
  CASE 25 (fun c => sw c [(33, St 21); (58, Tr 39); (79, St 26); (111, St 26); (124, St 21);
      (126, St 21)] (if c <? 45 then (if c >? 39 then (if (42 <=? c) && (c <=? 43) then St 21 else St 0)
      else if c >=? 35 then St 21 else St 0) else if c >? 46 then (if c <? 65 then (if (48 <=? c) &&
      (c <=? 57) then St 21 else St 0) else if c >? 90 then (if (94 <=? c) && (c <=? 122) then St 21
      else St 0) else St 21) else St 21));
  CASE 26 (fun c => sw c [(33, St 21); (58, Tr 39); (78, St 27); (110, St 27); (124, St 21);
      (126, St 21)] (if c <? 45 then (if c >? 39 then (if (42 <=? c) && (c <=? 43) then St 21 else St 0)
      else if c >=? 35 then St 21 else St 0) else if c >? 46 then (if c <? 65 then (if (48 <=? c) &&
      (c <=? 57) then St 21 else St 0) else if c >? 90 then (if (94 <=? c) && (c <=? 122) then St 21
      else St 0) else St 21) else St 21));
  CASE 27 (fun c => sw c [(33, St 21); (58, Tr 39); (78, St 28); (84, St 101); (110, St 28);
      (116, St 101); (124, St 21); (126, St 21)] (if c <? 45 then (if c >? 39 then (if (42 <=? c) &&
      (c <=? 43) then St 21 else St 0) else if c >=? 35 then St 21 else St 0) else if c >? 46 then (if
      c <? 65 then (if (48 <=? c) && (c <=? 57) then St 21 else St 0) else if c >? 90 then (if
      (94 <=? c) && (c <=? 122) then St 21 else St 0) else St 21) else St 21));
  CASE 28 (fun c => sw c [(33, St 21); (58, Tr 39); (69, St 29); (101, St 29); (124, St 21);
      (126, St 21)] (if c <? 45 then (if c >? 39 then (if (42 <=? c) && (c <=? 43) then St 21 else St 0)
      else if c >=? 35 then St 21 else St 0) else if c >? 46 then (if c <? 65 then (if (48 <=? c) &&
      (c <=? 57) then St 21 else St 0) else if c >? 90 then (if (94 <=? c) && (c <=? 122) then St 21
      else St 0) else St 21) else St 21))].

Definition client_blocks_7 : list (block client_action) := [
  CASE 29 (fun c => sw c [(33, St 21); (58, Tr 39); (67, St 30); (99, St 30); (124, St 21);
      (126, St 21)] (if c <? 45 then (if c >? 39 then (if (42 <=? c) && (c <=? 43) then St 21 else St 0)
      else if c >=? 35 then St 21 else St 0) else if c >? 46 then (if c <? 65 then (if (48 <=? c) &&
      (c <=? 57) then St 21 else St 0) else if c >? 90 then (if (94 <=? c) && (c <=? 122) then St 21
      else St 0) else St 21) else St 21));
  CASE 30 (fun c => sw c [(33, St 21); (58, Tr 39); (84, St 31); (116, St 31); (124, St 21);
      (126, St 21)] (if c <? 45 then (if c >? 39 then (if (42 <=? c) && (c <=? 43) then St 21 else St 0)
      else if c >=? 35 then St 21 else St 0) else if c >? 46 then (if c <? 65 then (if (48 <=? c) &&
      (c <=? 57) then St 21 else St 0) else if c >? 90 then (if (94 <=? c) && (c <=? 122) then St 21
      else St 0) else St 21) else St 21));
  CASE 31 (fun c => sw c [(33, St 21); (58, Tr 39); (73, St 32); (105, St 32); (124, St 21);
      (126, St 21)] (if c <? 45 then (if c >? 39 then (if (42 <=? c) && (c <=? 43) then St 21 else St 0)
      else if c >=? 35 then St 21 else St 0) else if c >? 46 then (if c <? 65 then (if (48 <=? c) &&
      (c <=? 57) then St 21 else St 0) else if c >? 90 then (if (94 <=? c) && (c <=? 122) then St 21
      else St 0) else St 21) else St 21));
  CASE 32 (fun c => sw c [(33, St 21); (58, Tr 39); (79, St 33); (111, St 33); (124, St 21);
      (126, St 21)] (if c <? 45 then (if c >? 39 then (if (42 <=? c) && (c <=? 43) then St 21 else St 0)
      else if c >=? 35 then St 21 else St 0) else if c >? 46 then (if c <? 65 then (if (48 <=? c) &&
      (c <=? 57) then St 21 else St 0) else if c >? 90 then (if (94 <=? c) && (c <=? 122) then St 21
      else St 0) else St 21) else St 21));
  CASE 33 (fun c => sw c [(33, St 21); (58, Tr 39); (78, St 34); (110, St 34); (124, St 21);
      (126, St 21)] (if c <? 45 then (if c >? 39 then (if (42 <=? c) && (c <=? 43) then St 21 else St 0)
      else if c >=? 35 then St 21 else St 0) else if c >? 46 then (if c <? 65 then (if (48 <=? c) &&
      (c <=? 57) then St 21 else St 0) else if c >? 90 then (if (94 <=? c) && (c <=? 122) then St 21
      else St 0) else St 21) else St 21))].

Definition client_blocks_8 : list (block client_action) := [
  CASE 34 (fun c => sw c [(33, St 21); (58, Tr 58); (124, St 21); (126, St 21)] (if c <? 45 then (if
      c >? 39 then (if (42 <=? c) && (c <=? 43) then St 21 else St 0) else if c >=? 35 then St 21 else
      St 0) else if c >? 46 then (if c <? 65 then (if (48 <=? c) && (c <=? 57) then St 21 else St 0)
      else if c >? 90 then (if (94 <=? c) && (c <=? 122) then St 21 else St 0) else St 21) else St 21));
  TR 59 [c_start_value] (GOTO 35);
  TR 58 [c_write_field] (GOTO 35);
  CASE 35 (fun c => sw c [(10, Tr 60); (13, Tr 61); (32, Tr 59); (67, Tr 62); (99, Tr 62)] (if (9 <=? c)
      && (c <=? 12) then Tr 59 else Tr 40));
  TR 60 [c_start_value; c_write_value] (GOTO 36);
  CASE 36 (fun c => sw c [(10, Tr 64); (13, St 89); (32, St 37); (33, Tr 35); (67, Tr 66); (84, Tr 37);
      (99, Tr 66); (116, Tr 37); (124, Tr 35); (126, Tr 35)] (if c <? 45 then (if c <? 35 then (if
      (9 <=? c) && (c <=? 12) then St 37 else St 0) else if c >? 39 then (if (42 <=? c) && (c <=? 43)
      then Tr 35 else St 0) else Tr 35) else if c >? 46 then (if c <? 65 then (if (48 <=? c) &&
      (c <=? 57) then Tr 35 else St 0) else if c >? 90 then (if (94 <=? c) && (c <=? 122) then Tr 35
      else St 0) else Tr 35) else Tr 35));
  CASE 37 (fun c => sw c [(32, St 37); (67, St 38); (99, St 38)] (if (9 <=? c) && (c <=? 13) then St 37
      else St 0));
  CASE 38 (fun c => sw c [(76, St 39); (108, St 39)] (St 0));
  CASE 39 (fun c => sw c [(79, St 40); (111, St 40)] (St 0));
  CASE 40 (fun c => sw c [(83, St 41); (115, St 41)] (St 0));
  CASE 41 (fun c => sw c [(69, St 42); (101, St 42)] (St 0))].

Definition client_blocks_9 : list (block client_action) := [
  CASE 42 (fun c => sw c [(10, St 43); (13, St 88)] (St 0));
  TR 136 [c_write_value] (GOTO 43);
  CASE 43 (fun c => sw c [(10, Tr 74); (13, Tr 75); (33, Tr 76); (67, Tr 77); (84, Tr 78); (99, Tr 77);
      (116, Tr 78); (124, Tr 76); (126, Tr 76)] (if c <? 45 then (if c >? 39 then (if (42 <=? c) &&
      (c <=? 43) then Tr 76 else St 0) else if c >=? 35 then Tr 76 else St 0) else if c >? 46 then (if
      c <? 65 then (if (48 <=? c) && (c <=? 57) then Tr 76 else St 0) else if c >? 90 then (if
      (94 <=? c) && (c <=? 122) then Tr 76 else St 0) else Tr 76) else Tr 76));
  TR 37 [c_start_field] (GOTO 44);
  TR 78 [c_write_connection_close; c_start_field] (GOTO 44);
  CASE 44 (fun c => sw c [(33, St 21); (58, Tr 39); (82, St 45); (114, St 45); (124, St 21);
      (126, St 21)] (if c <? 45 then (if c >? 39 then (if (42 <=? c) && (c <=? 43) then St 21 else St 0)
      else if c >=? 35 then St 21 else St 0) else if c >? 46 then (if c <? 65 then (if (48 <=? c) &&
      (c <=? 57) then St 21 else St 0) else if c >? 90 then (if (94 <=? c) && (c <=? 122) then St 21
      else St 0) else St 21) else St 21));
  CASE 45 (fun c => sw c [(33, St 21); (58, Tr 39); (65, St 46); (97, St 46); (124, St 21);
      (126, St 21)] (if c <? 45 then (if c >? 39 then (if (42 <=? c) && (c <=? 43) then St 21 else St 0)
      else if c >=? 35 then St 21 else St 0) else if c >? 46 then (if c <? 66 then (if (48 <=? c) &&
      (c <=? 57) then St 21 else St 0) else if c >? 90 then (if (94 <=? c) && (c <=? 122) then St 21
      else St 0) else St 21) else St 21))].

Definition client_blocks_10 : list (block client_action) := [
  CASE 46 (fun c => sw c [(33, St 21); (58, Tr 39); (78, St 47); (110, St 47); (124, St 21);
      (126, St 21)] (if c <? 45 then (if c >? 39 then (if (42 <=? c) && (c <=? 43) then St 21 else St 0)
      else if c >=? 35 then St 21 else St 0) else if c >? 46 then (if c <? 65 then (if (48 <=? c) &&
      (c <=? 57) then St 21 else St 0) else if c >? 90 then (if (94 <=? c) && (c <=? 122) then St 21
      else St 0) else St 21) else St 21));
  CASE 47 (fun c => sw c [(33, St 21); (58, Tr 39); (83, St 48); (115, St 48); (124, St 21);
      (126, St 21)] (if c <? 45 then (if c >? 39 then (if (42 <=? c) && (c <=? 43) then St 21 else St 0)
      else if c >=? 35 then St 21 else St 0) else if c >? 46 then (if c <? 65 then (if (48 <=? c) &&
      (c <=? 57) then St 21 else St 0) else if c >? 90 then (if (94 <=? c) && (c <=? 122) then St 21
      else St 0) else St 21) else St 21));
  CASE 48 (fun c => sw c [(33, St 21); (58, Tr 39); (70, St 49); (102, St 49); (124, St 21);
      (126, St 21)] (if c <? 45 then (if c >? 39 then (if (42 <=? c) && (c <=? 43) then St 21 else St 0)
      else if c >=? 35 then St 21 else St 0) else if c >? 46 then (if c <? 65 then (if (48 <=? c) &&
      (c <=? 57) then St 21 else St 0) else if c >? 90 then (if (94 <=? c) && (c <=? 122) then St 21
      else St 0) else St 21) else St 21));
  CASE 49 (fun c => sw c [(33, St 21); (58, Tr 39); (69, St 50); (101, St 50); (124, St 21);
      (126, St 21)] (if c <? 45 then (if c >? 39 then (if (42 <=? c) && (c <=? 43) then St 21 else St 0)
      else if c >=? 35 then St 21 else St 0) else if c >? 46 then (if c <? 65 then (if (48 <=? c) &&
      (c <=? 57) then St 21 else St 0) else if c >? 90 then (if (94 <=? c) && (c <=? 122) then St 21
      else St 0) else St 21) else St 21));
  CASE 50 (fun c => sw c [(33, St 21); (58, Tr 39); (82, St 51); (114, St 51); (124, St 21);
      (126, St 21)] (if c <? 45 then (if c >? 39 then (if (42 <=? c) && (c <=? 43) then St 21 else St 0)
      else if c >=? 35 then St 21 else St 0) else if c >? 46 then (if c <? 65 then (if (48 <=? c) &&
      (c <=? 57) then St 21 else St 0) else if c >? 90 then (if (94 <=? c) && (c <=? 122) then St 21
      else St 0) else St 21) else St 21))].

Definition client_blocks_11 : list (block client_action) := [
  CASE 51 (fun c => sw c [(33, St 21); (45, St 52); (46, St 21); (58, Tr 39); (124, St 21);
      (126, St 21)] (if c <? 48 then (if c >? 39 then (if (42 <=? c) && (c <=? 43) then St 21 else St 0)
      else if c >=? 35 then St 21 else St 0) else if c >? 57 then (if c >? 90 then (if (94 <=? c) &&
      (c <=? 122) then St 21 else St 0) else if c >=? 65 then St 21 else St 0) else St 21));
  CASE 52 (fun c => sw c [(33, St 21); (58, Tr 39); (69, St 53); (101, St 53); (124, St 21);
      (126, St 21)] (if c <? 45 then (if c >? 39 then (if (42 <=? c) && (c <=? 43) then St 21 else St 0)
      else if c >=? 35 then St 21 else St 0) else if c >? 46 then (if c <? 65 then (if (48 <=? c) &&
      (c <=? 57) then St 21 else St 0) else if c >? 90 then (if (94 <=? c) && (c <=? 122) then St 21
      else St 0) else St 21) else St 21));
  CASE 53 (fun c => sw c [(33, St 21); (58, Tr 39); (78, St 54); (110, St 54); (124, St 21);
      (126, St 21)] (if c <? 45 then (if c >? 39 then (if (42 <=? c) && (c <=? 43) then St 21 else St 0)
      else if c >=? 35 then St 21 else St 0) else if c >? 46 then (if c <? 65 then (if (48 <=? c) &&
      (c <=? 57) then St 21 else St 0) else if c >? 90 then (if (94 <=? c) && (c <=? 122) then St 21
      else St 0) else St 21) else St 21));
  CASE 54 (fun c => sw c [(33, St 21); (58, Tr 39); (67, St 55); (99, St 55); (124, St 21);
      (126, St 21)] (if c <? 45 then (if c >? 39 then (if (42 <=? c) && (c <=? 43) then St 21 else St 0)
      else if c >=? 35 then St 21 else St 0) else if c >? 46 then (if c <? 65 then (if (48 <=? c) &&
      (c <=? 57) then St 21 else St 0) else if c >? 90 then (if (94 <=? c) && (c <=? 122) then St 21
      else St 0) else St 21) else St 21));
  CASE 55 (fun c => sw c [(33, St 21); (58, Tr 39); (79, St 56); (111, St 56); (124, St 21);
      (126, St 21)] (if c <? 45 then (if c >? 39 then (if (42 <=? c) && (c <=? 43) then St 21 else St 0)
      else if c >=? 35 then St 21 else St 0) else if c >? 46 then (if c <? 65 then (if (48 <=? c) &&
      (c <=? 57) then St 21 else St 0) else if c >? 90 then (if (94 <=? c) && (c <=? 122) then St 21
      else St 0) else St 21) else St 21))].

Definition client_blocks_12 : list (block client_action) := [
  CASE 56 (fun c => sw c [(33, St 21); (58, Tr 39); (68, St 57); (100, St 57); (124, St 21);
      (126, St 21)] (if c <? 45 then (if c >? 39 then (if (42 <=? c) && (c <=? 43) then St 21 else St 0)
      else if c >=? 35 then St 21 else St 0) else if c >? 46 then (if c <? 65 then (if (48 <=? c) &&
      (c <=? 57) then St 21 else St 0) else if c >? 90 then (if (94 <=? c) && (c <=? 122) then St 21
      else St 0) else St 21) else St 21));
  CASE 57 (fun c => sw c [(33, St 21); (58, Tr 39); (73, St 58); (105, St 58); (124, St 21);
      (126, St 21)] (if c <? 45 then (if c >? 39 then (if (42 <=? c) && (c <=? 43) then St 21 else St 0)
      else if c >=? 35 then St 21 else St 0) else if c >? 46 then (if c <? 65 then (if (48 <=? c) &&
      (c <=? 57) then St 21 else St 0) else if c >? 90 then (if (94 <=? c) && (c <=? 122) then St 21
      else St 0) else St 21) else St 21));
  CASE 58 (fun c => sw c [(33, St 21); (58, Tr 39); (78, St 59); (110, St 59); (124, St 21);
      (126, St 21)] (if c <? 45 then (if c >? 39 then (if (42 <=? c) && (c <=? 43) then St 21 else St 0)
      else if c >=? 35 then St 21 else St 0) else if c >? 46 then (if c <? 65 then (if (48 <=? c) &&
      (c <=? 57) then St 21 else St 0) else if c >? 90 then (if (94 <=? c) && (c <=? 122) then St 21
      else St 0) else St 21) else St 21));
  CASE 59 (fun c => sw c [(33, St 21); (58, Tr 39); (71, St 60); (103, St 60); (124, St 21);
      (126, St 21)] (if c <? 45 then (if c >? 39 then (if (42 <=? c) && (c <=? 43) then St 21 else St 0)
      else if c >=? 35 then St 21 else St 0) else if c >? 46 then (if c <? 65 then (if (48 <=? c) &&
      (c <=? 57) then St 21 else St 0) else if c >? 90 then (if (94 <=? c) && (c <=? 122) then St 21
      else St 0) else St 21) else St 21));
  CASE 60 (fun c => sw c [(33, St 21); (58, Tr 95); (124, St 21); (126, St 21)] (if c <? 45 then (if
      c >? 39 then (if (42 <=? c) && (c <=? 43) then St 21 else St 0) else if c >=? 35 then St 21 else
      St 0) else if c >? 46 then (if c <? 65 then (if (48 <=? c) && (c <=? 57) then St 21 else St 0)
      else if c >? 90 then (if (94 <=? c) && (c <=? 122) then St 21 else St 0) else St 21) else St 21))].

Definition client_blocks_13 : list (block client_action) := [
  TR 96 [c_start_value] (GOTO 61);
  TR 95 [c_write_field] (GOTO 61);
  CASE 61 (fun c => sw c [(10, Tr 97); (13, Tr 98); (32, Tr 96); (67, Tr 99); (99, Tr 99)] (if (9 <=? c)
      && (c <=? 12) then Tr 96 else Tr 40));
  TR 97 [c_start_value; c_write_value] (GOTO 62);
  CASE 62 (fun c => sw c [(10, Tr 101); (13, St 72); (32, St 63); (33, Tr 35); (67, Tr 103);
      (84, Tr 37); (99, Tr 103); (116, Tr 37); (124, Tr 35); (126, Tr 35)] (if c <? 45 then (if c <? 35
      then (if (9 <=? c) && (c <=? 12) then St 63 else St 0) else if c >? 39 then (if (42 <=? c) &&
      (c <=? 43) then Tr 35 else St 0) else Tr 35) else if c >? 46 then (if c <? 65 then (if (48 <=? c)
      && (c <=? 57) then Tr 35 else St 0) else if c >? 90 then (if (94 <=? c) && (c <=? 122) then Tr 35
      else St 0) else Tr 35) else Tr 35));
  CASE 63 (fun c => sw c [(32, St 63); (67, Tr 104); (99, Tr 104)] (if (9 <=? c) && (c <=? 13) then
      St 63 else St 0));
  TR 104 [c_start_value] (GOTO 64);
  CASE 64 (fun c => sw c [(72, St 65); (104, St 65)] (St 0));
  CASE 65 (fun c => sw c [(85, St 66); (117, St 66)] (St 0));
  CASE 66 (fun c => sw c [(78, St 67); (110, St 67)] (St 0));
  CASE 67 (fun c => sw c [(75, St 68); (107, St 68)] (St 0));
  CASE 68 (fun c => sw c [(69, St 69); (101, St 69)] (St 0));
  CASE 69 (fun c => sw c [(68, St 70); (100, St 70)] (St 0))].

Definition client_blocks_14 : list (block client_action) := [
  CASE 70 (fun c => sw c [(10, Tr 111); (13, Tr 112)] (St 0));
  TR 112 [c_write_value] (GOTO 71);
  CASE 71 (fun c => if c =? 10 then Tr 113 else St 0);
  TR 101 [c_done] (BREAK 121);
  CASE 121 (fun c => sw c [(32, St 63); (67, Tr 104); (99, Tr 104)] (if (9 <=? c) && (c <=? 13) then
      St 63 else St 0));
  CASE 72 (fun c => sw c [(10, Tr 101); (32, St 63); (67, Tr 104); (99, Tr 104)] (if (9 <=? c) &&
      (c <=? 13) then St 63 else St 0));
  TR 103 [c_start_value; c_start_field] (GOTO 73);
  CASE 73 (fun c => sw c [(33, St 21); (58, Tr 39); (72, St 74); (79, St 26); (104, St 74);
      (111, St 26); (124, St 21); (126, St 21)] (if c <? 45 then (if c >? 39 then (if (42 <=? c) &&
      (c <=? 43) then St 21 else St 0) else if c >=? 35 then St 21 else St 0) else if c >? 46 then (if
      c <? 65 then (if (48 <=? c) && (c <=? 57) then St 21 else St 0) else if c >? 90 then (if
      (94 <=? c) && (c <=? 122) then St 21 else St 0) else St 21) else St 21));
  CASE 74 (fun c => sw c [(33, St 21); (58, Tr 39); (85, St 75); (117, St 75); (124, St 21);
      (126, St 21)] (if c <? 45 then (if c >? 39 then (if (42 <=? c) && (c <=? 43) then St 21 else St 0)
      else if c >=? 35 then St 21 else St 0) else if c >? 46 then (if c <? 65 then (if (48 <=? c) &&
      (c <=? 57) then St 21 else St 0) else if c >? 90 then (if (94 <=? c) && (c <=? 122) then St 21
      else St 0) else St 21) else St 21))].

Definition client_blocks_15 : list (block client_action) := [
  CASE 75 (fun c => sw c [(33, St 21); (58, Tr 39); (78, St 76); (110, St 76); (124, St 21);
      (126, St 21)] (if c <? 45 then (if c >? 39 then (if (42 <=? c) && (c <=? 43) then St 21 else St 0)
      else if c >=? 35 then St 21 else St 0) else if c >? 46 then (if c <? 65 then (if (48 <=? c) &&
      (c <=? 57) then St 21 else St 0) else if c >? 90 then (if (94 <=? c) && (c <=? 122) then St 21
      else St 0) else St 21) else St 21));
  CASE 76 (fun c => sw c [(33, St 21); (58, Tr 39); (75, St 77); (107, St 77); (124, St 21);
      (126, St 21)] (if c <? 45 then (if c >? 39 then (if (42 <=? c) && (c <=? 43) then St 21 else St 0)
      else if c >=? 35 then St 21 else St 0) else if c >? 46 then (if c <? 65 then (if (48 <=? c) &&
      (c <=? 57) then St 21 else St 0) else if c >? 90 then (if (94 <=? c) && (c <=? 122) then St 21
      else St 0) else St 21) else St 21));
  CASE 77 (fun c => sw c [(33, St 21); (58, Tr 39); (69, St 78); (101, St 78); (124, St 21);
      (126, St 21)] (if c <? 45 then (if c >? 39 then (if (42 <=? c) && (c <=? 43) then St 21 else St 0)
      else if c >=? 35 then St 21 else St 0) else if c >? 46 then (if c <? 65 then (if (48 <=? c) &&
      (c <=? 57) then St 21 else St 0) else if c >? 90 then (if (94 <=? c) && (c <=? 122) then St 21
      else St 0) else St 21) else St 21));
  CASE 78 (fun c => sw c [(33, St 21); (58, Tr 39); (68, St 79); (100, St 79); (124, St 21);
      (126, St 21)] (if c <? 45 then (if c >? 39 then (if (42 <=? c) && (c <=? 43) then St 21 else St 0)
      else if c >=? 35 then St 21 else St 0) else if c >? 46 then (if c <? 65 then (if (48 <=? c) &&
      (c <=? 57) then St 21 else St 0) else if c >? 90 then (if (94 <=? c) && (c <=? 122) then St 21
      else St 0) else St 21) else St 21));
  CASE 79 (fun c => sw c [(10, Tr 111); (13, Tr 112); (33, St 21); (58, Tr 39); (124, St 21);
      (126, St 21)] (if c <? 45 then (if c >? 39 then (if (42 <=? c) && (c <=? 43) then St 21 else St 0)
      else if c >=? 35 then St 21 else St 0) else if c >? 46 then (if c <? 65 then (if (48 <=? c) &&
      (c <=? 57) then St 21 else St 0) else if c >? 90 then (if (94 <=? c) && (c <=? 122) then St 21
      else St 0) else St 21) else St 21))].

Definition client_blocks_16 : list (block client_action) := [
  TR 98 [c_start_value; c_write_value] (GOTO 80);
  CASE 80 (fun c => sw c [(10, St 62); (32, St 63); (67, Tr 104); (99, Tr 104)] (if (9 <=? c) &&
      (c <=? 13) then St 63 else St 0));
  TR 99 [c_start_value] (GOTO 81);
  CASE 81 (fun c => sw c [(10, Tr 45); (13, Tr 46); (72, St 82); (104, St 82)] (St 23));
  CASE 82 (fun c => sw c [(10, Tr 45); (13, Tr 46); (85, St 83); (117, St 83)] (St 23));
  CASE 83 (fun c => sw c [(10, Tr 45); (13, Tr 46); (78, St 84); (110, St 84)] (St 23));
  CASE 84 (fun c => sw c [(10, Tr 45); (13, Tr 46); (75, St 85); (107, St 85)] (St 23));
  CASE 85 (fun c => sw c [(10, Tr 45); (13, Tr 46); (69, St 86); (101, St 86)] (St 23));
  CASE 86 (fun c => sw c [(10, Tr 45); (13, Tr 46); (68, St 87); (100, St 87)] (St 23));
  CASE 87 (fun c => sw c [(10, Tr 111); (13, Tr 112)] (St 23));
  TR 137 [c_write_value] (GOTO 88);
  CASE 88 (fun c => if c =? 10 then St 43 else St 0);
  TR 64 [c_done] (BREAK 122);
  CASE 122 (fun c => sw c [(32, St 37); (67, St 38); (99, St 38)] (if (9 <=? c) && (c <=? 13) then St 37
      else St 0))].

Definition client_blocks_17 : list (block client_action) := [
  CASE 89 (fun c => sw c [(10, Tr 64); (32, St 37); (67, St 38); (99, St 38)] (if (9 <=? c) &&
      (c <=? 13) then St 37 else St 0));
  TR 66 [c_start_field] (GOTO 90);
  CASE 90 (fun c => sw c [(33, St 21); (58, Tr 39); (76, St 91); (79, St 26); (108, St 91);
      (111, St 26); (124, St 21); (126, St 21)] (if c <? 45 then (if c >? 39 then (if (42 <=? c) &&
      (c <=? 43) then St 21 else St 0) else if c >=? 35 then St 21 else St 0) else if c >? 46 then (if
      c <? 65 then (if (48 <=? c) && (c <=? 57) then St 21 else St 0) else if c >? 90 then (if
      (94 <=? c) && (c <=? 122) then St 21 else St 0) else St 21) else St 21));
  CASE 91 (fun c => sw c [(33, St 21); (58, Tr 39); (79, St 92); (111, St 92); (124, St 21);
      (126, St 21)] (if c <? 45 then (if c >? 39 then (if (42 <=? c) && (c <=? 43) then St 21 else St 0)
      else if c >=? 35 then St 21 else St 0) else if c >? 46 then (if c <? 65 then (if (48 <=? c) &&
      (c <=? 57) then St 21 else St 0) else if c >? 90 then (if (94 <=? c) && (c <=? 122) then St 21
      else St 0) else St 21) else St 21));
  CASE 92 (fun c => sw c [(33, St 21); (58, Tr 39); (83, St 93); (115, St 93); (124, St 21);
      (126, St 21)] (if c <? 45 then (if c >? 39 then (if (42 <=? c) && (c <=? 43) then St 21 else St 0)
      else if c >=? 35 then St 21 else St 0) else if c >? 46 then (if c <? 65 then (if (48 <=? c) &&
      (c <=? 57) then St 21 else St 0) else if c >? 90 then (if (94 <=? c) && (c <=? 122) then St 21
      else St 0) else St 21) else St 21));
  CASE 93 (fun c => sw c [(33, St 21); (58, Tr 39); (69, St 94); (101, St 94); (124, St 21);
      (126, St 21)] (if c <? 45 then (if c >? 39 then (if (42 <=? c) && (c <=? 43) then St 21 else St 0)
      else if c >=? 35 then St 21 else St 0) else if c >? 46 then (if c <? 65 then (if (48 <=? c) &&
      (c <=? 57) then St 21 else St 0) else if c >? 90 then (if (94 <=? c) && (c <=? 122) then St 21
      else St 0) else St 21) else St 21))].

Definition client_blocks_18 : list (block client_action) := [
  CASE 94 (fun c => sw c [(10, St 43); (13, St 88); (33, St 21); (58, Tr 39); (124, St 21);
      (126, St 21)] (if c <? 45 then (if c >? 39 then (if (42 <=? c) && (c <=? 43) then St 21 else St 0)
      else if c >=? 35 then St 21 else St 0) else if c >? 46 then (if c <? 65 then (if (48 <=? c) &&
      (c <=? 57) then St 21 else St 0) else if c >? 90 then (if (94 <=? c) && (c <=? 122) then St 21
      else St 0) else St 21) else St 21));
  TR 61 [c_start_value; c_write_value] (GOTO 95);
  CASE 95 (fun c => sw c [(10, St 36); (32, St 37); (67, St 38); (99, St 38)] (if (9 <=? c) &&
      (c <=? 13) then St 37 else St 0));
  TR 62 [c_start_value] (GOTO 96);
  CASE 96 (fun c => sw c [(10, Tr 45); (13, Tr 46); (76, St 97); (108, St 97)] (St 23));
  CASE 97 (fun c => sw c [(10, Tr 45); (13, Tr 46); (79, St 98); (111, St 98)] (St 23));
  CASE 98 (fun c => sw c [(10, Tr 45); (13, Tr 46); (83, St 99); (115, St 99)] (St 23));
  CASE 99 (fun c => sw c [(10, Tr 45); (13, Tr 46); (69, St 100); (101, St 100)] (St 23));
  CASE 100 (fun c => sw c [(10, Tr 136); (13, Tr 137)] (St 23));
  CASE 101 (fun c => sw c [(33, St 21); (58, Tr 39); (69, St 102); (101, St 102); (124, St 21);
      (126, St 21)] (if c <? 45 then (if c >? 39 then (if (42 <=? c) && (c <=? 43) then St 21 else St 0)
      else if c >=? 35 then St 21 else St 0) else if c >? 46 then (if c <? 65 then (if (48 <=? c) &&
      (c <=? 57) then St 21 else St 0) else if c >? 90 then (if (94 <=? c) && (c <=? 122) then St 21
      else St 0) else St 21) else St 21))].

Definition client_blocks_19 : list (block client_action) := [
  CASE 102 (fun c => sw c [(33, St 21); (58, Tr 39); (78, St 103); (110, St 103); (124, St 21);
      (126, St 21)] (if c <? 45 then (if c >? 39 then (if (42 <=? c) && (c <=? 43) then St 21 else St 0)
      else if c >=? 35 then St 21 else St 0) else if c >? 46 then (if c <? 65 then (if (48 <=? c) &&
      (c <=? 57) then St 21 else St 0) else if c >? 90 then (if (94 <=? c) && (c <=? 122) then St 21
      else St 0) else St 21) else St 21));
  CASE 103 (fun c => sw c [(33, St 21); (58, Tr 39); (84, St 104); (116, St 104); (124, St 21);
      (126, St 21)] (if c <? 45 then (if c >? 39 then (if (42 <=? c) && (c <=? 43) then St 21 else St 0)
      else if c >=? 35 then St 21 else St 0) else if c >? 46 then (if c <? 65 then (if (48 <=? c) &&
      (c <=? 57) then St 21 else St 0) else if c >? 90 then (if (94 <=? c) && (c <=? 122) then St 21
      else St 0) else St 21) else St 21));
  CASE 104 (fun c => sw c [(33, St 21); (45, St 105); (46, St 21); (58, Tr 39); (124, St 21);
      (126, St 21)] (if c <? 48 then (if c >? 39 then (if (42 <=? c) && (c <=? 43) then St 21 else St 0)
      else if c >=? 35 then St 21 else St 0) else if c >? 57 then (if c >? 90 then (if (94 <=? c) &&
      (c <=? 122) then St 21 else St 0) else if c >=? 65 then St 21 else St 0) else St 21));
  CASE 105 (fun c => sw c [(33, St 21); (58, Tr 39); (76, St 106); (108, St 106); (124, St 21);
      (126, St 21)] (if c <? 45 then (if c >? 39 then (if (42 <=? c) && (c <=? 43) then St 21 else St 0)
      else if c >=? 35 then St 21 else St 0) else if c >? 46 then (if c <? 65 then (if (48 <=? c) &&
      (c <=? 57) then St 21 else St 0) else if c >? 90 then (if (94 <=? c) && (c <=? 122) then St 21
      else St 0) else St 21) else St 21));
  CASE 106 (fun c => sw c [(33, St 21); (58, Tr 39); (69, St 107); (101, St 107); (124, St 21);
      (126, St 21)] (if c <? 45 then (if c >? 39 then (if (42 <=? c) && (c <=? 43) then St 21 else St 0)
      else if c >=? 35 then St 21 else St 0) else if c >? 46 then (if c <? 65 then (if (48 <=? c) &&
      (c <=? 57) then St 21 else St 0) else if c >? 90 then (if (94 <=? c) && (c <=? 122) then St 21
      else St 0) else St 21) else St 21))].

Definition client_blocks_20 : list (block client_action) := [
  CASE 107 (fun c => sw c [(33, St 21); (58, Tr 39); (78, St 108); (110, St 108); (124, St 21);
      (126, St 21)] (if c <? 45 then (if c >? 39 then (if (42 <=? c) && (c <=? 43) then St 21 else St 0)
      else if c >=? 35 then St 21 else St 0) else if c >? 46 then (if c <? 65 then (if (48 <=? c) &&
      (c <=? 57) then St 21 else St 0) else if c >? 90 then (if (94 <=? c) && (c <=? 122) then St 21
      else St 0) else St 21) else St 21));
  CASE 108 (fun c => sw c [(33, St 21); (58, Tr 39); (71, St 109); (103, St 109); (124, St 21);
      (126, St 21)] (if c <? 45 then (if c >? 39 then (if (42 <=? c) && (c <=? 43) then St 21 else St 0)
      else if c >=? 35 then St 21 else St 0) else if c >? 46 then (if c <? 65 then (if (48 <=? c) &&
      (c <=? 57) then St 21 else St 0) else if c >? 90 then (if (94 <=? c) && (c <=? 122) then St 21
      else St 0) else St 21) else St 21));
  CASE 109 (fun c => sw c [(33, St 21); (58, Tr 39); (84, St 110); (116, St 110); (124, St 21);
      (126, St 21)] (if c <? 45 then (if c >? 39 then (if (42 <=? c) && (c <=? 43) then St 21 else St 0)
      else if c >=? 35 then St 21 else St 0) else if c >? 46 then (if c <? 65 then (if (48 <=? c) &&
      (c <=? 57) then St 21 else St 0) else if c >? 90 then (if (94 <=? c) && (c <=? 122) then St 21
      else St 0) else St 21) else St 21));
  CASE 110 (fun c => sw c [(33, St 21); (58, Tr 39); (72, St 111); (104, St 111); (124, St 21);
      (126, St 21)] (if c <? 45 then (if c >? 39 then (if (42 <=? c) && (c <=? 43) then St 21 else St 0)
      else if c >=? 35 then St 21 else St 0) else if c >? 46 then (if c <? 65 then (if (48 <=? c) &&
      (c <=? 57) then St 21 else St 0) else if c >? 90 then (if (94 <=? c) && (c <=? 122) then St 21
      else St 0) else St 21) else St 21));
  CASE 111 (fun c => sw c [(33, St 21); (58, Tr 148); (124, St 21); (126, St 21)] (if c <? 45 then (if
      c >? 39 then (if (42 <=? c) && (c <=? 43) then St 21 else St 0) else if c >=? 35 then St 21 else
      St 0) else if c >? 46 then (if c <? 65 then (if (48 <=? c) && (c <=? 57) then St 21 else St 0)
      else if c >? 90 then (if (94 <=? c) && (c <=? 122) then St 21 else St 0) else St 21) else St 21))].

Definition client_blocks_21 : list (block client_action) := [
  TR 149 [c_start_value] (GOTO 112);
  TR 148 [c_write_field] (GOTO 112);
  CASE 112 (fun c => sw c [(10, Tr 150); (13, Tr 151); (32, Tr 149)] (if c >? 12 then (if (48 <=? c) &&
      (c <=? 57) then Tr 152 else Tr 40) else if c >=? 9 then Tr 149 else Tr 40));
  TR 150 [c_start_value; c_write_value] (GOTO 113);
  CASE 113 (fun c => sw c [(10, Tr 154); (13, St 116); (32, St 114); (33, Tr 35); (67, Tr 36);
      (84, Tr 37); (99, Tr 36); (116, Tr 37); (124, Tr 35); (126, Tr 35)] (if c <? 45 then (if c <? 35
      then (if (9 <=? c) && (c <=? 12) then St 114 else St 0) else if c >? 39 then (if (42 <=? c) &&
      (c <=? 43) then Tr 35 else St 0) else Tr 35) else if c >? 46 then (if c <? 65 then (if (48 <=? c)
      && (c <=? 57) then Tr 156 else St 0) else if c >? 90 then (if (94 <=? c) && (c <=? 122) then Tr 35
      else St 0) else Tr 35) else Tr 35));
  CASE 114 (fun c => if c =? 32 then St 114 else if c >? 13 then (if (48 <=? c) && (c <=? 57) then
      Tr 157 else St 0) else if c >=? 9 then St 114 else St 0);
  TR 157 [c_start_value] (GOTO 115);
  CASE 115 (fun c => sw c [(10, Tr 158); (13, Tr 159)] (if (48 <=? c) && (c <=? 57) then St 115 else
      St 0));
  TR 154 [c_done] (BREAK 123);
  CASE 123 (fun c => if c =? 32 then St 114 else if c >? 13 then (if (48 <=? c) && (c <=? 57) then
      Tr 157 else St 0) else if c >=? 9 then St 114 else St 0);
  CASE 116 (fun c => sw c [(10, Tr 154); (32, St 114)] (if c >? 13 then (if (48 <=? c) && (c <=? 57)
      then Tr 157 else St 0) else if c >=? 9 then St 114 else St 0));
  TR 156 [c_start_value; c_start_field] (GOTO 117)].

Definition client_blocks_22 : list (block client_action) := [
  CASE 117 (fun c => sw c [(10, Tr 158); (13, Tr 159); (33, St 21); (58, Tr 39); (124, St 21);
      (126, St 21)] (if c <? 45 then (if c >? 39 then (if (42 <=? c) && (c <=? 43) then St 21 else St 0)
      else if c >=? 35 then St 21 else St 0) else if c >? 46 then (if c <? 65 then (if (48 <=? c) &&
      (c <=? 57) then St 117 else St 0) else if c >? 90 then (if (94 <=? c) && (c <=? 122) then St 21
      else St 0) else St 21) else St 21));
  TR 151 [c_start_value; c_write_value] (GOTO 118);
  CASE 118 (fun c => sw c [(10, St 113); (32, St 114)] (if c >? 13 then (if (48 <=? c) && (c <=? 57)
      then Tr 157 else St 0) else if c >=? 9 then St 114 else St 0));
  TR 152 [c_start_value] (GOTO 119);
  CASE 119 (fun c => sw c [(10, Tr 158); (13, Tr 159)] (if (48 <=? c) && (c <=? 57) then St 119 else
      St 23))].

(** The blocks of the machine, in the order of the code. *)
Definition client_blocks : list (block client_action) :=
  client_blocks_1 ++ client_blocks_2 ++ client_blocks_3 ++ client_blocks_4 ++ client_blocks_5 ++
      client_blocks_6 ++ client_blocks_7 ++ client_blocks_8 ++ client_blocks_9 ++ client_blocks_10 ++
      client_blocks_11 ++ client_blocks_12 ++ client_blocks_13 ++ client_blocks_14 ++ client_blocks_15
      ++ client_blocks_16 ++ client_blocks_17 ++ client_blocks_18 ++ client_blocks_19 ++
      client_blocks_20 ++ client_blocks_21 ++ client_blocks_22.
