(* ===== verification/UriTable.v ===== *)
(** * The state machine of URIs (src/wyze/uri.cpp)

    The blocks of the code, as in Http11Table. *)

From S2P Require Import Prelude Ragel.

(** The actions of uri.rl *)
Inductive uri_action :=
  | marku | markh | save_scheme | save_port | save_userinfo | save_host | save_path | save_query
  | save_fragment.

Definition uri_blocks_1 : list (block uri_action) := [
  CASE 451 (fun c => sw c [(34, St 0); (35, St 453); (37, St 3); (47, St 458); (58, St 0); (60, St 0);
      (62, St 0); (63, St 456); (96, St 0); (127, St 0)] (if c <? 91 then (if c >? 32 then (if
      (65 <=? c) && (c <=? 90) then Tr 461 else St 452) else if c >=? 0 then St 0 else St 452) else if
      c >? 94 then (if c >? 122 then (if (123 <=? c) && (c <=? 125) then St 0 else St 452) else if
      c >=? 97 then Tr 461 else St 452) else St 0));
  CASE 452 (fun c => sw c [(34, St 0); (35, St 453); (37, St 3); (47, St 455); (58, St 0); (60, St 0);
      (62, St 0); (63, St 456); (96, St 0); (127, St 0)] (if c <? 91 then (if (0 <=? c) && (c <=? 32)
      then St 0 else St 452) else if c >? 94 then (if (123 <=? c) && (c <=? 125) then St 0 else St 452)
      else St 0));
  TR 467 [marku; save_query] (GOTO 453);
  TR 469 [save_query] (GOTO 453);
  TR 474 [markh; save_host] (GOTO 453);
  TR 485 [save_host] (GOTO 453);
  TR 489 [markh; save_port] (GOTO 453);
  TR 493 [save_port] (GOTO 453);
  TR 548 [markh; save_host; save_path] (GOTO 453);
  TR 559 [save_host; markh; save_path] (GOTO 453)].

Definition uri_blocks_2 : list (block uri_action) := [
  TR 563 [save_path] (GOTO 453);
  TR 566 [markh; save_port; save_path] (GOTO 453);
  TR 570 [save_port; markh; save_path] (GOTO 453);
  CASE 453 (fun c => sw c [(37, Tr 463); (60, St 0); (62, St 0); (96, St 0); (127, St 0)] (if c <? 34
      then (if (0 <=? c) && (c <=? 32) then St 0 else Tr 462) else if c >? 35 then (if c >? 94 then (if
      (123 <=? c) && (c <=? 125) then St 0 else Tr 462) else if c >=? 91 then St 0 else Tr 462) else
      St 0));
  TR 462 [marku] (GOTO 454);
  CASE 454 (fun c => sw c [(37, St 1); (60, St 0); (62, St 0); (96, St 0); (127, St 0)] (if c <? 34 then
      (if (0 <=? c) && (c <=? 32) then St 0 else St 454) else if c >? 35 then (if c >? 94 then (if
      (123 <=? c) && (c <=? 125) then St 0 else St 454) else if c >=? 91 then St 0 else St 454) else
      St 0));
  TR 463 [marku] (GOTO 1);
  CASE 1 (fun c => if c <? 65 then (if (48 <=? c) && (c <=? 57) then St 2 else St 0) else if c >? 70
      then (if (97 <=? c) && (c <=? 102) then St 2 else St 0) else St 2);
  CASE 2 (fun c => if c <? 65 then (if (48 <=? c) && (c <=? 57) then St 454 else St 0) else if c >? 70
      then (if (97 <=? c) && (c <=? 102) then St 454 else St 0) else St 454);
  CASE 3 (fun c => if c <? 65 then (if (48 <=? c) && (c <=? 57) then St 4 else St 0) else if c >? 70
      then (if (97 <=? c) && (c <=? 102) then St 4 else St 0) else St 4)].

Definition uri_blocks_3 : list (block uri_action) := [
  CASE 4 (fun c => if c <? 65 then (if (48 <=? c) && (c <=? 57) then St 452 else St 0) else if c >? 70
      then (if (97 <=? c) && (c <=? 102) then St 452 else St 0) else St 452);
  TR 476 [markh; save_host] (GOTO 455);
  TR 486 [save_host] (GOTO 455);
  TR 490 [markh; save_port] (GOTO 455);
  TR 494 [save_port] (GOTO 455);
  CASE 455 (fun c => sw c [(34, St 0); (35, St 453); (37, St 5); (60, St 0); (62, St 0); (63, St 456);
      (96, St 0); (127, St 0)] (if c <? 91 then (if (0 <=? c) && (c <=? 32) then St 0 else St 455) else
      if c >? 94 then (if (123 <=? c) && (c <=? 125) then St 0 else St 455) else St 0));
  CASE 5 (fun c => if c <? 65 then (if (48 <=? c) && (c <=? 57) then St 6 else St 0) else if c >? 70
      then (if (97 <=? c) && (c <=? 102) then St 6 else St 0) else St 6);
  CASE 6 (fun c => if c <? 65 then (if (48 <=? c) && (c <=? 57) then St 455 else St 0) else if c >? 70
      then (if (97 <=? c) && (c <=? 102) then St 455 else St 0) else St 455);
  TR 482 [markh; save_host] (GOTO 456);
  TR 488 [save_host] (GOTO 456);
  TR 492 [markh; save_port] (GOTO 456);
  TR 496 [save_port] (GOTO 456)].

Definition uri_blocks_4 : list (block uri_action) := [
  TR 556 [markh; save_host; save_path] (GOTO 456);
  TR 562 [save_host; markh; save_path] (GOTO 456);
  TR 565 [save_path] (GOTO 456);
  TR 569 [markh; save_port; save_path] (GOTO 456);
  TR 573 [save_port; markh; save_path] (GOTO 456);
  CASE 456 (fun c => sw c [(34, St 0); (35, Tr 467); (37, Tr 468); (60, St 0); (62, St 0); (96, St 0);
      (127, St 0)] (if c <? 91 then (if (0 <=? c) && (c <=? 32) then St 0 else Tr 466) else if c >? 94
      then (if (123 <=? c) && (c <=? 125) then St 0 else Tr 466) else St 0));
  TR 466 [marku] (GOTO 457);
  CASE 457 (fun c => sw c [(34, St 0); (35, Tr 469); (37, St 7); (60, St 0); (62, St 0); (96, St 0);
      (127, St 0)] (if c <? 91 then (if (0 <=? c) && (c <=? 32) then St 0 else St 457) else if c >? 94
      then (if (123 <=? c) && (c <=? 125) then St 0 else St 457) else St 0));
  TR 468 [marku] (GOTO 7);
  CASE 7 (fun c => if c <? 65 then (if (48 <=? c) && (c <=? 57) then St 8 else St 0) else if c >? 70
      then (if (97 <=? c) && (c <=? 102) then St 8 else St 0) else St 8)].

Definition uri_blocks_5 : list (block uri_action) := [
  CASE 8 (fun c => if c <? 65 then (if (48 <=? c) && (c <=? 57) then St 457 else St 0) else if c >? 70
      then (if (97 <=? c) && (c <=? 102) then St 457 else St 0) else St 457);
  CASE 458 (fun c => sw c [(34, St 0); (35, St 453); (37, St 5); (47, St 459); (60, St 0); (62, St 0);
      (63, St 456); (96, St 0); (127, St 0)] (if c <? 91 then (if (0 <=? c) && (c <=? 32) then St 0 else
      St 455) else if c >? 94 then (if (123 <=? c) && (c <=? 125) then St 0 else St 455) else St 0));
  CASE 459 (fun c => sw c [(2, Tr 472); (33, Tr 473); (35, Tr 474); (37, Tr 475); (47, Tr 476);
      (48, Tr 477); (49, Tr 478); (50, Tr 479); (58, Tr 481); (59, Tr 473); (61, Tr 473); (63, Tr 482);
      (64, Tr 483); (91, Tr 484); (95, Tr 473); (126, Tr 473)] (if c <? 51 then (if (36 <=? c) &&
      (c <=? 46) then Tr 473 else St 0) else if c >? 57 then (if c >? 90 then (if (97 <=? c) &&
      (c <=? 122) then Tr 473 else St 0) else if c >=? 65 then Tr 473 else St 0) else Tr 480));
  TR 472 [markh] (GOTO 9);
  CASE 9 (fun c => if (48 <=? c) && (c <=? 52) then St 10 else St 0);
  CASE 10 (fun c => if (48 <=? c) && (c <=? 57) then St 11 else St 0);
  CASE 11 (fun c => if c =? 46 then St 12 else St 0);
  CASE 12 (fun c => sw c [(2, St 13); (48, St 15); (49, St 27); (50, St 29)] (if (51 <=? c) &&
      (c <=? 57) then St 28 else St 0));
  CASE 13 (fun c => if (48 <=? c) && (c <=? 52) then St 14 else St 0);
  CASE 14 (fun c => if (48 <=? c) && (c <=? 57) then St 15 else St 0);
  CASE 15 (fun c => if c =? 46 then St 16 else St 0);
  CASE 16 (fun c => sw c [(2, St 17); (48, St 19); (49, St 23); (50, St 25)] (if (51 <=? c) &&
      (c <=? 57) then St 24 else St 0))].

Definition uri_blocks_6 : list (block uri_action) := [
  CASE 17 (fun c => if (48 <=? c) && (c <=? 52) then St 18 else St 0);
  CASE 18 (fun c => if (48 <=? c) && (c <=? 57) then St 19 else St 0);
  CASE 19 (fun c => if c =? 46 then St 20 else St 0);
  CASE 20 (fun c => sw c [(2, St 21); (48, St 460); (49, St 463); (50, St 465)] (if (51 <=? c) &&
      (c <=? 57) then St 464 else St 0));
  CASE 21 (fun c => if (48 <=? c) && (c <=? 52) then St 22 else St 0);
  CASE 22 (fun c => if (48 <=? c) && (c <=? 57) then St 460 else St 0);
  CASE 460 (fun c => sw c [(35, Tr 485); (47, Tr 486); (58, Tr 487); (63, Tr 488)] (St 0));
  TR 507 [markh; save_host] (GOTO 461);
  TR 487 [save_host] (GOTO 461);
  CASE 461 (fun c => sw c [(35, Tr 489); (47, Tr 490); (63, Tr 492)] (if (48 <=? c) && (c <=? 57) then
      Tr 491 else St 0));
  TR 491 [markh] (GOTO 462);
  CASE 462 (fun c => sw c [(35, Tr 493); (47, Tr 494); (63, Tr 496)] (if (48 <=? c) && (c <=? 57) then
      St 462 else St 0));
  CASE 463 (fun c => sw c [(35, Tr 485); (47, Tr 486); (58, Tr 487); (63, Tr 488)] (if (48 <=? c) &&
      (c <=? 57) then St 464 else St 0));
  CASE 464 (fun c => sw c [(35, Tr 485); (47, Tr 486); (58, Tr 487); (63, Tr 488)] (if (48 <=? c) &&
      (c <=? 57) then St 460 else St 0));
  CASE 465 (fun c => sw c [(35, Tr 485); (47, Tr 486); (53, St 466); (58, Tr 487); (63, Tr 488)] (if
      (48 <=? c) && (c <=? 57) then St 460 else St 0))].

Definition uri_blocks_7 : list (block uri_action) := [
  CASE 466 (fun c => sw c [(35, Tr 485); (47, Tr 486); (58, Tr 487); (63, Tr 488)] (if (48 <=? c) &&
      (c <=? 53) then St 460 else St 0));
  CASE 23 (fun c => if c =? 46 then St 20 else if (48 <=? c) && (c <=? 57) then St 24 else St 0);
  CASE 24 (fun c => if c =? 46 then St 20 else if (48 <=? c) && (c <=? 57) then St 19 else St 0);
  CASE 25 (fun c => sw c [(46, St 20); (53, St 26)] (if (48 <=? c) && (c <=? 57) then St 19 else St 0));
  CASE 26 (fun c => if c =? 46 then St 20 else if (48 <=? c) && (c <=? 53) then St 19 else St 0);
  CASE 27 (fun c => if c =? 46 then St 16 else if (48 <=? c) && (c <=? 57) then St 28 else St 0);
  CASE 28 (fun c => if c =? 46 then St 16 else if (48 <=? c) && (c <=? 57) then St 15 else St 0);
  CASE 29 (fun c => sw c [(46, St 16); (53, St 30)] (if (48 <=? c) && (c <=? 57) then St 15 else St 0));
  CASE 30 (fun c => if c =? 46 then St 16 else if (48 <=? c) && (c <=? 53) then St 15 else St 0);
  TR 473 [markh] (GOTO 467);
  CASE 467 (fun c => sw c [(33, St 467); (35, Tr 485); (37, St 31); (47, Tr 486); (58, Tr 499);
      (61, St 467); (63, Tr 488); (64, Tr 38); (95, St 467); (126, St 467)] (if c <? 65 then (if
      (36 <=? c) && (c <=? 59) then St 467 else St 0) else if c >? 90 then (if (97 <=? c) && (c <=? 122)
      then St 467 else St 0) else St 467));
  TR 475 [markh] (GOTO 31);
  CASE 31 (fun c => if c <? 65 then (if (48 <=? c) && (c <=? 57) then St 32 else St 0) else if c >? 70
      then (if (97 <=? c) && (c <=? 102) then St 32 else St 0) else St 32);
  CASE 32 (fun c => if c <? 65 then (if (48 <=? c) && (c <=? 57) then St 467 else St 0) else if c >? 70
      then (if (97 <=? c) && (c <=? 102) then St 467 else St 0) else St 467)].

Definition uri_blocks_8 : list (block uri_action) := [
  TR 481 [markh; save_host] (GOTO 468);
  TR 499 [save_host] (GOTO 468);
  CASE 468 (fun c => sw c [(33, St 33); (35, Tr 489); (37, St 34); (47, Tr 490); (61, St 33);
      (63, Tr 492); (64, Tr 38); (95, St 33); (126, St 33)] (if c <? 58 then (if c >? 46 then (if
      (48 <=? c) && (c <=? 57) then Tr 500 else St 0) else if c >=? 36 then St 33 else St 0) else if
      c >? 59 then (if c >? 90 then (if (97 <=? c) && (c <=? 122) then St 33 else St 0) else if c >=? 65
      then St 33 else St 0) else St 33));
  CASE 33 (fun c => sw c [(33, St 33); (37, St 34); (61, St 33); (64, Tr 38); (95, St 33); (126, St 33)]
      (if c <? 48 then (if (36 <=? c) && (c <=? 46) then St 33 else St 0) else if c >? 59 then (if
      c >? 90 then (if (97 <=? c) && (c <=? 122) then St 33 else St 0) else if c >=? 65 then St 33 else
      St 0) else St 33));
  CASE 34 (fun c => if c <? 65 then (if (48 <=? c) && (c <=? 57) then St 35 else St 0) else if c >? 70
      then (if (97 <=? c) && (c <=? 102) then St 35 else St 0) else St 35);
  CASE 35 (fun c => if c <? 65 then (if (48 <=? c) && (c <=? 57) then St 33 else St 0) else if c >? 70
      then (if (97 <=? c) && (c <=? 102) then St 33 else St 0) else St 33);
  TR 38 [save_userinfo] (GOTO 469);
  TR 483 [markh; save_userinfo] (GOTO 469)].

Definition uri_blocks_9 : list (block uri_action) := [
  CASE 469 (fun c => sw c [(2, Tr 472); (33, Tr 501); (35, Tr 474); (37, Tr 502); (47, Tr 476);
      (48, Tr 503); (49, Tr 504); (50, Tr 505); (58, Tr 507); (59, Tr 501); (61, Tr 501); (63, Tr 482);
      (91, Tr 484); (95, Tr 501); (126, Tr 501)] (if c <? 51 then (if (36 <=? c) && (c <=? 46) then
      Tr 501 else St 0) else if c >? 57 then (if c >? 90 then (if (97 <=? c) && (c <=? 122) then Tr 501
      else St 0) else if c >=? 65 then Tr 501 else St 0) else Tr 506));
  TR 501 [markh] (GOTO 470);
  CASE 470 (fun c => sw c [(33, St 470); (35, Tr 485); (37, St 36); (47, Tr 486); (58, Tr 487);
      (61, St 470); (63, Tr 488); (95, St 470); (126, St 470)] (if c <? 65 then (if (36 <=? c) &&
      (c <=? 59) then St 470 else St 0) else if c >? 90 then (if (97 <=? c) && (c <=? 122) then St 470
      else St 0) else St 470));
  TR 502 [markh] (GOTO 36);
  CASE 36 (fun c => if c <? 65 then (if (48 <=? c) && (c <=? 57) then St 37 else St 0) else if c >? 70
      then (if (97 <=? c) && (c <=? 102) then St 37 else St 0) else St 37);
  CASE 37 (fun c => if c <? 65 then (if (48 <=? c) && (c <=? 57) then St 470 else St 0) else if c >? 70
      then (if (97 <=? c) && (c <=? 102) then St 470 else St 0) else St 470);
  TR 503 [markh] (GOTO 471);
  CASE 471 (fun c => sw c [(33, St 470); (35, Tr 485); (37, St 36); (46, St 472); (47, Tr 486);
      (58, Tr 487); (61, St 470); (63, Tr 488); (95, St 470); (126, St 470)] (if c <? 65 then (if
      (36 <=? c) && (c <=? 59) then St 470 else St 0) else if c >? 90 then (if (97 <=? c) && (c <=? 122)
      then St 470 else St 0) else St 470))].

Definition uri_blocks_10 : list (block uri_action) := [
  CASE 472 (fun c => sw c [(2, St 13); (33, St 470); (35, Tr 485); (37, St 36); (47, Tr 486);
      (48, St 473); (49, St 481); (50, St 483); (58, Tr 487); (59, St 470); (61, St 470); (63, Tr 488);
      (95, St 470); (126, St 470)] (if c <? 51 then (if (36 <=? c) && (c <=? 46) then St 470 else St 0)
      else if c >? 57 then (if c >? 90 then (if (97 <=? c) && (c <=? 122) then St 470 else St 0) else if
      c >=? 65 then St 470 else St 0) else St 482));
  CASE 473 (fun c => sw c [(33, St 470); (35, Tr 485); (37, St 36); (46, St 474); (47, Tr 486);
      (58, Tr 487); (61, St 470); (63, Tr 488); (95, St 470); (126, St 470)] (if c <? 65 then (if
      (36 <=? c) && (c <=? 59) then St 470 else St 0) else if c >? 90 then (if (97 <=? c) && (c <=? 122)
      then St 470 else St 0) else St 470));
  CASE 474 (fun c => sw c [(2, St 17); (33, St 470); (35, Tr 485); (37, St 36); (47, Tr 486);
      (48, St 475); (49, St 477); (50, St 479); (58, Tr 487); (59, St 470); (61, St 470); (63, Tr 488);
      (95, St 470); (126, St 470)] (if c <? 51 then (if (36 <=? c) && (c <=? 46) then St 470 else St 0)
      else if c >? 57 then (if c >? 90 then (if (97 <=? c) && (c <=? 122) then St 470 else St 0) else if
      c >=? 65 then St 470 else St 0) else St 478));
  CASE 475 (fun c => sw c [(33, St 470); (35, Tr 485); (37, St 36); (46, St 476); (47, Tr 486);
      (58, Tr 487); (61, St 470); (63, Tr 488); (95, St 470); (126, St 470)] (if c <? 65 then (if
      (36 <=? c) && (c <=? 59) then St 470 else St 0) else if c >? 90 then (if (97 <=? c) && (c <=? 122)
      then St 470 else St 0) else St 470));
  CASE 476 (fun c => sw c [(2, St 21); (33, St 470); (35, Tr 485); (37, St 36); (47, Tr 486);
      (58, Tr 487); (61, St 470); (63, Tr 488); (95, St 470); (126, St 470)] (if c <? 65 then (if
      (36 <=? c) && (c <=? 59) then St 470 else St 0) else if c >? 90 then (if (97 <=? c) && (c <=? 122)
      then St 470 else St 0) else St 470))].

Definition uri_blocks_11 : list (block uri_action) := [
  CASE 477 (fun c => sw c [(33, St 470); (35, Tr 485); (37, St 36); (46, St 476); (47, Tr 486);
      (58, Tr 487); (59, St 470); (61, St 470); (63, Tr 488); (95, St 470); (126, St 470)] (if c <? 48
      then (if (36 <=? c) && (c <=? 45) then St 470 else St 0) else if c >? 57 then (if c >? 90 then (if
      (97 <=? c) && (c <=? 122) then St 470 else St 0) else if c >=? 65 then St 470 else St 0) else
      St 478));
  CASE 478 (fun c => sw c [(33, St 470); (35, Tr 485); (37, St 36); (46, St 476); (47, Tr 486);
      (58, Tr 487); (59, St 470); (61, St 470); (63, Tr 488); (95, St 470); (126, St 470)] (if c <? 48
      then (if (36 <=? c) && (c <=? 45) then St 470 else St 0) else if c >? 57 then (if c >? 90 then (if
      (97 <=? c) && (c <=? 122) then St 470 else St 0) else if c >=? 65 then St 470 else St 0) else
      St 475));
  CASE 479 (fun c => sw c [(33, St 470); (35, Tr 485); (37, St 36); (46, St 476); (47, Tr 486);
      (53, St 480); (58, Tr 487); (59, St 470); (61, St 470); (63, Tr 488); (95, St 470); (126, St 470)]
      (if c <? 48 then (if (36 <=? c) && (c <=? 45) then St 470 else St 0) else if c >? 57 then (if
      c >? 90 then (if (97 <=? c) && (c <=? 122) then St 470 else St 0) else if c >=? 65 then St 470
      else St 0) else St 475));
  CASE 480 (fun c => sw c [(33, St 470); (35, Tr 485); (37, St 36); (46, St 476); (47, Tr 486);
      (58, Tr 487); (61, St 470); (63, Tr 488); (95, St 470); (126, St 470)] (if c <? 54 then (if
      c >? 45 then (if (48 <=? c) && (c <=? 53) then St 475 else St 0) else if c >=? 36 then St 470 else
      St 0) else if c >? 59 then (if c >? 90 then (if (97 <=? c) && (c <=? 122) then St 470 else St 0)
      else if c >=? 65 then St 470 else St 0) else St 470));
  CASE 481 (fun c => sw c [(33, St 470); (35, Tr 485); (37, St 36); (46, St 474); (47, Tr 486);
      (58, Tr 487); (59, St 470); (61, St 470); (63, Tr 488); (95, St 470); (126, St 470)] (if c <? 48
      then (if (36 <=? c) && (c <=? 45) then St 470 else St 0) else if c >? 57 then (if c >? 90 then (if
      (97 <=? c) && (c <=? 122) then St 470 else St 0) else if c >=? 65 then St 470 else St 0) else
      St 482))].

Definition uri_blocks_12 : list (block uri_action) := [
  CASE 482 (fun c => sw c [(33, St 470); (35, Tr 485); (37, St 36); (46, St 474); (47, Tr 486);
      (58, Tr 487); (59, St 470); (61, St 470); (63, Tr 488); (95, St 470); (126, St 470)] (if c <? 48
      then (if (36 <=? c) && (c <=? 45) then St 470 else St 0) else if c >? 57 then (if c >? 90 then (if
      (97 <=? c) && (c <=? 122) then St 470 else St 0) else if c >=? 65 then St 470 else St 0) else
      St 473));
  CASE 483 (fun c => sw c [(33, St 470); (35, Tr 485); (37, St 36); (46, St 474); (47, Tr 486);
      (53, St 484); (58, Tr 487); (59, St 470); (61, St 470); (63, Tr 488); (95, St 470); (126, St 470)]
      (if c <? 48 then (if (36 <=? c) && (c <=? 45) then St 470 else St 0) else if c >? 57 then (if
      c >? 90 then (if (97 <=? c) && (c <=? 122) then St 470 else St 0) else if c >=? 65 then St 470
      else St 0) else St 473));
  CASE 484 (fun c => sw c [(33, St 470); (35, Tr 485); (37, St 36); (46, St 474); (47, Tr 486);
      (58, Tr 487); (61, St 470); (63, Tr 488); (95, St 470); (126, St 470)] (if c <? 54 then (if
      c >? 45 then (if (48 <=? c) && (c <=? 53) then St 473 else St 0) else if c >=? 36 then St 470 else
      St 0) else if c >? 59 then (if c >? 90 then (if (97 <=? c) && (c <=? 122) then St 470 else St 0)
      else if c >=? 65 then St 470 else St 0) else St 470));
  TR 504 [markh] (GOTO 485);
  CASE 485 (fun c => sw c [(33, St 470); (35, Tr 485); (37, St 36); (46, St 472); (47, Tr 486);
      (58, Tr 487); (59, St 470); (61, St 470); (63, Tr 488); (95, St 470); (126, St 470)] (if c <? 48
      then (if (36 <=? c) && (c <=? 45) then St 470 else St 0) else if c >? 57 then (if c >? 90 then (if
      (97 <=? c) && (c <=? 122) then St 470 else St 0) else if c >=? 65 then St 470 else St 0) else
      St 486));
  TR 506 [markh] (GOTO 486)].

Definition uri_blocks_13 : list (block uri_action) := [
  CASE 486 (fun c => sw c [(33, St 470); (35, Tr 485); (37, St 36); (46, St 472); (47, Tr 486);
      (58, Tr 487); (59, St 470); (61, St 470); (63, Tr 488); (95, St 470); (126, St 470)] (if c <? 48
      then (if (36 <=? c) && (c <=? 45) then St 470 else St 0) else if c >? 57 then (if c >? 90 then (if
      (97 <=? c) && (c <=? 122) then St 470 else St 0) else if c >=? 65 then St 470 else St 0) else
      St 471));
  TR 505 [markh] (GOTO 487);
  CASE 487 (fun c => sw c [(33, St 470); (35, Tr 485); (37, St 36); (46, St 472); (47, Tr 486);
      (53, St 488); (58, Tr 487); (59, St 470); (61, St 470); (63, Tr 488); (95, St 470); (126, St 470)]
      (if c <? 48 then (if (36 <=? c) && (c <=? 45) then St 470 else St 0) else if c >? 57 then (if
      c >? 90 then (if (97 <=? c) && (c <=? 122) then St 470 else St 0) else if c >=? 65 then St 470
      else St 0) else St 471));
  CASE 488 (fun c => sw c [(33, St 470); (35, Tr 485); (37, St 36); (46, St 472); (47, Tr 486);
      (58, Tr 487); (61, St 470); (63, Tr 488); (95, St 470); (126, St 470)] (if c <? 54 then (if
      c >? 45 then (if (48 <=? c) && (c <=? 53) then St 471 else St 0) else if c >=? 36 then St 470 else
      St 0) else if c >? 59 then (if c >? 90 then (if (97 <=? c) && (c <=? 122) then St 470 else St 0)
      else if c >=? 65 then St 470 else St 0) else St 470));
  TR 484 [markh] (GOTO 38);
  CASE 38 (fun c => sw c [(58, St 146); (118, St 225)] (if c <? 65 then (if (48 <=? c) && (c <=? 57)
      then St 39 else St 0) else if c >? 70 then (if (97 <=? c) && (c <=? 102) then St 39 else St 0)
      else St 39));
  CASE 39 (fun c => if c =? 58 then St 43 else if c <? 65 then (if (48 <=? c) && (c <=? 57) then St 40
      else St 0) else if c >? 70 then (if (97 <=? c) && (c <=? 102) then St 40 else St 0) else St 40);
  CASE 40 (fun c => if c =? 58 then St 43 else if c <? 65 then (if (48 <=? c) && (c <=? 57) then St 41
      else St 0) else if c >? 70 then (if (97 <=? c) && (c <=? 102) then St 41 else St 0) else St 41)].

Definition uri_blocks_14 : list (block uri_action) := [
  CASE 41 (fun c => if c =? 58 then St 43 else if c <? 65 then (if (48 <=? c) && (c <=? 57) then St 42
      else St 0) else if c >? 70 then (if (97 <=? c) && (c <=? 102) then St 42 else St 0) else St 42);
  CASE 42 (fun c => if c =? 58 then St 43 else St 0);
  CASE 43 (fun c => if c =? 58 then St 141 else if c <? 65 then (if (48 <=? c) && (c <=? 57) then St 44
      else St 0) else if c >? 70 then (if (97 <=? c) && (c <=? 102) then St 44 else St 0) else St 44);
  CASE 44 (fun c => if c =? 58 then St 48 else if c <? 65 then (if (48 <=? c) && (c <=? 57) then St 45
      else St 0) else if c >? 70 then (if (97 <=? c) && (c <=? 102) then St 45 else St 0) else St 45);
  CASE 45 (fun c => if c =? 58 then St 48 else if c <? 65 then (if (48 <=? c) && (c <=? 57) then St 46
      else St 0) else if c >? 70 then (if (97 <=? c) && (c <=? 102) then St 46 else St 0) else St 46);
  CASE 46 (fun c => if c =? 58 then St 48 else if c <? 65 then (if (48 <=? c) && (c <=? 57) then St 47
      else St 0) else if c >? 70 then (if (97 <=? c) && (c <=? 102) then St 47 else St 0) else St 47);
  CASE 47 (fun c => if c =? 58 then St 48 else St 0);
  CASE 48 (fun c => if c =? 58 then St 136 else if c <? 65 then (if (48 <=? c) && (c <=? 57) then St 49
      else St 0) else if c >? 70 then (if (97 <=? c) && (c <=? 102) then St 49 else St 0) else St 49);
  CASE 49 (fun c => if c =? 58 then St 53 else if c <? 65 then (if (48 <=? c) && (c <=? 57) then St 50
      else St 0) else if c >? 70 then (if (97 <=? c) && (c <=? 102) then St 50 else St 0) else St 50);
  CASE 50 (fun c => if c =? 58 then St 53 else if c <? 65 then (if (48 <=? c) && (c <=? 57) then St 51
      else St 0) else if c >? 70 then (if (97 <=? c) && (c <=? 102) then St 51 else St 0) else St 51);
  CASE 51 (fun c => if c =? 58 then St 53 else if c <? 65 then (if (48 <=? c) && (c <=? 57) then St 52
      else St 0) else if c >? 70 then (if (97 <=? c) && (c <=? 102) then St 52 else St 0) else St 52)].

Definition uri_blocks_15 : list (block uri_action) := [
  CASE 52 (fun c => if c =? 58 then St 53 else St 0);
  CASE 53 (fun c => if c =? 58 then St 131 else if c <? 65 then (if (48 <=? c) && (c <=? 57) then St 54
      else St 0) else if c >? 70 then (if (97 <=? c) && (c <=? 102) then St 54 else St 0) else St 54);
  CASE 54 (fun c => if c =? 58 then St 58 else if c <? 65 then (if (48 <=? c) && (c <=? 57) then St 55
      else St 0) else if c >? 70 then (if (97 <=? c) && (c <=? 102) then St 55 else St 0) else St 55);
  CASE 55 (fun c => if c =? 58 then St 58 else if c <? 65 then (if (48 <=? c) && (c <=? 57) then St 56
      else St 0) else if c >? 70 then (if (97 <=? c) && (c <=? 102) then St 56 else St 0) else St 56);
  CASE 56 (fun c => if c =? 58 then St 58 else if c <? 65 then (if (48 <=? c) && (c <=? 57) then St 57
      else St 0) else if c >? 70 then (if (97 <=? c) && (c <=? 102) then St 57 else St 0) else St 57);
  CASE 57 (fun c => if c =? 58 then St 58 else St 0);
  CASE 58 (fun c => if c =? 58 then St 126 else if c <? 65 then (if (48 <=? c) && (c <=? 57) then St 59
      else St 0) else if c >? 70 then (if (97 <=? c) && (c <=? 102) then St 59 else St 0) else St 59);
  CASE 59 (fun c => if c =? 58 then St 63 else if c <? 65 then (if (48 <=? c) && (c <=? 57) then St 60
      else St 0) else if c >? 70 then (if (97 <=? c) && (c <=? 102) then St 60 else St 0) else St 60);
  CASE 60 (fun c => if c =? 58 then St 63 else if c <? 65 then (if (48 <=? c) && (c <=? 57) then St 61
      else St 0) else if c >? 70 then (if (97 <=? c) && (c <=? 102) then St 61 else St 0) else St 61);
  CASE 61 (fun c => if c =? 58 then St 63 else if c <? 65 then (if (48 <=? c) && (c <=? 57) then St 62
      else St 0) else if c >? 70 then (if (97 <=? c) && (c <=? 102) then St 62 else St 0) else St 62);
  CASE 62 (fun c => if c =? 58 then St 63 else St 0)].

Definition uri_blocks_16 : list (block uri_action) := [
  CASE 63 (fun c => if c =? 58 then St 113 else if c <? 65 then (if (48 <=? c) && (c <=? 57) then St 64
      else St 0) else if c >? 70 then (if (97 <=? c) && (c <=? 102) then St 64 else St 0) else St 64);
  CASE 64 (fun c => if c =? 58 then St 68 else if c <? 65 then (if (48 <=? c) && (c <=? 57) then St 65
      else St 0) else if c >? 70 then (if (97 <=? c) && (c <=? 102) then St 65 else St 0) else St 65);
  CASE 65 (fun c => if c =? 58 then St 68 else if c <? 65 then (if (48 <=? c) && (c <=? 57) then St 66
      else St 0) else if c >? 70 then (if (97 <=? c) && (c <=? 102) then St 66 else St 0) else St 66);
  CASE 66 (fun c => if c =? 58 then St 68 else if c <? 65 then (if (48 <=? c) && (c <=? 57) then St 67
      else St 0) else if c >? 70 then (if (97 <=? c) && (c <=? 102) then St 67 else St 0) else St 67);
  CASE 67 (fun c => if c =? 58 then St 68 else St 0);
  CASE 68 (fun c => sw c [(2, St 69); (48, St 96); (49, St 104); (50, St 107); (58, St 111)] (if c <? 65
      then (if (51 <=? c) && (c <=? 57) then St 110 else St 0) else if c >? 70 then (if (97 <=? c) &&
      (c <=? 102) then St 112 else St 0) else St 112));
  CASE 69 (fun c => if (48 <=? c) && (c <=? 52) then St 70 else St 0);
  CASE 70 (fun c => if (48 <=? c) && (c <=? 57) then St 71 else St 0);
  CASE 71 (fun c => if c =? 46 then St 72 else St 0);
  CASE 72 (fun c => sw c [(2, St 73); (48, St 75); (49, St 92); (50, St 94)] (if (51 <=? c) &&
      (c <=? 57) then St 93 else St 0));
  CASE 73 (fun c => if (48 <=? c) && (c <=? 52) then St 74 else St 0);
  CASE 74 (fun c => if (48 <=? c) && (c <=? 57) then St 75 else St 0);
  CASE 75 (fun c => if c =? 46 then St 76 else St 0)].

Definition uri_blocks_17 : list (block uri_action) := [
  CASE 76 (fun c => sw c [(2, St 77); (48, St 79); (49, St 88); (50, St 90)] (if (51 <=? c) &&
      (c <=? 57) then St 89 else St 0));
  CASE 77 (fun c => if (48 <=? c) && (c <=? 52) then St 78 else St 0);
  CASE 78 (fun c => if (48 <=? c) && (c <=? 57) then St 79 else St 0);
  CASE 79 (fun c => if c =? 46 then St 80 else St 0);
  CASE 80 (fun c => sw c [(2, St 81); (48, St 83); (49, St 84); (50, St 86)] (if (51 <=? c) &&
      (c <=? 57) then St 85 else St 0));
  CASE 81 (fun c => if (48 <=? c) && (c <=? 52) then St 82 else St 0);
  CASE 82 (fun c => if (48 <=? c) && (c <=? 57) then St 83 else St 0);
  CASE 83 (fun c => if c =? 93 then St 460 else St 0);
  CASE 84 (fun c => if c =? 93 then St 460 else if (48 <=? c) && (c <=? 57) then St 85 else St 0);
  CASE 85 (fun c => if c =? 93 then St 460 else if (48 <=? c) && (c <=? 57) then St 83 else St 0);
  CASE 86 (fun c => sw c [(53, St 87); (93, St 460)] (if (48 <=? c) && (c <=? 57) then St 83 else St 0));
  CASE 87 (fun c => if c =? 93 then St 460 else if (48 <=? c) && (c <=? 53) then St 83 else St 0);
  CASE 88 (fun c => if c =? 46 then St 80 else if (48 <=? c) && (c <=? 57) then St 89 else St 0);
  CASE 89 (fun c => if c =? 46 then St 80 else if (48 <=? c) && (c <=? 57) then St 79 else St 0);
  CASE 90 (fun c => sw c [(46, St 80); (53, St 91)] (if (48 <=? c) && (c <=? 57) then St 79 else St 0));
  CASE 91 (fun c => if c =? 46 then St 80 else if (48 <=? c) && (c <=? 53) then St 79 else St 0)].

Definition uri_blocks_18 : list (block uri_action) := [
  CASE 92 (fun c => if c =? 46 then St 76 else if (48 <=? c) && (c <=? 57) then St 93 else St 0);
  CASE 93 (fun c => if c =? 46 then St 76 else if (48 <=? c) && (c <=? 57) then St 75 else St 0);
  CASE 94 (fun c => sw c [(46, St 76); (53, St 95)] (if (48 <=? c) && (c <=? 57) then St 75 else St 0));
  CASE 95 (fun c => if c =? 46 then St 76 else if (48 <=? c) && (c <=? 53) then St 75 else St 0);
  CASE 96 (fun c => sw c [(46, St 72); (58, St 100)] (if c <? 65 then (if (48 <=? c) && (c <=? 57) then
      St 97 else St 0) else if c >? 70 then (if (97 <=? c) && (c <=? 102) then St 97 else St 0) else
      St 97));
  CASE 97 (fun c => if c =? 58 then St 100 else if c <? 65 then (if (48 <=? c) && (c <=? 57) then St 98
      else St 0) else if c >? 70 then (if (97 <=? c) && (c <=? 102) then St 98 else St 0) else St 98);
  CASE 98 (fun c => if c =? 58 then St 100 else if c <? 65 then (if (48 <=? c) && (c <=? 57) then St 99
      else St 0) else if c >? 70 then (if (97 <=? c) && (c <=? 102) then St 99 else St 0) else St 99);
  CASE 99 (fun c => if c =? 58 then St 100 else St 0);
  CASE 100 (fun c => if c =? 58 then St 83 else if c <? 65 then (if (48 <=? c) && (c <=? 57) then St 101
      else St 0) else if c >? 70 then (if (97 <=? c) && (c <=? 102) then St 101 else St 0) else St 101);
  CASE 101 (fun c => if c =? 93 then St 460 else if c <? 65 then (if (48 <=? c) && (c <=? 57) then
      St 102 else St 0) else if c >? 70 then (if (97 <=? c) && (c <=? 102) then St 102 else St 0) else
      St 102);
  CASE 102 (fun c => if c =? 93 then St 460 else if c <? 65 then (if (48 <=? c) && (c <=? 57) then
      St 103 else St 0) else if c >? 70 then (if (97 <=? c) && (c <=? 102) then St 103 else St 0) else
      St 103)].

Definition uri_blocks_19 : list (block uri_action) := [
  CASE 103 (fun c => if c =? 93 then St 460 else if c <? 65 then (if (48 <=? c) && (c <=? 57) then St 83
      else St 0) else if c >? 70 then (if (97 <=? c) && (c <=? 102) then St 83 else St 0) else St 83);
  CASE 104 (fun c => sw c [(46, St 72); (58, St 100)] (if c <? 65 then (if (48 <=? c) && (c <=? 57) then
      St 105 else St 0) else if c >? 70 then (if (97 <=? c) && (c <=? 102) then St 97 else St 0) else
      St 97));
  CASE 105 (fun c => sw c [(46, St 72); (58, St 100)] (if c <? 65 then (if (48 <=? c) && (c <=? 57) then
      St 106 else St 0) else if c >? 70 then (if (97 <=? c) && (c <=? 102) then St 98 else St 0) else
      St 98));
  CASE 106 (fun c => sw c [(46, St 72); (58, St 100)] (if c <? 65 then (if (48 <=? c) && (c <=? 57) then
      St 99 else St 0) else if c >? 70 then (if (97 <=? c) && (c <=? 102) then St 99 else St 0) else
      St 99));
  CASE 107 (fun c => sw c [(46, St 72); (53, St 109); (58, St 100)] (if c <? 65 then (if (48 <=? c) &&
      (c <=? 57) then St 108 else St 0) else if c >? 70 then (if (97 <=? c) && (c <=? 102) then St 97
      else St 0) else St 97));
  CASE 108 (fun c => sw c [(46, St 72); (58, St 100)] (if c <? 65 then (if (48 <=? c) && (c <=? 57) then
      St 98 else St 0) else if c >? 70 then (if (97 <=? c) && (c <=? 102) then St 98 else St 0) else
      St 98));
  CASE 109 (fun c => sw c [(46, St 72); (58, St 100)] (if c <? 54 then (if (48 <=? c) && (c <=? 53) then
      St 106 else St 0) else if c >? 57 then (if c >? 70 then (if (97 <=? c) && (c <=? 102) then St 98
      else St 0) else if c >=? 65 then St 98 else St 0) else St 98));
  CASE 110 (fun c => sw c [(46, St 72); (58, St 100)] (if c <? 65 then (if (48 <=? c) && (c <=? 57) then
      St 108 else St 0) else if c >? 70 then (if (97 <=? c) && (c <=? 102) then St 97 else St 0) else
      St 97))].

Definition uri_blocks_20 : list (block uri_action) := [
  CASE 111 (fun c => if c <? 65 then (if (48 <=? c) && (c <=? 57) then St 101 else St 0) else if c >? 70
      then (if (97 <=? c) && (c <=? 102) then St 101 else St 0) else St 101);
  CASE 112 (fun c => if c =? 58 then St 100 else if c <? 65 then (if (48 <=? c) && (c <=? 57) then St 97
      else St 0) else if c >? 70 then (if (97 <=? c) && (c <=? 102) then St 97 else St 0) else St 97);
  CASE 113 (fun c => sw c [(2, St 69); (48, St 114); (49, St 118); (50, St 121)] (if c <? 65 then (if
      (51 <=? c) && (c <=? 57) then St 124 else St 0) else if c >? 70 then (if (97 <=? c) && (c <=? 102)
      then St 125 else St 0) else St 125));
  CASE 114 (fun c => sw c [(46, St 72); (58, St 111)] (if c <? 65 then (if (48 <=? c) && (c <=? 57) then
      St 115 else St 0) else if c >? 70 then (if (97 <=? c) && (c <=? 102) then St 115 else St 0) else
      St 115));
  CASE 115 (fun c => if c =? 58 then St 111 else if c <? 65 then (if (48 <=? c) && (c <=? 57) then
      St 116 else St 0) else if c >? 70 then (if (97 <=? c) && (c <=? 102) then St 116 else St 0) else
      St 116);
  CASE 116 (fun c => if c =? 58 then St 111 else if c <? 65 then (if (48 <=? c) && (c <=? 57) then
      St 117 else St 0) else if c >? 70 then (if (97 <=? c) && (c <=? 102) then St 117 else St 0) else
      St 117);
  CASE 117 (fun c => if c =? 58 then St 111 else St 0);
  CASE 118 (fun c => sw c [(46, St 72); (58, St 111)] (if c <? 65 then (if (48 <=? c) && (c <=? 57) then
      St 119 else St 0) else if c >? 70 then (if (97 <=? c) && (c <=? 102) then St 115 else St 0) else
      St 115));
  CASE 119 (fun c => sw c [(46, St 72); (58, St 111)] (if c <? 65 then (if (48 <=? c) && (c <=? 57) then
      St 120 else St 0) else if c >? 70 then (if (97 <=? c) && (c <=? 102) then St 116 else St 0) else
      St 116))].

Definition uri_blocks_21 : list (block uri_action) := [
  CASE 120 (fun c => sw c [(46, St 72); (58, St 111)] (if c <? 65 then (if (48 <=? c) && (c <=? 57) then
      St 117 else St 0) else if c >? 70 then (if (97 <=? c) && (c <=? 102) then St 117 else St 0) else
      St 117));
  CASE 121 (fun c => sw c [(46, St 72); (53, St 123); (58, St 111)] (if c <? 65 then (if (48 <=? c) &&
      (c <=? 57) then St 122 else St 0) else if c >? 70 then (if (97 <=? c) && (c <=? 102) then St 115
      else St 0) else St 115));
  CASE 122 (fun c => sw c [(46, St 72); (58, St 111)] (if c <? 65 then (if (48 <=? c) && (c <=? 57) then
      St 116 else St 0) else if c >? 70 then (if (97 <=? c) && (c <=? 102) then St 116 else St 0) else
      St 116));
  CASE 123 (fun c => sw c [(46, St 72); (58, St 111)] (if c <? 54 then (if (48 <=? c) && (c <=? 53) then
      St 120 else St 0) else if c >? 57 then (if c >? 70 then (if (97 <=? c) && (c <=? 102) then St 116
      else St 0) else if c >=? 65 then St 116 else St 0) else St 116));
  CASE 124 (fun c => sw c [(46, St 72); (58, St 111)] (if c <? 65 then (if (48 <=? c) && (c <=? 57) then
      St 122 else St 0) else if c >? 70 then (if (97 <=? c) && (c <=? 102) then St 115 else St 0) else
      St 115));
  CASE 125 (fun c => if c =? 58 then St 111 else if c <? 65 then (if (48 <=? c) && (c <=? 57) then
      St 115 else St 0) else if c >? 70 then (if (97 <=? c) && (c <=? 102) then St 115 else St 0) else
      St 115);
  CASE 126 (fun c => if c <? 65 then (if (48 <=? c) && (c <=? 57) then St 127 else St 0) else if c >? 70
      then (if (97 <=? c) && (c <=? 102) then St 127 else St 0) else St 127);
  CASE 127 (fun c => if c =? 58 then St 113 else if c <? 65 then (if (48 <=? c) && (c <=? 57) then
      St 128 else St 0) else if c >? 70 then (if (97 <=? c) && (c <=? 102) then St 128 else St 0) else
      St 128);
  CASE 128 (fun c => if c =? 58 then St 113 else if c <? 65 then (if (48 <=? c) && (c <=? 57) then
      St 129 else St 0) else if c >? 70 then (if (97 <=? c) && (c <=? 102) then St 129 else St 0) else
      St 129)].

Definition uri_blocks_22 : list (block uri_action) := [
  CASE 129 (fun c => if c =? 58 then St 113 else if c <? 65 then (if (48 <=? c) && (c <=? 57) then
      St 130 else St 0) else if c >? 70 then (if (97 <=? c) && (c <=? 102) then St 130 else St 0) else
      St 130);
  CASE 130 (fun c => if c =? 58 then St 113 else St 0);
  CASE 131 (fun c => if c <? 65 then (if (48 <=? c) && (c <=? 57) then St 132 else St 0) else if c >? 70
      then (if (97 <=? c) && (c <=? 102) then St 132 else St 0) else St 132);
  CASE 132 (fun c => if c =? 58 then St 126 else if c <? 65 then (if (48 <=? c) && (c <=? 57) then
      St 133 else St 0) else if c >? 70 then (if (97 <=? c) && (c <=? 102) then St 133 else St 0) else
      St 133);
  CASE 133 (fun c => if c =? 58 then St 126 else if c <? 65 then (if (48 <=? c) && (c <=? 57) then
      St 134 else St 0) else if c >? 70 then (if (97 <=? c) && (c <=? 102) then St 134 else St 0) else
      St 134);
  CASE 134 (fun c => if c =? 58 then St 126 else if c <? 65 then (if (48 <=? c) && (c <=? 57) then
      St 135 else St 0) else if c >? 70 then (if (97 <=? c) && (c <=? 102) then St 135 else St 0) else
      St 135);
  CASE 135 (fun c => if c =? 58 then St 126 else St 0);
  CASE 136 (fun c => if c <? 65 then (if (48 <=? c) && (c <=? 57) then St 137 else St 0) else if c >? 70
      then (if (97 <=? c) && (c <=? 102) then St 137 else St 0) else St 137);
  CASE 137 (fun c => if c =? 58 then St 131 else if c <? 65 then (if (48 <=? c) && (c <=? 57) then
      St 138 else St 0) else if c >? 70 then (if (97 <=? c) && (c <=? 102) then St 138 else St 0) else
      St 138);
  CASE 138 (fun c => if c =? 58 then St 131 else if c <? 65 then (if (48 <=? c) && (c <=? 57) then
      St 139 else St 0) else if c >? 70 then (if (97 <=? c) && (c <=? 102) then St 139 else St 0) else
      St 139);
  CASE 139 (fun c => if c =? 58 then St 131 else if c <? 65 then (if (48 <=? c) && (c <=? 57) then
      St 140 else St 0) else if c >? 70 then (if (97 <=? c) && (c <=? 102) then St 140 else St 0) else
      St 140)].

Definition uri_blocks_23 : list (block uri_action) := [
  CASE 140 (fun c => if c =? 58 then St 131 else St 0);
  CASE 141 (fun c => if c <? 65 then (if (48 <=? c) && (c <=? 57) then St 142 else St 0) else if c >? 70
      then (if (97 <=? c) && (c <=? 102) then St 142 else St 0) else St 142);
  CASE 142 (fun c => if c =? 58 then St 136 else if c <? 65 then (if (48 <=? c) && (c <=? 57) then
      St 143 else St 0) else if c >? 70 then (if (97 <=? c) && (c <=? 102) then St 143 else St 0) else
      St 143);
  CASE 143 (fun c => if c =? 58 then St 136 else if c <? 65 then (if (48 <=? c) && (c <=? 57) then
      St 144 else St 0) else if c >? 70 then (if (97 <=? c) && (c <=? 102) then St 144 else St 0) else
      St 144);
  CASE 144 (fun c => if c =? 58 then St 136 else if c <? 65 then (if (48 <=? c) && (c <=? 57) then
      St 145 else St 0) else if c >? 70 then (if (97 <=? c) && (c <=? 102) then St 145 else St 0) else
      St 145);
  CASE 145 (fun c => if c =? 58 then St 136 else St 0);
  CASE 146 (fun c => if c =? 58 then St 147 else St 0);
  CASE 147 (fun c => sw c [(2, St 69); (48, St 148); (49, St 217); (50, St 220); (93, St 460)] (if
      c <? 65 then (if (51 <=? c) && (c <=? 57) then St 223 else St 0) else if c >? 70 then (if
      (97 <=? c) && (c <=? 102) then St 224 else St 0) else St 224));
  CASE 148 (fun c => sw c [(46, St 72); (58, St 152); (93, St 460)] (if c <? 65 then (if (48 <=? c) &&
      (c <=? 57) then St 149 else St 0) else if c >? 70 then (if (97 <=? c) && (c <=? 102) then St 149
      else St 0) else St 149));
  CASE 149 (fun c => sw c [(58, St 152); (93, St 460)] (if c <? 65 then (if (48 <=? c) && (c <=? 57)
      then St 150 else St 0) else if c >? 70 then (if (97 <=? c) && (c <=? 102) then St 150 else St 0)
      else St 150))].

Definition uri_blocks_24 : list (block uri_action) := [
  CASE 150 (fun c => sw c [(58, St 152); (93, St 460)] (if c <? 65 then (if (48 <=? c) && (c <=? 57)
      then St 151 else St 0) else if c >? 70 then (if (97 <=? c) && (c <=? 102) then St 151 else St 0)
      else St 151));
  CASE 151 (fun c => sw c [(58, St 152); (93, St 460)] (St 0));
  CASE 152 (fun c => sw c [(2, St 69); (48, St 153); (49, St 209); (50, St 212)] (if c <? 65 then (if
      (51 <=? c) && (c <=? 57) then St 215 else St 0) else if c >? 70 then (if (97 <=? c) && (c <=? 102)
      then St 216 else St 0) else St 216));
  CASE 153 (fun c => sw c [(46, St 72); (58, St 157); (93, St 460)] (if c <? 65 then (if (48 <=? c) &&
      (c <=? 57) then St 154 else St 0) else if c >? 70 then (if (97 <=? c) && (c <=? 102) then St 154
      else St 0) else St 154));
  CASE 154 (fun c => sw c [(58, St 157); (93, St 460)] (if c <? 65 then (if (48 <=? c) && (c <=? 57)
      then St 155 else St 0) else if c >? 70 then (if (97 <=? c) && (c <=? 102) then St 155 else St 0)
      else St 155));
  CASE 155 (fun c => sw c [(58, St 157); (93, St 460)] (if c <? 65 then (if (48 <=? c) && (c <=? 57)
      then St 156 else St 0) else if c >? 70 then (if (97 <=? c) && (c <=? 102) then St 156 else St 0)
      else St 156));
  CASE 156 (fun c => sw c [(58, St 157); (93, St 460)] (St 0));
  CASE 157 (fun c => sw c [(2, St 69); (48, St 158); (49, St 201); (50, St 204)] (if c <? 65 then (if
      (51 <=? c) && (c <=? 57) then St 207 else St 0) else if c >? 70 then (if (97 <=? c) && (c <=? 102)
      then St 208 else St 0) else St 208));
  CASE 158 (fun c => sw c [(46, St 72); (58, St 162); (93, St 460)] (if c <? 65 then (if (48 <=? c) &&
      (c <=? 57) then St 159 else St 0) else if c >? 70 then (if (97 <=? c) && (c <=? 102) then St 159
      else St 0) else St 159))].

Definition uri_blocks_25 : list (block uri_action) := [
  CASE 159 (fun c => sw c [(58, St 162); (93, St 460)] (if c <? 65 then (if (48 <=? c) && (c <=? 57)
      then St 160 else St 0) else if c >? 70 then (if (97 <=? c) && (c <=? 102) then St 160 else St 0)
      else St 160));
  CASE 160 (fun c => sw c [(58, St 162); (93, St 460)] (if c <? 65 then (if (48 <=? c) && (c <=? 57)
      then St 161 else St 0) else if c >? 70 then (if (97 <=? c) && (c <=? 102) then St 161 else St 0)
      else St 161));
  CASE 161 (fun c => sw c [(58, St 162); (93, St 460)] (St 0));
  CASE 162 (fun c => sw c [(2, St 69); (48, St 163); (49, St 193); (50, St 196)] (if c <? 65 then (if
      (51 <=? c) && (c <=? 57) then St 199 else St 0) else if c >? 70 then (if (97 <=? c) && (c <=? 102)
      then St 200 else St 0) else St 200));
  CASE 163 (fun c => sw c [(46, St 72); (58, St 167); (93, St 460)] (if c <? 65 then (if (48 <=? c) &&
      (c <=? 57) then St 164 else St 0) else if c >? 70 then (if (97 <=? c) && (c <=? 102) then St 164
      else St 0) else St 164));
  CASE 164 (fun c => sw c [(58, St 167); (93, St 460)] (if c <? 65 then (if (48 <=? c) && (c <=? 57)
      then St 165 else St 0) else if c >? 70 then (if (97 <=? c) && (c <=? 102) then St 165 else St 0)
      else St 165));
  CASE 165 (fun c => sw c [(58, St 167); (93, St 460)] (if c <? 65 then (if (48 <=? c) && (c <=? 57)
      then St 166 else St 0) else if c >? 70 then (if (97 <=? c) && (c <=? 102) then St 166 else St 0)
      else St 166));
  CASE 166 (fun c => sw c [(58, St 167); (93, St 460)] (St 0));
  CASE 167 (fun c => sw c [(2, St 69); (48, St 168); (49, St 185); (50, St 188)] (if c <? 65 then (if
      (51 <=? c) && (c <=? 57) then St 191 else St 0) else if c >? 70 then (if (97 <=? c) && (c <=? 102)
      then St 192 else St 0) else St 192))].

Definition uri_blocks_26 : list (block uri_action) := [
  CASE 168 (fun c => sw c [(46, St 72); (58, St 172); (93, St 460)] (if c <? 65 then (if (48 <=? c) &&
      (c <=? 57) then St 169 else St 0) else if c >? 70 then (if (97 <=? c) && (c <=? 102) then St 169
      else St 0) else St 169));
  CASE 169 (fun c => sw c [(58, St 172); (93, St 460)] (if c <? 65 then (if (48 <=? c) && (c <=? 57)
      then St 170 else St 0) else if c >? 70 then (if (97 <=? c) && (c <=? 102) then St 170 else St 0)
      else St 170));
  CASE 170 (fun c => sw c [(58, St 172); (93, St 460)] (if c <? 65 then (if (48 <=? c) && (c <=? 57)
      then St 171 else St 0) else if c >? 70 then (if (97 <=? c) && (c <=? 102) then St 171 else St 0)
      else St 171));
  CASE 171 (fun c => sw c [(58, St 172); (93, St 460)] (St 0));
  CASE 172 (fun c => sw c [(2, St 69); (48, St 173); (49, St 177); (50, St 180)] (if c <? 65 then (if
      (51 <=? c) && (c <=? 57) then St 183 else St 0) else if c >? 70 then (if (97 <=? c) && (c <=? 102)
      then St 184 else St 0) else St 184));
  CASE 173 (fun c => sw c [(46, St 72); (58, St 111); (93, St 460)] (if c <? 65 then (if (48 <=? c) &&
      (c <=? 57) then St 174 else St 0) else if c >? 70 then (if (97 <=? c) && (c <=? 102) then St 174
      else St 0) else St 174));
  CASE 174 (fun c => sw c [(58, St 111); (93, St 460)] (if c <? 65 then (if (48 <=? c) && (c <=? 57)
      then St 175 else St 0) else if c >? 70 then (if (97 <=? c) && (c <=? 102) then St 175 else St 0)
      else St 175));
  CASE 175 (fun c => sw c [(58, St 111); (93, St 460)] (if c <? 65 then (if (48 <=? c) && (c <=? 57)
      then St 176 else St 0) else if c >? 70 then (if (97 <=? c) && (c <=? 102) then St 176 else St 0)
      else St 176));
  CASE 176 (fun c => sw c [(58, St 111); (93, St 460)] (St 0))].

Definition uri_blocks_27 : list (block uri_action) := [
  CASE 177 (fun c => sw c [(46, St 72); (58, St 111); (93, St 460)] (if c <? 65 then (if (48 <=? c) &&
      (c <=? 57) then St 178 else St 0) else if c >? 70 then (if (97 <=? c) && (c <=? 102) then St 174
      else St 0) else St 174));
  CASE 178 (fun c => sw c [(46, St 72); (58, St 111); (93, St 460)] (if c <? 65 then (if (48 <=? c) &&
      (c <=? 57) then St 179 else St 0) else if c >? 70 then (if (97 <=? c) && (c <=? 102) then St 175
      else St 0) else St 175));
  CASE 179 (fun c => sw c [(46, St 72); (58, St 111); (93, St 460)] (if c <? 65 then (if (48 <=? c) &&
      (c <=? 57) then St 176 else St 0) else if c >? 70 then (if (97 <=? c) && (c <=? 102) then St 176
      else St 0) else St 176));
  CASE 180 (fun c => sw c [(46, St 72); (53, St 182); (58, St 111); (93, St 460)] (if c <? 65 then (if
      (48 <=? c) && (c <=? 57) then St 181 else St 0) else if c >? 70 then (if (97 <=? c) && (c <=? 102)
      then St 174 else St 0) else St 174));
  CASE 181 (fun c => sw c [(46, St 72); (58, St 111); (93, St 460)] (if c <? 65 then (if (48 <=? c) &&
      (c <=? 57) then St 175 else St 0) else if c >? 70 then (if (97 <=? c) && (c <=? 102) then St 175
      else St 0) else St 175));
  CASE 182 (fun c => sw c [(46, St 72); (58, St 111); (93, St 460)] (if c <? 54 then (if (48 <=? c) &&
      (c <=? 53) then St 179 else St 0) else if c >? 57 then (if c >? 70 then (if (97 <=? c) &&
      (c <=? 102) then St 175 else St 0) else if c >=? 65 then St 175 else St 0) else St 175));
  CASE 183 (fun c => sw c [(46, St 72); (58, St 111); (93, St 460)] (if c <? 65 then (if (48 <=? c) &&
      (c <=? 57) then St 181 else St 0) else if c >? 70 then (if (97 <=? c) && (c <=? 102) then St 174
      else St 0) else St 174));
  CASE 184 (fun c => sw c [(58, St 111); (93, St 460)] (if c <? 65 then (if (48 <=? c) && (c <=? 57)
      then St 174 else St 0) else if c >? 70 then (if (97 <=? c) && (c <=? 102) then St 174 else St 0)
      else St 174))].

Definition uri_blocks_28 : list (block uri_action) := [
  CASE 185 (fun c => sw c [(46, St 72); (58, St 172); (93, St 460)] (if c <? 65 then (if (48 <=? c) &&
      (c <=? 57) then St 186 else St 0) else if c >? 70 then (if (97 <=? c) && (c <=? 102) then St 169
      else St 0) else St 169));
  CASE 186 (fun c => sw c [(46, St 72); (58, St 172); (93, St 460)] (if c <? 65 then (if (48 <=? c) &&
      (c <=? 57) then St 187 else St 0) else if c >? 70 then (if (97 <=? c) && (c <=? 102) then St 170
      else St 0) else St 170));
  CASE 187 (fun c => sw c [(46, St 72); (58, St 172); (93, St 460)] (if c <? 65 then (if (48 <=? c) &&
      (c <=? 57) then St 171 else St 0) else if c >? 70 then (if (97 <=? c) && (c <=? 102) then St 171
      else St 0) else St 171));
  CASE 188 (fun c => sw c [(46, St 72); (53, St 190); (58, St 172); (93, St 460)] (if c <? 65 then (if
      (48 <=? c) && (c <=? 57) then St 189 else St 0) else if c >? 70 then (if (97 <=? c) && (c <=? 102)
      then St 169 else St 0) else St 169));
  CASE 189 (fun c => sw c [(46, St 72); (58, St 172); (93, St 460)] (if c <? 65 then (if (48 <=? c) &&
      (c <=? 57) then St 170 else St 0) else if c >? 70 then (if (97 <=? c) && (c <=? 102) then St 170
      else St 0) else St 170));
  CASE 190 (fun c => sw c [(46, St 72); (58, St 172); (93, St 460)] (if c <? 54 then (if (48 <=? c) &&
      (c <=? 53) then St 187 else St 0) else if c >? 57 then (if c >? 70 then (if (97 <=? c) &&
      (c <=? 102) then St 170 else St 0) else if c >=? 65 then St 170 else St 0) else St 170));
  CASE 191 (fun c => sw c [(46, St 72); (58, St 172); (93, St 460)] (if c <? 65 then (if (48 <=? c) &&
      (c <=? 57) then St 189 else St 0) else if c >? 70 then (if (97 <=? c) && (c <=? 102) then St 169
      else St 0) else St 169));
  CASE 192 (fun c => sw c [(58, St 172); (93, St 460)] (if c <? 65 then (if (48 <=? c) && (c <=? 57)
      then St 169 else St 0) else if c >? 70 then (if (97 <=? c) && (c <=? 102) then St 169 else St 0)
      else St 169))].

Definition uri_blocks_29 : list (block uri_action) := [
  CASE 193 (fun c => sw c [(46, St 72); (58, St 167); (93, St 460)] (if c <? 65 then (if (48 <=? c) &&
      (c <=? 57) then St 194 else St 0) else if c >? 70 then (if (97 <=? c) && (c <=? 102) then St 164
      else St 0) else St 164));
  CASE 194 (fun c => sw c [(46, St 72); (58, St 167); (93, St 460)] (if c <? 65 then (if (48 <=? c) &&
      (c <=? 57) then St 195 else St 0) else if c >? 70 then (if (97 <=? c) && (c <=? 102) then St 165
      else St 0) else St 165));
  CASE 195 (fun c => sw c [(46, St 72); (58, St 167); (93, St 460)] (if c <? 65 then (if (48 <=? c) &&
      (c <=? 57) then St 166 else St 0) else if c >? 70 then (if (97 <=? c) && (c <=? 102) then St 166
      else St 0) else St 166));
  CASE 196 (fun c => sw c [(46, St 72); (53, St 198); (58, St 167); (93, St 460)] (if c <? 65 then (if
      (48 <=? c) && (c <=? 57) then St 197 else St 0) else if c >? 70 then (if (97 <=? c) && (c <=? 102)
      then St 164 else St 0) else St 164));
  CASE 197 (fun c => sw c [(46, St 72); (58, St 167); (93, St 460)] (if c <? 65 then (if (48 <=? c) &&
      (c <=? 57) then St 165 else St 0) else if c >? 70 then (if (97 <=? c) && (c <=? 102) then St 165
      else St 0) else St 165));
  CASE 198 (fun c => sw c [(46, St 72); (58, St 167); (93, St 460)] (if c <? 54 then (if (48 <=? c) &&
      (c <=? 53) then St 195 else St 0) else if c >? 57 then (if c >? 70 then (if (97 <=? c) &&
      (c <=? 102) then St 165 else St 0) else if c >=? 65 then St 165 else St 0) else St 165));
  CASE 199 (fun c => sw c [(46, St 72); (58, St 167); (93, St 460)] (if c <? 65 then (if (48 <=? c) &&
      (c <=? 57) then St 197 else St 0) else if c >? 70 then (if (97 <=? c) && (c <=? 102) then St 164
      else St 0) else St 164));
  CASE 200 (fun c => sw c [(58, St 167); (93, St 460)] (if c <? 65 then (if (48 <=? c) && (c <=? 57)
      then St 164 else St 0) else if c >? 70 then (if (97 <=? c) && (c <=? 102) then St 164 else St 0)
      else St 164))].

Definition uri_blocks_30 : list (block uri_action) := [
  CASE 201 (fun c => sw c [(46, St 72); (58, St 162); (93, St 460)] (if c <? 65 then (if (48 <=? c) &&
      (c <=? 57) then St 202 else St 0) else if c >? 70 then (if (97 <=? c) && (c <=? 102) then St 159
      else St 0) else St 159));
  CASE 202 (fun c => sw c [(46, St 72); (58, St 162); (93, St 460)] (if c <? 65 then (if (48 <=? c) &&
      (c <=? 57) then St 203 else St 0) else if c >? 70 then (if (97 <=? c) && (c <=? 102) then St 160
      else St 0) else St 160));
  CASE 203 (fun c => sw c [(46, St 72); (58, St 162); (93, St 460)] (if c <? 65 then (if (48 <=? c) &&
      (c <=? 57) then St 161 else St 0) else if c >? 70 then (if (97 <=? c) && (c <=? 102) then St 161
      else St 0) else St 161));
  CASE 204 (fun c => sw c [(46, St 72); (53, St 206); (58, St 162); (93, St 460)] (if c <? 65 then (if
      (48 <=? c) && (c <=? 57) then St 205 else St 0) else if c >? 70 then (if (97 <=? c) && (c <=? 102)
      then St 159 else St 0) else St 159));
  CASE 205 (fun c => sw c [(46, St 72); (58, St 162); (93, St 460)] (if c <? 65 then (if (48 <=? c) &&
      (c <=? 57) then St 160 else St 0) else if c >? 70 then (if (97 <=? c) && (c <=? 102) then St 160
      else St 0) else St 160));
  CASE 206 (fun c => sw c [(46, St 72); (58, St 162); (93, St 460)] (if c <? 54 then (if (48 <=? c) &&
      (c <=? 53) then St 203 else St 0) else if c >? 57 then (if c >? 70 then (if (97 <=? c) &&
      (c <=? 102) then St 160 else St 0) else if c >=? 65 then St 160 else St 0) else St 160));
  CASE 207 (fun c => sw c [(46, St 72); (58, St 162); (93, St 460)] (if c <? 65 then (if (48 <=? c) &&
      (c <=? 57) then St 205 else St 0) else if c >? 70 then (if (97 <=? c) && (c <=? 102) then St 159
      else St 0) else St 159));
  CASE 208 (fun c => sw c [(58, St 162); (93, St 460)] (if c <? 65 then (if (48 <=? c) && (c <=? 57)
      then St 159 else St 0) else if c >? 70 then (if (97 <=? c) && (c <=? 102) then St 159 else St 0)
      else St 159))].

Definition uri_blocks_31 : list (block uri_action) := [
  CASE 209 (fun c => sw c [(46, St 72); (58, St 157); (93, St 460)] (if c <? 65 then (if (48 <=? c) &&
      (c <=? 57) then St 210 else St 0) else if c >? 70 then (if (97 <=? c) && (c <=? 102) then St 154
      else St 0) else St 154));
  CASE 210 (fun c => sw c [(46, St 72); (58, St 157); (93, St 460)] (if c <? 65 then (if (48 <=? c) &&
      (c <=? 57) then St 211 else St 0) else if c >? 70 then (if (97 <=? c) && (c <=? 102) then St 155
      else St 0) else St 155));
  CASE 211 (fun c => sw c [(46, St 72); (58, St 157); (93, St 460)] (if c <? 65 then (if (48 <=? c) &&
      (c <=? 57) then St 156 else St 0) else if c >? 70 then (if (97 <=? c) && (c <=? 102) then St 156
      else St 0) else St 156));
  CASE 212 (fun c => sw c [(46, St 72); (53, St 214); (58, St 157); (93, St 460)] (if c <? 65 then (if
      (48 <=? c) && (c <=? 57) then St 213 else St 0) else if c >? 70 then (if (97 <=? c) && (c <=? 102)
      then St 154 else St 0) else St 154));
  CASE 213 (fun c => sw c [(46, St 72); (58, St 157); (93, St 460)] (if c <? 65 then (if (48 <=? c) &&
      (c <=? 57) then St 155 else St 0) else if c >? 70 then (if (97 <=? c) && (c <=? 102) then St 155
      else St 0) else St 155));
  CASE 214 (fun c => sw c [(46, St 72); (58, St 157); (93, St 460)] (if c <? 54 then (if (48 <=? c) &&
      (c <=? 53) then St 211 else St 0) else if c >? 57 then (if c >? 70 then (if (97 <=? c) &&
      (c <=? 102) then St 155 else St 0) else if c >=? 65 then St 155 else St 0) else St 155));
  CASE 215 (fun c => sw c [(46, St 72); (58, St 157); (93, St 460)] (if c <? 65 then (if (48 <=? c) &&
      (c <=? 57) then St 213 else St 0) else if c >? 70 then (if (97 <=? c) && (c <=? 102) then St 154
      else St 0) else St 154));
  CASE 216 (fun c => sw c [(58, St 157); (93, St 460)] (if c <? 65 then (if (48 <=? c) && (c <=? 57)
      then St 154 else St 0) else if c >? 70 then (if (97 <=? c) && (c <=? 102) then St 154 else St 0)
      else St 154))].

Definition uri_blocks_32 : list (block uri_action) := [
  CASE 217 (fun c => sw c [(46, St 72); (58, St 152); (93, St 460)] (if c <? 65 then (if (48 <=? c) &&
      (c <=? 57) then St 218 else St 0) else if c >? 70 then (if (97 <=? c) && (c <=? 102) then St 149
      else St 0) else St 149));
  CASE 218 (fun c => sw c [(46, St 72); (58, St 152); (93, St 460)] (if c <? 65 then (if (48 <=? c) &&
      (c <=? 57) then St 219 else St 0) else if c >? 70 then (if (97 <=? c) && (c <=? 102) then St 150
      else St 0) else St 150));
  CASE 219 (fun c => sw c [(46, St 72); (58, St 152); (93, St 460)] (if c <? 65 then (if (48 <=? c) &&
      (c <=? 57) then St 151 else St 0) else if c >? 70 then (if (97 <=? c) && (c <=? 102) then St 151
      else St 0) else St 151));
  CASE 220 (fun c => sw c [(46, St 72); (53, St 222); (58, St 152); (93, St 460)] (if c <? 65 then (if
      (48 <=? c) && (c <=? 57) then St 221 else St 0) else if c >? 70 then (if (97 <=? c) && (c <=? 102)
      then St 149 else St 0) else St 149));
  CASE 221 (fun c => sw c [(46, St 72); (58, St 152); (93, St 460)] (if c <? 65 then (if (48 <=? c) &&
      (c <=? 57) then St 150 else St 0) else if c >? 70 then (if (97 <=? c) && (c <=? 102) then St 150
      else St 0) else St 150));
  CASE 222 (fun c => sw c [(46, St 72); (58, St 152); (93, St 460)] (if c <? 54 then (if (48 <=? c) &&
      (c <=? 53) then St 219 else St 0) else if c >? 57 then (if c >? 70 then (if (97 <=? c) &&
      (c <=? 102) then St 150 else St 0) else if c >=? 65 then St 150 else St 0) else St 150));
  CASE 223 (fun c => sw c [(46, St 72); (58, St 152); (93, St 460)] (if c <? 65 then (if (48 <=? c) &&
      (c <=? 57) then St 221 else St 0) else if c >? 70 then (if (97 <=? c) && (c <=? 102) then St 149
      else St 0) else St 149));
  CASE 224 (fun c => sw c [(58, St 152); (93, St 460)] (if c <? 65 then (if (48 <=? c) && (c <=? 57)
      then St 149 else St 0) else if c >? 70 then (if (97 <=? c) && (c <=? 102) then St 149 else St 0)
      else St 149))].

Definition uri_blocks_33 : list (block uri_action) := [
  CASE 225 (fun c => if c <? 65 then (if (48 <=? c) && (c <=? 57) then St 226 else St 0) else if c >? 70
      then (if (97 <=? c) && (c <=? 102) then St 226 else St 0) else St 226);
  CASE 226 (fun c => if c =? 46 then St 227 else if c <? 65 then (if (48 <=? c) && (c <=? 57) then
      St 226 else St 0) else if c >? 70 then (if (97 <=? c) && (c <=? 102) then St 226 else St 0) else
      St 226);
  CASE 227 (fun c => sw c [(33, St 228); (36, St 228); (61, St 228); (95, St 228); (126, St 228)] (if
      c <? 48 then (if (38 <=? c) && (c <=? 46) then St 228 else St 0) else if c >? 59 then (if c >? 90
      then (if (97 <=? c) && (c <=? 122) then St 228 else St 0) else if c >=? 65 then St 228 else St 0)
      else St 228));
  CASE 228 (fun c => sw c [(33, St 228); (36, St 228); (61, St 228); (93, St 460); (95, St 228);
      (126, St 228)] (if c <? 48 then (if (38 <=? c) && (c <=? 46) then St 228 else St 0) else if
      c >? 59 then (if c >? 90 then (if (97 <=? c) && (c <=? 122) then St 228 else St 0) else if
      c >=? 65 then St 228 else St 0) else St 228));
  TR 500 [markh] (GOTO 489);
  CASE 489 (fun c => sw c [(33, St 33); (35, Tr 493); (37, St 34); (47, Tr 494); (61, St 33);
      (63, Tr 496); (64, Tr 38); (95, St 33); (126, St 33)] (if c <? 58 then (if c >? 46 then (if
      (48 <=? c) && (c <=? 57) then St 489 else St 0) else if c >=? 36 then St 33 else St 0) else if
      c >? 59 then (if c >? 90 then (if (97 <=? c) && (c <=? 122) then St 33 else St 0) else if c >=? 65
      then St 33 else St 0) else St 33));
  TR 477 [markh] (GOTO 490);
  CASE 490 (fun c => sw c [(33, St 467); (35, Tr 485); (37, St 31); (46, St 491); (47, Tr 486);
      (58, Tr 499); (61, St 467); (63, Tr 488); (64, Tr 38); (95, St 467); (126, St 467)] (if c <? 65
      then (if (36 <=? c) && (c <=? 59) then St 467 else St 0) else if c >? 90 then (if (97 <=? c) &&
      (c <=? 122) then St 467 else St 0) else St 467))].

Definition uri_blocks_34 : list (block uri_action) := [
  CASE 491 (fun c => sw c [(2, St 13); (33, St 467); (35, Tr 485); (37, St 31); (47, Tr 486);
      (48, St 492); (49, St 500); (50, St 502); (58, Tr 499); (59, St 467); (61, St 467); (63, Tr 488);
      (64, Tr 38); (95, St 467); (126, St 467)] (if c <? 51 then (if (36 <=? c) && (c <=? 46) then
      St 467 else St 0) else if c >? 57 then (if c >? 90 then (if (97 <=? c) && (c <=? 122) then St 467
      else St 0) else if c >=? 65 then St 467 else St 0) else St 501));
  CASE 492 (fun c => sw c [(33, St 467); (35, Tr 485); (37, St 31); (46, St 493); (47, Tr 486);
      (58, Tr 499); (61, St 467); (63, Tr 488); (64, Tr 38); (95, St 467); (126, St 467)] (if c <? 65
      then (if (36 <=? c) && (c <=? 59) then St 467 else St 0) else if c >? 90 then (if (97 <=? c) &&
      (c <=? 122) then St 467 else St 0) else St 467));
  CASE 493 (fun c => sw c [(2, St 17); (33, St 467); (35, Tr 485); (37, St 31); (47, Tr 486);
      (48, St 494); (49, St 496); (50, St 498); (58, Tr 499); (59, St 467); (61, St 467); (63, Tr 488);
      (64, Tr 38); (95, St 467); (126, St 467)] (if c <? 51 then (if (36 <=? c) && (c <=? 46) then
      St 467 else St 0) else if c >? 57 then (if c >? 90 then (if (97 <=? c) && (c <=? 122) then St 467
      else St 0) else if c >=? 65 then St 467 else St 0) else St 497));
  CASE 494 (fun c => sw c [(33, St 467); (35, Tr 485); (37, St 31); (46, St 495); (47, Tr 486);
      (58, Tr 499); (61, St 467); (63, Tr 488); (64, Tr 38); (95, St 467); (126, St 467)] (if c <? 65
      then (if (36 <=? c) && (c <=? 59) then St 467 else St 0) else if c >? 90 then (if (97 <=? c) &&
      (c <=? 122) then St 467 else St 0) else St 467));
  CASE 495 (fun c => sw c [(2, St 21); (33, St 467); (35, Tr 485); (37, St 31); (47, Tr 486);
      (58, Tr 499); (61, St 467); (63, Tr 488); (64, Tr 38); (95, St 467); (126, St 467)] (if c <? 65
      then (if (36 <=? c) && (c <=? 59) then St 467 else St 0) else if c >? 90 then (if (97 <=? c) &&
      (c <=? 122) then St 467 else St 0) else St 467))].

Definition uri_blocks_35 : list (block uri_action) := [
  CASE 496 (fun c => sw c [(33, St 467); (35, Tr 485); (37, St 31); (46, St 495); (47, Tr 486);
      (58, Tr 499); (59, St 467); (61, St 467); (63, Tr 488); (64, Tr 38); (95, St 467); (126, St 467)]
      (if c <? 48 then (if (36 <=? c) && (c <=? 45) then St 467 else St 0) else if c >? 57 then (if
      c >? 90 then (if (97 <=? c) && (c <=? 122) then St 467 else St 0) else if c >=? 65 then St 467
      else St 0) else St 497));
  CASE 497 (fun c => sw c [(33, St 467); (35, Tr 485); (37, St 31); (46, St 495); (47, Tr 486);
      (58, Tr 499); (59, St 467); (61, St 467); (63, Tr 488); (64, Tr 38); (95, St 467); (126, St 467)]
      (if c <? 48 then (if (36 <=? c) && (c <=? 45) then St 467 else St 0) else if c >? 57 then (if
      c >? 90 then (if (97 <=? c) && (c <=? 122) then St 467 else St 0) else if c >=? 65 then St 467
      else St 0) else St 494));
  CASE 498 (fun c => sw c [(33, St 467); (35, Tr 485); (37, St 31); (46, St 495); (47, Tr 486);
      (53, St 499); (58, Tr 499); (59, St 467); (61, St 467); (63, Tr 488); (64, Tr 38); (95, St 467);
      (126, St 467)] (if c <? 48 then (if (36 <=? c) && (c <=? 45) then St 467 else St 0) else if
      c >? 57 then (if c >? 90 then (if (97 <=? c) && (c <=? 122) then St 467 else St 0) else if
      c >=? 65 then St 467 else St 0) else St 494));
  CASE 499 (fun c => sw c [(33, St 467); (35, Tr 485); (37, St 31); (46, St 495); (47, Tr 486);
      (58, Tr 499); (61, St 467); (63, Tr 488); (64, Tr 38); (95, St 467); (126, St 467)] (if c <? 54
      then (if c >? 45 then (if (48 <=? c) && (c <=? 53) then St 494 else St 0) else if c >=? 36 then
      St 467 else St 0) else if c >? 59 then (if c >? 90 then (if (97 <=? c) && (c <=? 122) then St 467
      else St 0) else if c >=? 65 then St 467 else St 0) else St 467))].

Definition uri_blocks_36 : list (block uri_action) := [
  CASE 500 (fun c => sw c [(33, St 467); (35, Tr 485); (37, St 31); (46, St 493); (47, Tr 486);
      (58, Tr 499); (59, St 467); (61, St 467); (63, Tr 488); (64, Tr 38); (95, St 467); (126, St 467)]
      (if c <? 48 then (if (36 <=? c) && (c <=? 45) then St 467 else St 0) else if c >? 57 then (if
      c >? 90 then (if (97 <=? c) && (c <=? 122) then St 467 else St 0) else if c >=? 65 then St 467
      else St 0) else St 501));
  CASE 501 (fun c => sw c [(33, St 467); (35, Tr 485); (37, St 31); (46, St 493); (47, Tr 486);
      (58, Tr 499); (59, St 467); (61, St 467); (63, Tr 488); (64, Tr 38); (95, St 467); (126, St 467)]
      (if c <? 48 then (if (36 <=? c) && (c <=? 45) then St 467 else St 0) else if c >? 57 then (if
      c >? 90 then (if (97 <=? c) && (c <=? 122) then St 467 else St 0) else if c >=? 65 then St 467
      else St 0) else St 492));
  CASE 502 (fun c => sw c [(33, St 467); (35, Tr 485); (37, St 31); (46, St 493); (47, Tr 486);
      (53, St 503); (58, Tr 499); (59, St 467); (61, St 467); (63, Tr 488); (64, Tr 38); (95, St 467);
      (126, St 467)] (if c <? 48 then (if (36 <=? c) && (c <=? 45) then St 467 else St 0) else if
      c >? 57 then (if c >? 90 then (if (97 <=? c) && (c <=? 122) then St 467 else St 0) else if
      c >=? 65 then St 467 else St 0) else St 492));
  CASE 503 (fun c => sw c [(33, St 467); (35, Tr 485); (37, St 31); (46, St 493); (47, Tr 486);
      (58, Tr 499); (61, St 467); (63, Tr 488); (64, Tr 38); (95, St 467); (126, St 467)] (if c <? 54
      then (if c >? 45 then (if (48 <=? c) && (c <=? 53) then St 492 else St 0) else if c >=? 36 then
      St 467 else St 0) else if c >? 59 then (if c >? 90 then (if (97 <=? c) && (c <=? 122) then St 467
      else St 0) else if c >=? 65 then St 467 else St 0) else St 467));
  TR 478 [markh] (GOTO 504)].

Definition uri_blocks_37 : list (block uri_action) := [
  CASE 504 (fun c => sw c [(33, St 467); (35, Tr 485); (37, St 31); (46, St 491); (47, Tr 486);
      (58, Tr 499); (59, St 467); (61, St 467); (63, Tr 488); (64, Tr 38); (95, St 467); (126, St 467)]
      (if c <? 48 then (if (36 <=? c) && (c <=? 45) then St 467 else St 0) else if c >? 57 then (if
      c >? 90 then (if (97 <=? c) && (c <=? 122) then St 467 else St 0) else if c >=? 65 then St 467
      else St 0) else St 505));
  TR 480 [markh] (GOTO 505);
  CASE 505 (fun c => sw c [(33, St 467); (35, Tr 485); (37, St 31); (46, St 491); (47, Tr 486);
      (58, Tr 499); (59, St 467); (61, St 467); (63, Tr 488); (64, Tr 38); (95, St 467); (126, St 467)]
      (if c <? 48 then (if (36 <=? c) && (c <=? 45) then St 467 else St 0) else if c >? 57 then (if
      c >? 90 then (if (97 <=? c) && (c <=? 122) then St 467 else St 0) else if c >=? 65 then St 467
      else St 0) else St 490));
  TR 479 [markh] (GOTO 506);
  CASE 506 (fun c => sw c [(33, St 467); (35, Tr 485); (37, St 31); (46, St 491); (47, Tr 486);
      (53, St 507); (58, Tr 499); (59, St 467); (61, St 467); (63, Tr 488); (64, Tr 38); (95, St 467);
      (126, St 467)] (if c <? 48 then (if (36 <=? c) && (c <=? 45) then St 467 else St 0) else if
      c >? 57 then (if c >? 90 then (if (97 <=? c) && (c <=? 122) then St 467 else St 0) else if
      c >=? 65 then St 467 else St 0) else St 490));
  CASE 507 (fun c => sw c [(33, St 467); (35, Tr 485); (37, St 31); (46, St 491); (47, Tr 486);
      (58, Tr 499); (61, St 467); (63, Tr 488); (64, Tr 38); (95, St 467); (126, St 467)] (if c <? 54
      then (if c >? 45 then (if (48 <=? c) && (c <=? 53) then St 490 else St 0) else if c >=? 36 then
      St 467 else St 0) else if c >? 59 then (if c >? 90 then (if (97 <=? c) && (c <=? 122) then St 467
      else St 0) else if c >=? 65 then St 467 else St 0) else St 467));
  TR 461 [marku] (GOTO 508)].

Definition uri_blocks_38 : list (block uri_action) := [
  CASE 508 (fun c => sw c [(34, St 0); (35, St 453); (37, St 3); (43, St 508); (47, St 455);
      (58, Tr 543); (60, St 0); (62, St 0); (63, St 456); (96, St 0); (127, St 0)] (if c <? 65 then (if
      c >? 32 then (if (45 <=? c) && (c <=? 57) then St 508 else St 452) else if c >=? 0 then St 0 else
      St 452) else if c >? 90 then (if c <? 97 then (if (91 <=? c) && (c <=? 94) then St 0 else St 452)
      else if c >? 122 then (if (123 <=? c) && (c <=? 125) then St 0 else St 452) else St 508) else
      St 508));
  TR 543 [save_scheme] (GOTO 509);
  CASE 509 (fun c => sw c [(34, St 0); (35, St 453); (37, St 5); (47, St 510); (60, St 0); (62, St 0);
      (63, St 456); (96, St 0); (127, St 0)] (if c <? 91 then (if (0 <=? c) && (c <=? 32) then St 0 else
      St 455) else if c >? 94 then (if (123 <=? c) && (c <=? 125) then St 0 else St 455) else St 0));
  CASE 510 (fun c => sw c [(34, St 0); (35, St 453); (37, St 5); (47, St 511); (60, St 0); (62, St 0);
      (63, St 456); (96, St 0); (127, St 0)] (if c <? 91 then (if (0 <=? c) && (c <=? 32) then St 0 else
      St 455) else if c >? 94 then (if (123 <=? c) && (c <=? 125) then St 0 else St 455) else St 0));
  CASE 511 (fun c => sw c [(2, Tr 546); (33, Tr 547); (35, Tr 548); (37, Tr 549); (47, Tr 550);
      (48, Tr 551); (49, Tr 552); (50, Tr 553); (58, Tr 555); (59, Tr 547); (61, Tr 547); (63, Tr 556);
      (64, Tr 557); (91, Tr 558); (95, Tr 547); (126, Tr 547)] (if c <? 51 then (if (36 <=? c) &&
      (c <=? 46) then Tr 547 else St 0) else if c >? 57 then (if c >? 90 then (if (97 <=? c) &&
      (c <=? 122) then Tr 547 else St 0) else if c >=? 65 then Tr 547 else St 0) else Tr 554));
  TR 546 [markh] (GOTO 229);
  CASE 229 (fun c => if (48 <=? c) && (c <=? 52) then St 230 else St 0);
  CASE 230 (fun c => if (48 <=? c) && (c <=? 57) then St 231 else St 0)].

Definition uri_blocks_39 : list (block uri_action) := [
  CASE 231 (fun c => if c =? 46 then St 232 else St 0);
  CASE 232 (fun c => sw c [(2, St 233); (48, St 235); (49, St 249); (50, St 251)] (if (51 <=? c) &&
      (c <=? 57) then St 250 else St 0));
  CASE 233 (fun c => if (48 <=? c) && (c <=? 52) then St 234 else St 0);
  CASE 234 (fun c => if (48 <=? c) && (c <=? 57) then St 235 else St 0);
  CASE 235 (fun c => if c =? 46 then St 236 else St 0);
  CASE 236 (fun c => sw c [(2, St 237); (48, St 239); (49, St 245); (50, St 247)] (if (51 <=? c) &&
      (c <=? 57) then St 246 else St 0));
  CASE 237 (fun c => if (48 <=? c) && (c <=? 52) then St 238 else St 0);
  CASE 238 (fun c => if (48 <=? c) && (c <=? 57) then St 239 else St 0);
  CASE 239 (fun c => if c =? 46 then St 240 else St 0);
  CASE 240 (fun c => sw c [(2, St 241); (48, St 512); (49, St 516); (50, St 518)] (if (51 <=? c) &&
      (c <=? 57) then St 517 else St 0));
  CASE 241 (fun c => if (48 <=? c) && (c <=? 52) then St 242 else St 0);
  CASE 242 (fun c => if (48 <=? c) && (c <=? 57) then St 512 else St 0);
  CASE 512 (fun c => sw c [(35, Tr 559); (47, Tr 560); (58, Tr 561); (63, Tr 562)] (St 0));
  TR 550 [markh; save_host] (GOTO 513);
  TR 567 [markh; save_port] (GOTO 513);
  TR 560 [save_host; markh] (GOTO 513)].

Definition uri_blocks_40 : list (block uri_action) := [
  TR 571 [save_port; markh] (GOTO 513);
  CASE 513 (fun c => sw c [(34, St 0); (35, Tr 563); (37, St 243); (60, St 0); (62, St 0); (63, Tr 565);
      (96, St 0); (127, St 0)] (if c <? 91 then (if (0 <=? c) && (c <=? 32) then St 0 else St 513) else
      if c >? 94 then (if (123 <=? c) && (c <=? 125) then St 0 else St 513) else St 0));
  CASE 243 (fun c => if c <? 65 then (if (48 <=? c) && (c <=? 57) then St 244 else St 0) else if c >? 70
      then (if (97 <=? c) && (c <=? 102) then St 244 else St 0) else St 244);
  CASE 244 (fun c => if c <? 65 then (if (48 <=? c) && (c <=? 57) then St 513 else St 0) else if c >? 70
      then (if (97 <=? c) && (c <=? 102) then St 513 else St 0) else St 513);
  TR 584 [markh; save_host] (GOTO 514);
  TR 561 [save_host] (GOTO 514);
  CASE 514 (fun c => sw c [(35, Tr 566); (47, Tr 567); (63, Tr 569)] (if (48 <=? c) && (c <=? 57) then
      Tr 568 else St 0));
  TR 568 [markh] (GOTO 515);
  CASE 515 (fun c => sw c [(35, Tr 570); (47, Tr 571); (63, Tr 573)] (if (48 <=? c) && (c <=? 57) then
      St 515 else St 0));
  CASE 516 (fun c => sw c [(35, Tr 559); (47, Tr 560); (58, Tr 561); (63, Tr 562)] (if (48 <=? c) &&
      (c <=? 57) then St 517 else St 0));
  CASE 517 (fun c => sw c [(35, Tr 559); (47, Tr 560); (58, Tr 561); (63, Tr 562)] (if (48 <=? c) &&
      (c <=? 57) then St 512 else St 0))].

Definition uri_blocks_41 : list (block uri_action) := [
  CASE 518 (fun c => sw c [(35, Tr 559); (47, Tr 560); (53, St 519); (58, Tr 561); (63, Tr 562)] (if
      (48 <=? c) && (c <=? 57) then St 512 else St 0));
  CASE 519 (fun c => sw c [(35, Tr 559); (47, Tr 560); (58, Tr 561); (63, Tr 562)] (if (48 <=? c) &&
      (c <=? 53) then St 512 else St 0));
  CASE 245 (fun c => if c =? 46 then St 240 else if (48 <=? c) && (c <=? 57) then St 246 else St 0);
  CASE 246 (fun c => if c =? 46 then St 240 else if (48 <=? c) && (c <=? 57) then St 239 else St 0);
  CASE 247 (fun c => sw c [(46, St 240); (53, St 248)] (if (48 <=? c) && (c <=? 57) then St 239 else
      St 0));
  CASE 248 (fun c => if c =? 46 then St 240 else if (48 <=? c) && (c <=? 53) then St 239 else St 0);
  CASE 249 (fun c => if c =? 46 then St 236 else if (48 <=? c) && (c <=? 57) then St 250 else St 0);
  CASE 250 (fun c => if c =? 46 then St 236 else if (48 <=? c) && (c <=? 57) then St 235 else St 0);
  CASE 251 (fun c => sw c [(46, St 236); (53, St 252)] (if (48 <=? c) && (c <=? 57) then St 235 else
      St 0));
  CASE 252 (fun c => if c =? 46 then St 236 else if (48 <=? c) && (c <=? 53) then St 235 else St 0);
  TR 547 [markh] (GOTO 520);
  CASE 520 (fun c => sw c [(33, St 520); (35, Tr 559); (37, St 253); (47, Tr 560); (58, Tr 576);
      (61, St 520); (63, Tr 562); (64, Tr 263); (95, St 520); (126, St 520)] (if c <? 65 then (if
      (36 <=? c) && (c <=? 59) then St 520 else St 0) else if c >? 90 then (if (97 <=? c) && (c <=? 122)
      then St 520 else St 0) else St 520));
  TR 549 [markh] (GOTO 253)].

Definition uri_blocks_42 : list (block uri_action) := [
  CASE 253 (fun c => if c <? 65 then (if (48 <=? c) && (c <=? 57) then St 254 else St 0) else if c >? 70
      then (if (97 <=? c) && (c <=? 102) then St 254 else St 0) else St 254);
  CASE 254 (fun c => if c <? 65 then (if (48 <=? c) && (c <=? 57) then St 520 else St 0) else if c >? 70
      then (if (97 <=? c) && (c <=? 102) then St 520 else St 0) else St 520);
  TR 555 [markh; save_host] (GOTO 521);
  TR 576 [save_host] (GOTO 521);
  CASE 521 (fun c => sw c [(33, St 255); (35, Tr 566); (37, St 256); (47, Tr 567); (61, St 255);
      (63, Tr 569); (64, Tr 263); (95, St 255); (126, St 255)] (if c <? 58 then (if c >? 46 then (if
      (48 <=? c) && (c <=? 57) then Tr 577 else St 0) else if c >=? 36 then St 255 else St 0) else if
      c >? 59 then (if c >? 90 then (if (97 <=? c) && (c <=? 122) then St 255 else St 0) else if
      c >=? 65 then St 255 else St 0) else St 255));
  CASE 255 (fun c => sw c [(33, St 255); (37, St 256); (61, St 255); (64, Tr 263); (95, St 255);
      (126, St 255)] (if c <? 48 then (if (36 <=? c) && (c <=? 46) then St 255 else St 0) else if
      c >? 59 then (if c >? 90 then (if (97 <=? c) && (c <=? 122) then St 255 else St 0) else if
      c >=? 65 then St 255 else St 0) else St 255));
  CASE 256 (fun c => if c <? 65 then (if (48 <=? c) && (c <=? 57) then St 257 else St 0) else if c >? 70
      then (if (97 <=? c) && (c <=? 102) then St 257 else St 0) else St 257);
  CASE 257 (fun c => if c <? 65 then (if (48 <=? c) && (c <=? 57) then St 255 else St 0) else if c >? 70
      then (if (97 <=? c) && (c <=? 102) then St 255 else St 0) else St 255);
  TR 263 [save_userinfo] (GOTO 522);
  TR 557 [markh; save_userinfo] (GOTO 522)].

Definition uri_blocks_43 : list (block uri_action) := [
  CASE 522 (fun c => sw c [(2, Tr 546); (33, Tr 578); (35, Tr 548); (37, Tr 579); (47, Tr 550);
      (48, Tr 580); (49, Tr 581); (50, Tr 582); (58, Tr 584); (59, Tr 578); (61, Tr 578); (63, Tr 556);
      (91, Tr 558); (95, Tr 578); (126, Tr 578)] (if c <? 51 then (if (36 <=? c) && (c <=? 46) then
      Tr 578 else St 0) else if c >? 57 then (if c >? 90 then (if (97 <=? c) && (c <=? 122) then Tr 578
      else St 0) else if c >=? 65 then Tr 578 else St 0) else Tr 583));
  TR 578 [markh] (GOTO 523);
  CASE 523 (fun c => sw c [(33, St 523); (35, Tr 559); (37, St 258); (47, Tr 560); (58, Tr 561);
      (61, St 523); (63, Tr 562); (95, St 523); (126, St 523)] (if c <? 65 then (if (36 <=? c) &&
      (c <=? 59) then St 523 else St 0) else if c >? 90 then (if (97 <=? c) && (c <=? 122) then St 523
      else St 0) else St 523));
  TR 579 [markh] (GOTO 258);
  CASE 258 (fun c => if c <? 65 then (if (48 <=? c) && (c <=? 57) then St 259 else St 0) else if c >? 70
      then (if (97 <=? c) && (c <=? 102) then St 259 else St 0) else St 259);
  CASE 259 (fun c => if c <? 65 then (if (48 <=? c) && (c <=? 57) then St 523 else St 0) else if c >? 70
      then (if (97 <=? c) && (c <=? 102) then St 523 else St 0) else St 523);
  TR 580 [markh] (GOTO 524);
  CASE 524 (fun c => sw c [(33, St 523); (35, Tr 559); (37, St 258); (46, St 525); (47, Tr 560);
      (58, Tr 561); (61, St 523); (63, Tr 562); (95, St 523); (126, St 523)] (if c <? 65 then (if
      (36 <=? c) && (c <=? 59) then St 523 else St 0) else if c >? 90 then (if (97 <=? c) && (c <=? 122)
      then St 523 else St 0) else St 523))].

Definition uri_blocks_44 : list (block uri_action) := [
  CASE 525 (fun c => sw c [(2, St 233); (33, St 523); (35, Tr 559); (37, St 258); (47, Tr 560);
      (48, St 526); (49, St 534); (50, St 536); (58, Tr 561); (59, St 523); (61, St 523); (63, Tr 562);
      (95, St 523); (126, St 523)] (if c <? 51 then (if (36 <=? c) && (c <=? 46) then St 523 else St 0)
      else if c >? 57 then (if c >? 90 then (if (97 <=? c) && (c <=? 122) then St 523 else St 0) else if
      c >=? 65 then St 523 else St 0) else St 535));
  CASE 526 (fun c => sw c [(33, St 523); (35, Tr 559); (37, St 258); (46, St 527); (47, Tr 560);
      (58, Tr 561); (61, St 523); (63, Tr 562); (95, St 523); (126, St 523)] (if c <? 65 then (if
      (36 <=? c) && (c <=? 59) then St 523 else St 0) else if c >? 90 then (if (97 <=? c) && (c <=? 122)
      then St 523 else St 0) else St 523));
  CASE 527 (fun c => sw c [(2, St 237); (33, St 523); (35, Tr 559); (37, St 258); (47, Tr 560);
      (48, St 528); (49, St 530); (50, St 532); (58, Tr 561); (59, St 523); (61, St 523); (63, Tr 562);
      (95, St 523); (126, St 523)] (if c <? 51 then (if (36 <=? c) && (c <=? 46) then St 523 else St 0)
      else if c >? 57 then (if c >? 90 then (if (97 <=? c) && (c <=? 122) then St 523 else St 0) else if
      c >=? 65 then St 523 else St 0) else St 531));
  CASE 528 (fun c => sw c [(33, St 523); (35, Tr 559); (37, St 258); (46, St 529); (47, Tr 560);
      (58, Tr 561); (61, St 523); (63, Tr 562); (95, St 523); (126, St 523)] (if c <? 65 then (if
      (36 <=? c) && (c <=? 59) then St 523 else St 0) else if c >? 90 then (if (97 <=? c) && (c <=? 122)
      then St 523 else St 0) else St 523));
  CASE 529 (fun c => sw c [(2, St 241); (33, St 523); (35, Tr 559); (37, St 258); (47, Tr 560);
      (58, Tr 561); (61, St 523); (63, Tr 562); (95, St 523); (126, St 523)] (if c <? 65 then (if
      (36 <=? c) && (c <=? 59) then St 523 else St 0) else if c >? 90 then (if (97 <=? c) && (c <=? 122)
      then St 523 else St 0) else St 523))].

Definition uri_blocks_45 : list (block uri_action) := [
  CASE 530 (fun c => sw c [(33, St 523); (35, Tr 559); (37, St 258); (46, St 529); (47, Tr 560);
      (58, Tr 561); (59, St 523); (61, St 523); (63, Tr 562); (95, St 523); (126, St 523)] (if c <? 48
      then (if (36 <=? c) && (c <=? 45) then St 523 else St 0) else if c >? 57 then (if c >? 90 then (if
      (97 <=? c) && (c <=? 122) then St 523 else St 0) else if c >=? 65 then St 523 else St 0) else
      St 531));
  CASE 531 (fun c => sw c [(33, St 523); (35, Tr 559); (37, St 258); (46, St 529); (47, Tr 560);
      (58, Tr 561); (59, St 523); (61, St 523); (63, Tr 562); (95, St 523); (126, St 523)] (if c <? 48
      then (if (36 <=? c) && (c <=? 45) then St 523 else St 0) else if c >? 57 then (if c >? 90 then (if
      (97 <=? c) && (c <=? 122) then St 523 else St 0) else if c >=? 65 then St 523 else St 0) else
      St 528));
  CASE 532 (fun c => sw c [(33, St 523); (35, Tr 559); (37, St 258); (46, St 529); (47, Tr 560);
      (53, St 533); (58, Tr 561); (59, St 523); (61, St 523); (63, Tr 562); (95, St 523); (126, St 523)]
      (if c <? 48 then (if (36 <=? c) && (c <=? 45) then St 523 else St 0) else if c >? 57 then (if
      c >? 90 then (if (97 <=? c) && (c <=? 122) then St 523 else St 0) else if c >=? 65 then St 523
      else St 0) else St 528));
  CASE 533 (fun c => sw c [(33, St 523); (35, Tr 559); (37, St 258); (46, St 529); (47, Tr 560);
      (58, Tr 561); (61, St 523); (63, Tr 562); (95, St 523); (126, St 523)] (if c <? 54 then (if
      c >? 45 then (if (48 <=? c) && (c <=? 53) then St 528 else St 0) else if c >=? 36 then St 523 else
      St 0) else if c >? 59 then (if c >? 90 then (if (97 <=? c) && (c <=? 122) then St 523 else St 0)
      else if c >=? 65 then St 523 else St 0) else St 523));
  CASE 534 (fun c => sw c [(33, St 523); (35, Tr 559); (37, St 258); (46, St 527); (47, Tr 560);
      (58, Tr 561); (59, St 523); (61, St 523); (63, Tr 562); (95, St 523); (126, St 523)] (if c <? 48
      then (if (36 <=? c) && (c <=? 45) then St 523 else St 0) else if c >? 57 then (if c >? 90 then (if
      (97 <=? c) && (c <=? 122) then St 523 else St 0) else if c >=? 65 then St 523 else St 0) else
      St 535))].

Definition uri_blocks_46 : list (block uri_action) := [
  CASE 535 (fun c => sw c [(33, St 523); (35, Tr 559); (37, St 258); (46, St 527); (47, Tr 560);
      (58, Tr 561); (59, St 523); (61, St 523); (63, Tr 562); (95, St 523); (126, St 523)] (if c <? 48
      then (if (36 <=? c) && (c <=? 45) then St 523 else St 0) else if c >? 57 then (if c >? 90 then (if
      (97 <=? c) && (c <=? 122) then St 523 else St 0) else if c >=? 65 then St 523 else St 0) else
      St 526));
  CASE 536 (fun c => sw c [(33, St 523); (35, Tr 559); (37, St 258); (46, St 527); (47, Tr 560);
      (53, St 537); (58, Tr 561); (59, St 523); (61, St 523); (63, Tr 562); (95, St 523); (126, St 523)]
      (if c <? 48 then (if (36 <=? c) && (c <=? 45) then St 523 else St 0) else if c >? 57 then (if
      c >? 90 then (if (97 <=? c) && (c <=? 122) then St 523 else St 0) else if c >=? 65 then St 523
      else St 0) else St 526));
  CASE 537 (fun c => sw c [(33, St 523); (35, Tr 559); (37, St 258); (46, St 527); (47, Tr 560);
      (58, Tr 561); (61, St 523); (63, Tr 562); (95, St 523); (126, St 523)] (if c <? 54 then (if
      c >? 45 then (if (48 <=? c) && (c <=? 53) then St 526 else St 0) else if c >=? 36 then St 523 else
      St 0) else if c >? 59 then (if c >? 90 then (if (97 <=? c) && (c <=? 122) then St 523 else St 0)
      else if c >=? 65 then St 523 else St 0) else St 523));
  TR 581 [markh] (GOTO 538);
  CASE 538 (fun c => sw c [(33, St 523); (35, Tr 559); (37, St 258); (46, St 525); (47, Tr 560);
      (58, Tr 561); (59, St 523); (61, St 523); (63, Tr 562); (95, St 523); (126, St 523)] (if c <? 48
      then (if (36 <=? c) && (c <=? 45) then St 523 else St 0) else if c >? 57 then (if c >? 90 then (if
      (97 <=? c) && (c <=? 122) then St 523 else St 0) else if c >=? 65 then St 523 else St 0) else
      St 539));
  TR 583 [markh] (GOTO 539)].

Definition uri_blocks_47 : list (block uri_action) := [
  CASE 539 (fun c => sw c [(33, St 523); (35, Tr 559); (37, St 258); (46, St 525); (47, Tr 560);
      (58, Tr 561); (59, St 523); (61, St 523); (63, Tr 562); (95, St 523); (126, St 523)] (if c <? 48
      then (if (36 <=? c) && (c <=? 45) then St 523 else St 0) else if c >? 57 then (if c >? 90 then (if
      (97 <=? c) && (c <=? 122) then St 523 else St 0) else if c >=? 65 then St 523 else St 0) else
      St 524));
  TR 582 [markh] (GOTO 540);
  CASE 540 (fun c => sw c [(33, St 523); (35, Tr 559); (37, St 258); (46, St 525); (47, Tr 560);
      (53, St 541); (58, Tr 561); (59, St 523); (61, St 523); (63, Tr 562); (95, St 523); (126, St 523)]
      (if c <? 48 then (if (36 <=? c) && (c <=? 45) then St 523 else St 0) else if c >? 57 then (if
      c >? 90 then (if (97 <=? c) && (c <=? 122) then St 523 else St 0) else if c >=? 65 then St 523
      else St 0) else St 524));
  CASE 541 (fun c => sw c [(33, St 523); (35, Tr 559); (37, St 258); (46, St 525); (47, Tr 560);
      (58, Tr 561); (61, St 523); (63, Tr 562); (95, St 523); (126, St 523)] (if c <? 54 then (if
      c >? 45 then (if (48 <=? c) && (c <=? 53) then St 524 else St 0) else if c >=? 36 then St 523 else
      St 0) else if c >? 59 then (if c >? 90 then (if (97 <=? c) && (c <=? 122) then St 523 else St 0)
      else if c >=? 65 then St 523 else St 0) else St 523));
  TR 558 [markh] (GOTO 260);
  CASE 260 (fun c => sw c [(58, St 368); (118, St 447)] (if c <? 65 then (if (48 <=? c) && (c <=? 57)
      then St 261 else St 0) else if c >? 70 then (if (97 <=? c) && (c <=? 102) then St 261 else St 0)
      else St 261));
  CASE 261 (fun c => if c =? 58 then St 265 else if c <? 65 then (if (48 <=? c) && (c <=? 57) then
      St 262 else St 0) else if c >? 70 then (if (97 <=? c) && (c <=? 102) then St 262 else St 0) else
      St 262);
  CASE 262 (fun c => if c =? 58 then St 265 else if c <? 65 then (if (48 <=? c) && (c <=? 57) then
      St 263 else St 0) else if c >? 70 then (if (97 <=? c) && (c <=? 102) then St 263 else St 0) else
      St 263)].

Definition uri_blocks_48 : list (block uri_action) := [
  CASE 263 (fun c => if c =? 58 then St 265 else if c <? 65 then (if (48 <=? c) && (c <=? 57) then
      St 264 else St 0) else if c >? 70 then (if (97 <=? c) && (c <=? 102) then St 264 else St 0) else
      St 264);
  CASE 264 (fun c => if c =? 58 then St 265 else St 0);
  CASE 265 (fun c => if c =? 58 then St 363 else if c <? 65 then (if (48 <=? c) && (c <=? 57) then
      St 266 else St 0) else if c >? 70 then (if (97 <=? c) && (c <=? 102) then St 266 else St 0) else
      St 266);
  CASE 266 (fun c => if c =? 58 then St 270 else if c <? 65 then (if (48 <=? c) && (c <=? 57) then
      St 267 else St 0) else if c >? 70 then (if (97 <=? c) && (c <=? 102) then St 267 else St 0) else
      St 267);
  CASE 267 (fun c => if c =? 58 then St 270 else if c <? 65 then (if (48 <=? c) && (c <=? 57) then
      St 268 else St 0) else if c >? 70 then (if (97 <=? c) && (c <=? 102) then St 268 else St 0) else
      St 268);
  CASE 268 (fun c => if c =? 58 then St 270 else if c <? 65 then (if (48 <=? c) && (c <=? 57) then
      St 269 else St 0) else if c >? 70 then (if (97 <=? c) && (c <=? 102) then St 269 else St 0) else
      St 269);
  CASE 269 (fun c => if c =? 58 then St 270 else St 0);
  CASE 270 (fun c => if c =? 58 then St 358 else if c <? 65 then (if (48 <=? c) && (c <=? 57) then
      St 271 else St 0) else if c >? 70 then (if (97 <=? c) && (c <=? 102) then St 271 else St 0) else
      St 271);
  CASE 271 (fun c => if c =? 58 then St 275 else if c <? 65 then (if (48 <=? c) && (c <=? 57) then
      St 272 else St 0) else if c >? 70 then (if (97 <=? c) && (c <=? 102) then St 272 else St 0) else
      St 272);
  CASE 272 (fun c => if c =? 58 then St 275 else if c <? 65 then (if (48 <=? c) && (c <=? 57) then
      St 273 else St 0) else if c >? 70 then (if (97 <=? c) && (c <=? 102) then St 273 else St 0) else
      St 273);
  CASE 273 (fun c => if c =? 58 then St 275 else if c <? 65 then (if (48 <=? c) && (c <=? 57) then
      St 274 else St 0) else if c >? 70 then (if (97 <=? c) && (c <=? 102) then St 274 else St 0) else
      St 274)].

Definition uri_blocks_49 : list (block uri_action) := [
  CASE 274 (fun c => if c =? 58 then St 275 else St 0);
  CASE 275 (fun c => if c =? 58 then St 353 else if c <? 65 then (if (48 <=? c) && (c <=? 57) then
      St 276 else St 0) else if c >? 70 then (if (97 <=? c) && (c <=? 102) then St 276 else St 0) else
      St 276);
  CASE 276 (fun c => if c =? 58 then St 280 else if c <? 65 then (if (48 <=? c) && (c <=? 57) then
      St 277 else St 0) else if c >? 70 then (if (97 <=? c) && (c <=? 102) then St 277 else St 0) else
      St 277);
  CASE 277 (fun c => if c =? 58 then St 280 else if c <? 65 then (if (48 <=? c) && (c <=? 57) then
      St 278 else St 0) else if c >? 70 then (if (97 <=? c) && (c <=? 102) then St 278 else St 0) else
      St 278);
  CASE 278 (fun c => if c =? 58 then St 280 else if c <? 65 then (if (48 <=? c) && (c <=? 57) then
      St 279 else St 0) else if c >? 70 then (if (97 <=? c) && (c <=? 102) then St 279 else St 0) else
      St 279);
  CASE 279 (fun c => if c =? 58 then St 280 else St 0);
  CASE 280 (fun c => if c =? 58 then St 348 else if c <? 65 then (if (48 <=? c) && (c <=? 57) then
      St 281 else St 0) else if c >? 70 then (if (97 <=? c) && (c <=? 102) then St 281 else St 0) else
      St 281);
  CASE 281 (fun c => if c =? 58 then St 285 else if c <? 65 then (if (48 <=? c) && (c <=? 57) then
      St 282 else St 0) else if c >? 70 then (if (97 <=? c) && (c <=? 102) then St 282 else St 0) else
      St 282);
  CASE 282 (fun c => if c =? 58 then St 285 else if c <? 65 then (if (48 <=? c) && (c <=? 57) then
      St 283 else St 0) else if c >? 70 then (if (97 <=? c) && (c <=? 102) then St 283 else St 0) else
      St 283);
  CASE 283 (fun c => if c =? 58 then St 285 else if c <? 65 then (if (48 <=? c) && (c <=? 57) then
      St 284 else St 0) else if c >? 70 then (if (97 <=? c) && (c <=? 102) then St 284 else St 0) else
      St 284);
  CASE 284 (fun c => if c =? 58 then St 285 else St 0)].

Definition uri_blocks_50 : list (block uri_action) := [
  CASE 285 (fun c => if c =? 58 then St 335 else if c <? 65 then (if (48 <=? c) && (c <=? 57) then
      St 286 else St 0) else if c >? 70 then (if (97 <=? c) && (c <=? 102) then St 286 else St 0) else
      St 286);
  CASE 286 (fun c => if c =? 58 then St 290 else if c <? 65 then (if (48 <=? c) && (c <=? 57) then
      St 287 else St 0) else if c >? 70 then (if (97 <=? c) && (c <=? 102) then St 287 else St 0) else
      St 287);
  CASE 287 (fun c => if c =? 58 then St 290 else if c <? 65 then (if (48 <=? c) && (c <=? 57) then
      St 288 else St 0) else if c >? 70 then (if (97 <=? c) && (c <=? 102) then St 288 else St 0) else
      St 288);
  CASE 288 (fun c => if c =? 58 then St 290 else if c <? 65 then (if (48 <=? c) && (c <=? 57) then
      St 289 else St 0) else if c >? 70 then (if (97 <=? c) && (c <=? 102) then St 289 else St 0) else
      St 289);
  CASE 289 (fun c => if c =? 58 then St 290 else St 0);
  CASE 290 (fun c => sw c [(2, St 291); (48, St 318); (49, St 326); (50, St 329); (58, St 333)] (if
      c <? 65 then (if (51 <=? c) && (c <=? 57) then St 332 else St 0) else if c >? 70 then (if
      (97 <=? c) && (c <=? 102) then St 334 else St 0) else St 334));
  CASE 291 (fun c => if (48 <=? c) && (c <=? 52) then St 292 else St 0);
  CASE 292 (fun c => if (48 <=? c) && (c <=? 57) then St 293 else St 0);
  CASE 293 (fun c => if c =? 46 then St 294 else St 0);
  CASE 294 (fun c => sw c [(2, St 295); (48, St 297); (49, St 314); (50, St 316)] (if (51 <=? c) &&
      (c <=? 57) then St 315 else St 0));
  CASE 295 (fun c => if (48 <=? c) && (c <=? 52) then St 296 else St 0);
  CASE 296 (fun c => if (48 <=? c) && (c <=? 57) then St 297 else St 0);
  CASE 297 (fun c => if c =? 46 then St 298 else St 0)].

Definition uri_blocks_51 : list (block uri_action) := [
  CASE 298 (fun c => sw c [(2, St 299); (48, St 301); (49, St 310); (50, St 312)] (if (51 <=? c) &&
      (c <=? 57) then St 311 else St 0));
  CASE 299 (fun c => if (48 <=? c) && (c <=? 52) then St 300 else St 0);
  CASE 300 (fun c => if (48 <=? c) && (c <=? 57) then St 301 else St 0);
  CASE 301 (fun c => if c =? 46 then St 302 else St 0);
  CASE 302 (fun c => sw c [(2, St 303); (48, St 305); (49, St 306); (50, St 308)] (if (51 <=? c) &&
      (c <=? 57) then St 307 else St 0));
  CASE 303 (fun c => if (48 <=? c) && (c <=? 52) then St 304 else St 0);
  CASE 304 (fun c => if (48 <=? c) && (c <=? 57) then St 305 else St 0);
  CASE 305 (fun c => if c =? 93 then St 512 else St 0);
  CASE 306 (fun c => if c =? 93 then St 512 else if (48 <=? c) && (c <=? 57) then St 307 else St 0);
  CASE 307 (fun c => if c =? 93 then St 512 else if (48 <=? c) && (c <=? 57) then St 305 else St 0);
  CASE 308 (fun c => sw c [(53, St 309); (93, St 512)] (if (48 <=? c) && (c <=? 57) then St 305 else
      St 0));
  CASE 309 (fun c => if c =? 93 then St 512 else if (48 <=? c) && (c <=? 53) then St 305 else St 0);
  CASE 310 (fun c => if c =? 46 then St 302 else if (48 <=? c) && (c <=? 57) then St 311 else St 0);
  CASE 311 (fun c => if c =? 46 then St 302 else if (48 <=? c) && (c <=? 57) then St 301 else St 0);
  CASE 312 (fun c => sw c [(46, St 302); (53, St 313)] (if (48 <=? c) && (c <=? 57) then St 301 else
      St 0));
  CASE 313 (fun c => if c =? 46 then St 302 else if (48 <=? c) && (c <=? 53) then St 301 else St 0)].

Definition uri_blocks_52 : list (block uri_action) := [
  CASE 314 (fun c => if c =? 46 then St 298 else if (48 <=? c) && (c <=? 57) then St 315 else St 0);
  CASE 315 (fun c => if c =? 46 then St 298 else if (48 <=? c) && (c <=? 57) then St 297 else St 0);
  CASE 316 (fun c => sw c [(46, St 298); (53, St 317)] (if (48 <=? c) && (c <=? 57) then St 297 else
      St 0));
  CASE 317 (fun c => if c =? 46 then St 298 else if (48 <=? c) && (c <=? 53) then St 297 else St 0);
  CASE 318 (fun c => sw c [(46, St 294); (58, St 322)] (if c <? 65 then (if (48 <=? c) && (c <=? 57)
      then St 319 else St 0) else if c >? 70 then (if (97 <=? c) && (c <=? 102) then St 319 else St 0)
      else St 319));
  CASE 319 (fun c => if c =? 58 then St 322 else if c <? 65 then (if (48 <=? c) && (c <=? 57) then
      St 320 else St 0) else if c >? 70 then (if (97 <=? c) && (c <=? 102) then St 320 else St 0) else
      St 320);
  CASE 320 (fun c => if c =? 58 then St 322 else if c <? 65 then (if (48 <=? c) && (c <=? 57) then
      St 321 else St 0) else if c >? 70 then (if (97 <=? c) && (c <=? 102) then St 321 else St 0) else
      St 321);
  CASE 321 (fun c => if c =? 58 then St 322 else St 0);
  CASE 322 (fun c => if c =? 58 then St 305 else if c <? 65 then (if (48 <=? c) && (c <=? 57) then
      St 323 else St 0) else if c >? 70 then (if (97 <=? c) && (c <=? 102) then St 323 else St 0) else
      St 323);
  CASE 323 (fun c => if c =? 93 then St 512 else if c <? 65 then (if (48 <=? c) && (c <=? 57) then
      St 324 else St 0) else if c >? 70 then (if (97 <=? c) && (c <=? 102) then St 324 else St 0) else
      St 324);
  CASE 324 (fun c => if c =? 93 then St 512 else if c <? 65 then (if (48 <=? c) && (c <=? 57) then
      St 325 else St 0) else if c >? 70 then (if (97 <=? c) && (c <=? 102) then St 325 else St 0) else
      St 325)].

Definition uri_blocks_53 : list (block uri_action) := [
  CASE 325 (fun c => if c =? 93 then St 512 else if c <? 65 then (if (48 <=? c) && (c <=? 57) then
      St 305 else St 0) else if c >? 70 then (if (97 <=? c) && (c <=? 102) then St 305 else St 0) else
      St 305);
  CASE 326 (fun c => sw c [(46, St 294); (58, St 322)] (if c <? 65 then (if (48 <=? c) && (c <=? 57)
      then St 327 else St 0) else if c >? 70 then (if (97 <=? c) && (c <=? 102) then St 319 else St 0)
      else St 319));
  CASE 327 (fun c => sw c [(46, St 294); (58, St 322)] (if c <? 65 then (if (48 <=? c) && (c <=? 57)
      then St 328 else St 0) else if c >? 70 then (if (97 <=? c) && (c <=? 102) then St 320 else St 0)
      else St 320));
  CASE 328 (fun c => sw c [(46, St 294); (58, St 322)] (if c <? 65 then (if (48 <=? c) && (c <=? 57)
      then St 321 else St 0) else if c >? 70 then (if (97 <=? c) && (c <=? 102) then St 321 else St 0)
      else St 321));
  CASE 329 (fun c => sw c [(46, St 294); (53, St 331); (58, St 322)] (if c <? 65 then (if (48 <=? c) &&
      (c <=? 57) then St 330 else St 0) else if c >? 70 then (if (97 <=? c) && (c <=? 102) then St 319
      else St 0) else St 319));
  CASE 330 (fun c => sw c [(46, St 294); (58, St 322)] (if c <? 65 then (if (48 <=? c) && (c <=? 57)
      then St 320 else St 0) else if c >? 70 then (if (97 <=? c) && (c <=? 102) then St 320 else St 0)
      else St 320));
  CASE 331 (fun c => sw c [(46, St 294); (58, St 322)] (if c <? 54 then (if (48 <=? c) && (c <=? 53)
      then St 328 else St 0) else if c >? 57 then (if c >? 70 then (if (97 <=? c) && (c <=? 102) then
      St 320 else St 0) else if c >=? 65 then St 320 else St 0) else St 320));
  CASE 332 (fun c => sw c [(46, St 294); (58, St 322)] (if c <? 65 then (if (48 <=? c) && (c <=? 57)
      then St 330 else St 0) else if c >? 70 then (if (97 <=? c) && (c <=? 102) then St 319 else St 0)
      else St 319))].

Definition uri_blocks_54 : list (block uri_action) := [
  CASE 333 (fun c => if c <? 65 then (if (48 <=? c) && (c <=? 57) then St 323 else St 0) else if c >? 70
      then (if (97 <=? c) && (c <=? 102) then St 323 else St 0) else St 323);
  CASE 334 (fun c => if c =? 58 then St 322 else if c <? 65 then (if (48 <=? c) && (c <=? 57) then
      St 319 else St 0) else if c >? 70 then (if (97 <=? c) && (c <=? 102) then St 319 else St 0) else
      St 319);
  CASE 335 (fun c => sw c [(2, St 291); (48, St 336); (49, St 340); (50, St 343)] (if c <? 65 then (if
      (51 <=? c) && (c <=? 57) then St 346 else St 0) else if c >? 70 then (if (97 <=? c) && (c <=? 102)
      then St 347 else St 0) else St 347));
  CASE 336 (fun c => sw c [(46, St 294); (58, St 333)] (if c <? 65 then (if (48 <=? c) && (c <=? 57)
      then St 337 else St 0) else if c >? 70 then (if (97 <=? c) && (c <=? 102) then St 337 else St 0)
      else St 337));
  CASE 337 (fun c => if c =? 58 then St 333 else if c <? 65 then (if (48 <=? c) && (c <=? 57) then
      St 338 else St 0) else if c >? 70 then (if (97 <=? c) && (c <=? 102) then St 338 else St 0) else
      St 338);
  CASE 338 (fun c => if c =? 58 then St 333 else if c <? 65 then (if (48 <=? c) && (c <=? 57) then
      St 339 else St 0) else if c >? 70 then (if (97 <=? c) && (c <=? 102) then St 339 else St 0) else
      St 339);
  CASE 339 (fun c => if c =? 58 then St 333 else St 0);
  CASE 340 (fun c => sw c [(46, St 294); (58, St 333)] (if c <? 65 then (if (48 <=? c) && (c <=? 57)
      then St 341 else St 0) else if c >? 70 then (if (97 <=? c) && (c <=? 102) then St 337 else St 0)
      else St 337));
  CASE 341 (fun c => sw c [(46, St 294); (58, St 333)] (if c <? 65 then (if (48 <=? c) && (c <=? 57)
      then St 342 else St 0) else if c >? 70 then (if (97 <=? c) && (c <=? 102) then St 338 else St 0)
      else St 338))].

Definition uri_blocks_55 : list (block uri_action) := [
  CASE 342 (fun c => sw c [(46, St 294); (58, St 333)] (if c <? 65 then (if (48 <=? c) && (c <=? 57)
      then St 339 else St 0) else if c >? 70 then (if (97 <=? c) && (c <=? 102) then St 339 else St 0)
      else St 339));
  CASE 343 (fun c => sw c [(46, St 294); (53, St 345); (58, St 333)] (if c <? 65 then (if (48 <=? c) &&
      (c <=? 57) then St 344 else St 0) else if c >? 70 then (if (97 <=? c) && (c <=? 102) then St 337
      else St 0) else St 337));
  CASE 344 (fun c => sw c [(46, St 294); (58, St 333)] (if c <? 65 then (if (48 <=? c) && (c <=? 57)
      then St 338 else St 0) else if c >? 70 then (if (97 <=? c) && (c <=? 102) then St 338 else St 0)
      else St 338));
  CASE 345 (fun c => sw c [(46, St 294); (58, St 333)] (if c <? 54 then (if (48 <=? c) && (c <=? 53)
      then St 342 else St 0) else if c >? 57 then (if c >? 70 then (if (97 <=? c) && (c <=? 102) then
      St 338 else St 0) else if c >=? 65 then St 338 else St 0) else St 338));
  CASE 346 (fun c => sw c [(46, St 294); (58, St 333)] (if c <? 65 then (if (48 <=? c) && (c <=? 57)
      then St 344 else St 0) else if c >? 70 then (if (97 <=? c) && (c <=? 102) then St 337 else St 0)
      else St 337));
  CASE 347 (fun c => if c =? 58 then St 333 else if c <? 65 then (if (48 <=? c) && (c <=? 57) then
      St 337 else St 0) else if c >? 70 then (if (97 <=? c) && (c <=? 102) then St 337 else St 0) else
      St 337);
  CASE 348 (fun c => if c <? 65 then (if (48 <=? c) && (c <=? 57) then St 349 else St 0) else if c >? 70
      then (if (97 <=? c) && (c <=? 102) then St 349 else St 0) else St 349);
  CASE 349 (fun c => if c =? 58 then St 335 else if c <? 65 then (if (48 <=? c) && (c <=? 57) then
      St 350 else St 0) else if c >? 70 then (if (97 <=? c) && (c <=? 102) then St 350 else St 0) else
      St 350);
  CASE 350 (fun c => if c =? 58 then St 335 else if c <? 65 then (if (48 <=? c) && (c <=? 57) then
      St 351 else St 0) else if c >? 70 then (if (97 <=? c) && (c <=? 102) then St 351 else St 0) else
      St 351)].

Definition uri_blocks_56 : list (block uri_action) := [
  CASE 351 (fun c => if c =? 58 then St 335 else if c <? 65 then (if (48 <=? c) && (c <=? 57) then
      St 352 else St 0) else if c >? 70 then (if (97 <=? c) && (c <=? 102) then St 352 else St 0) else
      St 352);
  CASE 352 (fun c => if c =? 58 then St 335 else St 0);
  CASE 353 (fun c => if c <? 65 then (if (48 <=? c) && (c <=? 57) then St 354 else St 0) else if c >? 70
      then (if (97 <=? c) && (c <=? 102) then St 354 else St 0) else St 354);
  CASE 354 (fun c => if c =? 58 then St 348 else if c <? 65 then (if (48 <=? c) && (c <=? 57) then
      St 355 else St 0) else if c >? 70 then (if (97 <=? c) && (c <=? 102) then St 355 else St 0) else
      St 355);
  CASE 355 (fun c => if c =? 58 then St 348 else if c <? 65 then (if (48 <=? c) && (c <=? 57) then
      St 356 else St 0) else if c >? 70 then (if (97 <=? c) && (c <=? 102) then St 356 else St 0) else
      St 356);
  CASE 356 (fun c => if c =? 58 then St 348 else if c <? 65 then (if (48 <=? c) && (c <=? 57) then
      St 357 else St 0) else if c >? 70 then (if (97 <=? c) && (c <=? 102) then St 357 else St 0) else
      St 357);
  CASE 357 (fun c => if c =? 58 then St 348 else St 0);
  CASE 358 (fun c => if c <? 65 then (if (48 <=? c) && (c <=? 57) then St 359 else St 0) else if c >? 70
      then (if (97 <=? c) && (c <=? 102) then St 359 else St 0) else St 359);
  CASE 359 (fun c => if c =? 58 then St 353 else if c <? 65 then (if (48 <=? c) && (c <=? 57) then
      St 360 else St 0) else if c >? 70 then (if (97 <=? c) && (c <=? 102) then St 360 else St 0) else
      St 360);
  CASE 360 (fun c => if c =? 58 then St 353 else if c <? 65 then (if (48 <=? c) && (c <=? 57) then
      St 361 else St 0) else if c >? 70 then (if (97 <=? c) && (c <=? 102) then St 361 else St 0) else
      St 361);
  CASE 361 (fun c => if c =? 58 then St 353 else if c <? 65 then (if (48 <=? c) && (c <=? 57) then
      St 362 else St 0) else if c >? 70 then (if (97 <=? c) && (c <=? 102) then St 362 else St 0) else
      St 362)].

Definition uri_blocks_57 : list (block uri_action) := [
  CASE 362 (fun c => if c =? 58 then St 353 else St 0);
  CASE 363 (fun c => if c <? 65 then (if (48 <=? c) && (c <=? 57) then St 364 else St 0) else if c >? 70
      then (if (97 <=? c) && (c <=? 102) then St 364 else St 0) else St 364);
  CASE 364 (fun c => if c =? 58 then St 358 else if c <? 65 then (if (48 <=? c) && (c <=? 57) then
      St 365 else St 0) else if c >? 70 then (if (97 <=? c) && (c <=? 102) then St 365 else St 0) else
      St 365);
  CASE 365 (fun c => if c =? 58 then St 358 else if c <? 65 then (if (48 <=? c) && (c <=? 57) then
      St 366 else St 0) else if c >? 70 then (if (97 <=? c) && (c <=? 102) then St 366 else St 0) else
      St 366);
  CASE 366 (fun c => if c =? 58 then St 358 else if c <? 65 then (if (48 <=? c) && (c <=? 57) then
      St 367 else St 0) else if c >? 70 then (if (97 <=? c) && (c <=? 102) then St 367 else St 0) else
      St 367);
  CASE 367 (fun c => if c =? 58 then St 358 else St 0);
  CASE 368 (fun c => if c =? 58 then St 369 else St 0);
  CASE 369 (fun c => sw c [(2, St 291); (48, St 370); (49, St 439); (50, St 442); (93, St 512)] (if
      c <? 65 then (if (51 <=? c) && (c <=? 57) then St 445 else St 0) else if c >? 70 then (if
      (97 <=? c) && (c <=? 102) then St 446 else St 0) else St 446));
  CASE 370 (fun c => sw c [(46, St 294); (58, St 374); (93, St 512)] (if c <? 65 then (if (48 <=? c) &&
      (c <=? 57) then St 371 else St 0) else if c >? 70 then (if (97 <=? c) && (c <=? 102) then St 371
      else St 0) else St 371));
  CASE 371 (fun c => sw c [(58, St 374); (93, St 512)] (if c <? 65 then (if (48 <=? c) && (c <=? 57)
      then St 372 else St 0) else if c >? 70 then (if (97 <=? c) && (c <=? 102) then St 372 else St 0)
      else St 372))].

Definition uri_blocks_58 : list (block uri_action) := [
  CASE 372 (fun c => sw c [(58, St 374); (93, St 512)] (if c <? 65 then (if (48 <=? c) && (c <=? 57)
      then St 373 else St 0) else if c >? 70 then (if (97 <=? c) && (c <=? 102) then St 373 else St 0)
      else St 373));
  CASE 373 (fun c => sw c [(58, St 374); (93, St 512)] (St 0));
  CASE 374 (fun c => sw c [(2, St 291); (48, St 375); (49, St 431); (50, St 434)] (if c <? 65 then (if
      (51 <=? c) && (c <=? 57) then St 437 else St 0) else if c >? 70 then (if (97 <=? c) && (c <=? 102)
      then St 438 else St 0) else St 438));
  CASE 375 (fun c => sw c [(46, St 294); (58, St 379); (93, St 512)] (if c <? 65 then (if (48 <=? c) &&
      (c <=? 57) then St 376 else St 0) else if c >? 70 then (if (97 <=? c) && (c <=? 102) then St 376
      else St 0) else St 376));
  CASE 376 (fun c => sw c [(58, St 379); (93, St 512)] (if c <? 65 then (if (48 <=? c) && (c <=? 57)
      then St 377 else St 0) else if c >? 70 then (if (97 <=? c) && (c <=? 102) then St 377 else St 0)
      else St 377));
  CASE 377 (fun c => sw c [(58, St 379); (93, St 512)] (if c <? 65 then (if (48 <=? c) && (c <=? 57)
      then St 378 else St 0) else if c >? 70 then (if (97 <=? c) && (c <=? 102) then St 378 else St 0)
      else St 378));
  CASE 378 (fun c => sw c [(58, St 379); (93, St 512)] (St 0));
  CASE 379 (fun c => sw c [(2, St 291); (48, St 380); (49, St 423); (50, St 426)] (if c <? 65 then (if
      (51 <=? c) && (c <=? 57) then St 429 else St 0) else if c >? 70 then (if (97 <=? c) && (c <=? 102)
      then St 430 else St 0) else St 430));
  CASE 380 (fun c => sw c [(46, St 294); (58, St 384); (93, St 512)] (if c <? 65 then (if (48 <=? c) &&
      (c <=? 57) then St 381 else St 0) else if c >? 70 then (if (97 <=? c) && (c <=? 102) then St 381
      else St 0) else St 381))].

Definition uri_blocks_59 : list (block uri_action) := [
  CASE 381 (fun c => sw c [(58, St 384); (93, St 512)] (if c <? 65 then (if (48 <=? c) && (c <=? 57)
      then St 382 else St 0) else if c >? 70 then (if (97 <=? c) && (c <=? 102) then St 382 else St 0)
      else St 382));
  CASE 382 (fun c => sw c [(58, St 384); (93, St 512)] (if c <? 65 then (if (48 <=? c) && (c <=? 57)
      then St 383 else St 0) else if c >? 70 then (if (97 <=? c) && (c <=? 102) then St 383 else St 0)
      else St 383));
  CASE 383 (fun c => sw c [(58, St 384); (93, St 512)] (St 0));
  CASE 384 (fun c => sw c [(2, St 291); (48, St 385); (49, St 415); (50, St 418)] (if c <? 65 then (if
      (51 <=? c) && (c <=? 57) then St 421 else St 0) else if c >? 70 then (if (97 <=? c) && (c <=? 102)
      then St 422 else St 0) else St 422));
  CASE 385 (fun c => sw c [(46, St 294); (58, St 389); (93, St 512)] (if c <? 65 then (if (48 <=? c) &&
      (c <=? 57) then St 386 else St 0) else if c >? 70 then (if (97 <=? c) && (c <=? 102) then St 386
      else St 0) else St 386));
  CASE 386 (fun c => sw c [(58, St 389); (93, St 512)] (if c <? 65 then (if (48 <=? c) && (c <=? 57)
      then St 387 else St 0) else if c >? 70 then (if (97 <=? c) && (c <=? 102) then St 387 else St 0)
      else St 387));
  CASE 387 (fun c => sw c [(58, St 389); (93, St 512)] (if c <? 65 then (if (48 <=? c) && (c <=? 57)
      then St 388 else St 0) else if c >? 70 then (if (97 <=? c) && (c <=? 102) then St 388 else St 0)
      else St 388));
  CASE 388 (fun c => sw c [(58, St 389); (93, St 512)] (St 0));
  CASE 389 (fun c => sw c [(2, St 291); (48, St 390); (49, St 407); (50, St 410)] (if c <? 65 then (if
      (51 <=? c) && (c <=? 57) then St 413 else St 0) else if c >? 70 then (if (97 <=? c) && (c <=? 102)
      then St 414 else St 0) else St 414))].

Definition uri_blocks_60 : list (block uri_action) := [
  CASE 390 (fun c => sw c [(46, St 294); (58, St 394); (93, St 512)] (if c <? 65 then (if (48 <=? c) &&
      (c <=? 57) then St 391 else St 0) else if c >? 70 then (if (97 <=? c) && (c <=? 102) then St 391
      else St 0) else St 391));
  CASE 391 (fun c => sw c [(58, St 394); (93, St 512)] (if c <? 65 then (if (48 <=? c) && (c <=? 57)
      then St 392 else St 0) else if c >? 70 then (if (97 <=? c) && (c <=? 102) then St 392 else St 0)
      else St 392));
  CASE 392 (fun c => sw c [(58, St 394); (93, St 512)] (if c <? 65 then (if (48 <=? c) && (c <=? 57)
      then St 393 else St 0) else if c >? 70 then (if (97 <=? c) && (c <=? 102) then St 393 else St 0)
      else St 393));
  CASE 393 (fun c => sw c [(58, St 394); (93, St 512)] (St 0));
  CASE 394 (fun c => sw c [(2, St 291); (48, St 395); (49, St 399); (50, St 402)] (if c <? 65 then (if
      (51 <=? c) && (c <=? 57) then St 405 else St 0) else if c >? 70 then (if (97 <=? c) && (c <=? 102)
      then St 406 else St 0) else St 406));
  CASE 395 (fun c => sw c [(46, St 294); (58, St 333); (93, St 512)] (if c <? 65 then (if (48 <=? c) &&
      (c <=? 57) then St 396 else St 0) else if c >? 70 then (if (97 <=? c) && (c <=? 102) then St 396
      else St 0) else St 396));
  CASE 396 (fun c => sw c [(58, St 333); (93, St 512)] (if c <? 65 then (if (48 <=? c) && (c <=? 57)
      then St 397 else St 0) else if c >? 70 then (if (97 <=? c) && (c <=? 102) then St 397 else St 0)
      else St 397));
  CASE 397 (fun c => sw c [(58, St 333); (93, St 512)] (if c <? 65 then (if (48 <=? c) && (c <=? 57)
      then St 398 else St 0) else if c >? 70 then (if (97 <=? c) && (c <=? 102) then St 398 else St 0)
      else St 398));
  CASE 398 (fun c => sw c [(58, St 333); (93, St 512)] (St 0))].

Definition uri_blocks_61 : list (block uri_action) := [
  CASE 399 (fun c => sw c [(46, St 294); (58, St 333); (93, St 512)] (if c <? 65 then (if (48 <=? c) &&
      (c <=? 57) then St 400 else St 0) else if c >? 70 then (if (97 <=? c) && (c <=? 102) then St 396
      else St 0) else St 396));
  CASE 400 (fun c => sw c [(46, St 294); (58, St 333); (93, St 512)] (if c <? 65 then (if (48 <=? c) &&
      (c <=? 57) then St 401 else St 0) else if c >? 70 then (if (97 <=? c) && (c <=? 102) then St 397
      else St 0) else St 397));
  CASE 401 (fun c => sw c [(46, St 294); (58, St 333); (93, St 512)] (if c <? 65 then (if (48 <=? c) &&
      (c <=? 57) then St 398 else St 0) else if c >? 70 then (if (97 <=? c) && (c <=? 102) then St 398
      else St 0) else St 398));
  CASE 402 (fun c => sw c [(46, St 294); (53, St 404); (58, St 333); (93, St 512)] (if c <? 65 then (if
      (48 <=? c) && (c <=? 57) then St 403 else St 0) else if c >? 70 then (if (97 <=? c) && (c <=? 102)
      then St 396 else St 0) else St 396));
  CASE 403 (fun c => sw c [(46, St 294); (58, St 333); (93, St 512)] (if c <? 65 then (if (48 <=? c) &&
      (c <=? 57) then St 397 else St 0) else if c >? 70 then (if (97 <=? c) && (c <=? 102) then St 397
      else St 0) else St 397));
  CASE 404 (fun c => sw c [(46, St 294); (58, St 333); (93, St 512)] (if c <? 54 then (if (48 <=? c) &&
      (c <=? 53) then St 401 else St 0) else if c >? 57 then (if c >? 70 then (if (97 <=? c) &&
      (c <=? 102) then St 397 else St 0) else if c >=? 65 then St 397 else St 0) else St 397));
  CASE 405 (fun c => sw c [(46, St 294); (58, St 333); (93, St 512)] (if c <? 65 then (if (48 <=? c) &&
      (c <=? 57) then St 403 else St 0) else if c >? 70 then (if (97 <=? c) && (c <=? 102) then St 396
      else St 0) else St 396));
  CASE 406 (fun c => sw c [(58, St 333); (93, St 512)] (if c <? 65 then (if (48 <=? c) && (c <=? 57)
      then St 396 else St 0) else if c >? 70 then (if (97 <=? c) && (c <=? 102) then St 396 else St 0)
      else St 396))].

Definition uri_blocks_62 : list (block uri_action) := [
  CASE 407 (fun c => sw c [(46, St 294); (58, St 394); (93, St 512)] (if c <? 65 then (if (48 <=? c) &&
      (c <=? 57) then St 408 else St 0) else if c >? 70 then (if (97 <=? c) && (c <=? 102) then St 391
      else St 0) else St 391));
  CASE 408 (fun c => sw c [(46, St 294); (58, St 394); (93, St 512)] (if c <? 65 then (if (48 <=? c) &&
      (c <=? 57) then St 409 else St 0) else if c >? 70 then (if (97 <=? c) && (c <=? 102) then St 392
      else St 0) else St 392));
  CASE 409 (fun c => sw c [(46, St 294); (58, St 394); (93, St 512)] (if c <? 65 then (if (48 <=? c) &&
      (c <=? 57) then St 393 else St 0) else if c >? 70 then (if (97 <=? c) && (c <=? 102) then St 393
      else St 0) else St 393));
  CASE 410 (fun c => sw c [(46, St 294); (53, St 412); (58, St 394); (93, St 512)] (if c <? 65 then (if
      (48 <=? c) && (c <=? 57) then St 411 else St 0) else if c >? 70 then (if (97 <=? c) && (c <=? 102)
      then St 391 else St 0) else St 391));
  CASE 411 (fun c => sw c [(46, St 294); (58, St 394); (93, St 512)] (if c <? 65 then (if (48 <=? c) &&
      (c <=? 57) then St 392 else St 0) else if c >? 70 then (if (97 <=? c) && (c <=? 102) then St 392
      else St 0) else St 392));
  CASE 412 (fun c => sw c [(46, St 294); (58, St 394); (93, St 512)] (if c <? 54 then (if (48 <=? c) &&
      (c <=? 53) then St 409 else St 0) else if c >? 57 then (if c >? 70 then (if (97 <=? c) &&
      (c <=? 102) then St 392 else St 0) else if c >=? 65 then St 392 else St 0) else St 392));
  CASE 413 (fun c => sw c [(46, St 294); (58, St 394); (93, St 512)] (if c <? 65 then (if (48 <=? c) &&
      (c <=? 57) then St 411 else St 0) else if c >? 70 then (if (97 <=? c) && (c <=? 102) then St 391
      else St 0) else St 391));
  CASE 414 (fun c => sw c [(58, St 394); (93, St 512)] (if c <? 65 then (if (48 <=? c) && (c <=? 57)
      then St 391 else St 0) else if c >? 70 then (if (97 <=? c) && (c <=? 102) then St 391 else St 0)
      else St 391))].

Definition uri_blocks_63 : list (block uri_action) := [
  CASE 415 (fun c => sw c [(46, St 294); (58, St 389); (93, St 512)] (if c <? 65 then (if (48 <=? c) &&
      (c <=? 57) then St 416 else St 0) else if c >? 70 then (if (97 <=? c) && (c <=? 102) then St 386
      else St 0) else St 386));
  CASE 416 (fun c => sw c [(46, St 294); (58, St 389); (93, St 512)] (if c <? 65 then (if (48 <=? c) &&
      (c <=? 57) then St 417 else St 0) else if c >? 70 then (if (97 <=? c) && (c <=? 102) then St 387
      else St 0) else St 387));
  CASE 417 (fun c => sw c [(46, St 294); (58, St 389); (93, St 512)] (if c <? 65 then (if (48 <=? c) &&
      (c <=? 57) then St 388 else St 0) else if c >? 70 then (if (97 <=? c) && (c <=? 102) then St 388
      else St 0) else St 388));
  CASE 418 (fun c => sw c [(46, St 294); (53, St 420); (58, St 389); (93, St 512)] (if c <? 65 then (if
      (48 <=? c) && (c <=? 57) then St 419 else St 0) else if c >? 70 then (if (97 <=? c) && (c <=? 102)
      then St 386 else St 0) else St 386));
  CASE 419 (fun c => sw c [(46, St 294); (58, St 389); (93, St 512)] (if c <? 65 then (if (48 <=? c) &&
      (c <=? 57) then St 387 else St 0) else if c >? 70 then (if (97 <=? c) && (c <=? 102) then St 387
      else St 0) else St 387));
  CASE 420 (fun c => sw c [(46, St 294); (58, St 389); (93, St 512)] (if c <? 54 then (if (48 <=? c) &&
      (c <=? 53) then St 417 else St 0) else if c >? 57 then (if c >? 70 then (if (97 <=? c) &&
      (c <=? 102) then St 387 else St 0) else if c >=? 65 then St 387 else St 0) else St 387));
  CASE 421 (fun c => sw c [(46, St 294); (58, St 389); (93, St 512)] (if c <? 65 then (if (48 <=? c) &&
      (c <=? 57) then St 419 else St 0) else if c >? 70 then (if (97 <=? c) && (c <=? 102) then St 386
      else St 0) else St 386));
  CASE 422 (fun c => sw c [(58, St 389); (93, St 512)] (if c <? 65 then (if (48 <=? c) && (c <=? 57)
      then St 386 else St 0) else if c >? 70 then (if (97 <=? c) && (c <=? 102) then St 386 else St 0)
      else St 386))].

Definition uri_blocks_64 : list (block uri_action) := [
  CASE 423 (fun c => sw c [(46, St 294); (58, St 384); (93, St 512)] (if c <? 65 then (if (48 <=? c) &&
      (c <=? 57) then St 424 else St 0) else if c >? 70 then (if (97 <=? c) && (c <=? 102) then St 381
      else St 0) else St 381));
  CASE 424 (fun c => sw c [(46, St 294); (58, St 384); (93, St 512)] (if c <? 65 then (if (48 <=? c) &&
      (c <=? 57) then St 425 else St 0) else if c >? 70 then (if (97 <=? c) && (c <=? 102) then St 382
      else St 0) else St 382));
  CASE 425 (fun c => sw c [(46, St 294); (58, St 384); (93, St 512)] (if c <? 65 then (if (48 <=? c) &&
      (c <=? 57) then St 383 else St 0) else if c >? 70 then (if (97 <=? c) && (c <=? 102) then St 383
      else St 0) else St 383));
  CASE 426 (fun c => sw c [(46, St 294); (53, St 428); (58, St 384); (93, St 512)] (if c <? 65 then (if
      (48 <=? c) && (c <=? 57) then St 427 else St 0) else if c >? 70 then (if (97 <=? c) && (c <=? 102)
      then St 381 else St 0) else St 381));
  CASE 427 (fun c => sw c [(46, St 294); (58, St 384); (93, St 512)] (if c <? 65 then (if (48 <=? c) &&
      (c <=? 57) then St 382 else St 0) else if c >? 70 then (if (97 <=? c) && (c <=? 102) then St 382
      else St 0) else St 382));
  CASE 428 (fun c => sw c [(46, St 294); (58, St 384); (93, St 512)] (if c <? 54 then (if (48 <=? c) &&
      (c <=? 53) then St 425 else St 0) else if c >? 57 then (if c >? 70 then (if (97 <=? c) &&
      (c <=? 102) then St 382 else St 0) else if c >=? 65 then St 382 else St 0) else St 382));
  CASE 429 (fun c => sw c [(46, St 294); (58, St 384); (93, St 512)] (if c <? 65 then (if (48 <=? c) &&
      (c <=? 57) then St 427 else St 0) else if c >? 70 then (if (97 <=? c) && (c <=? 102) then St 381
      else St 0) else St 381));
  CASE 430 (fun c => sw c [(58, St 384); (93, St 512)] (if c <? 65 then (if (48 <=? c) && (c <=? 57)
      then St 381 else St 0) else if c >? 70 then (if (97 <=? c) && (c <=? 102) then St 381 else St 0)
      else St 381))].

Definition uri_blocks_65 : list (block uri_action) := [
  CASE 431 (fun c => sw c [(46, St 294); (58, St 379); (93, St 512)] (if c <? 65 then (if (48 <=? c) &&
      (c <=? 57) then St 432 else St 0) else if c >? 70 then (if (97 <=? c) && (c <=? 102) then St 376
      else St 0) else St 376));
  CASE 432 (fun c => sw c [(46, St 294); (58, St 379); (93, St 512)] (if c <? 65 then (if (48 <=? c) &&
      (c <=? 57) then St 433 else St 0) else if c >? 70 then (if (97 <=? c) && (c <=? 102) then St 377
      else St 0) else St 377));
  CASE 433 (fun c => sw c [(46, St 294); (58, St 379); (93, St 512)] (if c <? 65 then (if (48 <=? c) &&
      (c <=? 57) then St 378 else St 0) else if c >? 70 then (if (97 <=? c) && (c <=? 102) then St 378
      else St 0) else St 378));
  CASE 434 (fun c => sw c [(46, St 294); (53, St 436); (58, St 379); (93, St 512)] (if c <? 65 then (if
      (48 <=? c) && (c <=? 57) then St 435 else St 0) else if c >? 70 then (if (97 <=? c) && (c <=? 102)
      then St 376 else St 0) else St 376));
  CASE 435 (fun c => sw c [(46, St 294); (58, St 379); (93, St 512)] (if c <? 65 then (if (48 <=? c) &&
      (c <=? 57) then St 377 else St 0) else if c >? 70 then (if (97 <=? c) && (c <=? 102) then St 377
      else St 0) else St 377));
  CASE 436 (fun c => sw c [(46, St 294); (58, St 379); (93, St 512)] (if c <? 54 then (if (48 <=? c) &&
      (c <=? 53) then St 433 else St 0) else if c >? 57 then (if c >? 70 then (if (97 <=? c) &&
      (c <=? 102) then St 377 else St 0) else if c >=? 65 then St 377 else St 0) else St 377));
  CASE 437 (fun c => sw c [(46, St 294); (58, St 379); (93, St 512)] (if c <? 65 then (if (48 <=? c) &&
      (c <=? 57) then St 435 else St 0) else if c >? 70 then (if (97 <=? c) && (c <=? 102) then St 376
      else St 0) else St 376));
  CASE 438 (fun c => sw c [(58, St 379); (93, St 512)] (if c <? 65 then (if (48 <=? c) && (c <=? 57)
      then St 376 else St 0) else if c >? 70 then (if (97 <=? c) && (c <=? 102) then St 376 else St 0)
      else St 376))].

Definition uri_blocks_66 : list (block uri_action) := [
  CASE 439 (fun c => sw c [(46, St 294); (58, St 374); (93, St 512)] (if c <? 65 then (if (48 <=? c) &&
      (c <=? 57) then St 440 else St 0) else if c >? 70 then (if (97 <=? c) && (c <=? 102) then St 371
      else St 0) else St 371));
  CASE 440 (fun c => sw c [(46, St 294); (58, St 374); (93, St 512)] (if c <? 65 then (if (48 <=? c) &&
      (c <=? 57) then St 441 else St 0) else if c >? 70 then (if (97 <=? c) && (c <=? 102) then St 372
      else St 0) else St 372));
  CASE 441 (fun c => sw c [(46, St 294); (58, St 374); (93, St 512)] (if c <? 65 then (if (48 <=? c) &&
      (c <=? 57) then St 373 else St 0) else if c >? 70 then (if (97 <=? c) && (c <=? 102) then St 373
      else St 0) else St 373));
  CASE 442 (fun c => sw c [(46, St 294); (53, St 444); (58, St 374); (93, St 512)] (if c <? 65 then (if
      (48 <=? c) && (c <=? 57) then St 443 else St 0) else if c >? 70 then (if (97 <=? c) && (c <=? 102)
      then St 371 else St 0) else St 371));
  CASE 443 (fun c => sw c [(46, St 294); (58, St 374); (93, St 512)] (if c <? 65 then (if (48 <=? c) &&
      (c <=? 57) then St 372 else St 0) else if c >? 70 then (if (97 <=? c) && (c <=? 102) then St 372
      else St 0) else St 372));
  CASE 444 (fun c => sw c [(46, St 294); (58, St 374); (93, St 512)] (if c <? 54 then (if (48 <=? c) &&
      (c <=? 53) then St 441 else St 0) else if c >? 57 then (if c >? 70 then (if (97 <=? c) &&
      (c <=? 102) then St 372 else St 0) else if c >=? 65 then St 372 else St 0) else St 372));
  CASE 445 (fun c => sw c [(46, St 294); (58, St 374); (93, St 512)] (if c <? 65 then (if (48 <=? c) &&
      (c <=? 57) then St 443 else St 0) else if c >? 70 then (if (97 <=? c) && (c <=? 102) then St 371
      else St 0) else St 371));
  CASE 446 (fun c => sw c [(58, St 374); (93, St 512)] (if c <? 65 then (if (48 <=? c) && (c <=? 57)
      then St 371 else St 0) else if c >? 70 then (if (97 <=? c) && (c <=? 102) then St 371 else St 0)
      else St 371))].

Definition uri_blocks_67 : list (block uri_action) := [
  CASE 447 (fun c => if c <? 65 then (if (48 <=? c) && (c <=? 57) then St 448 else St 0) else if c >? 70
      then (if (97 <=? c) && (c <=? 102) then St 448 else St 0) else St 448);
  CASE 448 (fun c => if c =? 46 then St 449 else if c <? 65 then (if (48 <=? c) && (c <=? 57) then
      St 448 else St 0) else if c >? 70 then (if (97 <=? c) && (c <=? 102) then St 448 else St 0) else
      St 448);
  CASE 449 (fun c => sw c [(33, St 450); (36, St 450); (61, St 450); (95, St 450); (126, St 450)] (if
      c <? 48 then (if (38 <=? c) && (c <=? 46) then St 450 else St 0) else if c >? 59 then (if c >? 90
      then (if (97 <=? c) && (c <=? 122) then St 450 else St 0) else if c >=? 65 then St 450 else St 0)
      else St 450));
  CASE 450 (fun c => sw c [(33, St 450); (36, St 450); (61, St 450); (93, St 512); (95, St 450);
      (126, St 450)] (if c <? 48 then (if (38 <=? c) && (c <=? 46) then St 450 else St 0) else if
      c >? 59 then (if c >? 90 then (if (97 <=? c) && (c <=? 122) then St 450 else St 0) else if
      c >=? 65 then St 450 else St 0) else St 450));
  TR 577 [markh] (GOTO 542);
  CASE 542 (fun c => sw c [(33, St 255); (35, Tr 570); (37, St 256); (47, Tr 571); (61, St 255);
      (63, Tr 573); (64, Tr 263); (95, St 255); (126, St 255)] (if c <? 58 then (if c >? 46 then (if
      (48 <=? c) && (c <=? 57) then St 542 else St 0) else if c >=? 36 then St 255 else St 0) else if
      c >? 59 then (if c >? 90 then (if (97 <=? c) && (c <=? 122) then St 255 else St 0) else if
      c >=? 65 then St 255 else St 0) else St 255));
  TR 551 [markh] (GOTO 543);
  CASE 543 (fun c => sw c [(33, St 520); (35, Tr 559); (37, St 253); (46, St 544); (47, Tr 560);
      (58, Tr 576); (61, St 520); (63, Tr 562); (64, Tr 263); (95, St 520); (126, St 520)] (if c <? 65
      then (if (36 <=? c) && (c <=? 59) then St 520 else St 0) else if c >? 90 then (if (97 <=? c) &&
      (c <=? 122) then St 520 else St 0) else St 520))].

Definition uri_blocks_68 : list (block uri_action) := [
  CASE 544 (fun c => sw c [(2, St 233); (33, St 520); (35, Tr 559); (37, St 253); (47, Tr 560);
      (48, St 545); (49, St 553); (50, St 555); (58, Tr 576); (59, St 520); (61, St 520); (63, Tr 562);
      (64, Tr 263); (95, St 520); (126, St 520)] (if c <? 51 then (if (36 <=? c) && (c <=? 46) then
      St 520 else St 0) else if c >? 57 then (if c >? 90 then (if (97 <=? c) && (c <=? 122) then St 520
      else St 0) else if c >=? 65 then St 520 else St 0) else St 554));
  CASE 545 (fun c => sw c [(33, St 520); (35, Tr 559); (37, St 253); (46, St 546); (47, Tr 560);
      (58, Tr 576); (61, St 520); (63, Tr 562); (64, Tr 263); (95, St 520); (126, St 520)] (if c <? 65
      then (if (36 <=? c) && (c <=? 59) then St 520 else St 0) else if c >? 90 then (if (97 <=? c) &&
      (c <=? 122) then St 520 else St 0) else St 520));
  CASE 546 (fun c => sw c [(2, St 237); (33, St 520); (35, Tr 559); (37, St 253); (47, Tr 560);
      (48, St 547); (49, St 549); (50, St 551); (58, Tr 576); (59, St 520); (61, St 520); (63, Tr 562);
      (64, Tr 263); (95, St 520); (126, St 520)] (if c <? 51 then (if (36 <=? c) && (c <=? 46) then
      St 520 else St 0) else if c >? 57 then (if c >? 90 then (if (97 <=? c) && (c <=? 122) then St 520
      else St 0) else if c >=? 65 then St 520 else St 0) else St 550));
  CASE 547 (fun c => sw c [(33, St 520); (35, Tr 559); (37, St 253); (46, St 548); (47, Tr 560);
      (58, Tr 576); (61, St 520); (63, Tr 562); (64, Tr 263); (95, St 520); (126, St 520)] (if c <? 65
      then (if (36 <=? c) && (c <=? 59) then St 520 else St 0) else if c >? 90 then (if (97 <=? c) &&
      (c <=? 122) then St 520 else St 0) else St 520));
  CASE 548 (fun c => sw c [(2, St 241); (33, St 520); (35, Tr 559); (37, St 253); (47, Tr 560);
      (58, Tr 576); (61, St 520); (63, Tr 562); (64, Tr 263); (95, St 520); (126, St 520)] (if c <? 65
      then (if (36 <=? c) && (c <=? 59) then St 520 else St 0) else if c >? 90 then (if (97 <=? c) &&
      (c <=? 122) then St 520 else St 0) else St 520))].

Definition uri_blocks_69 : list (block uri_action) := [
  CASE 549 (fun c => sw c [(33, St 520); (35, Tr 559); (37, St 253); (46, St 548); (47, Tr 560);
      (58, Tr 576); (59, St 520); (61, St 520); (63, Tr 562); (64, Tr 263); (95, St 520); (126, St 520)]
      (if c <? 48 then (if (36 <=? c) && (c <=? 45) then St 520 else St 0) else if c >? 57 then (if
      c >? 90 then (if (97 <=? c) && (c <=? 122) then St 520 else St 0) else if c >=? 65 then St 520
      else St 0) else St 550));
  CASE 550 (fun c => sw c [(33, St 520); (35, Tr 559); (37, St 253); (46, St 548); (47, Tr 560);
      (58, Tr 576); (59, St 520); (61, St 520); (63, Tr 562); (64, Tr 263); (95, St 520); (126, St 520)]
      (if c <? 48 then (if (36 <=? c) && (c <=? 45) then St 520 else St 0) else if c >? 57 then (if
      c >? 90 then (if (97 <=? c) && (c <=? 122) then St 520 else St 0) else if c >=? 65 then St 520
      else St 0) else St 547));
  CASE 551 (fun c => sw c [(33, St 520); (35, Tr 559); (37, St 253); (46, St 548); (47, Tr 560);
      (53, St 552); (58, Tr 576); (59, St 520); (61, St 520); (63, Tr 562); (64, Tr 263); (95, St 520);
      (126, St 520)] (if c <? 48 then (if (36 <=? c) && (c <=? 45) then St 520 else St 0) else if
      c >? 57 then (if c >? 90 then (if (97 <=? c) && (c <=? 122) then St 520 else St 0) else if
      c >=? 65 then St 520 else St 0) else St 547));
  CASE 552 (fun c => sw c [(33, St 520); (35, Tr 559); (37, St 253); (46, St 548); (47, Tr 560);
      (58, Tr 576); (61, St 520); (63, Tr 562); (64, Tr 263); (95, St 520); (126, St 520)] (if c <? 54
      then (if c >? 45 then (if (48 <=? c) && (c <=? 53) then St 547 else St 0) else if c >=? 36 then
      St 520 else St 0) else if c >? 59 then (if c >? 90 then (if (97 <=? c) && (c <=? 122) then St 520
      else St 0) else if c >=? 65 then St 520 else St 0) else St 520))].

Definition uri_blocks_70 : list (block uri_action) := [
  CASE 553 (fun c => sw c [(33, St 520); (35, Tr 559); (37, St 253); (46, St 546); (47, Tr 560);
      (58, Tr 576); (59, St 520); (61, St 520); (63, Tr 562); (64, Tr 263); (95, St 520); (126, St 520)]
      (if c <? 48 then (if (36 <=? c) && (c <=? 45) then St 520 else St 0) else if c >? 57 then (if
      c >? 90 then (if (97 <=? c) && (c <=? 122) then St 520 else St 0) else if c >=? 65 then St 520
      else St 0) else St 554));
  CASE 554 (fun c => sw c [(33, St 520); (35, Tr 559); (37, St 253); (46, St 546); (47, Tr 560);
      (58, Tr 576); (59, St 520); (61, St 520); (63, Tr 562); (64, Tr 263); (95, St 520); (126, St 520)]
      (if c <? 48 then (if (36 <=? c) && (c <=? 45) then St 520 else St 0) else if c >? 57 then (if
      c >? 90 then (if (97 <=? c) && (c <=? 122) then St 520 else St 0) else if c >=? 65 then St 520
      else St 0) else St 545));
  CASE 555 (fun c => sw c [(33, St 520); (35, Tr 559); (37, St 253); (46, St 546); (47, Tr 560);
      (53, St 556); (58, Tr 576); (59, St 520); (61, St 520); (63, Tr 562); (64, Tr 263); (95, St 520);
      (126, St 520)] (if c <? 48 then (if (36 <=? c) && (c <=? 45) then St 520 else St 0) else if
      c >? 57 then (if c >? 90 then (if (97 <=? c) && (c <=? 122) then St 520 else St 0) else if
      c >=? 65 then St 520 else St 0) else St 545));
  CASE 556 (fun c => sw c [(33, St 520); (35, Tr 559); (37, St 253); (46, St 546); (47, Tr 560);
      (58, Tr 576); (61, St 520); (63, Tr 562); (64, Tr 263); (95, St 520); (126, St 520)] (if c <? 54
      then (if c >? 45 then (if (48 <=? c) && (c <=? 53) then St 545 else St 0) else if c >=? 36 then
      St 520 else St 0) else if c >? 59 then (if c >? 90 then (if (97 <=? c) && (c <=? 122) then St 520
      else St 0) else if c >=? 65 then St 520 else St 0) else St 520));
  TR 552 [markh] (GOTO 557)].

Definition uri_blocks_71 : list (block uri_action) := [
  CASE 557 (fun c => sw c [(33, St 520); (35, Tr 559); (37, St 253); (46, St 544); (47, Tr 560);
      (58, Tr 576); (59, St 520); (61, St 520); (63, Tr 562); (64, Tr 263); (95, St 520); (126, St 520)]
      (if c <? 48 then (if (36 <=? c) && (c <=? 45) then St 520 else St 0) else if c >? 57 then (if
      c >? 90 then (if (97 <=? c) && (c <=? 122) then St 520 else St 0) else if c >=? 65 then St 520
      else St 0) else St 558));
  TR 554 [markh] (GOTO 558);
  CASE 558 (fun c => sw c [(33, St 520); (35, Tr 559); (37, St 253); (46, St 544); (47, Tr 560);
      (58, Tr 576); (59, St 520); (61, St 520); (63, Tr 562); (64, Tr 263); (95, St 520); (126, St 520)]
      (if c <? 48 then (if (36 <=? c) && (c <=? 45) then St 520 else St 0) else if c >? 57 then (if
      c >? 90 then (if (97 <=? c) && (c <=? 122) then St 520 else St 0) else if c >=? 65 then St 520
      else St 0) else St 543));
  TR 553 [markh] (GOTO 559);
  CASE 559 (fun c => sw c [(33, St 520); (35, Tr 559); (37, St 253); (46, St 544); (47, Tr 560);
      (53, St 560); (58, Tr 576); (59, St 520); (61, St 520); (63, Tr 562); (64, Tr 263); (95, St 520);
      (126, St 520)] (if c <? 48 then (if (36 <=? c) && (c <=? 45) then St 520 else St 0) else if
      c >? 57 then (if c >? 90 then (if (97 <=? c) && (c <=? 122) then St 520 else St 0) else if
      c >=? 65 then St 520 else St 0) else St 543));
  CASE 560 (fun c => sw c [(33, St 520); (35, Tr 559); (37, St 253); (46, St 544); (47, Tr 560);
      (58, Tr 576); (61, St 520); (63, Tr 562); (64, Tr 263); (95, St 520); (126, St 520)] (if c <? 54
      then (if c >? 45 then (if (48 <=? c) && (c <=? 53) then St 543 else St 0) else if c >=? 36 then
      St 520 else St 0) else if c >? 59 then (if c >? 90 then (if (97 <=? c) && (c <=? 122) then St 520
      else St 0) else if c >=? 65 then St 520 else St 0) else St 520))].

(** The blocks of the machine, in the order of the code. *)
Definition uri_blocks : list (block uri_action) :=
  uri_blocks_1 ++ uri_blocks_2 ++ uri_blocks_3 ++ uri_blocks_4 ++ uri_blocks_5 ++ uri_blocks_6 ++
      uri_blocks_7 ++ uri_blocks_8 ++ uri_blocks_9 ++ uri_blocks_10 ++ uri_blocks_11 ++ uri_blocks_12 ++
      uri_blocks_13 ++ uri_blocks_14 ++ uri_blocks_15 ++ uri_blocks_16 ++ uri_blocks_17 ++ uri_blocks_18
      ++ uri_blocks_19 ++ uri_blocks_20 ++ uri_blocks_21 ++ uri_blocks_22 ++ uri_blocks_23 ++
      uri_blocks_24 ++ uri_blocks_25 ++ uri_blocks_26 ++ uri_blocks_27 ++ uri_blocks_28 ++ uri_blocks_29
      ++ uri_blocks_30 ++ uri_blocks_31 ++ uri_blocks_32 ++ uri_blocks_33 ++ uri_blocks_34 ++
      uri_blocks_35 ++ uri_blocks_36 ++ uri_blocks_37 ++ uri_blocks_38 ++ uri_blocks_39 ++ uri_blocks_40
      ++ uri_blocks_41 ++ uri_blocks_42 ++ uri_blocks_43 ++ uri_blocks_44 ++ uri_blocks_45 ++
      uri_blocks_46 ++ uri_blocks_47 ++ uri_blocks_48 ++ uri_blocks_49 ++ uri_blocks_50 ++ uri_blocks_51
      ++ uri_blocks_52 ++ uri_blocks_53 ++ uri_blocks_54 ++ uri_blocks_55 ++ uri_blocks_56 ++
      uri_blocks_57 ++ uri_blocks_58 ++ uri_blocks_59 ++ uri_blocks_60 ++ uri_blocks_61 ++ uri_blocks_62
      ++ uri_blocks_63 ++ uri_blocks_64 ++ uri_blocks_65 ++ uri_blocks_66 ++ uri_blocks_67 ++
      uri_blocks_68 ++ uri_blocks_69 ++ uri_blocks_70 ++ uri_blocks_71.
