(* ===== verification/Http11Parser.v ===== *)
(** * http_parser (src/wyze/http/http11_parser.h, src/wyze/http/http11_parser.cpp)

    The struct, its actions, and the functions around the machine of Http11Table.  [buffer] is
    the memory the parser is given; pointers into it are its offsets.  The callbacks are the ones
    HttpRequestParser registers, none of which is null; what the machine calls is logged. *)

From S2P Require Import Prelude Http HttpParser Ragel Http11Table.

Record http_parser := mkHttpParser {
  hp_cs : Z; hp_body_start : Z; hp_content_len : Z; hp_nread : Z; hp_mark : Z; hp_field_start : Z;
  hp_field_len : Z; hp_query_start : Z; hp_xml_sent : Z; hp_json_sent : Z; hp_uri_relaxed : Z }.

Definition http_parser_start : Z := 1.
Definition http_parser_first_final : Z := 348.
Definition http_parser_error : Z := 0.

(** [http_parser_init], on the memory [raw]: it sets all but [query_start] and [uri_relaxed]. *)
Definition http_parser_init (raw : http_parser) : http_parser :=
  mkHttpParser http_parser_start 0 0 0 0 0 0 (hp_query_start raw) 0 0 (hp_uri_relaxed raw).

Definition hp_with_cs (s : http_parser) v := mkHttpParser v (hp_body_start s) (hp_content_len s) (hp_nread s)
  (hp_mark s) (hp_field_start s) (hp_field_len s) (hp_query_start s) (hp_xml_sent s) (hp_json_sent s) (hp_uri_relaxed s).
Definition hp_with_body (s : http_parser) b c := mkHttpParser (hp_cs s) b c (hp_nread s)
  (hp_mark s) (hp_field_start s) (hp_field_len s) (hp_query_start s) (hp_xml_sent s) (hp_json_sent s) (hp_uri_relaxed s).
Definition hp_with_nread (s : http_parser) v := mkHttpParser (hp_cs s) (hp_body_start s) (hp_content_len s) v
  (hp_mark s) (hp_field_start s) (hp_field_len s) (hp_query_start s) (hp_xml_sent s) (hp_json_sent s) (hp_uri_relaxed s).
Definition hp_with_mark (s : http_parser) v := mkHttpParser (hp_cs s) (hp_body_start s) (hp_content_len s) (hp_nread s)
  v (hp_field_start s) (hp_field_len s) (hp_query_start s) (hp_xml_sent s) (hp_json_sent s) (hp_uri_relaxed s).
Definition hp_with_field_start (s : http_parser) v := mkHttpParser (hp_cs s) (hp_body_start s) (hp_content_len s)
  (hp_nread s) (hp_mark s) v (hp_field_len s) (hp_query_start s) (hp_xml_sent s) (hp_json_sent s) (hp_uri_relaxed s).
Definition hp_with_field_len (s : http_parser) v := mkHttpParser (hp_cs s) (hp_body_start s) (hp_content_len s)
  (hp_nread s) (hp_mark s) (hp_field_start s) v (hp_query_start s) (hp_xml_sent s) (hp_json_sent s) (hp_uri_relaxed s).
Definition hp_with_query_start (s : http_parser) v := mkHttpParser (hp_cs s) (hp_body_start s) (hp_content_len s)
  (hp_nread s) (hp_mark s) (hp_field_start s) (hp_field_len s) v (hp_xml_sent s) (hp_json_sent s) (hp_uri_relaxed s).
Definition hp_with_sent (s : http_parser) x j := mkHttpParser (hp_cs s) (hp_body_start s) (hp_content_len s)
  (hp_nread s) (hp_mark s) (hp_field_start s) (hp_field_len s) (hp_query_start s) x j (hp_uri_relaxed s).

(** The parser and the calls it has made. *)
Abbreviation PM := (M (http_parser * list call)).

Section act.
Context (buffer : bytes) (pe : Z).

(** [PTR_TO(F)] and [LEN(AT, FPC)] *)
Definition PTR_TO {S} (off : Z) : M S bytes :=
  if off <=? Z.of_nat (length buffer) then ret (drop (Z.to_nat off) buffer) else undef out_of_bounds.
Definition LEN (start p : Z) : Z := u64 (p - start).

(** A callback gets memory of which it reads the first [len] bytes. *)
Definition readable {S} (at_ : bytes) (len : Z) : M S nat :=
  if len <=? Z.of_nat (length at_) then ret (Z.to_nat len) else undef out_of_bounds.
Definition log (c : call) : PM unit := modify (fun s => (fst s, snd s ++ [c])).
Definition element (f : bytes -> nat -> call) (start p : Z) : PM unit :=
  a <- PTR_TO start ;; n <- readable a (LEN start p) ;; log (f a n).

Definition set (f : http_parser -> http_parser) : PM unit := modify (fun s => (f (fst s), snd s)).

Definition http_act (a : http_action) (p : Z) : PM unit :=
  s <- get ;;
  let h := fst s in
  match a with
  | mark | start_value => set (fun h => hp_with_mark h p)
  | start_field => set (fun h => hp_with_field_start h p)
  | write_field => set (fun h => hp_with_field_len h (LEN (hp_field_start h) p))
  | write_value =>
      f <- PTR_TO (hp_field_start h) ;; fl <- readable f (hp_field_len h) ;;
      v <- PTR_TO (hp_mark h) ;; vl <- readable v (LEN (hp_mark h) p) ;;
      log (http_field f fl v vl)
  | act_request_method => element request_method (hp_mark h) p
  | act_request_uri => element request_uri (hp_mark h) p
  | act_fragment => element fragment (hp_mark h) p
  | start_query => set (fun h => hp_with_query_start h p)
  | act_query_string => element query_string (hp_query_start h) p
  | act_http_version => element http_version (hp_mark h) p
  | act_request_path => element request_path (hp_mark h) p
  | done_ =>
      if negb (hp_xml_sent h =? 0) || negb (hp_json_sent h =? 0) then
        set (fun h => hp_with_body h (hp_mark h) (s32 (u64 (p - hp_mark h + 1))))
      else
        set (fun h => hp_with_body h (p + 1) (hp_content_len h)) ;;;
        a <- PTR_TO (p + 1) ;; n <- readable a (pe - p - 1) ;; log (header_done a n)
  | xml => set (fun h => hp_with_sent h 1 (hp_json_sent h))
  | json => set (fun h => hp_with_sent h (hp_xml_sent h) 1)
  end.
End act.

Definition assert_ {S} (b : bool) (what : string) : M S unit :=
  if b then ret tt else throw (assert_failed what).

(** [http_parser_execute(parser, buffer, len, off)] *)
Definition http_parser_execute (buffer : bytes) (len off : Z) : PM Z :=
  if len =? 0 then ret 0 else
  s <- get ;;
  let cs := hp_cs (fst s) in
  assert_ (off <=? len) "offset past end of buffer" ;;;
  assert_ (len - off =? s32 len - s32 off) "pointers aren't same distance" ;;;
  if Z.of_nat (length buffer) <? len then undef out_of_bounds else
  r <- exec (http_blocks (negb (hp_uri_relaxed (fst s) =? 0))) (http_act buffer len) 2 cs off
         (slice (Z.to_nat off) (Z.to_nat (len - off)) buffer) ;;
  let '(cs, p, _) := r in
  assert_ (p <=? len) "Buffer overflow after parsing." ;;;
  set (fun h => if hp_cs h =? http_parser_error then h else hp_with_cs h cs) ;;;
  set (fun h => hp_with_nread h (u64 (hp_nread h + (p - off)))) ;;;
  s <- get ;;
  let h := fst s in
  assert_ (hp_nread h <=? len) "nread longer than length" ;;;
  assert_ (hp_body_start h <=? len) "body starts after buffer end" ;;;
  assert_ (hp_mark h <? len) "mark is after buffer end" ;;;
  assert_ (hp_field_len h <=? len) "field has length longer than whole buffer" ;;;
  assert_ (hp_field_start h <? len) "field starts after buffer end" ;;;
  ret (hp_nread h).

Definition http_parser_has_error (h : http_parser) : bool := hp_cs h =? http_parser_error.
Definition http_parser_is_finished (h : http_parser) : bool := http_parser_first_final <=? hp_cs h.
Definition http_parser_finish (h : http_parser) : Z :=
  if http_parser_has_error h then -1 else if http_parser_is_finished h then 1 else 0.

(** The machine of HttpRequestParser.  A run that fails an assertion does not return; this
    instance leaves the parser as it was then. *)
Definition http_machine_execute (h : http_parser) (buffer : bytes) (len off : Z) : http_parser * Z * list call :=
  match http_parser_execute buffer len off (h, []) with
  | Ok n (h, calls) => (h, n, calls)
  | _ => (h, 0, [])
  end.
Definition http_machine (raw : http_parser) : Machine http_parser := {|
  mc_init := http_parser_init raw; mc_execute := http_machine_execute;
  mc_finish := http_parser_finish; mc_has_error := http_parser_has_error |}.
