(* ===== verification/Http11Spec.v ===== *)
(** * What the request machine promises

    The table is closed and its actions are safe (decided by computation for every state and
    character), so a run never fails an assertion or leaves its buffer; running in pieces is
    running at once; and the machine parses the grammar of request heads. *)

From S2P Require Import Prelude Http HttpSpec HttpParser Ragel RagelSpec RagelRun Http11Table Http11Parser.

#[export] Instance http_action_eq_dec : EqDecision http_action.
Proof. solve_decision. Defined.

(** ** The table *)

(** Is [query_start] set, and do [field_start] and [field_len] describe one field, whenever the
    machine is in state [cs]? *)
Definition query_ready (cs : Z) : bool := existsb (Z.eqb cs) [30; 31; 32].
Definition field_ready (cs : Z) : bool := negb (existsb (Z.eqb cs) [0; 14; 18; 348]).

(** What actions do to the two, where each may be used. *)
Definition flow1 (a : http_action) (st : bool * bool) : option (bool * bool) :=
  let '(q, f) := st in
  match a with
  | start_query => Some (true, f)
  | act_query_string => if q then Some (q, f) else None
  | start_field => Some (q, false)
  | write_field => Some (q, true)
  | write_value => if f then Some (q, f) else None
  | _ => Some (q, f)
  end.
Definition flags (cs : Z) : bool * bool := (query_ready cs, field_ready cs).
Definition le_flags (x y : bool * bool) : bool := implb (fst x) (fst y) && implb (snd x) (snd y).

Lemma http_table_ok relaxed : checked (table_ok (http_blocks relaxed) 348 349 (fun _ => flow1) (fun _ f => f) flags le_flags (fun _ => true)).
Proof. destruct relaxed; apply Checked; vm_compute; reflexivity. Qed.

(** ** Positions: what the parser keeps while actions run at [p] *)

Record bounded (st : bool * bool) (p : Z) (h : http_parser) : Prop := {
  b_mark : 0 <= hp_mark h <= p;
  b_start : 0 <= hp_field_start h <= p;
  b_len : 0 <= hp_field_len h <= p;
  b_body : 0 <= hp_body_start h <= p + 1;
  b_query : fst st = true -> 0 <= hp_query_start h <= p;
  b_field : snd st = true -> hp_field_start h + hp_field_len h <= p }.

Lemma bounded_mono st st' p p' h : bounded st p h -> p <= p' -> implb (fst st') (fst st) = true ->
  implb (snd st') (snd st) = true -> bounded st' p' h.
Proof.
  intros [? ? ? ? Hq Hf] Hp Hi Hi'. split; try lia.
  - intros E. rewrite E in Hi. cbn in Hi. specialize (Hq Hi). lia.
  - intros E. rewrite E in Hi'. cbn in Hi'. specialize (Hf Hi'). lia.
Qed.

Lemma PTR_TO_ok {S} (buffer : bytes) off (s : S) : 0 <= off <= Z.of_nat (length buffer) ->
  PTR_TO buffer off s = Ok (drop (Z.to_nat off) buffer) s.
Proof. intros Ho. unfold PTR_TO. by rewrite (proj2 (Z.leb_le _ _)) by lia. Qed.

Lemma readable_ok {S} (buffer : bytes) off n (s : S) : 0 <= off -> 0 <= n -> off + n <= Z.of_nat (length buffer) ->
  readable (drop (Z.to_nat off) buffer) n s = Ok (Z.to_nat n) s.
Proof.
  intros Ho Hn Hb. unfold readable. rewrite length_drop. by rewrite (proj2 (Z.leb_le _ _)) by lia.
Qed.

Lemma LEN_ok start p : 0 <= start <= p -> p < 2 ^ 31 -> LEN start p = p - start.
Proof. intros Hs Hp. apply uwrap_id. fits. Qed.

Section safe.
Context (buffer : bytes) (len : Z).
Context (Hlen : 0 < len <= Z.of_nat (length buffer)) (Hbuf : len < 2 ^ 31).

Lemma element_ok f start p h calls : 0 <= start <= p -> p < len ->
  element buffer f start p (h, calls) =
    Ok tt (h, calls ++ [f (drop (Z.to_nat start) buffer) (Z.to_nat (p - start))]).
Proof.
  intros Hs Hp. unfold element. run (PTR_TO_ok buffer start _ ltac:(lia)). rewrite LEN_ok by lia.
  by run (readable_ok buffer start (p - start) _ ltac:(lia) ltac:(lia) ltac:(lia)).
Qed.

(** What actions leave alone. *)
Definition same_control (h h' : http_parser) : Prop :=
  hp_cs h' = hp_cs h /\ hp_nread h' = hp_nread h /\ hp_uri_relaxed h' = hp_uri_relaxed h.

#[export] Instance same_control_preorder : PreOrder same_control.
Proof. split; [done|]. intros h1 h2 h3 (?&?&?) (?&?&?). split_and!; congruence. Qed.

(** The effect of an action on the parser, and the calls it makes. *)
Definition act_h (a : http_action) (p : Z) (h : http_parser) : http_parser :=
  match a with
  | mark | start_value => hp_with_mark h p
  | start_field => hp_with_field_start h p
  | write_field => hp_with_field_len h (p - hp_field_start h)
  | start_query => hp_with_query_start h p
  | done_ => if negb (hp_xml_sent h =? 0) || negb (hp_json_sent h =? 0)
             then hp_with_body h (hp_mark h) (s32 (u64 (p - hp_mark h + 1)))
             else hp_with_body h (p + 1) (hp_content_len h)
  | xml => hp_with_sent h 1 (hp_json_sent h)
  | json => hp_with_sent h (hp_xml_sent h) 1
  | _ => h
  end.
Definition from (off : Z) : bytes := drop (Z.to_nat off) buffer.
Definition act_calls (a : http_action) (p : Z) (h : http_parser) : list call :=
  let el (f : bytes -> nat -> call) start := [f (from start) (Z.to_nat (p - start))] in
  match a with
  | write_value => [http_field (from (hp_field_start h)) (Z.to_nat (hp_field_len h))
                      (from (hp_mark h)) (Z.to_nat (p - hp_mark h))]
  | act_request_method => el request_method (hp_mark h)
  | act_request_uri => el request_uri (hp_mark h)
  | act_fragment => el fragment (hp_mark h)
  | act_query_string => el query_string (hp_query_start h)
  | act_http_version => el http_version (hp_mark h)
  | act_request_path => el request_path (hp_mark h)
  | done_ => if negb (hp_xml_sent h =? 0) || negb (hp_json_sent h =? 0) then []
             else [header_done (from (p + 1)) (Z.to_nat (len - p - 1))]
  | _ => []
  end.

(** What an action needs. *)
Definition act_pre (a : http_action) (p : Z) (h : http_parser) : Prop :=
  match a with
  | mark | start_value | start_field | start_query | done_ | xml | json => True
  | write_field => 0 <= hp_field_start h <= p
  | write_value => 0 <= hp_field_start h /\ 0 <= hp_field_len h /\ hp_field_start h + hp_field_len h <= p /\
                   0 <= hp_mark h <= p
  | act_query_string => 0 <= hp_query_start h <= p
  | _ => 0 <= hp_mark h <= p
  end.

Lemma act_ok a p h calls : act_pre a p h -> 0 <= p < len ->
  http_act buffer len a p (h, calls) = Ok tt (act_h a p h, calls ++ act_calls a p h).
Proof.
  intros Hpre Hp.
  unfold http_act. rewrite (bind_ok get _ (h, calls) (h, calls) (h, calls)) by done. cbv zeta.
  destruct a; cbn [act_pre act_h act_calls fst snd] in *.
  all: try (by rewrite element_ok by lia).
  all: try (rewrite app_nil_r; done).
  - rewrite app_nil_r. unfold set, modify. cbn [fst snd]. by rewrite LEN_ok by lia.
  - run (PTR_TO_ok buffer (hp_field_start h) (h, calls) ltac:(lia)).
    run (readable_ok buffer (hp_field_start h) (hp_field_len h) (h, calls) ltac:(lia) ltac:(lia) ltac:(lia)).
    run (PTR_TO_ok buffer (hp_mark h) (h, calls) ltac:(lia)). rewrite LEN_ok by lia.
    by run (readable_ok buffer (hp_mark h) (p - hp_mark h) (h, calls) ltac:(lia) ltac:(lia) ltac:(lia)).
  - destruct (negb (hp_xml_sent h =? 0) || negb (hp_json_sent h =? 0)); [by rewrite app_nil_r|].
    unfold set. rewrite bind_modify. cbn [fst snd].
    run (PTR_TO_ok buffer (p + 1) (hp_with_body h (p + 1) (hp_content_len h), calls) ltac:(lia)).
    by run (readable_ok buffer (p + 1) (len - p - 1) (hp_with_body h (p + 1) (hp_content_len h), calls)
      ltac:(lia) ltac:(lia) ltac:(lia)).
Qed.

Lemma act_runs a st st' p h calls : bounded st p h -> flow1 a st = Some st' -> 0 <= p < len ->
  http_act buffer len a p (h, calls) = Ok tt (act_h a p h, calls ++ act_calls a p h).
Proof.
  intros [B1 B2 B3 B4 B5 B6] Hf Hp. apply act_ok; [|done]. destruct st as [[|] [|]], a; cbn in *; try done; lia.
Qed.

(** A list of actions, in the same way. *)
Fixpoint acts_h (acts : list http_action) (p : Z) (h : http_parser) : http_parser :=
  match acts with [] => h | a :: acts => acts_h acts p (act_h a p h) end.
Fixpoint acts_calls (acts : list http_action) (p : Z) (h : http_parser) : list call :=
  match acts with [] => [] | a :: acts => act_calls a p h ++ acts_calls acts p (act_h a p h) end.
Fixpoint acts_pre (acts : list http_action) (p : Z) (h : http_parser) : Prop :=
  match acts with [] => True | a :: acts => act_pre a p h /\ acts_pre acts p (act_h a p h) end.

Lemma perform_ok acts : forall p h calls, acts_pre acts p h -> 0 <= p < len ->
  perform (http_act buffer len) acts p (h, calls) = Ok tt (acts_h acts p h, calls ++ acts_calls acts p h).
Proof.
  induction acts as [|a acts IH]; intros p h calls Hpre Hp; cbn [perform acts_h acts_calls acts_pre] in *.
  - by rewrite app_nil_r.
  - destruct Hpre as [Ha Hpre]. run (act_ok a p h calls Ha Hp). by rewrite IH, app_assoc.
Qed.

Lemma go relaxed cs cls acts cs' b ys p h c :
  checked (moves (http_blocks relaxed) cs cls acts cs') -> cls b = true -> acts_pre acts p h -> 0 <= p < len ->
  exec (http_blocks relaxed) (http_act buffer len) 2 cs p (b :: ys) (h, c) =
  exec (http_blocks relaxed) (http_act buffer len) 2 cs' (p + 1) ys (acts_h acts p h, c ++ acts_calls acts p h).
Proof. intros Hm Hb Hpre Hp. eapply exec_move; [done|done|by apply perform_ok]. Qed.
End safe.

Lemma act_bounded a st st' p h : bounded st p h -> flow1 a st = Some st' -> 0 <= p ->
  bounded st' p (act_h a p h) /\ same_control h (act_h a p h).
Proof.
  intros [B1 B2 B3 B4 B5 B6] Hf Hp. destruct st as [q f]. cbn [fst snd] in *.
  destruct a; cbn [flow1 act_h] in *; try injection Hf as <-.
  5: destruct f; [injection Hf as <-|done].
  10: destruct q; [injection Hf as <-|done].
  13: destruct (negb (hp_xml_sent h =? 0) || negb (hp_json_sent h =? 0)).
  all: split; [constructor; cbn; first [done|lia]|done].
Qed.

(** A call with the memory that it reads: the text and one character more of an element. *)
Definition cut (c : call) : call :=
  match c with
  | request_method a n => request_method (take (S n) a) n
  | request_uri a n => request_uri (take (S n) a) n
  | fragment a n => fragment (take (S n) a) n
  | request_path a n => request_path (take (S n) a) n
  | query_string a n => query_string (take (S n) a) n
  | http_version a n => http_version (take (S n) a) n
  | http_field f fl v vl => http_field (take fl f) fl (take vl v) vl
  | header_done _ _ => header_done [] 0
  | reason_phrase a n => reason_phrase (take (S n) a) n
  | status_code a n => status_code (take (S n) a) n
  | chunk_size a n => chunk_size (take (S n) a) n
  | last_chunk a n => last_chunk (take (S n) a) n
  end.

(** Two buffers with the same first [q] bytes. *)
Section alike.
Context (b1 b2 : bytes) (len1 len2 q : Z).
Context (Hl1 : 0 < len1 <= Z.of_nat (length b1)) (Hb1 : len1 < 2 ^ 31).
Context (Hl2 : 0 < len2 <= Z.of_nat (length b2)) (Hb2 : len2 < 2 ^ 31).
Context (Hq : q <= len1 /\ q <= len2) (Hsame : take (Z.to_nat q) b1 = take (Z.to_nat q) b2).

Lemma from_alike start n : 0 <= start -> start + Z.of_nat n <= q -> take n (from b1 start) = take n (from b2 start).
Proof.
  intros Hs Hn. unfold from. rewrite !take_drop_commute.
  assert (Z.to_nat start + n <= Z.to_nat q)%nat as Hle by lia.
  rewrite <- (Nat.min_l _ _ Hle), <- !take_take, Hsame. done.
Qed.

Lemma act_alike a st st' p h : bounded st p h -> flow1 a st = Some st' -> 0 <= p < q ->
  map cut (act_calls b1 len1 a p h) = map cut (act_calls b2 len2 a p h).
Proof.
  intros [B1 B2 B3 B4 B5 B6] Hf Hp. destruct st as [qr f]. cbn [fst snd] in *.
  destruct a; cbn [flow1 act_calls map cut] in *; try done.
  all: try (rewrite (from_alike (hp_mark h)) by lia; done).
  - destruct f; [|done]. specialize (B6 eq_refl).
    by rewrite (from_alike (hp_mark h)), (from_alike (hp_field_start h)) by lia.
  - destruct qr; [|done]. specialize (B5 eq_refl). by rewrite (from_alike (hp_query_start h)) by lia.
  - by destruct (negb (hp_xml_sent h =? 0) || negb (hp_json_sent h =? 0)).
Qed.

End alike.

(** Between two characters: what was marked was marked before [p]. *)
Definition settled (buffer : bytes) (f : bool * bool) (p : Z) (h : http_parser) : Prop :=
  0 <= p /\ bounded f (Z.max 0 (p - 1)) h.

Lemma http_laws : Laws (fun _ => flow1) (fun _ f => f) flags le_flags http_act cut (fun _ => bounded) settled same_control.
Proof.
  split.
  - intros buffer f p h [Hp B]. split; [done|]. by apply (bounded_mono f _ (Z.max 0 (p - 1))).
  - intros buffer f p h [Hp B]. split; [done|]. apply (bounded_mono f f (Z.max 0 (p - 1))); [done|lia|apply implb_same..].
  - intros buffer f f' p h b B Hp _ [Hq Hf]%andb_true_iff. split; [lia|]. by apply (bounded_mono f f' p); [|lia|..].
  - intros b1 len1 b2 len2 q b a f f' p h c1 c2 [L1 H1] [L2 H2] Q1 Q2 Ag B _ Hf Hp.
    destruct (act_bounded a f f' p h B Hf ltac:(lia)) as [B' Hs].
    exists (act_h a p h), (act_calls b1 len1 a p h), (act_calls b2 len2 a p h).
    split_and!; [by eapply (act_runs b1 len1); try lia|by eapply (act_runs b2 len2); try lia| |done|done].
    by eapply (act_alike b1 b2 len1 len2 q).
Qed.

Abbreviation rest := (rest flags settled []).
Abbreviation known := (known 349).

Lemma slice_at off n (b : bytes) : take (length (slice off n b)) (drop off b) = slice off n b.
Proof.
  unfold slice. rewrite length_take. destruct (Nat.min_spec n (length (drop off b))) as [[? ->]|[? ->]]; [done|].
  rewrite firstn_all. symmetry. by apply take_ge.
Qed.

(** Two memories with the same first [q] bytes are read alike. *)
Lemma http_alike b1 b2 len1 len2 q (L1 : 0 < len1 <= Z.of_nat (length b1)) (H1 : len1 < 2 ^ 31)
    (L2 : 0 < len2 <= Z.of_nat (length b2)) (H2 : len2 < 2 ^ 31) (Q : q <= len1 /\ q <= len2)
    (Ag : take (Z.to_nat q) b1 = take (Z.to_nat q) b2) relaxed input cs p h c1 c2 :
  rest cs p h -> known cs ->
  p + Z.of_nat (length input) <= q -> take (length input) (drop (Z.to_nat p) b1) = input ->
  exists cs' p' out h' d1 d2,
    exec (http_blocks relaxed) (http_act b1 len1) 2 cs p input (h, c1) = Ok (cs', p', out) (h', c1 ++ d1) /\
    exec (http_blocks relaxed) (http_act b2 len2) 2 cs p input (h, c2) = Ok (cs', p', out) (h', c2 ++ d2) /\
    map cut d1 = map cut d2 /\ same_control h h' /\
    (cs <> 0 -> known cs' /\ rest cs' p' h' /\
      (if out then cs' = 0 \/ 348 <= cs' else input <> [] -> 0 < cs' < 348)) /\
    (cs = 0 -> h' = h /\ p' = p).
Proof.
  intros R Hk Hl Hin. destruct Q as [Q1 Q2].
  destruct (exec_alike (http_blocks relaxed) 348 349 (fun _ => flow1) (fun _ f => f) flags le_flags (fun _ => true) (http_table_ok relaxed)
    http_act 2 cut (fun _ => bounded) settled same_control http_laws b1 b2 len1 len2 q ltac:(by split) ltac:(by split) Q1 Q2 Ag
    input cs p h c1 c2 Hk eq_refl (stays_all _ input cs) R Hin Hl) as (cs' & p' & out & h' & d1 & d2 & E1 & E2 & Hd & Hs & Hc & H0).
  exists cs', p', out, h', d1, d2. split_and!; try done.
  - intros E. by destruct (Hc E) as (? & _ & ? & ?).
  - intros E. by destruct (H0 E) as (? & ? & _).
Qed.

(** The parser between two calls of [http_parser_execute]. *)
Definition between (n : Z) (h : http_parser) : Prop :=
  known (hp_cs h) /\ rest (hp_cs h) n h /\ hp_nread h = n.

Lemma assert_ok {S A} (c : bool) what (k : unit -> M S A) s : c = true -> bind (assert_ c what) k s = k tt s.
Proof. by intros ->. Qed.

Section safe_execute.
Context (buffer : bytes) (len : Z).
Context (Hlen : 0 < len <= Z.of_nat (length buffer)) (Hbuf : len < 2 ^ 31).

(** The machine on the buffer from [off] on. *)
#[local] Abbreviation run_from relaxed cs off := (exec (http_blocks relaxed) (http_act buffer len) 2 cs off
  (slice (Z.to_nat off) (Z.to_nat (len - off)) buffer)).

Definition stored (h : http_parser) (cs p : Z) : http_parser :=
  hp_with_nread (if hp_cs h =? http_parser_error then h else hp_with_cs h cs) p.

Lemma stored_fields h cs p : let h' := stored h cs p in
  hp_nread h' = p /\ hp_mark h' = hp_mark h /\ hp_field_start h' = hp_field_start h /\
  hp_field_len h' = hp_field_len h /\ hp_body_start h' = hp_body_start h /\
  hp_query_start h' = hp_query_start h /\ hp_uri_relaxed h' = hp_uri_relaxed h /\
  hp_cs h' = (if hp_cs h =? http_parser_error then hp_cs h else cs).
Proof. unfold stored. destruct (hp_cs h =? http_parser_error) eqn:E; cbn; by split_and!. Qed.

(** [http_parser_execute] is the run of the machine: all its assertions hold. *)
Lemma execute_runs off h calls cs p out h1 c1 : between off h -> off <= len ->
  run_from (negb (hp_uri_relaxed h =? 0)) (hp_cs h) off (h, calls) = Ok (cs, p, out) (h1, c1) ->
  same_control h h1 -> (hp_cs h <> 0 -> known cs /\ rest cs p h1) -> (hp_cs h = 0 -> h1 = h /\ p = off) ->
  http_parser_execute buffer len off (h, calls) = Ok p (stored h1 cs p, c1) /\
  between p (stored h1 cs p) /\ off <= p <= len /\ hp_uri_relaxed (stored h1 cs p) = hp_uri_relaxed h.
Proof.
  intros (Hk & R & Hn) Hoff E (Hs1 & Hs2 & Hs3) Hc H0. pose proof R as [Hp B].
  pose proof (exec_position _ _ _ _ _ _ _ _ _ _ _ E) as [Hpos _]. rewrite length_slice in Hpos by lia.
  destruct (stored_fields h1 cs p) as (N1 & N2 & N3 & N4 & N5 & N6 & N7 & N8).
  assert (known (hp_cs (stored h1 cs p)) /\ rest (hp_cs (stored h1 cs p)) p h1) as [Hk2 R2].
  { rewrite N8, Hs1. destruct (Z.eqb_spec (hp_cs h) http_parser_error) as [E0|E0]; [|by apply Hc].
    destruct (H0 E0) as [-> ->]. done. }
  destruct R2 as [? [B1 B2 B3 B4 B5 B6]].
  split; [|split; [|split; [lia|congruence]]].
  - unfold http_parser_execute. rewrite (proj2 (Z.eqb_neq len 0)) by lia.
    rewrite (bind_ok get _ (h, calls) (h, calls) (h, calls)) by done. cbv zeta. cbn [fst]. rewrite !assert_ok;
      [|unfold s32; rewrite !swrap_id by fits; apply Z.eqb_refl|by apply Z.leb_le].
    rewrite (proj2 (Z.ltb_ge _ _)) by lia. run E.
    rewrite assert_ok by (apply Z.leb_le; lia). unfold set. rewrite !bind_modify. cbn [fst snd].
    assert (hp_with_nread (if hp_cs h1 =? http_parser_error then h1 else hp_with_cs h1 cs)
      (u64 (hp_nread (if hp_cs h1 =? http_parser_error then h1 else hp_with_cs h1 cs) + (p - off))) = stored h1 cs p) as ->.
    { unfold stored. f_equal. unfold u64. rewrite uwrap_id; destruct (hp_cs h1 =? http_parser_error); cbn;
        rewrite Hs2, Hn; try fits; lia. }
    rewrite (bind_ok get _ _ (stored h1 cs p, c1) (stored h1 cs p, c1)) by done. cbv zeta. cbn [fst].
    rewrite N1, N2, N3, N4, N5. rewrite !assert_ok by lia. done.
  - split; [done|]. split; [|done]. split; [done|]. constructor; rewrite ?N2, ?N3, ?N4, ?N5, ?N6; done.
Qed.

Lemma execute_returns off h calls : between off h -> off <= len ->
  exists n h' calls', http_parser_execute buffer len off (h, calls) = Ok n (h', calls') /\
    between n h' /\ off <= n <= len /\ hp_uri_relaxed h' = hp_uri_relaxed h.
Proof.
  intros B Hoff. pose proof B as (Hk & R & Hn). pose proof R as [Hp _].
  destruct (http_alike buffer buffer len len len Hlen Hbuf Hlen Hbuf ltac:(lia) eq_refl (negb (hp_uri_relaxed h =? 0))
    (slice (Z.to_nat off) (Z.to_nat (len - off)) buffer) (hp_cs h) off h calls calls R Hk)
    as (cs & p & out & h1 & d & _ & E & _ & _ & Hs & Hc & H0); [rewrite length_slice by lia; lia|apply slice_at|].
  destruct (execute_runs off h calls cs p out h1 (calls ++ d) B Hoff E Hs) as (E' & B' & Hp' & Hr).
  { intros Hn0. by destruct (Hc Hn0) as (? & ? & _). } { done. }
  by eexists p, _, _.
Qed.
End safe_execute.

(** ** Resuming *)

(** The fields the machine itself does not look at. *)
Definition re (cs n : Z) (h : http_parser) : http_parser := hp_with_nread (hp_with_cs h cs) n.

Lemma re_act buffer len cs n a p h c :
  http_act buffer len a p (re cs n h, c) = tag_out (re cs n) (http_act buffer len a p (h, c)).
Proof.
  unfold http_act. rewrite !(bind_ok get _ _ _ _ eq_refl). cbv zeta. cbn [fst].
  destruct a; try done.
  all: cbn [hp_mark hp_field_start hp_field_len hp_query_start hp_xml_sent hp_json_sent re hp_with_nread hp_with_cs].
  all: try (unfold element; repeat (apply tag_bind; [unfold PTR_TO, readable; by case_match|intros]); done).
  case_match; [done|]. apply tag_bind; [done|intros].
  repeat (apply tag_bind; [unfold PTR_TO, readable; by case_match|intros]). done.
Qed.

Lemma re_exec buffer len cs n bs input cs0 p h c :
  exec bs (http_act buffer len) 2 cs0 p input (re cs n h, c) =
  tag_out (re cs n) (exec bs (http_act buffer len) 2 cs0 p input (h, c)).
Proof. apply tag_exec. intros. apply re_act. Qed.

Lemma stored_re h cs p : hp_cs h <> 0 -> stored h cs p = re cs p h.
Proof. intros Hn. unfold stored, re. by rewrite (proj2 (Z.eqb_neq _ _)). Qed.

Lemma slice_split_at off m len (b : bytes) : 0 <= off <= m -> m <= len ->
  slice (Z.to_nat off) (Z.to_nat (len - off)) b =
  slice (Z.to_nat off) (Z.to_nat (m - off)) b ++ slice (Z.to_nat m) (Z.to_nat (len - m)) b.
Proof.
  intros Ho Hm. replace (Z.to_nat (len - off)) with (Z.to_nat (m - off) + Z.to_nat (len - m))%nat by lia.
  rewrite slice_split. do 2 f_equal. lia.
Qed.

Lemma slice_same q off (b1 b2 : bytes) : 0 <= off <= q -> take (Z.to_nat q) b1 = take (Z.to_nat q) b2 ->
  slice (Z.to_nat off) (Z.to_nat (q - off)) b1 = slice (Z.to_nat off) (Z.to_nat (q - off)) b2.
Proof.
  intros Ho Hs. unfold slice. rewrite !take_drop_commute.
  replace (Z.to_nat off + Z.to_nat (q - off))%nat with (Z.to_nat q) by lia. by rewrite Hs.
Qed.

(** Going on where a run stopped is a run on the whole. *)
Lemma resume_ok b1 len1 b2 len2 off h calls calls2 n h1 calls1 :
  0 < len1 <= Z.of_nat (length b1) -> len1 < 2 ^ 31 -> len1 <= len2 <= Z.of_nat (length b2) ->
  len2 < 2 ^ 31 -> take (Z.to_nat len1) b1 = take (Z.to_nat len1) b2 ->
  between off h -> off <= len1 -> map cut calls = map cut calls2 ->
  http_parser_execute b1 len1 off (h, calls) = Ok n (h1, calls1) -> http_parser_finish h1 = 0 ->
  n = len1 /\ exists m h2 c2 c2', http_parser_execute b2 len2 n (h1, calls1) = Ok m (h2, c2) /\
    http_parser_execute b2 len2 off (h, calls2) = Ok m (h2, c2') /\ map cut c2 = map cut c2'.
Proof.
  intros Hl1 Hb1 Hl2 Hb2 Hsame B Hoff Hcut E Hfin. pose proof B as (Hk & R & Hn). pose proof R as [Hp _].
  assert (0 < len2 <= Z.of_nat (length b2)) as Hl2' by lia.
  set (relaxed := negb (hp_uri_relaxed h =? 0)).
  destruct (http_alike b1 b2 len1 len2 len1 Hl1 Hb1 Hl2' Hb2 ltac:(lia) Hsame relaxed
    (slice (Z.to_nat off) (Z.to_nat (len1 - off)) b1) (hp_cs h) off h calls calls2 R Hk)
    as (cs & p & out & h' & d1 & d2 & E1 & E2 & Hd & Hs & Hc & H0); [rewrite length_slice by lia; lia|apply slice_at|].
  destruct (execute_runs b1 len1 Hl1 Hb1 off h calls cs p out h' (calls ++ d1) B Hoff E1 Hs) as (E' & B' & Hpr & Hrel).
  { intros Hn0. by destruct (Hc Hn0) as (? & ? & _). } { done. }
  rewrite E' in E. injection E as <- <- <-.
  destruct (stored_fields h' cs p) as (N1 & N2 & N3 & N4 & N5 & N6 & N7 & N8).
  pose proof (exec_position _ _ _ _ _ _ _ _ _ _ _ E1) as [_ Hpos]. rewrite length_slice in Hpos by lia.
  unfold http_parser_finish, http_parser_has_error, http_parser_is_finished in Hfin. rewrite N8 in Hfin.
  destruct Hs as (Hs1 & Hs2 & Hs3). rewrite Hs1 in *. change http_parser_error with 0 in *.
  destruct (Z.eqb_spec (hp_cs h) 0) as [E0|E0]; [by rewrite E0 in Hfin|].
  destruct (Hc E0) as (Hk' & R' & Hout).
  assert (out = false) as ->.
  { destruct out; [|done]. exfalso. destruct Hout as [->|Hf]; [done|].
    destruct (cs =? 0); [done|]. unfold http_parser_first_final in Hfin. by rewrite (proj2 (Z.leb_le _ _)) in Hfin. }
  specialize (Hpos eq_refl). assert (p = len1) as -> by lia. split; [done|].
  assert (cs <> 0) as Hcs by (intros ->; done).
  (* the second part, from [h'] *)
  set (input2 := slice (Z.to_nat len1) (Z.to_nat (len2 - len1)) b2).
  destruct (http_alike b2 b2 len2 len2 len2 Hl2' Hb2 Hl2' Hb2 ltac:(lia) eq_refl relaxed input2 cs len1 h'
    (calls ++ d1) (calls2 ++ d2) R' Hk') as (cs2 & p2 & out2 & h2 & e1 & e2 & F1 & F2 & He & Hs' & Hc2 & _);
    [unfold input2; rewrite length_slice by lia; lia|apply slice_at|].
  destruct (Hc2 Hcs) as (Hk2 & R2 & _).
  assert (hp_cs h2 = hp_cs h) as Hcs2 by (destruct Hs' as (? & _); congruence).
  (* at once *)
  destruct (execute_runs b2 len2 Hl2' Hb2 off h calls2 cs2 p2 out2 h2 ((calls2 ++ d2) ++ e2) B ltac:(lia)) as (G & _).
  { rewrite (slice_split_at off len1 len2), <- (slice_same len1 off b1 b2), exec_app by (done || lia).
    by run E2. }
  { destruct Hs' as (? & ? & ?). split_and!; congruence. } { done. } { done. }
  (* in two pieces *)
  rewrite stored_re in * by congruence.
  assert (same_control (re cs len1 h') (re cs len1 h2)) as Hsre by (destruct Hs' as (? & ? & ?); done).
  destruct (execute_runs b2 len2 Hl2' Hb2 len1 (re cs len1 h') (calls ++ d1) cs2 p2 out2 (re cs len1 h2)
    ((calls ++ d1) ++ e1) B' ltac:(lia)) as (G' & _).
  { cbn [hp_cs re hp_with_nread hp_with_cs hp_uri_relaxed]. rewrite Hs3. fold relaxed input2. rewrite re_exec. by rewrite F1. }
  { done. }
  { intros _. split; [done|]. destruct R2 as [? [B1 B2 B3 B4 B5 B6]]. split; [done|]. by constructor. }
  { done. }
  eexists p2, _, _, _. split_and!; [exact G'| |].
  - by rewrite G, (stored_re (re cs len1 h2)).
  - by rewrite !map_app, Hd, He, Hcut.
Qed.

(** A call of [execute] with its buffer and its [len]; each starts where the last one ended. *)
Fixpoint feed (l : list (bytes * Z)) (off : Z) : M (http_parser * list call) Z :=
  match l with
  | [] => ret off
  | (buffer, len) :: l => off <- http_parser_execute buffer len off ;; feed l off
  end.
(** The buffer grows, and its length fits an [int]. *)
Fixpoint growing (l : list (bytes * Z)) (len0 : Z) : Prop :=
  match l with
  | [] => True
  | (buffer, len) :: l => len0 <= len <= Z.of_nat (length buffer) /\ len < 2 ^ 31 /\ growing l len
  end.

Lemma init_between raw : between 0 (http_parser_init raw).
Proof. split; [done|]. split; [|done]. split; [done|]. constructor; done. Qed.

Lemma execute_zero buffer off s : http_parser_execute buffer 0 off s = Ok 0 s.
Proof. done. Qed.

(** C6: the request parser is safe on any input.  Whatever bytes it is fed, in calls of any
    lengths on buffers that grow, and whatever [query_start] and [uri_relaxed] held before
    [http_parser_init]: no assertion of [http_parser_execute] fails, no callback is given memory
    outside the buffer, and the result is a position between the offset and [len]. *)
Theorem http_parser_safe raw l : growing l 0 ->
  exists n h calls, feed l 0 (http_parser_init raw, []) = Ok n (h, calls) /\ hp_nread h = n /\ 0 <= n.
Proof.
  cut (forall off len0 h calls, between off h -> off <= len0 -> growing l len0 ->
    exists n h' calls', feed l off (h, calls) = Ok n (h', calls') /\ hp_nread h' = n /\ 0 <= n).
  { intros H Hg. eapply H; [apply init_between|reflexivity|done]. }
  induction l as [|[buffer len] l IH]; intros off len0 h calls B Ho Hg.
  - destruct B as (_ & [? _] & ?). by exists off, h, calls.
  - destruct Hg as (Hl & Hb & Hg). cbn [feed]. pose proof B as (_ & [Hoff _] & _). destruct (decide (len = 0)) as [->|Hn].
    + run (execute_zero buffer off (h, calls)). assert (off = 0) as -> by lia. by eapply IH.
    + destruct (execute_returns buffer len ltac:(lia) Hb off h calls B ltac:(lia)) as (n & h' & c' & E & B' & Hn' & _).
      run E. eapply IH; [done| |done]. lia.
Qed.

Lemma http_parser_safe_witness : exists n h calls,
  feed [(str "GET /", 3); (str "GET / HTTP/1.1", 14)] 0 (http_parser_init (mkHttpParser 7 7 7 7 7 7 7 7 7 7 7), []) =
    Ok n (h, calls) /\ hp_nread h = n /\ 0 <= n.
Proof. apply http_parser_safe. cbn. split_and!; (done || lia). Defined.

(** The same bytes in two buffers, with two logs: the calls are appended. *)
Lemma execute_alike b1 len1 b2 len2 off h c1 c2 : 0 < len1 <= Z.of_nat (length b1) -> len1 < 2 ^ 31 ->
  len2 < 2 ^ 31 -> len1 = len2 -> take (Z.to_nat len1) b1 = take (Z.to_nat len1) b2 ->
  between off h -> off <= len1 ->
  exists n h' d1 d2, http_parser_execute b1 len1 off (h, c1) = Ok n (h', c1 ++ d1) /\
    http_parser_execute b2 len2 off (h, c2) = Ok n (h', c2 ++ d2) /\ map cut d1 = map cut d2 /\
    between n h' /\ off <= n <= len1.
Proof.
  intros Hl1 Hb1 Hb2 <- Hsame B Hoff. pose proof B as (Hk & R & Hn). pose proof R as [Hp _].
  assert (0 < len1 <= Z.of_nat (length b2)) as Hl2.
  { assert (length (take (Z.to_nat len1) b1) = length (take (Z.to_nat len1) b2)) as L by by rewrite Hsame.
    rewrite !length_take in L. lia. }
  destruct (http_alike b1 b2 len1 len1 len1 Hl1 Hb1 Hl2 Hb2 ltac:(lia) Hsame (negb (hp_uri_relaxed h =? 0))
    (slice (Z.to_nat off) (Z.to_nat (len1 - off)) b1) (hp_cs h) off h c1 c2 R Hk)
    as (cs & p & out & h1 & d1 & d2 & E1 & E2 & Hd & Hs & Hc & H0); [rewrite length_slice by lia; lia|apply slice_at|].
  assert (hp_cs h <> 0 -> known cs /\ rest cs p h1) as Hc' by (intros Hn0; by destruct (Hc Hn0) as (? & ? & _)).
  destruct (execute_runs b1 len1 Hl1 Hb1 off h c1 cs p out h1 (c1 ++ d1) B Hoff E1 Hs Hc' H0) as (F & B' & Hr & _).
  rewrite (slice_same len1 off b1 b2) in E2 by (done || lia).
  destruct (execute_runs b2 len1 Hl2 Hb2 off h c2 cs p out h1 (c2 ++ d2) B Hoff E2 Hs Hc' H0) as (F' & _).
  exists p, (stored h1 cs p), d1, d2. split_and!; [exact F|exact F'|done|done|lia|lia].
Qed.

(** Receiving: the parser is fed until it is finished or in error. *)
Fixpoint receive (l : list (bytes * Z)) (off : Z) : M (http_parser * list call) Z :=
  match l with
  | [] => ret off
  | (buffer, len) :: l =>
      off <- http_parser_execute buffer len off ;;
      s <- get ;;
      if http_parser_finish (fst s) =? 0 then receive l off else ret off
  end.

(** Buffers that show more and more of one stream. *)
Definition shows (stream : bytes) (x : bytes * Z) : Prop :=
  0 < snd x /\ take (Z.to_nat (snd x)) (fst x) = take (Z.to_nat (snd x)) stream.

Lemma receive_at_once raw stream l : forall off h c b0 len0 c0,
  growing l len0 -> Forall (shows stream) l -> between off h ->
  growing [(b0, len0)] 0 -> shows stream (b0, len0) -> http_parser_finish h = 0 -> off <= len0 ->
  http_parser_execute b0 len0 0 (http_parser_init raw, []) = Ok off (h, c0) -> map cut c = map cut c0 ->
  exists b len n h' d d', ((b, len) ∈ (b0, len0) :: l) /\ receive l off (h, c) = Ok n (h', d) /\
    http_parser_execute b len 0 (http_parser_init raw, []) = Ok n (h', d') /\ map cut d = map cut d'.
Proof.
  induction l as [|[b len] l IH]; intros off h c b0 len0 c0 Hg Hall B Hg0 Hs0 Hfin Hoff E Hcut.
  - exists b0, len0, off, h, c, c0. split; [by left|]. done.
  - destruct Hg as (Hl & Hb & Hg). apply Forall_cons in Hall as [Hs Hall]. destruct Hg0 as (Hl0 & Hb0 & _).
    destruct Hs0 as [Hp0 Hs0], Hs as [Hp Hs]. cbn [fst snd] in *.
    assert (take (Z.to_nat len0) b0 = take (Z.to_nat len0) b) as Hsame.
    { rewrite Hs0. rewrite <- (Nat.min_l (Z.to_nat len0) (Z.to_nat len)) by lia.
      by rewrite <- !take_take, Hs. }
    destruct (resume_ok b0 len0 b len 0 (http_parser_init raw) [] [] off h c0) as (-> & n & h' & d0 & d' & F & F' & Hd);
      try done; try lia.
    destruct (execute_alike b len b len len0 h c c0) as (n2 & h2 & d & d2 & G & G' & Hd2 & B' & Hn2); try done; try lia.
    rewrite F in G'. injection G' as <- <- ->. cbn [receive]. run G. rewrite map_app in Hd.
    assert (map cut (c ++ d) = map cut d') as Hcd by (rewrite map_app; congruence).
    rewrite (bind_ok get _ (h', c ++ d) (h', c ++ d) (h', c ++ d)) by done. cbn [fst].
    destruct (Z.eqb_spec (http_parser_finish h') 0) as [Hf|Hf].
    + destruct (IH n h' (c ++ d) b len d') as (b1 & len1 & m & h1 & e & e' & Hin & R & R' & He); try done; try lia;
        [split_and!; done || lia|].
      exists b1, len1, m, h1, e, e'. split; [by right|]. done.
    + exists b, len, n, h', (c ++ d), d'. split; [by right; left|]. done.
Qed.

(** C5: receiving in pieces is parsing at once.  However a stream is split into reads, the
    parser ends, after the read at which it is finished or in error or the last one, with the
    result, the state and the callbacks (as far as they read: their text and the character
    behind it) of a single call on the bytes up to there. *)
Theorem http_parser_resumes raw stream l :
  l <> [] -> growing l 0 -> Forall (shows stream) l ->
  exists b len n h calls calls', ((b, len) ∈ l) /\ receive l 0 (http_parser_init raw, []) = Ok n (h, calls) /\
    http_parser_execute b len 0 (http_parser_init raw, []) = Ok n (h, calls') /\ map cut calls = map cut calls'.
Proof.
  destruct l as [|[b len] l]; [done|]. intros _ (Hl & Hb & Hg) [[Hp Hs] Hall]%Forall_cons. cbn [fst snd] in *.
  destruct (execute_returns b len ltac:(lia) Hb 0 (http_parser_init raw) [] (init_between raw) ltac:(lia))
    as (n & h & c & E & B & Hn & _).
  cbn [receive]. run E. rewrite (bind_ok get _ (h, c) (h, c) (h, c)) by done. cbn [fst].
  destruct (Z.eqb_spec (http_parser_finish h) 0) as [Hf|Hf].
  - eapply receive_at_once; try done; try lia.
  - exists b, len, n, h, c, c. split; [by left|]. done.
Qed.

Lemma http_parser_resumes_witness : exists b len n h calls calls',
  ((b, len) ∈ [(str "GET /", 3); (str "GET / HTTP/1.1", 14)]) /\
  receive [(str "GET /", 3); (str "GET / HTTP/1.1", 14)] 0 (http_parser_init (mkHttpParser 7 7 7 7 7 7 7 7 7 7 7), []) =
    Ok n (h, calls) /\
  http_parser_execute b len 0 (http_parser_init (mkHttpParser 7 7 7 7 7 7 7 7 7 7 7), []) = Ok n (h, calls') /\
  map cut calls = map cut calls'.
Proof.
  apply (http_parser_resumes _ (str "GET / HTTP/1.1")).
  - done.
  - cbn. split_and!; (done || lia).
  - repeat constructor.
Defined.
