(* ===== verification/Http11Head.v ===== *)
(** * The heads of requests, and what the machine of Http11Table makes of them

    [head_text] prints a request line and header fields; the machine reads it, calls the
    callbacks with its parts, and stops right behind it. *)

From S2P Require Import Prelude Containers Http HttpSpec HttpParser Ragel RagelSpec RagelRun Http11Table Http11Parser Http11Spec.

(** ** Classes of characters *)

Definition code (b : byte) : Z := byte.unsigned b.
Definition between_z (lo hi : Z) (b : byte) : bool := (lo <=? code b) && (code b <=? hi).
Definition is_digit := between_z 48 57.
Definition is_upper := between_z 65 90.
Definition is_alpha (b : byte) : bool := is_upper b || between_z 97 122 b.
Definition is_xdigit (b : byte) : bool := is_digit b || between_z 65 70 b || between_z 97 102 b.
Definition one_of (s : string) (b : byte) : bool := existsb (fun c => bool_decide (c = b)) (str s).

(** RFC 3986: [pchar] without escapes *)
Definition pchar (b : byte) : bool := is_alpha b || is_digit b || one_of "-._~!$&'()*+,;=:@" b.
Definition path_char (b : byte) : bool := pchar b || one_of "/" b.
Definition query_char (b : byte) : bool := pchar b || one_of "/?" b.
(** RFC 7230: [token]; names go on with control characters too, line ends among them, since
    [HTTP_CTL] of the grammar, written [0 - 31], is not the range it means; values *)
Definition token_char (b : byte) : bool := is_alpha b || is_digit b || one_of "!#$%&'*+-.^_`|~" b.
Definition name_char (b : byte) : bool := token_char b || ((1 <=? code b) && (code b <=? 31) && negb (code b =? 9)).
Definition value_char (b : byte) : bool := ((32 <=? code b) && negb (code b =? 127)) || (code b =? 9).
Definition blank (b : byte) : bool := one_of " " b || (code b =? 9).
Definition method_char (b : byte) : bool := is_upper b || is_digit b.

(** A text of [cls] and escapes [%XX]. *)
Inductive uri_text (cls : byte -> bool) : bytes -> Prop :=
  | ut_nil : uri_text cls []
  | ut_char b s : cls b = true -> uri_text cls s -> uri_text cls (b :: s)
  | ut_escape x y s : is_xdigit x = true -> is_xdigit y = true -> uri_text cls s ->
      uri_text cls (Byte.x25 :: x :: y :: s).

Fixpoint uri_textb (cls : byte -> bool) (fuel : nat) (s : bytes) : bool :=
  match fuel, s with
  | _, [] => true
  | O, _ => false
  | S fuel, b :: t =>
      (cls b && uri_textb cls fuel t) ||
      match b, t with
      | Byte.x25, x :: y :: u => is_xdigit x && is_xdigit y && uri_textb cls fuel u
      | _, _ => false
      end
  end.
Lemma uri_textb_ok cls fuel : forall s, uri_textb cls fuel s = true -> uri_text cls s.
Proof.
  induction fuel as [|fuel IH]; intros [|b t] H; try done; try apply ut_nil. cbn [uri_textb] in H.
  apply orb_true_iff in H as [[Hb Ht]%andb_true_iff|H]; [constructor; auto|].
  destruct b; try done. destruct t as [|x [|y u]]; try done.
  apply andb_true_iff in H as [[Hx Hy]%andb_true_iff Hu]. apply ut_escape; auto.
Qed.

(** ** Heads *)

Record head := mkHead {
  hd_method : HttpMethod;
  hd_path : bytes;                              (* behind the first slash *)
  hd_query : option bytes;
  hd_fragment : option bytes;
  hd_minor : bool;                              (* HTTP/1.1 or HTTP/1.0 *)
  hd_fields : list (bytes * bytes * bytes) }.   (* name, blanks, value *)

Definition hd_version (h : head) : bytes := if hd_minor h then str "HTTP/1.1" else str "HTTP/1.0".
Definition field_text (f : bytes * bytes * bytes) : bytes :=
  let '(name, sp, value) := f in name ++ str ":" ++ sp ++ value ++ CRLF.
Definition opt_text (c : string) (o : option bytes) : bytes :=
  match o with Some s => str c ++ s | None => [] end.
Definition head_text (h : head) : bytes :=
  HttpMethodToString (hd_method h) ++ str " " ++ (str "/" ++ hd_path h) ++ opt_text "?" (hd_query h) ++
  opt_text "#" (hd_fragment h) ++ str " " ++ hd_version h ++ CRLF ++
  concat (map field_text (hd_fields h)) ++ CRLF.

Definition field_ok (f : bytes * bytes * bytes) : Prop :=
  let '(name, sp, value) := f in
  match name with b :: s => token_char b = true /\ all_in name_char s | [] => False end /\ all_in blank sp /\ all_in value_char value /\
  match value with b :: _ => blank b = false | [] => True end.
Definition head_ok (h : head) : Prop :=
  hd_method h <> INVALID_METHOD /\ hd_method h <> MSEARCH /\
  uri_text path_char (hd_path h) /\ match hd_path h with b :: _ => one_of "/" b = false | [] => True end /\
  match hd_query h with Some q => uri_text query_char q | None => True end /\
  match hd_fragment h with Some f => uri_text query_char f | None => True end /\
  Forall field_ok (hd_fields h).

(** The calls the machine owes the parser, with the text each is about; a status is told with
    the character that ends it. *)
Definition told (c : call) : call :=
  match c with
  | request_method a n => request_method (take n a) n
  | request_uri a n => request_uri (take n a) n
  | fragment a n => fragment (take n a) n
  | request_path a n => request_path (take n a) n
  | query_string a n => query_string (take n a) n
  | http_version a n => http_version (take n a) n
  | http_field f fl v vl => http_field (take fl f) fl (take vl v) vl
  | header_done _ _ => header_done [] 0
  | reason_phrase a n => reason_phrase (take n a) n
  | status_code a n => status_code (take (S n) a) n
  | chunk_size a n => chunk_size (take n a) n
  | last_chunk a n => last_chunk (take n a) n
  end.
Definition tell (f : bytes -> nat -> call) (s : bytes) : call := f s (length s).
Definition field_call (f : bytes * bytes * bytes) : call :=
  let '(name, _, value) := f in http_field name (length name) value (length value).
Definition opt_call (f : bytes -> nat -> call) (o : option bytes) : list call :=
  match o with Some s => [tell f s] | None => [] end.
Definition head_calls (h : head) : list call :=
  [tell request_method (HttpMethodToString (hd_method h)); tell request_path (str "/" ++ hd_path h)] ++
  opt_call query_string (hd_query h) ++
  [tell request_uri ((str "/" ++ hd_path h) ++ opt_text "?" (hd_query h))] ++
  opt_call fragment (hd_fragment h) ++ [tell http_version (hd_version h)] ++
  map field_call (hd_fields h) ++ [header_done [] 0].

(** ** The moves of the machine along a head *)

Ltac by_table := repeat match goal with b : bool |- _ => destruct b end; try apply Checked; vm_compute; reflexivity.

(** The state after [n] characters of a method. *)
Definition method_state (n : nat) : Z :=
  match n with O => 1 | S O => 2 | _ => 173 + Z.of_nat n end.

Lemma method_first relaxed : checked (moves (http_blocks relaxed) 1 method_char [mark] 2).
Proof. by_table. Qed.
Lemma method_next relaxed : checked (forallb (fun n =>
  moves (http_blocks relaxed) (method_state n) method_char [] (method_state (S n))) (seq 1 19)).
Proof. by_table. Qed.
Lemma method_last relaxed : checked (forallb (fun n =>
  moves (http_blocks relaxed) (method_state n) (one_of " ") [act_request_method] 3) (seq 1 20)).
Proof. by_table. Qed.

Lemma escape_moves relaxed : checked (forallb (fun '(q, q1, q2, cls) =>
  moves (http_blocks relaxed) q cls [] q && moves (http_blocks relaxed) q (one_of "%") [] q1 &&
  moves (http_blocks relaxed) q1 is_xdigit [] q2 && moves (http_blocks relaxed) q2 is_xdigit [] q)
  [(26, 27, 28, path_char); (30, 31, 32, query_char); (21, 22, 23, query_char)]).
Proof. by_table. Qed.

Lemma slash_move relaxed : checked (moves (http_blocks relaxed) 3 (one_of "/") [mark] 33).
Proof. by_table. Qed.
Lemma path_first relaxed :
  checked (moves (http_blocks relaxed) 33 pchar [] 26 && moves (http_blocks relaxed) 33 (one_of "%") [] 27).
Proof. by_table. Qed.
Lemma path_end relaxed q : ((q =? 33) || (q =? 26)) = true ->
  checked (moves (http_blocks relaxed) q (one_of "?") [act_request_path] 29) /\
  checked (moves (http_blocks relaxed) q (one_of "#") [act_request_path; act_request_uri] 20) /\
  checked (moves (http_blocks relaxed) q (one_of " ") [act_request_path; act_request_uri] 4).
Proof. intros [->%Z.eqb_eq| ->%Z.eqb_eq]%orb_true_iff; split_and!; by_table. Qed.

Lemma query_first relaxed :
  checked (moves (http_blocks relaxed) 29 query_char [start_query] 30 && moves (http_blocks relaxed) 29 (one_of "%") [start_query] 31 &&
  moves (http_blocks relaxed) 29 (one_of "#") [start_query; act_query_string; act_request_uri] 20 &&
  moves (http_blocks relaxed) 29 (one_of " ") [start_query; act_query_string; act_request_uri] 4).
Proof. by_table. Qed.
Lemma query_end relaxed :
  checked (moves (http_blocks relaxed) 30 (one_of "#") [act_query_string; act_request_uri] 20 &&
  moves (http_blocks relaxed) 30 (one_of " ") [act_query_string; act_request_uri] 4).
Proof. by_table. Qed.

Lemma fragment_first relaxed :
  checked (moves (http_blocks relaxed) 20 query_char [mark] 21 && moves (http_blocks relaxed) 20 (one_of "%") [mark] 22 &&
  moves (http_blocks relaxed) 20 (one_of " ") [mark; act_fragment] 4).
Proof. by_table. Qed.
Lemma fragment_end relaxed : checked (moves (http_blocks relaxed) 21 (one_of " ") [act_fragment] 4).
Proof. by_table. Qed.

Lemma version_moves relaxed (minor : bool) :
  checked (moves (http_blocks relaxed) 4 (one_of "H") [mark] 5 &&
  spells (http_blocks relaxed) 5 (if minor then str "TTP/1.1" else str "TTP/1.0") [6; 7; 8; 9; 10; 11; 12] &&
  moves (http_blocks relaxed) 12 (lit Byte.x0d) [act_http_version] 17 &&
  moves (http_blocks relaxed) 17 (lit Byte.x0a) [] 13).
Proof. by_table. Qed.

Lemma field_moves relaxed :
  checked (moves (http_blocks relaxed) 13 token_char [start_field] 14 && moves (http_blocks relaxed) 14 name_char [] 14 &&
  moves (http_blocks relaxed) 14 (one_of ":") [write_field] 15 && moves (http_blocks relaxed) 15 blank [start_value] 15 &&
  moves (http_blocks relaxed) 15 (fun b : byte => value_char b && negb (blank b)) [start_value] 16 &&
  moves (http_blocks relaxed) 16 value_char [] 16 &&
  moves (http_blocks relaxed) 15 (lit Byte.x0d) [start_value; write_value] 17 &&
  moves (http_blocks relaxed) 16 (lit Byte.x0d) [write_value] 17).
Proof. by_table. Qed.
Lemma final_moves relaxed :
  checked (moves (http_blocks relaxed) 13 (lit Byte.x0d) [start_field] 18) /\
  trans (http_blocks relaxed) 18 Byte.x0a = Some ([done_], BREAK 348).
Proof. split; by_table. Qed.

(** ** Reading a head *)

(** The effects of the actions of a move, and what they need. *)
Ltac effects := cbn [acts_pre acts_h acts_calls act_pre act_h act_calls app hp_cs hp_body_start hp_content_len hp_nread
  hp_mark hp_field_start hp_field_len hp_query_start hp_xml_sent hp_json_sent hp_uri_relaxed hp_with_mark
  hp_with_field_start hp_with_field_len hp_with_query_start hp_with_body].
Ltac pre := effects; repeat split; lia.

#[local] Opaque exec.

Section reading.
Context (buffer : bytes) (len : Z).
Context (Hlen : 0 < len <= Z.of_nat (length buffer)) (Hbuf : len < 2 ^ 31).
Context (relaxed : bool).

#[local] Abbreviation machine := (exec (http_blocks relaxed) (http_act buffer len) 2).

(** The text [s] is in the buffer at [p]. *)
Definition at_ (p : Z) (s : bytes) : Prop :=
  0 <= p /\ p + Z.of_nat (length s) <= len /\ exists rest, from buffer p = s ++ rest.

Lemma at_app p s t : at_ p (s ++ t) <-> at_ p s /\ at_ (p + Z.of_nat (length s)) t.
Proof.
  unfold at_. rewrite length_app. unfold from. split.
  - intros (Hp & Hl & rest & E). split_and!; try lia.
    + exists (t ++ rest). by rewrite E, app_assoc.
    + exists rest. rewrite Z2Nat.inj_add, Nat2Z.id, <- drop_drop, E, <- app_assoc by lia. by rewrite drop_app_length.
  - intros ((Hp & _ & r1 & E1) & _ & Hl & r2 & E2). split_and!; try lia. exists r2.
    rewrite Z2Nat.inj_add, Nat2Z.id, <- drop_drop, E1, drop_app_length in E2 by lia. subst r1. by rewrite E1, app_assoc.
Qed.

Lemma at_take p s : at_ p s -> take (length s) (from buffer p) = s.
Proof. intros (_ & _ & rest & ->). apply take_app_length. Qed.

Lemma at_range p s : at_ p s -> 0 <= p /\ p + Z.of_nat (length s) <= len.
Proof. by intros (? & ? & _). Qed.

(** Texts with escapes *)
Lemma run_uri_text cls q q1 q2 s : uri_text cls s ->
  checked (moves (http_blocks relaxed) q cls [] q) -> checked (moves (http_blocks relaxed) q (one_of "%") [] q1) ->
  checked (moves (http_blocks relaxed) q1 is_xdigit [] q2) -> checked (moves (http_blocks relaxed) q2 is_xdigit [] q) ->
  forall p ys st, machine q p (s ++ ys) st = machine q (p + Z.of_nat (length s)) ys st.
Proof.
  intros Hs M0 M1 M2 M3. induction Hs as [|b s Hb Hs IH|x y s Hx Hy Hs IH]; intros p ys st.
  - cbn [app length]. f_equal. lia.
  - cbn [app]. rewrite (exec_move _ _ _ q cls [] q b _ _ st st M0 Hb) by done. rewrite IH. f_equal. cbn [length]. lia.
  - cbn [app]. rewrite (exec_move _ _ _ q _ [] q1 Byte.x25 _ _ st st M1 eq_refl) by done.
    rewrite (exec_move _ _ _ q1 _ [] q2 x _ _ st st M2 Hx) by done.
    rewrite (exec_move _ _ _ q2 _ [] q y _ _ st st M3 Hy) by done. rewrite IH. f_equal. cbn [length]. lia.
Qed.

Lemma run_path s p ys st : uri_text path_char s -> machine 26 p (s ++ ys) st = machine 26 (p + Z.of_nat (length s)) ys st.
Proof.
  intros Hs. pose proof (escape_moves relaxed) as H. cbn [forallb] in H.
  apply checked_andb in H as [[[[]%checked_andb ]%checked_andb ]%checked_andb _]. by eapply run_uri_text.
Qed.
Lemma run_query s p ys st : uri_text query_char s -> machine 30 p (s ++ ys) st = machine 30 (p + Z.of_nat (length s)) ys st.
Proof.
  intros Hs. pose proof (escape_moves relaxed) as H. cbn [forallb] in H.
  apply checked_andb in H as [_ [[[[]%checked_andb ]%checked_andb ]%checked_andb _]%checked_andb]. by eapply run_uri_text.
Qed.
Lemma run_fragment s p ys st : uri_text query_char s -> machine 21 p (s ++ ys) st = machine 21 (p + Z.of_nat (length s)) ys st.
Proof.
  intros Hs. pose proof (escape_moves relaxed) as H. cbn [forallb] in H.
  apply checked_andb in H as [_ [_ [[[[]%checked_andb ]%checked_andb ]%checked_andb _]%checked_andb]%checked_andb].
  by eapply run_uri_text.
Qed.

(** The method *)
Lemma run_method_rest s : forall n p ys st, all_in method_char s -> (1 <= n)%nat -> (n + length s <= 20)%nat ->
  machine (method_state n) p (s ++ ys) st = machine (method_state (n + length s)) (p + Z.of_nat (length s)) ys st.
Proof.
  induction s as [|b s IH]; intros n p ys st Hs Hn Hl; cbn [app length] in *.
  - rewrite Nat.add_0_r. f_equal. lia.
  - apply all_in_cons in Hs as [Hb Hs]. 
    assert (In n (seq 1 19)) as Hin by (apply in_seq; lia).
    rewrite (exec_move _ _ _ _ _ [] _ b _ _ st st (checked_forallb _ _ n (method_next relaxed) Hin) Hb) by done.
    rewrite IH by (done || lia). f_equal; [f_equal|]; lia.
Qed.

Lemma method_names m : m <> INVALID_METHOD -> m <> MSEARCH ->
  exists b s, HttpMethodToString m = b :: s /\ method_char b = true /\ all_in method_char s /\ (length s < 20)%nat.
Proof. destruct m; intros; try done; eexists _, _; split_and!; (reflexivity || by apply Nat.ltb_lt). Qed.

Lemma run_method m ys h c : m <> INVALID_METHOD -> m <> MSEARCH -> at_ 0 (HttpMethodToString m ++ str " ") ->
  machine 1 0 (HttpMethodToString m ++ str " " ++ ys) (h, c) =
  machine 3 (0 + Z.of_nat (length (HttpMethodToString m ++ str " "))) ys
    (hp_with_mark h 0, c ++ [request_method (from buffer 0) (length (HttpMethodToString m))]).
Proof.
  intros H1 H2 Hat. destruct (method_names m H1 H2) as (b & s & E & Hb & Hs & Hl). rewrite E in *. clear E.
  apply at_range in Hat. change (str " ") with [Byte.x20] in *. rewrite length_app in *. cbn [app length] in *.
  rewrite (go buffer len Hlen Hbuf relaxed 1 _ _ 2 b _ 0 h c (method_first relaxed) Hb) by (done || lia).
  effects. rewrite app_nil_r.
  rewrite (run_method_rest s 1) by (done || lia).
  assert (In (1 + length s)%nat (seq 1 20)) as Hin by (apply in_seq; lia).
  rewrite (go buffer len Hlen Hbuf relaxed _ _ _ 3 Byte.x20 _ _ _ _ (checked_forallb _ _ _ (method_last relaxed) Hin) eq_refl);
    [|pre|lia].
  effects. cbn [length]. f_equal; [lia|]. do 4 f_equal. lia.
Qed.

(** What a call tells, when the text is in the buffer. *)
Lemma said p s n : at_ p s -> n = Z.of_nat (length s) -> take (Z.to_nat n) (from buffer p) = s /\ Z.to_nat n = length s.
Proof. intros Hat ->. rewrite Nat2Z.id. split; [by apply at_take|done]. Qed.

(** Fields of the parser that only [done] reads. *)
Definition same_sent (h h' : http_parser) : Prop :=
  hp_xml_sent h' = hp_xml_sent h /\ hp_json_sent h' = hp_json_sent h.

#[local] Abbreviation go := (Http11Spec.go buffer len Hlen Hbuf relaxed).

Lemma andb4 a b c d : checked (a && b && c && d) -> checked a /\ checked b /\ checked c /\ checked d.
Proof. rewrite !checked_andb. tauto. Qed.

(** The path: [33] behind its slash, [26] further on. *)
Lemma run_target_path path ys p h c : uri_text path_char path ->
  match path with b :: _ => one_of "/" b = false | [] => True end -> at_ p (str "/" ++ path) ->
  exists q, ((q =? 33) || (q =? 26)) = true /\
    machine 3 p ((str "/" ++ path) ++ ys) (h, c) =
    machine q (p + Z.of_nat (length (str "/" ++ path))) ys (hp_with_mark h p, c).
Proof.
  intros Hs Hfirst Hat%at_range. change (str "/") with [Byte.x2f] in *. cbn [app length] in *.
  pose proof (path_first relaxed) as [M1 M2]%checked_andb.
  rewrite (go 3 _ _ 33 Byte.x2f _ p h c (slash_move relaxed) eq_refl) by (done || lia). effects. rewrite app_nil_r.
  destruct Hs as [|b s Hb Hs|x y s Hx Hy Hs].
  - exists 33. split; [done|]. cbn [app length]. f_equal; lia.
  - exists 26. split; [done|]. cbn [app length].
    assert (pchar b = true) as Hb' by (unfold path_char in Hb; by rewrite Hfirst, orb_false_r in Hb).
    rewrite (exec_move _ _ _ 33 _ [] 26 b _ _ _ _ M1 Hb' eq_refl). rewrite run_path by done. f_equal. lia.
  - exists 26. split; [done|]. cbn [app length].
    pose proof (escape_moves relaxed) as H. cbn [forallb] in H.
    apply checked_andb in H as [[[[_ _]%checked_andb M3]%checked_andb M4]%checked_andb _].
    rewrite (exec_move _ _ _ 33 _ [] 27 Byte.x25 _ _ _ _ M2 eq_refl eq_refl).
    rewrite (exec_move _ _ _ 27 _ [] 28 x _ _ _ _ M3 Hx eq_refl).
    rewrite (exec_move _ _ _ 28 _ [] 26 y _ _ _ _ M4 Hy eq_refl).
    rewrite run_path by done. f_equal. lia.
Qed.

(** The fragment, up to a space. *)
Lemma run_target_fragment f ys p h c : uri_text query_char f -> at_ p (f ++ [Byte.x20]) ->
  exists h' d, machine 20 p (f ++ Byte.x20 :: ys) (h, c) = machine 4 (p + Z.of_nat (length f) + 1) ys (h', c ++ d) /\
    map told d = [tell fragment f] /\ same_sent h h'.
Proof.
  intros Hs [Hat Hend]%at_app. pose proof (at_range _ _ Hend) as Hr. pose proof (at_range _ _ Hat) as Hr'.
  cbn [length] in *.
  pose proof (fragment_first relaxed) as [[M1 M2]%checked_andb M3]%checked_andb.
  assert (forall ys, let k := p + Z.of_nat (length f) in
    machine 21 k (Byte.x20 :: ys) (hp_with_mark h p, c) =
    machine 4 (k + 1) ys (hp_with_mark h p, c ++ [fragment (from buffer p) (Z.to_nat (k - p))])) as Hlast.
  { intros ys' k. rewrite (go 21 _ _ 4 Byte.x20 _ _ _ _ (fragment_end relaxed) eq_refl); [|pre|lia]. done. }
  assert (map told [fragment (from buffer p) (Z.to_nat (p + Z.of_nat (length f) - p))] = [tell fragment f]) as Hc.
  { cbn [map told]. by destruct (said p f (p + Z.of_nat (length f) - p) Hat ltac:(lia)) as [-> ->]. }
  destruct Hs as [|x s Hx Hs|x y s Hx Hy Hs]; cbn [app length] in *.
  - exists (hp_with_mark h p). eexists. split; [|split; [exact Hc|]].
    + rewrite (go 20 _ _ 4 Byte.x20 _ _ _ _ M3 eq_refl); [|pre|lia]. effects.
      replace (p + Z.of_nat 0) with p by lia. reflexivity.
    + done.
  - rewrite (go 20 _ _ 21 x _ _ _ _ M1 Hx) by (done || lia). effects. rewrite app_nil_r, run_fragment by done.
    exists (hp_with_mark h p). eexists. split; [|split; [exact Hc|]].
    + rewrite <- Hlast. f_equal. lia.
    + done.
  - pose proof (escape_moves relaxed) as H. cbn [forallb] in H.
    apply checked_andb in H as [_ [_ [[[_ M5]%checked_andb M6]%checked_andb _]%checked_andb]%checked_andb].
    rewrite (go 20 _ _ 22 Byte.x25 _ _ _ _ M2 eq_refl) by (done || lia). effects. rewrite app_nil_r.
    rewrite (exec_move _ _ _ 22 _ [] 23 x _ _ _ _ M5 Hx eq_refl).
    rewrite (exec_move _ _ _ 23 _ [] 21 y _ _ _ _ M6 Hy eq_refl).
    rewrite run_fragment by done.
    exists (hp_with_mark h p). eexists. split; [|split; [exact Hc|]].
    + rewrite <- Hlast. f_equal. lia.
    + done.
Qed.
(** The version and the end of the request line. *)
Lemma run_version (minor : bool) ys p h c : at_ p ((if minor then str "HTTP/1.1" else str "HTTP/1.0") ++ CRLF) ->
  exists d, machine 4 p ((if minor then str "HTTP/1.1" else str "HTTP/1.0") ++ CRLF ++ ys) (h, c) =
      machine 13 (p + 10) ys (hp_with_mark h p, c ++ d) /\
    map told d = [tell http_version (if minor then str "HTTP/1.1" else str "HTTP/1.0")].
Proof.
  intros [Hat Hend]%at_app. pose proof (at_range _ _ Hat) as Hr. pose proof (at_range _ _ Hend) as Hr2.
  pose proof (version_moves relaxed minor) as (M1 & M2 & M3 & M4)%andb4.
  assert (length (if minor then str "HTTP/1.1" else str "HTTP/1.0") = 8%nat) as L by by destruct minor.
  rewrite L in *. cbn [length CRLF] in Hr2.
  assert ((if minor then str "HTTP/1.1" else str "HTTP/1.0") =
    Byte.x48 :: (if minor then str "TTP/1.1" else str "TTP/1.0")) as E by by destruct minor.
  exists [http_version (from buffer p) (Z.to_nat (p + 8 - p))]. split.
  - rewrite E. cbn [app]. rewrite (go 4 _ _ 5 Byte.x48 _ _ _ _ M1 eq_refl) by (done || lia). effects. rewrite app_nil_r.
    rewrite (exec_spell _ _ _ _ _ _ _ _ _ M2). cbn [List.last].
    replace (length (if minor then str "TTP/1.1" else str "TTP/1.0")) with 7%nat by by destruct minor.
    unfold CRLF. cbn [app].
    rewrite (go 12 _ _ 17 Byte.x0d _ _ _ _ M3 (lit_refl _)); [|pre|lia]. effects.
    rewrite (exec_char _ _ _ 17 _ [] 13 _ _ _ _ M4 eq_refl). 
    replace (p + 1 + Z.of_nat 7) with (p + 8) by lia. f_equal. lia.
  - cbn [map told]. destruct (said p _ (p + 8 - p) Hat ltac:(rewrite L; lia)) as [-> ->]. done.
Qed.

(** The blanks before a value. *)
Lemma run_blanks sp : forall p ys h c, all_in blank sp -> 0 <= p -> p + Z.of_nat (length sp) <= len ->
  exists h', machine 15 p (sp ++ ys) (h, c) = machine 15 (p + Z.of_nat (length sp)) ys (h', c) /\
    hp_field_start h' = hp_field_start h /\ hp_field_len h' = hp_field_len h /\ same_sent h h'.
Proof.
  pose proof (field_moves relaxed) as H. do 4 apply checked_andb in H as [H _]. apply checked_andb in H as [_ M].
  induction sp as [|b sp IH]; intros p ys h c Hs Hp Hl; cbn [app length] in *.
  - exists h. split; [f_equal; lia|done].
  - apply all_in_cons in Hs as [Hb Hs].
    rewrite (go 15 _ _ 15 b _ _ _ _ M Hb) by (done || lia). effects. rewrite app_nil_r.
    destruct (IH (p + 1) ys (hp_with_mark h p) c Hs ltac:(lia) ltac:(lia)) as (h' & E & E1 & E2 & E3).
    exists h'. split; [rewrite E; f_equal; lia|done].
Qed.

(** A value and the end of its line. *)
Lemma run_value value ys p h c : all_in value_char value ->
  match value with b :: _ => blank b = false | [] => True end -> at_ p (value ++ CRLF) ->
  0 <= hp_field_start h -> 0 <= hp_field_len h -> hp_field_start h + hp_field_len h <= p ->
  exists h' n, machine 15 p (value ++ CRLF ++ ys) (h, c) =
      machine 13 (p + Z.of_nat (length (value ++ CRLF))) ys (h',
        c ++ [http_field (from buffer (hp_field_start h)) (Z.to_nat (hp_field_len h)) (from buffer p) n]) /\
    n = length value /\ same_sent h h'.
Proof.
  intros Hv Hfirst [Hat Hend]%at_app Hfs Hfl Hle. pose proof (at_range _ _ Hat) as Hr. pose proof (at_range _ _ Hend) as Hr2.
  cbn [length CRLF] in Hr2. pose proof (field_moves relaxed) as H. do 3 apply checked_andb in H as [H ?].
  apply checked_andb in H as [_ M5]. pose proof (version_moves relaxed true) as (_ & _ & _ & M4)%andb4.
  rename H1 into M7, H2 into M6, H0 into M8. exists (hp_with_mark h p), (length value). split; [|done].
  rewrite length_app. cbn [length CRLF]. unfold CRLF. cbn [app].
  destruct value as [|b value]; cbn [app length] in *.
  - rewrite (go 15 _ _ 17 Byte.x0d _ _ _ _ M7 (lit_refl _)); [|pre|lia]. effects.
    rewrite (exec_char _ _ _ 17 _ [] 13 _ _ _ _ M4 eq_refl). f_equal; [lia|]. do 3 f_equal. f_equal; lia.
  - apply all_in_cons in Hv as [Hb Hv].
    rewrite (go 15 _ _ 16 b _ _ _ _ M5) by (cbn; rewrite ?Hb, ?Hfirst; done || lia). effects. rewrite app_nil_r.
    rewrite (exec_loop _ _ _ 16 _ value _ _ _ M6 Hv).
    rewrite (go 16 _ _ 17 Byte.x0d _ _ _ _ M8 (lit_refl _)); [|pre|lia]. effects.
    rewrite (exec_char _ _ _ 17 _ [] 13 _ _ _ _ M4 eq_refl). f_equal; [lia|]. do 3 f_equal. f_equal; lia.
Qed.

(** A header field. *)
Lemma run_field f ys p h c : field_ok f -> at_ p (field_text f) ->
  exists h' d, machine 13 p (field_text f ++ ys) (h, c) =
      machine 13 (p + Z.of_nat (length (field_text f))) ys (h', c ++ d) /\
    map told d = [field_call f] /\ same_sent h h'.
Proof.
  destruct f as [[name sp] value]. intros (Hn & Hsp & Hv & Hfirst) Hat. cbn [field_text field_call] in *.
  apply at_app in Hat as [Hat1 [Hat2 [Hat3 Hat4]%at_app]%at_app].
  pose proof (at_range _ _ Hat1) as Hr1. pose proof (at_range _ _ Hat2) as Hr2.
  pose proof (at_range _ _ Hat3) as Hr3. change (length (str ":")) with 1%nat in *.
  pose proof (field_moves relaxed) as H. do 5 apply checked_andb in H as [H _].
  apply checked_andb in H as [[M1 M2]%checked_andb M3].
  destruct name as [|b name]; [done|]. destruct Hn as [Hb Hn'].
  rewrite <- !app_assoc. change (str ":") with [Byte.x3a]. cbn [app].
  rewrite (go 13 _ _ 14 b _ _ _ _ M1 Hb) by (done || lia). effects. rewrite app_nil_r.
  rewrite (exec_loop _ _ _ 14 _ name _ _ _ M2 Hn').
  cbn [length] in *. set (q := p + Z.of_nat (S (length name))) in *.
  replace (p + 1 + Z.of_nat (length name)) with q by (unfold q; lia).
  rewrite (go 14 _ _ 15 Byte.x3a _ q _ _ M3 eq_refl); [|pre|lia]. effects. rewrite app_nil_r.
  replace (q + Z.of_nat 1) with (q + 1) in * by lia.
  destruct (run_blanks sp (q + 1) (value ++ CRLF ++ ys) (hp_with_field_len (hp_with_field_start h p) (q - p)) c)
    as (h1 & E1 & F1 & F2 & F3); [done|lia|lia|].
  rewrite E1. cbn [hp_field_start hp_field_len hp_with_field_start hp_with_field_len] in F1, F2.
  destruct (run_value value ys (q + 1 + Z.of_nat (length sp)) h1 c Hv Hfirst Hat4) as (h2 & n & E2 & -> & F4); try lia.
  rewrite E2, F1, F2. eexists h2, _. split; [f_equal|split].
  - cbn [length app]. rewrite !length_app. cbn [length]. rewrite !length_app. unfold q. lia.
  - cbn [map told]. destruct (said p (b :: name) (q - p) Hat1 ltac:(unfold q; cbn [length]; lia)) as [-> ->].
    apply at_app in Hat4 as [Hat4 _].
    pose proof (said _ value (Z.of_nat (length value)) Hat4 eq_refl) as [E3 _]. rewrite Nat2Z.id in E3. by rewrite E3.
  - destruct F3 as [F5 F6], F4. cbn in F5, F6. split; congruence.
Qed.

Lemma run_fields fs : forall ys p h c, Forall field_ok fs -> at_ p (concat (map field_text fs)) ->
  exists h' d, machine 13 p (concat (map field_text fs) ++ ys) (h, c) =
      machine 13 (p + Z.of_nat (length (concat (map field_text fs)))) ys (h', c ++ d) /\
    map told d = map field_call fs /\ same_sent h h'.
Proof.
  induction fs as [|f fs IH]; intros ys p h c Hall Hat; cbn [map concat] in *.
  - exists h, []. rewrite app_nil_r. cbn [app length]. split; [f_equal; lia|done].
  - apply Forall_cons in Hall as [Hf Hall]. apply at_app in Hat as [Hat1 Hat2]. rewrite <- app_assoc.
    destruct (run_field f (concat (map field_text fs) ++ ys) p h c Hf Hat1) as (h1 & d1 & E1 & T1 & S1).
    destruct (IH ys _ h1 (c ++ d1) Hall Hat2) as (h2 & d2 & E2 & T2 & S2).
    exists h2, (d1 ++ d2). rewrite E1, E2, map_app, T1, T2, app_assoc, length_app. split; [f_equal; lia|].
    split; [done|]. destruct S1, S2. split; congruence.
Qed.

(** The empty line: the machine stops behind it. *)
Lemma run_final ys p h c : at_ p CRLF -> same_sent (http_parser_init h) h ->
  exists h' d, machine 13 p (CRLF ++ ys) (h, c) = Ok (348, p + 2, true) (h', c ++ d) /\
    map told d = [header_done [] 0].
Proof.
  intros Hat%at_range [S1 S2]. cbn [length CRLF] in Hat. destruct (final_moves relaxed) as [M Et].
  unfold CRLF. cbn [app]. rewrite (go 13 _ _ 18 Byte.x0d _ _ _ _ M (lit_refl _)) by (done || lia). effects.
  rewrite app_nil_r. set (h1 := hp_with_field_start h p).
  assert (step (http_blocks relaxed) (http_act buffer len) 2 18 (p + 1) Byte.x0a (h1, c) =
    Ok (348, p + 1 + 1, true) (acts_h [done_] (p + 1) h1, c ++ acts_calls buffer len [done_] (p + 1) h1)) as Es.
  { unfold step. rewrite Et. run (perform_ok buffer len Hlen Hbuf [done_] (p + 1) h1 c ltac:(done) ltac:(lia)). done. }
  eexists _, _. split; [|].
  - with_strategy transparent [exec] cbn [exec]. replace (p + 1 + 1) with (p + 2) in Es by lia. by run Es.
  - cbn [acts_calls act_calls app h1 hp_with_field_start hp_xml_sent hp_json_sent]. cbn in S1, S2. by rewrite S1, S2.
Qed.
(** What follows the path or the query: the fragment, if there is one, and the space.  The
    actions [acts] run at its first character. *)
Definition tail_text (frag : option bytes) : bytes := opt_text "#" frag ++ [Byte.x20].

Lemma run_tail q acts frag ys k h c :
  checked (moves (http_blocks relaxed) q (one_of "#") acts 20) ->
  checked (moves (http_blocks relaxed) q (one_of " ") acts 4) ->
  acts_pre acts k h -> match frag with Some f => uri_text query_char f | None => True end -> at_ k (tail_text frag) ->
  exists h' d, machine q k (tail_text frag ++ ys) (h, c) =
      machine 4 (k + Z.of_nat (length (tail_text frag))) ys (h', c ++ acts_calls buffer len acts k h ++ d) /\
    map told d = opt_call fragment frag /\ same_sent (acts_h acts k h) h'.
Proof.
  intros M1 M2 Hpre Hf Hat. pose proof (at_range _ _ Hat) as Hr. unfold tail_text in *.
  destruct frag as [f|]; cbn [opt_text opt_call] in *.
  - change (str "#") with [Byte.x23] in *. rewrite <- app_assoc in *. apply at_app in Hat as [_ Hat].
    rewrite length_app in Hr. cbn [app length] in *. rewrite (go q _ _ 20 Byte.x23 _ _ _ _ M1 eq_refl) by (done || lia).
    rewrite <- ?app_assoc. cbn [app].
    destruct (run_target_fragment f ys (k + 1) (acts_h acts k h) (c ++ acts_calls buffer len acts k h) Hf Hat)
      as (h' & d & E & T & S).
    exists h', d. rewrite E, app_assoc. split; [|done]. f_equal. rewrite length_app. cbn [length]. lia.
  - exists (acts_h acts k h), []. cbn [app length] in *. rewrite app_nil_r.
    rewrite (go q _ _ 4 Byte.x20 _ _ _ _ M2 eq_refl) by (done || lia). split; [f_equal; lia|done].
Qed.

(** The query, behind its question mark, with the URI [uri ++ "?" ++ q] around it. *)
Lemma run_target_query qu uri frag ys p h c : uri_text query_char qu ->
  match frag with Some f => uri_text query_char f | None => True end -> at_ p (qu ++ tail_text frag) ->
  at_ (hp_mark h) (uri ++ str "?" ++ qu) -> hp_mark h + Z.of_nat (length uri) + 1 = p ->
  exists h' d, machine 29 p (qu ++ tail_text frag ++ ys) (h, c) =
      machine 4 (p + Z.of_nat (length (qu ++ tail_text frag))) ys (h', c ++ d) /\
    map told d = tell query_string qu :: tell request_uri (uri ++ str "?" ++ qu) :: opt_call fragment frag /\ same_sent h h'.
Proof.
  intros Hs Hf [Hat Hend]%at_app Hu Hm. pose proof (at_range _ _ Hat) as Hr. pose proof (at_range _ _ Hend) as Hr2.
  pose proof (at_range _ _ Hu) as Hru.
  assert (length (tail_text frag) = S (length (opt_text "#" frag))) as Lt by (unfold tail_text; rewrite length_app; cbn; lia).
  pose proof (query_first relaxed) as (M1 & M2 & M3 & M4)%andb4. pose proof (query_end relaxed) as [N1 N2]%checked_andb.
  set (k := p + Z.of_nat (length qu)) in *. set (h1 := hp_with_query_start h p).
  set (acts := [act_query_string; act_request_uri]).
  assert (acts_pre acts k h1) as Hpre by (unfold acts, h1; effects; lia).
  assert (map told (acts_calls buffer len acts k h1) = [tell query_string qu; tell request_uri (uri ++ str "?" ++ qu)]) as Hc.
  { unfold acts, h1. effects. cbn [map told].
    destruct (said p qu (k - p) Hat ltac:(unfold k; lia)) as [-> ->].
    destruct (said (hp_mark h) _ (k - hp_mark h) Hu) as [-> ->]; [|done].
    rewrite !length_app. change (length (str "?")) with 1%nat. unfold k. lia. }
  rewrite length_app. destruct Hs as [|x s Hx Hs|x y s Hx Hy Hs]; cbn [app length] in *.
  - replace k with p in * by (unfold k; lia).
    destruct (run_tail 29 (start_query :: acts) frag ys p h c M3 M4 ltac:(done) Hf Hend) as (h' & d & E & T & S).
    exists h', (acts_calls buffer len acts p h1 ++ d). rewrite map_app, Hc, T. split; [|done].
    change (acts_calls buffer len (start_query :: acts) p h) with (acts_calls buffer len acts p h1) in E. exact E.
  - rewrite (go 29 _ _ 30 x _ _ _ _ M1 Hx) by (done || lia). effects. rewrite app_nil_r, run_query by done.
    fold h1. replace (p + 1 + Z.of_nat (length s)) with k by (unfold k; lia).
    destruct (run_tail 30 acts frag ys k h1 c N1 N2 Hpre Hf Hend) as (h' & d & E & T & S).
    exists h', (acts_calls buffer len acts k h1 ++ d). rewrite map_app, Hc, T. split; [|done]. rewrite E. f_equal. unfold k. lia.
  - pose proof (escape_moves relaxed) as H. cbn [forallb] in H.
    apply checked_andb in H as [_ [[[_ M5]%checked_andb M6]%checked_andb _]%checked_andb].
    rewrite (go 29 _ _ 31 Byte.x25 _ _ _ _ M2 eq_refl) by (done || lia). effects. rewrite app_nil_r. fold h1.
    rewrite (exec_move _ _ _ 31 _ [] 32 x _ _ _ _ M5 Hx eq_refl), (exec_move _ _ _ 32 _ [] 30 y _ _ _ _ M6 Hy eq_refl).
    rewrite run_query by done. replace (p + 1 + 1 + 1 + Z.of_nat (length s)) with k by (unfold k; lia).
    destruct (run_tail 30 acts frag ys k h1 c N1 N2 Hpre Hf Hend) as (h' & d & E & T & S).
    exists h', (acts_calls buffer len acts k h1 ++ d). rewrite map_app, Hc, T. split; [|done]. rewrite E. f_equal. unfold k. lia.
Qed.

(** The request target and the space behind it. *)
Lemma run_target path query frag ys p h c : uri_text path_char path ->
  match path with b :: _ => one_of "/" b = false | [] => True end ->
  match query with Some q => uri_text query_char q | None => True end ->
  match frag with Some f => uri_text query_char f | None => True end ->
  let sp := str "/" ++ path in let text := sp ++ opt_text "?" query ++ tail_text frag in
  at_ p text ->
  exists h' d, machine 3 p (text ++ ys) (h, c) = machine 4 (p + Z.of_nat (length text)) ys (h', c ++ d) /\
    map told d = tell request_path sp :: opt_call query_string query ++
      [tell request_uri (sp ++ opt_text "?" query)] ++ opt_call fragment frag /\ same_sent h h'.
Proof.
  intros Hp Hfirst Hq Hf sp text Hat. subst text. apply at_app in Hat as [Hsp Hrest].
  pose proof (at_range _ _ Hsp) as Hr. rewrite <- app_assoc, length_app.
  destruct (run_target_path path ((opt_text "?" query ++ tail_text frag) ++ ys) p h c Hp Hfirst Hsp) as (q & Eq & E).
  fold sp in E. rewrite E. clear E. set (k := p + Z.of_nat (length sp)) in *.
  destruct (path_end relaxed q Eq) as (M & M1 & M2).
  assert (told (request_path (from buffer p) (Z.to_nat (k - p))) = tell request_path sp) as Ep.
  { cbn [told]. by destruct (said p sp (k - p) Hsp ltac:(unfold k; lia)) as [-> ->]. }
  destruct query as [qu|]; cbn [opt_text opt_call app] in *.
  - rewrite <- !app_assoc in *. change (str "?") with [Byte.x3f] in *. apply at_app in Hrest as [Hr1 Hr2].
    pose proof (at_range _ _ Hr1) as Hr3. cbn [app length] in *.
    rewrite (go q _ _ 29 Byte.x3f _ _ _ _ M eq_refl); [|pre|lia]. effects.
    assert (at_ p (sp ++ str "?" ++ qu)) as Hu.
    { apply at_app. split; [done|]. apply at_app. split; [done|]. by apply at_app in Hr2 as [? _]. }
    destruct (run_target_query qu sp frag ys (k + 1) (hp_with_mark h p) (c ++ [request_path (from buffer p) (Z.to_nat (k - p))])
      Hq Hf Hr2 Hu ltac:(effects; unfold k; lia)) as (h' & d & E & T & S).
    exists h', (request_path (from buffer p) (Z.to_nat (k - p)) :: d). rewrite E, <- app_assoc. cbn [map app].
    rewrite Ep, T. split; [f_equal; unfold k; lia|done].
  - destruct (run_tail q [act_request_path; act_request_uri] frag ys k (hp_with_mark h p) c M1 M2 ltac:(pre) Hf Hrest)
      as (h' & d & E & T & S).
    exists h', (acts_calls buffer len [act_request_path; act_request_uri] k (hp_with_mark h p) ++ d).
    rewrite E, map_app, T. split; [f_equal; unfold k; lia|]. split; [|done]. effects. cbn [map].
    rewrite Ep, app_nil_r. cbn [told]. by destruct (said p sp (k - p) Hsp ltac:(unfold k; lia)) as [-> ->].
Qed.
(** A whole head. *)
Lemma run_head hd ys h0 : head_ok hd -> at_ 0 (head_text hd) -> hp_xml_sent h0 = 0 -> hp_json_sent h0 = 0 ->
  exists h' d, machine 1 0 (head_text hd ++ ys) (h0, []) =
      Ok (348, Z.of_nat (length (head_text hd)), true) (h', d) /\
    map told d = head_calls hd.
Proof.
  intros (Hm1 & Hm2 & Hp & Hpf & Hq & Hf & Hfs) Hat X1 X2.
  set (m := HttpMethodToString (hd_method hd)). set (sp := str "/" ++ hd_path hd).
  set (target := sp ++ opt_text "?" (hd_query hd) ++ tail_text (hd_fragment hd)).
  set (fs := concat (map field_text (hd_fields hd))).
  assert (head_text hd = (m ++ str " ") ++ target ++ (hd_version hd ++ CRLF) ++ fs ++ CRLF) as Eh.
  { unfold head_text, target, tail_text. fold m sp fs. rewrite <- !app_assoc. done. }
  rewrite Eh in *. apply at_app in Hat as [A1 [A2 [A3 [A4 A5]%at_app]%at_app]%at_app].
  pose proof (at_take _ _ (proj1 (proj1 (at_app _ _ _) A1))) as Tm.
  rewrite <- !app_assoc. rewrite (run_method _ _ h0 [] Hm1 Hm2 A1). fold m. cbn [app].
  destruct (run_target (hd_path hd) (hd_query hd) (hd_fragment hd) (hd_version hd ++ CRLF ++ fs ++ CRLF ++ ys)
    _ (hp_with_mark h0 0) [request_method (from buffer 0) (length m)] Hp Hpf Hq Hf A2) as (h1 & d1 & E1 & T1 & S1).
  fold sp target in E1, T1. rewrite !app_assoc in E1. rewrite <- !app_assoc in E1. rewrite <- !app_assoc in *.
  rewrite E1. clear E1.
  destruct (run_version (hd_minor hd) (fs ++ CRLF ++ ys) _ h1 ([request_method (from buffer 0) (length m)] ++ d1) A3)
    as (d2 & E2 & T2). fold (hd_version hd) in E2, T2. rewrite E2. clear E2.
  assert (length (hd_version hd ++ CRLF) = 10%nat) as L by (unfold hd_version; by destruct (hd_minor hd)).
  rewrite L in *.
  destruct (run_fields (hd_fields hd) (CRLF ++ ys) _ (hp_with_mark h1 (0 + Z.of_nat (length (m ++ str " ")) + Z.of_nat (length target)))
    (([request_method (from buffer 0) (length m)] ++ d1) ++ d2) Hfs A4) as (h2 & d3 & E3 & T3 & S3).
  fold fs in E3. change (Z.of_nat 10) with 10 in *. rewrite E3. clear E3.
  destruct (run_final ys _ h2 ((([request_method (from buffer 0) (length m)] ++ d1) ++ d2) ++ d3) A5) as (h3 & d4 & E4 & T4).
  { destruct S1, S3. cbn in *. split; cbn; congruence. }
  rewrite E4. eexists h3, _. split.
  - f_equal. f_equal. f_equal. rewrite !length_app in *. cbn [length CRLF] in *. lia.
  - rewrite !map_app, T1, T2, T3, T4. unfold head_calls. fold m sp. cbn [map told app].
    unfold tell at 4. rewrite Tm. rewrite <- !app_assoc. done.
Qed.
End reading.
