(* ===== verification/Http11Request.v ===== *)
(** * Requests: what HttpRequestParser makes of a head

    The machine of Http11Parser under HttpRequestParser: heads parse to the request they
    describe, however they are cut, so the machine is a [RequestMachine] and the session's
    theorems hold for it; and the heads that [HttpRequest::dump] prints are such heads. *)

From S2P Require Import Prelude ByteArray ByteArraySpec Stream StreamSpec Containers Http.
From S2P Require Import HttpSpec HttpParser HttpSession HttpSessionSpec.
From S2P Require Import Ragel RagelSpec RagelRun Http11Table Http11Parser Http11Spec Http11Head.

(** ** The request a head describes *)

Definition add_field (r : HttpRequest) (f : bytes * bytes * bytes) : HttpRequest :=
  let '(name, _, value) := f in rq_setHeader r name value.
Definition head_request (h : head) : HttpRequest :=
  fold_left add_field (hd_fields h)
    (mkRequest (hd_method h) (if hd_minor h then 0x11 else 0x10) true (str "/" ++ hd_path h)
       (default [] (hd_query h)) (default [] (hd_fragment h)) [] []).

(** ** What a callback does depends on what it is told *)

Definition method_told (c : call) : Prop :=
  match c with
  | request_method a n => exists m, m <> INVALID_METHOD /\ take n a = HttpMethodToString m
  | _ => True
  end.

Lemma c_str_take n s : c_str (take n s) = take n (c_str s).
Proof.
  revert n. induction s as [|b s IH]; intros [|n]; try done. cbn [take c_str].
  destruct (byte.unsigned b =? 0); [done|]. cbn [take]. by rewrite IH.
Qed.
Lemma version_of_take a n : version_of (take n a) n = version_of a n.
Proof. unfold version_of, strncmp. by rewrite c_str_take, take_take, Nat.min_id. Qed.

Lemma told_told c : told (told c) = told c.
Proof. destruct c; cbn [told]; rewrite ?take_take, ?Nat.min_id; done. Qed.
Lemma told_cut c : told (cut c) = told c.
Proof. destruct c; cbn [told cut]; rewrite ?take_take; try (by rewrite Nat.min_l by lia); by rewrite ?Nat.min_id. Qed.
Lemma told_of_cut l l' : map cut l = map cut l' -> map told l = map told l'.
Proof.
  intros E. assert (forall l, map told l = map told (map cut l)) as H.
  { intros k. rewrite map_map. apply map_ext. intros c. by rewrite told_cut. }
  by rewrite (H l), (H l'), E.
Qed.

Section calls.
Context {P : Type} `{Machine P}.
Implicit Types (q : HttpRequestParser P).

Lemma request_call_told q c : method_told (told c) -> request_call q c = request_call q (told c).
Proof.
  destruct c; intros Hm; cbn [told request_call] in *; try done.
  - destruct Hm as (m & Hv & E). rewrite take_take, Nat.min_id in E.
    assert (CharsToHttpMethod at_ = m) as E1.
    { rewrite <- (take_drop length at_), E. by apply method_table. }
    unfold on_request_method. rewrite E1, E.
    pose proof (proj2 (proj2 (proj2 (method_table m Hv))) []) as E2. rewrite app_nil_r in E2. by rewrite E2.
  - unfold on_request_fragment, text. by rewrite take_take, Nat.min_id.
  - unfold on_request_path, text. by rewrite take_take, Nat.min_id.
  - unfold on_request_query, text. by rewrite take_take, Nat.min_id.
  - unfold on_request_version. by rewrite version_of_take.
  - unfold on_request_http_field, text. by rewrite !take_take, !Nat.min_id.
Qed.

Lemma fold_told l : forall q, Forall method_told (map told l) ->
  fold_left request_call l q = fold_left request_call (map told l) q.
Proof.
  induction l as [|c l IH]; intros q Hl; [done|]. cbn [map fold_left] in *. apply Forall_cons in Hl as [Hc Hl].
  by rewrite <- request_call_told, IH.
Qed.

(** The calls of a head make the request. *)
Lemma fold_fields fs : forall q, Forall field_ok fs ->
  fold_left request_call (map field_call fs) q = qp_set q (fold_left add_field fs (qp_data q)).
Proof.
  induction fs as [|[[name sp] value] fs IH]; intros q Hall; [by destruct q|].
  apply Forall_cons in Hall as [(Hne & _) Hall]. assert (name <> []) as Hne' by by destruct name. cbn [map fold_left field_call request_call].
  unfold on_request_http_field. rewrite (proj2 (Nat.eqb_neq _ _)) by (by destruct name).
  rewrite IH by done. unfold text. by rewrite !firstn_all.
Qed.

Lemma fold_head hd q : head_ok hd -> qp_data q = new_HttpRequest 0x11 true -> qp_error q = 0 ->
  fold_left request_call (head_calls hd) q = qp_set q (head_request hd).
Proof.
  intros (Hm & _ & _ & _ & _ & _ & Hfs) Ed Ee. destruct q as [p d e]. cbn in Ed, Ee. subst d e.
  destruct (method_table _ Hm) as (_ & _ & _ & Ec). specialize (Ec []). rewrite app_nil_r in Ec.
  unfold head_calls. rewrite !fold_left_app. cbn [fold_left tell request_call]. unfold on_request_method.
  rewrite Ec, bool_decide_false by done. unfold on_request_path, text at 1. rewrite firstn_all.
  unfold head_request, hd_version.
  assert (forall q, fold_left request_call (opt_call query_string (hd_query hd)) q =
    match hd_query hd with Some s => qp_set q (rq_with_query (qp_data q) s) | None => q end) as Eq.
  { intros q. destruct (hd_query hd); [|done]. cbn. unfold on_request_query, text. by rewrite firstn_all. }
  assert (forall q, fold_left request_call (opt_call fragment (hd_fragment hd)) q =
    match hd_fragment hd with Some s => qp_set q (rq_with_fragment (qp_data q) s) | None => q end) as Ef.
  { intros q. destruct (hd_fragment hd); [|done]. cbn. unfold on_request_fragment, text. by rewrite firstn_all. }
  rewrite Eq, Ef. unfold on_request_version, on_request_uri.
  assert (version_of (if hd_minor hd then str "HTTP/1.1" else str "HTTP/1.0")
    (length (if hd_minor hd then str "HTTP/1.1" else str "HTTP/1.0")) = Some (if hd_minor hd then 0x11 else 0x10)) as Ev
    by by destruct (hd_minor hd).
  rewrite Ev, fold_fields by done. cbn [fold_left request_call]. unfold on_request_header_done.
  by destruct (hd_query hd), (hd_fragment hd).
Qed.

Lemma head_calls_method hd : hd_method hd <> INVALID_METHOD -> Forall method_told (head_calls hd).
Proof.
  intros Hm. unfold head_calls, tell. repeat first [apply Forall_app; split | apply Forall_cons; split | apply Forall_nil];
    try done.
  - exists (hd_method hd). split; [done|apply firstn_all].
  - by destruct (hd_query hd); repeat constructor.
  - by destruct (hd_fragment hd); repeat constructor.
  - apply Forall_forall. intros c (f & -> & _)%list_elem_of_fmap. by destruct f as [[??]?].
Qed.
End calls.

(** ** Runs on a head, and on a part of it *)

Section execute.
Context (raw : http_parser).
#[local] Abbreviation init := (http_parser_init raw).

(** A run of the machine from a fresh parser, as the parser reports it. *)
Lemma execute_init buffer len cs p out h1 c1 :
  0 < len <= Z.of_nat (length buffer) -> len < 2 ^ 31 ->
  exec (http_blocks (negb (hp_uri_relaxed init =? 0))) (http_act buffer len) 2 1 0 (take (Z.to_nat len) buffer) (init, [])
    = Ok (cs, p, out) (h1, c1) ->
  http_parser_execute buffer len 0 (init, []) = Ok p (re cs p h1, c1) /\ between p (re cs p h1) /\
  rest cs p h1 /\ known cs /\ (if out then cs = 0 \/ 348 <= cs else 0 < cs < 348).
Proof.
  intros Hl H31 E. pose proof (init_between raw) as B. pose proof B as (Hk & R & Hn).
  assert (slice (Z.to_nat 0) (Z.to_nat (len - 0)) buffer = take (Z.to_nat len) buffer) as Es
    by (unfold slice; by rewrite drop_0, Z.sub_0_r).
  destruct (http_alike buffer buffer len len len Hl H31 Hl H31 ltac:(lia) eq_refl (negb (hp_uri_relaxed init =? 0))
    (take (Z.to_nat len) buffer) 1 0 init [] [] R Hk) as (cs' & p' & out' & h' & d1 & d2 & E1 & _ & _ & Hs & Hc & _);
    [rewrite length_take; lia|rewrite drop_0, length_take, Nat.min_l by lia; done|].
  rewrite E in E1. injection E1 as <- <- <- <- <-.
  destruct (Hc ltac:(done)) as (Hk1 & R1 & Ho). pose proof Hs as (Hs1 & _).
  destruct (execute_runs buffer len Hl H31 0 init [] cs p out h1 c1 B ltac:(lia)) as (F & B' & _);
    [by rewrite Es|done|done|done|].
  rewrite stored_re in F, B' by (rewrite Hs1; done). split_and!; try done.
  destruct out; [done|]. apply Ho. intros E0.
  assert (length (take (Z.to_nat len) buffer) = 0%nat) as L by by rewrite E0. rewrite length_take in L. lia.
Qed.

Context (hd : head) (Hok : head_ok hd).
#[local] Abbreviation h := (head_text hd).
Context (Hh : Z.of_nat (length h) < 2 ^ 31).

Lemma head_at mem len : take (length h) mem = h -> (length h <= len <= length mem)%nat -> at_ mem (Z.of_nat len) 0 h.
Proof.
  intros Ht Hl. split; [done|]. split; [lia|]. exists (drop (length h) mem). unfold from. rewrite drop_0.
  rewrite <- Ht at 1. by rewrite take_drop.
Qed.

Lemma head_nonempty : (0 < length h)%nat.
Proof. unfold head_text. rewrite !length_app. cbn [CRLF length]. lia. Qed.

(** A buffer that begins with the head: the parser stops behind it. *)
Lemma execute_head mem len : take (length h) mem = h -> (length h <= len <= length mem)%nat -> Z.of_nat len < 2 ^ 31 ->
  exists hp c, http_parser_execute mem (Z.of_nat len) 0 (init, []) = Ok (Z.of_nat (length h)) (hp, c) /\
    map told c = head_calls hd /\ http_parser_finish hp = 1.
Proof.
  intros Ht Hl H31. pose proof head_nonempty as Hne.
  destruct (run_head mem (Z.of_nat len) ltac:(lia) H31 (negb (hp_uri_relaxed init =? 0)) hd
    (take (len - length h) (drop (length h) mem)) init Hok (head_at mem len Ht Hl) eq_refl eq_refl) as (h' & c & E & T).
  assert (h ++ take (len - length h) (drop (length h) mem) = take (Z.to_nat (Z.of_nat len)) mem) as Em.
  { rewrite Nat2Z.id. rewrite <- (take_drop (length h) (take len mem)). f_equal.
    - rewrite take_take, Nat.min_l by lia. done.
    - rewrite take_drop_commute. do 2 f_equal. lia. }
  rewrite Em in E. apply execute_init in E as (F & _); [|lia|done].
  eexists _, c. split; [exact F|]. by split.
Qed.

(** A proper part of it: the parser waits for more. *)
Lemma execute_part k : (0 < k < length h)%nat ->
  exists hp c, http_parser_execute h (Z.of_nat k) 0 (init, []) = Ok (Z.of_nat k) (hp, c) /\
    map told c `prefix_of` head_calls hd /\ http_parser_finish hp = 0.
Proof.
  intros Hk. set (relaxed := negb (hp_uri_relaxed init =? 0)).
  pose proof (init_between raw) as (Hkn & R & _).
  destruct (http_alike h h (Z.of_nat k) (Z.of_nat (length h)) (Z.of_nat k) ltac:(lia) ltac:(lia) ltac:(lia) Hh ltac:(lia)
    eq_refl relaxed (take k h) 1 0 init [] [] R Hkn) as (cs & p & out & h1 & d1 & d2 & E1 & E2 & Hd & _ & _);
    [rewrite length_take; lia|rewrite drop_0, length_take, Nat.min_l by lia; done|].
  destruct (run_head h (Z.of_nat (length h)) ltac:(lia) Hh relaxed hd [] init Hok
    (head_at h (length h) (firstn_all _) ltac:(lia)) eq_refl eq_refl) as (h' & c & E & T).
  pose proof (exec_app (http_blocks relaxed) (http_act h (Z.of_nat (length h))) 2 (take k h) 1 0 (drop k h) (init, [])) as Ea.
  rewrite take_drop in Ea. rewrite app_nil_r, Ea, (bind_ok _ _ _ _ _ E2) in E. clear Ea.
  pose proof (exec_position _ _ _ _ _ _ _ _ _ _ _ E1) as [Hp Hp'].
  rewrite length_take in Hp, Hp'.
  destruct out. { injection E as _ E _ _. lia. }
  specialize (Hp' eq_refl). assert (p = Z.of_nat k) as -> by lia.
  assert (take k h = take (Z.to_nat (Z.of_nat k)) h) as Ek by by rewrite Nat2Z.id.
  rewrite Ek in E1. destruct (execute_init h (Z.of_nat k) cs (Z.of_nat k) false h1 d1 ltac:(lia) ltac:(lia) E1)
    as (F & _ & R1 & Hk1 & Hcs).
  exists (re cs (Z.of_nat k) h1), d1. split; [exact F|]. split.
  - destruct (http_alike h h (Z.of_nat (length h)) (Z.of_nat (length h)) (Z.of_nat (length h)) ltac:(lia) Hh ltac:(lia) Hh
      ltac:(lia) eq_refl relaxed (drop k h) cs (Z.of_nat k) h1 ([] ++ d2) [] R1 Hk1)
      as (cs' & p' & out' & h'' & d3 & d4 & E3 & _); [rewrite length_drop; lia|rewrite Nat2Z.id; apply firstn_all|].
    rewrite E3 in E. injection E as _ _ _ _ <-. rewrite <- T, map_app, (told_of_cut _ _ Hd). by apply prefix_app_r.
  - unfold http_parser_finish, http_parser_has_error, http_parser_is_finished. cbn [hp_cs re hp_with_nread hp_with_cs].
    unfold http_parser_error, http_parser_first_final.
    rewrite (proj2 (Z.eqb_neq cs 0)), (proj2 (Z.leb_gt 348 cs)) by lia. done.
Qed.

(** Going on from a part. *)
Lemma execute_more k mem len hp c : http_parser_execute h (Z.of_nat k) 0 (init, []) = Ok (Z.of_nat k) (hp, c) ->
  http_parser_finish hp = 0 -> (k < length h)%nat -> (k <= len <= length mem)%nat -> (0 < len)%nat ->
  Z.of_nat len < 2 ^ 31 -> take k mem = take k h ->
  exists n h' d c0, http_parser_execute mem (Z.of_nat len) (Z.of_nat k) (hp, []) = Ok n (h', d) /\
    http_parser_execute mem (Z.of_nat len) 0 (init, []) = Ok n (h', c0) /\ map cut (c ++ d) = map cut c0.
Proof.
  intros E Hf Hk Hl Hpos H31 Ht. destruct (decide (k = 0)%nat) as [->|Hk0].
  - cbn in E. injection E as <- <-.
    destruct (execute_returns mem (Z.of_nat len) ltac:(lia) H31 0 init [] (init_between raw) ltac:(lia))
      as (n & h' & c & E & _). by exists n, h', c, c.
  - assert (take (Z.to_nat (Z.of_nat k)) h = take (Z.to_nat (Z.of_nat k)) mem) as Hs by by rewrite Nat2Z.id, Ht.
    destruct (execute_returns h (Z.of_nat k) ltac:(lia) ltac:(lia) 0 init [] (init_between raw) ltac:(lia))
      as (n0 & hp' & c' & E' & B & _). rewrite E in E'. injection E' as <- <- <-.
    destruct (resume_ok h (Z.of_nat k) mem (Z.of_nat len) 0 init [] [] (Z.of_nat k) hp c) as (_ & n & h' & c2 & c0 & F & F' & Hc);
      try done; try lia.
    destruct (execute_alike mem (Z.of_nat len) mem (Z.of_nat len) (Z.of_nat k) hp c []) as (n2 & h2 & d1 & d2 & G & G' & Hd & _);
      try done; try lia.
    rewrite F in G. injection G as <- <- ->. exists n, h', d2, c0. split_and!; [done|done|].
    by rewrite <- Hc, !map_app, Hd.
Qed.
End execute.

(** ** The request machine *)

Section machine.
Context (raw : http_parser).
#[local] Existing Instance http_machine.
#[local] Instance raw_machine : Machine http_parser := http_machine raw.
#[local] Abbreviation parser := (@HttpRequestParser http_parser).
#[local] Abbreviation fresh_parser := (@new_HttpRequestParser http_parser raw_machine).
Implicit Types (q : parser).

Definition qp_with (p : http_parser) (q : parser) : parser := mkRequestParser p (qp_data q) (qp_error q).

(** Callbacks do not touch the machine, and an error stays. *)
Lemma call_with p q c : request_call (qp_with p q) c = qp_with p (request_call q c).
Proof.
  destruct c; try done; cbn [request_call].
  - unfold on_request_method. by case_bool_decide.
  - unfold on_request_version. by case_match.
  - unfold on_request_http_field. by case_match.
Qed.
Lemma calls_with p l : forall q, fold_left request_call l (qp_with p q) = qp_with p (fold_left request_call l q).
Proof. induction l as [|c l IH]; intros q; [done|]. cbn [fold_left]. by rewrite call_with, IH. Qed.

Lemma call_error q c : qp_error q <> 0 -> qp_error (request_call q c) <> 0.
Proof.
  destruct c; try done; cbn [request_call].
  - unfold on_request_method. by case_bool_decide.
  - unfold on_request_version. by case_match.
  - unfold on_request_http_field. by case_match.
Qed.
Lemma calls_error l : forall q, qp_error (fold_left request_call l q) = 0 -> qp_error q = 0.
Proof.
  induction l as [|c l IH]; intros q E; [done|]. cbn [fold_left] in E. apply IH in E.
  destruct (decide (qp_error q = 0)); [done|]. by destruct (call_error q c).
Qed.

Lemma qp_with_with p p' q : qp_with p (qp_with p' q) = qp_with p q.
Proof. done. Qed.

(** The parser behind the first [k] bytes of a head. *)
Definition http_is_head (h : bytes) (r : HttpRequest) : Prop :=
  exists hd, head_ok hd /\ h = head_text hd /\ r = head_request hd /\ Z.of_nat (length h) < 2 ^ 31.
Definition http_fed (h : bytes) (r : HttpRequest) (q : parser) (n : Z) (k : nat) : Prop :=
  http_is_head h r /\ n = Z.of_nat k /\ (k < length h)%nat /\
  exists p c, http_parser_execute h n 0 (http_parser_init raw, []) = Ok n (p, c) /\
    http_parser_finish p = 0 /\ q = qp_with p (fold_left request_call (map told c) fresh_parser).

Lemma parser_of_head hd : head_ok hd ->
  fold_left request_call (head_calls hd) fresh_parser = qp_set fresh_parser (head_request hd).
Proof. intros Hok. by apply fold_head. Qed.

(** Feeding more of the stream of a head, from the state behind its first [k] bytes. *)
Lemma feed_more h r q n k mem len : http_fed h r q n k -> (k <= len <= length mem)%nat -> (0 < len)%nat ->
  Z.of_nat len < 2 ^ 31 -> take k mem = take k h ->
  exists m p' c0, http_parser_execute mem (Z.of_nat len) 0 (http_parser_init raw, []) = Ok m (p', c0) /\
    forall hd, h = head_text hd -> head_ok hd -> map told c0 `prefix_of` head_calls hd ->
    qp_execute q mem (Z.of_nat len) n = (qp_with p' (fold_left request_call (map told c0) fresh_parser), m).
Proof.
  intros ((hd & Hok & -> & -> & Hh) & -> & Hk & p & c & E & Hf & ->) Hl Hpos H31 Ht.
  destruct (execute_more raw hd Hh k mem len p c E Hf Hk Hl Hpos H31 Ht) as (m & p' & d & c0 & F & F' & Hc).
  exists m, p', c0. split; [exact F'|]. intros hd' Ehd Hok' Hpre.
  unfold qp_execute. cbn [mc_execute raw_machine http_machine qp_parser qp_with]. unfold http_machine_execute. rewrite F.
  f_equal. change (mkRequestParser p' ?d ?e) with (qp_with p' (mkRequestParser p' d e)).
  change (mkRequestParser p' _ _) with (qp_with p' (fold_left request_call (map told c) fresh_parser)).
  rewrite qp_with_with, calls_with, <- (told_of_cut _ _ Hc), map_app, fold_left_app. f_equal.
  apply fold_told. eapply Forall_impl; [|done].
  rewrite <- (told_of_cut _ _ Hc) in Hpre. destruct Hpre as [l El].
  pose proof (head_calls_method hd' (proj1 Hok')) as Hm. rewrite El, map_app, <- app_assoc in Hm.
  apply Forall_app in Hm as [_ Hm]. by apply Forall_app in Hm as [Hm _].
Qed.

#[export] Program Instance http_request_machine : @RequestMachine http_parser raw_machine := {
  is_head := http_is_head; fed := http_fed }.
Next Obligation.
  intros h r (hd & Hok & -> & -> & Hh). split; [by exists hd|]. split; [done|].
  split; [apply (head_nonempty hd)|]. exists (http_parser_init raw), []. done.
Qed.
Next Obligation.
  intros h r q n k mem len Hfed [Hk Hlen] H31 Hl Ht. pose proof Hfed as ((hd & Hok & -> & -> & Hh) & -> & Hkh & p & c & E & Hf & Eq).
  destruct (decide (len = 0)%nat) as [->|Hpos].
  - assert (k = 0)%nat as -> by lia. cbn in E. injection E as <- <-. subst q.
    split_and!; [done|done|exact Hfed].
  - assert (take k mem = take k (head_text hd)) as Htk.
    { rewrite <- (Nat.min_l k len) by lia. by rewrite <- !take_take, Ht. }
    destruct (feed_more (head_text hd) _ q (Z.of_nat k) k mem len Hfed ltac:(lia) ltac:(lia) H31 Htk) as (m & p' & c0 & F & G).
    destruct (execute_part raw hd Hok Hh len ltac:(lia)) as (p2 & c2 & F2 & Hpre & Hf2).
    destruct (execute_alike mem (Z.of_nat len) (head_text hd) (Z.of_nat len) 0 (http_parser_init raw) [] [])
      as (m' & p3 & d1 & d2 & G1 & G2 & Hd & _); try done; try lia; [by rewrite !Nat2Z.id|].
    rewrite F in G1. injection G1 as -> -> ->. rewrite F2 in G2. injection G2 as <- <- ->. cbn [app] in *.
    rewrite <- (told_of_cut _ _ Hd) in Hpre. rewrite (G hd eq_refl Hok Hpre).
    assert (qp_error (fold_left request_call (map told d1) fresh_parser) = 0) as He.
    { destruct Hpre as [l El]. apply (calls_error l). rewrite <- fold_left_app, <- El, parser_of_head by done. done. }
    split; [|split; [done|]].
    + unfold qp_hasError. cbn [qp_error qp_with qp_parser]. rewrite He. cbn.
      unfold http_parser_finish in Hf2. by destruct (http_parser_has_error p2).
    + split; [by exists hd|]. split; [done|]. split; [lia|]. exists p2, d2. split_and!; [done|done|].
      by rewrite (told_of_cut _ _ Hd).
Qed.
Next Obligation.
  intros h r q n k mem len Hfed Hk Hl H31 Ht. pose proof Hfed as ((hd & Hok & -> & -> & Hh) & _).
  assert (take k mem = take k (head_text hd)) as Htk.
  { transitivity (take k (take (length (head_text hd)) mem)); [by rewrite take_take, Nat.min_l by lia|by rewrite Ht]. }
  destruct (feed_more (head_text hd) _ q n k mem len Hfed ltac:(lia) ltac:(lia) H31 Htk) as (m & p' & c0 & F & G).
  destruct (execute_head raw hd Hok mem len Ht ltac:(lia) H31) as (p2 & c2 & F2 & T2 & Hf2).
  rewrite F in F2. injection F2 as -> -> ->. rewrite (G hd eq_refl Hok) by by rewrite T2.
  rewrite T2, parser_of_head by done. split_and!; [|by cbn; rewrite Hf2|done|done].
  unfold qp_hasError. cbn. unfold http_parser_finish in Hf2. by destruct (http_parser_has_error p2).
Qed.
End machine.
