(* ===== verification/HttpWire.v ===== *)
(** * From dump to recvRequest

    A request that one side prints is the request the other side receives: the printer of
    http.cpp, the machine of http11_parser.cpp, HttpRequestParser and HttpSession together. *)

From stdpp Require Import pretty.
From S2P Require Import Prelude ByteArray ByteArraySpec Stream StreamSpec Containers Http.
From S2P Require Import HttpSpec HttpParser HttpSession HttpSessionSpec.
From S2P Require Import Ragel RagelSpec RagelRun Http11Table Http11Parser Http11Spec Http11Head Http11Request.

(** ** Requests that can be sent *)

Definition text_field (f : bytes * bytes) : Prop := field_ok (fst f, str " ", snd f).
(** A path starts with one slash; the escapes of a path, query or fragment are complete. *)
Definition path_ok (p : bytes) : Prop :=
  exists q, p = str "/" ++ q /\ uri_text path_char q /\ match q with b :: _ => one_of "/" b = false | [] => True end.

Record sendable (r : HttpRequest) : Prop := {
  s_method : rq_method r <> INVALID_METHOD /\ rq_method r <> MSEARCH;
  s_version : rq_version r = 0x10 \/ rq_version r = 0x11;
  s_path : path_ok (rq_path r);
  s_query : uri_text query_char (rq_query r);
  s_fragment : uri_text query_char (rq_fragment r);
  s_headers : valid (rq_headers r);
  s_fields : Forall text_field (rq_headers r);
  s_length : map_find (str "content-length") (rq_headers r) = None }.

Definition connection_text (close : bool) : bytes := if close then str "close" else str "keep-alive".
Definition opt (s : bytes) : option bytes := if empty s then None else Some s.
Definition sent_fields (r : HttpRequest) : list (bytes * bytes) :=
  (str "connection", connection_text (rq_close r)) :: fields (rq_headers r) ++ length_field (rq_body r).
Definition dumped_head (r : HttpRequest) (path : bytes) : head :=
  mkHead (rq_method r) path (opt (rq_query r)) (opt (rq_fragment r)) (rq_version r =? 0x11)
    ((fun f => (fst f, str " ", snd f)) <$> sent_fields r).

Lemma dump_fields (l : list (bytes * bytes)) :
  concat (map field_text ((fun f => (fst f, str " ", snd f)) <$> l)) =
  concat ((fun f => fst f ++ str ": " ++ snd f ++ CRLF) <$> l).
Proof. induction l as [|[n v] l IH]; [done|]. cbn [fmap list_fmap map concat]. f_equal. exact IH. Qed.

Lemma dump_is_head r path : sendable r -> rq_path r = str "/" ++ path ->
  rq_dump r = head_text (dumped_head r path) ++ rq_body r.
Proof.
  intros S Ep. unfold rq_dump, head_text, dumped_head, sent_fields, hd_version.
  cbn [hd_method hd_path hd_query hd_fragment hd_minor hd_fields].
  rewrite dump_fields, Ep, dump_headers_ok, dump_body_ok, fmap_cons, fmap_app. cbn [concat fst snd].
  rewrite concat_app, <- !app_assoc. do 2 f_equal.
  unfold opt, opt_text, connection_text.
  destruct (s_version r S) as [-> | ->], (rq_query r), (rq_fragment r); cbn [empty app]; rewrite <- ?app_assoc; reflexivity.
Qed.

Lemma digit_value b : HttpSpec.is_digit b = true -> value_char b = true /\ blank b = false.
Proof.
  assert (forallb (fun b => implb (HttpSpec.is_digit b) (value_char b && negb (blank b))) all_bytes = true) as H
    by (vm_compute; reflexivity).
  intros Hb. pose proof (all_bytes_ok _ H b) as Hf. clear H. cbn beta in Hf. rewrite Hb in Hf.
  apply andb_true_iff in Hf as [? ?%negb_true_iff]. by split.
Qed.

Lemma length_field_ok body : Forall text_field (length_field body).
Proof.
  unfold length_field. destruct (empty body); [constructor|]. constructor; [|constructor].
  unfold text_field, field_ok. cbn [fst snd]. split_and!; try done.
  - unfold all_in. pose proof (proj1 (pretty_dec (N.of_nat (length body)))) as H. rewrite forallb_forall in *.
    intros b Hb. apply digit_value. by apply H.
  - unfold dec_size. destruct (pretty_dec (N.of_nat (length body))) as (H & _ & _).
    destruct (str (pretty (N.of_nat (length body)))) as [|b s]; [done|]. cbn [forallb] in H.
    apply andb_true_iff in H as [Hb _]. by apply digit_value.
Qed.

Lemma dumped_head_ok r path : sendable r -> path_ok (str "/" ++ path) -> head_ok (dumped_head r path).
Proof.
  intros S (q & [= <-] & Hp & Hs). destruct (s_method r S) as [Hm1 Hm2]. unfold head_ok, dumped_head.
  cbn [hd_method hd_path hd_query hd_fragment hd_fields]. split_and!; try done.
  - unfold opt. destruct (empty _); [done|]. apply S.
  - unfold opt. destruct (empty _); [done|]. apply S.
  - apply Forall_fmap. unfold sent_fields. constructor.
    + by destruct (rq_close r).
    + apply Forall_app. split; [|apply length_field_ok]. apply Forall_forall. intros f [_ Hf]%list_elem_of_filter.
      by apply (proj1 (Forall_forall _ _) (s_fields r S)).
Qed.

(** *** The headers that arrive *)

Definition assign_all (fs : list (bytes * bytes)) (m : MapType) : MapType :=
  fold_left (fun m f => map_assign (fst f) (snd f) m) fs m.

Lemma fold_add_field fs : forall r,
  fold_left add_field ((fun f => (fst f, str " ", snd f)) <$> fs) r = rq_with_headers r (assign_all fs (rq_headers r)).
Proof.
  induction fs as [|[n v] fs IH]; intros r; [by destruct r|]. cbn [fmap list_fmap fold_left add_field fst snd].
  by rewrite IH.
Qed.

Lemma assign_all_valid fs : forall m, valid m -> valid (assign_all fs m).
Proof. induction fs as [|f fs IH]; intros m Hm; [done|]. cbn. by apply IH, map_assign_spec. Qed.

(** The last field with the name counts. *)
Lemma assign_all_find fs key : forall m, valid m ->
  map_find key (assign_all fs m) =
  match List.find (fun f => bool_decide (same_key (fst f) key)) (rev fs) with
  | Some f => Some (snd f)
  | None => map_find key m
  end.
Proof.
  induction fs as [|f fs IH] using rev_ind; intros m Hm; [done|].
  unfold assign_all. rewrite fold_left_app, rev_app_distr. cbn [fold_left rev app List.find].
  rewrite map_assign_find by by apply assign_all_valid. case_decide as Hs.
  - by rewrite bool_decide_true.
  - rewrite bool_decide_false by done. by apply IH.
Qed.

(** In a valid map a name is found wherever it stands. *)
Lemma find_in_valid m key : valid m ->
  snd <$> List.find (fun f => bool_decide (same_key (fst f) key)) (rev m) = map_find key m.
Proof.
  intros Hv. apply option_eq. intros v. rewrite map_find_Some, fmap_Some by done. split.
  - intros ([k v'] & E & ->). apply List.find_some in E as [Hin Hk]. apply bool_decide_eq_true in Hk. cbn [fst snd] in *.
    exists k. split; [by apply list_elem_of_In, in_rev|by symmetry].
  - intros (k & Hin & Hk). destruct (List.find _ (rev m)) as [[k' v']|] eqn:E.
    + exists (k', v'). split; [done|]. apply List.find_some in E as [Hin' Hk']. apply bool_decide_eq_true in Hk'.
      cbn [fst] in Hk'. apply in_rev, list_elem_of_In in Hin'.
      assert ((k, v) = (k', v')) as [= <- <-]; [|done].
      apply (sorted_eqv key_less m); [done..|]. apply eqv_same_key. cbn [fst]. by rewrite <- Hk, Hk'.
    + exfalso. pose proof (List.find_none _ _ E (k, v)) as Hn. cbn [fst] in Hn.
      rewrite bool_decide_true in Hn by done. discriminate Hn. apply in_rev. rewrite rev_involutive. by apply list_elem_of_In.
Qed.

Lemma find_app {A} (f : A -> bool) l k : List.find f (l ++ k) = match List.find f l with Some x => Some x | None => List.find f k end.
Proof. induction l as [|x l IH]; [done|]. cbn. by destruct (f x). Qed.

Lemma map_find_key m key key' : valid m -> same_key key key' -> map_find key m = map_find key' m.
Proof.
  intros Hv Hk. apply option_eq. intros v. rewrite !map_find_Some by done. split; intros (k & Hin & Hs); exists k; (split; [done|]).
  - by rewrite <- Hk.
  - by rewrite Hk.
Qed.

Definition arrived (r : HttpRequest) (key : bytes) : option bytes :=
  if decide (same_key key (str "connection")) then Some (connection_text (rq_close r))
  else if negb (empty (rq_body r)) && bool_decide (same_key key (str "content-length")) then Some (dec_size (rq_body r))
  else map_find key (rq_headers r).

Lemma is_connection_key f : is_connection f <-> same_key (fst f) (str "connection").
Proof.
  unfold is_connection, same_key, fold_key. change (str "connection") with (c_str (str "connection")).
  rewrite <- Z.eqb_eq, strcasecmp_eq by apply c_str_no_nul. rewrite bool_decide_eq_true. done.
Qed.

Lemma fields_valid m : valid m -> valid (fields m).
Proof. apply sorted_sublist. apply sublist_filter. Qed.

Lemma fields_find m key : valid m ->
  map_find key (fields m) = if decide (same_key key (str "connection")) then None else map_find key m.
Proof.
  intros Hv. pose proof (fields_valid m Hv) as Hf. case_decide as Hk.
  - apply eq_None_not_Some. intros [v (k & Hin & Hs)%map_find_Some]; [|done].
    apply list_elem_of_filter in Hin as [Hn _]. apply Hn, is_connection_key. cbn [fst]. by rewrite <- Hs.
  - apply map_find_ext; [done..|]. intros v. split; intros (k & Hin & Hs).
    + apply list_elem_of_filter in Hin as [_ Hin]. by exists k.
    + exists k. split; [|done]. apply list_elem_of_filter. split; [|done].
      rewrite is_connection_key. cbn [fst]. by rewrite <- Hs.
Qed.

Lemma sent_find r key : valid (rq_headers r) -> map_find key (assign_all (sent_fields r) []) = arrived r key.
Proof.
  intros Hv. rewrite assign_all_find by constructor. unfold sent_fields, arrived.
  cbn [rev]. rewrite rev_app_distr, <- app_assoc, !find_app.
  pose proof (find_in_valid (fields (rq_headers r)) key (fields_valid _ Hv)) as Hf. rewrite fields_find in Hf by done.
  cbn [List.find]. unfold length_field.
  assert (forall b, bool_decide (same_key b key) = bool_decide (same_key key b)) as Hsym
    by (intros b; apply bool_decide_ext; split; by symmetry).
  case_decide as Hc.
  - destruct (List.find _ (rev (fields (rq_headers r)))) as [f|]; [done|].
    rewrite Hsym. cbn [fst]. rewrite (bool_decide_true (same_key key (str "connection"))) by done.
    assert (~ same_key key (str "content-length")) as Hn.
    { intros E. rewrite Hc in E. by vm_compute in E. }
    destruct (empty (rq_body r)); [done|]. cbn [rev app List.find fst]. by rewrite Hsym, bool_decide_false.
  - assert (bool_decide (same_key (str "connection") key) = false) as Hcf by by rewrite Hsym, bool_decide_false.
    cbn [fst]. rewrite Hcf.
    destruct (empty (rq_body r)); cbn [rev app List.find fst negb andb].
    + rewrite <- Hf. by destruct (List.find _ _).
    + rewrite Hsym. destruct (bool_decide (same_key key (str "content-length"))); [done|].
      rewrite <- Hf. by destruct (List.find _ _).
Qed.

(** ** Properties *)

(** What the receiver has of a request: all of it, and the fields that went with it. *)
Record same_request (r r' : HttpRequest) : Prop := {
  same_method : rq_method r' = rq_method r;
  same_version : rq_version r' = rq_version r;
  same_close : rq_close r' = rq_close r;
  same_path : rq_path r' = rq_path r;
  same_query : rq_query r' = rq_query r;
  same_fragment : rq_fragment r' = rq_fragment r;
  same_body : rq_body r' = rq_body r;
  same_headers : forall key, map_find key (rq_headers r') = arrived r key }.

Lemma head_request_dumped r path : sendable r -> rq_path r = str "/" ++ path ->
  head_request (dumped_head r path) =
    mkRequest (rq_method r) (rq_version r) true (rq_path r) (rq_query r) (rq_fragment r) []
      (assign_all (sent_fields r) []).
Proof.
  intros S Ep. unfold head_request, dumped_head. cbn [hd_method hd_path hd_query hd_fragment hd_minor hd_fields].
  rewrite fold_add_field. unfold rq_with_headers. cbn. rewrite Ep.
  assert ((if rq_version r =? 0x11 then 0x11 else 0x10) = rq_version r) as -> by by destruct (s_version r S) as [-> | ->].
  f_equal; unfold opt; [by destruct (rq_query r)|by destruct (rq_fragment r)].
Qed.

Lemma delivered_same r path : sendable r -> rq_path r = str "/" ++ path ->
  same_request r (delivered (head_request (dumped_head r path)) (rq_body r)).
Proof.
  intros S Ep. rewrite head_request_dumped by done. pose proof (s_headers r S) as Hv.
  unfold delivered. set (h := assign_all (sent_fields r) []).
  assert (map_find (str "Connection") h = Some (connection_text (rq_close r))) as Ec.
  { unfold h. rewrite sent_find by done. unfold arrived. by rewrite decide_True. }
  constructor; destruct (empty (rq_body r)) eqn:Eb; try done.
  - cbn [rq_close rq_with_close]. unfold rq_getHeader. cbn [rq_headers rq_with_body]. rewrite Ec. by destruct (rq_close r).
  - cbn [rq_close rq_with_close]. unfold rq_getHeader. cbn [rq_headers rq_with_body]. rewrite Ec. by destruct (rq_close r).
  - cbn. by destruct (rq_body r).
  - intros key. by apply sent_find.
  - intros key. by apply sent_find.
Qed.

Section wire.
Context {W : Type} `{KernelSpec W} `{!Lively W} `{Allocator} (raw : http_parser).
Context (lexical_cast : bytes -> option Z).
#[local] Instance wire_machine : Machine http_parser := http_machine raw.
#[local] Instance wire_requests : RequestMachine http_parser := http_request_machine raw.
Implicit Types (w : W) (hs : HttpSession).

(** C2: a request that is printed with [dump] and sent arrives as it is.  For every request with a
    known method, HTTP/1.0 or 1.1, and a path, query, fragment and fields of the characters the
    RFCs allow: when what [dump] prints is what comes in, in whatever pieces, [recvRequest] with
    the machine of http11_parser.cpp returns a request with the same method, version, path,
    query, fragment, body and close flag, and the same headers, together with the
    [connection] and [content-length] fields of the message. *)
Theorem request_roundtrip c max_body r w hs :
  sendable r -> open (hs_stream hs) -> m_left_size hs = 0 -> c < 2 ^ 31 ->
  (rq_body r <> [] -> lexical_cast (dec_size (rq_body r)) = Some (Z.of_nat (length (rq_body r)))) ->
  Z.of_nat (length (rq_dump r)) <= buffer_size_of c + Z.of_nat (length (rq_body r)) ->
  Z.of_nat (length (rq_body r)) < 2 ^ 31 -> Z.of_nat (length (rq_body r)) <= max_body < 2 ^ 63 ->
  incoming w = rq_dump r ->
  exists r' w' hs', recvRequest lexical_cast c max_body (w, hs) = Ok (Some r') (w', hs') /\
    same_request r r' /\ incoming w' = [] /\ hs_stream hs' = hs_stream hs.
Proof.
  intros S Ho Hl Hc Hcast Hb Hb1 Hb2 Hi. destruct (s_path r S) as (path & Ep & Hp1 & Hp2).
  pose proof (dump_is_head r path S Ep) as Ed. set (hd := dumped_head r path) in *.
  pose proof (buffer_size_range c Hc) as HB. rewrite Ed, length_app in Hb. rewrite Ed in Hi.
  assert (head_ok hd) as Hok by (apply dumped_head_ok; [done|]; exists path; by split_and!).
  pose proof (head_nonempty hd) as Hne.
  destruct (recvRequest_ok (P := http_parser) lexical_cast c max_body (head_text hd) (head_request hd) (rq_body r) w hs)
    as (w' & hs' & E & Hi' & _ & _ & Hs); try done; try lia.
  - exists hd. split_and!; (done || lia).
  - unfold GetAs, hd. rewrite head_request_dumped by done. cbn [rq_headers]. rewrite sent_find by apply S.
    unfold arrived. rewrite decide_False by by vm_compute. rewrite (bool_decide_true (same_key _ _)) by done.
    destruct (empty (rq_body r)) eqn:Eb; cbn [negb andb].
    + rewrite (map_find_key _ _ (str "content-length")), (s_length r S) by (done || apply S). by destruct (rq_body r).
    + rewrite Hcast; [done|]. by destruct (rq_body r).
  - exists (delivered (head_request hd) (rq_body r)), w', hs'. split_and!; try done. by apply delivered_same.
Qed.
End wire.

(** A line without a colon among the fields is not an error: it, its line end and the next
    line up to the colon become the name of one field. *)
Theorem header_line_swallowed raw a b v tail :
  let mem := str "GET / HTTP/1.1" ++ CRLF ++ a ++ CRLF ++ b ++ str ":" ++ v ++ CRLF ++ CRLF ++ tail in
  a <> [] -> all_in token_char a -> all_in token_char b -> all_in value_char v ->
  match v with x :: _ => blank x = false | [] => True end -> Z.of_nat (length mem) < 2 ^ 31 ->
  let '(q, n) := @qp_execute _ (http_machine raw) (@new_HttpRequestParser _ (http_machine raw)) mem (Z.of_nat (length mem)) 0 in
  @qp_hasError _ (http_machine raw) q = false /\ @qp_isFinished _ (http_machine raw) q <> 0 /\
  n = Z.of_nat (length mem - length tail) /\ rq_headers (qp_data q) = [(a ++ CRLF ++ b, v)].
Proof.
  intros mem Ha Hta Htb Hv Hv1 Hm.
  set (hd := mkHead GET [] None None true [(a ++ CRLF ++ b, [], v)]).
  assert (mem = head_text hd ++ tail) as Em.
  { unfold mem, head_text, hd. cbn [hd_method hd_path hd_query hd_fragment hd_minor hd_fields map field_text concat opt_text].
    rewrite !app_nil_r, <- !app_assoc. reflexivity. }
  assert (forall s, all_in token_char s -> all_in name_char s) as Hname.
  { intros s. unfold all_in. rewrite !forallb_forall. intros H x Hx. unfold name_char. by rewrite H. }
  assert (head_ok hd) as Hok.
  { unfold head_ok, hd. cbn. split_and!; try done; [constructor|]. constructor; [|done]. split_and!; try done.
    destruct a as [|x a]; [done|]. apply all_in_cons in Hta as [Hx Hta]. cbn [app]. split; [done|].
    apply (proj2 (all_in_app _ _ _)). split; [by apply Hname|]. apply (proj2 (all_in_app name_char CRLF b)). split; [done|by apply Hname]. }
  assert (length mem = length (head_text hd) + length tail)%nat as L by (rewrite Em; apply length_app).
  pose proof (head_nonempty hd) as Hne.
  assert (http_is_head (head_text hd) (head_request hd)) as Hh by (exists hd; split_and!; (done || lia)).
  pose proof (@fed_done _ _ (http_request_machine raw) (head_text hd) (head_request hd) _ 0 0 mem (length mem)
    (@fed_start _ _ (http_request_machine raw) _ _ Hh) Hne ltac:(lia) Hm ltac:(rewrite Em; apply take_app_length)) as H.
  destruct (@qp_execute _ _ _ mem _ 0) as [q n]. destruct H as (He & Hf & -> & Hd).
  split_and!; [done|done|lia|]. by rewrite Hd.
Qed.

(** *** Witnesses *)

Definition dirty_parser : http_parser := mkHttpParser 7 7 7 7 7 7 7 7 7 7 7.
Definition decimal (s : bytes) : option Z := if forallb HttpSpec.is_digit s then Some (dec_value s) else None.

Lemma sample_sendable : sendable sample_request.
Proof.
  constructor; try done; try by right.
  - exists (str "a"). split_and!; [done| |done]. by apply (uri_textb_ok _ 1).
  - by apply (uri_textb_ok _ 3).
  - constructor.
  - apply sample_valid.
Qed.

Lemma request_roundtrip_witness : exists r' w' hs',
  @recvRequest pipe _ zeroed http_parser (http_machine dirty_parser) decimal 0 100
      ((rq_dump sample_request, []), session0 0) = Ok (Some r') (w', hs') /\
    same_request sample_request r' /\ incoming w' = [] /\ hs_stream hs' = hs_stream (session0 0).
Proof.
  apply (@request_roundtrip pipe _ _ _ zeroed dirty_parser decimal 0 100 sample_request (rq_dump sample_request, []) (session0 0)
    sample_sendable).
  - reflexivity.
  - reflexivity.
  - lia.
  - intros _. reflexivity.
  - vm_compute. discriminate.
  - vm_compute. reflexivity.
  - split; [vm_compute; discriminate|lia].
  - reflexivity.
Defined.

Lemma header_line_swallowed_witness :
  let mem := str "GET / HTTP/1.1" ++ CRLF ++ str "Foo" ++ CRLF ++ str "Bar" ++ str ":" ++ str "x" ++ CRLF ++ CRLF ++ [] in
  let '(q, n) := @qp_execute _ (http_machine dirty_parser) (@new_HttpRequestParser _ (http_machine dirty_parser)) mem (Z.of_nat (length mem)) 0 in
  @qp_hasError _ (http_machine dirty_parser) q = false /\ @qp_isFinished _ (http_machine dirty_parser) q <> 0 /\
  n = Z.of_nat (length mem - length (@nil byte)) /\ rq_headers (qp_data q) = [(str "Foo" ++ CRLF ++ str "Bar", str "x")].
Proof.
  apply (header_line_swallowed dirty_parser (str "Foo") (str "Bar") (str "x") []).
  - discriminate.
  - reflexivity.
  - reflexivity.
  - reflexivity.
  - reflexivity.
  - vm_compute. reflexivity.
Defined.
