(* ===== verification/HttpClientParser.v ===== *)
(** * httpclient_parser (src/wyze/http/httpclient_parser.h, src/wyze/http/httpclient_parser.cpp)

    The struct, its actions, and the functions around the machine of HttpClientTable, as in
    Http11Parser.  The machine reads the head of a response or the header of a chunk.  The
    callbacks are the ones HttpResponseParser registers. *)

From S2P Require Import Prelude Http HttpParser HttpConnection Ragel HttpClientTable Digits Http11Parser.

Record httpclient_parser := mkClientParser {
  hc_cs : Z; hc_body_start : Z; hc_content_len : Z; hc_status : Z; hc_chunked : Z; hc_chunks_done : Z; hc_close : Z;
  hc_nread : Z; hc_mark : Z; hc_field_start : Z; hc_field_len : Z }.

Definition httpclient_parser_start : Z := 1.
Definition httpclient_parser_first_final : Z := 120.
Definition httpclient_parser_error : Z := 0.

(** [httpclient_parser_init], on the memory [raw]: it sets all but [status]. *)
Definition httpclient_parser_init (raw : httpclient_parser) : httpclient_parser :=
  mkClientParser httpclient_parser_start 0 (-1) (hc_status raw) 0 0 0 0 0 0 0.

Definition hc_with_cs (s : httpclient_parser) v := mkClientParser v (hc_body_start s) (hc_content_len s) (hc_status s)
  (hc_chunked s) (hc_chunks_done s) (hc_close s) (hc_nread s) (hc_mark s) (hc_field_start s) (hc_field_len s).
Definition hc_with_body_start (s : httpclient_parser) v := mkClientParser (hc_cs s) v (hc_content_len s) (hc_status s)
  (hc_chunked s) (hc_chunks_done s) (hc_close s) (hc_nread s) (hc_mark s) (hc_field_start s) (hc_field_len s).
Definition hc_with_content_len (s : httpclient_parser) v := mkClientParser (hc_cs s) (hc_body_start s) v (hc_status s)
  (hc_chunked s) (hc_chunks_done s) (hc_close s) (hc_nread s) (hc_mark s) (hc_field_start s) (hc_field_len s).
Definition hc_with_status (s : httpclient_parser) v := mkClientParser (hc_cs s) (hc_body_start s) (hc_content_len s) v
  (hc_chunked s) (hc_chunks_done s) (hc_close s) (hc_nread s) (hc_mark s) (hc_field_start s) (hc_field_len s).
Definition hc_with_chunked (s : httpclient_parser) v := mkClientParser (hc_cs s) (hc_body_start s) (hc_content_len s)
  (hc_status s) v (hc_chunks_done s) (hc_close s) (hc_nread s) (hc_mark s) (hc_field_start s) (hc_field_len s).
Definition hc_with_chunks_done (s : httpclient_parser) v := mkClientParser (hc_cs s) (hc_body_start s) (hc_content_len s)
  (hc_status s) (hc_chunked s) v (hc_close s) (hc_nread s) (hc_mark s) (hc_field_start s) (hc_field_len s).
Definition hc_with_close (s : httpclient_parser) v := mkClientParser (hc_cs s) (hc_body_start s) (hc_content_len s)
  (hc_status s) (hc_chunked s) (hc_chunks_done s) v (hc_nread s) (hc_mark s) (hc_field_start s) (hc_field_len s).
Definition hc_with_nread (s : httpclient_parser) v := mkClientParser (hc_cs s) (hc_body_start s) (hc_content_len s)
  (hc_status s) (hc_chunked s) (hc_chunks_done s) (hc_close s) v (hc_mark s) (hc_field_start s) (hc_field_len s).
Definition hc_with_mark (s : httpclient_parser) v := mkClientParser (hc_cs s) (hc_body_start s) (hc_content_len s)
  (hc_status s) (hc_chunked s) (hc_chunks_done s) (hc_close s) (hc_nread s) v (hc_field_start s) (hc_field_len s).
Definition hc_with_field_start (s : httpclient_parser) v := mkClientParser (hc_cs s) (hc_body_start s) (hc_content_len s)
  (hc_status s) (hc_chunked s) (hc_chunks_done s) (hc_close s) (hc_nread s) (hc_mark s) v (hc_field_len s).
Definition hc_with_field_len (s : httpclient_parser) v := mkClientParser (hc_cs s) (hc_body_start s) (hc_content_len s)
  (hc_status s) (hc_chunked s) (hc_chunks_done s) (hc_close s) (hc_nread s) (hc_mark s) (hc_field_start s) v.

Abbreviation CM := (M (httpclient_parser * list call)).

Section act.
Context (buffer : bytes) (pe : Z).

Definition client_set (f : httpclient_parser -> httpclient_parser) : CM unit := modify (fun s => (f (fst s), snd s)).
Definition client_log (c : call) : CM unit := modify (fun s => (fst s, snd s ++ [c])).
Definition client_element (f : bytes -> nat -> call) (start p : Z) : CM unit :=
  a <- PTR_TO buffer start ;; n <- readable a (LEN start p) ;; client_log (f a n).
(** [strtol(PTR_TO(mark), NULL, base)], stored in an [int] *)
Definition number (base start : Z) : CM Z :=
  a <- PTR_TO buffer start ;; v <- or_undef out_of_bounds (strtol base a) ;; ret (s32 v).

Definition client_act (a : client_action) (p : Z) : CM unit :=
  s <- get ;;
  let h := fst s in
  match a with
  | c_mark | c_start_value => client_set (fun h => hc_with_mark h p)
  | c_start_field => client_set (fun h => hc_with_field_start h p)
  | c_write_field => client_set (fun h => hc_with_field_len h (LEN (hc_field_start h) p))
  | c_write_content_len => v <- number 10 (hc_mark h) ;; client_set (fun h => hc_with_content_len h v)
  | c_write_connection_close => client_set (fun h => hc_with_close h 1)
  | c_write_value =>
      f <- PTR_TO buffer (hc_field_start h) ;; fl <- readable f (hc_field_len h) ;;
      v <- PTR_TO buffer (hc_mark h) ;; vl <- readable v (LEN (hc_mark h) p) ;;
      client_log (http_field f fl v vl)
  | c_reason_phrase => client_element reason_phrase (hc_mark h) p
  | c_status_code =>
      v <- number 10 (hc_mark h) ;; client_set (fun h => hc_with_status h v) ;;;
      client_element status_code (hc_mark h) p
  | c_http_version => client_element http_version (hc_mark h) p
  | c_chunk_size =>
      client_set (fun h => hc_with_chunked h 1) ;;;
      v <- number 16 (hc_mark h) ;;
      client_set (fun h => hc_with_chunks_done (hc_with_content_len h v) (if v <=? 0 then 1 else 0)) ;;;
      if v <=? 0 then client_element last_chunk (hc_mark h) p else client_element chunk_size (hc_mark h) p
  | c_trans_chunked => client_set (fun h => hc_with_chunked h 1)
  | c_done =>
      client_set (fun h => hc_with_body_start h (p + 1)) ;;;
      a <- PTR_TO buffer (p + 1) ;; n <- readable a (pe - p - 1) ;; client_log (header_done a n)
  end.
End act.

(** [httpclient_parser_execute(parser, buffer, len, off)] *)
Definition httpclient_parser_execute (buffer : bytes) (len off : Z) : CM Z :=
  s <- get ;;
  assert_ (off <=? len) "offset past end of buffer" ;;;
  nul <- or_undef out_of_bounds (buffer !! Z.to_nat len) ;;
  assert_ (byte.unsigned nul =? 0) "pointer does not end on NUL" ;;;
  assert_ (len - off =? s32 len - s32 off) "pointers aren't same distance" ;;;
  r <- exec client_blocks (client_act buffer len) 2 (hc_cs (fst s)) off
         (slice (Z.to_nat off) (Z.to_nat (len - off)) buffer) ;;
  let '(cs, p, _) := r in
  client_set (fun h => hc_with_cs h cs) ;;;
  client_set (fun h => hc_with_nread h (u64 (hc_nread h + (p - off)))) ;;;
  s <- get ;;
  let h := fst s in
  assert_ (p <=? len) "buffer overflow after parsing execute" ;;;
  assert_ (hc_nread h <=? len) "nread longer than length" ;;;
  assert_ (hc_body_start h <=? len) "body starts after buffer end" ;;;
  if negb (hc_mark h <? len) || negb (hc_field_len h <=? len) || negb (hc_field_start h <? len) then ret (-1)
  else ret (s32 (hc_nread h)).

Definition httpclient_parser_has_error (h : httpclient_parser) : bool := hc_cs h =? httpclient_parser_error.
Definition httpclient_parser_is_finished (h : httpclient_parser) : bool := hc_cs h =? httpclient_parser_first_final.
Definition httpclient_parser_finish (h : httpclient_parser) : Z :=
  if httpclient_parser_has_error h then -1 else if httpclient_parser_is_finished h then 1 else 0.

(** The machine of HttpResponseParser.  [HttpResponseParser::execute] converts the [int] to
    [size_t].  A run that fails an assertion does not return; this instance leaves the parser
    as it was then. *)
Definition client_machine_execute (h : httpclient_parser) (buffer : bytes) (len off : Z)
    : httpclient_parser * Z * list call :=
  match httpclient_parser_execute buffer len off (h, []) with
  | Ok n (h, calls) => (h, u64 n, calls)
  | _ => (h, 0, [])
  end.
Definition client_machine (raw : httpclient_parser) : Machine httpclient_parser := {|
  mc_init := httpclient_parser_init raw; mc_execute := client_machine_execute;
  mc_finish := httpclient_parser_finish; mc_has_error := httpclient_parser_has_error |}.
#[export] Instance client_fields (raw : httpclient_parser) : @ClientMachine httpclient_parser (client_machine raw) := {
  cm_chunked h := negb (hc_chunked h =? 0); cm_content_len := hc_content_len;
  cm_chunks_done h := negb (hc_chunks_done h =? 0) }.
