(* ===== verification/HttpClientSpec.v ===== *)
(** * What the response machine promises

    On a path that avoids two states, runs never fail and depend only on the bytes read.  In
    those two, which follow an empty Content-Length or Transfer-Encoding, [write_value] uses a
    field length that belongs to another field. *)

From S2P Require Import Prelude Http HttpSpec HttpParser HttpConnection Ragel RagelSpec RagelRun HttpClientTable.
From S2P Require Import Digits Http11Parser Http11Spec HttpClientParser.

#[export] Instance client_action_eq_dec : EqDecision client_action.
Proof. solve_decision. Defined.

(** ** What states know *)

(** The text from [mark] on: nothing known, nothing yet, hexadecimal or decimal digits. *)
Inductive text_kind := Any | Start | Hex | Dec.
#[export] Instance text_kind_eq_dec : EqDecision text_kind.
Proof. solve_decision. Defined.

Definition adv_kind (b : byte) (k : text_kind) : text_kind :=
  match k with
  | Any => Any
  | Start | Dec => if is_dec b then Dec else if is_hex b then Hex else Any
  | Hex => if is_hex b then Hex else Any
  end.
Definition le_kind (x y : text_kind) : bool :=
  match x with
  | Any => true
  | Hex => bool_decide (y = Hex) || bool_decide (y = Dec)
  | x => bool_decide (x = y)
  end.

Definition client_field_ready (cs : Z) : bool :=
  let from_to a b := (a <=? cs) && (cs <=? b) in
  negb (from_to 20 21 || from_to 24 34 || from_to 43 60 || (cs =? 71) || from_to 73 79 || (cs =? 88) || from_to 90 94 ||
        from_to 101 111 || (cs =? 0) || (cs =? 3) || (cs =? 5) || (cs =? 120)).
Definition client_kind (cs : Z) : text_kind :=
  if existsb (Z.eqb cs) [17; 115; 119] then Dec else if cs =? 2 then Hex else Any.
Definition client_flags (cs : Z) : bool * text_kind := (client_field_ready cs, client_kind cs).
Definition client_le (x y : bool * text_kind) : bool := implb (fst x) (fst y) && le_kind (snd x) (snd y).
Definition client_adv (b : byte) (f : bool * text_kind) : bool * text_kind := (fst f, adv_kind b (snd f)).

Definition client_flow (b : byte) (a : client_action) (f : bool * text_kind) : option (bool * text_kind) :=
  let '(fd, k) := f in
  match a with
  | c_mark | c_start_value => Some (fd, Start)
  | c_start_field => Some (false, k)
  | c_write_field => Some (true, k)
  | c_write_value => if fd then Some f else None
  | c_write_content_len | c_status_code => if bool_decide (k = Dec) && negb (is_dec b) then Some f else None
  | c_chunk_size => if (bool_decide (k = Dec) || bool_decide (k = Hex)) && negb (is_hex b) && negb (is_x b) then Some f else None
  | _ => Some f
  end.

(** The states in which a field that was just begun may end as the value of an older one. *)
Definition client_good (cs : Z) : bool := negb ((cs =? 79) || (cs =? 117)).

Lemma client_table_ok : checked (table_ok client_blocks 120 123 client_flow client_adv client_flags client_le client_good).
Proof. apply Checked. vm_compute. reflexivity. Qed.

(** ** Positions *)

Record marked (fd : bool) (p : Z) (h : httpclient_parser) : Prop := {
  m_mark : 0 <= hc_mark h <= p;
  m_start : 0 <= hc_field_start h <= p;
  m_len : 0 <= hc_field_len h <= p;
  m_body : 0 <= hc_body_start h <= p + 1;
  m_field : fd = true -> hc_field_start h + hc_field_len h <= p }.

Lemma marked_mono fd fd' p p' h : marked fd p h -> p <= p' -> implb fd' fd = true -> marked fd' p' h.
Proof.
  intros [? ? ? ? Hf] Hp Hi. split; try lia. intros ->. cbn in Hi. specialize (Hf Hi). lia.
Qed.

(** The text from [m] to [p] *)
Definition between_text (buffer : bytes) (m p : Z) : bytes := slice (Z.to_nat m) (Z.to_nat (p - m)) buffer.
Definition kind_ok (buffer : bytes) (k : text_kind) (p : Z) (h : httpclient_parser) : Prop :=
  match k with
  | Any => True
  | Start => hc_mark h = p
  | Hex => hc_mark h < p /\ all_in is_hex (between_text buffer (hc_mark h) p)
  | Dec => hc_mark h < p /\ all_in is_dec (between_text buffer (hc_mark h) p)
  end.

Lemma between_next buffer m p b : 0 <= m <= p -> buffer !! Z.to_nat p = Some b ->
  between_text buffer m (p + 1) = between_text buffer m p ++ [b].
Proof.
  intros Hm Hb. unfold between_text. replace (Z.to_nat (p + 1 - m)) with (Z.to_nat (p - m) + 1)%nat by lia.
  rewrite slice_split. f_equal. replace (Z.to_nat m + Z.to_nat (p - m))%nat with (Z.to_nat p) by lia.
  unfold slice. rewrite <- (Nat.add_0_r (Z.to_nat p)), <- lookup_drop in Hb.
  destruct (drop (Z.to_nat p) buffer); [done|]. cbn in *. injection Hb as ->. done.
Qed.

Lemma kind_weaken buffer k k' p h : kind_ok buffer k p h -> le_kind k' k = true -> kind_ok buffer k' p h.
Proof.
  intros Hk Hle. destruct k'; cbn in *; [done|by apply bool_decide_eq_true in Hle as <-| |by apply bool_decide_eq_true in Hle as <-].
  destruct k; try done. destruct Hk as [? ?]. split; [done|]. by apply all_dec_hex.
Qed.

Lemma kind_next buffer k p h b : kind_ok buffer k p h -> 0 <= hc_mark h <= p -> buffer !! Z.to_nat p = Some b ->
  kind_ok buffer (adv_kind b k) (p + 1) h.
Proof.
  intros Hk Hm Hb.
  assert (forall cls : byte -> bool, (hc_mark h = p \/ all_in cls (between_text buffer (hc_mark h) p)) -> cls b = true ->
    hc_mark h < p + 1 /\ all_in cls (between_text buffer (hc_mark h) (p + 1))) as H.
  { intros cls Hcls Hc. split; [lia|]. rewrite (between_next _ _ _ b) by done. apply all_in_app. split; [|by apply all_in_cons].
    destruct Hcls as [->|?]; [|done]. unfold between_text. by rewrite Z.sub_diag. }
  destruct k; cbn [adv_kind]; [done|..].
  - destruct (is_dec b) eqn:Ed; [apply H; [by left|done]|]. destruct (is_hex b) eqn:Eh; [|done]. apply H; [by left|done].
  - destruct Hk as [? Hk]. destruct (is_hex b) eqn:Eh; [|done]. apply H; [by right|done].
  - destruct Hk as [? Hk]. destruct (is_dec b) eqn:Ed; [apply H; [by right|done]|]. destruct (is_hex b) eqn:Eh; [|done].
    apply H; [|done]. right. by apply all_dec_hex.
Qed.

Definition c_during (buffer : bytes) (f : bool * text_kind) (p : Z) (h : httpclient_parser) : Prop :=
  marked (fst f) p h /\ kind_ok buffer (snd f) p h.
Definition c_settled (buffer : bytes) (f : bool * text_kind) (p : Z) (h : httpclient_parser) : Prop :=
  0 <= p /\ marked (fst f) (Z.max 0 (p - 1)) h /\ kind_ok buffer (snd f) p h.
Definition same_tag (h h' : httpclient_parser) : Prop := hc_cs h' = hc_cs h /\ hc_nread h' = hc_nread h.
#[export] Instance same_tag_preorder : PreOrder same_tag.
Proof. split; [done|]. intros h1 h2 h3 (?&?) (?&?). split; congruence. Qed.

(** ** Actions *)

Section acts.
Context (buffer : bytes) (len : Z).

(** [strtol] from [mark], as an [int]; 0 where it has no value. *)
Definition num_at (base m : Z) : Z := s32 (default 0 (strtol base (drop (Z.to_nat m) buffer))).
Definition client_act_h (a : client_action) (p : Z) (h : httpclient_parser) : httpclient_parser :=
  match a with
  | c_mark | c_start_value => hc_with_mark h p
  | c_start_field => hc_with_field_start h p
  | c_write_field => hc_with_field_len h (p - hc_field_start h)
  | c_write_content_len => hc_with_content_len h (num_at 10 (hc_mark h))
  | c_write_connection_close => hc_with_close h 1
  | c_status_code => hc_with_status h (num_at 10 (hc_mark h))
  | c_chunk_size => let v := num_at 16 (hc_mark h) in
      hc_with_chunks_done (hc_with_content_len (hc_with_chunked h 1) v) (if v <=? 0 then 1 else 0)
  | c_trans_chunked => hc_with_chunked h 1
  | c_done => hc_with_body_start h (p + 1)
  | _ => h
  end.
Definition client_act_calls (a : client_action) (p : Z) (h : httpclient_parser) : list call :=
  let el (f : bytes -> nat -> call) := [f (drop (Z.to_nat (hc_mark h)) buffer) (Z.to_nat (p - hc_mark h))] in
  match a with
  | c_write_value => [http_field (drop (Z.to_nat (hc_field_start h)) buffer) (Z.to_nat (hc_field_len h))
                        (drop (Z.to_nat (hc_mark h)) buffer) (Z.to_nat (p - hc_mark h))]
  | c_reason_phrase => el reason_phrase
  | c_status_code => el status_code
  | c_http_version => el http_version
  | c_chunk_size => if num_at 16 (hc_mark h) <=? 0 then el last_chunk else el chunk_size
  | c_done => [header_done (drop (Z.to_nat (p + 1)) buffer) (Z.to_nat (len - p - 1))]
  | _ => []
  end.

Context (Hint : fits_int buffer len).

Lemma client_element_ok f start p h c : 0 <= start <= p -> p < len ->
  client_element buffer f start p (h, c) =
    Ok tt (h, c ++ [f (drop (Z.to_nat start) buffer) (Z.to_nat (p - start))]).
Proof.
  destruct Hint as [Hl H31]. intros Hs Hp. unfold client_element.
  run (PTR_TO_ok buffer start (h, c) ltac:(lia)). rewrite LEN_ok by lia.
  by run (readable_ok buffer start (p - start) (h, c) ltac:(lia) ltac:(lia) ltac:(lia)).
Qed.

Lemma number_ok base m (h : httpclient_parser) (c : list call) : 0 <= m <= Z.of_nat (length buffer) ->
  strtol base (drop (Z.to_nat m) buffer) <> None ->
  number buffer base m (h, c) = Ok (num_at base m) (h, c).
Proof.
  intros Hm Hs. unfold number, num_at. run (PTR_TO_ok buffer m (h, c) Hm).
  by destruct (strtol base _).
Qed.

(** The text from [mark] to [p], when it is a number that ends at [p]. *)
Lemma text_split m p b : 0 <= m < p -> buffer !! Z.to_nat p = Some b ->
  drop (Z.to_nat m) buffer = between_text buffer m p ++ b :: drop (Z.to_nat p + 1) buffer /\
  between_text buffer m p <> [].
Proof.
  intros Hm Hb. assert (Z.to_nat p < length buffer)%nat as Hl by by apply lookup_lt_Some in Hb. split.
  - unfold between_text, slice. rewrite <- (take_drop (Z.to_nat (p - m)) (drop (Z.to_nat m) buffer)) at 1. f_equal.
    rewrite drop_drop. replace (Z.to_nat m + Z.to_nat (p - m))%nat with (Z.to_nat p) by lia.
    rewrite <- drop_drop. rewrite <- (Nat.add_0_r (Z.to_nat p)), <- lookup_drop in Hb.
    destruct (drop (Z.to_nat p) buffer); [done|]. cbn in *. injection Hb as ->. by rewrite drop_0.
  - intros E. assert (length (between_text buffer m p) = 0%nat) as L by by rewrite E.
    unfold between_text in L. rewrite length_slice in L by lia. lia.
Qed.

Lemma strtol_here base m p b : base = 10 \/ base = 16 -> 0 <= m < p -> buffer !! Z.to_nat p = Some b ->
  all_in (fun b => match digit_value base b with Some _ => true | None => false end) (between_text buffer m p) ->
  digit_value base b = None -> is_x b = false \/ base = 10 ->
  strtol base (drop (Z.to_nat m) buffer) = Some (clamp_long (value_of base (between_text buffer m p))).
Proof.
  intros Hbase Hm Hb Hall Hn Hx. destruct (text_split m p b Hm Hb) as [-> Hne]. apply strtol_digits; try done.
  intros d Hd. unfold all_in in Hall. rewrite forallb_forall in Hall. specialize (Hall d Hd). by destruct (digit_value base d).
Qed.

(** What an action that is used as the table uses it does. *)
Lemma client_act_ok a f f' p h c b : c_during buffer f p h -> client_flow b a f = Some f' ->
  buffer !! Z.to_nat p = Some b -> 0 <= p < len ->
  client_act buffer len a p (h, c) = Ok tt (client_act_h a p h, c ++ client_act_calls a p h).
Proof.
  destruct Hint as [Hl H31]. intros [[M1 M2 M3 M4 M5] K] Hf Hb Hp. destruct f as [fd k]. cbn [fst snd] in *.
  unfold client_act. rewrite (bind_ok get _ (h, c) (h, c) (h, c)) by done. cbv zeta.
  destruct a; cbn [client_flow client_act_h client_act_calls fst snd] in *;
    try (rewrite app_nil_r; unfold client_set, modify; cbn [fst snd]; try done).
  - by rewrite LEN_ok by lia.
  - case_bool_decide as Ek; [subst k|done]. destruct (is_dec b) eqn:Ed; [done|]. destruct K as [K1 K2].
    rewrite (bind_ok _ _ _ _ _ (number_ok 10 (hc_mark h) h c ltac:(lia) ltac:(rewrite (strtol_here 10 _ p b);
      [done|by left|lia|done|done|unfold is_dec in Ed; by destruct (digit_value 10 b)|by right]))). done.
  - destruct fd; [|done]. specialize (M5 eq_refl).
    run (PTR_TO_ok buffer (hc_field_start h) (h, c) ltac:(lia)).
    run (readable_ok buffer (hc_field_start h) (hc_field_len h) (h, c) ltac:(lia) ltac:(lia) ltac:(lia)).
    run (PTR_TO_ok buffer (hc_mark h) (h, c) ltac:(lia)). rewrite LEN_ok by lia.
    by run (readable_ok buffer (hc_mark h) (p - hc_mark h) (h, c) ltac:(lia) ltac:(lia) ltac:(lia)).
  - by rewrite client_element_ok by lia.
  - case_bool_decide as Ek; [subst k|done]. destruct (is_dec b) eqn:Ed; [done|]. destruct K as [K1 K2].
    rewrite (bind_ok _ _ _ _ _ (number_ok 10 (hc_mark h) h c ltac:(lia) ltac:(rewrite (strtol_here 10 _ p b);
      [done|by left|lia|done|done|unfold is_dec in Ed; by destruct (digit_value 10 b)|by right]))).
    unfold client_set. rewrite bind_modify. cbn [fst snd]. by rewrite client_element_ok by lia.
  - by rewrite client_element_ok by lia.
  - destruct (is_hex b) eqn:Ed; [by rewrite andb_false_r in Hf|]. destruct (is_x b) eqn:Ex; [by rewrite andb_false_r in Hf|].
    assert (hc_mark h < p /\ all_in is_hex (between_text buffer (hc_mark h) p)) as [K1 K2].
    { destruct (bool_decide (k = Dec) || bool_decide (k = Hex)) eqn:Ek; [|done].
      apply orb_true_iff in Ek as [->%bool_decide_eq_true| ->%bool_decide_eq_true]; destruct K as [? K]; (split; [done|]);
        [by apply all_dec_hex|done]. }
    unfold client_set. rewrite bind_modify. cbn [fst snd].
    rewrite (bind_ok _ _ _ _ _ (number_ok 16 (hc_mark h) (hc_with_chunked h 1) c ltac:(lia) ltac:(rewrite (strtol_here 16 _ p b);
      [done|by right|lia|done|done|unfold is_hex in Ed; by destruct (digit_value 16 b)|by left]))).
    unfold client_set. rewrite bind_modify. cbn [fst snd].
    destruct (num_at 16 (hc_mark h) <=? 0); by rewrite client_element_ok by lia.
  - unfold client_set. rewrite bind_modify. cbn [fst snd].
    run (PTR_TO_ok buffer (p + 1) (hc_with_body_start h (p + 1), c) ltac:(lia)).
    by run (readable_ok buffer (p + 1) (len - p - 1) (hc_with_body_start h (p + 1), c) ltac:(lia) ltac:(lia) ltac:(lia)).
Qed.
End acts.

Lemma client_act_during buffer a f f' p h b : c_during buffer f p h -> client_flow b a f = Some f' -> 0 <= p ->
  c_during buffer f' p (client_act_h buffer a p h) /\ same_tag h (client_act_h buffer a p h).
Proof.
  intros [[M1 M2 M3 M4 M5] K] Hf Hp. destruct f as [fd k]. cbn [fst snd] in *. split; [|by destruct a].
  destruct a; cbn [client_flow client_act_h] in *; repeat case_match; simplify_eq;
    (split; cbn [fst snd]; [constructor; cbn; first [done|lia]|done]).
Qed.

(** Two memories that agree on what was read. *)
Lemma drop_alike q (b1 b2 : bytes) start n : agree q b1 b2 -> 0 <= start -> start + Z.of_nat n <= q ->
  take n (drop (Z.to_nat start) b1) = take n (drop (Z.to_nat start) b2).
Proof. intros Ag Hs Hn. exact (from_alike b1 b2 q Ag start n Hs Hn). Qed.

Lemma between_alike q b1 b2 m p : agree q b1 b2 -> 0 <= m <= p -> p <= q -> between_text b1 m p = between_text b2 m p.
Proof. intros Ag Hm Hp. unfold between_text, slice. apply (drop_alike q); [done|lia..]. Qed.

Lemma lookup_alike q (b1 b2 : bytes) p : agree q b1 b2 -> 0 <= p < q -> b1 !! Z.to_nat p = b2 !! Z.to_nat p.
Proof.
  intros Ag Hp. rewrite <- (lookup_take_lt b1 (Z.to_nat q)), <- (lookup_take_lt b2 (Z.to_nat q)) by lia. by rewrite Ag.
Qed.

Lemma num_alike q base b1 b2 m p b : base = 10 \/ base = 16 -> agree q b1 b2 -> 0 <= m < p -> p < q ->
  b1 !! Z.to_nat p = Some b ->
  all_in (fun b => match digit_value base b with Some _ => true | None => false end) (between_text b1 m p) ->
  digit_value base b = None -> is_x b = false \/ base = 10 -> num_at b1 base m = num_at b2 base m.
Proof.
  intros Hbase Ag Hm Hp Hb Hall Hn Hx. unfold num_at.
  rewrite (strtol_here b1 base m p b), (strtol_here b2 base m p b), (between_alike q b1 b2) by
    (done || lia || (by rewrite <- (lookup_alike q b1 b2) by (done || lia)) || (by rewrite <- (between_alike q b1 b2) by (done || lia))).
  done.
Qed.

Lemma client_h_alike q b1 b2 a f f' p h b : agree q b1 b2 -> c_during b1 f p h -> client_flow b a f = Some f' ->
  b1 !! Z.to_nat p = Some b -> 0 <= p < q -> client_act_h b1 a p h = client_act_h b2 a p h.
Proof.
  intros Ag [[M1 M2 M3 M4 M5] K] Hf Hb Hp. destruct f as [fd k]. cbn [fst snd] in *.
  destruct a; cbn [client_flow client_act_h] in *; try done.
  1,2: case_bool_decide as Ek; [subst k|done]; destruct (is_dec b) eqn:Ed; [done|]; destruct K as [K1 K2];
    (assert (digit_value 10 b = None) as En by (unfold is_dec in Ed; by destruct (digit_value 10 b)));
    by rewrite (num_alike q 10 b1 b2 (hc_mark h) p b) by (done || lia || by left || by right).
  destruct (is_hex b) eqn:Ed; [by rewrite andb_false_r in Hf|]. destruct (is_x b) eqn:Ex; [by rewrite andb_false_r in Hf|].
  assert (hc_mark h < p /\ all_in is_hex (between_text b1 (hc_mark h) p)) as [K1 K2].
  { destruct (bool_decide (k = Dec) || bool_decide (k = Hex)) eqn:Ek; [|done].
    apply orb_true_iff in Ek as [->%bool_decide_eq_true| ->%bool_decide_eq_true]; destruct K as [? K]; (split; [done|]);
      [by apply all_dec_hex|done]. }
  assert (digit_value 16 b = None) as En by (unfold is_hex in Ed; by destruct (digit_value 16 b)).
  by rewrite (num_alike q 16 b1 b2 (hc_mark h) p b) by (done || lia || by left || by right).
Qed.

Lemma client_calls_alike q b1 b2 len1 len2 a f f' p h b : agree q b1 b2 -> c_during b1 f p h ->
  client_flow b a f = Some f' -> b1 !! Z.to_nat p = Some b -> 0 <= p < q ->
  map cut (client_act_calls b1 len1 a p h) = map cut (client_act_calls b2 len2 a p h).
Proof.
  intros Ag D Hf Hb Hp. pose proof (client_h_alike q b1 b2 a f f' p h b Ag D Hf Hb Hp) as Eh.
  destruct D as [[M1 M2 M3 M4 M5] K]. destruct f as [fd k]. cbn [fst snd] in *.
  destruct a; cbn [client_flow client_act_h client_act_calls map cut] in *; try done.
  all: try (rewrite (drop_alike q b1 b2 (hc_mark h)) by (done || lia); done).
  - destruct fd; [|done]. specialize (M5 eq_refl).
    by rewrite (drop_alike q b1 b2 (hc_mark h)), (drop_alike q b1 b2 (hc_field_start h)) by (done || lia).
  - injection Eh as En _. rewrite En.
    destruct (num_at b2 16 (hc_mark h) <=? 0); cbn [map cut]; by rewrite (drop_alike q b1 b2 (hc_mark h)) by (done || lia).
Qed.

Lemma client_laws : Laws client_flow client_adv client_flags client_le client_act cut c_during c_settled same_tag.
Proof.
  split.
  - intros buffer f p h (Hp & M & K). split; [done|]. split; [|done]. by apply (marked_mono (fst f) _ (Z.max 0 (p - 1))).
  - intros buffer f p h (Hp & M & K). split; [done|]. split; [|done].
    apply (marked_mono (fst f) (fst f) (Z.max 0 (p - 1))); [done|lia|apply implb_same].
  - intros buffer f f' p h b [M K] Hp Hb [Hf Hk]%andb_true_iff. split; [lia|]. split.
    + apply (marked_mono (fst f) _ p); [done|lia|done].
    + eapply kind_weaken; [|exact Hk]. apply (kind_next _ _ _ _ b); [done| |done]. by destruct M.
  - intros b1 len1 b2 len2 q b a f f' p h c1 c2 F1 F2 Q1 Q2 Ag D Hb Hf Hp.
    destruct (client_act_during b1 a f f' p h b D Hf ltac:(lia)) as [D' Hs].
    pose proof (client_h_alike q b1 b2 a f f' p h b Ag D Hf Hb Hp) as Eh.
    exists (client_act_h b1 a p h), (client_act_calls b1 len1 a p h), (client_act_calls b2 len2 a p h).
    split_and!; [eapply (client_act_ok b1 len1); try done; lia| |by eapply client_calls_alike|done|done].
    rewrite Eh. eapply (client_act_ok b2 len2); [done| |done|by rewrite <- (lookup_alike q b1 b2) by (done || lia)|lia].
    destruct D as [M K]. split; [done|]. destruct M as [M1 _ _ _ _].
    destruct (snd f); cbn in *; rewrite <- ?(between_alike q b1 b2) by (done || lia); done.
Qed.

(** ** [httpclient_parser_execute] *)

Abbreviation c_rest := (RagelRun.rest client_flags c_settled).
Abbreviation c_known := (RagelRun.known 123).
Abbreviation c_stays := (stays client_blocks client_good).
Definition c_re (cs n : Z) (h : httpclient_parser) : httpclient_parser := hc_with_nread (hc_with_cs h cs) n.

(** The parser between two calls. *)
Definition c_between (buffer : bytes) (n : Z) (h : httpclient_parser) : Prop :=
  c_known (hc_cs h) /\ hc_cs h <> 0 /\ client_good (hc_cs h) = true /\ c_rest buffer (hc_cs h) n h /\ hc_nread h = n.
Definition ends_nul (buffer : bytes) (len : Z) : Prop := buffer !! Z.to_nat len = Some Byte.x00.

Lemma c_settled_tag buffer f p cs n h : c_settled buffer f p h <-> c_settled buffer f p (c_re cs n h).
Proof.
  unfold c_settled. split; intros (Hp & [M1 M2 M3 M4 M5] & K); (split; [done|]); (split; [by constructor|]); by destruct (snd f).
Qed.

(** What a run does is what [execute] reports: its assertions hold. *)
Lemma client_execute_runs buffer len off h c cs p out h1 c1 : fits_int buffer len -> ends_nul buffer len ->
  0 <= off <= len -> hc_nread h = off ->
  exec client_blocks (client_act buffer len) 2 (hc_cs h) off (slice (Z.to_nat off) (Z.to_nat (len - off)) buffer) (h, c) =
    Ok (cs, p, out) (h1, c1) ->
  same_tag h h1 -> c_rest buffer cs p h1 ->
  httpclient_parser_execute buffer len off (h, c) = Ok p (c_re cs p h1, c1) /\ off <= p <= len.
Proof.
  intros [L H31] Hnul Hoff Hn E [S1 S2] (Hp & M & K).
  pose proof (exec_position _ _ _ _ _ _ _ _ _ _ _ E) as [Hpos _]. rewrite length_slice in Hpos by lia.
  destruct M as [M1 M2 M3 M4 M5]. split; [|lia]. unfold httpclient_parser_execute.
  rewrite (bind_ok get _ (h, c) (h, c) (h, c)) by done. cbn [fst]. rewrite assert_ok by (apply Z.leb_le; lia).
  rewrite Hnul. unfold or_undef at 1. rewrite bind_ret, assert_ok by done.
  rewrite assert_ok by (unfold s32; rewrite !swrap_id by fits; apply Z.eqb_refl). run E.
  unfold client_set. rewrite !bind_modify. cbn [fst snd].
  assert (hc_with_nread (hc_with_cs h1 cs) (u64 (hc_nread (hc_with_cs h1 cs) + (p - off))) = c_re cs p h1) as ->.
  { unfold c_re. f_equal. unfold u64. rewrite uwrap_id; cbn; rewrite S2, Hn; try fits; lia. }
  rewrite (bind_ok get _ _ (c_re cs p h1, c1) (c_re cs p h1, c1)) by done. cbv zeta. cbn [fst].
  unfold c_re at 1 2 3 4 5 6. cbn [hc_nread hc_body_start hc_mark hc_field_len hc_field_start hc_with_nread hc_with_cs].
  rewrite !assert_ok by (apply Z.leb_le; lia).
  rewrite (proj2 (Z.ltb_lt (hc_mark h1) len)), (proj2 (Z.ltb_lt (hc_field_start h1) len)), (proj2 (Z.leb_le (hc_field_len h1) len)) by lia.
  cbn [negb orb]. unfold ret. f_equal. unfold s32, c_re. cbn. apply swrap_id; [done|fits].
Qed.

Lemma init_rest raw buffer : c_rest buffer 1 0 (httpclient_parser_init raw).
Proof. split; [done|]. split; [|done]. constructor; done. Qed.
Lemma init_c_between raw buffer : c_between buffer 0 (httpclient_parser_init raw).
Proof. split; [done|]. split; [done|]. split; [done|]. split; [apply init_rest|done]. Qed.

Lemma client_tag buffer len cs n a p h c :
  client_act buffer len a p (c_re cs n h, c) = tag_out (c_re cs n) (client_act buffer len a p (h, c)).
Proof.
  unfold client_act. rewrite !(bind_ok get _ _ _ _ eq_refl). cbv zeta. cbn [fst].
  destruct a; try done.
  all: cbn [hc_mark hc_field_start hc_field_len c_re hc_with_nread hc_with_cs].
  all: unfold client_element, number; repeat first
    [ apply tag_bind; [unfold PTR_TO, readable, or_undef; by repeat case_match|intros]
    | apply tag_bind; [apply tag_bind; [unfold PTR_TO; by case_match|intros]; apply tag_bind;
        [unfold or_undef; by case_match|done]|intros]
    | apply tag_bind; [done|intros] | by case_match | done ].
  case_match; repeat (apply tag_bind; [unfold PTR_TO, readable; by case_match|intros]); done.
Qed.
