(* ===== verification/HttpClientHead.v ===== *)
(** * The heads of responses, and what the machine of HttpClientTable makes of them

    The machine tells Content-Length, Connection and Transfer-Encoding from other fields; the
    states of the four ways to read a field are taken together here, as sets. *)

From S2P Require Import Prelude Containers Http HttpSpec HttpParser Ragel RagelSpec RagelRun HttpClientTable.
From S2P Require Import Digits Http11Parser Http11Spec Http11Head HttpClientParser HttpClientSpec.

(** ** Heads *)

Record rhead := mkRHead {
  rh_minor : bool;                              (* HTTP/1.1 or HTTP/1.0 *)
  rh_status : bytes;                            (* digits *)
  rh_reason : bytes;
  rh_fields : list (bytes * bytes * bytes) }.   (* name, blanks, value *)

Definition rh_version (h : rhead) : bytes := if rh_minor h then str "HTTP/1.1" else str "HTTP/1.0".
Definition rhead_text (h : rhead) : bytes :=
  rh_version h ++ str " " ++ rh_status h ++ str " " ++ rh_reason h ++ CRLF ++
  concat (map field_text (rh_fields h)) ++ CRLF.

Definition rfield_ok (f : bytes * bytes * bytes) : Prop :=
  let '(name, sp, value) := f in
  name <> [] /\ all_in token_char name /\ all_in blank sp /\ all_in value_char value /\
  match value with b :: _ => blank b = false | [] => False end.
Definition rhead_ok (h : rhead) : Prop :=
  rh_status h <> [] /\ all_in is_dec (rh_status h) /\ rh_reason h <> [] /\ all_in value_char (rh_reason h) /\
  Forall rfield_ok (rh_fields h).

(** The field that announces chunks. *)
Definition lower (s : bytes) : list Z := tolower <$> s.
Definition te_name : list Z := lower (str "transfer-encoding").
Definition te_value : list Z := lower (str "chunked").
Definition is_chunked (f : bytes * bytes * bytes) : bool :=
  let '(name, _, value) := f in bool_decide (lower name = te_name) && bool_decide (lower value = te_value).
Definition announces_chunks (h : rhead) : bool := existsb is_chunked (rh_fields h).

Definition rhead_calls (h : rhead) : list call :=
  [tell http_version (rh_version h); status_code (rh_status h ++ str " ") (length (rh_status h));
   tell reason_phrase (rh_reason h)] ++
  map field_call (rh_fields h) ++ [header_done [] 0].

(** ** Sets of states *)

(** Before a line, in a name, behind its colon, in a value, behind the CR. *)
Definition L_ : list Z := [20; 43].
Definition N_ : list Z := [21] ++ (Z.of_nat <$> seq 25 10) ++ (Z.of_nat <$> seq 44 17) ++ (Z.of_nat <$> seq 101 11).
Definition C_ : list Z := [22; 35; 61; 112].
Definition V_ : list Z := [23; 119] ++ (Z.of_nat <$> seq 81 7) ++ (Z.of_nat <$> seq 96 5).
Definition R_ : list Z := [24; 88].
Definition in_ (Q : list Z) (q : Z) : bool := existsb (Z.eqb q) Q.

(** Actions that do not touch the positions. *)
Definition visible (a : client_action) : bool :=
  match a with c_write_content_len | c_write_connection_close | c_trans_chunked => false | _ => true end.
Definition sets_chunked (acts : list client_action) : bool := existsb (fun a => bool_decide (a = c_trans_chunked)) acts.

(** From [Q] every character of [cls] runs, as far as visible, [vis] and leads into [Q'],
    where [P] relates the two states and the character. *)
Definition set_moves (Q : list Z) (cls : byte -> bool) (vis : list client_action) (tc : bool) (Q' : list Z)
    (P : Z -> byte -> Z -> bool) : bool :=
  forallb (fun q => forallb (fun b => implb (cls b)
    match trans client_blocks q b with
    | Some (acts, GOTO n) => in_ Q' n && bool_decide (List.filter visible acts = vis) && eqb (sets_chunked acts) tc &&
        P q b n && (0 <? n) && (n <=? 123) && client_good n
    | _ => false
    end) all_bytes) Q.

Definition anywhere (q : Z) (b : byte) (n : Z) : bool := true.

(** Following a word: the states from [base] on stand for its prefixes. *)
Definition follows (base : Z) (word : list Z) (q : Z) (b : byte) (n : Z) : bool :=
  negb (n =? base) &&
  forallb (fun i => eqb (n =? base + Z.of_nat (S i)) ((q =? base + Z.of_nat i) && bool_decide (word !! S i = Some (tolower b))))
    (seq 0 (length word - 1)).
Definition begins (base : Z) (word : list Z) (from : Z -> bool) (q : Z) (b : byte) (n : Z) : bool :=
  eqb (n =? base) (from q && bool_decide (word !! 0%nat = Some (tolower b))) &&
  forallb (fun i => negb (n =? base + Z.of_nat (S i))) (seq 0 (length word - 1)).
Definition passes (q1 n1 : Z) (q : Z) (b : byte) (n : Z) : bool := eqb (n =? n1) (q =? q1).

Lemma line_name : checked (set_moves L_ token_char [c_start_field] false N_ (begins 44 te_name (fun _ => true))).
Proof. apply Checked. vm_compute. reflexivity. Qed.
Lemma name_name : checked (set_moves N_ token_char [] false N_ (follows 44 te_name)).
Proof. apply Checked. vm_compute. reflexivity. Qed.
Lemma name_colon : checked (set_moves N_ (one_of ":") [c_write_field] false C_ (passes 60 61)).
Proof. apply Checked. vm_compute. reflexivity. Qed.
Lemma colon_blank : checked (set_moves C_ blank [c_start_value] false C_ (passes 61 61)).
Proof. apply Checked. vm_compute. reflexivity. Qed.
Lemma colon_value : checked (set_moves C_ (fun b : byte => value_char b && negb (blank b)) [c_start_value] false V_
  (begins 81 te_value (Z.eqb 61))).
Proof. apply Checked. vm_compute. reflexivity. Qed.
Lemma value_value : checked (set_moves V_ value_char [] false V_ (follows 81 te_value)).
Proof. apply Checked. vm_compute. reflexivity. Qed.
Lemma value_cr : checked (set_moves V_ (lit Byte.x0d) [c_write_value] false (71 :: R_) (passes 87 71)).
Proof. apply Checked. vm_compute. reflexivity. Qed.
Lemma cr_lf : checked (set_moves R_ (lit Byte.x0a) [] false L_ anywhere && set_moves [71] (lit Byte.x0a) [] true L_ anywhere).
Proof. apply Checked. vm_compute. reflexivity. Qed.
Lemma line_end : checked (set_moves L_ (lit Byte.x0d) [] false [3] anywhere) /\
  trans client_blocks 3 Byte.x0a = Some ([c_done], BREAK 120).
Proof. split; [apply Checked|]; vm_compute; reflexivity. Qed.

Fixpoint set_spells (q : Z) (text : bytes) (states : list Z) : bool :=
  match text, states with
  | [], [] => true
  | b :: text, n :: states => set_moves [q] (lit b) [] false [n] anywhere && set_spells n text states
  | _, _ => false
  end.
Lemma version_line (minor : bool) :
  checked (set_moves [1] (lit Byte.x48) [c_mark] false [8] anywhere &&
    set_spells 8 (if minor then str "TTP/1.1" else str "TTP/1.0") [9; 10; 11; 12; 13; 14; 15] &&
    set_moves [15] (one_of " ") [c_http_version] false [16] anywhere).
Proof. destruct minor; apply Checked; vm_compute; reflexivity. Qed.
Lemma status_line :
  checked (set_moves [16] is_dec [c_mark] false [17] anywhere && set_moves [17] is_dec [] false [17] anywhere &&
    set_moves [17] (one_of " ") [c_status_code] false [18] anywhere &&
    set_moves [18] value_char [c_mark] false [19] anywhere && set_moves [19] value_char [] false [19] anywhere &&
    set_moves [19] (lit Byte.x0d) [c_reason_phrase] false [24] anywhere && set_moves [24] (lit Byte.x0a) [] false [20] anywhere).
Proof. apply Checked. vm_compute. reflexivity. Qed.

(** *** Words *)

(** Having read [s] the machine is in the states of [word] exactly when [s] is a prefix of it. *)
Definition tracks (base : Z) (word : list Z) (s : bytes) (q : Z) : Prop :=
  forall i, (i < length word)%nat -> q = base + Z.of_nat i <-> length s = S i /\ lower s = take (S i) word.
Definition elsewhere (base : Z) (word : list Z) (q : Z) : Prop :=
  forall i, (i < length word)%nat -> q <> base + Z.of_nat i.

Lemma follows_at base word q b n i : follows base word q b n = true -> (S i < length word)%nat ->
  n = base + Z.of_nat (S i) <-> q = base + Z.of_nat i /\ word !! S i = Some (tolower b).
Proof.
  intros [_ Hf]%andb_true_iff Hi. rewrite forallb_forall in Hf. specialize (Hf i ltac:(apply in_seq; lia)).
  apply eqb_prop in Hf. rewrite <- Z.eqb_eq, Hf, andb_true_iff, Z.eqb_eq, bool_decide_eq_true. done.
Qed.

Lemma tracks_follow base word s q b n : s <> [] -> tracks base word s q -> follows base word q b n = true ->
  tracks base word (s ++ [b]) n.
Proof.
  intros Hs Ht Hf i Hi. rewrite length_app. cbn [length]. destruct i as [|i].
  - apply andb_true_iff in Hf as [Hn _]. apply negb_true_iff, Z.eqb_neq in Hn.
    split; [lia|]. intros [Hl _]. destruct s; [done|cbn in Hl; lia].
  - rewrite (follows_at _ _ _ _ _ _ Hf Hi), (Ht i ltac:(lia)). unfold lower. rewrite fmap_app. fold (lower s).
    split.
    + intros [[Hl E] Hw]. split; [lia|]. rewrite E. symmetry. by apply take_S_r.
    + intros [Hl E]. assert (length (lower s) = S i) as Ls by (unfold lower; rewrite length_fmap; lia).
      destruct (lookup_lt_is_Some_2 word (S i) Hi) as [x Hx]. rewrite (take_S_r _ _ _ Hx) in E.
      apply app_inj_1 in E as [E Eb]; [|rewrite length_take; lia]. cbn in Eb. injection Eb as ->. split; [split; [lia|done]|done].
Qed.
Lemma elsewhere_follow base word q b n : elsewhere base word q -> follows base word q b n = true -> elsewhere base word n.
Proof.
  intros He Hf [|i] Hi.
  - apply andb_true_iff in Hf as [Hn _]. apply negb_true_iff, Z.eqb_neq in Hn. lia.
  - intros E. apply (follows_at _ _ _ _ _ _ Hf Hi) in E as [E _]. by apply (He i); [lia|].
Qed.
Lemma begins_ok base word from q b n : begins base word from q b n = true ->
  if from q then tracks base word [b] n else elsewhere base word n.
Proof.
  intros [H0 Hf]%andb_true_iff. apply eqb_prop in H0. rewrite forallb_forall in Hf.
  assert (forall i, (S i < length word)%nat -> n <> base + Z.of_nat (S i)) as Hn.
  { intros i Hi. specialize (Hf i ltac:(apply in_seq; lia)). by apply negb_true_iff, Z.eqb_neq in Hf. }
  assert (n = base + Z.of_nat 0 <-> from q = true /\ word !! 0%nat = Some (tolower b)) as H1
    by (rewrite Z.add_0_r, <- Z.eqb_eq, H0, andb_true_iff, bool_decide_eq_true; done).
  destruct (from q) eqn:Ef; intros [|i] Hi.
  - rewrite H1. destruct word as [|x word]; [cbn in Hi; lia|]. cbn. split; [intros [_ [= ->]]; done|].
    intros [_ [= ->]]. done.
  - split; [intros E; by apply Hn in E|]. intros [E _]. done.
  - rewrite H1. by intros [? _].
  - by apply Hn.
Qed.

(** Paths through states that [P] relates. *)
Fixpoint path (P : Z -> byte -> Z -> bool) (q : Z) (xs : bytes) (n : Z) : Prop :=
  match xs with [] => n = q | b :: xs => exists m, P q b m = true /\ path P m xs n end.

Lemma path_tracks base word xs : forall s q n, s <> [] -> tracks base word s q -> path (follows base word) q xs n ->
  tracks base word (s ++ xs) n.
Proof.
  induction xs as [|b xs IH]; intros s q n Hs Ht Hp; [cbn in Hp; subst; by rewrite app_nil_r|].
  destruct Hp as (m & Hm & Hp). rewrite cons_middle, app_assoc. apply (IH _ m); [by destruct s| |done].
  by eapply tracks_follow.
Qed.
Lemma path_elsewhere base word xs : forall q n, elsewhere base word q -> path (follows base word) q xs n ->
  elsewhere base word n.
Proof.
  induction xs as [|b xs IH]; intros q n He Hp; [by cbn in Hp; subst|]. destruct Hp as (m & Hm & Hp).
  apply (IH m); [|done]. by eapply elsewhere_follow.
Qed.
Lemma path_passes q1 xs : forall q n, path (passes q1 q1) q xs n -> n = q1 <-> q = q1.
Proof.
  induction xs as [|b xs IH]; intros q n Hp; [by cbn in Hp; subst|]. destruct Hp as (m & Hm & Hp).
  rewrite (IH m n Hp). unfold passes in Hm. apply eqb_prop in Hm. rewrite <- !Z.eqb_eq, Hm. done.
Qed.

(** In the last state of a word exactly the word was read. *)
Lemma tracks_last base word s q i : length word = S i -> tracks base word s q ->
  q = base + Z.of_nat i <-> lower s = word.
Proof.
  intros Hl Ht. rewrite (Ht i) by lia. rewrite firstn_all2 by lia. split; [by intros [_ ?]|]. intros E. split; [|done].
  rewrite <- Hl, <- E. unfold lower. by rewrite length_fmap.
Qed.

#[local] Opaque exec client_blocks.

Section reading.
Context (buffer : bytes) (len : Z) (F : fits_int buffer len).

(** A run of the machine, and does its path keep to good states? *)
Definition machine (q p : Z) (input : bytes) (s : httpclient_parser * list call) :=
  (exec client_blocks (client_act buffer len) 2 q p input s, c_stays q input).
#[local] Abbreviation at_ := (at_ buffer len).

(** A state in which everything is as its flags say. *)
Record ready (q p : Z) (h : httpclient_parser) : Prop := {
  ready_state : 0 < q <= 123; ready_good : client_good q = true; ready_rest : c_rest buffer q p h }.

Fixpoint cacts_h (acts : list client_action) (p : Z) (h : httpclient_parser) : httpclient_parser :=
  match acts with [] => h | a :: acts => cacts_h acts p (client_act_h buffer a p h) end.
Fixpoint cacts_calls (acts : list client_action) (p : Z) (h : httpclient_parser) : list call :=
  match acts with
  | [] => []
  | a :: acts => client_act_calls buffer len a p h ++ cacts_calls acts p (client_act_h buffer a p h)
  end.

Lemma cperform_ok acts b : forall f f' p h c, c_during buffer f p h -> flow client_flow b acts f = Some f' ->
  buffer !! Z.to_nat p = Some b -> 0 <= p < len ->
  perform (client_act buffer len) acts p (h, c) = Ok tt (cacts_h acts p h, c ++ cacts_calls acts p h) /\
  c_during buffer f' p (cacts_h acts p h).
Proof.
  induction acts as [|a acts IH]; intros f f' p h c D Hf Hb Hp; cbn [flow perform cacts_h cacts_calls] in *.
  - injection Hf as <-. by rewrite app_nil_r.
  - destruct (client_flow b a f) as [f1|] eqn:E1; [|done].
    run (client_act_ok buffer len F a f f1 p h c b D E1 Hb Hp).
    destruct (client_act_during buffer a f f1 p h b D E1 ltac:(lia)) as [D1 _].
    destruct (IH f1 f' p _ (c ++ client_act_calls buffer len a p h) D1 Hf Hb Hp) as [E2 D2]. by rewrite E2, app_assoc.
Qed.

(** One character. *)
Lemma cgo q acts n b ys p h c : ready q p h -> trans client_blocks q b = Some (acts, GOTO n) ->
  0 < n <= 123 -> client_good n = true -> buffer !! Z.to_nat p = Some b -> p < len ->
  machine q p (b :: ys) (h, c) = machine n (p + 1) ys (cacts_h acts p h, c ++ cacts_calls acts p h) /\
  ready n (p + 1) (cacts_h acts p h).
Proof.
  intros [Hq Hg R] Et Hn Hgn Hb Hp. destruct (law_start _ _ _ _ _ _ _ _ _ client_laws _ _ _ _ R) as [Hp0 D].
  pose proof (trans_safe _ _ _ _ _ _ _ _ client_table_ok _ _ _ _ Hg Et) as Hm. unfold move_safe in Hm.
  destruct (flow client_flow b acts (client_flags q)) as [f|] eqn:Ef; [|done].
  destruct (cperform_ok acts b _ f p h c D Ef Hb ltac:(lia)) as [E D'].
  rewrite (proj2 (Z.eqb_neq n 0)) in Hm by lia. apply andb_true_iff in Hm as [_ Hm]. rewrite Hgn in Hm. cbn [implb] in Hm.
  split; [|split; [done|done|by eapply (law_next _ _ _ _ _ _ _ _ _ client_laws)]].
  unfold machine. f_equal.
  - with_strategy transparent [exec] cbn [exec]. unfold step. rewrite Et, bind_assoc. run E.
    by rewrite (proj2 (Z.eqb_neq n 0)) by lia.
  - cbn [stays]. unfold stays1. by rewrite Et, Hgn, orb_true_r.
Qed.

(** ** What is visible *)

Definition same_view (h h' : httpclient_parser) : Prop :=
  hc_mark h' = hc_mark h /\ hc_field_start h' = hc_field_start h /\ hc_field_len h' = hc_field_len h.
#[local] Instance same_view_preorder : PreOrder same_view.
Proof. split; [done|]. intros h1 h2 h3 (?&?&?) (?&?&?). split_and!; congruence. Qed.

Lemma view_act a p h h' : same_view h h' -> same_view (client_act_h buffer a p h) (client_act_h buffer a p h') /\
  client_act_calls buffer len a p h' = client_act_calls buffer len a p h.
Proof.
  intros (E1 & E2 & E3). split.
  - destruct a; cbn [client_act_h]; unfold same_view; cbn; rewrite ?E1, ?E2, ?E3; done.
  - destruct a; cbn [client_act_calls]; rewrite ?E1, ?E2, ?E3; done.
Qed.
Lemma view_hidden a p h : visible a = false -> same_view h (client_act_h buffer a p h) /\ client_act_calls buffer len a p h = [].
Proof. by destruct a. Qed.

Lemma view_acts acts p : forall h h', same_view h h' ->
  same_view (cacts_h (List.filter visible acts) p h) (cacts_h acts p h') /\
  cacts_calls acts p h' = cacts_calls (List.filter visible acts) p h.
Proof.
  induction acts as [|a acts IH]; intros h h' V; cbn [List.filter cacts_h cacts_calls]; [done|].
  destruct (visible a) eqn:Ea.
  - cbn [cacts_h cacts_calls]. destruct (view_act a p h h' V) as [V1 ->]. destruct (IH _ _ V1) as [V2 ->]. done.
  - destruct (view_hidden a p h' Ea) as [V1 ->]. destruct (IH h (client_act_h buffer a p h')) as [V2 ->]; [by etrans|]. done.
Qed.

Lemma chunked_acts acts p : forall h, forallb (fun a => bool_decide (a <> c_chunk_size)) acts = true ->
  hc_chunked (cacts_h acts p h) = if sets_chunked acts then 1 else hc_chunked h.
Proof.
  induction acts as [|a acts IH]; intros h Ha; cbn [cacts_h sets_chunked existsb forallb] in *; [done|].
  apply andb_true_iff in Ha as [Hx Ha]. apply bool_decide_eq_true in Hx. rewrite IH by done. fold (sets_chunked acts).
  destruct a; try done; cbn; by destruct (sets_chunked acts).
Qed.

Lemma in_ok Q q : in_ Q q = true <-> List.In q Q.
Proof.
  unfold in_. rewrite existsb_exists. split; [intros (x & Hx & ->%Z.eqb_eq); done|]. intros Hq. exists q.
  split; [done|apply Z.eqb_refl].
Qed.

(** A character of a class, from a set of states. *)
Lemma set_go Q cls vis tc Q' P q b ys p h c :
  checked (set_moves Q cls vis tc Q' P) -> forallb (fun a => bool_decide (a <> c_chunk_size)) vis = true ->
  in_ Q q = true -> cls b = true -> ready q p h -> at_ p (b :: nil) ->
  exists n h', machine q p (b :: ys) (h, c) = machine n (p + 1) ys (h', c ++ cacts_calls vis p h) /\
    in_ Q' n = true /\ P q b n = true /\ ready n (p + 1) h' /\ same_view (cacts_h vis p h) h' /\
    hc_chunked h' = if tc then 1 else hc_chunked h.
Proof.
  intros [Hm] Hv Hq Hb R (Hp & Hl & rest & Hat). cbn [length] in Hl. unfold set_moves in Hm. rewrite forallb_forall in Hm.
  specialize (Hm q (proj1 (in_ok _ _) Hq)). pose proof (all_bytes_ok _ Hm b) as H1. clear Hm. cbn beta in H1.
  rewrite Hb in H1. cbn [implb] in H1. destruct (trans client_blocks q b) as [[acts [n|n]]|] eqn:Et; [|done..].
  apply andb_true_iff in H1 as [[[[[[H1 Hvis]%andb_true_iff Htc]%andb_true_iff HP]%andb_true_iff Hn1]%andb_true_iff Hn2]%andb_true_iff Hg].
  apply bool_decide_eq_true in Hvis. apply eqb_prop in Htc. apply Z.ltb_lt in Hn1. apply Z.leb_le in Hn2.
  assert (buffer !! Z.to_nat p = Some b) as Hlk.
  { rewrite <- (Nat.add_0_r (Z.to_nat p)), <- lookup_drop. unfold from in Hat. by rewrite Hat. }
  destruct (cgo q acts n b ys p h c R Et ltac:(lia) Hg Hlk ltac:(lia)) as [E R'].
  destruct (view_acts acts p h h ltac:(done)) as [V Ec]. rewrite Hvis in V, Ec.
  exists n, (cacts_h acts p h). rewrite E, Ec. split_and!; try done. rewrite chunked_acts, Htc; [done|].
  rewrite forallb_forall in *. intros a Ha. destruct (visible a) eqn:Ea; [|by destruct a].
  apply Hv. rewrite <- Hvis. by apply List.filter_In.
Qed.

Lemma at_range' p s : at_ p s -> 0 <= p /\ p + Z.of_nat (length s) <= len.
Proof. by intros (? & ? & _). Qed.
Lemma at_app' p s t : at_ p (s ++ t) <-> at_ p s /\ at_ (p + Z.of_nat (length s)) t.
Proof. destruct F as [? ?]. by apply at_app. Qed.

(** A text of a class, within a set. *)
Lemma set_loop Q cls vis P (Rel : relation httpclient_parser) xs :
  checked (set_moves Q cls vis false Q P) -> forallb (fun a => bool_decide (a <> c_chunk_size)) vis = true ->
  (forall p h, cacts_calls vis p h = []) -> PreOrder Rel ->
  (forall p h h', same_view (cacts_h vis p h) h' -> Rel h h') ->
  all_in cls xs -> forall q p ys h c, in_ Q q = true -> ready q p h -> at_ p xs ->
  exists n h', machine q p (xs ++ ys) (h, c) = machine n (p + Z.of_nat (length xs)) ys (h', c) /\
    in_ Q n = true /\ path P q xs n /\ ready n (p + Z.of_nat (length xs)) h' /\ Rel h h' /\ hc_chunked h' = hc_chunked h.
Proof.
  intros Hm Hv Hcalls HR Hrel. induction xs as [|b xs IH]; intros Hx q p ys h c Hq R Hat.
  - exists q, h. cbn [app length]. rewrite Z.add_0_r. split_and!; done.
  - apply all_in_cons in Hx as [Hb Hx]. apply (at_app' p [b] xs) in Hat as [Hat1 Hat2].
    destruct (set_go Q cls vis false Q P q b (xs ++ ys) p h c Hm Hv Hq Hb R Hat1) as (m & h1 & E & Hq1 & HP & R1 & V1 & C1).
    rewrite Hcalls, app_nil_r in E. cbn [length] in Hat2.
    destruct (IH Hx m (p + 1) ys h1 c Hq1 R1 Hat2) as (n & h2 & E2 & Hn & Hpath & R2 & V2 & C2).
    exists n, h2. cbn [app length]. rewrite E, E2. replace (p + Z.of_nat (S (length xs))) with (p + 1 + Z.of_nat (length xs)) by lia.
    split_and!; try done; [by exists m|etrans; [by eapply Hrel|done]|congruence].
Qed.

Lemma said' p s n : at_ p s -> n = Z.of_nat (length s) ->
  take (Z.to_nat n) (drop (Z.to_nat p) buffer) = s /\ Z.to_nat n = length s.
Proof. apply said. Qed.

Definition same_field (h h' : httpclient_parser) : Prop :=
  hc_field_start h' = hc_field_start h /\ hc_field_len h' = hc_field_len h.
#[local] Instance same_field_preorder : PreOrder same_field.
Proof. split; [done|]. intros h1 h2 h3 (?&?) (?&?). split; congruence. Qed.

(** A name and its colon. *)
Lemma run_name name q ys p h c : name <> [] -> all_in token_char name -> in_ L_ q = true -> ready q p h ->
  at_ p (name ++ str ":") -> let k := p + Z.of_nat (length name) in
  exists n h', machine q p (name ++ str ":" ++ ys) (h, c) = machine n (k + 1) ys (h', c) /\ in_ C_ n = true /\
    ready n (k + 1) h' /\ hc_field_start h' = p /\ hc_field_len h' = Z.of_nat (length name) /\
    (n = 61 <-> lower name = te_name) /\ hc_chunked h' = hc_chunked h.
Proof.
  intros Hne Hn Hq R Hat k. destruct name as [|b name]; [done|]. apply all_in_cons in Hn as [Hb Hn].
  apply at_app' in Hat as [Hat Hcolon]. apply (at_app' p [b] name) in Hat as [Hat1 Hat2]. cbn [app length] in *.
  destruct (set_go _ _ _ _ _ _ q b (name ++ str ":" ++ ys) p h c line_name eq_refl Hq Hb R Hat1)
    as (q1 & h1 & E1 & I1 & P1 & R1 & (_ & V1 & _) & C1).
  destruct (set_loop _ _ _ _ same_view name name_name eq_refl ltac:(done) _ ltac:(done) Hn q1 (p + 1) (str ":" ++ ys) h1
    (c ++ []) I1 R1 Hat2) as (q2 & h2 & E2 & I2 & P2 & R2 & (_ & V2 & _) & C2).
  assert (p + 1 + Z.of_nat (length name) = k) as Ek by (unfold k; lia). rewrite Ek in *.
  destruct (set_go _ _ _ _ _ _ q2 Byte.x3a ys k h2 (c ++ []) name_colon eq_refl I2 eq_refl R2 Hcolon)
    as (q3 & h3 & E3 & I3 & P3 & R3 & (_ & V3 & V4) & C3).
  exists q3, h3. cbn [app length]. change (str ":") with [Byte.x3a] in *. cbn [app] in *.
  cbn [cacts_calls client_act_calls app] in E1, E3. rewrite E1, E2, E3, !app_nil_r.
  cbn [cacts_h client_act_h] in *. cbn in V1, V3, V4.
  split_and!; try done; try congruence; [rewrite V4, V2, V1; unfold k; lia|].
  apply begins_ok in P1. pose proof (path_tracks _ _ name [b] q1 q2 ltac:(done) P1 P2) as Ht.
  rewrite <- (tracks_last 44 te_name _ q2 16 eq_refl Ht).
  unfold passes in P3. apply eqb_prop in P3. rewrite <- !Z.eqb_eq, P3. done.
Qed.

(** A value and the line end behind it. *)
Lemma run_value' value q ys p h c : match value with b :: _ => blank b = false | [] => False end -> all_in value_char value ->
  in_ C_ q = true -> ready q p h -> at_ p (value ++ CRLF) -> let k := p + Z.of_nat (length value) in
  exists n h', machine q p (value ++ CRLF ++ ys) (h, c) = machine n (k + 2) ys (h', c ++
      [http_field (drop (Z.to_nat (hc_field_start h)) buffer) (Z.to_nat (hc_field_len h))
         (drop (Z.to_nat p) buffer) (Z.to_nat (k - p))]) /\
    in_ L_ n = true /\ ready n (k + 2) h' /\
    hc_chunked h' = if (q =? 61) && bool_decide (lower value = te_value) then 1 else hc_chunked h.
Proof.
  intros Hne Hv Hq R Hat k. destruct value as [|b value]; [done|]. apply all_in_cons in Hv as [Hb Hv].
  apply at_app' in Hat as [Hat Hend]. apply (at_app' p [b] value) in Hat as [Hat1 Hat2]. cbn [app length] in *.
  assert (value_char b && negb (blank b) = true) as Hb' by by rewrite Hb, Hne.
  destruct (set_go _ _ _ _ _ _ q b (value ++ CRLF ++ ys) p h c colon_value eq_refl Hq Hb' R Hat1)
    as (q1 & h1 & E1 & I1 & P1 & R1 & (V1 & V2 & V3) & C1).
  destruct (set_loop _ _ _ _ same_view value value_value eq_refl ltac:(done) _ ltac:(done) Hv q1 (p + 1) (CRLF ++ ys) h1
    (c ++ []) I1 R1 Hat2) as (q2 & h2 & E2 & I2 & P2 & R2 & (V4 & V5 & V6) & C2).
  assert (p + 1 + Z.of_nat (length value) = k) as Ek by (unfold k; lia). rewrite Ek in *. fold k in Hend.
  apply (at_app' k [Byte.x0d] [Byte.x0a]) in Hend as [He1 He2]. cbn [length] in He2.
  destruct (set_go _ _ _ _ _ _ q2 Byte.x0d (Byte.x0a :: ys) k h2 (c ++ []) value_cr eq_refl I2 (lit_refl _) R2 He1)
    as (q3 & h3 & E3 & I3 & P3 & R3 & _ & C3).
  cbn [cacts_h client_act_h cacts_calls client_act_calls app] in *. rewrite app_nil_r in *. cbn in V1, V2, V3.
  rewrite V4, V5, V6, V1, V2, V3 in E3. unfold CRLF in *. cbn [app] in *. rewrite E1, E2, E3.
  match type of E3 with _ = machine _ _ _ (_, ?l) => set (c3 := l) end.
  assert ((q3 =? 71) = (q =? 61) && bool_decide (lower (b :: value) = te_value)) as Ech.
  { unfold passes in P3. apply eqb_prop in P3. rewrite P3. apply begins_ok in P1. rewrite Z.eqb_sym in P1.
    destruct (q =? 61) eqn:E61; cbn [andb].
    - pose proof (path_tracks _ _ value [b] q1 q2 ltac:(done) P1 P2) as Ht.
      apply eq_true_iff_eq. rewrite Z.eqb_eq, bool_decide_eq_true.
      apply (tracks_last 81 te_value _ q2 6 eq_refl Ht).
    - pose proof (path_elsewhere _ _ value q1 q2 P1 P2) as Ht.
      apply Z.eqb_neq. apply (Ht 6%nat). cbn. lia. }
  destruct (q3 =? 71) eqn:E71.
  - apply Z.eqb_eq in E71 as ->. pose proof cr_lf as [_ M]%checked_andb.
    destruct (set_go _ _ _ _ _ _ 71 Byte.x0a ys (k + 1) h3 c3 M eq_refl eq_refl (lit_refl _) R3 He2)
      as (q4 & h4 & E4 & I4 & _ & R4 & _ & C4).
    exists q4, h4. rewrite E4. cbn [cacts_calls]. rewrite app_nil_r, <- Ech. split_and!; try done; [f_equal; lia|].
    by replace (k + 2) with (k + 1 + 1) by lia.
  - assert (in_ R_ q3 = true) as I3' by (unfold in_ in *; cbn [existsb] in *; rewrite E71 in I3; done).
    pose proof cr_lf as [M _]%checked_andb.
    destruct (set_go _ _ _ _ _ _ q3 Byte.x0a ys (k + 1) h3 c3 M eq_refl I3' (lit_refl _) R3 He2)
      as (q4 & h4 & E4 & I4 & _ & R4 & _ & C4).
    exists q4, h4. rewrite E4. cbn [cacts_calls]. rewrite app_nil_r, <- Ech. split_and!; try done; [f_equal; lia| |congruence].
    by replace (k + 2) with (k + 1 + 1) by lia.
Qed.

Lemma run_rfield f q ys p h c : rfield_ok f -> in_ L_ q = true -> ready q p h -> at_ p (field_text f) ->
  let k := p + Z.of_nat (length (field_text f)) in
  exists n h' d, machine q p (field_text f ++ ys) (h, c) = machine n k ys (h', c ++ d) /\ in_ L_ n = true /\
    ready n k h' /\ map told d = [field_call f] /\ hc_chunked h' = if is_chunked f then 1 else hc_chunked h.
Proof.
  destruct f as [[name sp] value]. intros (Hne & Hn & Hsp & Hv & Hv1) Hq R Hat k. cbn [field_text field_call is_chunked] in *.
  unfold k. clear k. rewrite !length_app. change (length CRLF) with 2%nat. change (length (str ":")) with 1%nat.
  rewrite (app_assoc name) in Hat. apply at_app' in Hat as [Hat1 Hat2]. rewrite length_app in Hat2.
  change (length (str ":")) with 1%nat in Hat2. apply at_app' in Hat2 as [Hat2 Hat3]. pose proof (at_range' _ _ Hat1) as Hp0.
  destruct (run_name name q (sp ++ value ++ CRLF ++ ys) p h c Hne Hn Hq R Hat1) as (q1 & h1 & E1 & I1 & R1 & S1 & S2 & T1 & C1).
  set (k := p + Z.of_nat (length name)) in *. replace (p + Z.of_nat (length name + 1)) with (k + 1) in * by lia.
  destruct (set_loop _ _ _ _ same_field sp colon_blank eq_refl ltac:(done) _ ltac:(by intros ??? (?&?&?)) Hsp q1 (k + 1)
    (value ++ CRLF ++ ys) h1 c I1 R1 Hat2) as (q2 & h2 & E2 & I2 & P2 & R2 & (S3 & S4) & C2).
  set (k2 := k + 1 + Z.of_nat (length sp)) in *.
  destruct (run_value' value q2 ys k2 h2 c Hv1 Hv I2 R2 Hat3) as (q3 & h3 & E3 & I3 & R3 & C3).
  exists q3, h3, [http_field (drop (Z.to_nat (hc_field_start h2)) buffer) (Z.to_nat (hc_field_len h2))
    (drop (Z.to_nat k2) buffer) (Z.to_nat (k2 + Z.of_nat (length value) - k2))].
  replace (p + Z.of_nat (length name + (1 + (length sp + (length value + 2))))) with (k2 + Z.of_nat (length value) + 2) by (unfold k2; lia).
  rewrite <- !app_assoc, E1, E2, E3. split_and!; try done.
  - cbn [map told]. rewrite S3, S4, S1, S2. apply at_app' in Hat1 as [Hat1 _].
    apply at_app' in Hat3 as [Hat3 _].
    destruct (said' p name (Z.of_nat (length name)) Hat1 eq_refl) as [-> ->].
    by destruct (said' k2 value (k2 + Z.of_nat (length value) - k2) Hat3 ltac:(lia)) as [-> ->].
  - rewrite C3, C2, C1. apply path_passes in P2.
    assert ((q2 =? 61) = bool_decide (lower name = te_name)) as ->; [|done].
    apply eq_true_iff_eq. rewrite Z.eqb_eq, bool_decide_eq_true. by rewrite P2, T1.
Qed.

Lemma run_rfields fs : forall q ys p h c, Forall rfield_ok fs -> in_ L_ q = true -> ready q p h ->
  at_ p (concat (map field_text fs)) -> let k := p + Z.of_nat (length (concat (map field_text fs))) in
  exists n h' d, machine q p (concat (map field_text fs) ++ ys) (h, c) = machine n k ys (h', c ++ d) /\
    in_ L_ n = true /\ ready n k h' /\ map told d = map field_call fs /\
    hc_chunked h' = if existsb is_chunked fs then 1 else hc_chunked h.
Proof.
  induction fs as [|f fs IH]; intros q ys p h c Hall Hq R Hat; cbn [map concat existsb] in *.
  - exists q, h, []. cbn [app length]. rewrite Z.add_0_r, app_nil_r. by split_and!.
  - apply Forall_cons in Hall as [Hf Hall]. apply at_app' in Hat as [Hat1 Hat2].
    destruct (run_rfield f q (concat (map field_text fs) ++ ys) p h c Hf Hq R Hat1) as (q1 & h1 & d1 & E1 & I1 & R1 & T1 & C1).
    destruct (IH q1 ys _ h1 (c ++ d1) Hall I1 R1 Hat2) as (q2 & h2 & d2 & E2 & I2 & R2 & T2 & C2).
    exists q2, h2, (d1 ++ d2). rewrite <- app_assoc, E1, E2, length_app, map_app, T1, T2, C2, C1, app_assoc.
    replace (p + Z.of_nat (length (field_text f) + length (concat (map field_text fs))))
      with (p + Z.of_nat (length (field_text f)) + Z.of_nat (length (concat (map field_text fs)))) by lia.
    split_and!; try done. by destruct (is_chunked f), (existsb is_chunked fs).
Qed.

(** The empty line. *)
Lemma run_rfinal q ys p h c : in_ L_ q = true -> ready q p h -> at_ p CRLF ->
  exists h' d, machine q p (CRLF ++ ys) (h, c) = (Ok (120, p + 2, true) (h', c ++ d), true) /\
    map told d = [header_done [] 0] /\ hc_chunked h' = hc_chunked h.
Proof.
  intros Hq R Hat. apply (at_app' p [Byte.x0d] [Byte.x0a]) in Hat as [He1 He2]. cbn [length] in He2.
  destruct line_end as [M Et].
  destruct (set_go _ _ _ _ _ _ q Byte.x0d (Byte.x0a :: ys) p h c M eq_refl Hq (lit_refl _) R He1)
    as (q1 & h1 & E1 & I1 & _ & R1 & _ & C1).
  assert (q1 = 3) as -> by (unfold in_ in I1; cbn in I1; rewrite orb_false_r in I1; by apply Z.eqb_eq).
  cbn [cacts_calls] in E1. rewrite app_nil_r in E1. unfold CRLF. cbn [app]. rewrite E1.
  destruct R1 as [Hq1 Hg R1]. destruct (law_start _ _ _ _ _ _ _ _ _ client_laws _ _ _ _ R1) as [Hp0 D].
  pose proof (at_range' _ _ He2) as Hr. cbn [length] in Hr. destruct He2 as (_ & _ & rest & Hat).
  assert (buffer !! Z.to_nat (p + 1) = Some Byte.x0a) as Hlk.
  { rewrite <- (Nat.add_0_r (Z.to_nat (p + 1))), <- lookup_drop. change (p + Z.of_nat 1) with (p + 1) in Hat. unfold from in Hat. by rewrite Hat. }
  destruct (cperform_ok [c_done] Byte.x0a _ _ (p + 1) h1 c D eq_refl Hlk ltac:(lia)) as [E _].
  eexists (cacts_h [c_done] (p + 1) h1), (cacts_calls [c_done] (p + 1) h1). split_and!; [|done|done].
  unfold machine. f_equal. with_strategy transparent [exec] cbn [exec]. unfold step. rewrite Et, bind_assoc. run E.
  unfold bind, ret. by replace (p + 1 + 1) with (p + 2) by lia.
Qed.

Lemma in_one n m : in_ [m] n = true -> n = m.
Proof. unfold in_. cbn. rewrite orb_false_r. by intros ->%Z.eqb_eq. Qed.

(** A character from one state to another. *)
Lemma one_go q cls vis n b ys p h c :
  checked (set_moves [q] cls vis false [n] anywhere) -> forallb (fun a => bool_decide (a <> c_chunk_size)) vis = true ->
  cls b = true -> ready q p h -> at_ p [b] ->
  exists h', machine q p (b :: ys) (h, c) = machine n (p + 1) ys (h', c ++ cacts_calls vis p h) /\
    ready n (p + 1) h' /\ same_view (cacts_h vis p h) h' /\ hc_chunked h' = hc_chunked h.
Proof.
  intros M Hv Hb R Hat. assert (in_ [q] q = true) as Iq by (unfold in_; cbn; by rewrite Z.eqb_refl).
  destruct (set_go [q] cls vis false [n] anywhere q b ys p h c M Hv Iq Hb R Hat) as (m & h' & E & ->%in_one & _ & R' & V & C).
  by exists h'.
Qed.

Lemma run_spell text : forall states q ys p h c, checked (set_spells q text states) -> ready q p h -> at_ p text ->
  exists h', machine q p (text ++ ys) (h, c) = machine (List.last states q) (p + Z.of_nat (length text)) ys (h', c) /\
    ready (List.last states q) (p + Z.of_nat (length text)) h' /\ same_view h h' /\ hc_chunked h' = hc_chunked h.
Proof.
  induction text as [|b text IH]; intros [|n states] q ys p h c Hs R Hat; try by destruct Hs.
  - exists h. cbn [app length List.last]. by rewrite Z.add_0_r.
  - cbn [set_spells] in Hs. apply checked_andb in Hs as [M Hs]. apply (at_app' p [b] text) in Hat as [Hat1 Hat2].
    destruct (one_go q (lit b) [] n b (text ++ ys) p h c M eq_refl (lit_refl _) R Hat1) as (h1 & E1 & R1 & V1 & C1).
    cbn [length] in Hat2. destruct (IH states n ys (p + 1) h1 c Hs R1 Hat2) as (h2 & E2 & R2 & V2 & C2).
    exists h2. cbn [app length cacts_calls] in *. rewrite app_nil_r in E1. rewrite E1, E2.
    replace (p + Z.of_nat (S (length text))) with (p + 1 + Z.of_nat (length text)) in * by lia.
    assert (List.last (n :: states) q = List.last states n) as ->.
    { clear. destruct states as [|x states]; [done|]. cbn [List.last]. revert x. induction states; intros x; [done|]. cbn. auto. }
    split_and!; try done; [by etrans|congruence].
Qed.

(** A text of a class that is marked, looped through and told. *)
Lemma run_marked q0 q1 cls act q2 f cls2 b0 text stop ys p h c : checked (set_moves [q0] cls [c_mark] false [q1] anywhere) ->
  checked (set_moves [q1] cls [] false [q1] anywhere) -> checked (set_moves [q1] cls2 [act] false [q2] anywhere) ->
  act <> c_chunk_size -> (forall p h, client_act_calls buffer len act p h =
    [f (drop (Z.to_nat (hc_mark h)) buffer) (Z.to_nat (p - hc_mark h))]) ->
  all_in cls (b0 :: text) -> cls2 stop = true -> ready q0 p h -> at_ p (b0 :: text) ->
  let k := p + Z.of_nat (length (b0 :: text)) in at_ k [stop] ->
  exists h', machine q0 p ((b0 :: text) ++ stop :: ys) (h, c) =
      machine q2 (k + 1) ys (h', c ++ [f (drop (Z.to_nat p) buffer) (Z.to_nat (k - p))]) /\
    ready q2 (k + 1) h' /\ hc_chunked h' = hc_chunked h.
Proof.
  intros M0 M1 M2 Hact Hcalls Hx Hst R Hat k Hk. apply all_in_cons in Hx as [Hb Hx].
  apply (at_app' p [b0] text) in Hat as [Hat1 Hat2]. cbn [length] in Hat2.
  destruct (one_go q0 cls [c_mark] q1 b0 (text ++ stop :: ys) p h c M0 eq_refl Hb R Hat1) as (h1 & E1 & R1 & (V1 & _) & C1).
  assert (in_ [q1] q1 = true) as Iq by (unfold in_; cbn; by rewrite Z.eqb_refl).
  destruct (set_loop [q1] cls [] anywhere same_view text M1 eq_refl ltac:(done) _ ltac:(done) Hx q1 (p + 1) (stop :: ys) h1
    (c ++ []) Iq R1 Hat2) as (n & h2 & E2 & ->%in_one & _ & R2 & (V2 & _) & C2).
  replace (p + 1 + Z.of_nat (length text)) with k in * by (unfold k; cbn [length]; lia).
  destruct (one_go q1 cls2 [act] q2 stop ys k h2 (c ++ []) M2) as (h3 & E3 & R3 & _ & C3); try done.
  { cbn [forallb]. by rewrite bool_decide_true. }
  exists h3. cbn [app cacts_calls cacts_h client_act_h client_act_calls] in *. rewrite E1, E2, E3, Hcalls, V2, V1, !app_nil_r.
  cbn. split_and!; try done. congruence.
Qed.

(** The status line. *)
Lemma run_status hd ys h0 : rh_status hd <> [] -> all_in is_dec (rh_status hd) -> rh_reason hd <> [] ->
  all_in value_char (rh_reason hd) ->
  let line := rh_version hd ++ str " " ++ rh_status hd ++ str " " ++ rh_reason hd ++ CRLF in
  at_ 0 line -> ready 1 0 h0 ->
  exists h' d, machine 1 0 (line ++ ys) (h0, []) = machine 20 (Z.of_nat (length line)) ys (h', d) /\
    ready 20 (Z.of_nat (length line)) h' /\ hc_chunked h' = hc_chunked h0 /\
    map told d = [tell http_version (rh_version hd); status_code (rh_status hd ++ str " ") (length (rh_status hd));
      tell reason_phrase (rh_reason hd)].
Proof.
  intros Hs1 Hs2 Hr1 Hr2 line Hat R0. subst line.
  destruct (rh_status hd) as [|s0 st]; [done|]. destruct (rh_reason hd) as [|r0 rs]; [done|].
  set (v := if rh_minor hd then str "TTP/1.1" else str "TTP/1.0").
  assert (rh_version hd = Byte.x48 :: v) as Ev by (unfold rh_version, v; by destruct (rh_minor hd)). rewrite Ev in *.
  assert (length v = 7%nat) as Lv by (unfold v; by destruct (rh_minor hd)).
  change (str " ") with [Byte.x20] in *. unfold CRLF in *.
  apply at_app' in Hat as [A1 [A2 [A3 [A4 [A5 A6]%at_app']%at_app']%at_app']%at_app'].
  pose proof A1 as Av. apply (at_app' 0 [Byte.x48] v) in A1 as [A0 A1]. apply (at_app' _ [Byte.x0d] [Byte.x0a]) in A6 as [A6 A7].
  pose proof (version_line (rh_minor hd)) as Mv. fold v in Mv. apply checked_andb in Mv as [[Mv1 Mv2]%checked_andb Mv3].
  pose proof status_line as Ms.
  apply checked_andb in Ms as [[[[[[Ms1 Ms2]%checked_andb Ms3]%checked_andb Ms4]%checked_andb Ms5]%checked_andb Ms6]%checked_andb Ms7].
  assert (forall (a b c d e f : bytes), (a ++ b ++ c ++ d ++ e ++ f) ++ ys = a ++ b ++ c ++ d ++ e ++ f ++ ys) as Eassoc
    by (intros; by rewrite <- !app_assoc).
  rewrite Eassoc. clear Eassoc. set (t6 := [Byte.x0d; Byte.x0a] ++ ys). set (t5 := (r0 :: rs) ++ t6). set (t4 := [Byte.x20] ++ t5).
  set (t3 := (s0 :: st) ++ t4). set (t2 := [Byte.x20] ++ t3).
  destruct (one_go 1 _ [c_mark] 8 Byte.x48 (v ++ t2) 0 h0 [] Mv1 eq_refl (lit_refl _) R0 A0) as (h1 & E1 & R1 & (V1 & _) & C1).
  cbn [cacts_calls cacts_h client_act_calls client_act_h app hc_mark hc_with_mark] in E1, V1.
  destruct (run_spell v _ 8 t2 (0 + 1) h1 [] Mv2 R1 A1) as (h2 & E2 & R2 & (V2 & _) & C2).
  rewrite Lv in *. change (List.last _ 8) with 15 in *. change (length (Byte.x48 :: v)) with (S (length v)) in *. rewrite Lv in *.
  destruct (one_go 15 _ [c_http_version] 16 Byte.x20 t3 8 h2 [] Mv3 eq_refl eq_refl R2 A2) as (h3 & E3 & R3 & _ & C3).
  cbn [cacts_calls client_act_calls app] in E3. rewrite V2, V1 in E3. match type of E3 with _ = machine _ _ _ (_, ?l) => set (c3 := l) in * end.
  destruct (run_marked 16 17 is_dec c_status_code 18 status_code _ s0 st Byte.x20 t5 9 h3 c3 Ms1 Ms2 Ms3 ltac:(done) ltac:(done)
    Hs2 eq_refl R3 A3 A4) as (h4 & E4 & R4 & C4).
  set (k := 9 + Z.of_nat (length (s0 :: st))) in *. match type of E4 with _ = machine _ _ _ (_, ?l) => set (c4 := l) in * end.
  destruct (run_marked 18 19 value_char c_reason_phrase 24 reason_phrase _ r0 rs Byte.x0d (Byte.x0a :: ys) (k + 1) h4 c4 Ms4 Ms5 Ms6
    ltac:(done) ltac:(done) Hr2 (lit_refl _) R4 A5 A6) as (h5 & E5 & R5 & C5).
  set (k2 := k + 1 + Z.of_nat (length (r0 :: rs))) in *. match type of E5 with _ = machine _ _ _ (_, ?l) => set (c5 := l) in * end.
  destruct (one_go 24 _ [] 20 Byte.x0a ys (k2 + 1) h5 c5 Ms7 eq_refl (lit_refl _) R5 A7) as (h6 & E6 & R6 & _ & C6).
  cbn [cacts_calls] in E6. rewrite app_nil_r in E6.
  match goal with |- context [machine 20 (Z.of_nat ?n) ys _] => assert (Z.of_nat n = k2 + 1 + 1) as ->
    by (unfold k2, k; rewrite !length_app; cbn [length]; rewrite Lv; lia) end.
  exists h6, c5. split_and!; [|done|congruence|].
  - etransitivity; [exact E1|]. etransitivity; [exact E2|]. etransitivity; [exact E3|]. etransitivity; [exact E4|].
    etransitivity; [exact E5|exact E6].
  - subst c5 c4 c3. cbn [app map told].
    destruct (said' 0 (Byte.x48 :: v) (8 - 0) Av ltac:(cbn [length]; rewrite Lv; done)) as [-> ->].
    replace (Z.to_nat (k - 9)) with (length (s0 :: st)) by (unfold k; lia).
    assert (at_ 9 ((s0 :: st) ++ [Byte.x20])) as A34 by (apply at_app'; done).
    destruct (said' 9 ((s0 :: st) ++ [Byte.x20]) (k + 1 - 9) A34 ltac:(rewrite length_app; unfold k; cbn [length]; lia)) as [T34 L34].
    rewrite L34, length_app, Nat.add_1_r in T34. rewrite T34.
    destruct (said' (k + 1) (r0 :: rs) (k2 - (k + 1)) A5 ltac:(unfold k2; lia)) as [-> ->]. done.
Qed.

(** A whole head. *)
Lemma run_rhead hd ys h0 : rhead_ok hd -> at_ 0 (rhead_text hd) -> ready 1 0 h0 -> hc_chunked h0 = 0 ->
  exists h' d, machine 1 0 (rhead_text hd ++ ys) (h0, []) = (Ok (120, Z.of_nat (length (rhead_text hd)), true) (h', d), true) /\
    map told d = rhead_calls hd /\ hc_chunked h' = if announces_chunks hd then 1 else 0.
Proof.
  intros (Hs1 & Hs2 & Hr1 & Hr2 & Hfs) Hat R0 C0. set (fs := concat (map field_text (rh_fields hd))).
  set (line := rh_version hd ++ str " " ++ rh_status hd ++ str " " ++ rh_reason hd ++ CRLF).
  assert (rhead_text hd = line ++ fs ++ CRLF) as Eh by (unfold rhead_text, line; fold fs; by rewrite <- !app_assoc).
  rewrite Eh in *. apply at_app' in Hat as [A1 [A2 A3]%at_app'].
  destruct (run_status hd (fs ++ CRLF ++ ys) h0 Hs1 Hs2 Hr1 Hr2 A1 R0) as (h1 & d1 & E1 & R1 & C1 & T1). fold line in E1, R1.
  rewrite <- !app_assoc, E1. rewrite Z.add_0_l in *.
  destruct (run_rfields (rh_fields hd) 20 (CRLF ++ ys) _ h1 d1 Hfs eq_refl R1 A2) as (q & h2 & d2 & E2 & I2 & R2 & T2 & C2).
  fold fs in E2, R2. rewrite E2.
  destruct (run_rfinal q ys _ h2 (d1 ++ d2) I2 R2 A3) as (h3 & d3 & E3 & T3 & C3). rewrite E3.
  exists h3, ((d1 ++ d2) ++ d3). split_and!.
  - do 4 f_equal. rewrite !length_app. change (length CRLF) with 2%nat. lia.
  - rewrite !map_app, T1, T2, T3. unfold rhead_calls. by rewrite <- app_assoc.
  - rewrite C3, C2, C1, C0. done.
Qed.
End reading.
