(* ===== verification/HttpClientResponse.v ===== *)
(** * Responses: what HttpResponseParser makes of a head

    The machine of HttpClientParser under HttpResponseParser: heads parse to the response they
    describe, however they are cut, so the machine is a [ResponseMachine] and the connection's
    theorems hold for it. *)

From stdpp Require Import pretty.
From S2P Require Import Prelude ByteArray ByteArraySpec Stream StreamSpec Containers Http.
From S2P Require Import HttpSpec HttpParser HttpSession HttpSessionSpec HttpConnection HttpConnectionSpec.
From S2P Require Import Ragel RagelSpec RagelRun HttpClientTable Digits Http11Parser Http11Spec Http11Head Http11Request.
From S2P Require Import HttpClientParser HttpClientSpec HttpClientHead.

(** ** The response a head describes *)

Definition add_rfield (r : HttpResponse) (f : bytes * bytes * bytes) : HttpResponse :=
  let '(name, _, value) := f in rs_setHeader r name value.
Definition rhead_response (h : rhead) : HttpResponse :=
  fold_left add_rfield (rh_fields h)
    (mkResponse (atoi (rh_status h)) (if rh_minor h then 0x11 else 0x10) true [] (rh_reason h) []).

(** ** What a callback does depends on what it is told *)

Definition status_told (c : call) : Prop :=
  match c with
  | status_code a n => exists s b, take (S n) a = s ++ [b] /\ length s = n /\ s <> [] /\ all_in is_dec s /\ is_dec b = false
  | _ => True
  end.

Section calls.
Context {P : Type} `{Machine P}.
Implicit Types (q : HttpResponseParser P).

Lemma response_call_told q c : status_told (told c) -> response_call q c = response_call q (told c).
Proof.
  destruct c; intros Hm; cbn [told response_call] in *; try done.
  - unfold on_response_version. by rewrite version_of_take.
  - unfold on_response_http_field, text. by rewrite !take_take, !Nat.min_id.
  - unfold on_response_reason, text. by rewrite take_take, Nat.min_id.
  - destruct Hm as (s & b & E & _ & Hne & Hs & Hb). rewrite take_take, Nat.min_id in E.
    unfold on_response_status. rewrite E, <- (take_drop (S length) at_), E, <- app_assoc. cbn [app].
    by rewrite (atoi_stop s b []), atoi_stop.
Qed.

Lemma fold_rtold l : forall q, Forall status_told (map told l) ->
  fold_left response_call l q = fold_left response_call (map told l) q.
Proof.
  induction l as [|c l IH]; intros q Hl; [done|]. cbn [map fold_left] in *. apply Forall_cons in Hl as [Hc Hl].
  by rewrite <- response_call_told, IH.
Qed.

(** The calls of a head make the response. *)
Lemma fold_rfields fs : forall q, Forall rfield_ok fs ->
  fold_left response_call (map field_call fs) q = sp_set q (fold_left add_rfield fs (sp_data q)).
Proof.
  induction fs as [|[[name sp] value] fs IH]; intros q Hall; [by destruct q|].
  apply Forall_cons in Hall as [(Hne & _) Hall]. cbn [map fold_left field_call response_call].
  unfold on_response_http_field. rewrite (proj2 (Nat.eqb_neq _ _)) by (by destruct name).
  rewrite IH by done. unfold text. by rewrite !firstn_all.
Qed.

Lemma fold_rhead hd q : rhead_ok hd -> sp_data q = new_HttpResponse 0x11 true -> sp_error q = 0 ->
  fold_left response_call (rhead_calls hd) q = sp_set q (rhead_response hd).
Proof.
  intros (Hs1 & Hs2 & Hr1 & Hr2 & Hfs) Ed Ee. destruct q as [p d e]. cbn in Ed, Ee. subst d e.
  unfold rhead_calls. rewrite !fold_left_app. cbn [fold_left tell response_call]. unfold on_response_version.
  assert (version_of (rh_version hd) (length (rh_version hd)) = Some (if rh_minor hd then 0x11 else 0x10)) as ->
    by (unfold rh_version; by destruct (rh_minor hd)).
  unfold on_response_status, on_response_reason, text. rewrite firstn_all.
  change (str " ") with [Byte.x20]. rewrite atoi_stop by done.
  rewrite fold_rfields by done. done.
Qed.

Lemma rhead_calls_status hd : rhead_ok hd -> Forall status_told (rhead_calls hd).
Proof.
  intros (Hs1 & Hs2 & _). unfold rhead_calls, tell.
  repeat first [apply Forall_app; split | apply Forall_cons; split | apply Forall_nil]; try done.
  - cbn [status_told]. exists (rh_status hd), Byte.x20. split_and!; try done. change (str " ") with [Byte.x20].
    rewrite <- (Nat.add_1_r (length _)). apply firstn_all2. rewrite length_app. cbn [length]. lia.
  - apply Forall_forall. intros c (f & -> & _)%list_elem_of_fmap. by destruct f as [[??]?].
Qed.

(** Callbacks do not touch the machine, and an error stays. *)
Definition sp_with (p : P) (q : HttpResponseParser P) : HttpResponseParser P := mkResponseParser p (sp_data q) (sp_error q).

Lemma rcall_with p q c : response_call (sp_with p q) c = sp_with p (response_call q c).
Proof.
  destruct c; try done; cbn [response_call].
  - unfold on_response_version. by case_match.
  - unfold on_response_http_field. by case_match.
Qed.
Lemma rcalls_with p l : forall q, fold_left response_call l (sp_with p q) = sp_with p (fold_left response_call l q).
Proof. induction l as [|c l IH]; intros q; [done|]. cbn [fold_left]. by rewrite rcall_with, IH. Qed.

Lemma rcall_error q c : sp_error q <> 0 -> sp_error (response_call q c) <> 0.
Proof.
  destruct c; try done; cbn [response_call].
  - unfold on_response_version. by case_match.
  - unfold on_response_http_field. by case_match.
Qed.
Lemma rcalls_error l : forall q, sp_error (fold_left response_call l q) = 0 -> sp_error q = 0.
Proof.
  induction l as [|c l IH]; intros q E; [done|]. cbn [fold_left] in E. apply IH in E.
  destruct (decide (sp_error q = 0)); [done|]. by destruct (rcall_error q c).
Qed.
End calls.

(** ** Runs on a head, and on a part of it *)

Section execute.
Context (raw : httpclient_parser).
#[local] Abbreviation init := (httpclient_parser_init raw).
#[local] Abbreviation exec_on b len := (exec client_blocks (client_act b len) 2).

Lemma init_ready buffer : ready buffer 1 0 init.
Proof. split; [done|done|apply init_rest]. Qed.

Context (hd : rhead) (Hok : rhead_ok hd).
#[local] Abbreviation h := (rhead_text hd).
Context (Hh : Z.of_nat (length h) < 2 ^ 31).

Lemma rhead_nonempty : (0 < length h)%nat.
Proof. unfold rhead_text. rewrite !length_app. cbn [CRLF length]. lia. Qed.

Lemma text_at mem len : take (length h) mem = h -> (length h <= len <= length mem)%nat -> at_ mem (Z.of_nat len) 0 h.
Proof.
  intros Ht Hl. split; [done|]. split; [lia|]. exists (drop (length h) mem). unfold from. rewrite drop_0.
  rewrite <- Ht at 1. by rewrite take_drop.
Qed.

(** A memory that begins with the head. *)
Lemma exec_rhead mem len : take (length h) mem = h -> (length h <= len <= length mem)%nat -> Z.of_nat len < 2 ^ 31 ->
  exists h' c, exec_on mem (Z.of_nat len) 1 0 (take len mem) (init, []) = Ok (120, Z.of_nat (length h), true) (h', c) /\
    c_stays 1 (take len mem) = true /\ map told c = rhead_calls hd /\
    hc_chunked h' = if announces_chunks hd then 1 else 0.
Proof.
  intros Ht Hl H31. pose proof rhead_nonempty as Hne.
  destruct (run_rhead mem (Z.of_nat len) ltac:(split; lia) hd (take (len - length h) (drop (length h) mem)) init Hok
    (text_at mem len Ht Hl) (init_ready mem) eq_refl) as (h' & c & E & T & C).
  assert (h ++ take (len - length h) (drop (length h) mem) = take len mem) as Em.
  { rewrite <- (take_drop (length h) (take len mem)). f_equal.
    - rewrite take_take, Nat.min_l by lia. done.
    - rewrite take_drop_commute. do 2 f_equal. lia. }
  rewrite Em in E. exists h', c. split_and!; [exact (f_equal fst E)|exact (f_equal snd E)|done|done].
Qed.

(** A proper part of it. *)
Lemma exec_rpart k : (k < length h)%nat -> exists cs h' c,
  exec_on h (Z.of_nat (length h)) 1 0 (take k h) (init, []) = Ok (cs, Z.of_nat k, false) (h', c) /\
  0 < cs < 120 /\ c_rest h cs (Z.of_nat k) h' /\ same_tag init h' /\ map told c `prefix_of` rhead_calls hd.
Proof.
  intros Hk. destruct (exec_rhead h (length h) (firstn_all _) ltac:(lia) Hh) as (h2 & c2 & E & Hst & T & _).
  rewrite firstn_all in E, Hst. pose proof rhead_nonempty as Hne.
  assert (fits_int h (Z.of_nat (length h))) as Fi by (split; lia).
  pose proof (exec_app client_blocks (client_act h (Z.of_nat (length h))) 2 (take k h) 1 0 (drop k h) (init, [])) as Ea.
  rewrite take_drop in Ea.
  assert (c_stays 1 (take k h) = true) as Hst1 by (rewrite <- (take_drop k h) in Hst; by eapply stays_app).
  destruct (exec_alike client_blocks 120 123 client_flow client_adv client_flags client_le client_good client_table_ok
    client_act 2 cut c_during c_settled same_tag client_laws h h _ _ (Z.of_nat (length h)) Fi Fi ltac:(lia) ltac:(lia) eq_refl
    (take k h) 1 0 init [] [] ltac:(done) eq_refl Hst1 (init_rest raw h))
    as (cs & p & out & h1 & d & _ & E1 & _ & _ & Hs & Hc & _).
  { rewrite drop_0, length_take, Nat.min_l by lia. done. } { rewrite length_take. lia. }
  pose proof (exec_position _ _ _ _ _ _ _ _ _ _ _ E1) as [Hp Hp']. rewrite length_take in Hp, Hp'.
  rewrite Ea, (bind_ok _ _ _ _ _ E1) in E. destruct out; [injection E as _ E _ _; lia|].
  specialize (Hp' eq_refl). assert (p = Z.of_nat k) as -> by lia.
  destruct (Hc ltac:(done)) as (Hk1 & Hg1 & R1 & Ho).
  assert (0 < cs < 120) as Hcs.
  { destruct (decide (k = 0%nat)) as [->|Hk0]; [cbn in E1; injection E1 as <- _ _; lia|]. apply Ho. intros E0.
    assert (length (take k h) = 0%nat) as L by by rewrite E0. rewrite length_take in L. lia. }
  exists cs, h1, d. split_and!; try done; try lia.
  assert (client_good cs = true) as Hg by (destruct Hg1 as [->|]; [lia|done]).
  assert (c_stays cs (drop k h) = true) as Hst2.
  { rewrite <- (take_drop k h) in Hst. eapply stays_exec; [exact Hst|exact E1]. }
  destruct (exec_alike client_blocks 120 123 client_flow client_adv client_flags client_le client_good client_table_ok
    client_act 2 cut c_during c_settled same_tag client_laws h h _ _ (Z.of_nat (length h)) Fi Fi ltac:(lia) ltac:(lia) eq_refl
    (drop k h) cs (Z.of_nat k) h1 ([] ++ d) [] Hk1 Hg Hst2 R1)
    as (cs' & p' & out' & h'' & d3 & _ & E3 & _).
  { rewrite Nat2Z.id. apply firstn_all. } { rewrite length_drop. lia. }
  rewrite E3 in E. injection E as _ _ _ _ <-. rewrite <- T, map_app. by apply prefix_app_r.
Qed.
End execute.

(** ** The response machine *)

Section machine.
Context (raw : httpclient_parser).
#[local] Instance raw_client : Machine httpclient_parser := client_machine raw.
#[local] Abbreviation init := (httpclient_parser_init raw).
#[local] Abbreviation fresh_parser := (@new_HttpResponseParser httpclient_parser raw_client).
#[local] Abbreviation exec_on b len := (exec client_blocks (client_act b len) 2).
Implicit Types (q : HttpResponseParser httpclient_parser).

Definition http_is_rhead (h : bytes) (ch : bool) (r : HttpResponse) : Prop :=
  exists hd, rhead_ok hd /\ h = rhead_text hd /\ r = rhead_response hd /\ ch = announces_chunks hd /\
    Z.of_nat (length h) < 2 ^ 31.
(** The parser behind the first [k] bytes of a head. *)
Definition http_rfed (h : bytes) (ch : bool) (r : HttpResponse) q (n : Z) (k : nat) : Prop :=
  http_is_rhead h ch r /\ n = Z.of_nat k /\ (k < length h)%nat /\
  exists cs h1 c, exec_on h (Z.of_nat (length h)) 1 0 (take k h) (init, []) = Ok (cs, n, false) (h1, c) /\
    q = sp_with (c_re cs n h1) (fold_left response_call (map told c) fresh_parser).

Lemma parser_of_rhead hd : rhead_ok hd ->
  fold_left response_call (rhead_calls hd) fresh_parser = sp_set fresh_parser (rhead_response hd).
Proof. intros Hok. by apply fold_rhead. Qed.

(** Feeding more of the stream of a head, from the state behind its first [k] bytes. *)
Lemma feed_rmore hd ch r q n k mem len : rhead_ok hd -> http_rfed (rhead_text hd) ch r q n k ->
  (k <= len)%nat -> (0 < len)%nat -> Z.of_nat len < 2 ^ 31 -> mem !! len = Some Byte.x00 ->
  take k mem = take k (rhead_text hd) -> c_stays 1 (take len mem) = true ->
  exists cs p out h2 c2, exec_on mem (Z.of_nat len) 1 0 (take len mem) (init, []) = Ok (cs, p, out) (h2, c2) /\
    (map told c2 `prefix_of` rhead_calls hd -> 0 <= p < 2 ^ 31 ->
     sp_execute q mem (Z.of_nat len) n = (sp_with (c_re cs p h2) (fold_left response_call (map told c2) fresh_parser), p)).
Proof.
  intros Hok ((hd' & _ & Ehd & _ & _ & Hh) & -> & Hk & cs0 & h1 & c1 & E & ->) Hkl Hpos H31 Hnul Ht Hst.
  pose proof (lookup_lt_Some _ _ _ Hnul) as Hlm. set (h := rhead_text hd) in *.
  assert (fits_int h (Z.of_nat (length h))) as F1 by (split; lia).
  assert (fits_int mem (Z.of_nat len)) as F2 by (split; lia).
  destruct (exec_continue client_blocks 120 123 client_flow client_adv client_flags client_le client_good client_table_ok
    client_act 2 cut c_during c_settled same_tag client_laws h _ mem _ 1 init k len cs0 h1 c1 F1 F2 ltac:(lia) Hkl ltac:(lia)
    (eq_sym Ht) ltac:(done) ltac:(done) eq_refl Hst (init_rest raw) E) as ([[cs p] out] & h2 & d & c2 & G1 & G2 & Hc).
  exists cs, p, out, h2, c2. split; [exact G2|]. intros Hpre Hp.
  destruct (exec_alike client_blocks 120 123 client_flow client_adv client_flags client_le client_good client_table_ok
    client_act 2 cut c_during c_settled same_tag client_laws mem mem _ _ (Z.of_nat len) F2 F2 ltac:(lia) ltac:(lia) eq_refl
    (take len mem) 1 0 init [] [] ltac:(done) eq_refl Hst (init_rest raw mem))
    as (cs' & p' & out' & h2' & d2 & _ & G3 & _ & _ & Hs & Hc' & _).
  { rewrite drop_0, length_take, Nat.min_l by lia. done. } { rewrite length_take. lia. }
  rewrite G2 in G3. injection G3 as <- <- <- <- <-. destruct (Hc' ltac:(done)) as (_ & _ & R2 & _).
  unfold sp_execute. cbn [mc_execute raw_client client_machine sp_parser sp_with]. unfold client_machine_execute.
  destruct (client_execute_runs mem (Z.of_nat len) (Z.of_nat k) (c_re cs0 (Z.of_nat k) h1) [] cs p out
    (c_re cs0 (Z.of_nat k) h2) d F2) as [X Hpp].
  { unfold ends_nul. by rewrite Nat2Z.id. } { lia. } { done. }
  { change (hc_cs (c_re cs0 (Z.of_nat k) h1)) with cs0.
    rewrite (tag_exec client_blocks (client_act mem (Z.of_nat len)) 2 (c_re cs0 (Z.of_nat k)) (client_tag mem (Z.of_nat len) cs0 (Z.of_nat k))).
    rewrite Nat2Z.id, <- Nat2Z.inj_sub, Nat2Z.id by lia. by rewrite G1. }
  { done. } { by apply c_settled_tag. }
  rewrite X. change (c_re cs p (c_re cs0 (Z.of_nat k) h2)) with (c_re cs p h2).
  assert (u64 p = p) as -> by (apply uwrap_id; fits). f_equal.
  change (mkResponseParser (c_re cs p h2) _ _) with (sp_with (c_re cs p h2) (fold_left response_call (map told c1) fresh_parser)).
  rewrite rcalls_with, <- (told_of_cut _ _ Hc), map_app, fold_left_app. f_equal. apply fold_rtold.
  rewrite <- (told_of_cut _ _ Hc) in Hpre. destruct Hpre as [l El].
  pose proof (rhead_calls_status hd Hok) as Hm. rewrite El, map_app, <- app_assoc in Hm.
  apply Forall_app in Hm as [_ Hm]. by apply Forall_app in Hm as [Hm _].
Qed.

#[export] Program Instance http_response_machine : @ResponseMachine httpclient_parser raw_client (client_fields raw) := {
  is_rhead := http_is_rhead; rfed := http_rfed }.
Next Obligation.
  intros h ch r (hd & Hok & -> & -> & -> & Hh). split; [by exists hd|]. split; [done|].
  split; [apply (rhead_nonempty hd)|]. exists 1, init, []. done.
Qed.
Next Obligation.
  intros h ch r q n k mem len Hfed [Hk Hlen] Hpos H31 Hnul Ht.
  pose proof Hfed as ((hd & Hok & -> & -> & -> & Hh) & -> & Hkh & _). pose proof (lookup_lt_Some _ _ _ Hnul) as Hlm.
  assert (take k mem = take k (rhead_text hd)) as Htk by (rewrite <- (Nat.min_l k len) by lia; by rewrite <- !take_take, Ht).
  destruct (exec_rhead raw hd Hok (rhead_text hd) (length (rhead_text hd)) (firstn_all _) ltac:(lia) Hh) as (_ & _ & _ & Hst & _).
  rewrite firstn_all, <- (take_drop len (rhead_text hd)) in Hst. apply stays_app in Hst.
  destruct (exec_rpart raw hd Hok Hh len Hlen) as (cs2 & h2 & c2 & F2 & Hcs & R2 & S2 & Hpre).
  destruct (feed_rmore hd _ _ q (Z.of_nat k) k mem len Hok Hfed Hk Hpos H31 Hnul Htk ltac:(by rewrite Ht))
    as (cs & p & out & h3 & c3 & F3 & G).
  destruct (exec_alike client_blocks 120 123 client_flow client_adv client_flags client_le client_good client_table_ok
    client_act 2 cut c_during c_settled same_tag client_laws mem (rhead_text hd) (Z.of_nat len) (Z.of_nat (length (rhead_text hd)))
    (Z.of_nat len) ltac:(split; lia) ltac:(split; lia) ltac:(lia) ltac:(lia) ltac:(unfold agree; by rewrite Nat2Z.id, Ht)
    (take len mem) 1 0 init [] [] ltac:(done) eq_refl ltac:(by rewrite Ht) (init_rest raw mem))
    as (cs' & p' & out' & h' & d1 & d2 & X1 & X2 & Hd & _).
  { rewrite drop_0, length_take, Nat.min_l by lia. done. } { rewrite length_take. lia. }
  rewrite F3 in X1. injection X1 as <- <- <- <- ->. rewrite Ht, F2 in X2. injection X2 as <- <- <- <- ->.
  cbn [app] in *. rewrite <- (told_of_cut _ _ Hd) in Hpre. rewrite (G Hpre ltac:(lia)).
  assert (sp_error (fold_left response_call (map told d1) fresh_parser) = 0) as He.
  { destruct Hpre as [l El]. apply (rcalls_error l). rewrite <- fold_left_app, <- El, parser_of_rhead by done. done. }
  split; [|split].
  - unfold sp_hasError. cbn [sp_error sp_with sp_parser]. rewrite He. cbn. unfold httpclient_parser_has_error, httpclient_parser_error.
    cbn. by apply Z.eqb_neq; lia.
  - unfold sp_isFinished. cbn. unfold httpclient_parser_finish, httpclient_parser_has_error, httpclient_parser_is_finished,
      httpclient_parser_error, httpclient_parser_first_final. cbn. by rewrite (proj2 (Z.eqb_neq cs2 0)), (proj2 (Z.eqb_neq cs2 120)) by lia.
  - split; [by exists hd|]. split; [done|]. split; [lia|]. exists cs2, h2, d2. split; [done|]. by rewrite (told_of_cut _ _ Hd).
Qed.
Next Obligation.
  intros h ch r q n k mem len Hfed Hk Hl H31 Hnul Ht. pose proof Hfed as ((hd & Hok & -> & -> & -> & Hh) & _).
  pose proof (lookup_lt_Some _ _ _ Hnul) as Hlm. pose proof (rhead_nonempty hd) as Hne.
  assert (take k mem = take k (rhead_text hd)) as Htk.
  { transitivity (take k (take (length (rhead_text hd)) mem)); [by rewrite take_take, Nat.min_l by lia|by rewrite Ht]. }
  destruct (exec_rhead raw hd Hok mem len Ht ltac:(lia) H31) as (h2 & c2 & F2 & Hst & T2 & Hch).
  destruct (feed_rmore hd _ _ q n k mem len Hok Hfed ltac:(lia) ltac:(lia) H31 Hnul Htk Hst) as (cs & p & out & h3 & c3 & F3 & G).
  rewrite F2 in F3. injection F3 as <- <- <- <- <-. rewrite G by (by rewrite T2 || lia).
  rewrite T2, parser_of_rhead by done. split_and!; try done. cbn. rewrite Hch. by destruct (announces_chunks hd).
Qed.
End machine.
