(* ===== verification/HttpClientWire.v ===== *)
(** * From dump to recvResponse

    A response that a server prints, received by a client: HttpResponse::dump, the machine of
    httpclient_parser.cpp, HttpResponseParser and HttpConnection together; and heads that the
    machine does not read as it should. *)

From stdpp Require Import pretty.
From S2P Require Import Prelude ByteArray ByteArraySpec Stream StreamSpec Containers Http.
From S2P Require Import HttpSpec HttpParser HttpSession HttpSessionSpec HttpConnection HttpConnectionSpec.
From S2P Require Import Ragel RagelSpec RagelRun HttpClientTable Digits Http11Parser Http11Spec Http11Head Http11Request HttpWire.
From S2P Require Import HttpClientParser HttpClientSpec HttpClientHead HttpClientResponse.

(** ** Responses that can be sent *)

Definition shown_reason (r : HttpResponse) : bytes :=
  if empty (rs_reason r) then HttpStatusToString (rs_status r) else rs_reason r.
Definition rtext_field (f : bytes * bytes) : Prop := rfield_ok (fst f, str " ", snd f).
Definition plain_field (f : bytes * bytes) : Prop := is_chunked (fst f, str " ", snd f) = false.

Record sendable_rsp (r : HttpResponse) : Prop := {
  sr_status : 0 <= rs_status r < 2 ^ 31;
  sr_version : rs_version r = 0x10 \/ rs_version r = 0x11;
  sr_reason : all_in value_char (rs_reason r);
  sr_headers : valid (rs_headers r);
  sr_fields : Forall rtext_field (rs_headers r);
  sr_plain : Forall plain_field (rs_headers r);
  sr_length : map_find (str "content-length") (rs_headers r) = None }.

(** The misspelt token of [HttpResponse::dump] *)
Definition connection_rtext (close : bool) : bytes := if close then str "colse" else str "keep-alive".
Definition sent_rfields (r : HttpResponse) : list (bytes * bytes) :=
  fields (rs_headers r) ++ (str "connection", connection_rtext (rs_close r)) :: length_field (rs_body r).
Definition dumped_rhead (r : HttpResponse) : rhead :=
  mkRHead (rs_version r =? 0x11) (dec (rs_status r)) (shown_reason r)
    ((fun f => (fst f, str " ", snd f)) <$> sent_rfields r).

Lemma rdump_is_head r : sendable_rsp r -> rs_dump r = rhead_text (dumped_rhead r) ++ rs_body r.
Proof.
  intros S. unfold rs_dump, rhead_text, dumped_rhead, sent_rfields, rh_version, shown_reason.
  cbn [rh_minor rh_status rh_reason rh_fields].
  rewrite dump_fields, dump_headers_ok, dump_body_ok, fmap_app, fmap_cons, concat_app. cbn [concat fst snd].
  unfold connection_rtext. destruct (sr_version r S) as [-> | ->]; rewrite <- ?app_assoc; reflexivity.
Qed.

Lemma shown_reason_ok r : sendable_rsp r -> shown_reason r <> [] /\ all_in value_char (shown_reason r).
Proof.
  intros S. unfold shown_reason. pose proof (sr_reason r S) as Hr. destruct (rs_reason r) as [|b s] eqn:E; [|done].
  cbn [empty]. unfold HttpStatusToString. destruct (List.find _ _) as [x|] eqn:Ef; [|done].
  apply List.find_some in Ef as [Hin _].
  assert (forallb (fun r => negb (empty (snd r)) && forallb value_char (snd r)) HTTP_STATUS_MAP = true) as H by (vm_compute; reflexivity).
  rewrite forallb_forall in H. specialize (H x Hin). apply andb_true_iff in H as [H1 H2].
  split; [|done]. intros E0. by rewrite E0 in H1.
Qed.

Lemma length_rfield_ok body : Forall rtext_field (length_field body).
Proof.
  unfold length_field. destruct (empty body); [constructor|]. constructor; [|constructor].
  unfold rtext_field, rfield_ok. cbn [fst snd]. split_and!; try done.
  - unfold all_in. pose proof (proj1 (pretty_dec (N.of_nat (length body)))) as H. rewrite forallb_forall in *.
    intros b Hb. apply HttpWire.digit_value. by apply H.
  - unfold dec_size. destruct (pretty_dec (N.of_nat (length body))) as (H & _ & Hne).
    destruct (str (pretty (N.of_nat (length body)))) as [|b s]; [done|]. cbn [forallb] in H.
    apply andb_true_iff in H as [Hb _]. by apply HttpWire.digit_value.
Qed.

Lemma dumped_rhead_ok r : sendable_rsp r -> rhead_ok (dumped_rhead r).
Proof.
  intros S. destruct (atoi_dec _ (sr_status r S)) as (_ & Hd & Hne). destruct (shown_reason_ok r S) as [Hr1 Hr2].
  unfold rhead_ok, dumped_rhead. cbn [rh_status rh_reason rh_fields]. split_and!; try done.
  apply Forall_fmap. unfold sent_rfields. apply Forall_app. split.
  - apply Forall_forall. intros f [_ Hf]%list_elem_of_filter. by apply (proj1 (Forall_forall _ _) (sr_fields r S)).
  - constructor; [by destruct (rs_close r)|apply length_rfield_ok].
Qed.

Lemma dumped_plain r : sendable_rsp r -> announces_chunks (dumped_rhead r) = false.
Proof.
  intros S. unfold announces_chunks, dumped_rhead, sent_rfields. cbn [rh_fields]. apply not_true_is_false.
  intros ([[n s] v] & Hin & Hc)%existsb_exists. apply list_elem_of_In, list_elem_of_fmap in Hin as (f & [= -> -> ->] & Hf).
  apply elem_of_app in Hf as [Hf|[Hf|Hf]%elem_of_cons].
  - apply list_elem_of_filter in Hf as [_ Hf]. pose proof (proj1 (Forall_forall _ _) (sr_plain r S) f Hf) as Hp.
    unfold plain_field in Hp. congruence.
  - subst f. by destruct (rs_close r).
  - unfold length_field in Hf. destruct (empty (rs_body r)); [by apply elem_of_nil in Hf|].
    apply list_elem_of_singleton in Hf as ->. done.
Qed.

(** *** The headers that arrive *)

Lemma fold_add_rfield fs : forall r,
  fold_left add_rfield ((fun f => (fst f, str " ", snd f)) <$> fs) r = rs_with_headers r (assign_all fs (rs_headers r)).
Proof.
  induction fs as [|[n v] fs IH]; intros r; [by destruct r|]. cbn [fmap list_fmap fold_left add_rfield fst snd].
  by rewrite IH.
Qed.

Definition arrived_rsp (r : HttpResponse) (key : bytes) : option bytes :=
  if decide (same_key key (str "connection")) then Some (connection_rtext (rs_close r))
  else if negb (empty (rs_body r)) && bool_decide (same_key key (str "content-length")) then Some (dec_size (rs_body r))
  else map_find key (rs_headers r).

Lemma sent_rfind r key : valid (rs_headers r) -> map_find key (assign_all (sent_rfields r) []) = arrived_rsp r key.
Proof.
  intros Hv. rewrite assign_all_find by constructor. unfold sent_rfields, arrived_rsp.
  rewrite rev_app_distr. cbn [rev]. rewrite <- app_assoc, !find_app.
  pose proof (find_in_valid (fields (rs_headers r)) key (fields_valid _ Hv)) as Hf. rewrite fields_find in Hf by done.
  unfold length_field. assert (forall b, bool_decide (same_key b key) = bool_decide (same_key key b)) as Hsym
    by (intros b; apply bool_decide_ext; split; by symmetry).
  case_decide as Hc.
  - assert (~ same_key key (str "content-length")) as Hn by (intros E; rewrite Hc in E; by vm_compute in E).
    assert (bool_decide (same_key (str "connection") key) = true) as Hct by by rewrite Hsym, bool_decide_true.
    assert (bool_decide (same_key (str "content-length") key) = false) as Hcf by by rewrite Hsym, bool_decide_false.
    destruct (empty (rs_body r)); cbn [rev app List.find fst]; rewrite ?Hcf, Hct; done.
  - assert (bool_decide (same_key (str "connection") key) = false) as Hcf by by rewrite Hsym, bool_decide_false.
    destruct (empty (rs_body r)); cbn [rev app List.find fst negb andb]; rewrite ?(Hsym (str "content-length")).
    + rewrite Hcf, <- Hf. by destruct (List.find _ _).
    + destruct (bool_decide (same_key key (str "content-length"))); [done|].
      rewrite Hcf, <- Hf. by destruct (List.find _ _).
Qed.

Lemma rhead_response_dumped r : sendable_rsp r ->
  rhead_response (dumped_rhead r) =
    mkResponse (rs_status r) (rs_version r) true [] (shown_reason r) (assign_all (sent_rfields r) []).
Proof.
  intros S. unfold rhead_response, dumped_rhead. cbn [rh_status rh_minor rh_reason rh_fields].
  rewrite fold_add_rfield. unfold rs_with_headers. cbn. destruct (atoi_dec _ (sr_status r S)) as [-> _].
  by destruct (sr_version r S) as [-> | ->].
Qed.

(** ** Properties *)

(** What the client has of a response: all of it but the close flag. *)
Record same_response (r r' : HttpResponse) : Prop := {
  same_status : rs_status r' = rs_status r;
  same_rversion : rs_version r' = rs_version r;
  same_rclose : rs_close r' = false;
  same_reason : rs_reason r' = shown_reason r;
  same_rbody : rs_body r' = rs_body r;
  same_rheaders : forall key, map_find key (rs_headers r') = arrived_rsp r key }.

Lemma delivered_rsp_same r : sendable_rsp r ->
  same_response r (delivered_rsp (rhead_response (dumped_rhead r)) (rs_body r)).
Proof.
  intros S. rewrite rhead_response_dumped by done. pose proof (sr_headers r S) as Hv. unfold delivered_rsp.
  set (h := assign_all (sent_rfields r) []).
  constructor; try done; [|intros key; by apply sent_rfind].
  cbn [rs_close rs_with_close]. unfold rs_getHeader. cbn [rs_headers rs_with_body]. unfold h.
  rewrite sent_rfind by done. unfold arrived_rsp. rewrite decide_True by done. by destruct (rs_close r).
Qed.

Section wire.
Context {W : Type} `{KernelSpec W} `{!Lively W} `{Allocator} (raw : httpclient_parser).
Context (lexical_cast : bytes -> option Z).
#[local] Instance wire_client : Machine httpclient_parser := client_machine raw.
#[local] Instance wire_responses : ResponseMachine httpclient_parser := http_response_machine raw.
Implicit Types (w : W) (hc : HttpConnection).

Lemma content_length_arrived r : sendable_rsp r ->
  (rs_body r <> [] -> lexical_cast (dec_size (rs_body r)) = Some (Z.of_nat (length (rs_body r)))) ->
  GetAs lexical_cast (rs_headers (rhead_response (dumped_rhead r))) (str "content-length") 0 = Z.of_nat (length (rs_body r)).
Proof.
  intros S Hcast. unfold GetAs. rewrite rhead_response_dumped by done. cbn [rs_headers]. rewrite sent_rfind by apply S.
  unfold arrived_rsp. rewrite decide_False by by vm_compute. rewrite (bool_decide_true (same_key _ _)) by done.
  destruct (empty (rs_body r)) eqn:Eb; cbn [negb andb].
  - rewrite (sr_length r S). by destruct (rs_body r).
  - rewrite Hcast; [done|]. by destruct (rs_body r).
Qed.

Lemma response_arrives chunks c max_body r w hc :
  sendable_rsp r -> greedy (W := W) -> open (hc_stream hc) -> left_size hc = 0 -> c < 2 ^ 31 ->
  (rs_body r <> [] -> lexical_cast (dec_size (rs_body r)) = Some (Z.of_nat (length (rs_body r)))) ->
  Z.of_nat (length (rs_dump r)) <= buffer_size_of c -> Z.of_nat (length (rs_body r)) <= max_body < 2 ^ 63 ->
  incoming w = rs_dump r ->
  exists r' w' hc', recvResponse lexical_cast chunks c max_body (w, hc) = Ok (Some r') (w', hc') /\
    same_response r r' /\ incoming w' = [] /\ left_size hc' = 0 /\ hc_stream hc' = hc_stream hc.
Proof.
  intros S Hg Ho Hleft Hc Hcast Hb Hmax Hi. pose proof (rdump_is_head r S) as Ed. set (hd := dumped_rhead r) in *.
  pose proof (buffer_size_range c Hc) as HB. rewrite Ed in Hi, Hb. pose proof Hb as Hb'. rewrite length_app in Hb'.
  pose proof (dumped_rhead_ok r S) as Hok. pose proof (rhead_nonempty hd) as Hne.
  pose proof (content_length_arrived r S Hcast) as Hcl. fold hd in Hcl, Hok.
  assert (is_rhead (rhead_text hd) false (rhead_response hd)) as Hh.
  { exists hd. split_and!; try done; [|lia]. symmetry. by apply dumped_plain. }
  destruct (recvResponse_start (P := httpclient_parser) lexical_cast chunks c max_body (rhead_text hd) false (rhead_response hd) (rs_body r) w hc)
    as (w1 & p & data & k & Hk & Hkb & Hr & Hch & Ht & Hl & Hi1 & Hkall & E); try done; [lia|].
  specialize (Hkall Hg Hb). subst k. rewrite drop_all in Hi1.
  unfold sp_getContentLength in E. rewrite Hch, Hr, Hcl in E. unfold s64 in E. rewrite !(swrap_id 64) in E by fits.
  rewrite (proj2 (Z.ltb_ge max_body _)) in E by lia. cbv zeta in E.
  destruct (decide (rs_body r = [])) as [Eb|Hbody].
  - rewrite Eb in *. rewrite app_nil_r in *. change (0 <? Z.of_nat (length [])) with false in E. cbv iota in E.
    unfold conn_saveLeftData, bind in E. cbn [fst snd] in E. rewrite Z.sub_diag in E. change (u64 0) with 0 in E.
    rewrite !(proj2 (Z.leb_le 0 _)) in E by lia. cbn [andb] in E.
    exists (delivered_rsp (rhead_response hd) []), w1, (mkConnection (hc_stream hc) 0
      (splice 0 (take (Z.to_nat 0) data) (left_data hc)) (m_createTimes hc) (m_request hc)). split_and!; [|rewrite <- Eb; by apply delivered_rsp_same|done|done|done].
    assert (rs_with_body (rhead_response hd) [] = rhead_response hd) as En by (unfold hd; by rewrite rhead_response_dumped).
    rewrite E. unfold ret, sp_getIsClose, delivered_rsp. cbn [fst sp_data sp_set]. by rewrite Hr, En.
  - assert (0 < Z.of_nat (length (rs_body r))) as Hpos by (destruct (rs_body r); [done|cbn [length]; lia]).
    rewrite (proj2 (Z.ltb_lt 0 _)) in E by lia.
    pose proof (sized_body_ok (rhead_text hd) (rs_body r) data _ w1 hc c Ho Hc ltac:(lia) Hk ltac:(lia) Ht Hl
      ltac:(by rewrite drop_all)) as Sb. cbv zeta in Sb. rewrite Nat.eqb_refl in Sb. destruct Sb as (hc' & Es & Hl' & Hs').
    rewrite (bind_ok _ _ _ _ _ Es) in E.
    exists (delivered_rsp (rhead_response hd) (rs_body r)), w1, hc'. split_and!; try done. by apply delivered_rsp_same.
Qed.

(** C4: a response that is printed with [dump] and sent arrives as it is, but for the close flag.
    For every response with HTTP/1.0 or 1.1, a status of at most 31 bits, a reason and non-empty
    fields of the characters the RFCs allow, that does not announce chunks: when what [dump]
    prints fits the buffer and one read takes what there is, [recvResponse] with the machine of
    httpclient_parser.cpp returns a response with the same status, version and body, the reason
    that was shown, and the same headers, together with the [connection] and [content-length]
    fields of the message; it never asks to close. *)
Theorem response_roundtrip chunks c max_body r w hc :
  sendable_rsp r -> greedy (W := W) -> open (hc_stream hc) -> left_size hc = 0 -> c < 2 ^ 31 ->
  (rs_body r <> [] -> lexical_cast (dec_size (rs_body r)) = Some (Z.of_nat (length (rs_body r)))) ->
  Z.of_nat (length (rs_dump r)) <= buffer_size_of c -> Z.of_nat (length (rs_body r)) <= max_body < 2 ^ 63 ->
  incoming w = rs_dump r ->
  exists r' w' hc', recvResponse lexical_cast chunks c max_body (w, hc) = Ok (Some r') (w', hc') /\
    same_response r r' /\ incoming w' = [] /\ left_size hc' = 0 /\ hc_stream hc' = hc_stream hc.
Proof. apply response_arrives. Qed.
End wire.

(** *** Heads that are read wrongly *)

Definition http11 : bytes := str "HTTP/1.1 200 OK" ++ CRLF.

(** A response whose last field is an empty Connection, Content-Length or Transfer-Encoding
    is never finished: the machine stops behind the empty line, in a final state that
    [httpclient_parser_is_finished] does not know, and the first byte of the next response is an
    error. *)
Theorem empty_field_never_finishes raw name :
  name ∈ [str "Connection"; str "Content-Length"; str "Transfer-Encoding"] ->
  let text := http11 ++ name ++ str ":" ++ CRLF ++ CRLF in
  exists h calls, httpclient_parser_execute (text ++ [Byte.x00]) (Z.of_nat (length text)) 0 (httpclient_parser_init raw, []) =
      Ok (Z.of_nat (length text)) (h, calls) /\
    httpclient_parser_finish h = 0 /\
    exists h' calls', httpclient_parser_execute (text ++ str "H" ++ [Byte.x00]) (Z.of_nat (length text + 1)) (Z.of_nat (length text)) (h, calls) =
      Ok (Z.of_nat (length text)) (h', calls') /\ httpclient_parser_finish h' = -1.
Proof.
  intros Hn. repeat (apply elem_of_cons in Hn as [->|Hn]); [..|by apply elem_of_nil in Hn];
    (eexists _, _; split; [vm_compute; reflexivity|]; split; [vm_compute; reflexivity|];
     eexists _, _; split; [vm_compute; reflexivity|vm_compute; reflexivity]).
Qed.

(** Behind an empty Content-Length that ends with a bare line feed, a line of digits is taken
    for its value, with the length of the name Content-Length but the position of the digits:
    the name that [http_field] is called with has 14 bytes, of which twelve lie behind all that
    was received; when the memory ends before them, the behaviour is undefined. *)
Theorem stale_field_length_overreads raw beyond :
  length beyond = 11%nat ->
  let text := http11 ++ str "Content-Length:" ++ [Byte.x0a] ++ str "5" ++ [Byte.x0a] in
  (exists h calls v, httpclient_parser_execute (text ++ Byte.x00 :: beyond) (Z.of_nat (length text)) 0 (httpclient_parser_init raw, []) =
      Ok (Z.of_nat (length text)) (h, calls ++ [http_field (str "5" ++ [Byte.x0a; Byte.x00] ++ beyond) 14 v 1])) /\
  httpclient_parser_execute (text ++ [Byte.x00]) (Z.of_nat (length text)) 0 (httpclient_parser_init raw, []) = Undef out_of_bounds.
Proof.
  intros Hb. do 11 (destruct beyond as [|? beyond]; [discriminate Hb|]). destruct beyond; [|discriminate Hb].
  split; [|vm_compute; reflexivity]. 
  eexists _, [_; _; _; _], _. vm_compute. reflexivity.
Qed.

(** *** Chunk headers *)

Lemma chunk_line : checked (set_moves [1] is_hex [c_mark] false [2] anywhere && set_moves [2] is_hex [] false [2] anywhere) /\
  trans client_blocks 2 Byte.x0d = Some ([c_chunk_size], GOTO 3).
Proof. split; [apply Checked|]; vm_compute; reflexivity. Qed.

#[local] Opaque exec client_blocks.

Lemma run_chunk_header buffer len (F : fits_int buffer len) ds ys h0 : ds <> [] -> all_in is_hex ds ->
  at_ buffer len 0 (ds ++ CRLF) -> ready buffer 1 0 h0 ->
  exists h d, machine buffer len 1 0 ((ds ++ CRLF) ++ ys) (h0, []) = (Ok (120, Z.of_nat (length (ds ++ CRLF)), true) (h, d), true) /\
    let n := s32 (clamp_long (value_of 16 ds)) in
    hc_content_len h = n /\ hc_chunked h = 1 /\ hc_chunks_done h = if n <=? 0 then 1 else 0.
Proof.
  intros Hne Hx Hat R. destruct ds as [|b ds]; [done|]. pose proof Hx as [Hb Hx']%all_in_cons.
  destruct chunk_line as [[M1 M2]%checked_andb Et].
  pose proof Hat as Hat0. apply (at_app' buffer len F) in Hat as [Hds Hend]. pose proof Hds as Hds0.
  apply (at_app' buffer len F 0 [b] ds) in Hds as [Ha1 Ha2]. apply (at_app' buffer len F _ [Byte.x0d] [Byte.x0a]) in Hend as [He1 He2].
  set (k := Z.of_nat (length (b :: ds))) in *. rewrite Z.add_0_l in *. change (Z.of_nat (length [Byte.x0d])) with 1 in He2.
  change (Z.of_nat (length [b])) with 1 in Ha2.
  assert (((b :: ds) ++ CRLF) ++ ys = b :: ds ++ Byte.x0d :: Byte.x0a :: ys) as -> by (cbn [app]; by rewrite <- app_assoc).
  destruct (one_go buffer len F 1 _ [c_mark] 2 b (ds ++ Byte.x0d :: Byte.x0a :: ys) 0 h0 [] M1 eq_refl Hb R Ha1)
    as (h1 & E1 & R1 & (V1 & _) & C1). cbn in V1.
  destruct (set_loop buffer len F [2] is_hex [] anywhere same_view ds M2 eq_refl ltac:(done) (same_view_preorder) ltac:(done) Hx' 2 (0 + 1)
    (Byte.x0d :: Byte.x0a :: ys) h1 [] eq_refl R1 Ha2) as (q & h2 & E2 & ->%in_one & _ & R2 & (V2 & _) & C2).
  replace (0 + 1 + Z.of_nat (length ds)) with k in * by (unfold k; cbn [length]; lia).
  destruct (at_range' buffer len _ _ He1) as [_ Hk1]. cbn [length] in Hk1.
  assert (buffer !! Z.to_nat k = Some Byte.x0d) as Hlk.
  { destruct He1 as (_ & _ & rest & Hr). rewrite <- (Nat.add_0_r (Z.to_nat k)), <- lookup_drop. unfold from in Hr. by rewrite Hr. }
  destruct (cgo buffer len F 2 [c_chunk_size] 3 Byte.x0d (Byte.x0a :: ys) k h2 [] R2 Et ltac:(lia) eq_refl Hlk ltac:(lia)) as [E3 R3].
  match type of E3 with _ = machine _ _ _ _ _ (_, ?l) => set (c3 := l) in * end.
  destruct line_end as [_ El]. destruct R3 as [_ _ R3].
  destruct (law_start _ _ _ _ _ _ _ _ _ client_laws _ _ _ _ R3) as [_ D].
  destruct (at_range' buffer len _ _ He2) as [_ Hk2]. cbn [length] in Hk2.
  assert (buffer !! Z.to_nat (k + 1) = Some Byte.x0a) as Hlk2.
  { destruct He2 as (_ & _ & rest & Hr). rewrite <- (Nat.add_0_r (Z.to_nat (k + 1))), <- lookup_drop. unfold from in Hr. by rewrite Hr. }
  destruct (cperform_ok buffer len F [c_done] Byte.x0a _ _ (k + 1) _ c3 D eq_refl Hlk2 ltac:(unfold k; lia)) as [E4 _].
  set (h3 := cacts_h buffer [c_chunk_size] k h2) in *.
  exists (cacts_h buffer [c_done] (k + 1) h3), (c3 ++ cacts_calls buffer len [c_done] (k + 1) h3). split.
  - etransitivity; [exact E1|]. cbn [cacts_calls client_act_calls app]. etransitivity; [exact E2|]. etransitivity; [exact E3|].
    unfold machine. f_equal. with_strategy transparent [exec] cbn [exec]. unfold step. rewrite El, bind_assoc. run E4.
    unfold bind, ret.
    assert (k + 1 + 1 = Z.of_nat (length (b :: ds ++ CRLF))) as <- by (unfold k; cbn [length]; rewrite length_app; cbn [length CRLF]; lia).
    reflexivity.
  - assert (num_at buffer 16 (hc_mark h2) = s32 (clamp_long (value_of 16 (b :: ds)))) as En.
    { rewrite V2, V1. unfold num_at.
      assert (between_text buffer 0 k = b :: ds) as Eb.
      { destruct Hds0 as (_ & _ & rest & Hr). unfold between_text, slice. unfold from in Hr. rewrite Hr, Z.sub_0_r. unfold k.
        rewrite Nat2Z.id. apply take_app_length. }
      rewrite (strtol_here buffer 16 0 k Byte.x0d) by (try rewrite Eb; first [by right|done|unfold k; cbn [length]; lia|by left]).
      by rewrite Eb. }
    cbn. rewrite En. done.
Qed.

(** The header of a chunk is read as its hexadecimal size cut to 32 bits: a chunk of 2^31
    bytes or more has a size that is not positive, or another one, and counts as the last when
    it is not positive. *)
Theorem chunk_header_size raw ds mem len : ds <> [] -> all_in is_hex ds -> take (length ds + 2) mem = ds ++ CRLF ->
  Z.of_nat (length ds) + 2 <= len -> len < 2 ^ 31 -> mem !! Z.to_nat len = Some Byte.x00 ->
  let size := s32 (clamp_long (value_of 16 ds)) in
  exists h calls, httpclient_parser_execute mem len 0 (httpclient_parser_init raw, []) = Ok (Z.of_nat (length ds) + 2) (h, calls) /\
    httpclient_parser_finish h = 1 /\ hc_content_len h = size /\ hc_chunked h = 1 /\
    hc_chunks_done h = if size <=? 0 then 1 else 0.
Proof.
  intros Hne Hx Ht Hl H31 Hnul size. pose proof (lookup_lt_Some _ _ _ Hnul) as Hlm.
  assert (fits_int mem len) as F by (split; lia).
  assert (length (ds ++ CRLF) = length ds + 2)%nat as Ll by by rewrite length_app.
  assert (at_ mem len 0 (ds ++ CRLF)) as Hat.
  { split; [done|]. split; [lia|]. exists (drop (length ds + 2) mem). unfold from. rewrite drop_0, <- Ht. by rewrite take_drop. }
  set (ys := take (Z.to_nat len - (length ds + 2)) (drop (length ds + 2) mem)).
  assert ((ds ++ CRLF) ++ ys = slice (Z.to_nat 0) (Z.to_nat (len - 0)) mem) as Em.
  { unfold slice. rewrite drop_0, Z.sub_0_r. rewrite <- (take_drop (length ds + 2) (take (Z.to_nat len) mem)). f_equal.
    - rewrite take_take, Nat.min_l by lia. done.
    - unfold ys. rewrite take_drop_commute. do 2 f_equal. lia. }
  destruct (run_chunk_header mem len F ds ys (httpclient_parser_init raw) Hne Hx Hat (init_ready raw mem)) as (h & d & E & Hc1 & Hc2 & Hc3).
  rewrite Em in E. pose proof (f_equal fst E) as E1. pose proof (f_equal snd E) as E2. cbn [fst snd machine] in E1, E2.
  destruct (exec_alike client_blocks 120 123 client_flow client_adv client_flags client_le client_good client_table_ok
    client_act 2 cut c_during c_settled same_tag client_laws mem mem _ _ len F F ltac:(lia) ltac:(lia) eq_refl
    _ 1 0 (httpclient_parser_init raw) [] [] ltac:(done) eq_refl E2 (init_rest raw mem))
    as (cs & p & out & h1 & d1 & _ & G & _ & _ & Hs & Hc & _).
  { apply slice_at. } { rewrite length_slice by lia. lia. }
  rewrite E1 in G. injection G as <- <- <- <- ->. destruct (Hc ltac:(done)) as (_ & _ & R1 & _).
  destruct (client_execute_runs mem len 0 (httpclient_parser_init raw) [] 120 _ true h d1 F Hnul ltac:(lia) eq_refl E1 Hs R1) as [X _].
  rewrite Ll in X. replace (Z.of_nat (length ds + 2)) with (Z.of_nat (length ds) + 2) in X by lia.
  eexists _, d1. split; [exact X|]. done.
Qed.

(** *** Witnesses *)

Definition dirty_client : httpclient_parser := mkClientParser 7 7 7 7 7 7 7 7 7 7 7.
Definition sample_response : HttpResponse :=
  rs_setHeader (mkResponse 404 0x11 true (str "gone") [] []) (str "Server") (str "wyze").

Lemma sample_sendable_rsp : sendable_rsp sample_response.
Proof.
  constructor; try done; try by right.
  repeat constructor.
Qed.

Lemma response_roundtrip_witness : exists r' w' hc',
  @recvResponse tank _ zeroed httpclient_parser (client_machine dirty_client) (client_fields dirty_client) HttpConnectionSpec.decimal 1 0 100
      (mkTank (rs_dump sample_response) [], conn0) = Ok (Some r') (w', hc') /\
    same_response sample_response r' /\ incoming w' = [] /\ left_size hc' = 0 /\ hc_stream hc' = hc_stream conn0.
Proof.
  apply (@response_roundtrip tank _ _ _ zeroed dirty_client HttpConnectionSpec.decimal 1 0 100 sample_response
    (mkTank (rs_dump sample_response) []) conn0 sample_sendable_rsp tank_greedy).
  - reflexivity.
  - reflexivity.
  - lia.
  - intros _. reflexivity.
  - vm_compute. discriminate.
  - split; [vm_compute; discriminate|lia].
  - reflexivity.
Defined.

Lemma empty_field_never_finishes_witness : exists h calls,
  let text := http11 ++ str "Connection" ++ str ":" ++ CRLF ++ CRLF in
  httpclient_parser_execute (text ++ [Byte.x00]) (Z.of_nat (length text)) 0 (httpclient_parser_init dirty_client, []) =
    Ok (Z.of_nat (length text)) (h, calls).
Proof.
  destruct (empty_field_never_finishes dirty_client (str "Connection")) as (h & calls & E & _).
  - left.
  - exists h, calls. exact E.
Defined.

Lemma stale_field_length_overreads_witness :
  let text := http11 ++ str "Content-Length:" ++ [Byte.x0a] ++ str "5" ++ [Byte.x0a] in
  exists h calls v, httpclient_parser_execute (text ++ Byte.x00 :: str "SECRET 1234") (Z.of_nat (length text)) 0 (httpclient_parser_init dirty_client, []) =
      Ok (Z.of_nat (length text)) (h, calls ++ [http_field (str "5" ++ [Byte.x0a; Byte.x00] ++ str "SECRET 1234") 14 v 1]).
Proof. exact (proj1 (stale_field_length_overreads dirty_client (str "SECRET 1234") eq_refl)). Defined.

Lemma chunk_header_size_witness : exists h calls,
  httpclient_parser_execute (str "80000000" ++ CRLF ++ [Byte.x00]) 10 0 (httpclient_parser_init dirty_client, []) = Ok 10 (h, calls) /\
  httpclient_parser_finish h = 1 /\ hc_content_len h = - 2 ^ 31 /\ hc_chunked h = 1 /\ hc_chunks_done h = 1.
Proof.
  apply (chunk_header_size dirty_client (str "80000000") (str "80000000" ++ CRLF ++ [Byte.x00]) 10).
  - discriminate.
  - reflexivity.
  - reflexivity.
  - simpl. lia.
  - lia.
  - reflexivity.
Defined.
