(* ===== verification/Uri.v ===== *)
(** * Uri (src/wyze/uri.h, src/wyze/uri.rl, src/wyze/uri.cpp)

    The class, the actions of the machine of UriTable on [mark] and the new Uri, what they do at
    the end of the text, and [Create].  [mark] is an offset into the text, or null. *)

From S2P Require Import Prelude Http HttpParser Address Ragel UriTable.

Record Uri := mkUri {
  ur_scheme : bytes; ur_userinfo : bytes; ur_host : bytes; ur_path : bytes; ur_query : bytes; ur_fragment : bytes;
  ur_port : Z }.

Definition new_Uri : Uri := mkUri [] [] [] [] [] [] 0.

Definition setScheme (u : Uri) v := mkUri v (ur_userinfo u) (ur_host u) (ur_path u) (ur_query u) (ur_fragment u) (ur_port u).
Definition setUserinfo (u : Uri) v := mkUri (ur_scheme u) v (ur_host u) (ur_path u) (ur_query u) (ur_fragment u) (ur_port u).
Definition setHost (u : Uri) v := mkUri (ur_scheme u) (ur_userinfo u) v (ur_path u) (ur_query u) (ur_fragment u) (ur_port u).
Definition ur_setPath (u : Uri) v := mkUri (ur_scheme u) (ur_userinfo u) (ur_host u) v (ur_query u) (ur_fragment u) (ur_port u).
Definition ur_setQuery (u : Uri) v := mkUri (ur_scheme u) (ur_userinfo u) (ur_host u) (ur_path u) v (ur_fragment u) (ur_port u).
Definition ur_setFragment (u : Uri) v := mkUri (ur_scheme u) (ur_userinfo u) (ur_host u) (ur_path u) (ur_query u) v (ur_port u).
Definition ur_setPort (u : Uri) v := mkUri (ur_scheme u) (ur_userinfo u) (ur_host u) (ur_path u) (ur_query u) (ur_fragment u) v.

Definition isDefaultPort (u : Uri) : bool :=
  if ur_port u =? 0 then true
  else if bool_decide (ur_scheme u = str "http") then ur_port u =? 80
  else if bool_decide (ur_scheme u = str "https") then ur_port u =? 443
  else false.
Definition ur_getPath (u : Uri) : bytes := if empty (ur_path u) then str "/" else ur_path u.
Definition ur_getPort (u : Uri) : Z :=
  if negb (ur_port u =? 0) then ur_port u
  else if bool_decide (ur_scheme u = str "http") then 80
  else if bool_decide (ur_scheme u = str "https") then 443
  else ur_port u.

(** [std::to_string] of an [int32_t] *)
Definition signed_dec (n : Z) : bytes := if n <? 0 then str "-" ++ dec (- n) else dec n.
(** [dump] and [toString] *)
Definition ur_toString (u : Uri) : bytes :=
  ur_scheme u ++ str "://" ++ ur_userinfo u ++ (if empty (ur_userinfo u) then [] else str "@") ++ ur_host u ++
  (if isDefaultPort u then [] else str ":" ++ signed_dec (ur_port u)) ++ ur_getPath u ++
  (if empty (ur_query u) then [] else str "?") ++ ur_query u ++
  (if empty (ur_fragment u) then [] else str "#") ++ ur_fragment u.

(** [createAddress()]; [lookup] is [Address::LookupAnyIPAddress(host, AF_INET, 0)], whose addresses are [A]. *)
Definition createAddress {A} (lookup : bytes -> option A) (set_port : Z -> A -> A) (u : Uri) : option A :=
  set_port (u16 (ur_getPort u)) <$> lookup (ur_host u).

(** ** Create *)

Definition uri_parser_start : Z := 451.
Definition uri_parser_first_final : Z := 451.
Definition uri_parser_error : Z := 0.

(** [mark] and [*uri] *)
Abbreviation UM := (M (option Z * Uri)).

Section act.
Context (uristr : bytes).

(** [std::string(mark, fpc - mark)] *)
Definition since (mark : option Z) (p : Z) : UM bytes :=
  m <- or_undef null_deref mark ;; ret (slice (Z.to_nat m) (Z.to_nat (p - m)) uristr).
Definition keep (mark : option Z) (u : Uri) : UM unit := put (mark, u).

Definition uri_act (a : uri_action) (p : Z) : UM unit :=
  s <- get ;;
  let '(mark, u) := s in
  match a with
  | marku | markh => keep (Some p) u
  | save_scheme => t <- since mark p ;; keep None (setScheme u t)
  | save_port =>
      if bool_decide (mark = Some p) then keep None u
      else m <- or_undef null_deref mark ;; keep None (ur_setPort u (atoi (c_str (drop (Z.to_nat m) uristr))))
  | save_userinfo =>
      match mark with
      | Some m => t <- since mark p ;; keep None (setUserinfo u t)
      | None => keep None u
      end
  | save_host =>
      match mark with
      | Some m => t <- since mark p ;; keep mark (setHost u t)
      | None => ret tt
      end
  | save_path => t <- since mark p ;; keep None (ur_setPath u t)
  | save_query => t <- since mark p ;; keep None (ur_setQuery u t)
  | save_fragment => t <- since mark p ;; keep None (ur_setFragment u t)
  end.

(** [if ( p == eof ) switch ( cs )] *)
Definition eof_actions (cs : Z) : list uri_action :=
  let at_ l := existsb (Z.eqb cs) l in
  let within a b := (a <=? cs) && (cs <=? b) in
  if at_ [462; 489] then [save_port]
  else if (cs =? 460) || within 463 467 || within 470 488 || within 490 507 then [save_host]
  else if cs =? 513 then [save_path]
  else if cs =? 457 then [save_query]
  else if cs =? 454 then [save_fragment]
  else if cs =? 456 then [marku; save_query]
  else if cs =? 453 then [marku; save_fragment]
  else if at_ [461; 468] then [markh; save_port]
  else if at_ [459; 469] then [markh; save_host]
  else if at_ [514; 521] then [markh; save_port; save_path]
  else if at_ [511; 522] then [markh; save_host; save_path]
  else if at_ [515; 542] then [save_port; markh; save_path]
  else if (cs =? 512) || within 516 520 || within 523 541 || within 543 560 then [save_host; markh; save_path]
  else [].

(** [goto _out] skips the actions at the end. *)
Definition Uri_run : UM (option Uri) :=
  r <- exec uri_blocks uri_act 452 uri_parser_start 0 uristr ;;
  let '(cs, p, out) := r in
  (if out : bool then ret tt else perform uri_act (eof_actions cs) p) ;;;
  s <- get ;;
  ret (if cs =? uri_parser_error then None
       else if uri_parser_first_final <=? cs then Some (snd s) else None).
End act.

(** [Uri::Create(uri)] *)
Definition Uri_Create (uristr : bytes) : outcome (option Z * Uri) (option Uri) := Uri_run uristr (None, new_Uri).
