(* ===== verification/Yaml.v ===== *)
(** * yaml-cpp, as the configuration and the log use it

    A class of nodes with the operations that config.h, config.cpp and log.cpp call; where an
    operation throws it returns nothing.  [y_items] are [node.size()] and [node[i]], [y_entries]
    what an iterator over a mapping sees, [y_seq] and [y_map] the nodes that [push_back] and
    assignments of keys make of an empty one.  Names are texts. *)

From stdpp Require Export gmap.
From S2P Require Import Prelude Http.

#[export] Instance byte_countable : Countable byte.
Proof.
  refine (inj_countable' (fun b => Z.to_N (byte.unsigned b)) (fun n => byte.of_Z (Z.of_N n)) _).
  intros b. pose proof (byte.unsigned_range b). rewrite Z2N.id by lia. apply byte.of_Z_unsigned.
Defined.

Class Yaml (N : Type) := {
  y_load : bytes -> option N;                  (* YAML::Load *)
  y_emit : N -> bytes;                         (* operator<< *)
  y_is_map : N -> bool; y_is_scalar : N -> bool; y_defined : N -> bool;
  y_scalar : N -> bytes;                       (* Scalar(): of what is no scalar, the empty text *)
  y_as_string : N -> option bytes;             (* as<std::string>() *)
  y_key : N -> bytes -> option N;              (* node["key"] *)
  y_items : N -> list N;
  y_entries : N -> list (N * N);
  y_text : bytes -> N;                         (* a node that a text was assigned to *)
  y_seq : list N -> N;
  y_map : list (bytes * N) -> N }.

(** What the round trips of values rely on. *)
Class YamlLaws N `{Yaml N} := {
  y_load_emit : forall n, y_load (y_emit n) = Some n;
  y_items_seq : forall l, y_items (y_seq l) = l;
  y_string_text : forall s, y_as_string (y_text s) = Some s;
  y_scalar_map : forall l, y_is_scalar (y_map l) = false;
  y_key_map : forall l k, NoDup (fst <$> l) -> y_key (y_map l) k = snd <$> List.find (fun e => bool_decide (fst e = k)) l;
  y_entries_map : forall l, NoDup (fst <$> l) -> (fun e => (y_scalar (fst e), snd e)) <$> y_entries (y_map l) = l }.

(** [value] is a finite tree: the depth of the entries is smaller. *)
Class YamlFinite N `{Yaml N} := {
  y_depth : N -> nat;
  y_depth_entries : forall n e, List.In e (y_entries n) -> (y_depth (snd e) < y_depth n)%nat }.

(** [node[key]]: a scalar throws. *)
Definition subscript {N} `{Yaml N} (n : N) (key : bytes) : option (option N) := if y_is_scalar n then None else Some (y_key n key).

(** ** Reading the keys of a mapping *)

Lemma subscript_map {N} `{YamlLaws N} (l : list (bytes * N)) k : NoDup (fst <$> l) ->
  subscript (y_map l) k = Some (snd <$> List.find (fun e => bool_decide (fst e = k)) l).
Proof. intros Hl. unfold subscript. by rewrite y_scalar_map, y_key_map. Qed.

Lemma find_hit {A} (k : bytes) (v : A) l : List.find (fun e => bool_decide (fst e = k)) ((k, v) :: l) = Some (k, v).
Proof. cbn. by rewrite bool_decide_true. Qed.
Lemma find_miss {A} (k k' : bytes) (v : A) l : bool_decide (k' = k) = false ->
  List.find (fun e => bool_decide (fst e = k)) ((k', v) :: l) = List.find (fun e : bytes * A => bool_decide (fst e = k)) l.
Proof. intros E. cbn [List.find fst]. by rewrite E. Qed.

(** Keys that are concrete are different when they compute to be. *)
Ltac different_keys := cbn [app fmap list_fmap fst];
  repeat (apply NoDup_cons; split; [let E := fresh in intros E;
    repeat (apply elem_of_cons in E as [E|E]; [vm_compute in E; discriminate E|]); by apply elem_of_nil in E|]); apply NoDup_nil_2.
Ltac read_key := rewrite subscript_map by different_keys; cbn [app];
  repeat first [rewrite find_hit | rewrite find_miss by (vm_compute; reflexivity)];
  cbn [List.find fmap option_fmap option_map snd mbind option_bind]; rewrite ?y_string_text; cbn [mbind option_bind fmap option_fmap option_map].
