(* ===== verification/Config.v ===== *)
(** * Configuration (src/wyze/config.h, src/wyze/config.cpp)

    Variables with a type, a value and listeners; the table of their names; and documents that
    set them.  The conversions of the single types are parameters, those of the containers are
    here.  A listener changes the world [W] around the configuration, or throws. *)

From S2P Require Import Yaml Prelude Http.

(** ** Conversions: [operator()(const std::string&)] and back; nothing when they throw *)

Definition FromStr (T : Type) := bytes -> option T.
Definition ToStr (T : Type) := T -> option bytes.

Section casts.
Context {N} `{Yaml N} {T : Type} (from : FromStr T) (to : ToStr T).

(** [ss << node[i]] and the conversion of its text, for all [i]; the loaded texts of values *)
Definition cast_items (node : N) : option (list T) := mapM (fun x => from (y_emit x)) (y_items node).
Definition load_values (l : list T) : option (list N) := mapM (fun x => to x ≫= y_load) l.

Definition vector_from : FromStr (list T) := fun val => y_load val ≫= cast_items.
Definition vector_to : ToStr (list T) := fun v => (fun l => y_emit (y_seq l)) <$> load_values v.
Definition list_from : FromStr (list T) := fun val => y_load val ≫= cast_items.
Definition list_to : ToStr (list T) := fun v => (fun l => y_emit (y_seq l)) <$> load_values v.
(** [push_front] *)
Definition forward_list_from : FromStr (list T) :=
  fun val => y_load val ≫= fun node => (fun l => fold_left (fun vec x => x :: vec) l []) <$> cast_items node.
Definition forward_list_to : ToStr (list T) := fun v => (fun l => y_emit (y_seq l)) <$> load_values v.
(** Sets, ordered or not: an order in which they are visited is not part of the model. *)
Definition set_from `{Countable T} : FromStr (gset T) :=
  fun val => y_load val ≫= fun node => (fun l => fold_left (fun s x => {[x]} ∪ s) l ∅) <$> cast_items node.
Definition set_to `{Countable T} : ToStr (gset T) := fun v => (fun l => y_emit (y_seq l)) <$> load_values (elements v).
(** Maps: [insert] keeps what is there. *)
Definition cast_entries (node : N) : option (list (bytes * T)) :=
  mapM (fun e => pair (y_scalar (fst e)) <$> from (y_emit (snd e))) (y_entries node).
Definition map_from : FromStr (gmap bytes T) :=
  fun val => y_load val ≫= fun node =>
    (fun l => fold_left (fun m e => match m !! fst e with Some _ => m | None => <[fst e := snd e]> m end) l ∅) <$> cast_entries node.
Definition map_to : ToStr (gmap bytes T) :=
  fun v => (fun l => y_emit (y_map l)) <$> mapM (fun e => pair (fst e) <$> (to (snd e) ≫= y_load)) (map_to_list v).
End casts.

(** ** ConfigVar *)

Definition lower (s : bytes) : bytes := byte.of_Z ∘ tolower <$> s.

Section var.
Context {W T : Type}.
Definition on_change_cb := T -> T -> M W unit.
(** [m_cbs] in the order of its keys *)
Record ConfigVar := mkConfigVar {
  cv_name : bytes; cv_description : bytes; cv_val : T; cv_cbs : list (Z * on_change_cb) }.

Definition new_ConfigVar (name : bytes) (default_val : T) (description : bytes) : ConfigVar :=
  mkConfigVar (lower name) description default_val [].
Definition cv_with_val (x : ConfigVar) (v : T) : ConfigVar := mkConfigVar (cv_name x) (cv_description x) v (cv_cbs x).
Definition cv_with_cbs (x : ConfigVar) l : ConfigVar := mkConfigVar (cv_name x) (cv_description x) (cv_val x) l.

Fixpoint run_listeners (cbs : list (Z * on_change_cb)) (old new : T) : M W unit :=
  match cbs with
  | [] => ret tt
  | (_, cb) :: cbs => cb old new ;;; run_listeners cbs old new
  end.

(** [setVal(v)]: the variable behind it.  The listeners run under the read lock, before the value
    is stored. *)
Definition setVal `{EqDecision T} (v : T) (x : ConfigVar) : M W ConfigVar :=
  if decide (v = cv_val x) then ret x
  else run_listeners (cv_cbs x) (cv_val x) v ;;; ret (cv_with_val x v).

Definition cv_toString (to : ToStr T) (x : ConfigVar) : bytes := default [] (to (cv_val x)).
(** [fromString(val)]: it catches what the conversion and the listeners throw. *)
Definition cv_fromString `{EqDecision T} (from : FromStr T) (val : bytes) (x : ConfigVar) : M W (ConfigVar * bool) := fun w =>
  match from val with
  | Some v =>
      match setVal v x w with
      | Ok x w => Ok (x, true) w
      | Throw _ w => Ok (x, false) w
      | Undef u => Undef u
      end
  | None => Ok (x, false) w
  end.

(** [addListener(cb)], [id] being the new [s_fun_id]; [delListener], [clearListener], [getListener] *)
Fixpoint set_cb (id : Z) (cb : on_change_cb) (l : list (Z * on_change_cb)) : list (Z * on_change_cb) :=
  match l with
  | [] => [(id, cb)]
  | (k, c) :: l' => if k <? id then (k, c) :: set_cb id cb l' else if k =? id then (id, cb) :: l' else (id, cb) :: l
  end.
Definition cv_addListener (id : Z) (cb : on_change_cb) (x : ConfigVar) : ConfigVar := cv_with_cbs x (set_cb id cb (cv_cbs x)).
Definition cv_delListener (key : Z) (x : ConfigVar) : ConfigVar :=
  cv_with_cbs x (List.filter (fun c => negb (fst c =? key)) (cv_cbs x)).
Definition cv_clearListener (x : ConfigVar) : ConfigVar := cv_with_cbs x [].
Definition cv_getListener (key : Z) (x : ConfigVar) : option on_change_cb :=
  snd <$> List.find (fun c => fst c =? key) (cv_cbs x).
End var.
Arguments ConfigVar W T : clear implicits.
Arguments on_change_cb W T : clear implicits.

(** ** Config *)

(** The types of variables that a program uses, with their values, defaults and conversions. *)
Class VarTypes := {
  vt : Type; vt_eq_dec :: EqDecision vt;
  vt_val : vt -> Type; vt_val_eq_dec :: forall t, EqDecision (vt_val t);
  vt_from : forall t, FromStr (vt_val t); vt_to : forall t, ToStr (vt_val t) }.

Section config.
Context `{VarTypes} {W : Type}.

(** A [ConfigVarBase::ptr]: the type it has. *)
Record AnyVar := mkAnyVar { var_type : vt; var_of : ConfigVar W (vt_val var_type) }.

(** [GetDatas()], [s_fun_id] of each type, [s_file2modifytime], and the world.  A pointer to a
    variable is the name it is stored under: variables are never removed. *)
Record Config := mkConfig {
  datas : gmap bytes AnyVar; s_fun_id : vt -> Z; s_file2modifytime : gmap bytes Z; world : W }.

Definition with_datas (c : Config) d := mkConfig d (s_fun_id c) (s_file2modifytime c) (world c).
Definition store (name : bytes) (x : AnyVar) : M Config unit := modify (fun c => with_datas c (<[name := x]> (datas c))).

(** [find_first_not_of("abcdefghijklmnopqrstuvwxyz._0123456789") == npos] *)
Definition name_char (b : byte) : bool := existsb (fun c => bool_decide (c = b)) (str "abcdefghijklmnopqrstuvwxyz._0123456789").
Definition valid_name (s : bytes) : bool := forallb name_char s.

(** [Lookup<T>(name, default_val, description)]; null when the type is another. *)
Definition Lookup (t : vt) (name : bytes) (default_val : vt_val t) (description : bytes) : M Config (option bytes) :=
  c <- get ;;
  match datas c !! lower name with
  | Some x => ret (if decide (var_type x = t) then Some (lower name) else None)
  | None =>
      if negb (valid_name name) then throw (invalid_argument "name")
      else store name (mkAnyVar t (new_ConfigVar name default_val description)) ;;; ret (Some name)
  end.
(** [Lookup<T>(name)], [LookupBase(name)] *)
Definition Lookup_ptr (t : vt) (name : bytes) : M Config (option bytes) :=
  c <- get ;;
  ret (match datas c !! name with Some x => if decide (var_type x = t) then Some name else None | None => None end).
Definition LookupBase (name : bytes) : M Config (option AnyVar) := c <- get ;; ret (datas c !! name).

(** A method of a variable, run in the world of the configuration; [p] is what points to it. *)
Definition on_world {A} (t : vt) (p : bytes) (m : M W (ConfigVar W (vt_val t) * A)) : M Config A := fun c =>
  let to_config w := mkConfig (datas c) (s_fun_id c) (s_file2modifytime c) w in
  match m (world c) with
  | Ok (x, a) w => Ok a (with_datas (to_config w) (<[p := mkAnyVar t x]> (datas c)))
  | Throw e w => Throw e (to_config w)
  | Undef u => Undef u
  end.
Definition fromString (val : bytes) (p : bytes) : M Config bool :=
  c <- get ;;
  match datas c !! p with
  | Some (mkAnyVar t x) => on_world t p (cv_fromString (vt_from t) val x)
  | None => undef null_deref
  end.

(** Through a [ConfigVar<T>::ptr], of which the type is known. *)
Definition typed_var (t : vt) (x : AnyVar) : option (ConfigVar W (vt_val t)) :=
  match x with
  | mkAnyVar t' y =>
      match decide (t' = t) with
      | left E => Some (eq_rect t' (fun t => ConfigVar W (vt_val t)) y t E)
      | right _ => None
      end
  end.
Definition on_typed {A} (t : vt) (f : ConfigVar W (vt_val t) -> M W (ConfigVar W (vt_val t) * A)) (p : bytes) : M Config A :=
  c <- get ;;
  x <- or_undef null_deref (datas c !! p ≫= typed_var t) ;;
  on_world t p (f x).
Definition getValue (t : vt) (p : bytes) : M Config (vt_val t) :=
  c <- get ;;
  x <- or_undef null_deref (datas c !! p ≫= typed_var t) ;; ret (cv_val x).
Definition Config_setVal (t : vt) (v : vt_val t) : bytes -> M Config unit := on_typed t (fun x => x <- setVal v x ;; ret (x, tt)).
Definition addListener (t : vt) (cb : on_change_cb W (vt_val t)) (p : bytes) : M Config Z := fun c =>
  let id := u64 (s_fun_id c t + 1) in
  on_typed t (fun x => ret (cv_addListener id cb x, id)) p
    (mkConfig (datas c) (fun t' => if decide (t' = t) then id else s_fun_id c t') (s_file2modifytime c) (world c)).
Definition delListener (t : vt) (key : Z) : bytes -> M Config unit := on_typed t (fun x => ret (cv_delListener key x, tt)).
Definition clearListener (t : vt) : bytes -> M Config unit := on_typed t (fun x => ret (cv_clearListener x, tt)).

(** ** Documents *)

Context {N} `{Yaml N} `{!YamlFinite N}.

Definition child_name (prefix key : bytes) : bytes := if empty prefix then key else prefix ++ str "." ++ key.
(** [ListAllMember(prefix, node, output)] *)
Fixpoint ListAllMember (fuel : nat) (prefix : bytes) (node : N) : list (bytes * N) :=
  match fuel with
  | O => []
  | S fuel =>
      if negb (valid_name prefix) then []
      else (prefix, node) ::
        (if y_is_map node
         then concat ((fun e => ListAllMember fuel (child_name prefix (y_scalar (fst e))) (snd e)) <$> y_entries node)
         else [])
  end.

Definition node_text (node : N) : bytes := if y_is_scalar node then y_scalar node else y_emit node.
Definition load_member (e : bytes * N) : M Config unit :=
  let key := fst e in
  if empty key then ret tt
  else var <- LookupBase (lower key) ;;
       match var with
       | Some _ => fromString (node_text (snd e)) (lower key) ;;; ret tt
       | None => ret tt
       end.
Fixpoint load_members (l : list (bytes * N)) : M Config unit :=
  match l with
  | [] => ret tt
  | e :: l => load_member e ;;; load_members l
  end.
(** [LoadFromYaml(root)]; the depth of the document bounds the recursion. *)
Definition LoadFromYaml (root : N) : M Config unit := load_members (ListAllMember (S (y_depth root)) [] root).

Definition set_time (file : bytes) (t : Z) (c : Config) : Config :=
  mkConfig (datas c) (s_fun_id c) (<[file := t]> (s_file2modifytime c)) (world c).
(** [LoadFromConfDir(path)]: [files] are what [ListAllFile] finds, [mtime] the time that [lstat] of
    the directory gives, [load_file] what [YAML::LoadFile] makes of a file. *)
Fixpoint LoadFromConfDir (files : list bytes) (mtime : option Z) (load_file : bytes -> option N) : M Config unit :=
  match files with
  | [] => ret tt
  | i :: files =>
      c <- get ;;
      match mtime with
      | None => ret tt
      | Some t =>
          let seen := default 0 (s_file2modifytime c !! i) in
          modify (set_time i (u64 t)) ;;;
          if seen =? u64 t then ret tt
          else match load_file i with
               | Some root => fun c => match LoadFromYaml root c with Throw _ c => Ok tt c | o => o end
               | None => ret tt
               end
      end ;;;
      LoadFromConfDir files mtime load_file
  end.

(** [Visit(cb)]: the variables that [cb] is called with *)
Definition Visit (c : Config) : list AnyVar := snd <$> map_to_list (datas c).
End config.
Arguments Config {_} W.
Arguments AnyVar {_} W.
