(* ===== verification/ConfigSpec.v ===== *)
(** * What the configuration promises

    Values of containers come back from the texts they are turned into; names keep their types;
    a document sets the variables that its paths name. *)

From S2P Require Import Yaml Prelude Http RagelSpec Config.

(** ** Round trips of containers *)

Section roundtrip.
Context {N} `{YamlLaws N} {T : Type} (from : FromStr T) (to : ToStr T).

(** A value survives being turned into a text, loaded, emitted and read. *)
Definition value_law : Prop := forall x, exists s n, to x = Some s /\ y_load s = Some n /\ from (y_emit n) = Some x.
Hypothesis Hlaw : value_law.

Lemma load_values_ok l : exists ns, load_values to l = Some ns /\ mapM (fun n => from (y_emit n)) ns = Some l.
Proof.
  unfold load_values. induction l as [|x l (ns & E1 & E2)]; [by exists []|].
  destruct (Hlaw x) as (s & n & Ex & En & Ef). exists (n :: ns). cbn [mapM]. rewrite Ex. cbn [mbind option_bind].
  rewrite En, E1. cbn. rewrite Ef. cbn. by rewrite E2.
Qed.

Lemma seq_ok l : exists s n, (fun l => y_emit (y_seq l)) <$> load_values to l = Some s /\ y_load s = Some n /\
  cast_items from n = Some l.
Proof.
  destruct (load_values_ok l) as (ns & E1 & E2). exists (y_emit (y_seq ns)), (y_seq ns). rewrite E1.
  split_and!; [done|apply y_load_emit|]. unfold cast_items. by rewrite y_items_seq.
Qed.

Lemma fold_cons l : forall acc : list T, fold_left (fun vec x => x :: vec) l acc = rev l ++ acc.
Proof. induction l as [|x l IH]; intros acc; [done|]. cbn [fold_left rev]. by rewrite IH, <- app_assoc. Qed.

Lemma fold_set `{Countable T} l : forall s : gset T, fold_left (fun s x => {[x]} ∪ s) l s = list_to_set l ∪ s.
Proof.
  induction l as [|x l IH]; intros s; cbn [fold_left list_to_set]; [set_solver|]. rewrite IH. set_solver.
Qed.

Lemma fold_map l : forall m : gmap bytes T, NoDup (fst <$> l) -> (forall e, e ∈ l -> m !! fst e = None) ->
  fold_left (fun m e => match m !! fst e with Some _ => m | None => <[fst e := snd e]> m end) l m = list_to_map l ∪ m.
Proof.
  induction l as [|[k x] l IH]; intros m Hnd Hm; cbn [fold_left list_to_map]; [by rewrite (left_id_L _ _)|].
  rewrite (Hm (k, x)) by by left. cbn [fst snd]. cbn [fmap list_fmap fst] in Hnd. apply NoDup_cons in Hnd as [Hk Hnd].
  rewrite IH; [|done|].
  - cbn. apply map_eq. intros i. destruct (decide (i = k)) as [->|Hi].
    + rewrite !lookup_union, !lookup_insert_eq. apply not_elem_of_list_to_map_1 in Hk. rewrite Hk. by destruct (m !! k).
    + rewrite !lookup_union, !lookup_insert_ne by done. done.
  - intros [k' x'] He. cbn [fst]. rewrite lookup_insert_ne; [by apply (Hm (k', x')); right|].
    intros ->. apply Hk. apply list_elem_of_fmap. by exists (k', x').
Qed.

Lemma entries_ok (l : list (bytes * T)) : NoDup (fst <$> l) -> exists ns,
  mapM (fun e => pair (fst e) <$> (to (snd e) ≫= y_load)) l = Some ns /\ fst <$> ns = fst <$> l /\
  cast_entries from (y_map ns) = Some l.
Proof.
  intros Hnd.
  assert (exists ns, mapM (fun e => pair (fst e) <$> (to (snd e) ≫= y_load)) l = Some ns /\ fst <$> ns = fst <$> l /\
    mapM (fun e => pair (fst e) <$> from (y_emit (snd e))) ns = Some l) as (ns & E1 & E2 & E3).
  { clear Hnd. induction l as [|[k x] l (ns & E1 & E2 & E3)]; [by exists []|].
    destruct (Hlaw x) as (s & n & Ex & En & Ef). exists ((k, n) :: ns). cbn [mapM fst snd]. rewrite Ex. cbn. rewrite En. cbn.
    rewrite E1. cbn. rewrite Ef. cbn. by rewrite E3, E2. }
  exists ns. split_and!; [done|done|]. unfold cast_entries.
  assert (forall es, mapM (fun e => pair (y_scalar (fst e)) <$> from (y_emit (snd e))) es =
    mapM (fun e : bytes * N => pair (fst e) <$> from (y_emit (snd e))) ((fun e => (y_scalar (fst e), snd e)) <$> es)) as Hm.
  { intros es. induction es as [|[a b] es IH]; [done|]. cbn [mapM fmap list_fmap fst snd]. by rewrite IH. }
  by rewrite Hm, y_entries_map by (by rewrite E2).
Qed.

Lemma vector_law : forall l, exists s n, vector_to to l = Some s /\ y_load s = Some n /\ vector_from from (y_emit n) = Some l.
Proof.
  intros l. destruct (seq_ok l) as (s & n & E1 & E2 & E3). exists s, n. split_and!; [done..|].
  unfold vector_from. by rewrite y_load_emit.
Qed.
Lemma map_law : forall m, exists s n, map_to to m = Some s /\ y_load s = Some n /\ map_from from (y_emit n) = Some m.
Proof.
  intros m. destruct (entries_ok (map_to_list m) (NoDup_fst_map_to_list m)) as (ns & E1 & E2 & E3).
  exists (y_emit (y_map ns)), (y_map ns). unfold map_to. rewrite E1. split_and!; [done|apply y_load_emit|].
  unfold map_from. rewrite y_load_emit. cbn. rewrite E3. cbn. f_equal.
  rewrite fold_map; [|apply NoDup_fst_map_to_list|done]. rewrite list_to_map_to_list. apply (right_id_L _ _).
Qed.

Lemma containers_ok `{Countable T} :
  (forall v, vector_to to v ≫= vector_from from = Some v) /\ (forall v, list_to to v ≫= list_from from = Some v) /\
  (forall v, forward_list_to to v ≫= forward_list_from from = Some (rev v)) /\
  (forall s : gset T, set_to to s ≫= set_from from = Some s) /\ (forall m, map_to to m ≫= map_from from = Some m).
Proof.
  split_and!.
  1, 2: intros v; destruct (vector_law v) as (s & n & E1 & E2 & E3); unfold list_to, list_from; unfold vector_to, vector_from in *;
    rewrite E1; cbn [mbind option_bind]; by rewrite E2, y_load_emit in *.
  - intros v. destruct (seq_ok v) as (s & n & E1 & E2 & E3). unfold forward_list_to, forward_list_from.
    rewrite E1. cbn [mbind option_bind]. rewrite E2. cbn. rewrite E3. cbn. by rewrite fold_cons, app_nil_r.
  - intros v. destruct (seq_ok (elements v)) as (s & n & E1 & E2 & E3). unfold set_to, set_from.
    rewrite E1. cbn [mbind option_bind]. rewrite E2. cbn. rewrite E3. cbn. rewrite fold_set. f_equal. set_solver.
  - intros m. destruct (map_law m) as (s & n & E1 & E2 & E3). rewrite E1. cbn [mbind option_bind]. unfold map_from in *.
    by rewrite E2, y_load_emit in *.
Qed.
End roundtrip.

(** C35: containers come back.  When the values of a type survive being turned into a text, loaded,
    emitted and read, then the vectors, lists, sets and maps of them come back from the texts they
    are turned into; a [std::forward_list] comes back reversed; and the vectors and maps survive in
    the same way, so that what is nested in them comes back too. *)
Theorem containers_roundtrip {N} `{YamlLaws N} {T} `{Countable T} (from : FromStr T) (to : ToStr T) : value_law from to ->
  (forall v, vector_to to v ≫= vector_from from = Some v) /\ (forall v, list_to to v ≫= list_from from = Some v) /\
  (forall v, forward_list_to to v ≫= forward_list_from from = Some (rev v)) /\
  (forall s : gset T, set_to to s ≫= set_from from = Some s) /\ (forall m, map_to to m ≫= map_from from = Some m) /\
  value_law (vector_from from) (vector_to to) /\ value_law (map_from from) (map_to to).
Proof.
  intros Hlaw. destruct (containers_ok from to Hlaw) as (? & ? & ? & ? & ?).
  split_and!; [done..|exact (vector_law from to Hlaw)|exact (map_law from to Hlaw)].
Qed.

(** ** Names and types *)

Section names.
Context `{VarTypes} {W : Type}.
Implicit Types (c : Config W) (x : AnyVar W).

Lemma valid_lower name : valid_name name = true -> lower name = name.
Proof.
  assert (forallb (fun b => implb (name_char b) (bool_decide (byte.of_Z (tolower b) = b))) all_bytes = true) as Hb
    by (vm_compute; reflexivity).
  induction name as [|b name IH]; [done|]. unfold valid_name. cbn [forallb]. intros [H1 H2]%andb_true_iff.
  pose proof (all_bytes_ok _ Hb b) as Hf. clear Hb. cbn beta in Hf. rewrite H1 in Hf. apply bool_decide_eq_true in Hf.
  unfold lower in *. cbn. rewrite Hf. f_equal. by apply IH.
Qed.

(** The names of the table are valid, and are those of its variables. *)
Definition names_ok c : Prop := forall n x, datas c !! n = Some x -> valid_name n = true /\ cv_name (var_of x) = n.
(** Nothing is removed, and types are kept. *)
Definition extends c c' : Prop := forall n x, datas c !! n = Some x -> exists x', datas c' !! n = Some x' /\ var_type x' = var_type x.

#[local] Instance extends_preorder : PreOrder extends.
Proof.
  split; [intros c n x Hx; by exists x|]. intros c1 c2 c3 H1 H2 n x Hx. destruct (H1 n x Hx) as (y & Hy & <-).
  destruct (H2 n y Hy) as (z & Hz & <-). by exists z.
Qed.

Definition keeps {A} (m : M (Config W) A) : Prop :=
  forall c c', names_ok c -> final (m c) = Some c' -> names_ok c' /\ extends c c'.

Lemma keeps_same {A} (m : M (Config W) A) : (forall c c', final (m c) = Some c' -> datas c' = datas c) -> keeps m.
Proof.
  intros Hm c c' Hn E. apply Hm in E. split; [by unfold names_ok; rewrite E|]. unfold extends. rewrite E. eauto.
Qed.
Lemma config_keeps_ret {A} (a : A) : keeps (ret a).
Proof. apply keeps_same. by intros c c' [= ->]. Qed.
Lemma config_keeps_bind {A B} (m : M (Config W) A) (k : A -> M (Config W) B) : keeps m -> (forall a, keeps (k a)) -> keeps (bind m k).
Proof.
  intros Hm Hk c c' Hn E. unfold bind in E. destruct (m c) as [a c1|e c1|u] eqn:Em; [|by apply (Hm c); [done|rewrite Em]|done].
  destruct (Hm c c1 Hn) as [Hn1 He1]; [by rewrite Em|]. destruct (Hk a c1 c' Hn1 E) as [Hn2 He2]. split; [done|by etrans].
Qed.
Lemma keeps_read {A} (f : Config W -> M (Config W) A) : (forall c, keeps (f c)) -> keeps (c <- get ;; f c).
Proof. intros Hf c c' Hn E. exact (Hf c c c' Hn E). Qed.

Lemma insert_keeps c n x : names_ok c -> valid_name n = true -> cv_name (var_of x) = n ->
  (forall y, datas c !! n = Some y -> var_type x = var_type y) ->
  forall c', datas c' = <[n := x]> (datas c) -> names_ok c' /\ extends c c'.
Proof.
  intros Hn Hv Hx Ht c' E. split.
  - intros k y. rewrite E. destruct (decide (k = n)) as [->|Hk]; [rewrite lookup_insert_eq; by intros [= <-]|].
    rewrite lookup_insert_ne by done. apply Hn.
  - intros k y Hy. rewrite E. destruct (decide (k = n)) as [->|Hk].
    + exists x. rewrite lookup_insert_eq. split; [done|by apply Ht].
    + exists y. by rewrite lookup_insert_ne.
Qed.

Lemma Lookup_keeps t name d desc : keeps (Lookup t name d desc).
Proof.
  intros c c' Hn E. unfold Lookup in E. change (bind get ?k c) with (k c c) in E. cbn beta in E.
  destruct (datas c !! lower name) as [x|] eqn:Ex; [by injection E as <-; split; [|done]|].
  destruct (valid_name name) eqn:Ev; cbn [negb] in E; [|by injection E as <-; split; [|done]].
  injection E as <-. pose proof (valid_lower name Ev) as El. rewrite El in Ex.
  eapply (insert_keeps c name); [done|done| |intros y Hy; congruence|done]. cbn. exact El.
Qed.

(** Methods of a variable keep its name. *)
Lemma on_world_keeps {A} t p (x : ConfigVar W (vt_val t)) (m : M W (ConfigVar W (vt_val t) * A)) c c' : names_ok c ->
  datas c !! p = Some (mkAnyVar t x) -> (forall w y a w', m w = Ok (y, a) w' -> cv_name y = cv_name x) ->
  final (on_world t p m c) = Some c' -> names_ok c' /\ extends c c'.
Proof.
  intros Hn Hp Hm E. unfold on_world in E. destruct (Hn p _ Hp) as [Hv Hx]. cbn in Hx.
  destruct (m (world c)) as [[y a] w|e w|u] eqn:Em; [| |done]; injection E as <-.
  - eapply (insert_keeps c p (mkAnyVar t y)); [done|done| |intros z Hz; by rewrite Hp in Hz; injection Hz as <-|done].
    cbn. by rewrite (Hm _ _ _ _ Em).
  - split; [done|]. intros n y Hy. by exists y.
Qed.

Lemma setVal_name {T} `{EqDecision T} (v : T) (x : ConfigVar W T) w y w' : setVal v x w = Ok y w' -> cv_name y = cv_name x.
Proof.
  unfold setVal. destruct (decide _); [by intros [= <- _]|]. intros E. apply bind_returns in E as (a & w1 & _ & E).
  by injection E as <- _.
Qed.
Lemma fromString_name {T} `{EqDecision T} from val (x : ConfigVar W T) w y a w' :
  cv_fromString from val x w = Ok (y, a) w' -> cv_name y = cv_name x.
Proof.
  unfold cv_fromString. destruct (from val) as [v|]; [|by intros [= <- _ _]].
  destruct (setVal v x w) as [z w1|e w1|u] eqn:E; [|by intros [= <- _ _]|done]. intros [= <- _ _]. by eapply setVal_name.
Qed.

Lemma fromString_keeps val p : keeps (fromString val p).
Proof.
  intros c c' Hn E. unfold fromString in E. change (bind get ?k c) with (k c c) in E. cbn beta in E.
  destruct (datas c !! p) as [[t x]|] eqn:Ep; [|done]. eapply (on_world_keeps t p x); [done|done| |exact E].
  intros w y a w'. apply fromString_name.
Qed.

Lemma typed_var_some t x y : typed_var t x = Some y -> x = mkAnyVar t y.
Proof. unfold typed_var. destruct x as [t' z]. destruct (decide (t' = t)) as [->|]; [|done]. by intros [= <-]. Qed.

Lemma on_typed_keeps {A} t (f : ConfigVar W (vt_val t) -> M W (ConfigVar W (vt_val t) * A)) p :
  (forall (v : ConfigVar W (vt_val t)) w y a w', f v w = Ok (y, a) w' -> cv_name y = cv_name v) -> keeps (on_typed t f p).
Proof.
  intros Hf c c' Hn E. unfold on_typed in E. change (bind get ?k c) with (k c c) in E. cbn beta in E.
  destruct (datas c !! p) as [x|] eqn:Ep; [|done]. cbn [mbind option_bind] in E.
  destruct (typed_var t x) as [y|] eqn:Ey; [|done]. apply typed_var_some in Ey as ->. rewrite bind_some in E.
  eapply (on_world_keeps t p y); [done|done| |exact E]. intros w z a w'. apply Hf.
Qed.

Lemma setVal_keeps t v p : keeps (Config_setVal t v p).
Proof.
  apply on_typed_keeps. intros x w y a w' E. apply bind_returns in E as (z & w1 & E & E').
  injection E' as <- _ _. by eapply setVal_name.
Qed.
Lemma addListener_keeps t cb p : keeps (addListener t cb p).
Proof.
  intros c c' Hn E. unfold addListener in E. eapply on_typed_keeps in E; [done| |done].
  by intros x w y a w' [= <- _ _].
Qed.
Lemma delListener_keeps t key p : keeps (delListener t key p).
Proof. apply on_typed_keeps. by intros x w y a w' [= <- _ _]. Qed.
Lemma clearListener_keeps t p : keeps (clearListener t p).
Proof. apply on_typed_keeps. by intros x w y a w' [= <- _ _]. Qed.

Context {N} `{Yaml N} `{!YamlFinite N}.

Lemma load_members_keeps (l : list (bytes * N)) : keeps (load_members l).
Proof.
  induction l as [|[key node] l IH]; cbn [load_members]; [apply config_keeps_ret|]. apply config_keeps_bind; [|done].
  unfold load_member. cbn [fst snd]. destruct (empty key); [apply config_keeps_ret|]. apply config_keeps_bind; [by apply keeps_same; intros c c' [= <-]|].
  intros [x|]; [|apply config_keeps_ret]. apply config_keeps_bind; [apply fromString_keeps|]. intros b. apply config_keeps_ret.
Qed.
Lemma LoadFromYaml_keeps (root : N) : keeps (LoadFromYaml root).
Proof. apply load_members_keeps. Qed.
Lemma LoadFromConfDir_keeps files mtime (load_file : bytes -> option N) : keeps (LoadFromConfDir files mtime load_file).
Proof.
  induction files as [|i files IH]; cbn [LoadFromConfDir]; [apply config_keeps_ret|]. apply keeps_read. intros c.
  apply config_keeps_bind; [|done]. destruct mtime as [t|]; [|apply config_keeps_ret].
  apply config_keeps_bind; [by apply keeps_same; intros c1 c2 [= <-]|]. intros _. destruct (_ =? _); [apply config_keeps_ret|].
  destruct (load_file i) as [root|]; [|apply config_keeps_ret]. intros c1 c2 Hn E. eapply (LoadFromYaml_keeps root); [done|].
  destruct (LoadFromYaml root c1); injection E as <- || done; done.
Qed.

(** What a program does to the configuration. *)
Inductive config_step : Config W -> Config W -> Prop :=
  | step_Lookup t name d desc c c' : final (Lookup t name d desc c) = Some c' -> config_step c c'
  | step_fromString val p c c' : final (fromString val p c) = Some c' -> config_step c c'
  | step_setVal t v p c c' : final (Config_setVal t v p c) = Some c' -> config_step c c'
  | step_addListener t cb p c c' : final (addListener t cb p c) = Some c' -> config_step c c'
  | step_delListener t key p c c' : final (delListener t key p c) = Some c' -> config_step c c'
  | step_clearListener t p c c' : final (clearListener t p c) = Some c' -> config_step c c'
  | step_LoadFromYaml (root : N) c c' : final (LoadFromYaml root c) = Some c' -> config_step c c'
  | step_LoadFromConfDir files mtime (load_file : bytes -> option N) c c' :
      final (LoadFromConfDir files mtime load_file c) = Some c' -> config_step c c'.
Definition empty_config (w : W) : Config W := mkConfig ∅ (fun _ => 0) ∅ w.

Lemma step_keeps c c' : config_step c c' -> names_ok c -> names_ok c' /\ extends c c'.
Proof.
  intros S Hn. destruct S as [t name d desc c c' E|val p c c' E|t v p c c' E|t cb p c c' E|t key p c c' E|t p c c' E|
    root c c' E|files mtime load_file c c' E].
  - by eapply Lookup_keeps.
  - by eapply fromString_keeps.
  - by eapply setVal_keeps.
  - by eapply addListener_keeps.
  - by eapply delListener_keeps.
  - by eapply clearListener_keeps.
  - by eapply LoadFromYaml_keeps.
  - by eapply LoadFromConfDir_keeps.
Qed.
Lemma steps_keep c c' : rtc config_step c c' -> names_ok c -> names_ok c' /\ extends c c'.
Proof.
  induction 1 as [c|c1 c2 c3 S _ IH]; intros Hn; [done|]. destruct (step_keeps _ _ S Hn) as [Hn2 He].
  destruct (IH Hn2) as [Hn3 He']. split; [done|by etrans].
Qed.

Lemma Lookup_known t name d desc c x : datas c !! lower name = Some x ->
  Lookup t name d desc c = Ok (if decide (var_type x = t) then Some (lower name) else None) c.
Proof. intros Hx. unfold Lookup. change (bind get ?k c) with (k c c). cbn beta. by rewrite Hx. Qed.

(** C22: names keep their types.  Whatever a program does to the configuration, from an empty one
    on: a name that is there is made of small letters, digits, dots and underscores and is the
    name of its variable; it stays there with the type of its first [Lookup]; and every later
    [Lookup] of it, in any case of letters, returns the variable for that type and null for any
    other. *)
Theorem names_keep_types w c1 c2 n x : rtc config_step (empty_config w) c1 -> datas c1 !! n = Some x -> rtc config_step c1 c2 ->
  valid_name n = true /\ exists x', datas c2 !! n = Some x' /\ cv_name (var_of x') = n /\ var_type x' = var_type x /\
  forall t name d desc, lower name = n ->
    Lookup t name d desc c2 = Ok (if decide (var_type x = t) then Some n else None) c2.
Proof.
  intros S1 Hx S2. destruct (steps_keep _ _ S1) as [Hn1 _]; [by intros k y Hy; cbn in Hy; rewrite lookup_empty in Hy|].
  destruct (steps_keep _ _ S2 Hn1) as [Hn2 He]. destruct (He n x Hx) as (x' & Hx' & Ht). destruct (Hn2 n x' Hx') as [Hv Hc].
  split; [done|]. exists x'. split_and!; [done..|]. intros t name d desc <-. rewrite <- Ht. by apply Lookup_known.
Qed.
End names.

(** ** Documents *)

Section documents.
Context `{VarTypes} {W : Type} {N} `{Yaml N} `{!YamlFinite N}.
Implicit Types (c : Config W) (x : AnyVar W) (node : N).

(** The paths into a document, and what is there. *)
Inductive member : bytes -> N -> bytes -> N -> Prop :=
  | member_here prefix node : valid_name prefix = true -> member prefix node prefix node
  | member_in prefix node k v path n : valid_name prefix = true -> y_is_map node = true -> (k, v) ∈ y_entries node ->
      member (child_name prefix (y_scalar k)) v path n -> member prefix node path n.

Lemma ListAllMember_ok fuel : forall prefix node path n, (y_depth node < fuel)%nat ->
  (path, n) ∈ ListAllMember fuel prefix node <-> member prefix node path n.
Proof.
  induction fuel as [|fuel IH]; intros prefix node path n Hf; [lia|]. cbn [ListAllMember].
  assert (forall k v, (k, v) ∈ y_entries node -> (y_depth v < fuel)%nat) as Hd.
  { intros k v Hkv. apply list_elem_of_In, y_depth_entries in Hkv. cbn in Hkv. lia. }
  destruct (valid_name prefix) eqn:Ev; cbn [negb].
  2: { split; [by intros ?%elem_of_nil|]. intros Hm. destruct Hm; congruence. }
  rewrite elem_of_cons. split.
  - intros [[= -> ->]|Hi]; [by apply member_here|]. destruct (y_is_map node) eqn:Em; [|by apply elem_of_nil in Hi].
    apply list_elem_of_In, in_concat in Hi as (l & Hl & Hi). apply list_elem_of_In, list_elem_of_fmap in Hl as ([k v] & -> & He).
    apply list_elem_of_In in Hi. apply IH in Hi; [|by eapply Hd]. by eapply member_in.
  - intros Hm. destruct Hm as [|prefix node k v path n _ Hmap He Hm]; [by left|]. right. rewrite Hmap.
    apply list_elem_of_In, in_concat. exists (ListAllMember fuel (child_name prefix (y_scalar k)) v).
    split; apply list_elem_of_In; [|by apply IH; [by eapply Hd|]]. apply list_elem_of_fmap. by exists (k, v).
Qed.
Lemma member_valid prefix node path n : member prefix node path n -> valid_name path = true.
Proof. by induction 1. Qed.

(** The members of a document in its order: a node before what is in it, and the entries of a map one
    after the other. *)
Inductive traversal : bytes -> N -> list (bytes * N) -> Prop :=
  | tr_invalid prefix node : valid_name prefix = false -> traversal prefix node []
  | tr_plain prefix node : valid_name prefix = true -> y_is_map node = false -> traversal prefix node [(prefix, node)]
  | tr_map prefix node l : valid_name prefix = true -> y_is_map node = true -> traversals prefix (y_entries node) l ->
      traversal prefix node ((prefix, node) :: l)
with traversals : bytes -> list (N * N) -> list (bytes * N) -> Prop :=
  | trs_nil prefix : traversals prefix [] []
  | trs_cons prefix k v entries l1 l2 : traversal (child_name prefix (y_scalar k)) v l1 -> traversals prefix entries l2 ->
      traversals prefix ((k, v) :: entries) (l1 ++ l2).

Lemma ListAllMember_traversal fuel : forall prefix node, (y_depth node < fuel)%nat ->
  traversal prefix node (ListAllMember fuel prefix node).
Proof.
  induction fuel as [|fuel IH]; intros prefix node Hf; [lia|]. cbn [ListAllMember].
  destruct (valid_name prefix) eqn:Ev; cbn [negb]; [|by apply tr_invalid].
  destruct (y_is_map node) eqn:Em; [apply tr_map; [done|done|]|by apply tr_plain].
  assert (Forall (fun e => (y_depth (snd e) < fuel)%nat) (y_entries node)) as Hd.
  { apply Forall_forall. intros [k v] Hkv. apply list_elem_of_In, y_depth_entries in Hkv. cbn in *. lia. }
  induction Hd as [|[k v] entries Hv _ IHe]; [constructor|]. apply trs_cons; [by apply IH|exact IHe].
Qed.
Scheme traversal_both := Minimality for traversal Sort Prop with traversals_both := Minimality for traversals Sort Prop.
Lemma traversal_unique prefix node l : traversal prefix node l -> forall l', traversal prefix node l' -> l' = l.
Proof.
  intros Hl. induction Hl using traversal_both with (P0 := fun prefix entries l => forall l', traversals prefix entries l' -> l' = l);
    intros l' Hl'; inversion Hl'; subst; try congruence; try done.
  - f_equal. auto.
  - f_equal; auto.
Qed.
(** The nodes of a name, in the order of the document *)
Definition nodes_of (k : bytes) (l : list (bytes * N)) : list N := snd <$> filter (fun e => fst e = k) l.

(** Listeners that return *)
Definition calm x : Prop := forall id cb, (id, cb) ∈ cv_cbs (var_of x) -> forall old new w, exists w', cb old new w = Ok tt w'.
Definition set_text (s : bytes) x : AnyVar W :=
  match x with mkAnyVar t y => match vt_from t s with Some v => mkAnyVar t (cv_with_val y v) | None => x end end.

Lemma set_text_twice s x : set_text s (set_text s x) = set_text s x.
Proof. destruct x as [t y]. cbn. destruct (vt_from t s) as [v|] eqn:E; cbn; by rewrite E. Qed.
Lemma set_text_calm s x : calm x -> calm (set_text s x).
Proof. destruct x as [t y]. cbn. by destruct (vt_from t s). Qed.

Lemma run_listeners_calm {T} (l : list (Z * on_change_cb W T)) old new :
  (forall id cb, (id, cb) ∈ l -> forall old new w, exists w', cb old new w = Ok tt w') ->
  forall w, exists w', run_listeners l old new w = Ok tt w'.
Proof.
  induction l as [|[id cb] l IH]; intros Hl w; [by exists w|]. destruct (Hl id cb ltac:(by left) old new w) as (w1 & E1).
  destruct (IH ltac:(intros i f Hi; apply (Hl i); by right) w1) as (w2 & E2). exists w2. cbn [run_listeners].
  unfold bind. by rewrite E1.
Qed.

Lemma fromString_calm s p x c : datas c !! p = Some x -> calm x -> exists b c', fromString s p c = Ok b c' /\
  datas c' = <[p := set_text s x]> (datas c).
Proof.
  intros Hp Hc. unfold fromString. change (bind get ?k c) with (k c c). cbn beta. rewrite Hp. destruct x as [t y].
  unfold on_world, cv_fromString. cbn. destruct (vt_from t s) as [v|]; [|by eexists _, _].
  unfold setVal. destruct (decide (v = cv_val y)) as [->|]; [|].
  - exists true. eexists. split; [done|]. cbn. by destruct y.
  - destruct (run_listeners_calm (cv_cbs y) (cv_val y) v Hc (world c)) as (w' & E). unfold bind. rewrite E. by eexists _, _.
Qed.

(** What the members of a document make of a variable. *)
Definition loaded (l : list (bytes * N)) (k : bytes) x : AnyVar W :=
  fold_left (fun x e => if decide (fst e = k) then set_text (node_text (snd e)) x else x) l x.

Lemma load_member_calm p node c : valid_name p = true -> (forall x, datas c !! [] <> Some x) ->
  (forall x, datas c !! p = Some x -> calm x) ->
  exists c', load_member (p, node) c = Ok tt c' /\ datas c' = alter (set_text (node_text node)) p (datas c).
Proof.
  intros Hp Hc Hx. unfold load_member. cbn [fst snd]. rewrite (valid_lower _ Hp).
  destruct (datas c !! p) as [x|] eqn:Ex.
  - destruct p as [|b p]; [by apply Hc in Ex|]. cbn [empty].
    destruct (fromString_calm (node_text node) (b :: p) x c Ex (Hx _ eq_refl)) as (r & c1 & E & D). exists c1.
    rewrite (bind_ok _ _ c (Some x) c) by (unfold LookupBase; change (bind get ?k c) with (k c c); cbn beta; by rewrite Ex).
    rewrite (bind_ok _ _ _ _ _ E). split; [done|]. rewrite D. apply map_eq. intros k. destruct (decide (k = b :: p)) as [->|].
    + by rewrite lookup_insert_eq, lookup_alter_eq, Ex.
    + by rewrite lookup_insert_ne, lookup_alter_ne.
  - exists c. split.
    + destruct (empty p); [done|]. unfold LookupBase. change (bind (bind get ?f) ?k c) with (bind (f c) k c).
      cbn beta. by rewrite Ex.
    + apply map_eq. intros k. destruct (decide (k = p)) as [->|]; [by rewrite lookup_alter_eq, Ex|by rewrite lookup_alter_ne].
Qed.

Lemma load_members_calm l : Forall (fun e => valid_name (fst e) = true) l -> forall c,
  (forall k x, datas c !! k = Some x -> k <> [] /\ calm x) -> exists c', load_members l c = Ok tt c' /\
  forall k, datas c' !! k = loaded l k <$> datas c !! k.
Proof.
  induction 1 as [|[p node] l Hp _ IH]; intros c Hc; [exists c; split; [done|]; intros k; by destruct (datas c !! k)|].
  destruct (load_member_calm p node c Hp) as (c1 & E1 & D1); [by intros x [? _]%Hc|by intros x [_ ?]%Hc|].
  destruct (IH c1) as (c2 & E2 & D2).
  { intros k x Hx. rewrite D1 in Hx. destruct (decide (k = p)) as [->|Hk].
    - rewrite lookup_alter_eq in Hx. apply fmap_Some in Hx as (y & Hy & ->). destruct (Hc p y Hy). split; [done|]. by apply set_text_calm.
    - rewrite lookup_alter_ne in Hx by done. by apply Hc. }
  exists c2. cbn [load_members]. rewrite (bind_ok _ _ _ _ _ E1). split; [done|]. intros k. rewrite D2, D1.
  unfold loaded. cbn [fold_left fst snd]. destruct (decide (k = p)) as [->|Hk].
  - rewrite lookup_alter_eq. destruct (datas c !! p); [|done]. cbn [fmap option_fmap option_map]. by rewrite decide_True.
  - rewrite lookup_alter_ne by done. destruct (datas c !! k); [|done]. cbn [fmap option_fmap option_map]. by rewrite decide_False.
Qed.

Lemma loaded_nothing l k x : (forall n, (k, n) ∉ l) -> loaded l k x = x.
Proof.
  unfold loaded. induction l as [|[p n] l IH]; intros Hl; [done|]. cbn [fold_left fst snd].
  rewrite decide_False; [|intros ->; apply (Hl n); left]. apply IH. intros m Hm. apply (Hl m). by right.
Qed.
Lemma loaded_one l k node x : (k, node) ∈ l -> (forall n, (k, n) ∈ l -> n = node) -> loaded l k x = set_text (node_text node) x.
Proof.
  unfold loaded. revert x. induction l as [|[p n] l IH]; intros x Hk Hl; [by apply elem_of_nil in Hk|]. cbn [fold_left fst snd].
  assert (forall m, (k, m) ∈ l -> m = node) as Hl' by (intros m Hm; apply Hl; by right).
  destruct (decide (p = k)) as [->|Hp].
  - rewrite (Hl n) by left. destruct (decide (k ∈ fst <$> l)) as [Hi|Hi].
    + apply list_elem_of_fmap in Hi as ([? m] & -> & Hi). rewrite IH; [apply set_text_twice| |done]. by rewrite <- (Hl' m Hi).
    + apply loaded_nothing. intros m Hm. apply Hi. apply list_elem_of_fmap. by exists (k, m).
  - apply elem_of_cons in Hk as [[= -> ->]|Hk]; [done|]. by apply IH.
Qed.

Lemma loaded_nodes l k x : loaded l k x = fold_left (fun x n => set_text (node_text n) x) (nodes_of k l) x.
Proof.
  unfold loaded, nodes_of. revert x. induction l as [|[p n] l IH]; intros x; [done|]. cbn [fold_left fst snd]. rewrite filter_cons. cbn [fst].
  destruct (decide (p = k)); cbn [fmap list_fmap fold_left snd]; apply IH.
Qed.

Lemma LoadFromYaml_calm (root : N) c : (forall k x, datas c !! k = Some x -> k <> [] /\ calm x) ->
  exists c', LoadFromYaml root c = Ok tt c' /\
  forall k, datas c' !! k = loaded (ListAllMember (S (y_depth root)) [] root) k <$> datas c !! k.
Proof.
  apply load_members_calm. apply Forall_forall. intros [p n] Hp. apply ListAllMember_ok in Hp; [|lia].
  by eapply member_valid.
Qed.

(** C25: a document sets what its paths name.  When the listeners of the variables return and no
    variable has the empty name, [LoadFromYaml] returns.  It goes over the document in its order, each
    node before what is in it, and gives a variable the texts of all the nodes of its name, one after
    the other: each time the variable gets the value that the conversion of its type makes of the text,
    or keeps its value when the conversion throws.  So a variable whose name is no path of the
    document is as it was, one whose name is the path of one node gets what its text says, and for a path
    that is there more than once the last text that is converted counts; and no variable is new.  Paths are
    made of the keys from the root on, joined with dots, as far as they are valid names. *)
Theorem load_document (root : N) c : (forall k x, datas c !! k = Some x -> k <> [] /\ calm x) ->
  exists c' l, LoadFromYaml root c = Ok tt c' /\ traversal [] root l /\
  (forall k, datas c' !! k = (fun x => fold_left (fun x n => set_text (node_text n) x) (nodes_of k l) x) <$> datas c !! k) /\
  (forall k, datas c !! k = None -> datas c' !! k = None) /\
  (forall k x, datas c !! k = Some x -> (forall n, ~ member [] root k n) -> datas c' !! k = Some x) /\
  (forall k x node, datas c !! k = Some x -> member [] root k node -> (forall n, member [] root k n -> n = node) ->
     datas c' !! k = Some (set_text (node_text node) x)).
Proof.
  intros Hc. destruct (LoadFromYaml_calm root c Hc) as (c' & E & D). exists c', (ListAllMember (S (y_depth root)) [] root).
  split; [done|]. split; [apply ListAllMember_traversal; lia|].
  assert (forall k n, (k, n) ∈ ListAllMember (S (y_depth root)) [] root <-> member [] root k n) as Hm
    by (intros k n; apply ListAllMember_ok; lia).
  split_and!.
  - intros k. rewrite D. destruct (datas c !! k) as [x|]; [|done]. exact (f_equal Some (loaded_nodes _ k x)).
  - intros k Hk. by rewrite D, Hk.
  - intros k x Hk Hn. rewrite D, Hk. apply (f_equal Some), loaded_nothing. intros n ?%Hm. by apply (Hn n).
  - intros k x node Hk Hn Hu. rewrite D, Hk. apply (f_equal Some), loaded_one; [by apply Hm|]. intros n ?%Hm. by apply Hu.
Qed.

(** ** Directories *)

(** The files that [s_file2modifytime] has the time of *)
Definition seen (files : list bytes) (t : Z) c : Prop := forall i, i ∈ files -> s_file2modifytime c !! i = Some (u64 t).

Lemma fromString_times s p c o : fromString s p c = o -> match o with Ok _ c' | Throw _ c' => s_file2modifytime c' = s_file2modifytime c | _ => True end.
Proof.
  intros <-. unfold fromString. change (bind get ?k c) with (k c c). cbn beta. destruct (datas c !! p) as [[t x]|]; [|done].
  unfold on_world. by destruct (cv_fromString _ _ _ _) as [[y b]| |].
Qed.
Lemma load_members_times (l : list (bytes * N)) : forall c,
  match load_members l c with Ok _ c' | Throw _ c' => s_file2modifytime c' = s_file2modifytime c | _ => True end.
Proof.
  induction l as [|[p node] l IH]; intros c; [done|]. cbn [load_members].
  assert (match load_member (p, node) c with Ok _ c' | Throw _ c' => s_file2modifytime c' = s_file2modifytime c | _ => True end) as Hm.
  { unfold load_member. cbn [fst snd]. destruct (empty p); [done|]. unfold LookupBase.
    change (bind (bind get ?f) ?k c) with (bind (f c) k c). cbn beta. destruct (datas c !! lower p); [|done].
    change (bind (ret ?x) ?k c) with (k x c). cbn iota beta. unfold bind.
    pose proof (fromString_times (node_text node) (lower p) c _ eq_refl) as Ht. by destruct (fromString _ _ c). }
  unfold bind. destruct (load_member (p, node) c) as [a c1|e c1|u]; [|done|done]. specialize (IH c1).
  destruct (load_members l c1); try done; by rewrite IH.
Qed.

Lemma dir_step i files t (load_file : bytes -> option N) c c2 : LoadFromConfDir (i :: files) (Some t) load_file c = Ok tt c2 ->
  exists c1, LoadFromConfDir files (Some t) load_file c1 = Ok tt c2 /\ s_file2modifytime c1 = <[i := u64 t]> (s_file2modifytime c).
Proof.
  cbn [LoadFromConfDir]. change (bind get ?k c) with (k c c). cbn beta. intros E.
  apply bind_returns in E as ([] & c1 & E1 & E2). exists c1. split; [done|].
  change (bind (modify ?f) ?k c) with (k tt (f c)) in E1. cbn beta in E1. destruct (_ =? _); [by injection E1 as <-|].
  destruct (load_file i) as [root|]; [|by injection E1 as <-].
  pose proof (load_members_times (ListAllMember (S (y_depth root)) [] root) (set_time i (u64 t) c)) as Ht.
  unfold LoadFromYaml in E1. destruct (load_members _ _) as [[] c3|e c3|u]; [by injection E1 as <-..|done].
Qed.

Lemma dir_seen files t (load_file : bytes -> option N) : forall c c', LoadFromConfDir files (Some t) load_file c = Ok tt c' ->
  seen files t c' /\ (forall i, s_file2modifytime c !! i = Some (u64 t) -> s_file2modifytime c' !! i = Some (u64 t)).
Proof.
  induction files as [|i files IH]; intros c c' E; [injection E as <-; split; [by intros i ?%elem_of_nil|done]|].
  apply dir_step in E as (c1 & E & T1). destruct (IH c1 c' E) as [Hs Hk].
  assert (s_file2modifytime c' !! i = Some (u64 t)) as Hi by (apply Hk; rewrite T1; apply lookup_insert_eq).
  split.
  - intros j [->|Hj]%elem_of_cons; [done|by apply Hs].
  - intros j Hj. destruct (decide (j = i)) as [->|]; [done|]. apply Hk. by rewrite T1, lookup_insert_ne.
Qed.

Lemma dir_unchanged files t (load_file : bytes -> option N) : forall c, seen files t c ->
  exists c', LoadFromConfDir files (Some t) load_file c = Ok tt c' /\ datas c' = datas c /\ world c' = world c.
Proof.
  induction files as [|i files IH]; intros c Hs; [by exists c|].
  destruct (IH (set_time i (u64 t) c)) as (c' & E & D & W').
  { intros j Hj. cbn. destruct (decide (j = i)) as [->|]; [by rewrite lookup_insert_eq|rewrite lookup_insert_ne by done].
    apply Hs. by right. }
  exists c'. split; [|done]. rewrite <- E. cbn [LoadFromConfDir]. change (bind get ?k c) with (k c c). cbn beta.
  rewrite (Hs i) by left. cbn [default from_option id].
  rewrite (bind_ok _ _ c tt (set_time i (u64 t) c)); [done|]. by rewrite (bind_ok _ _ c tt (set_time i (u64 t) c)), Z.eqb_refl.
Qed.

(** A changed file is not seen.  What [LoadFromConfDir] compares is the time of the directory,
    not of the file: after one run over some files, another run under the same time of the
    directory loads none of them, whatever they contain by then, and even when the caller asks for
    it with [force], which is not read. *)
Theorem stale_directory files t (load1 load2 : bytes -> option N) c c' : LoadFromConfDir files (Some t) load1 c = Ok tt c' ->
  exists c2, LoadFromConfDir files (Some t) load2 c' = Ok tt c2 /\ datas c2 = datas c' /\ world c2 = world c'.
Proof. intros E. destruct (dir_seen _ _ _ _ _ E) as [Hs _]. by apply dir_unchanged. Qed.
End documents.

(** ** A document library and two types to run the model with *)

Module Sample.
Abbreviation tree := (gen_tree bytes).

Fixpoint bits (p : positive) : bytes :=
  match p with xH => [] | xO p => Byte.x30 :: bits p | xI p => Byte.x31 :: bits p end.
Fixpoint unbits (s : bytes) : option positive :=
  match s with
  | [] => Some xH
  | Byte.x30 :: s => xO <$> unbits s
  | Byte.x31 :: s => xI <$> unbits s
  | _ => None
  end.
Lemma unbits_bits p : unbits (bits p) = Some p.
Proof. induction p as [p IH|p IH|]; cbn; by rewrite ?IH. Qed.

Definition entry (t : tree) : option (tree * tree) := match t with GenNode _ [k; v] => Some (k, v) | _ => None end.
Fixpoint depth (t : tree) : nat :=
  match t with GenLeaf _ => 0%nat | GenNode _ l => S (fold_right Nat.max 0%nat (map depth l)) end.

Lemma omap_fmap_entry (l : list (bytes * tree)) :
  omap entry ((fun e => GenNode 2 [GenLeaf (fst e); snd e]) <$> l) = (fun e => (GenLeaf (fst e), snd e)) <$> l.
Proof. induction l as [|[k v] l IH]; [done|]. cbn. by rewrite <- IH. Qed.

#[export] Instance yaml : Yaml tree := {
  y_load s := unbits s ≫= decode; y_emit n := bits (encode n);
  y_is_map n := match n with GenNode 1 _ => true | _ => false end;
  y_is_scalar n := match n with GenLeaf _ => true | _ => false end;
  y_defined n := true; y_scalar n := match n with GenLeaf s => s | _ => [] end;
  y_as_string n := match n with GenLeaf s => Some s | _ => None end;
  y_key n k := match n with
               | GenNode 1 l => snd <$> List.find (fun e => bool_decide (fst e = GenLeaf k)) (omap entry l)
               | _ => None end;
  y_items n := match n with GenNode 0 l => l | _ => [] end;
  y_entries n := match n with GenNode 1 l => omap entry l | _ => [] end;
  y_text s := GenLeaf s;
  y_seq l := GenNode 0 l; y_map l := GenNode 1 ((fun e => GenNode 2 [GenLeaf (fst e); snd e]) <$> l) }.

#[export] Instance yaml_laws : YamlLaws tree.
Proof.
  split.
  - intros n. cbn. rewrite unbits_bits. cbn. apply decode_encode.
  - done.
  - done.
  - done.
  - intros l k _. cbn. rewrite omap_fmap_entry. induction l as [|[k' v] l IH]; [done|]. cbn [fmap list_fmap List.find fst snd].
    destruct (decide (k' = k)) as [->|Hk]; [by rewrite !bool_decide_true|]. rewrite !bool_decide_false by congruence. exact IH.
  - intros l _. cbn. rewrite omap_fmap_entry, <- list_fmap_compose. induction l as [|[k v] l IH]; [done|]. cbn in IH |- *. by rewrite IH.
Qed.

Lemma depth_in x l : List.In x l -> (depth x <= fold_right Nat.max 0 (map depth l))%nat.
Proof. induction l as [|y l IH]; [done|]. intros [->|Hx]; cbn; [lia|]. specialize (IH Hx). lia. Qed.
#[export] Instance yaml_finite : YamlFinite tree.
Proof.
  refine {| y_depth := depth |}. intros [s|[|[|[|n]]] l] e He; cbn in He; try done.
  all: apply list_elem_of_In, list_elem_of_omap in He as (x & Hx & Ex).
  all: apply list_elem_of_In, depth_in in Hx; cbn; destruct x as [s|m [|k [|v [|]]]]; try done; injection Ex as <-; cbn in *; lia.
Defined.

(** Numbers and texts *)
#[export] Instance var_types : VarTypes := {
  vt := bool; vt_val b := if b then Z else bytes;
  vt_val_eq_dec b := match b with true => Z.eq_dec | false => list_eq_dec end;
  vt_from b := match b with true => fun s => if empty s then None else Some (Z.of_nat (length s)) | false => Some end;
  vt_to b := match b with true => fun n => Some (dec n) | false => Some end }.
End Sample.

Import Sample.
Definition sample_config : Config unit := ran (Lookup (H := var_types) true (str "a.b") 7 []) (empty_config tt).

Lemma names_keep_types_witness :
  let c2 := ran (Lookup (H := var_types) false (str "x") [] []) sample_config in
  Lookup (H := var_types) false (str "A.b") [] [] c2 = Ok None c2.
Proof.
  intros c2.
  assert (rtc (config_step (H := var_types) (N := gen_tree bytes)) (empty_config tt) sample_config) as S1.
  { apply rtc_once, (step_Lookup (H := var_types) true (str "a.b") 7 []), ran_final. vm_compute. reflexivity. }
  assert (rtc (config_step (H := var_types) (N := gen_tree bytes)) sample_config c2) as S2.
  { apply rtc_once, (step_Lookup (H := var_types) false (str "x") [] []), ran_final. vm_compute. reflexivity. }
  assert (match datas sample_config !! str "a.b" with Some x => var_type x | None => false end = true) as Ht
    by (vm_compute; reflexivity).
  destruct (datas sample_config !! str "a.b") as [x|] eqn:Ex; [|done].
  destruct (names_keep_types tt sample_config c2 (str "a.b") x S1 Ex S2) as (_ & x' & _ & _ & _ & E).
  rewrite Ht in E. exact (E false (str "A.b") [] [] eq_refl).
Defined.

(** A listener that returns, a tree with the path [a.b], and the same tree in another file. *)
Definition sample_tree : gen_tree bytes := y_map [(str "a", y_map [(str "b", GenLeaf (str "12345"))])].
Definition b_path : bytes := str "a.b".

Lemma containers_roundtrip_witness : let v := [sample_tree; GenLeaf (str "x")] in
  forward_list_to (fun t => Some (y_emit t)) v ≫= forward_list_from y_load = Some (rev v).
Proof.
  apply (containers_roundtrip (T := gen_tree bytes) y_load (fun t => Some (y_emit t))). intros t.
  exists (y_emit t), t. split_and!; [done|apply y_load_emit..].
Defined.

(** The path [a.b] twice: the second text counts. *)
Definition twice_tree : gen_tree bytes := y_map [(str "a", y_map [(str "b", GenLeaf (str "12345"))]); (str "a.b", GenLeaf (str "xy"))].
Lemma load_document_witness : exists c', LoadFromYaml twice_tree sample_config = Ok tt c' /\
  datas c' !! b_path = (fun x => set_text (str "xy") (set_text (str "12345") x)) <$> datas sample_config !! b_path.
Proof.
  destruct (load_document twice_tree sample_config) as (c' & l & E & T & D & _).
  - intros k x. unfold sample_config. cbn [ran]. intros Hx.
    assert (datas sample_config = {[b_path := mkAnyVar (H := var_types) true (new_ConfigVar b_path 7 [])]}) as Ed by reflexivity.
    unfold sample_config in Ed. rewrite Ed in Hx. apply lookup_singleton_Some in Hx as [<- <-]. split; [done|].
    intros id cb Hi. by apply elem_of_nil in Hi.
  - exists c'. split; [exact E|]. rewrite D. rewrite <- (traversal_unique _ _ _ T (ListAllMember 9 [] twice_tree)).
    + assert (nodes_of b_path (ListAllMember 9 [] twice_tree) = [GenLeaf (str "12345"); GenLeaf (str "xy")]) as -> by (vm_compute; reflexivity).
      reflexivity.
    + apply ListAllMember_traversal. vm_compute. lia.
Defined.

Lemma stale_directory_witness : exists c' c2,
  LoadFromConfDir [str "x.yml"] (Some 5) (fun _ => Some sample_tree) sample_config = Ok tt c' /\
  LoadFromConfDir [str "x.yml"] (Some 5) (fun _ => Some (GenLeaf [])) c' = Ok tt c2 /\ datas c2 = datas c'.
Proof.
  pose (c' := ran (LoadFromConfDir [str "x.yml"] (Some 5) (fun _ => Some sample_tree)) sample_config).
  assert (LoadFromConfDir [str "x.yml"] (Some 5) (fun _ => Some sample_tree) sample_config = Ok tt c') as E by reflexivity.
  destruct (stale_directory _ _ _ (fun _ => Some (GenLeaf [])) _ _ E) as (c2 & E2 & D & _). by exists c', c2.
Defined.
