(* ===== verification/Thread.v ===== *)
(** * Threads and locks (src/wyze/thread.h, src/wyze/thread.cpp)

    The scope locks over any mutex; [CASLock]; and the handshake of the constructor of [Thread] with
    the function that its new thread runs, as steps of two actors that share the object. *)

From S2P Require Import Prelude Http.

(** ** Scope locks *)

(** What [ScopeLockImpl], [ReadScopeLockImpl] and [WriteScopeLockImpl] call of a mutex: [lock],
    [rdlock] or [wrlock], and [unlock].  They throw when the system call fails. *)
Class Lockable (T : Type) := { lk_lock : M T unit; lk_unlock : M T unit }.

Section scope.
Context {T : Type} `{Lockable T}.

(** The mutex and [m_locked] *)
Definition on_mutex {A} (m : M T A) : M (T * bool) A := fun s =>
  match m (fst s) with
  | Ok a t => Ok a (t, snd s)
  | Throw e t => Throw e (t, snd s)
  | Undef u => Undef u
  end.
Definition set_locked (b : bool) : M (T * bool) unit := modify (fun s => (fst s, b)).

Definition new_ScopeLock : M (T * bool) unit := on_mutex lk_lock ;;; set_locked true.
Definition scope_lock : M (T * bool) unit := s <- get ;; if negb (snd s) then on_mutex lk_lock ;;; set_locked true else ret tt.
Definition scope_unlock : M (T * bool) unit := s <- get ;; if snd s : bool then on_mutex lk_unlock ;;; set_locked false else ret tt.
Definition delete_ScopeLock : M (T * bool) unit := scope_unlock.

(** A scope: the constructor, calls of [lock()] ([true]) and [unlock()] ([false]), the destructor *)
Fixpoint scope_calls (calls : list bool) : M (T * bool) unit :=
  match calls with
  | [] => ret tt
  | c :: calls => (if c : bool then scope_lock else scope_unlock) ;;; scope_calls calls
  end.
Definition scope (calls : list bool) : M (T * bool) unit := new_ScopeLock ;;; scope_calls calls ;;; delete_ScopeLock.
End scope.

(** ** Mutex, RWMutex and SpinLock: the result of the [pthread] call, which is not 0 when it fails *)

Definition Mutex_lock {T} (pthread_mutex_lock : T -> Z * T) : M T unit := fun t =>
  let '(rt, t) := pthread_mutex_lock t in if negb (rt =? 0) then Throw (logic_error "pthread_mutex_lock") t else Ok tt t.
Definition Mutex_unlock {T} (pthread_mutex_unlock : T -> Z * T) : M T unit := fun t =>
  let '(rt, t) := pthread_mutex_unlock t in if negb (rt =? 0) then Throw (logic_error "pthread_mutex_unlock") t else Ok tt t.

(** ** CASLock: the flag *)

Definition test_and_set (flag : bool) : bool * bool := (flag, true).
Definition new_CASLock : bool := false.
(** One turn of the loop of [lock()]: is the lock taken, and the flag *)
Definition CASLock_try (flag : bool) : bool * bool := let '(was, flag) := test_and_set flag in (negb was, flag).
(** [lock()]; [no_fuel] while it spins *)
Fixpoint CASLock_lock (fuel : nat) : M bool unit :=
  match fuel with
  | O => undef no_fuel
  | S fuel => fun flag => let '(taken, flag) := CASLock_try flag in
                          if taken then Ok tt flag else CASLock_lock fuel flag
  end.
Definition CASLock_unlock : M bool unit := fun flag => let '(_, flag) := test_and_set flag in Ok tt flag.

(** ** Semaphore: its count *)

Definition sem_post (n : Z) : Z := n + 1.
Definition sem_wait (n : Z) : option Z := if 0 <? n then Some (n - 1) else None.

(** ** Thread *)

Section thread.
Context {cb : Type}.

(** The object, which both threads reach; [m_cb] is empty when it was swapped out. *)
Record Thread := mkThread {
  m_id : option Z; m_thread : option Z; m_cb : option cb; t_m_name : bytes; m_semaphore : Z }.

(** Where the thread that constructs the object is, and where the new one. *)
Inductive creator_at := Creating | Waiting | Constructed | Joined | Failed.
Inductive child_at := NotStarted | SettingName | SettingId | SettingOsName | Swapping | Notifying (c : option cb) | Calling (c : option cb) | Ended.

Record Threads := mkThreads {
  object : Thread; creator : creator_at; child : child_at;
  t_thread_name : bytes;          (* of the new thread *)
  os_name : bytes;                (* pthread_setname_np *)
  calls : list cb }.              (* the callbacks that the new thread called *)

Definition with_object (s : Threads) o := mkThreads o (creator s) (child s) (t_thread_name s) (os_name s) (calls s).
Definition with_creator (s : Threads) c := mkThreads (object s) c (child s) (t_thread_name s) (os_name s) (calls s).
Definition with_child (s : Threads) c := mkThreads (object s) (creator s) c (t_thread_name s) (os_name s) (calls s).

(** [Thread(cb, name)], before [pthread_create] *)
Definition new_Thread (c : cb) (name : bytes) : Threads :=
  mkThreads (mkThread None None (Some c) (if empty name then str "UNKNOW" else name) 0) Creating NotStarted (str "UNKNOW") [] [].

(** What may happen: [pthread_create] succeeds, with this handle, or fails; the other steps of the
    creator, up to [join()]; a step of [Thread::run], the system giving it the id [tid]. *)
Inductive event := EvCreate (handle : Z) | EvCreateFails | EvWait | EvJoin | EvRun (tid : Z).

Definition step_run (tid : Z) (s : Threads) : option Threads :=
  let o := object s in
  match child s with
  | SettingName => Some (mkThreads o (creator s) SettingId (t_m_name o) (os_name s) (calls s))
  | SettingId => Some (with_child (with_object s (mkThread (Some tid) (m_thread o) (m_cb o) (t_m_name o) (m_semaphore o))) SettingOsName)
  | SettingOsName => Some (mkThreads o (creator s) Swapping (t_thread_name s) (c_str (take 15 (t_m_name o))) (calls s))
  | Swapping => Some (with_child (with_object s (mkThread (m_id o) (m_thread o) None (t_m_name o) (m_semaphore o))) (Notifying (m_cb o)))
  | Notifying c => Some (with_child (with_object s (mkThread (m_id o) (m_thread o) (m_cb o) (t_m_name o) (sem_post (m_semaphore o)))) (Calling c))
  | Calling (Some c) => Some (mkThreads o (creator s) Ended (t_thread_name s) (os_name s) (calls s ++ [c]))
  | NotStarted | Calling None | Ended => None
  end.
Definition thread_step (ev : event) (s : Threads) : option Threads :=
  let o := object s in
  match ev, creator s with
  | EvCreate handle, Creating =>
      Some (with_child (with_creator (with_object s (mkThread (m_id o) (Some handle) (m_cb o) (t_m_name o) (m_semaphore o))) Waiting) SettingName)
  | EvCreateFails, Creating => Some (with_creator s Failed)
  | EvWait, Waiting => (fun n => with_creator (with_object s (mkThread (m_id o) (m_thread o) (m_cb o) (t_m_name o) n)) Constructed) <$> sem_wait (m_semaphore o)
  | EvJoin, Constructed =>
      match m_thread o, child s with
      | Some _, Ended => Some (with_creator (with_object s (mkThread (m_id o) None (m_cb o) (t_m_name o) (m_semaphore o))) Joined)
      | _, _ => None
      end
  | EvRun tid, _ => step_run tid s
  | _, _ => None
  end.
Definition thread_steps (evs : list event) (s : Threads) : option Threads :=
  fold_left (fun s ev => s ≫= thread_step ev) evs (Some s).
End thread.
Arguments Thread cb : clear implicits.
Arguments Threads cb : clear implicits.
Arguments child_at cb : clear implicits.
