(* ===== verification/ThreadSpec.v ===== *)
(** * What threads and locks promise *)

From S2P Require Import Prelude Http Thread.

(** ** Scope locks *)

(** A mutex that records its calls: [true] for [lock], [false] for [unlock] *)
#[local] Instance recorder : Lockable (list bool) := { lk_lock := modify (fun l => l ++ [true]); lk_unlock := modify (fun l => l ++ [false]) }.

(** Calls that lock and unlock in turn *)
Fixpoint in_turn (next : bool) (l : list bool) : bool :=
  match l with [] => true | c :: l => Bool.eqb c next && in_turn (negb next) l end.

Lemma in_turn_app l : forall next c, in_turn next l = true -> c = (if Nat.even (length l) then next else negb next) -> in_turn next (l ++ [c]) = true.
Proof.
  induction l as [|b l IH]; intros next c Hl Hc; [cbn in *; subst; by destruct next|].
  cbn [in_turn app] in *. apply andb_true_iff in Hl as [Hb Hl]. rewrite Hb. cbn [andb]. apply IH; [done|].
  rewrite Hc. cbn [length]. rewrite Nat.even_succ, <- Nat.negb_even. destruct (Nat.even (length l)), next; done.
Qed.

(** The recorder and [m_locked]: locked when the number of calls is odd *)
Definition recorded (s : list bool * bool) : Prop := in_turn true (fst s) = true /\ snd s = negb (Nat.even (length (fst s))).

Lemma record_ok s c : recorded s -> snd s = negb c -> recorded (fst s ++ [c], c).
Proof.
  intros [H1 H2] Hc. rewrite Hc in H2. split.
  - cbn. apply in_turn_app; [done|]. destruct (Nat.even _), c; done.
  - cbn. rewrite length_app, Nat.add_1_r, Nat.even_succ, <- Nat.negb_even. destruct (Nat.even _), c; done.
Qed.

Lemma calls_recorded cs : forall s, recorded s -> exists s', scope_calls cs s = Ok tt s' /\ recorded s'.
Proof.
  induction cs as [|c cs IH]; intros s Hs; [by exists s|]. cbn [scope_calls].
  assert (exists s1, (if c then scope_lock else scope_unlock) s = Ok tt s1 /\ recorded s1) as (s1 & E1 & H1).
  { destruct s as [l b]. destruct c.
    - unfold scope_lock, bind, get. cbn [snd]. destruct b; cbn [negb]; [by eexists|]. eexists. split; [done|]. by apply (record_ok (l, false) true).
    - unfold scope_unlock, bind, get. cbn [snd]. destruct b; [|by eexists]. eexists. split; [done|]. by apply (record_ok (l, true) false). }
  rewrite (bind_ok _ _ _ _ _ E1). by apply IH.
Qed.

(** A scope leaves its mutex unlocked.  Whatever calls of [lock()] and [unlock()] are made on a
    scope lock between its construction and its destruction, what it calls of the mutex is locks and
    unlocks in turn, at least one of each, the first a lock and the last an unlock. *)
Theorem scope_balanced cs : exists l, scope cs ([], false) = Ok tt (l, false) /\
  in_turn true l = true /\ Nat.even (length l) = true /\ l <> [].
Proof.
  unfold scope. destruct (calls_recorded cs ([true], true)) as ([l1 b] & E & H1 & H2); [done|]. cbn [fst snd] in *.
  rewrite (bind_ok _ _ _ tt ([true], true)) by done. rewrite (bind_ok _ _ _ _ _ E). unfold delete_ScopeLock, scope_unlock, bind, get.
  cbn [snd]. destruct b.
  - destruct (record_ok (l1, true) false) as [R1 R2]; [done..|]. cbn [fst snd] in *. exists (l1 ++ [false]).
    split_and!; [done|done|by apply negb_false_iff|by destruct l1].
  - exists l1. split_and!; [done|done|by apply negb_false_iff|].
    intros ->. clear -E. assert (forall cs s s', scope_calls cs s = Ok tt s' -> fst s <> [] -> fst s' <> []) as Hne.
    { clear. induction cs as [|c cs IH]; intros s s' E Hs; [by injection E as <-|]. cbn [scope_calls] in E.
      apply bind_returns in E as ([] & s1 & E1 & E). apply (IH _ _ E). destruct s as [l b], c, b; cbn in E1; injection E1 as <-; cbn in *;
        first [done | by destruct l]. }
    by apply Hne in E.
Qed.

(** ** CASLock *)

(** A sequence of tries ([true]) and unlocks ([false]), of any threads: how many tries took it *)
Fixpoint taken (ops : list bool) (flag : bool) : nat :=
  match ops with
  | [] => 0
  | true :: ops => let '(took, flag) := CASLock_try flag in ((if took then 1 else 0) + taken ops flag)%nat
  | false :: ops => match CASLock_unlock flag with Ok _ flag => taken ops flag | _ => 0%nat end
  end.

Lemma taken_set ops : taken ops true = 0%nat.
Proof. induction ops as [|[] ops IH]; [done|exact IH..]. Qed.

(** A [CASLock] is taken once.  The first lock takes it; but its [unlock()] sets the flag instead
    of clearing it: in whatever sequence of tries and unlocks, by any threads, at most one try ever
    takes the lock, and when it was locked and unlocked once, the next [lock()] spins for ever. *)
Theorem CASLock_taken_once : (forall ops, (taken ops new_CASLock <= 1)%nat) /\ CASLock_lock 1 new_CASLock = Ok tt true /\
  forall fuel, (CASLock_lock 1 ;;; CASLock_unlock ;;; CASLock_lock fuel) new_CASLock = Undef no_fuel.
Proof.
  split_and!; [|done|].
  - intros [|[] ops]; [cbn; lia| |]; cbn [taken CASLock_try test_and_set new_CASLock CASLock_unlock negb]; rewrite taken_set; lia.
  - intros fuel. unfold bind. cbn. induction fuel as [|fuel IH]; [done|exact IH].
Qed.

(** ** Thread *)

Section thread.
Context {cb : Type} (c : cb) (name : bytes).
Implicit Types (s : Threads cb).
Definition thread_name : bytes := if empty name then str "UNKNOW" else name.

(** How far the new thread is *)
Definition stage (x : child_at cb) : nat :=
  match x with NotStarted => 0 | SettingName => 1 | SettingId => 2 | SettingOsName => 3 | Swapping => 4 | Notifying _ => 5 | Calling _ => 6 | Ended => 7 end.
Definition creator_stage (x : creator_at) : nat :=
  match x with Creating => 0 | Waiting => 1 | Constructed => 2 | Joined => 3 | Failed => 11 end.
Definition steps_done s : nat := (creator_stage (creator s) + stage (child s))%nat.

(** The callback is in the object until it is swapped, then with the new thread. *)
Record thread_ok s : Prop := {
  ok_name : t_m_name (object s) = thread_name;
  ok_cb : m_cb (object s) = if (stage (child s) <? 5)%nat then Some c else None;
  ok_held : match child s with Notifying x | Calling x => x = Some c | _ => True end;
  ok_id : (2 < stage (child s))%nat -> is_Some (m_id (object s));
  ok_thread_name : (1 < stage (child s))%nat -> t_thread_name s = thread_name;
  ok_os_name : (3 < stage (child s))%nat -> os_name s = c_str (take 15 thread_name);
  ok_calls : calls s = if (stage (child s) <? 7)%nat then [] else [c];
  ok_creator : match creator s with
               | Creating | Failed => child s = NotStarted
               | Waiting => (0 < stage (child s))%nat /\ is_Some (m_thread (object s))
               | Constructed => (5 < stage (child s))%nat /\ is_Some (m_thread (object s))
               | Joined => (6 < stage (child s))%nat
               end;
  ok_semaphore : m_semaphore (object s) =
    match creator s with Waiting => if (5 <? stage (child s))%nat then 1 else 0 | _ => 0 end }.

Ltac finish :=
  try done; try lia; subst; try congruence; try (split; [lia|first [done|tauto|by eexists]]); try (by eexists);
  match goal with H : _ -> ?P |- _ -> ?P => intros _; apply H; lia | |- _ => idtac end.

Lemma new_Thread_ok : thread_ok (new_Thread c name).
Proof. split; cbn; finish. Qed.

Lemma step_ok ev s s' : thread_ok s -> thread_step ev s = Some s' -> thread_ok s' /\ (steps_done s < steps_done s')%nat.
Proof.
  intros [O1 O2 O3 O4 O5 O6 O7 O8 O9] E. destruct s as [[i h o n m] cr ch tn on cs]. unfold steps_done. cbn in *.
  destruct ev as [hd| | | |tid]; cbn in E.
  - destruct cr; try done. injection E as <-. subst ch. cbn in *. split; [|lia]. split; cbn; finish.
  - destruct cr; try done. injection E as <-. subst ch. cbn in *. split; [|lia]. split; cbn; finish.
  - destruct cr; try done. unfold sem_wait in E. destruct (0 <? m) eqn:Em; [|done]. injection E as <-.
    destruct O8 as [O8 O8']. destruct ch as [| | | | |x|x|]; cbn in *; try lia; (split; [|cbn; lia]); split; cbn; finish.
  - destruct cr; try done. destruct h, ch; try done. injection E as <-. split; [|cbn; lia]. split; cbn in *; finish.
  - destruct ch as [| | | | |x|[x|]|]; try done; cbn in E; injection E as <-; destruct cr; cbn in *; try done; try lia;
      (split; [|lia]); subst; split; cbn; finish.
Qed.

Lemma steps_ok evs : forall s s', thread_ok s -> thread_steps evs s = Some s' -> thread_ok s' /\ (length evs + steps_done s <= steps_done s')%nat.
Proof.
  induction evs as [|ev evs IH]; intros s s' Hs E; [injection E as <-; cbn; split; [done|lia]|].
  unfold thread_steps in E. cbn [fold_left mbind option_bind] in E. destruct (thread_step ev s) as [s1|] eqn:E1.
  - destruct (step_ok ev s s1 Hs E1) as [H1 L1]. destruct (IH s1 s' H1 E) as [H2 L2]. cbn [length]. split; [done|lia].
  - exfalso. clear -E. induction evs as [|ev evs IH]; [done|]. by apply IH.
Qed.

Lemma can_step s : thread_ok s -> creator s <> Joined -> creator s <> Failed -> exists ev s', thread_step ev s = Some s'.
Proof.
  intros [O1 O2 O3 O4 O5 O6 O7 O8 O9] N1 N2. destruct s as [[i h o n m] cr ch tn on cs]. cbn in *.
  destruct cr; try done.
  - exists (EvCreate 0). by eexists.
  - destruct O8 as [O8 _]. destruct ch as [| | | | |x|x|]; [cbn in O8; lia|exists (EvRun 0)..|exists EvWait]; subst; by eexists.
  - destruct O8 as [O8 [hd ->]]. destruct ch as [| | | | |x|x|]; cbn in *; [lia..|exists (EvRun 0)|exists EvJoin]; subst; by eexists.
Qed.

(** C18: a thread starts and ends.  However the steps of the constructing and of the new thread follow
    each other, there are at most ten of them; as long as the thread is not joined, and unless it
    could not be created, some step can be made; so the constructor returns and the join returns.
    When the constructor has returned, the id is set and the callback is no longer in the object,
    which the new thread does not touch any more; and when the join has returned, the callback was
    called exactly once, in a thread with the name that was given, or UNKNOW, and its first fifteen
    bytes as the name for the system. *)
Theorem thread_starts evs s : thread_steps evs (new_Thread c name) = Some s ->
  (length evs <= 11)%nat /\
  (creator s = Joined \/ creator s = Failed \/ exists ev s', thread_step ev s = Some s') /\
  (creator s = Constructed \/ creator s = Joined ->
     is_Some (m_id (object s)) /\ m_cb (object s) = None /\ (child s = Calling (Some c) \/ child s = Ended)) /\
  (creator s = Joined -> calls s = [c] /\ t_thread_name s = thread_name /\ os_name s = c_str (take 15 thread_name)).
Proof.
  intros E. destruct (steps_ok evs _ _ new_Thread_ok E) as [Hs Hl].
  assert (steps_done s <= 11)%nat as Hmax.
  { pose proof (ok_creator _ Hs) as O8. unfold steps_done. assert (stage (child s) <= 7)%nat by (by destruct (child s); cbn; lia).
    destruct (creator s); cbn in *; try lia. rewrite O8. cbn. lia. }
  split_and!; [cbn in Hl; lia| | |].
  - destruct (creator s) eqn:Ec; try (by left); try (by right; left); right; right; apply can_step; congruence.
  - intros Hc. pose proof (ok_creator _ Hs) as O8. assert (5 < stage (child s))%nat as Hst.
    { destruct Hc as [Hc|Hc]; rewrite Hc in O8; [by destruct O8|lia]. }
    pose proof (ok_id _ Hs ltac:(lia)) as O4. pose proof (ok_cb _ Hs) as O2. pose proof (ok_held _ Hs) as O3.
    split; [done|]. destruct (child s) as [| | | | |x|x|]; cbn in *; try lia; subst; by split; [|(by left) || (by right)].
  - intros Hc. pose proof (ok_creator _ Hs) as O8. rewrite Hc in O8.
    pose proof (ok_calls _ Hs) as O7. pose proof (ok_thread_name _ Hs ltac:(lia)). pose proof (ok_os_name _ Hs ltac:(lia)).
    destruct (child s); cbn in *; by try lia.
Qed.
End thread.

Definition schedule : list event := [EvCreate 9; EvRun 7; EvRun 7; EvRun 7; EvRun 7; EvRun 7; EvWait; EvRun 7; EvJoin].
Definition joined : Threads bool := default (new_Thread true []) (thread_steps schedule (new_Thread true [])).
Lemma thread_starts_witness : calls joined = [true] /\ t_thread_name joined = str "UNKNOW".
Proof.
  destruct (thread_starts true [] schedule joined) as (_ & _ & _ & Hj); [vm_compute; reflexivity|].
  destruct Hj as (H1 & H2 & _); [vm_compute; reflexivity|]. by split.
Defined.
