(* ===== verification/Socket.v ===== *)
(** * Sockets (src/wyze/socket.h, src/wyze/socket.cpp)

    The state is the socket and the world [W] behind the calls of the operating system, which are
    the operations of a class: as the program sees them, behind the hooks.  A call that fails gives
    -1, or nothing.  What is written to the log is left out. *)

From stdpp Require Export gmap.
From S2P Require Import Prelude Http.

(** An address of the class of its family: its family and the bytes of its [sockaddr] *)
Record Addr := mkAddr { addr_family : Z; addr_bytes : bytes }.
#[export] Instance Addr_eq_dec : EqDecision Addr.
Proof. solve_decision. Defined.

Definition AF_UNIX : Z := 1.
Definition AF_INET : Z := 2.
Definition AF_INET6 : Z := 10.
Definition SOCK_STREAM : Z := 1.
Definition SOCK_DGRAM : Z := 2.
Definition SOMAXCONN : Z := 4096.

(** The options that the code sets and gets *)
Inductive sockopt := SO_REUSEADDR | TCP_NODELAY | SO_RCVTIMEO | SO_SNDTIMEO | SO_ERROR | other_sockopt (level option : Z).
Inductive io_event := READ | WRITE.

Class SocketApi (W : Type) := {
  sa_socket : Z -> Z -> Z -> W -> Z * W;
  sa_bind : Z -> Addr -> W -> Z * W;
  sa_listen : Z -> Z -> W -> Z * W;
  sa_connect : Z -> Addr -> W -> Z * W;
  sa_connect_timeout : Z -> Addr -> Z -> W -> Z * W;
  sa_accept : Z -> W -> Z * W;
  sa_close : Z -> W -> Z * W;
  sa_setsockopt : Z -> sockopt -> list Z -> W -> Z * W;
  sa_getsockopt : Z -> sockopt -> W -> option Z * W;
  sa_getsockname : Z -> W -> option bytes * W;
  sa_getpeername : Z -> W -> option bytes * W;
  sa_fdctx : Z -> W -> bool * W;                       (* FdMgr's get(sock, true): an open socket? *)
  sa_send : Z -> bytes -> Z -> W -> Z * W;
  sa_sendmsg : Z -> list bytes -> Z -> W -> Z * W;
  sa_sendto : Z -> bytes -> Z -> Addr -> W -> Z * W;
  sa_sendmsg_to : Z -> list bytes -> Z -> Addr -> W -> Z * W;
  sa_recv : Z -> Z -> Z -> W -> (Z * bytes) * W;
  sa_recvmsg : Z -> list Z -> Z -> W -> (Z * bytes) * W;
  sa_recvfrom : Z -> Z -> Z -> W -> (Z * bytes * bytes) * W;      (* with the address of the sender *)
  sa_recvmsg_from : Z -> list Z -> Z -> W -> (Z * bytes * bytes) * W;
  sa_cancel : Z -> io_event -> W -> option bool * W;    (* of this thread's IOManager, if it has one *)
  sa_cancel_all : Z -> W -> option bool * W }.

Record Socket := mkSocket {
  m_sock : Z; m_family : Z; m_type : Z; m_protocol : Z; m_isConnected : bool;
  m_localAddress : option Addr; m_remoteAddress : option Addr }.

Section socket.
Context {W : Type} `{SocketApi W}.
Implicit Types (s : Socket * W) (addr : Addr).

Definition new_Socket (family type protocol : Z) : Socket := mkSocket (-1) family type protocol false None None.
Definition isVaild (x : Socket) : bool := negb (m_sock x =? -1).

(** A call that the world answers, and a change of the socket *)
Definition os {A} (call : W -> A * W) : M (Socket * W) A := fun s => let '(a, w) := call (snd s) in Ok a (fst s, w).
Definition self : M (Socket * W) Socket := s <- get ;; ret (fst s).
Definition upd (f : Socket -> Socket) : M (Socket * W) unit := modify (fun s => (f (fst s), snd s)).

Definition with_sock (v : Z) (x : Socket) := mkSocket v (m_family x) (m_type x) (m_protocol x) (m_isConnected x) (m_localAddress x) (m_remoteAddress x).
Definition with_connected (v : bool) (x : Socket) := mkSocket (m_sock x) (m_family x) (m_type x) (m_protocol x) v (m_localAddress x) (m_remoteAddress x).
Definition with_local (v : option Addr) (x : Socket) := mkSocket (m_sock x) (m_family x) (m_type x) (m_protocol x) (m_isConnected x) v (m_remoteAddress x).
Definition with_remote (v : option Addr) (x : Socket) := mkSocket (m_sock x) (m_family x) (m_type x) (m_protocol x) (m_isConnected x) (m_localAddress x) v.

(** ** Options *)

Definition setOption (opt : sockopt) (value : list Z) : M (Socket * W) bool :=
  x <- self ;; rt <- os (sa_setsockopt (m_sock x) opt value) ;; ret (rt =? 0).
Definition getOption (opt : sockopt) : M (Socket * W) (option Z) := x <- self ;; os (sa_getsockopt (m_sock x) opt).
Definition getError : M (Socket * W) Z := r <- getOption SO_ERROR ;; ret (default (-1) r).
(** [timeval{int(v / 1000), int(v % 1000 * 1000)}] *)
Definition timeval_of (v : Z) : list Z := [s32 (Z.quot v 1000); s32 (s64 (Z.rem v 1000 * 1000))].
Definition setSendTimeout (v : Z) : M (Socket * W) unit :=
  x <- self ;; if negb (isVaild x) then ret tt else setOption SO_SNDTIMEO (timeval_of v) ;;; ret tt.
Definition setRecvTimeout (v : Z) : M (Socket * W) unit :=
  x <- self ;; if negb (isVaild x) then ret tt else setOption SO_RCVTIMEO (timeval_of v) ;;; ret tt.

Definition initSock : M (Socket * W) unit :=
  x <- self ;;
  setOption SO_REUSEADDR [1] ;;;
  (if (m_type x =? SOCK_STREAM) && negb (m_family x =? AF_UNIX) then setOption TCP_NODELAY [1] ;;; ret tt else ret tt) ;;;
  setOption SO_RCVTIMEO [0; 0] ;;; setOption SO_SNDTIMEO [0; 0] ;;; ret tt.
Definition newSock : M (Socket * W) unit :=
  x <- self ;;
  fd <- os (sa_socket (m_family x) (m_type x) (m_protocol x)) ;;
  upd (with_sock fd) ;;;
  if negb (fd =? -1) then initSock else ret tt.

(** ** Addresses: a result that the call did not give is not kept. *)

Definition getRemoteAddress : M (Socket * W) Addr :=
  x <- self ;;
  match m_remoteAddress x with
  | Some a => ret a
  | None => r <- os (sa_getpeername (m_sock x)) ;;
            match r with
            | None => ret (mkAddr (m_family x) [])
            | Some b => upd (with_remote (Some (mkAddr (m_family x) b))) ;;; ret (mkAddr (m_family x) b)
            end
  end.
Definition getLocalAddress : M (Socket * W) Addr :=
  x <- self ;;
  match m_localAddress x with
  | Some a => ret a
  | None => r <- os (sa_getsockname (m_sock x)) ;;
            match r with
            | None => ret (mkAddr (m_family x) [])
            | Some b => upd (with_local (Some (mkAddr (m_family x) b))) ;;; ret (mkAddr (m_family x) b)
            end
  end.

(** ** Connections *)

(** [close()], which the destructor calls *)
Definition Socket_close : M (Socket * W) bool :=
  x <- self ;;
  if m_sock x =? -1 then ret true
  else
    upd (with_connected false) ;;;
    os (sa_close (m_sock x)) ;;;
    upd (with_sock (-1)) ;;; upd (with_local None) ;;; upd (with_remote None) ;;; ret true.

(** The first lines of [bind] and [connect]: is there a socket now? *)
Definition ensure : M (Socket * W) bool :=
  x <- self ;; if isVaild x then ret true else newSock ;;; x <- self ;; ret (isVaild x).

Definition Socket_bind (addr : Addr) : M (Socket * W) bool :=
  ok <- ensure ;;
  if negb ok then ret false
  else
    x <- self ;;
    if negb (addr_family addr =? m_family x) then ret false
    else
      rt <- os (sa_bind (m_sock x) addr) ;;
      if negb (rt =? 0) then ret false else getLocalAddress ;;; ret true.

(** [connect(addr, timeout_ms)]; -1 is [uint64_t]'s largest value. *)
Definition Socket_connect (addr : Addr) (timeout_ms : Z) : M (Socket * W) bool :=
  ok <- ensure ;;
  if negb ok then ret false
  else
    x <- self ;;
    if negb (addr_family addr =? m_family x) then ret false
    else
      rt <- os (if timeout_ms =? u64 (-1) then sa_connect (m_sock x) addr else sa_connect_timeout (m_sock x) addr timeout_ms) ;;
      if negb (rt =? 0) then Socket_close ;;; ret false
      else upd (with_connected true) ;;; getRemoteAddress ;;; getLocalAddress ;;; ret true.

Definition Socket_listen (backlog : Z) : M (Socket * W) bool :=
  x <- self ;;
  if negb (isVaild x) then ret false else rt <- os (sa_listen (m_sock x) backlog) ;; ret (rt =? 0).

(** [init(sock)] *)
Definition Socket_init (fd : Z) : M (Socket * W) bool :=
  ok <- os (sa_fdctx fd) ;;
  if ok : bool then
    upd (with_sock fd) ;;; upd (with_connected true) ;;; initSock ;;; getLocalAddress ;;; getRemoteAddress ;;; ret true
  else ret false.
(** [accept()]: the new socket; when it is not returned, its destructor runs. *)
Definition Socket_accept : M (Socket * W) (option Socket) :=
  x <- self ;;
  fd <- os (sa_accept (m_sock x)) ;;
  if fd =? -1 then ret None
  else fun s =>
    match (ok <- Socket_init fd ;; (if ok : bool then ret tt else Socket_close ;;; ret tt) ;;; ret ok)
            (new_Socket (m_family x) (m_type x) (m_protocol x), snd s) with
    | Ok ok (y, w) => Ok (if ok : bool then Some y else None) (fst s, w)
    | Throw e (_, w) => Throw e (fst s, w)
    | Undef u => Undef u
    end.

(** ** Factories *)

Definition CreateTCP (addr : Addr) : Socket := new_Socket (addr_family addr) SOCK_STREAM 0.
Definition CreateUDP (addr : Addr) : W -> outcome (Socket * W) unit := fun w => newSock (new_Socket (addr_family addr) SOCK_DGRAM 0, w).
Definition CreateUDPSocket : W -> outcome (Socket * W) unit := fun w => newSock (new_Socket AF_INET SOCK_DGRAM 0, w).
Definition CreateUDPSocket6 : W -> outcome (Socket * W) unit := fun w => newSock (new_Socket AF_INET6 SOCK_DGRAM 0, w).
Definition CreateUnixUDPSocket : Socket := new_Socket AF_UNIX SOCK_DGRAM 0.

(** ** Data *)

Definition Socket_send (data : bytes) (flags : Z) : M (Socket * W) Z :=
  x <- self ;; if negb (m_isConnected x) then ret (-1) else os (sa_send (m_sock x) data flags).
Definition Socket_sendv (data : list bytes) (flags : Z) : M (Socket * W) Z :=
  x <- self ;; if negb (m_isConnected x) then ret (-1) else os (sa_sendmsg (m_sock x) data flags).
Definition Socket_sendTo (data : bytes) (to : option Addr) (flags : Z) : M (Socket * W) Z :=
  x <- self ;;
  match to with
  | None => ret (-1)
  | Some to => if negb (addr_family to =? m_family x) then ret (-1) else os (sa_sendto (m_sock x) data flags to)
  end.
Definition Socket_sendvTo (data : list bytes) (to : option Addr) (flags : Z) : M (Socket * W) Z :=
  x <- self ;;
  match to with
  | None => ret (-1)
  | Some to => if negb (addr_family to =? m_family x) then ret (-1) else os (sa_sendmsg_to (m_sock x) data flags to)
  end.
Definition Socket_recv (length flags : Z) : M (Socket * W) (Z * bytes) :=
  x <- self ;; if negb (m_isConnected x) then ret (-1, []) else os (sa_recv (m_sock x) length flags).
Definition Socket_recvv (lengths : list Z) (flags : Z) : M (Socket * W) (Z * bytes) :=
  x <- self ;; if negb (m_isConnected x) then ret (-1, []) else os (sa_recvmsg (m_sock x) lengths flags).
(** [recvFrom]: the result, the data and [from]; the case of [AF_UNIX] falls through to the error. *)
Definition Socket_recvFrom (length flags : Z) (from : option Addr) : M (Socket * W) (Z * bytes * option Addr) :=
  x <- self ;;
  if (m_family x =? AF_INET) || (m_family x =? AF_INET6) then
    r <- os (sa_recvfrom (m_sock x) length flags) ;;
    let '(rt, data, peer) := r in ret (rt, data, Some (mkAddr (m_family x) peer))
  else ret (-1, [], if m_family x =? AF_UNIX then Some (mkAddr AF_UNIX []) else from).
Definition Socket_recvvFrom (lengths : list Z) (flags : Z) (from : option Addr) : M (Socket * W) (Z * bytes * option Addr) :=
  x <- self ;;
  if (m_family x =? AF_INET) || (m_family x =? AF_INET6) then
    r <- os (sa_recvmsg_from (m_sock x) lengths flags) ;;
    let '(rt, data, peer) := r in ret (rt, data, Some (mkAddr (m_family x) peer))
  else ret (-1, [], if m_family x =? AF_UNIX then Some (mkAddr AF_UNIX []) else from).

(** ** Cancelling *)

Definition cancelRead : M (Socket * W) bool := x <- self ;; r <- os (sa_cancel (m_sock x) READ) ;; ret (default false r).
Definition cancelWrite : M (Socket * W) bool := x <- self ;; r <- os (sa_cancel (m_sock x) WRITE) ;; ret (default false r).
Definition cancelAccept : M (Socket * W) bool := cancelRead.
Definition cancelAll : M (Socket * W) bool := x <- self ;; r <- os (sa_cancel_all (m_sock x)) ;; ret (default false r).
End socket.
