(* ===== verification/SocketSpec.v ===== *)
(** * What sockets promise

    A socket owns at most one descriptor: what it opens it closes. *)

From S2P Require Import Socket Prelude Http.

(** What the operating system promises: the descriptors that are open, of which only [socket],
    [accept] and [close] change the set; and -1 is none. *)
Class SocketLaws W `{SocketApi W} := {
  fds : W -> gset Z;
  fds_valid : forall w, (-1) ∉ fds w;
  fds_socket : forall f t p w r w', sa_socket f t p w = (r, w') ->
    (r = -1 /\ fds w' = fds w) \/ (r <> -1 /\ r ∉ fds w /\ fds w' = {[r]} ∪ fds w);
  fds_accept : forall fd w r w', sa_accept fd w = (r, w') ->
    (r = -1 /\ fds w' = fds w) \/ (r <> -1 /\ r ∉ fds w /\ fds w' = {[r]} ∪ fds w);
  fds_close : forall fd w, fds (snd (sa_close fd w)) = fds w ∖ {[fd]};
  fds_bind : forall fd a w, fds (snd (sa_bind fd a w)) = fds w;
  fds_listen : forall fd n w, fds (snd (sa_listen fd n w)) = fds w;
  fds_connect : forall fd a w, fds (snd (sa_connect fd a w)) = fds w;
  fds_connect_timeout : forall fd a t w, fds (snd (sa_connect_timeout fd a t w)) = fds w;
  fds_setsockopt : forall fd o v w, fds (snd (sa_setsockopt fd o v w)) = fds w;
  fds_getsockopt : forall fd o w, fds (snd (sa_getsockopt fd o w)) = fds w;
  fds_getsockname : forall fd w, fds (snd (sa_getsockname fd w)) = fds w;
  fds_getpeername : forall fd w, fds (snd (sa_getpeername fd w)) = fds w;
  fds_fdctx : forall fd w, fds (snd (sa_fdctx fd w)) = fds w;
  fds_send : forall fd d f w, fds (snd (sa_send fd d f w)) = fds w;
  fds_sendmsg : forall fd d f w, fds (snd (sa_sendmsg fd d f w)) = fds w;
  fds_sendto : forall fd d f a w, fds (snd (sa_sendto fd d f a w)) = fds w;
  fds_sendmsg_to : forall fd d f a w, fds (snd (sa_sendmsg_to fd d f a w)) = fds w;
  fds_recv : forall fd n f w, fds (snd (sa_recv fd n f w)) = fds w;
  fds_recvmsg : forall fd n f w, fds (snd (sa_recvmsg fd n f w)) = fds w;
  fds_recvfrom : forall fd n f w, fds (snd (sa_recvfrom fd n f w)) = fds w;
  fds_recvmsg_from : forall fd n f w, fds (snd (sa_recvmsg_from fd n f w)) = fds w;
  fds_cancel : forall fd e w, fds (snd (sa_cancel fd e w)) = fds w;
  fds_cancel_all : forall fd w, fds (snd (sa_cancel_all fd w)) = fds w;
  (* EBADF *)
  bad_getsockname : forall w, fst (sa_getsockname (-1) w) = None;
  bad_getpeername : forall w, fst (sa_getpeername (-1) w) = None }.

Section socket.
Context {W : Type} `{SocketLaws W}.
Implicit Types (s : Socket * W) (x : Socket) (base : gset Z).

Definition own x : gset Z := if m_sock x =? -1 then ∅ else {[m_sock x]}.
(** The descriptors of others are [base]; a socket without descriptor has nothing else. *)
Record sock_ok base s : Prop := {
  ok_fds : fds (snd s) = own (fst s) ∪ base;
  ok_apart : m_sock (fst s) ∉ base;
  ok_none : m_sock (fst s) = -1 -> m_isConnected (fst s) = false /\ m_localAddress (fst s) = None /\ m_remoteAddress (fst s) = None }.

(** A method that returns, and keeps this. *)
Definition tidy {A} (m : M (Socket * W) A) : Prop := forall base s, sock_ok base s -> exists a s', m s = Ok a s' /\ sock_ok base s'.

Lemma tidy_ret {A} (a : A) : tidy (ret a).
Proof. intros base s Hs. by exists a, s. Qed.
Lemma tidy_bind {A B} (m : M (Socket * W) A) (k : A -> M (Socket * W) B) : tidy m -> (forall a, tidy (k a)) -> tidy (bind m k).
Proof.
  intros Hm Hk base s Hs. destruct (Hm base s Hs) as (a & s1 & E1 & H1). destruct (Hk a base s1 H1) as (b & s2 & E2 & H2).
  exists b, s2. by rewrite (bind_ok _ _ _ _ _ E1).
Qed.
Lemma tidy_self {A} (k : Socket -> M (Socket * W) A) :
  (forall x base s, sock_ok base s -> fst s = x -> exists a s', k x s = Ok a s' /\ sock_ok base s') -> tidy (x <- self ;; k x).
Proof. intros Hk base s Hs. destruct (Hk (fst s) base s Hs eq_refl) as (a & s' & E & Hs'). by exists a, s'. Qed.
Lemma tidy_os {A} (call : W -> A * W) : (forall w, fds (snd (call w)) = fds w) -> tidy (os call).
Proof.
  intros Hc base [x w] [O1 O2 O3]. unfold os. cbn [fst snd]. specialize (Hc w). destruct (call w) as [a w']. exists a, (x, w').
  split; [done|]. split; [|done..]. cbn in *. congruence.
Qed.
Lemma tidy_read {A} (k : Socket -> M (Socket * W) A) : (forall x, tidy (k x)) -> tidy (x <- self ;; k x).
Proof. intros Hk. apply tidy_self. intros x base s Hs _. by apply Hk. Qed.
Lemma tidy_throw_if {A} (b : bool) (m n : M (Socket * W) A) : tidy m -> tidy n -> tidy (if b then m else n).
Proof. by destruct b. Qed.
End socket.

Create HintDb tidy.
#[export] Hint Resolve tidy_ret tidy_read : tidy.
#[export] Hint Extern 2 (tidy (bind self _)) => apply tidy_read; intros ? : tidy.
#[export] Hint Extern 3 (tidy (bind _ _)) => apply tidy_bind; [|intros ?] : tidy.
#[export] Hint Extern 2 (tidy (os _)) => apply tidy_os; intros ? : tidy.
#[export] Hint Extern 3 (tidy (if ?b then _ else _)) => destruct b : tidy.
#[export] Hint Extern 3 (tidy (match ?x with _ => _ end)) => destruct x : tidy.
#[export] Hint Resolve fds_bind fds_listen fds_connect fds_connect_timeout fds_setsockopt fds_getsockopt fds_getsockname fds_getpeername
  fds_fdctx fds_send fds_sendmsg fds_sendto fds_sendmsg_to fds_recv fds_recvmsg fds_recvfrom fds_recvmsg_from fds_cancel fds_cancel_all : tidy.

Section steady.
Context {W : Type} `{SocketApi W}.
(** Methods that change nothing of the socket itself *)
Definition steady {A} (m : M (Socket * W) A) : Prop := forall s a s', m s = Ok a s' -> fst s' = fst s.
Lemma steady_bind {A B} (m : M (Socket * W) A) (k : A -> M (Socket * W) B) : steady m -> (forall a, steady (k a)) -> steady (bind m k).
Proof. intros Hm Hk s b s' E. apply bind_returns in E as (a & s1 & E1 & E2). rewrite (Hk _ _ _ _ E2). by eapply Hm. Qed.
Lemma steady_os {A} (call : W -> A * W) : steady (os call).
Proof. intros [x w] a s' E. unfold os in E. cbn in E. destruct (call w). by injection E as _ <-. Qed.
Lemma steady_self : steady self.
Proof. by intros s a s' [= _ <-]. Qed.
Lemma steady_ret {A} (a : A) : steady (ret a).
Proof. by intros s b s' [= _ <-]. Qed.
End steady.
Ltac steady_steps := repeat first
  [ apply steady_ret | apply steady_self | apply steady_os | apply steady_bind; [|intros ?] | match goal with |- steady (if ?b then _ else _) => destruct b end ].

Section methods.
Context {W : Type} `{SocketLaws W}.
Implicit Types (s : Socket * W) (x : Socket) (base : gset Z).

Lemma setOption_tidy o v : tidy (setOption o v).
Proof. unfold setOption. auto 6 with tidy. Qed.
Lemma initSock_tidy : tidy initSock.
Proof. unfold initSock. pose proof setOption_tidy. auto 12 with tidy. Qed.

Lemma newSock_tidy base s : sock_ok base s -> m_sock (fst s) = -1 -> exists s', newSock s = Ok tt s' /\ sock_ok base s'.
Proof.
  intros [O1 O2 O3] Hx. destruct s as [x w]. cbn [fst snd] in *. unfold newSock. rewrite (bind_ok _ _ _ x (x, w)) by done.
  destruct (sa_socket (m_family x) (m_type x) (m_protocol x) w) as [fd w1] eqn:Es.
  rewrite (bind_ok _ _ (x, w) fd (x, w1)) by (unfold os; cbn; by rewrite Es).
  rewrite (bind_ok _ _ _ tt (with_sock fd x, w1)) by done.
  unfold own in O1. rewrite Hx, Z.eqb_refl, (left_id_L _ _) in O1.
  assert (sock_ok base (with_sock fd x, w1)) as H1.
  { destruct (fds_socket _ _ _ _ _ _ Es) as [[-> E]|(Hne & Hnew & E)].
    - split; cbn; [|by rewrite <- O1; apply fds_valid|by intros _; apply O3]. unfold own. cbn. rewrite (left_id_L _ _). congruence.
    - split; cbn; [|by rewrite <- O1|done]. unfold own. cbn. destruct (Z.eqb_spec fd (-1)); [done|]. congruence. }
  destruct (negb _); [|by eexists]. destruct (initSock_tidy base _ H1) as ([] & s' & E & Hs'). by exists s'.
Qed.
Lemma ensure_tidy : tidy ensure.
Proof.
  apply tidy_self. intros x base s Hs <-. destruct (isVaild (fst s)) eqn:Ev; [by eexists _, _|]. unfold isVaild in Ev.
  apply negb_false_iff, Z.eqb_eq in Ev. destruct (newSock_tidy base s Hs Ev) as (s1 & E & H1). rewrite (bind_ok _ _ _ _ _ E).
  eexists _, s1. by split.
Qed.

Lemma getLocalAddress_tidy base s : sock_ok base s -> exists a s', getLocalAddress s = Ok a s' /\ sock_ok base s' /\
  m_sock (fst s') = m_sock (fst s) /\ m_isConnected (fst s') = m_isConnected (fst s) /\ (m_localAddress (fst s) <> None -> s' = s).
Proof.
  intros [O1 O2 O3]. destruct s as [x w]. cbn [fst snd] in *. unfold getLocalAddress. rewrite (bind_ok _ _ (x, w) x (x, w)) by done.
  destruct (m_localAddress x) as [a|] eqn:Ea; [exists a, (x, w); split_and!; try done; by split; cbn; rewrite ?Ea|].
  pose proof (fds_getsockname (m_sock x) w) as Hf. pose proof (bad_getsockname w) as Hb.
  destruct (sa_getsockname (m_sock x) w) as [[b|] w1] eqn:Es; rewrite (bind_ok _ _ (x, w) _ (x, w1)) by (unfold os; cbn; by rewrite Es); cbn in Hf.
  - eexists _, (with_local (Some (mkAddr (m_family x) b)) x, w1). split_and!; [done| |done..]. split; cbn; [rewrite Hf; exact O1|done|].
    intros E. rewrite <- E, Es in Hb. done.
  - exists (mkAddr (m_family x) []), (x, w1). split_and!; [done| |done..]. split; cbn; [rewrite Hf; exact O1|done|rewrite Ea; exact O3].
Qed.
Lemma getRemoteAddress_tidy base s : sock_ok base s -> exists a s', getRemoteAddress s = Ok a s' /\ sock_ok base s' /\
  m_sock (fst s') = m_sock (fst s) /\ m_isConnected (fst s') = m_isConnected (fst s).
Proof.
  intros [O1 O2 O3]. destruct s as [x w]. cbn [fst snd] in *. unfold getRemoteAddress. rewrite (bind_ok _ _ (x, w) x (x, w)) by done.
  destruct (m_remoteAddress x) as [a|] eqn:Ea; [exists a, (x, w); split_and!; try done; by split; cbn; rewrite ?Ea|].
  pose proof (fds_getpeername (m_sock x) w) as Hf. pose proof (bad_getpeername w) as Hb.
  destruct (sa_getpeername (m_sock x) w) as [[b|] w1] eqn:Es; rewrite (bind_ok _ _ (x, w) _ (x, w1)) by (unfold os; cbn; by rewrite Es); cbn in Hf.
  - eexists _, (with_remote (Some (mkAddr (m_family x) b)) x, w1). split_and!; [done| |done..]. split; cbn; [rewrite Hf; exact O1|done|].
    intros E. rewrite <- E, Es in Hb. done.
  - exists (mkAddr (m_family x) []), (x, w1). split_and!; [done| |done..]. split; cbn; [rewrite Hf; exact O1|done|rewrite Ea; exact O3].
Qed.
Lemma local_tidy : tidy getLocalAddress.
Proof. intros base s Hs. destruct (getLocalAddress_tidy base s Hs) as (a & s' & E & H' & _). by exists a, s'. Qed.
Lemma remote_tidy : tidy getRemoteAddress.
Proof. intros base s Hs. destruct (getRemoteAddress_tidy base s Hs) as (a & s' & E & H' & _). by exists a, s'. Qed.

(** [close()] leaves a socket without descriptor. *)
Lemma close_tidy base s : sock_ok base s -> exists s', Socket_close s = Ok true s' /\ sock_ok base s' /\
  m_sock (fst s') = -1 /\ m_family (fst s') = m_family (fst s) /\ fds (snd s') = base.
Proof.
  intros [O1 O2 O3]. destruct s as [x w]. cbn [fst snd] in *. unfold Socket_close. rewrite (bind_ok _ _ (x, w) x (x, w)) by done.
  unfold own in O1. destruct (Z.eqb_spec (m_sock x) (-1)) as [Hx|Hx].
  - exists (x, w). rewrite (left_id_L _ _) in O1. split_and!; [done| |done..]. split; cbn; [|done..].
    unfold own. by rewrite (proj2 (Z.eqb_eq _ _) Hx), (left_id_L _ _).
  - pose proof (fds_close (m_sock x) w) as Hf. destruct (sa_close (m_sock x) w) as [rt w1] eqn:Es. cbn in Hf.
    exists (mkSocket (-1) (m_family x) (m_type x) (m_protocol x) false None None, w1).
    assert (fds w1 = base) as Hb by (rewrite Hf, O1; set_solver). split_and!; [|split; cbn|done..|done].
    + rewrite (bind_ok _ _ (x, w) tt (with_connected false x, w)) by done.
      rewrite (bind_ok _ _ (with_connected false x, w) rt (with_connected false x, w1)) by (unfold os; cbn; by rewrite Es). done.
    + by rewrite (left_id_L _ _).
    + rewrite <- Hb. apply fds_valid.
    + done.
Qed.
Lemma Socket_close_tidy : tidy Socket_close.
Proof. intros base s Hs. destruct (close_tidy base s Hs) as (s' & E & H' & _). by exists true, s'. Qed.

Lemma bind_tidy a : tidy (Socket_bind a).
Proof. unfold Socket_bind. pose proof ensure_tidy. pose proof local_tidy. auto 12 with tidy. Qed.

Lemma ensure_ok base s : sock_ok base s -> exists b s', ensure s = Ok b s' /\ sock_ok base s' /\ (b = true -> m_sock (fst s') <> -1).
Proof.
  intros Hs. unfold ensure. rewrite (bind_ok _ _ s (fst s) s) by done. destruct (isVaild (fst s)) eqn:Ev.
  - exists true, s. split_and!; [done..|]. intros _ E. unfold isVaild in Ev. by rewrite E in Ev.
  - unfold isVaild in Ev. apply negb_false_iff, Z.eqb_eq in Ev. destruct (newSock_tidy base s Hs Ev) as (s1 & E & H1).
    rewrite (bind_ok _ _ _ _ _ E). exists (isVaild (fst s1)), s1. split_and!; [done..|]. unfold isVaild. intros Hv E1. by rewrite E1 in Hv.
Qed.

Lemma connect_tidy a t base s : sock_ok base s -> exists b s', Socket_connect a t s = Ok b s' /\ sock_ok base s' /\
  (b = true -> m_sock (fst s') <> -1 /\ m_isConnected (fst s') = true).
Proof.
  intros Hs. unfold Socket_connect. destruct (ensure_ok base s Hs) as (ok & s1 & E1 & H1 & V1). rewrite (bind_ok _ _ _ _ _ E1).
  destruct ok; cbn [negb]; [|by exists false, s1]. rewrite (bind_ok _ _ s1 (fst s1) s1) by done.
  destruct (negb (addr_family a =? m_family (fst s1))); [by exists false, s1|].
  destruct (tidy_os (if t =? u64 (-1) then sa_connect (m_sock (fst s1)) a else sa_connect_timeout (m_sock (fst s1)) a t)) with (base := base) (s := s1)
    as (rt & s2 & E2 & H2); [intros w; destruct (_ =? _); [apply fds_connect|apply fds_connect_timeout]|done|].
  rewrite (bind_ok _ _ _ _ _ E2). assert (fst s2 = fst s1) as E21 by (unfold os in E2; destruct (_ (snd s1)); by injection E2 as _ <-).
  destruct (negb _).
  - destruct (close_tidy base s2 H2) as (s3 & E3 & H3 & _). rewrite (bind_ok _ _ _ _ _ E3). by exists false, s3.
  - set (s3 := (with_connected true (fst s2), snd s2)). rewrite (bind_ok _ _ s2 tt s3) by done.
    assert (m_sock (fst s3) <> -1) as V3 by (cbn; rewrite E21; by apply V1).
    assert (sock_ok base s3) as H3 by (destruct H2 as [O1 O2 O3]; by split).
    destruct (getRemoteAddress_tidy base s3 H3) as (r & s4 & E4 & H4 & M4 & C4). rewrite (bind_ok _ _ _ _ _ E4).
    destruct (getLocalAddress_tidy base s4 H4) as (l & s5 & E5 & H5 & M5 & C5 & _). rewrite (bind_ok _ _ _ _ _ E5).
    exists true, s5. split_and!; [done..|]. intros _. rewrite M5, M4, C5, C4. by split.
Qed.
Lemma Socket_connect_tidy a t : tidy (Socket_connect a t).
Proof. intros base s Hs. destruct (connect_tidy a t base s Hs) as (b & s' & E & H' & _). by exists b, s'. Qed.

(** What a program calls of a socket, but for [accept] *)
Inductive socket_op :=
  | OpBind (a : Addr) | OpConnect (a : Addr) (timeout_ms : Z) | OpListen (backlog : Z) | OpClose | OpSetSendTimeout (v : Z)
  | OpSetRecvTimeout (v : Z) | OpSetOption (o : sockopt) (v : list Z) | OpGetError | OpLocalAddress | OpRemoteAddress
  | OpSend (d : bytes) (f : Z) | OpSendv (d : list bytes) (f : Z) | OpSendTo (d : bytes) (to : option Addr) (f : Z)
  | OpSendvTo (d : list bytes) (to : option Addr) (f : Z) | OpRecv (n f : Z) | OpRecvv (n : list Z) (f : Z)
  | OpRecvFrom (n f : Z) (from : option Addr) | OpRecvvFrom (n : list Z) (f : Z) (from : option Addr)
  | OpCancelRead | OpCancelWrite | OpCancelAccept | OpCancelAll.
Definition forget {A} (m : M (Socket * W) A) : M (Socket * W) unit := m ;;; ret tt.
Definition run_op (o : socket_op) : M (Socket * W) unit :=
  match o with
  | OpBind a => forget (Socket_bind a) | OpConnect a t => forget (Socket_connect a t) | OpListen n => forget (Socket_listen n)
  | OpClose => forget Socket_close | OpSetSendTimeout v => setSendTimeout v | OpSetRecvTimeout v => setRecvTimeout v
  | OpSetOption o v => forget (setOption o v) | OpGetError => forget getError | OpLocalAddress => forget getLocalAddress
  | OpRemoteAddress => forget getRemoteAddress | OpSend d f => forget (Socket_send d f) | OpSendv d f => forget (Socket_sendv d f)
  | OpSendTo d to f => forget (Socket_sendTo d to f) | OpSendvTo d to f => forget (Socket_sendvTo d to f)
  | OpRecv n f => forget (Socket_recv n f) | OpRecvv n f => forget (Socket_recvv n f)
  | OpRecvFrom n f from => forget (Socket_recvFrom n f from) | OpRecvvFrom n f from => forget (Socket_recvvFrom n f from)
  | OpCancelRead => forget cancelRead | OpCancelWrite => forget cancelWrite | OpCancelAccept => forget cancelAccept
  | OpCancelAll => forget cancelAll
  end.
Lemma forget_tidy {A} (m : M (Socket * W) A) : tidy m -> tidy (forget m).
Proof. intros Hm. unfold forget. auto with tidy. Qed.
Lemma run_op_tidy o : tidy (run_op o).
Proof.
  pose proof bind_tidy. pose proof Socket_connect_tidy. pose proof Socket_close_tidy. pose proof setOption_tidy. pose proof local_tidy.
  pose proof remote_tidy. destruct o; cbn [run_op]; try apply forget_tidy; auto with tidy.
  all: unfold Socket_listen, setSendTimeout, setRecvTimeout, getError, getOption, Socket_send, Socket_sendv, Socket_sendTo, Socket_sendvTo,
    Socket_recv, Socket_recvv, Socket_recvFrom, Socket_recvvFrom, cancelAccept, cancelRead, cancelWrite, cancelAll; auto 12 with tidy.
Qed.
Lemma initSock_steady : steady initSock.
Proof. unfold initSock, setOption. steady_steps. Qed.

Lemma init_ok base fd y w : sock_ok base (with_connected true (with_sock fd y), w) -> exists s',
  (initSock ;;; getLocalAddress ;;; getRemoteAddress ;;; ret true) (with_connected true (with_sock fd y), w) = Ok true s' /\
  sock_ok base s' /\ m_sock (fst s') = fd /\ m_isConnected (fst s') = true.
Proof.
  intros H2. destruct (initSock_tidy base _ H2) as ([] & s3 & E3 & H3). pose proof (initSock_steady _ _ _ E3) as S3.
  rewrite (bind_ok _ _ _ _ _ E3). destruct (getLocalAddress_tidy base s3 H3) as (l & s4 & E4 & H4 & M4 & C4 & _).
  rewrite (bind_ok _ _ _ _ _ E4). destruct (getRemoteAddress_tidy base s4 H4) as (r & s5 & E5 & H5 & M5 & C5).
  rewrite (bind_ok _ _ _ _ _ E5). exists s5. split_and!; [done..| |].
  - by rewrite M5, M4, S3.
  - by rewrite C5, C4, S3.
Qed.

Lemma accept_ok base s : sock_ok base s -> exists r w', Socket_accept s = Ok r (fst s, w') /\
  match r with
  | Some y => sock_ok (fds (snd s)) (y, w') /\ m_sock y <> -1 /\ m_isConnected y = true
  | None => (fst (sa_accept (m_sock (fst s)) (snd s)) = -1 /\ fds w' = fds (snd s)) \/
            exists fd, fst (sa_accept (m_sock (fst s)) (snd s)) = fd /\ fd ∉ fds (snd s) /\ fds w' = {[fd]} ∪ fds (snd s)
  end.
Proof.
  intros Hs. destruct s as [x w]. cbn [fst snd]. unfold Socket_accept. rewrite (bind_ok _ _ (x, w) x (x, w)) by done.
  destruct (sa_accept (m_sock x) w) as [fd w1] eqn:Ea. rewrite (bind_ok _ _ (x, w) fd (x, w1)) by (unfold os; cbn; by rewrite Ea).
  cbn [fst]. destruct (fds_accept _ _ _ _ Ea) as [[-> E]|(Hne & Hnew & E)]; [exists None, w1; split; [done|by left]|].
  rewrite (proj2 (Z.eqb_neq _ _) Hne). cbn [snd fst]. set (y := new_Socket _ _ _).
  pose proof (fds_fdctx fd w1) as Hf. destruct (sa_fdctx fd w1) as [ok w2] eqn:Ef. cbn in Hf.
  assert (Socket_init fd (y, w1) = (if ok then upd (with_sock fd) ;;; upd (with_connected true) ;;; initSock ;;; getLocalAddress ;;;
    getRemoteAddress ;;; ret true else ret false) (y, w2)) as Ei.
  { unfold Socket_init. by rewrite (bind_ok _ _ (y, w1) ok (y, w2)) by (unfold os; cbn; by rewrite Ef). }
  destruct ok.
  - assert (sock_ok (fds w) (with_connected true (with_sock fd y), w2)) as H2.
    { split; cbn; [|done|done]. unfold own. cbn. rewrite (proj2 (Z.eqb_neq _ _) Hne). congruence. }
    destruct (init_ok (fds w) fd y w2 H2) as ([z w5] & E5 & H5 & M5 & C5). cbn [fst] in M5, C5.
    exists (Some z), w5. rewrite (bind_ok _ _ (y, w1) true (z, w5)) by (by rewrite Ei; exact E5). split; [done|]. split_and!; [done|congruence|done].
  - exists None, w2. rewrite (bind_ok _ _ (y, w1) false (y, w2)) by done. split; [done|]. right. exists fd. split_and!; [done..|congruence].
Qed.

(** Accepted sockets, and a leak.  [accept] of a socket changes nothing of it.  When it returns a
    socket, that is connected, and owns one descriptor, which is new.  When it returns none, either
    no connection was accepted, or the descriptor of the connection, which is not taken by the
    manager of descriptors, stays open, and nobody has it. *)
Theorem accept_owns_or_leaks base s : sock_ok base s -> exists r w', Socket_accept s = Ok r (fst s, w') /\
  match r with
  | Some y => sock_ok (fds (snd s)) (y, w') /\ m_sock y <> -1 /\ m_isConnected y = true
  | None => (fst (sa_accept (m_sock (fst s)) (snd s)) = -1 /\ fds w' = fds (snd s)) \/
            exists fd, fst (sa_accept (m_sock (fst s)) (snd s)) = fd /\ fd ∉ fds (snd s) /\ fds w' = {[fd]} ∪ fds (snd s)
  end.
Proof. apply accept_ok. Qed.

(** ** Programs with any number of sockets *)

(** What a program does with its sockets: it makes one, without a descriptor or by one of the UDP
    factories; calls a method of the one at an index; accepts on it, where a socket that is returned
    is the last one; and destroys it.  The third part of the state is for the proofs only: the descriptors
    that an accept was given and returned no socket for. *)
Inductive program_op := NewSocket (family type protocol : Z) | NewUDP (family : Z) | On (i : nat) (o : socket_op) | Accept (i : nat) | Destroy (i : nat).
Definition program : Type := list Socket * gset Z * W.
Definition run_one (o : program_op) : M program unit := fun '(l, leaked, w) =>
  match o with
  | NewSocket family type protocol => Ok tt (l ++ [new_Socket family type protocol], leaked, w)
  | NewUDP family =>
      match newSock (new_Socket family SOCK_DGRAM 0, w) with
      | Ok _ (y, w) => Ok tt (l ++ [y], leaked, w) | Throw e (_, w) => Throw e (l, leaked, w) | Undef u => Undef u
      end
  | On i o =>
      match l !! i with
      | None => Ok tt (l, leaked, w)
      | Some x =>
          match run_op o (x, w) with
          | Ok _ (y, w) => Ok tt (<[i := y]> l, leaked, w) | Throw e (y, w) => Throw e (<[i := y]> l, leaked, w) | Undef u => Undef u
          end
      end
  | Accept i =>
      match l !! i with
      | None => Ok tt (l, leaked, w)
      | Some x =>
          match Socket_accept (x, w) with
          | Ok (Some client) (y, w) => Ok tt (<[i := y]> l ++ [client], leaked, w)
          | Ok None (y, w1) =>
              let fd := fst (sa_accept (m_sock x) w) in
              Ok tt (<[i := y]> l, if fd =? -1 then leaked else {[fd]} ∪ leaked, w1)
          | Throw e (y, w) => Throw e (<[i := y]> l, leaked, w)
          | Undef u => Undef u
          end
      end
  | Destroy i =>
      match l !! i with
      | None => Ok tt (l, leaked, w)
      | Some x =>
          match Socket_close (x, w) with
          | Ok _ (_, w) => Ok tt (delete i l, leaked, w) | Throw e (_, w) => Throw e (delete i l, leaked, w) | Undef u => Undef u
          end
      end
  end.
Fixpoint run_program (l : list program_op) : M program unit :=
  match l with [] => ret tt | o :: l => run_one o ;;; run_program l end.

Definition valid_fds (l : list Socket) : list Z := omap (fun x => if m_sock x =? -1 then None else Some (m_sock x)) l.
Definition nothing_else x : Prop := m_sock x = -1 -> m_isConnected x = false /\ m_localAddress x = None /\ m_remoteAddress x = None.
(** The descriptors of some sockets: each has its own, apart from those leaked and those of others. *)
Definition distinct base leaked (l : list Socket) : Prop :=
  NoDup (valid_fds l) /\ (forall fd, fd ∈ valid_fds l -> fd ∉ leaked ∪ base) /\ leaked ## base /\ Forall nothing_else l.
Definition owned base leaked (l : list Socket) (w : W) : Prop :=
  fds w = list_to_set (valid_fds l) ∪ (leaked ∪ base) /\ distinct base leaked l.

Lemma owned_perm base leaked l l' w : l ≡ₚ l' -> owned base leaked l w -> owned base leaked l' w.
Proof.
  intros Hp (Hf & Hn & Ha & Hd & Hl). assert (valid_fds l ≡ₚ valid_fds l') as Hv by (unfold valid_fds; by rewrite Hp). unfold owned, distinct. split_and!.
  - rewrite Hf. f_equal. apply set_eq. intros fd. rewrite !elem_of_list_to_set. by rewrite Hv.
  - by rewrite <- Hv.
  - intros fd. rewrite <- Hv. apply Ha.
  - done.
  - by rewrite <- Hp.
Qed.
Lemma own_valid x : list_to_set (valid_fds [x]) = own x.
Proof. unfold valid_fds, own. cbn. destruct (m_sock x =? -1); [done|]. cbn. by rewrite (right_id_L _ _). Qed.
Lemma valid_cons x l : valid_fds (x :: l) = valid_fds [x] ++ valid_fds l.
Proof. unfold valid_fds. cbn. by destruct (m_sock x =? -1). Qed.
Lemma owned_cons base leaked x l w :
  owned base leaked (x :: l) w <-> sock_ok (list_to_set (valid_fds l) ∪ (leaked ∪ base)) (x, w) /\ distinct base leaked l.
Proof.
  unfold owned, distinct. rewrite valid_cons, list_to_set_app_L, own_valid, Forall_cons, <- (assoc_L (∪)). unfold own. split.
  - intros (Hf & Hn & Ha & Hd & Hx & Hl). apply NoDup_app in Hn as (_ & Hno & Hn). split; [|by split_and!; auto using elem_of_app; intros fd Hi; apply Ha, elem_of_app; right].
    split; cbn; [exact Hf| |exact Hx]. pose proof (fds_valid w) as Hv. rewrite Hf in Hv. unfold valid_fds in Hno, Ha. cbn in Hno, Ha.
    destruct (Z.eqb_spec (m_sock x) (-1)) as [->|Hne]; [set_solver|]. specialize (Hno (m_sock x) ltac:(by left)).
    specialize (Ha (m_sock x) ltac:(apply elem_of_app; left; by left)). rewrite not_elem_of_union, elem_of_list_to_set. done.
  - intros ([Hf Ha Hx] & Hn & Har & Hd & Hl). cbn in *. split; [exact Hf|]. apply not_elem_of_union in Ha as [Ha1 Ha2]. rewrite elem_of_list_to_set in Ha1. split_and!.
    + apply NoDup_app. unfold valid_fds at 1 2. cbn. destruct (m_sock x =? -1); split_and!; try done; try constructor; try apply not_elem_of_nil; try constructor.
      * by intros fd ?%elem_of_nil.
      * by intros fd ->%list_elem_of_singleton.
    + intros fd [Hi|Hi]%elem_of_app; [|by apply Har]. unfold valid_fds in Hi. cbn in Hi.
      destruct (m_sock x =? -1); [by apply elem_of_nil in Hi|]. by apply list_elem_of_singleton in Hi as ->.
    + done.
    + done.
    + done.
Qed.
Lemma delete_insert {A} (l : list A) : forall i y, delete i (<[i := y]> l) = delete i l.
Proof. induction l as [|x l IH]; intros [|i] y; [done..|]. cbn. f_equal. apply IH. Qed.
Lemma at_front (l : list Socket) i x : l !! i = Some x -> l ≡ₚ x :: delete i l /\ forall y, <[i := y]> l ≡ₚ y :: delete i l.
Proof.
  intros Hx. split; [by apply delete_Permutation|]. intros y.
  rewrite (delete_Permutation (<[i := y]> l) i y) by (apply list_lookup_insert_eq; by eapply lookup_lt_Some).
  by rewrite delete_insert.
Qed.

(** A method of the socket at an index keeps this. *)
Lemma owned_at base leaked l i x w {A} (m : M (Socket * W) A) : owned base leaked l w -> l !! i = Some x -> tidy m ->
  exists a y w', m (x, w) = Ok a (y, w') /\ owned base leaked (<[i := y]> l) w'.
Proof.
  intros Ho Hx Hm. destruct (at_front l i x Hx) as [Hp Hq]. apply (owned_perm _ _ _ _ _ Hp), owned_cons in Ho as [Hs Hd].
  destruct (Hm _ _ Hs) as (a & [y w'] & E & Hs'). exists a, y, w'. split; [done|]. eapply owned_perm; [symmetry; apply Hq|]. by apply owned_cons.
Qed.
Lemma owned_last base leaked l y w w' : owned base leaked l w -> sock_ok (fds w) (y, w') -> owned base leaked (l ++ [y]) w'.
Proof.
  intros [Hf Hd] Hs. apply (owned_perm _ _ (y :: l)); [by rewrite Permutation_app_comm|]. apply owned_cons. split; [by rewrite <- Hf|done].
Qed.
Lemma new_ok f t p w : sock_ok (fds w) (new_Socket f t p, w).
Proof. split; cbn; [by rewrite (left_id_L _ _)|apply fds_valid|done]. Qed.

Definition takes_all : Prop := forall fd w, fst (sa_fdctx fd w) = true.
Lemma accept_taken x w r s' : takes_all -> Socket_accept (x, w) = Ok r s' -> fst (sa_accept (m_sock x) w) <> -1 -> r <> None.
Proof.
  intros Ht E Hne. unfold Socket_accept in E. rewrite (bind_ok _ _ (x, w) x (x, w)) in E by done.
  destruct (sa_accept (m_sock x) w) as [fd w1] eqn:Ea. rewrite (bind_ok _ _ (x, w) fd (x, w1)) in E by (unfold os; cbn; by rewrite Ea).
  cbn [fst] in Hne. rewrite (proj2 (Z.eqb_neq _ _) Hne) in E. cbn [fst snd] in E. set (y := new_Socket _ _ _) in E.
  specialize (Ht fd w1). destruct (sa_fdctx fd w1) as [ok w2] eqn:Ef. cbn in Ht. subst ok.
  match type of E with match ?m with _ => _ end = _ => destruct m as [ok [z w3]|e [? ?]|] eqn:E2; [|done..] end.
  injection E as <- _. apply bind_returns in E2 as (ok1 & s1 & E1 & E2). apply bind_returns in E2 as (u & s2 & _ & [= -> _]).
  unfold Socket_init in E1. rewrite (bind_ok _ _ (y, w1) true (y, w2)) in E1 by (unfold os; cbn; by rewrite Ef).
  assert (ok = true) as ->; [|done]. repeat (apply bind_returns in E1 as (? & ? & _ & E1)). by injection E1.
Qed.

Lemma run_one_ok base leaked l w o : owned base leaked l w -> exists l' leaked' w', run_one o (l, leaked, w) = Ok tt (l', leaked', w') /\
  owned base leaked' l' w' /\ (takes_all -> leaked' = leaked).
Proof.
  intros Ho. destruct o as [f t p|f|i o|i|i]; cbn [run_one].
  - eexists _, _, _. split_and!; [done| |done]. by apply (owned_last _ _ _ _ w), new_ok.
  - destruct (newSock_tidy (fds w) _ (new_ok f SOCK_DGRAM 0 w) eq_refl) as ([y w'] & -> & Hs). eexists _, _, _. split_and!; [done| |done].
    by apply (owned_last _ _ _ _ w).
  - destruct (l !! i) as [x|] eqn:Hx; [|by exists l, leaked, w].
    destruct (owned_at base leaked l i x w (run_op o) Ho Hx (run_op_tidy o)) as (a & y & w' & -> & Ho'). by eexists _, _, _.
  - destruct (l !! i) as [x|] eqn:Hx; [|by exists l, leaked, w]. destruct (at_front l i x Hx) as [Hp _].
    pose proof (owned_perm _ _ _ _ _ Hp Ho) as [Hs _]%owned_cons. destruct (accept_ok _ _ Hs) as (r & w' & E & Hr). cbn [fst snd] in *.
    rewrite E. rewrite list_insert_id by done. destruct r as [y|].
    + eexists _, _, _. split_and!; [done| |done]. apply (owned_last _ _ _ _ w); [done|by destruct Hr].
    + eexists _, _, _. split_and!; [done| |].
      * destruct Ho as (Hf & Hn & Ha & Hd & Hl). destruct Hr as [[-> Hfd]|(fd & -> & Hnew & Hfd)].
        -- rewrite Z.eqb_refl. split; [congruence|done].
        -- assert (fd <> -1) as Hne.
           { intros ->. apply (fds_valid w'). rewrite Hfd. set_solver. }
           rewrite (proj2 (Z.eqb_neq _ _) Hne). rewrite Hf in Hnew, Hfd. split; [rewrite Hfd; set_solver|]. split_and!; [done| |set_solver|done].
           intros g Hg. specialize (Ha g Hg). assert (g <> fd) by (intros ->; apply Hnew; rewrite elem_of_union, elem_of_list_to_set; by left). set_solver.
      * intros Ht. destruct (Z.eqb_spec (fst (sa_accept (m_sock x) w)) (-1)) as [|Hne]; [done|]. by destruct (accept_taken x w _ _ Ht E Hne).
  - destruct (l !! i) as [x|] eqn:Hx; [|by exists l, leaked, w]. destruct (at_front l i x Hx) as [Hp _].
    pose proof (owned_perm _ _ _ _ _ Hp Ho) as [Hs Hd]%owned_cons. destruct (close_tidy _ _ Hs) as ([y w'] & -> & _ & _ & _ & Hf).
    eexists _, _, _. split_and!; [done| |done]. by split.
Qed.
Lemma run_program_ok base ops : forall leaked l w, owned base leaked l w -> exists l' leaked' w', run_program ops (l, leaked, w) = Ok tt (l', leaked', w') /\
  owned base leaked' l' w' /\ (takes_all -> leaked' = leaked).
Proof.
  induction ops as [|o ops IH]; intros leaked l w Ho; [by exists l, leaked, w|].
  destruct (run_one_ok base leaked l w o Ho) as (l1 & k1 & w1 & E1 & H1 & T1). destruct (IH k1 l1 w1 H1) as (l2 & k2 & w2 & E2 & H2 & T2).
  exists l2, k2, w2. cbn [run_program]. rewrite (bind_ok _ _ _ _ _ E1). split_and!; [done..|]. intros Ht. rewrite T2, T1; done.
Qed.
Lemma destroy_all_ok base leaked l : forall w, owned base leaked l w -> exists w', run_program ((fun _ => Destroy 0) <$> l) (l, leaked, w) = Ok tt ([], leaked, w') /\
  fds w' = leaked ∪ base.
Proof.
  induction l as [|x l IH]; intros w Ho.
  - exists w. split; [done|]. destruct Ho as [-> _]. cbn. by rewrite (left_id_L _ _).
  - pose proof Ho as [Hs Hd]%owned_cons. destruct (close_tidy _ _ Hs) as ([y w1] & E & _ & _ & _ & Hf). cbn [snd] in Hf.
    destruct (IH w1) as (w2 & E2 & Hf2); [by split|]. exists w2. split; [|done].
    change (run_program ((fun _ => Destroy 0) <$> x :: l)) with (run_one (Destroy 0) ;;; run_program ((fun _ => Destroy 0) <$> l)).
    rewrite (bind_ok _ _ _ tt (l, leaked, w1)); [exact E2|].
    cbn [run_one lookup list_lookup]. by rewrite E.
Qed.

(** C21: a socket owns at most one descriptor, and closes it.  Take any program that makes sockets, calls
    any of their methods in any order, [accept] included, whose sockets it uses in the same way, and
    destroys some of them.  Each call returns.  Between the calls the open descriptors are those that
    were open before, one for each socket that is valid, and those that leaked, all of them different;
    a socket that is not valid is not connected and has no addresses; and when all sockets are destroyed, the
    descriptors that are open are those that were open before and those that leaked.  What leaks is this
    only: a descriptor that [accept] of the system gave and for which [accept] returned no socket
    ([run_one]); and nothing leaks when the manager of descriptors takes every one. *)
Theorem socket_owns_fd ops w : exists l leaked w', run_program ops ([], ∅, w) = Ok tt (l, leaked, w') /\
  fds w' = list_to_set (valid_fds l) ∪ (leaked ∪ fds w) /\
  NoDup (valid_fds l) /\ (forall fd, fd ∈ valid_fds l -> fd ∉ leaked ∪ fds w) /\ leaked ## fds w /\
  (forall x, x ∈ l -> isVaild x = false -> m_isConnected x = false /\ m_localAddress x = None /\ m_remoteAddress x = None) /\
  (takes_all -> leaked = ∅) /\
  exists w2, run_program ((fun _ => Destroy 0) <$> l) (l, leaked, w') = Ok tt ([], leaked, w2) /\ fds w2 = leaked ∪ fds w.
Proof.
  destruct (run_program_ok (fds w) ops ∅ [] w) as (l & leaked & w' & E & Ho & Ht).
  { split; [cbn; by rewrite !(left_id_L _ _)|]. split_and!; [constructor|by intros ? ?%elem_of_nil|set_solver|constructor]. }
  exists l, leaked, w'. pose proof Ho as (Hf & Hn & Ha & Hd & Hl). split_and!; [done..| |done|by apply destroy_all_ok].
  intros x Hx Hv%negb_false_iff%Z.eqb_eq. rewrite Forall_forall in Hl. by apply Hl.
Qed.

(** Nothing comes from a UNIX socket.  [recvFrom] of a socket of the family [AF_UNIX] returns -1
    with an empty address, without receiving: its case of the switch goes on to the error. *)
Theorem recvFrom_unix length lengths flags from s : m_family (fst s) = AF_UNIX ->
  Socket_recvFrom length flags from s = Ok (-1, [], Some (mkAddr AF_UNIX [])) s /\
  Socket_recvvFrom lengths flags from s = Ok (-1, [], Some (mkAddr AF_UNIX [])) s.
Proof.
  intros Hf. unfold Socket_recvFrom, Socket_recvvFrom. rewrite !(bind_ok _ _ s (fst s) s) by done. by rewrite Hf.
Qed.
End methods.

(** ** An operating system to run the model with: the descriptors that are open *)

Module SampleOs.
Definition os := gset N.
Definition opened (w : os) : Z * os := let n := fresh (elements w) in (Z.of_N n, {[n]} ∪ w).
(** Addresses whose bytes start with 1 can be bound and connected; descriptors from 100 on are no sockets. *)
Definition usable (a : Addr) : Z := match addr_bytes a with Byte.x01 :: _ => 0 | _ => -1 end.

#[export] Instance api : SocketApi os := {
  sa_socket _ _ _ w := opened w; sa_bind _ a w := (usable a, w); sa_listen _ _ w := (0, w); sa_connect _ a w := (usable a, w);
  sa_connect_timeout _ a _ w := (usable a, w); sa_accept fd w := if fd =? -1 then (-1, w) else opened w;
  sa_close fd w := if fd <? 0 then (-1, w) else (0, w ∖ {[Z.to_N fd]});
  sa_setsockopt _ _ _ w := (0, w); sa_getsockopt _ _ w := (Some 0, w);
  sa_getsockname fd w := (if fd =? -1 then None else Some [Byte.x01], w); sa_getpeername fd w := (if fd =? -1 then None else Some [Byte.x01], w);
  sa_fdctx fd w := (fd <? 100, w); sa_send _ d _ w := (Z.of_nat (length d), w); sa_sendmsg _ d _ w := (Z.of_nat (length (concat d)), w);
  sa_sendto _ d _ _ w := (Z.of_nat (length d), w); sa_sendmsg_to _ d _ _ w := (Z.of_nat (length (concat d)), w);
  sa_recv _ _ _ w := (0, [], w); sa_recvmsg _ _ _ w := (0, [], w); sa_recvfrom _ _ _ w := (0, [], [], w); sa_recvmsg_from _ _ _ w := (0, [], [], w);
  sa_cancel _ _ w := (None, w); sa_cancel_all _ w := (None, w) }.

Definition open_fds (w : os) : gset Z := set_map Z.of_N w.
Lemma elem_of_fds w (n : N) : Z.of_N n ∈ open_fds w <-> n ∈ w.
Proof. unfold open_fds. rewrite elem_of_map. split; [by intros (m & ->%N2Z.inj & ?)|by exists n]. Qed.
Lemma opened_ok w r w' : opened w = (r, w') -> (r = -1 /\ open_fds w' = open_fds w) \/ (r <> -1 /\ r ∉ open_fds w /\ open_fds w' = {[r]} ∪ open_fds w).
Proof.
  intros [= <- <-]. right. split_and!; [lia| |].
  - rewrite elem_of_fds, <- elem_of_elements. apply infinite_is_fresh.
  - unfold open_fds. by rewrite set_map_union_L, set_map_singleton_L.
Qed.

#[export] Instance api_laws : SocketLaws os.
Proof.
  refine {| fds := open_fds |}; try done.
  - intros w. unfold open_fds. rewrite elem_of_map. intros (n & Hn & _). lia.
  - intros f t p w r w' E. by apply opened_ok.
  - intros fd w r w'. cbn. destruct (fd =? -1); [intros [= <- <-]; by left|apply opened_ok].
  - intros fd w. cbn. destruct (Z.ltb_spec fd 0) as [Hn|Hn]; cbn; apply set_eq; intros z; rewrite elem_of_difference, elem_of_singleton.
    + split; [|by intros [? _]]. intros Hz. split; [done|]. unfold open_fds in Hz. apply elem_of_map in Hz as (n & -> & _). lia.
    + unfold open_fds. rewrite !elem_of_map. split.
      * intros (n & -> & [Hw Hne]%elem_of_difference). split; [by exists n|]. intros <-. apply Hne. rewrite elem_of_singleton. lia.
      * intros [(n & -> & Hw) Hne]. exists n. split; [done|]. apply elem_of_difference. split; [done|]. rewrite elem_of_singleton. lia.
Defined.
End SampleOs.
Import SampleOs.

(** A listener and a client, and where no descriptor is left below 100 a client that leaks *)
Definition serve_one : list program_op :=
  [NewSocket AF_INET SOCK_STREAM 0; On 0 (OpBind (mkAddr AF_INET [Byte.x01])); On 0 (OpListen SOMAXCONN); Accept 0].
Example served : exists l w, run_program serve_one ([], ∅, ∅ : SampleOs.os) = Ok tt (l, ∅, w) /\ valid_fds l = [0; 1].
Proof. eexists _, _. split; vm_compute; reflexivity. Qed.
Example leaked_client : exists l w, run_program serve_one ([], ∅, list_to_set (N.of_nat <$> seq 0 99) : SampleOs.os) = Ok tt (l, {[100]}, w) /\ valid_fds l = [99].
Proof. eexists _, _. split; vm_compute; reflexivity. Qed.

Lemma accept_owns_or_leaks_witness : exists r w', Socket_accept (mkSocket 3 AF_INET SOCK_STREAM 0 false None None, {[3%N]} : SampleOs.os) =
  Ok r (mkSocket 3 AF_INET SOCK_STREAM 0 false None None, w').
Proof.
  destruct (accept_owns_or_leaks ∅ (mkSocket 3 AF_INET SOCK_STREAM 0 false None None, {[3%N]} : SampleOs.os)) as (r & w' & E & _).
  - split; cbn; [|set_solver|done]. unfold open_fds, own. cbn. by rewrite set_map_singleton_L, (right_id_L _ _).
  - exists r, w'. exact E.
Defined.
Lemma recvFrom_unix_witness : Socket_recvFrom 10 0 None (mkSocket 3 AF_UNIX SOCK_DGRAM 0 true None None, ∅ : SampleOs.os) =
  Ok (-1, [], Some (mkAddr AF_UNIX [])) (mkSocket 3 AF_UNIX SOCK_DGRAM 0 true None None, ∅).
Proof. by apply (recvFrom_unix 10 [] 0 None (mkSocket 3 AF_UNIX SOCK_DGRAM 0 true None None, ∅ : SampleOs.os)). Defined.
