(* ===== verification/TcpServer.v ===== *)
(** * TcpServer (src/wyze/tcpserver.h, src/wyze/tcpserver.cpp)

    The sockets of the server are on a heap, and a [Socket::ptr] is an index; a socket whose last
    pointer goes is destroyed, which closes it.  What [schedule] hands to the two [IOManager]s are
    tasks in the order in which they are scheduled. *)

From S2P Require Import Socket Prelude Http.

Inductive task :=
  | StartAccept (sock : nat)
  | StopServer
  | HandleClient (client : nat).

Record TcpServer {W : Type} := mkServer {
  heap : list Socket; sv_world : W;
  m_socks : list nat; m_recvTimeout : Z; m_name : bytes; m_isStop : bool;
  accept_tasks : list task;       (* of m_acceptWorker *)
  client_tasks : list task }.     (* of m_worker *)
Arguments TcpServer W : clear implicits.

Section server.
Context {W : Type} `{SocketApi W}.
Implicit Types sv : TcpServer W.

(** [TcpServer(worker, acceptWorker)]; [timeout] is the value of [tcp_server.read_timeout]. *)
Definition new_TcpServer (timeout : Z) (w : W) : TcpServer W := mkServer W [] w [] timeout (str "wyze/1.0.0") true [] [].

Definition with_heap h w sv := mkServer W h w (m_socks sv) (m_recvTimeout sv) (m_name sv) (m_isStop sv) (accept_tasks sv) (client_tasks sv).
Definition with_socks l sv := mkServer W (heap sv) (sv_world sv) l (m_recvTimeout sv) (m_name sv) (m_isStop sv) (accept_tasks sv) (client_tasks sv).
Definition with_stop b sv := mkServer W (heap sv) (sv_world sv) (m_socks sv) (m_recvTimeout sv) (m_name sv) b (accept_tasks sv) (client_tasks sv).
Definition schedule_accept l sv :=
  mkServer W (heap sv) (sv_world sv) (m_socks sv) (m_recvTimeout sv) (m_name sv) (m_isStop sv) (accept_tasks sv ++ l) (client_tasks sv).
Definition schedule_client t sv :=
  mkServer W (heap sv) (sv_world sv) (m_socks sv) (m_recvTimeout sv) (m_name sv) (m_isStop sv) (accept_tasks sv) (client_tasks sv ++ [t]).
Definition setRecvTimeout_server (v : Z) sv :=
  mkServer W (heap sv) (sv_world sv) (m_socks sv) v (m_name sv) (m_isStop sv) (accept_tasks sv) (client_tasks sv).
Definition setName (v : bytes) sv :=
  mkServer W (heap sv) (sv_world sv) (m_socks sv) (m_recvTimeout sv) v (m_isStop sv) (accept_tasks sv) (client_tasks sv).

(** A method of the socket at [id] *)
Definition on_sock {A} (id : nat) (m : M (Socket * W) A) : M (TcpServer W) A := fun sv =>
  match heap sv !! id with
  | None => Undef null_deref
  | Some x =>
      match m (x, sv_world sv) with
      | Ok a (y, w) => Ok a (with_heap (<[id := y]> (heap sv)) w sv)
      | Throw e (y, w) => Throw e (with_heap (<[id := y]> (heap sv)) w sv)
      | Undef u => Undef u
      end
  end.
Definition new_sock (x : Socket) : M (TcpServer W) nat :=
  sv <- get ;; put (with_heap (heap sv ++ [x]) (sv_world sv) sv) ;;; ret (length (heap sv)).

Fixpoint for_each (f : nat -> M (TcpServer W) unit) (l : list nat) : M (TcpServer W) unit :=
  match l with [] => ret tt | i :: l => f i ;;; for_each f l end.

(** The pointer [id] goes: the socket is destroyed unless a task still has it. *)
Definition is_accept (id : nat) (t : task) : bool := match t with StartAccept i => (i =? id)%nat | _ => false end.
Definition release (id : nat) : M (TcpServer W) unit :=
  sv <- get ;; if existsb (is_accept id) (accept_tasks sv) then ret tt else on_sock id Socket_close ;;; ret tt.

(** One turn of the loop of [bind(addrs, fails)]: the socket for [m_socks], or nothing when the
    address goes to [fails] *)
Definition bind_address (addr : Addr) : M (TcpServer W) (option nat) :=
  sock <- new_sock (CreateTCP addr) ;;
  ok <- on_sock sock (Socket_bind addr) ;;
  if negb ok then release sock ;;; ret None
  else ok <- on_sock sock (Socket_listen SOMAXCONN) ;; if negb ok then release sock ;;; ret None else ret (Some sock).
Fixpoint bind_each (addrs fails : list Addr) : M (TcpServer W) (list Addr) :=
  match addrs with
  | [] => ret fails
  | addr :: addrs =>
      r <- bind_address addr ;;
      match r with
      | Some sock => modify (fun sv => with_socks (m_socks sv ++ [sock]) sv) ;;; bind_each addrs fails
      | None => bind_each addrs (fails ++ [addr])
      end
  end.
Definition server_bind (addrs fails : list Addr) : M (TcpServer W) (bool * list Addr) :=
  fails <- bind_each addrs fails ;;
  if negb (length fails =? 0)%nat then
    sv <- get ;; put (with_socks [] sv) ;;; for_each release (m_socks sv) ;;; ret (false, fails)
  else ret (true, fails).
Definition server_bind_one (addr : Addr) : M (TcpServer W) bool := r <- server_bind [addr] [] ;; ret (fst r).

Definition start : M (TcpServer W) bool :=
  sv <- get ;;
  if negb (m_isStop sv) then ret true
  else put (schedule_accept (StartAccept <$> m_socks sv) (with_stop false sv)) ;;; ret true.
Definition stop : M (TcpServer W) unit := modify (fun sv => schedule_accept [StopServer] (with_stop true sv)).
(** The task that [stop] schedules *)
Definition run_stop : M (TcpServer W) unit :=
  sv <- get ;;
  for_each (fun i => on_sock i cancelAll ;;; on_sock i Socket_close ;;; ret tt) (m_socks sv) ;;;
  modify (with_socks []).

(** [startAccept(sock)] *)
Fixpoint startAccept (fuel : nat) (sock : nat) : M (TcpServer W) unit :=
  match fuel with
  | O => undef no_fuel
  | S fuel =>
      sv <- get ;;
      if m_isStop sv then ret tt
      else
        client <- on_sock sock Socket_accept ;;
        match client with
        | None => startAccept fuel sock
        | Some client =>
            id <- new_sock client ;;
            on_sock id (setRecvTimeout (m_recvTimeout sv)) ;;;
            modify (schedule_client (HandleClient id)) ;;;
            startAccept fuel sock
        end
  end.

(** [~TcpServer()] *)
Definition delete_TcpServer : M (TcpServer W) unit :=
  sv <- get ;; for_each (fun i => on_sock i Socket_close ;;; ret tt) (m_socks sv) ;;; modify (with_socks []).
End server.
