(* ===== verification/TcpServerSpec.v ===== *)
(** * What the TCP server promises *)

From S2P Require Import Socket SocketSpec TcpServer Prelude Http.

Section server.
Context {W : Type} `{SocketLaws W}.
Implicit Types (sv : TcpServer W) (base : gset Z) (s : Socket * W).

(** ** The family of a socket stays *)

Definition same_family {A} (m : M (Socket * W) A) : Prop := forall s a s', m s = Ok a s' -> m_family (fst s') = m_family (fst s).
Lemma family_bind {A B} (m : M (Socket * W) A) (k : A -> M (Socket * W) B) : same_family m -> (forall a, same_family (k a)) -> same_family (bind m k).
Proof. intros Hm Hk s b s' E. apply bind_returns in E as (a & s1 & E1 & E2). rewrite (Hk _ _ _ _ E2). by eapply Hm. Qed.
Lemma family_steady {A} (m : M (Socket * W) A) : steady m -> same_family m.
Proof. intros Hm s a s' E. by rewrite (Hm _ _ _ E). Qed.
Lemma family_upd f : (forall x, m_family (f x) = m_family x) -> same_family (upd (W := W) f).
Proof. intros Hf [x w] a s' [= _ <-]. apply Hf. Qed.
Ltac family_steps := repeat first
  [ apply family_upd; intros ?; reflexivity
  | apply family_steady; first [apply steady_ret | apply steady_self | apply steady_os | apply initSock_steady]
  | apply family_bind; [|intros ?]
  | match goal with |- same_family (if ?b then _ else _) => destruct b | |- same_family (match ?b with _ => _ end) => destruct b end ].
Lemma bind_family a : same_family (Socket_bind (W := W) a).
Proof. unfold Socket_bind, ensure, newSock, getLocalAddress. family_steps. Qed.
Lemma listen_steady n : steady (Socket_listen (W := W) n).
Proof. unfold Socket_listen. steady_steps. Qed.

Lemma bind_valid a base s : sock_ok base s -> exists b s', Socket_bind a s = Ok b s' /\ sock_ok base s' /\ (b = true -> m_sock (fst s') <> -1).
Proof.
  intros Hs. unfold Socket_bind. destruct (ensure_ok base s Hs) as (ok & s1 & E1 & H1 & V1). rewrite (bind_ok _ _ _ _ _ E1).
  destruct ok; cbn [negb]; [|by exists false, s1]. rewrite (bind_ok _ _ s1 (fst s1) s1) by done.
  destruct (negb (addr_family a =? m_family (fst s1))); [by exists false, s1|].
  destruct (tidy_os (sa_bind (m_sock (fst s1)) a)) with (base := base) (s := s1) as (rt & s2 & E2 & H2); [intros w; apply fds_bind|done|].
  rewrite (bind_ok _ _ _ _ _ E2). pose proof (steady_os _ _ _ _ E2) as E21. destruct (negb _); [by exists false, s2|].
  destruct (getLocalAddress_tidy base s2 H2) as (l & s3 & E3 & H3 & M3 & _). rewrite (bind_ok _ _ _ _ _ E3).
  exists true, s3. split_and!; [done..|]. intros _. rewrite M3, E21. by apply V1.
Qed.

(** ** The sockets of a server *)

(** The socket at [id] has the descriptor [fd]. *)
Definition has_fd sv (id : nat) (fd : Z) : Prop := exists x, heap sv !! id = Some x /\ m_sock x = fd /\ fd <> -1.
(** The open descriptors are those of others and one for each socket of the server. *)
Definition serving base sv (fdl : list Z) : Prop :=
  Forall2 (has_fd sv) (m_socks sv) fdl /\ NoDup (m_socks sv) /\ NoDup fdl /\ (forall fd, fd ∈ fdl -> fd ∉ base) /\
  fds (sv_world sv) = list_to_set fdl ∪ base.
(** No task has a pointer to a socket: the server was not started. *)
Definition not_started sv : Prop := forall id, existsb (is_accept id) (accept_tasks sv) = false.

Lemma on_sock_ok {A} id (m : M (Socket * W) A) sv x a y w : heap sv !! id = Some x -> m (x, sv_world sv) = Ok a (y, w) ->
  on_sock id m sv = Ok a (with_heap (<[id := y]> (heap sv)) w sv).
Proof. intros Hx E. unfold on_sock. by rewrite Hx, E. Qed.

(** ** What the system is asked for an address *)

(** The options that are set on a new socket of the family of [a], in their order *)
Definition options_of (a : Addr) : list (sockopt * list Z) :=
  [(SO_REUSEADDR, [1])] ++ (if addr_family a =? AF_UNIX then [] else [(TCP_NODELAY, [1])]) ++ [(SO_RCVTIMEO, [0; 0]); (SO_SNDTIMEO, [0; 0])].
Definition set_options (fd : Z) (l : list (sockopt * list Z)) (w : W) : W := fold_left (fun w ov => snd (sa_setsockopt fd (fst ov) (snd ov) w)) l w.

(** The calls of the system for the address [a]: a stream socket of its family is made, its options
    are set, it is bound to [a] and made to listen, and is then the result; or one of the calls fails,
    and the socket, if there is one, is closed again. *)
Inductive opened_at (a : Addr) (w : W) : option Z -> W -> Prop :=
  | no_socket w1 : sa_socket (addr_family a) SOCK_STREAM 0 w = (-1, w1) -> opened_at a w None w1
  | not_bound fd w1 rt w3 : sa_socket (addr_family a) SOCK_STREAM 0 w = (fd, w1) -> fd <> -1 ->
      sa_bind fd a (set_options fd (options_of a) w1) = (rt, w3) -> rt <> 0 -> opened_at a w None (snd (sa_close fd w3))
  | not_listening fd w1 w3 name w4 rt w5 : sa_socket (addr_family a) SOCK_STREAM 0 w = (fd, w1) -> fd <> -1 ->
      sa_bind fd a (set_options fd (options_of a) w1) = (0, w3) -> sa_getsockname fd w3 = (name, w4) ->
      sa_listen fd SOMAXCONN w4 = (rt, w5) -> rt <> 0 -> opened_at a w None (snd (sa_close fd w5))
  | listening fd w1 w3 name w4 w5 : sa_socket (addr_family a) SOCK_STREAM 0 w = (fd, w1) -> fd <> -1 ->
      sa_bind fd a (set_options fd (options_of a) w1) = (0, w3) -> sa_getsockname fd w3 = (name, w4) ->
      sa_listen fd SOMAXCONN w4 = (0, w5) -> opened_at a w (Some fd) w5.
(** One address after the other *)
Inductive opened_all : list Addr -> W -> list (option Z) -> W -> Prop :=
  | all_none w : opened_all [] w [] w
  | all_cons a l w r w1 rs w2 : opened_at a w r w1 -> opened_all l w1 rs w2 -> opened_all (a :: l) w (r :: rs) w2.
(** The addresses that were not opened, in their order *)
Fixpoint not_opened (l : list Addr) (rs : list (option Z)) : list Addr :=
  match l, rs with
  | a :: l, None :: rs => a :: not_opened l rs
  | _ :: l, Some _ :: rs => not_opened l rs
  | _, _ => []
  end.

(** The methods of a new socket, as calls of the system *)
Lemma os_ok {A} (call : W -> A * W) (x : Socket) w a w' : call w = (a, w') -> os call (x, w) = Ok a (x, w').
Proof. unfold os. cbn. by intros ->. Qed.
Lemma setOption_run x o v w : exists ok, setOption o v (x, w) = Ok ok (x, set_options (m_sock x) [(o, v)] w).
Proof.
  destruct (sa_setsockopt (m_sock x) o v w) as [rt w1] eqn:E. exists (rt =? 0). unfold set_options. cbn. rewrite E.
  unfold setOption, self, os, bind, get, ret. cbn. by rewrite E.
Qed.
Lemma set_then {A} x o v w (k : M (Socket * W) A) : (setOption o v ;;; k) (x, w) = k (x, set_options (m_sock x) [(o, v)] w).
Proof. destruct (setOption_run x o v w) as (ok & E). by run E. Qed.
Lemma initSock_run a fd w : initSock (with_sock fd (CreateTCP a), w) = Ok tt (with_sock fd (CreateTCP a), set_options fd (options_of a) w).
Proof.
  set (x := with_sock fd (CreateTCP a)). unfold initSock, options_of. rewrite (bind_ok _ _ (x, w) x (x, w)) by done. rewrite set_then.
  cbn [x m_type m_family with_sock CreateTCP new_Socket m_sock Z.eqb SOCK_STREAM Pos.eqb andb]. destruct (addr_family a =? AF_UNIX); cbn [negb].
  - by rewrite (bind_ok _ _ (x, _) tt (x, _)), !set_then by done.
  - erewrite (bind_ok _ _ (x, _)) by (rewrite set_then; done). by rewrite !set_then.
Qed.
Lemma bind_run a w : exists x w', m_family x = addr_family a /\
  (sa_socket (addr_family a) SOCK_STREAM 0 w = (-1, w') /\ m_sock x = -1 /\ Socket_bind a (CreateTCP a, w) = Ok false (x, w') \/
   exists fd w1 rt w3, sa_socket (addr_family a) SOCK_STREAM 0 w = (fd, w1) /\ fd <> -1 /\ m_sock x = fd /\
     sa_bind fd a (set_options fd (options_of a) w1) = (rt, w3) /\
     (rt <> 0 /\ w' = w3 /\ Socket_bind a (CreateTCP a, w) = Ok false (x, w') \/
      exists name, rt = 0 /\ sa_getsockname fd w3 = (name, w') /\ Socket_bind a (CreateTCP a, w) = Ok true (x, w'))).
Proof.
  destruct (sa_socket (addr_family a) SOCK_STREAM 0 w) as [fd w1] eqn:Es. set (x1 := with_sock fd (CreateTCP a)).
  assert (ensure (CreateTCP a, w) = Ok (negb (fd =? -1)) (x1, if fd =? -1 then w1 else set_options fd (options_of a) w1)) as En.
  { unfold ensure. rewrite (bind_ok _ _ (CreateTCP a, w) (CreateTCP a) (CreateTCP a, w)) by done. cbn [isVaild CreateTCP new_Socket m_sock Z.eqb Pos.eqb negb].
    assert (newSock (CreateTCP a, w) = Ok tt (x1, if fd =? -1 then w1 else set_options fd (options_of a) w1)) as En; [|by rewrite (bind_ok _ _ _ _ _ En)].
    unfold newSock. rewrite (bind_ok _ _ (CreateTCP a, w) (CreateTCP a) (CreateTCP a, w)) by done.
    rewrite (bind_ok _ _ (CreateTCP a, w) fd (CreateTCP a, w1)) by exact (os_ok _ _ _ _ _ Es).
    rewrite (bind_ok _ _ _ tt (x1, w1)) by done. destruct (fd =? -1); [done|apply initSock_run]. }
  unfold Socket_bind. rewrite (bind_ok _ _ _ _ _ En). destruct (Z.eqb_spec fd (-1)) as [->|Hne]; cbn [negb].
  { exists x1, w1. by split; [|left]. }
  destruct (sa_bind fd a (set_options fd (options_of a) w1)) as [rt w3] eqn:Eb.
  rewrite (bind_ok _ _ _ x1 (x1, set_options fd (options_of a) w1)) by done. cbn [x1 m_family with_sock CreateTCP new_Socket]. rewrite Z.eqb_refl. cbn [negb].
  rewrite (bind_ok _ _ _ rt (x1, w3)) by exact (os_ok _ _ _ _ _ Eb). destruct (Z.eqb_spec rt 0) as [->|Hrt]; cbn [negb].
  2: { exists x1, w3. split; [done|]. right. exists fd, w1, rt, w3. split_and!; [done..|]. by left. }
  destruct (sa_getsockname fd w3) as [name w4] eqn:Eg.
  assert (exists x b, getLocalAddress (x1, w3) = Ok b (x, w4) /\ m_family x = addr_family a /\ m_sock x = fd) as (x & b & El & Hf & Hs).
  { unfold getLocalAddress. rewrite (bind_ok _ _ _ x1 (x1, w3)) by done. cbn [x1 m_localAddress with_sock CreateTCP new_Socket].
    rewrite (bind_ok _ _ _ name (x1, w4)) by exact (os_ok _ _ _ _ _ Eg). destruct name as [b|]; eexists _, _; by split_and!. }
  exists x, w4. split; [done|]. right. exists fd, w1, 0, w3. split_and!; [done..|]. right. exists name. split_and!; [done..|]. by run El.
Qed.
Lemma listen_run x w : m_sock x <> -1 -> exists rt w', sa_listen (m_sock x) SOMAXCONN w = (rt, w') /\ Socket_listen SOMAXCONN (x, w) = Ok (rt =? 0) (x, w').
Proof.
  intros Hx. destruct (sa_listen (m_sock x) SOMAXCONN w) as [rt w'] eqn:E. exists rt, w'. split; [done|].
  unfold Socket_listen. rewrite (bind_ok _ _ _ x (x, w)) by done. unfold isVaild. rewrite (proj2 (Z.eqb_neq _ _) Hx). cbn [negb].
  by rewrite (bind_ok _ _ _ rt (x, w')) by exact (os_ok _ _ _ _ _ E).
Qed.
Lemma close_run x w : exists y, Socket_close (x, w) = Ok true (y, if m_sock x =? -1 then w else snd (sa_close (m_sock x) w)) /\ m_family y = m_family x.
Proof.
  unfold Socket_close. rewrite (bind_ok _ _ _ x (x, w)) by done. destruct (m_sock x =? -1); [by exists x|].
  rewrite (bind_ok _ _ _ tt (with_connected false x, w)) by done. destruct (sa_close (m_sock x) w) as [r w1] eqn:E.
  rewrite (bind_ok _ _ _ r (with_connected false x, w1)) by exact (os_ok _ _ _ _ _ E). eexists. split; [done|]. done.
Qed.

(** What one address makes of the server: its socket is bound and listens, or nothing is left of it. *)
Lemma try_address sv addr : not_started sv -> exists (ok : bool) x w,
  bind_address addr sv =
  Ok (if ok then Some (length (heap sv)) else None) (with_heap (heap sv ++ [x]) w sv) /\
  m_family x = addr_family addr /\ opened_at addr (sv_world sv) (if ok then Some (m_sock x) else None) w /\
  if ok then m_sock x <> -1 /\ m_sock x ∉ fds (sv_world sv) /\ fds w = {[m_sock x]} ∪ fds (sv_world sv) else fds w = fds (sv_world sv).
Proof.
  intros Hns. unfold bind_address. set (n := length (heap sv)). set (B := fds (sv_world sv)).
  set (sv1 := with_heap (heap sv ++ [CreateTCP addr]) (sv_world sv) sv). rewrite (bind_ok _ _ sv n sv1) by done.
  assert (forall x w, heap (with_heap (heap sv ++ [x]) w sv) !! n = Some x) as Hlast.
  { intros x w. cbn. unfold n. by rewrite lookup_app_r, Nat.sub_diag by lia. }
  assert (forall x y w w', with_heap (<[n := y]> (heap (with_heap (heap sv ++ [x]) w sv))) w' (with_heap (heap sv ++ [x]) w sv) =
    with_heap (heap sv ++ [y]) w' sv) as Hput.
  { intros x y w w'. cbn. unfold with_heap. cbn. f_equal. unfold n. clear. induction (heap sv) as [|z l IH]; [done|]. exact (f_equal (cons z) IH). }
  assert (sock_ok B (CreateTCP addr, sv_world sv)) as Hnew.
  { split; cbn; [by rewrite (left_id_L _ _)|apply fds_valid|done]. }
  assert (forall x w, sock_ok B (x, w) -> exists y w', release n (with_heap (heap sv ++ [x]) w sv) = Ok tt (with_heap (heap sv ++ [y]) w' sv) /\
    m_family y = m_family x /\ w' = (if m_sock x =? -1 then w else snd (sa_close (m_sock x) w)) /\ fds w' = B) as Hrel.
  { intros x w Hx. destruct (close_tidy B (x, w) Hx) as ([y w'] & E & _ & _ & Hf & Hfd). destruct (close_run x w) as (y' & E' & _).
    rewrite E in E'. injection E' as <- Hw. exists y, w'. split_and!; [|done..].
    unfold release. change (bind get ?k ?s) with (k s s). cbn beta. rewrite (Hns n : existsb (is_accept n) (accept_tasks (with_heap (heap sv ++ [x]) w sv)) = false).
    rewrite (bind_ok _ _ _ _ _ (on_sock_ok n _ _ x true y w' (Hlast x w) E)). by rewrite Hput. }
  destruct (bind_valid addr B _ Hnew) as (ok & [x1 w1] & E1 & H1 & V1).
  destruct (bind_run addr (sv_world sv)) as (x0 & w0 & F1 & Ht).
  rewrite (bind_ok _ _ _ _ _ (on_sock_ok n _ sv1 _ ok x1 w1 (Hlast _ _) E1)). unfold sv1. rewrite Hput.
  destruct Ht as [(Es & Hx0 & E0)|(fd & wa & rt & wb & Es & Hne & Hx0 & Eb & [(Hrt & -> & E0)|(name & -> & Eg & E0)])];
    rewrite E1 in E0; injection E0 as -> -> ->; cbn [negb].
  - destruct (Hrel x0 w0 H1) as (y & w' & E & Hf & Hw & Hfd). exists false, y, w'. rewrite (bind_ok _ _ _ _ _ E).
    split_and!; [done|congruence| |done]. rewrite Hw, Hx0. by apply no_socket.
  - destruct (Hrel x0 wb H1) as (y & w' & E & Hf & Hw & Hfd). exists false, y, w'. rewrite (bind_ok _ _ _ _ _ E).
    split_and!; [done|congruence| |done]. rewrite Hw, Hx0, (proj2 (Z.eqb_neq _ _) Hne). by eapply not_bound.
  - destruct (run_op_tidy (OpListen SOMAXCONN) B (x0, w0) H1) as ([] & [x2 w2] & E2 & H2). cbn [run_op] in E2.
    apply bind_returns in E2 as (ok & s3 & E2 & [= ->]). pose proof (listen_steady SOMAXCONN _ _ _ E2) as F2. cbn in F2. subst x2.
    destruct (listen_run x0 w0) as (rt & w2' & El & E3); [congruence|]. rewrite E2 in E3. injection E3 as -> <-.
    rewrite (bind_ok _ _ _ _ _ (on_sock_ok n _ _ x0 _ x0 w2 (Hlast _ _) E2)), Hput. rewrite Hx0 in El.
    destruct (Z.eqb_spec rt 0) as [Hrt|Hrt]; cbn [negb].
    + exists true, x0, w2. pose proof H2 as [O1 O2 O3]. cbn in *. specialize (V1 eq_refl). unfold own in O1. rewrite (proj2 (Z.eqb_neq _ _) V1) in O1.
      subst rt. split_and!; [done|done|rewrite Hx0; by eapply listening|done..].
    + destruct (Hrel x0 w2 H2) as (y & w' & E & Hf & Hw & Hfd). exists false, y, w'. rewrite (bind_ok _ _ _ _ _ E).
      split_and!; [done|congruence| |done]. rewrite Hw, Hx0, (proj2 (Z.eqb_neq _ _) Hne). by eapply not_listening.
Qed.

(** Which addresses got which sockets, and which failed, in their order *)
Inductive bound_as (h : list Socket) : list Addr -> list nat -> list Addr -> Prop :=
  | bound_none : bound_as h [] [] []
  | bound_ok addr addrs id ids bad x : h !! id = Some x -> m_family x = addr_family addr -> m_sock x <> -1 ->
      bound_as h addrs ids bad -> bound_as h (addr :: addrs) (id :: ids) bad
  | bound_fail addr addrs ids bad : bound_as h addrs ids bad -> bound_as h (addr :: addrs) ids (addr :: bad).

Lemma has_fd_last base sv fdl x w : serving base sv fdl -> Forall2 (has_fd (with_heap (heap sv ++ [x]) w sv)) (m_socks sv) fdl.
Proof.
  intros (Hf & _). eapply Forall2_impl; [exact Hf|]. intros id fd (y & Hy & Hs). exists y. split; [by apply lookup_app_l_Some|done].
Qed.
Lemma socks_lt base sv fdl id : serving base sv fdl -> id ∈ m_socks sv -> (id < length (heap sv))%nat.
Proof.
  intros (Hf & _) Hi. apply list_elem_of_lookup in Hi as [k Hk]. destruct (Forall2_lookup_l _ _ _ _ _ Hf Hk) as (fd & _ & x & Hx & _).
  by eapply lookup_lt_Some.
Qed.

(** Nothing else of a server changes. *)
Definition unstarted sv sv' : Prop := accept_tasks sv' = accept_tasks sv /\ m_isStop sv' = m_isStop sv /\ m_name sv' = m_name sv.

(** The heap only grows. *)
Definition older (h h' : list Socket) : Prop := exists more, h' = h ++ more.

Lemma bind_each_ok base addrs : forall fails sv fdl, serving base sv fdl -> not_started sv -> exists results ids sv',
  bind_each addrs fails sv = Ok (fails ++ not_opened addrs results) sv' /\ opened_all addrs (sv_world sv) results (sv_world sv') /\
  serving base sv' (fdl ++ omap id results) /\ not_started sv' /\
  m_socks sv' = m_socks sv ++ ids /\ bound_as (heap sv') addrs ids (not_opened addrs results) /\ older (heap sv) (heap sv') /\
  unstarted sv sv'.
Proof.
  induction addrs as [|addr addrs IH]; intros fails sv fdl Hs Hns.
  { exists [], [], sv. cbn. rewrite !app_nil_r. split_and!; [done|constructor|done|done|done|constructor|by exists []; rewrite app_nil_r|done]. }
  cbn [bind_each]. destruct (try_address sv addr Hns) as (ok & x & w & E & Hfam & Hop & Hx). rewrite (bind_ok _ _ _ _ _ E).
  pose proof Hs as (Hf & Hnd & Hndf & Hap & Hw). destruct ok.
  - destruct Hx as (Hv & Hnew & Hfd). set (n := length (heap sv)). set (sv1 := with_socks (m_socks sv ++ [n]) (with_heap (heap sv ++ [x]) w sv)).
    rewrite (bind_ok _ _ _ tt sv1) by done.
    assert (serving base sv1 (fdl ++ [m_sock x])) as H1.
    { rewrite Hw in Hnew, Hfd. apply not_elem_of_union in Hnew as [Hnew Hnb]. rewrite elem_of_list_to_set in Hnew. split_and!.
      - apply Forall2_app; [exact (has_fd_last base sv fdl x w Hs)|]. constructor; [|constructor]. exists x. split; [|done]. cbn. unfold n.
        by rewrite lookup_app_r, Nat.sub_diag by lia.
      - apply NoDup_app. split_and!; [done| |apply NoDup_singleton]. intros id Hi%(socks_lt base sv fdl id Hs) ->%list_elem_of_singleton. unfold n in Hi. lia.
      - apply NoDup_app. split_and!; [done| |apply NoDup_singleton]. by intros fd Hi ->%list_elem_of_singleton.
      - intros fd [Hi| ->%list_elem_of_singleton]%elem_of_app; [by apply Hap|done].
      - cbn [sv_world with_socks with_heap sv1]. rewrite Hfd, list_to_set_app_L. cbn [list_to_set]. set_solver. }
    destruct (IH fails sv1 _ H1 Hns) as (rs & ids & sv' & E' & Hall & Hs' & Hns' & Hm & Hb & [more Ho] & Ha).
    exists (Some (m_sock x) :: rs), (n :: ids), sv'. cbn [not_opened omap list_omap id]. rewrite <- app_assoc in Hs'.
    split_and!; [done|by econstructor|done|done|by rewrite Hm; cbn; rewrite <- app_assoc| | |done].
    + eapply bound_ok; [|exact Hfam|exact Hv|exact Hb]. rewrite Ho. cbn. apply lookup_app_l_Some. unfold n.
      by rewrite lookup_app_r, Nat.sub_diag by lia.
    + exists ([x] ++ more). rewrite Ho. cbn. by rewrite <- app_assoc.
  - set (sv1 := with_heap (heap sv ++ [x]) w sv). assert (serving base sv1 fdl) as H1.
    { split_and!; [exact (has_fd_last base sv fdl x w Hs)|done..|]. cbn. congruence. }
    destruct (IH (fails ++ [addr]) sv1 _ H1 Hns) as (rs & ids & sv' & E' & Hall & Hs' & Hns' & Hm & Hb & [more Ho] & Ha).
    exists (None :: rs), ids, sv'. cbn [not_opened omap list_omap id]. rewrite <- app_assoc in E'.
    split_and!; [done|by econstructor|done|done|done|by constructor| |done].
    exists ([x] ++ more). rewrite Ho. cbn. by rewrite <- app_assoc.
Qed.

Lemma opened_every addrs w results w1 : opened_all addrs w results w1 -> not_opened addrs results = [] -> results = Some <$> omap id results.
Proof. induction 1 as [|a l w [fd|] w1 rs w2 _ _ IH]; cbn; intros Hn; [done| |done]. f_equal. by apply IH. Qed.

(** Closing all the sockets of a server *)
Lemma close_at base sv id fd fdl : has_fd sv id fd -> fd ∉ base -> fd ∉ fdl -> fds (sv_world sv) = {[fd]} ∪ (list_to_set fdl ∪ base) ->
  exists y w, on_sock id Socket_close sv = Ok true (with_heap (<[id := y]> (heap sv)) w sv) /\ m_sock y = -1 /\ fds w = list_to_set fdl ∪ base.
Proof.
  intros (x & Hx & Hfd & Hne) Hb Hn Hw. destruct (close_tidy (list_to_set fdl ∪ base) (mkSocket fd (m_family x) (m_type x) (m_protocol x) (m_isConnected x) (m_localAddress x) (m_remoteAddress x), sv_world sv))
    as ([y w] & E & _ & Hy & _ & Hf).
  { split; cbn; [|set_solver|done]. unfold own. cbn. by rewrite (proj2 (Z.eqb_neq _ _) Hne). }
  exists y, w. split_and!; [|done|done]. apply (on_sock_ok id _ sv x); [done|]. destruct x. cbn in Hfd. by subst.
Qed.
Lemma has_fd_other sv id y w i fd : i <> id -> has_fd sv i fd -> has_fd (with_heap (<[id := y]> (heap sv)) w sv) i fd.
Proof. intros Hne (x & Hx & Hs). exists x. split; [|done]. cbn. by rewrite list_lookup_insert_ne. Qed.

(** What closes the socket at an index *)
Definition closes (P : TcpServer W -> Prop) (f : nat -> M (TcpServer W) unit) : Prop :=
  (forall sv h w, P sv -> P (with_heap h w sv)) /\
  forall base sv id fd fdl, P sv -> has_fd sv id fd -> fd ∉ base -> fd ∉ fdl -> fds (sv_world sv) = {[fd]} ∪ (list_to_set fdl ∪ base) ->
  exists y w, f id sv = Ok tt (with_heap (<[id := y]> (heap sv)) w sv) /\ m_sock y = -1 /\ fds w = list_to_set fdl ∪ base.

Lemma release_closes : closes not_started release.
Proof.
  split; [done|]. intros base sv id fd fdl Hns H1 H2 H3 H4. destruct (close_at base sv id fd fdl H1 H2 H3 H4) as (y & w & E & Hy & Hw).
  exists y, w. split_and!; [|done..]. unfold release. change (bind get ?k sv) with (k sv sv). cbn beta. rewrite Hns.
  by rewrite (bind_ok _ _ _ _ _ E).
Qed.
Lemma cancel_closes : closes (fun _ => True) (fun i => on_sock i cancelAll ;;; on_sock i Socket_close ;;; ret tt).
Proof.
  split; [done|]. intros base sv id fd fdl _ (x & Hx & Hs) H2 H3 H4.
  destruct (sa_cancel_all (m_sock x) (sv_world sv)) as [r w1] eqn:Ec. pose proof (fds_cancel_all (m_sock x) (sv_world sv)) as Hf. rewrite Ec in Hf. cbn in Hf.
  assert (on_sock id cancelAll sv = Ok (default false r) (with_heap (<[id := x]> (heap sv)) w1 sv)) as E1.
  { apply (on_sock_ok id _ sv x); [done|]. unfold cancelAll. rewrite (bind_ok _ _ (x, sv_world sv) x (x, sv_world sv)) by done.
    by rewrite (bind_ok _ _ (x, sv_world sv) r (x, w1)) by (unfold os; cbn; by rewrite Ec). }
  rewrite (list_insert_id _ _ _ Hx) in E1. rewrite (bind_ok _ _ _ _ _ E1).
  destruct (close_at base (with_heap (heap sv) w1 sv) id fd fdl) as (y & w & E & Hy & Hw); [by exists x|done|done|cbn; congruence|].
  exists y, w. split_and!; [|done..]. by rewrite (bind_ok _ _ _ _ _ E).
Qed.

Lemma close_all P f base : closes P f -> forall ids fdl sv, Forall2 (has_fd sv) ids fdl -> NoDup ids -> NoDup fdl ->
  (forall fd, fd ∈ fdl -> fd ∉ base) -> fds (sv_world sv) = list_to_set fdl ∪ base -> P sv ->
  exists h w, for_each f ids sv = Ok tt (with_heap h w sv) /\ fds w = base /\
    (forall id, id ∈ ids -> exists y, h !! id = Some y /\ m_sock y = -1) /\ forall id, id ∉ ids -> h !! id = heap sv !! id.
Proof.
  intros [HP Hf] ids. induction ids as [|id ids IH]; intros fdl sv Hh Hnd Hndf Hap Hw Hns; inversion Hh as [|? fd ? fdl' Hid Hh']; subst.
  { exists (heap sv), (sv_world sv). split_and!; [by destruct sv|by rewrite Hw, (left_id_L _ _)|by intros ? ?%elem_of_nil|done]. }
  apply NoDup_cons in Hnd as [Hi Hnd]. apply NoDup_cons in Hndf as [Hfd Hndf]. cbn [list_to_set] in Hw.
  destruct (Hf base sv id fd fdl' Hns Hid) as (y & w & E & Hy & Hw'); [apply Hap; by left|done|by rewrite Hw, (assoc_L _)|].
  set (sv1 := with_heap (<[id := y]> (heap sv)) w sv). destruct Hid as (x & Hx & _).
  destruct (IH fdl' sv1) as (h & w2 & E2 & Hw2 & Hc2 & Ho2); [|done|done|intros g Hg; apply Hap; by right|exact Hw'|by apply HP|].
  { assert (forall j, j ∈ ids -> j <> id) as Hne by (intros j Hj ->; done). clear -Hh' Hne. induction Hh' as [|j fj ids fs Hj Hh IH]; constructor.
    - apply has_fd_other; [apply Hne; by left|done].
    - apply IH. intros k Hk. apply Hne. by right. }
  exists h, w2. cbn [for_each]. rewrite (bind_ok _ _ _ _ _ E). fold sv1. split_and!; [exact E2|done| |].
  - intros j [->|Hj]%elem_of_cons; [|by apply Hc2]. exists y. split; [|done]. rewrite Ho2 by done. cbn.
    apply list_lookup_insert_eq. by eapply lookup_lt_Some.
  - intros j [Hne Hj]%not_elem_of_cons. rewrite Ho2 by done. cbn. by apply list_lookup_insert_ne.
Qed.

Lemma server_bind_ok base addrs fails sv fdl : serving base sv fdl -> not_started sv -> exists results w1 sv',
  opened_all addrs (sv_world sv) results w1 /\
  let bad := not_opened addrs results in
  server_bind addrs fails sv = Ok (bool_decide (fails ++ bad = []), fails ++ bad) sv' /\ not_started sv' /\
  if decide (fails ++ bad = []) then
    exists ids new, m_socks sv' = m_socks sv ++ ids /\ bound_as (heap sv') addrs ids [] /\ results = Some <$> new /\ sv_world sv' = w1 /\
      serving base sv' (fdl ++ new) /\ unstarted sv sv'
  else m_socks sv' = [] /\ fds (sv_world sv') = base.
Proof.
  intros Hs Hns. destruct (bind_each_ok base addrs fails sv fdl Hs Hns) as (rs & ids & sv1 & E & Hall & Hs1 & Hns1 & Hm & Hb & _ & Hu).
  set (bad := not_opened addrs rs) in *. exists rs, (sv_world sv1). unfold server_bind. rewrite (bind_ok _ _ _ _ _ E). cbv zeta. fold bad. destruct (decide (fails ++ bad = [])) as [Hno|Hno].
  - exists sv1. split; [done|]. rewrite Hno. cbn [length Nat.eqb negb]. split_and!; [by rewrite bool_decide_true|done|]. exists ids, (omap id rs).
    apply app_eq_nil in Hno as [_ Hno]. rewrite Hno in Hb. split_and!; try done. by eapply opened_every.
  - replace (length (fails ++ bad) =? 0)%nat with false by (by destruct (fails ++ bad)). cbn [negb].
    destruct Hs1 as (Hf & Hnd & Hndf & Hap & Hw).
    destruct (close_all not_started release base release_closes (m_socks sv1) (fdl ++ omap id rs) (with_socks [] sv1)) as (h & w & E2 & Hw2 & _); [|done..|].
    { eapply Forall2_impl; [exact Hf|]. intros id fd (x & Hx & Hfd). by exists x. }
    exists (with_heap h w (with_socks [] sv1)). split; [done|]. rewrite bool_decide_false by done. split_and!; [|done..].
    change (bind get ?k sv1) with (k sv1 sv1). cbn beta. change (bind (put ?s) ?k sv1) with (k tt s). cbn beta. by rewrite (bind_ok _ _ _ _ _ E2).
Qed.

(** C26: all addresses or none.  On a server that was not started, [bind] returns.  It has asked the
    system for the addresses one after the other: [socket] of the family, the options, [bind] to the
    address, [getsockname] and [listen], and [close] when [bind] or [listen] failed ([opened_all], with a
    result for each address); the addresses for which that failed are appended to [fails], in their
    order.  When [fails] is then empty, it returns true, nothing else has happened in the system, and
    there is one socket more for each address, in their order, of its family, whose descriptor is the
    one that listens on the address.  Otherwise it returns false and the server has no socket at all:
    all descriptors that it had are closed, also those of earlier calls of [bind] that had returned
    true. *)
Theorem bind_all_or_nothing base addrs fails sv fdl : serving base sv fdl -> not_started sv -> exists results w1 sv',
  opened_all addrs (sv_world sv) results w1 /\
  let bad := not_opened addrs results in
  server_bind addrs fails sv = Ok (bool_decide (fails ++ bad = []), fails ++ bad) sv' /\ not_started sv' /\
  if decide (fails ++ bad = []) then
    exists ids new, m_socks sv' = m_socks sv ++ ids /\ bound_as (heap sv') addrs ids [] /\ results = Some <$> new /\ sv_world sv' = w1 /\
      serving base sv' (fdl ++ new)
  else m_socks sv' = [] /\ fds (sv_world sv') = base.
Proof.
  intros Hs Hns. destruct (server_bind_ok base addrs fails sv fdl Hs Hns) as (rs & w1 & sv' & Hall & Hr). exists rs, w1, sv'. cbv zeta in *.
  destruct Hr as (E & Hns' & Hr). split_and!; [done..|]. destruct (decide (fails ++ not_opened addrs rs = [])); [|done].
  destruct Hr as (ids & new & ? & ? & ? & ? & ? & _). exists ids, new. by split_and!.
Qed.

(** ** Stopping and starting again *)

Lemma accept_closed id x sv : heap sv !! id = Some x -> m_sock x = -1 -> (forall w, fst (sa_accept (-1) w) = -1) -> exists w,
  on_sock id Socket_accept sv = Ok None (with_heap (heap sv) w sv).
Proof.
  intros Hx Hs Hb. specialize (Hb (sv_world sv)). destruct (sa_accept (-1) (sv_world sv)) as [r w] eqn:E. cbn in Hb. subst r. exists w.
  rewrite <- (list_insert_id _ _ _ Hx). apply (on_sock_ok id _ sv x); [done|]. unfold Socket_accept.
  rewrite (bind_ok _ _ (x, sv_world sv) x (x, sv_world sv)) by done.
  by rewrite (bind_ok _ _ (x, sv_world sv) (-1) (x, w)) by (unfold os; cbn; by rewrite Hs, E).
Qed.

(** A server that is stopped and started again at once does not rest.  [stop] alone ends each
    accept loop at its next turn; but when [start] is called before the task that [stop] schedules
    has run, that task closes all sockets, and the accept loops of all of them, which were scheduled
    behind it, go on for ever over a socket that is closed. *)
Theorem restart_spins base sv fdl : serving base sv fdl -> m_isStop sv = false -> (forall w, fst (sa_accept (-1) w) = -1) ->
  (forall fuel id sv1, stop sv = Ok tt sv1 -> startAccept (S fuel) id sv1 = Ok tt sv1) /\
  exists sv', (stop ;;; start ;;; run_stop) sv = Ok tt sv' /\ m_socks sv' = [] /\ fds (sv_world sv') = base /\
    forall id, id ∈ m_socks sv -> StartAccept id ∈ accept_tasks sv' /\ forall fuel, startAccept fuel id sv' = Undef no_fuel.
Proof.
  intros (Hf & Hnd & Hndf & Hap & Hw) Hst Hb. split; [intros fuel id sv1 [= <-]; done|].
  set (sv1 := schedule_accept [StopServer] (with_stop true sv)). rewrite (bind_ok _ _ sv tt sv1) by done.
  set (sv2 := schedule_accept (StartAccept <$> m_socks sv) (with_stop false sv1)). rewrite (bind_ok _ _ sv1 true sv2) by done.
  destruct (close_all (fun _ => True) _ base cancel_closes (m_socks sv) fdl sv2) as (h & w & E & Hw2 & Hc & _); [|done..|].
  { eapply Forall2_impl; [exact Hf|]. intros id fd (x & Hx & Hfd). by exists x. }
  set (sv3 := with_socks [] (with_heap h w sv2)). exists sv3. split_and!; [|done|done|].
  - unfold run_stop. change (bind get ?k sv2) with (k sv2 sv2). cbn beta. by rewrite (bind_ok _ _ _ _ _ E).
  - intros id Hi. split.
    + cbn. apply elem_of_app. right. by apply list_elem_of_fmap_2.
    + assert (forall fuel w, startAccept fuel id (with_heap h w sv3) = Undef no_fuel) as Hspin.
      { intros fuel. induction fuel as [|fuel IH]; intros w'; [done|]. cbn [startAccept]. change (bind get ?k ?s) with (k s s). cbn beta.
        cbn [m_isStop with_heap sv3 with_socks sv2 schedule_accept with_stop]. destruct (Hc id Hi) as (y & Hy & Hys).
        destruct (accept_closed id y (with_heap h w' sv3) Hy Hys Hb) as (w2 & E2). rewrite (bind_ok _ _ _ _ _ E2). apply IH. }
      intros fuel. exact (Hspin fuel w).
Qed.
End server.

(** ** Servers to run the model with *)

Import SampleOs.
Definition server0 : TcpServer SampleOs.os := new_TcpServer 120000 (∅ : SampleOs.os).
Definition good_addr : Addr := mkAddr AF_INET [Byte.x01].
Definition bad_addr : Addr := mkAddr AF_INET [Byte.x02].

Lemma server0_serving : serving ∅ server0 [].
Proof. split_and!; [constructor|constructor|constructor|by intros fd ?%elem_of_nil|done]. Qed.
Lemma bind_all_or_nothing_witness : exists new sv', opened_all [good_addr; good_addr] ∅ (Some <$> new) (sv_world sv') /\
  server_bind [good_addr; good_addr] [] server0 = Ok (true, []) sv' /\ serving ∅ sv' new.
Proof.
  destruct (bind_all_or_nothing ∅ [good_addr; good_addr] [] server0 [] server0_serving) as (rs & w1 & sv' & Ho & E & _ & Hr); [by intros id|].
  assert (exists s, server_bind [good_addr; good_addr] [] server0 = Ok (true, []) s) as [s Es] by (eexists; vm_compute; reflexivity).
  rewrite Es in E. injection E as _ Hbad <-. rewrite decide_True in Hr by done.
  destruct Hr as (ids & new & _ & _ & -> & <- & Hs). exists new, s. split_and!; [exact Ho|exact Es|exact Hs].
Defined.

Definition serving_sock : Socket := mkSocket 3 AF_INET SOCK_STREAM 0 false None None.
Definition server1 : TcpServer SampleOs.os := mkServer SampleOs.os [serving_sock] {[3%N]} [0%nat] 120000 (str "wyze/1.0.0") false [] [].
Lemma restart_spins_witness : exists sv', (stop ;;; start ;;; run_stop) server1 = Ok tt sv' /\
  StartAccept 0 ∈ accept_tasks sv' /\ startAccept 100 0 sv' = Undef no_fuel.
Proof.
  destruct (restart_spins ∅ server1 [3]) as (_ & sv' & E & _ & _ & Hs).
  - split_and!; [|apply NoDup_singleton|apply NoDup_singleton|set_solver|].
    + constructor; [|constructor]. by exists serving_sock.
    + cbn. unfold open_fds. rewrite set_map_singleton_L. set_solver.
  - done.
  - done.
  - exists sv'. destruct (Hs 0%nat) as [H1 H2]; [by left|]. split_and!; [exact E|exact H1|exact (H2 100%nat)].
Defined.
