(* ===== verification/LogFormat.v ===== *)
(** * LogFormatter (src/wyze/log.h, src/wyze/log.cpp)

    Levels, events, and the formatter that compiles a pattern into items.  [strftime] is the text
    that [localtime_r] and [strftime] leave in the buffer of 100 characters for the C string of a
    format and a time, in the time zone of the process. *)

From stdpp Require Import pretty.
From S2P Require Import Prelude Http.

(** ** Levels *)

Inductive Level := UNKNOW | DEBUG | INFO | WARING | ERROR | FATAL.
#[export] Instance Level_eq_dec : EqDecision Level.
Proof. solve_decision. Defined.

Definition level_value (l : Level) : Z :=
  match l with UNKNOW => 0 | DEBUG => 1 | INFO => 2 | WARING => 3 | ERROR => 4 | FATAL => 5 end.

Definition LogLevel_ToString (l : Level) : bytes :=
  match l with
  | DEBUG => str "DEBUG" | INFO => str "INFO" | WARING => str "WARING" | ERROR => str "ERROR"
  | FATAL => str "FATAL" | UNKNOW => str "UNKNOW"
  end.
(** The rows [XX(l, v)]. *)
Definition level_names : list (Level * bytes) := [
  (DEBUG, str "debug"); (INFO, str "info"); (WARING, str "warn"); (ERROR, str "error"); (FATAL, str "fatal");
  (DEBUG, str "DEBUG"); (INFO, str "INFO"); (WARING, str "WARING"); (ERROR, str "ERROR"); (FATAL, str "FATAL")].
Definition LogLevel_FromString (s : bytes) : Level :=
  match List.find (fun r => bool_decide (s = snd r)) level_names with Some r => fst r | None => UNKNOW end.

(** ** Events: [ev_logger] is the pointer to the logger *)

Record LogEvent := mkLogEvent {
  ev_file : bytes; ev_line : Z; ev_elapse : Z; ev_threadId : Z; ev_fiberId : Z; ev_time : Z; ev_content : bytes;
  ev_logger : nat; ev_level : Level; ev_threadName : bytes }.

(** ** Patterns *)

(** The subclasses of [FormatItem], with their strings *)
Inductive FormatItem :=
  | MessageFormatItem | LevelFormatItem | ElapseFormatItem | NameFormatItem | ThreadIdFormatItem
  | NewLineFormatItem | DateTimeFormatItem (m_format : bytes) | FilenameFormatItem | LineFormatItem
  | TabFormatItem | FiberIdFormatItem | ThreadNameFormatItem | StringFormatItem (m_string : bytes).

Definition new_DateTimeFormatItem (format : bytes) : FormatItem :=
  DateTimeFormatItem (if empty format then str "%Y-%m-%d %H:%M:%S" else format).

(** [s_format_item], the rows [XX(str, C)] *)
Definition s_format_item : list (bytes * (bytes -> FormatItem)) := [
  (str "m", fun _ => MessageFormatItem); (str "p", fun _ => LevelFormatItem); (str "r", fun _ => ElapseFormatItem);
  (str "c", fun _ => NameFormatItem); (str "t", fun _ => ThreadIdFormatItem); (str "n", fun _ => NewLineFormatItem);
  (str "d", new_DateTimeFormatItem); (str "f", fun _ => FilenameFormatItem); (str "l", fun _ => LineFormatItem);
  (str "T", fun _ => TabFormatItem); (str "F", fun _ => FiberIdFormatItem); (str "N", fun _ => ThreadNameFormatItem)].

Definition is_char (c : string) (b : byte) : bool := bool_decide (str c = [b]).
Definition isalpha (b : byte) : bool :=
  let c := byte.unsigned b in ((65 <=? c) && (c <=? 90)) || ((97 <=? c) && (c <=? 122)).

Section init.
Context (m_pattern : bytes).
Abbreviation size := (length m_pattern).
Definition substr (pos len : nat) : bytes := slice pos len m_pattern.

(** The [while] loop behind a [%] at [i]: [n], [fmt_status], [str] and [fmt] at its end. *)
Fixpoint spec_loop (fuel i n : nat) (fmt_status : bool) (fmt_start : nat) (s fmt : bytes) : nat * bool * bytes * bytes :=
  match fuel, m_pattern !! n with
  | S fuel, Some c =>
      if negb fmt_status && negb (isalpha c) && negb (is_char "{" c) && negb (is_char "}" c)
      then (n, fmt_status, substr (i + 1) (n - i - 1), fmt)
      else if negb fmt_status && is_char "{" c
      then spec_loop fuel i (n + 1) true n (substr (i + 1) (n - i - 1)) fmt
      else if fmt_status && is_char "}" c
      then (n + 1, false, s, substr (fmt_start + 1) (n - fmt_start - 1))%nat
      else let n := (n + 1)%nat in
           spec_loop fuel i n fmt_status fmt_start
             (if (n =? size)%nat && empty s then substr (i + 1) (size - i - 1) else s) fmt
  | _, _ => (n, fmt_status, s, fmt)
  end.

(** The [for] loop: [vec], of texts ([false]) and items ([true]), and [m_error]. *)
Fixpoint pattern_loop (fuel i : nat) (nstr : bytes) (vec : list (bytes * bytes * bool)) (m_error : bool)
    : list (bytes * bytes * bool) * bool :=
  let flush := if empty nstr then vec else vec ++ [(nstr, [], false)] in
  match fuel, m_pattern !! i with
  | S fuel, Some c =>
      if negb (is_char "%" c) then pattern_loop fuel (i + 1) (nstr ++ [c]) vec m_error
      else if match m_pattern !! (i + 1)%nat with Some c' => is_char "%" c' | None => false end
      then pattern_loop fuel (i + 2) (nstr ++ [c]) vec m_error
      else
        let '(n, fmt_status, s, fmt) := spec_loop (S size) i (i + 1) false 0 [] [] in
        if negb fmt_status then pattern_loop fuel n [] (flush ++ [(s, fmt, true)]) m_error
        else pattern_loop fuel (i + 1) nstr (vec ++ [(str "<<pattern _error>>", fmt, false)]) true
  | _, _ => (flush, m_error)
  end.
End init.

(** An entry of [vec] as an item, and is it an error? *)
Definition to_item (x : bytes * bytes * bool) : FormatItem * bool :=
  let '(s, fmt, is_item) := x in
  if negb is_item then (StringFormatItem s, false)
  else match List.find (fun r => bool_decide (s = fst r)) s_format_item with
       | Some r => (snd r fmt, false)
       | None => (StringFormatItem (str "<<error_format %" ++ s ++ str ">>"), true)
       end.

Record LogFormatter := mkFormatter { m_pattern : bytes; m_item : list FormatItem; m_error : bool }.

(** [LogFormatter(pattern)] and [init()] *)
Definition new_LogFormatter (pattern : bytes) : LogFormatter :=
  let '(vec, error) := pattern_loop pattern (S (length pattern)) 0 [] [] false in
  let items := to_item <$> vec in
  mkFormatter pattern (fst <$> items) (error || existsb snd items).

(** ** Formatting *)

Section format.
Context (strftime : bytes -> Z -> bytes).

(** A decimal number, as a stream prints it *)
Definition print_number (n : Z) : bytes := if n <? 0 then str "-" ++ str (pretty (Z.to_N (- n))) else str (pretty (Z.to_N n)).

(** [item->format(os, event)]: what is written; [name] is the name of the event's logger. *)
Definition item_format (it : FormatItem) (name : bytes) (e : LogEvent) : bytes :=
  match it with
  | MessageFormatItem => ev_content e
  | LevelFormatItem => LogLevel_ToString (ev_level e)
  | ElapseFormatItem => print_number (ev_elapse e)
  | NameFormatItem => name
  | ThreadIdFormatItem => print_number (ev_threadId e)
  | NewLineFormatItem => [Byte.x0a]
  | DateTimeFormatItem f => strftime f (ev_time e)
  | FilenameFormatItem => ev_file e
  | LineFormatItem => print_number (ev_line e)
  | TabFormatItem => [Byte.x09]
  | FiberIdFormatItem => print_number (ev_fiberId e)
  | ThreadNameFormatItem => ev_threadName e
  | StringFormatItem s => s
  end.

Definition LogFormatter_format (f : LogFormatter) (name : bytes) (e : LogEvent) : bytes :=
  concat ((fun it => item_format it name e) <$> m_item f).
End format.
