(* ===== verification/LogFormatSpec.v ===== *)
(** * What patterns mean

    A pattern is the print of a list of tokens; the formatter writes what the tokens say. *)

From S2P Require Import Prelude Http RagelSpec LogFormat.

Example default_items : m_item (new_LogFormatter (str "%d{%Y-%m-%d %H:%M:%S}%T%t%T%N%T%F%T[%p]%T[%c]%T%f:%l%T%m%n")) =
  [DateTimeFormatItem (str "%Y-%m-%d %H:%M:%S"); TabFormatItem; ThreadIdFormatItem; TabFormatItem; ThreadNameFormatItem;
   TabFormatItem; FiberIdFormatItem; TabFormatItem; StringFormatItem (str "["); LevelFormatItem; StringFormatItem (str "]");
   TabFormatItem; StringFormatItem (str "["); NameFormatItem; StringFormatItem (str "]"); TabFormatItem; FilenameFormatItem;
   StringFormatItem (str ":"); LineFormatItem; TabFormatItem; MessageFormatItem; NewLineFormatItem].
Proof. vm_compute. reflexivity. Qed.

(** ** Tokens: texts, and items of a name with or without a format *)

Inductive token := Text (s : bytes) | Spec (c : bytes) (fmt : option bytes).

Definition escape (s : bytes) : bytes := flat_map (fun b => if is_char "%" b then [b; b] else [b]) s.
Definition print_token (t : token) : bytes :=
  match t with
  | Text s => escape s
  | Spec c None => str "%" ++ c
  | Spec c (Some f) => str "%" ++ c ++ str "{" ++ f ++ str "}"
  end.
Definition print_tokens (ts : list token) : bytes := concat (print_token <$> ts).

(** A name goes on up to a character that is no letter and no brace. *)
Definition ends_name (b : byte) : bool := negb (isalpha b) && negb (is_char "{" b) && negb (is_char "}" b).
Definition name_ok (c : bytes) : Prop := c <> [] /\ all_in isalpha c.
Fixpoint tokens_ok (ts : list token) : Prop :=
  match ts with
  | [] => True
  | Text _ :: ts => tokens_ok ts
  | Spec c None :: ts =>
      name_ok c /\ match print_tokens ts with b :: _ => ends_name b = true | [] => True end /\ tokens_ok ts
  | Spec c (Some f) :: ts => name_ok c /\ all_in (fun b => negb (is_char "}" b)) f /\ tokens_ok ts
  end.

(** What a token writes; the names that are known have one letter. *)
Definition spec_item (c : bytes) (fmt : bytes) : option FormatItem :=
  match c with
  | [Byte.x6d] (* m *) => Some MessageFormatItem
  | [Byte.x70] (* p *) => Some LevelFormatItem
  | [Byte.x72] (* r *) => Some ElapseFormatItem
  | [Byte.x63] (* c *) => Some NameFormatItem
  | [Byte.x74] (* t *) => Some ThreadIdFormatItem
  | [Byte.x6e] (* n *) => Some NewLineFormatItem
  | [Byte.x64] (* d *) => Some (new_DateTimeFormatItem fmt)
  | [Byte.x66] (* f *) => Some FilenameFormatItem
  | [Byte.x6c] (* l *) => Some LineFormatItem
  | [Byte.x54] (* T *) => Some TabFormatItem
  | [Byte.x46] (* F *) => Some FiberIdFormatItem
  | [Byte.x4e] (* N *) => Some ThreadNameFormatItem
  | _ => None
  end.
Definition unknown (t : token) : bool :=
  match t with Text _ => false | Spec c fmt => bool_decide (spec_item c (default [] fmt) = None) end.
Definition token_text (strftime : bytes -> Z -> bytes) (name : bytes) (e : LogEvent) (t : token) : bytes :=
  match t with
  | Text s => s
  | Spec c fmt =>
      match spec_item c (default [] fmt) with
      | Some it => item_format strftime it name e
      | None => str "<<error_format %" ++ c ++ str ">>"
      end
  end.

(** ** Reading a pattern *)

Lemma is_char_spec c s b : str c = [s] -> is_char c b = true <-> b = s.
Proof. intros E. unfold is_char. rewrite E, bool_decide_eq_true. naive_solver. Qed.
Lemma is_percent b : is_char "%" b = true <-> b = Byte.x25.
Proof. by apply is_char_spec. Qed.

Lemma alpha_plain c : isalpha c = true -> is_char "%" c = false /\ is_char "{" c = false /\ is_char "}" c = false.
Proof.
  assert (forallb (fun c => implb (isalpha c) (negb (is_char "%" c) && negb (is_char "{" c) && negb (is_char "}" c)))
    all_bytes = true) as H by (vm_compute; reflexivity).
  intros Hc. pose proof (all_bytes_ok _ H c) as Hf. clear H. cbn beta in Hf. rewrite Hc in Hf. cbn [implb] in Hf.
  by apply andb_true_iff in Hf as [[?%negb_true_iff ?%negb_true_iff]%andb_true_iff ?%negb_true_iff].
Qed.

Lemma find_cons_ne {A} (k : bytes) (x : A) (c : bytes) l : c <> k ->
  List.find (fun r => bool_decide (c = fst r)) ((k, x) :: l) = List.find (fun r => bool_decide (c = fst r)) l.
Proof. intros Hc. cbn [List.find fst]. by rewrite bool_decide_false. Qed.
(** The table of the code has the names of [spec_item], and no others. *)
Lemma spec_found c fmt : to_item (c, fmt, true) =
  match spec_item c fmt with Some it => (it, false) | None => (StringFormatItem (str "<<error_format %" ++ c ++ str ">>"), true) end.
Proof.
  unfold to_item. cbn [negb]. destruct c as [|b [|b2 c]].
  - reflexivity.
  - destruct b; reflexivity.
  - assert (spec_item (b :: b2 :: c) fmt = None) as -> by by destruct b.
    unfold s_format_item. by rewrite !find_cons_ne by done.
Qed.

Section reading.
Context (pre : bytes).

Lemma at_pre xs : (pre ++ xs) !! length pre = head xs.
Proof. rewrite lookup_app_r by lia. rewrite Nat.sub_diag. by destruct xs. Qed.
Lemma at_plus k xs : (pre ++ xs) !! (length pre + k)%nat = xs !! k.
Proof. rewrite lookup_app_r by lia. f_equal. lia. Qed.
Lemma substr_plus k n xs : substr (pre ++ xs) (length pre + k) n = slice k n xs.
Proof. unfold substr, slice. by rewrite <- drop_drop, drop_app_length. Qed.
Lemma size_pre xs : length (pre ++ xs) = (length pre + length xs)%nat.
Proof. by rewrite length_app. Qed.

(** Over the letters of a name, behind [k] characters, up to a character [b] or to the end *)
Lemma spec_letters c : forall fuel xs k b rest, all_in isalpha c -> drop k xs = c ++ b :: rest ->
  spec_loop (pre ++ xs) (length c + fuel) (length pre) (length pre + k) false 0 [] [] =
  spec_loop (pre ++ xs) fuel (length pre) (length pre + k + length c) false 0 [] [].
Proof.
  induction c as [|a c IH]; intros fuel xs k b rest Hc Hd; cbn [length Nat.add]; [by rewrite Nat.add_0_r|].
  apply all_in_cons in Hc as [Ha Hc]. destruct (alpha_plain a Ha) as (_ & Hb & Hb'). cbn [spec_loop].
  rewrite at_plus, <- (Nat.add_0_r k), <- lookup_drop, Hd. cbn [app lookup list_lookup]. rewrite Ha, Hb, Hb'. cbn [negb andb].
  assert (drop (S k) xs = c ++ b :: rest) as Hd' by (replace (S k) with (k + 1)%nat by lia; by rewrite <- drop_drop, Hd).
  assert (length xs = k + S (length c + S (length rest)))%nat as Hl.
  { apply (f_equal length) in Hd. rewrite length_drop in Hd. cbn [app length] in Hd. rewrite length_app in Hd. cbn [length] in Hd. lia. }
  replace (length pre + (k + 0) + 1)%nat with (length pre + S k)%nat by lia. rewrite size_pre, (proj2 (Nat.eqb_neq _ _)) by lia. cbn [andb].
  rewrite (IH fuel xs (S k) b rest Hc Hd'). f_equal. lia.
Qed.
Lemma spec_last c : forall fuel xs k, c <> [] -> all_in isalpha c -> drop k xs = c -> (length c <= fuel)%nat ->
  spec_loop (pre ++ xs) fuel (length pre) (length pre + k) false 0 [] [] =
  ((length pre + k + length c)%nat, false, slice 1 (length xs - 1) xs, []).
Proof.
  induction c as [|a c IH]; intros fuel xs k Hne Hc Hd Hf; [done|].
  destruct fuel as [|fuel]; cbn [length] in Hf; [lia|]. apply all_in_cons in Hc as [Ha Hc]. destruct (alpha_plain a Ha) as (_ & Hb & Hb'). cbn [spec_loop].
  rewrite at_plus, <- (Nat.add_0_r k), <- lookup_drop, Hd. cbn [app lookup list_lookup]. rewrite Ha, Hb, Hb'. cbn [negb andb].
  assert (drop (S k) xs = c) as Hd' by (replace (S k) with (k + 1)%nat by lia; by rewrite <- drop_drop, Hd).
  assert (length xs = k + S (length c))%nat as Hl by (apply (f_equal length) in Hd; rewrite length_drop in Hd; cbn [length] in Hd; lia).
  replace (length pre + (k + 0) + 1)%nat with (length pre + S k)%nat by lia. rewrite size_pre. destruct c as [|b c].
  - rewrite (proj2 (Nat.eqb_eq _ _)) by (cbn [length] in Hl; lia). cbn [andb empty]. rewrite substr_plus. cbn [length] in *.
    assert ((pre ++ xs) !! (length pre + S k)%nat = None) as Hn by (rewrite at_plus; apply lookup_ge_None; lia).
    replace (length pre + length xs - length pre - 1)%nat with (length xs - 1)%nat by lia.
    destruct fuel as [|fuel]; cbn [spec_loop]; rewrite ?Hn; do 3 f_equal; lia.
  - rewrite (proj2 (Nat.eqb_neq _ _)) by (cbn [length] in Hl; lia). cbn [andb].
    rewrite IH by (done || cbn [length] in *; lia). cbn [length]. do 3 f_equal. lia.
Qed.

Lemma after_name (c : bytes) b rest : (pre ++ Byte.x25 :: c ++ b :: rest) !! (length pre + (1 + length c))%nat = Some b.
Proof. rewrite at_plus. by apply (list_lookup_middle c rest b (length c)). Qed.

(** [%c], and what ends its name *)
Lemma spec_plain c rest fuel : name_ok c -> match rest with b :: _ => ends_name b = true | [] => True end -> (length c < fuel)%nat ->
  spec_loop (pre ++ Byte.x25 :: c ++ rest) fuel (length pre) (length pre + 1) false 0 [] [] =
  ((length pre + length c + 1)%nat, false, c, []).
Proof.
  intros [Hne Hc] Hr Hf. destruct rest as [|b rest].
  - rewrite (spec_last c) by (done || cbn [drop]; rewrite ?app_nil_r; done || lia). unfold slice. cbn [drop length].
    rewrite app_nil_r. replace (S (length c) - 1)%nat with (length c) by lia. rewrite firstn_all. do 3 f_equal. lia.
  - replace fuel with (length c + S (fuel - length c - 1))%nat by lia. rewrite (spec_letters c _ _ _ b rest) by done.
    rewrite <- Nat.add_assoc. cbn [spec_loop]. rewrite after_name. cbn [Nat.add].
    unfold ends_name in Hr. apply andb_true_iff in Hr as [[H1 H2]%andb_true_iff H3]. rewrite H1, H2, H3. cbn [andb negb].
    rewrite substr_plus. unfold slice. cbn [drop]. replace (length pre + S (length c) - length pre - 1)%nat with (length c) by lia.
    rewrite drop_0, take_app_length. do 3 f_equal. lia.
Qed.

(** Inside the braces, behind [k] characters. *)
Lemma spec_inside f : forall fuel xs k rest s j, all_in (fun b => negb (is_char "}" b)) f -> drop k xs = f ++ Byte.x7d :: rest ->
  s <> [] -> (length f < fuel)%nat -> (j < k)%nat ->
  spec_loop (pre ++ xs) fuel (length pre) (length pre + k) true (length pre + j) s [] =
  ((length pre + k + length f + 1)%nat, false, s, slice (j + 1) (k + length f - j - 1) xs).
Proof.
  induction f as [|b f IH]; intros [|fuel] xs k rest s j Hf Hd Hs Hl Hj; cbn [length] in Hl; try lia; cbn [spec_loop].
  all: rewrite at_plus, <- (Nat.add_0_r k), <- lookup_drop, Hd; cbn [app lookup list_lookup negb andb].
  - replace (length pre + j + 1)%nat with (length pre + (j + 1))%nat by lia.
    rewrite substr_plus, Nat.add_0_r.
    change (is_char "}" Byte.x7d) with true. cbn [length]. rewrite !Nat.add_0_r. do 2 f_equal. lia.
  - apply all_in_cons in Hf as [Hb Hf]. apply negb_true_iff in Hb. rewrite Hb. cbn [andb].
    replace (empty s) with false by by destruct s. rewrite andb_false_r.
    replace (length pre + (k + 0) + 1)%nat with (length pre + S k)%nat by lia.
    assert (drop (S k) xs = f ++ Byte.x7d :: rest) as Hd' by (replace (S k) with (k + 1)%nat by lia; by rewrite <- drop_drop, Hd).
    rewrite (IH fuel xs (S k) rest s j Hf Hd' Hs) by lia.
    cbn [length]. apply f_equal2; [do 2 f_equal; lia|]. f_equal. lia.
Qed.

(** [%c{fmt}] *)
Lemma spec_braced c f rest fuel : name_ok c -> all_in (fun b => negb (is_char "}" b)) f -> (length c + length f + 2 <= fuel)%nat ->
  spec_loop (pre ++ Byte.x25 :: c ++ Byte.x7b :: f ++ Byte.x7d :: rest) fuel (length pre) (length pre + 1) false 0 [] [] =
  ((length pre + length c + length f + 3)%nat, false, c, f).
Proof.
  intros [Hne Hc] Hf Hl. replace fuel with (length c + S (fuel - length c - 1))%nat by lia.
  rewrite (spec_letters c _ _ _ Byte.x7b (f ++ Byte.x7d :: rest)) by done.
  rewrite <- Nat.add_assoc. cbn [spec_loop]. rewrite after_name. cbn [Nat.add].
  change (is_char "{" Byte.x7b) with true. change (is_char "}" Byte.x7b) with false. rewrite ?andb_false_r. cbn [negb andb].
  rewrite substr_plus. replace (length pre + S (length c) + 1)%nat with (length pre + (length c + 2))%nat by lia.
  replace (length pre + S (length c) - length pre - 1)%nat with (length c) by lia.
  assert (slice 1 (length c) (Byte.x25 :: c ++ Byte.x7b :: f ++ Byte.x7d :: rest) = c) as -> by (unfold slice; cbn [drop]; apply take_app_length).
  rewrite (spec_inside f _ _ (length c + 2) rest _ (S (length c)) Hf); [| |done|lia|lia].
  2: { replace (length c + 2)%nat with (S (length c + 1)) by lia. cbn [drop]. rewrite <- drop_drop, drop_app_length. done. }
  apply f_equal2; [do 2 f_equal; lia|]. unfold slice. replace (S (length c) + 1)%nat with (S (length c + 1)) by lia. cbn [drop].
  rewrite <- drop_drop, drop_app_length. cbn [drop]. replace (length c + 2 + length f - S (length c) - 1)%nat with (length f) by lia.
  apply take_app_length.
Qed.
End reading.

(** What the loop collects for the tokens that are left, [nstr] being collected. *)
Definition flush (nstr : bytes) : list (bytes * bytes * bool) := if empty nstr then [] else [(nstr, [], false)].
Fixpoint collected (nstr : bytes) (ts : list token) : list (bytes * bytes * bool) :=
  match ts with
  | [] => flush nstr
  | Text s :: ts => collected (nstr ++ s) ts
  | Spec c fmt :: ts => flush nstr ++ (c, default [] fmt, true) :: collected [] ts
  end.

Lemma flush_app nstr vec : (if empty nstr then vec else vec ++ [(nstr, [], false)]) = vec ++ flush nstr.
Proof. unfold flush. destruct (empty nstr); [by rewrite app_nil_r|done]. Qed.

Lemma loop_text s : forall fuel pre rest nstr vec e, (length (escape s) <= fuel)%nat -> exists fuel',
  (fuel <= fuel' + length (escape s))%nat /\
  pattern_loop (pre ++ escape s ++ rest) fuel (length pre) nstr vec e =
  pattern_loop (pre ++ escape s ++ rest) fuel' (length (pre ++ escape s)) (nstr ++ s) vec e.
Proof.
  induction s as [|b s IH]; intros fuel pre rest nstr vec e Hf; cbn [escape flat_map] in *.
  - exists fuel. cbn [app length]. rewrite !app_nil_r. split; [lia|done].
  - fold (escape s) in *. rewrite length_app in Hf |- *. destruct fuel as [|fuel]; [by destruct (is_char "%" b); cbn in Hf; lia|].
    destruct (is_char "%" b) eqn:Eb.
    + assert (b = Byte.x25) as -> by by apply is_percent. cbn [app length] in *.
      destruct (IH fuel (pre ++ [Byte.x25; Byte.x25]) rest (nstr ++ [Byte.x25]) vec e ltac:(lia)) as (fuel' & Hl & E).
      exists fuel'. split; [lia|]. rewrite <- !app_assoc in E. cbn [app] in E. rewrite <- E.
      cbn [pattern_loop]. rewrite at_pre. cbn [head]. rewrite at_plus. cbn [lookup list_lookup].
      change (is_char "%" Byte.x25) with true. cbn [negb]. f_equal. rewrite length_app. cbn. lia.
    + cbn [app length] in *.
      destruct (IH fuel (pre ++ [b]) rest (nstr ++ [b]) vec e ltac:(lia)) as (fuel' & Hl & E).
      exists fuel'. split; [lia|]. rewrite <- !app_assoc in E. cbn [app] in E. rewrite <- E.
      cbn [pattern_loop]. rewrite at_pre. cbn [head]. rewrite Eb. cbn [negb]. f_equal. rewrite length_app. cbn. lia.
Qed.

(** A token that is no text, up to the next one. *)
Lemma loop_spec c fmt ts pre : tokens_ok (Spec c fmt :: ts) ->
  let tok := print_token (Spec c fmt) in let p := pre ++ tok ++ print_tokens ts in
  spec_loop p (S (length p)) (length pre) (length pre + 1) false 0 [] [] = (length (pre ++ tok), false, c, default [] fmt).
Proof.
  intros Hok tok p. unfold p, tok. clear p tok. rewrite !length_app.
  destruct fmt as [f|]; cbn [tokens_ok print_token default] in *; destruct Hok as (Hc & Hf & _).
  - change (str "%" ++ c ++ str "{" ++ f ++ str "}") with (Byte.x25 :: c ++ Byte.x7b :: f ++ [Byte.x7d]).
    rewrite <- !app_comm_cons, <- !app_assoc, <- !app_comm_cons, <- !app_assoc. cbn [app length].
    rewrite spec_braced by (done || rewrite !length_app; cbn [length]; rewrite ?length_app; lia).
    apply f_equal2; [|done]. do 2 f_equal. rewrite !length_app. cbn [length]. rewrite length_app. cbn [length]. lia.
  - change (str "%" ++ c) with (Byte.x25 :: c). cbn [app length].
    rewrite spec_plain by (done || rewrite ?length_app; lia). do 3 f_equal. lia.
Qed.

Lemma token_head c fmt : name_ok c -> exists b xs, print_token (Spec c fmt) = Byte.x25 :: b :: xs /\ is_char "%" b = false.
Proof.
  intros [Hne Hc]. destruct c as [|b c]; [done|]. apply all_in_cons in Hc as [Hb _]. destruct (alpha_plain b Hb) as (Hp & _).
  by destruct fmt; eexists b, _; cbn.
Qed.

Lemma loop_tokens ts : forall fuel pre nstr vec e, tokens_ok ts -> (length (print_tokens ts) < fuel)%nat ->
  pattern_loop (pre ++ print_tokens ts) fuel (length pre) nstr vec e = (vec ++ collected nstr ts, e).
Proof.
  induction ts as [|[s|c fmt] ts IH]; intros fuel pre nstr vec e Hok Hf.
  - cbn [print_tokens fmap list_fmap concat collected]. destruct fuel as [|fuel]; cbn [pattern_loop]; rewrite flush_app; [done|].
    by rewrite at_pre.
  - cbn [tokens_ok collected] in *. change (print_tokens (Text s :: ts)) with (escape s ++ print_tokens ts) in *.
    rewrite length_app in Hf. destruct (loop_text s fuel pre (print_tokens ts) nstr vec e ltac:(lia)) as (fuel' & Hl & ->).
    rewrite app_assoc. apply IH; [done|lia].
  - pose proof (loop_spec c fmt ts pre Hok) as Es. cbn zeta in Es.
    change (print_tokens (Spec c fmt :: ts)) with (print_token (Spec c fmt) ++ print_tokens ts) in *.
    assert (tokens_ok ts /\ name_ok c) as [Hts Hc] by (destruct fmt; cbn [tokens_ok] in Hok; tauto).
    destruct (token_head c fmt Hc) as (b & xs & Ex & Hp). rewrite Ex in *. cbn [app length] in *.
    destruct fuel as [|fuel]; [lia|]. rewrite length_app in Hf. cbn [pattern_loop collected]. rewrite at_pre, at_plus.
    cbn [head lookup list_lookup]. change (is_char "%" Byte.x25) with true. rewrite Hp, Es. cbn [negb].
    rewrite flush_app. replace (pre ++ Byte.x25 :: b :: xs ++ print_tokens ts) with ((pre ++ Byte.x25 :: b :: xs) ++ print_tokens ts)
      by by rewrite <- app_assoc. rewrite IH by (done || lia). by rewrite <- !app_assoc.
Qed.

(** *** What the items write *)

Lemma collected_unknown ts : forall nstr, existsb snd (to_item <$> collected nstr ts) = existsb unknown ts.
Proof.
  assert (forall nstr, existsb snd (to_item <$> flush nstr) = false) as Hfl by (intros nstr; unfold flush; by destruct (empty nstr)).
  induction ts as [|[s|c fmt] ts IH]; intros nstr; cbn [collected existsb unknown orb]; [done|by apply IH|].
  rewrite fmap_app, existsb_app, Hfl. cbn [fmap list_fmap existsb orb]. rewrite spec_found, IH. f_equal.
  by destruct (spec_item c (default [] fmt)).
Qed.
Section meaning.
Context (strftime : bytes -> Z -> bytes) (name : bytes) (e : LogEvent).
Definition entry_text (x : bytes * bytes * bool) : bytes := item_format strftime (fst (to_item x)) name e.

Lemma flush_text nstr : concat (entry_text <$> flush nstr) = nstr.
Proof. unfold flush. destruct nstr; [done|]. cbn. by rewrite app_nil_r. Qed.

Lemma collected_text ts : forall nstr, concat (entry_text <$> collected nstr ts) =
  nstr ++ concat (token_text strftime name e <$> ts).
Proof.
  induction ts as [|[s|c fmt] ts IH]; intros nstr; cbn [collected].
  - rewrite flush_text. cbn. by rewrite app_nil_r.
  - rewrite IH. cbn. by rewrite <- app_assoc.
  - rewrite fmap_app, concat_app, flush_text. cbn [fmap list_fmap concat token_text]. rewrite IH. unfold entry_text at 1. rewrite spec_found.
    by destruct (spec_item c (default [] fmt)).
Qed.

End meaning.

(** C34: a pattern means the tokens it prints.  For every list of texts, in which a percent sign is
    written twice, and of items [%c] or [%c{format}], where the name [c] is of letters, one or more,
    known or not, and is followed by what ends it: the formatter of their print is in error exactly
    when one of the names is unknown, and what it writes for an event is what the tokens say, one
    after the other; for an unknown name that is [<<error_format %c>>].  (Names without a letter,
    and formats whose brace is not closed, are not among these patterns.) *)
Theorem formatter_means_tokens ts : tokens_ok ts ->
  let f := new_LogFormatter (print_tokens ts) in
  m_error f = existsb unknown ts /\
  forall strftime name e, LogFormatter_format strftime f name e = concat (token_text strftime name e <$> ts).
Proof.
  intros Hok. pose proof (loop_tokens ts (S (length (print_tokens ts))) [] [] [] false Hok ltac:(lia)) as E.
  cbn [app length] in E. unfold new_LogFormatter. rewrite E. cbn [m_error]. split; [by apply (collected_unknown ts [])|].
  intros strftime name e. unfold LogFormatter_format. cbn [m_item].
  rewrite <- (app_nil_l (concat (token_text _ _ _ <$> ts))), <- (collected_text strftime name e ts []). f_equal.
  by rewrite <- !list_fmap_compose.
Qed.

Definition sample_tokens : list token :=
  [Spec (str "d") (Some (str "%H:%M")); Spec (str "T") None; Text (str " 100% ["); Spec (str "p") None; Text (str "] ");
   Spec (str "msg") None; Text (str ":"); Spec (str "n") None].
Lemma formatter_means_tokens_witness :
  print_tokens sample_tokens = str "%d{%H:%M}%T 100%% [%p] %msg:%n" /\
  m_error (new_LogFormatter (print_tokens sample_tokens)) = true.
Proof. split; [reflexivity|]. apply (formatter_means_tokens sample_tokens). vm_compute. split_and!; (reflexivity || intros [=]). Defined.
