(* ===== verification/Util.v ===== *)
(** * Files, texts and times (src/wyze/util.h, src/wyze/util.cpp)

    The file system is the state; what the operating system does with it is a class of
    operations, with names as it gets them, up to their first NUL.  [PosixLaws] is what the
    theorems rely on. *)

From S2P Require Import Prelude Http HttpParser.

(** ** The operating system *)

Class Posix (F : Type) := {
  lstat : F -> bytes -> option Z;                        (* st_mode *)
  access : F -> bytes -> bool;                           (* access(path, F_OK) == 0 *)
  mkdir : bytes -> F -> bool * F;                        (* did it succeed? *)
  rmdir : bytes -> F -> bool * F;
  unlink : bytes -> F -> bool * F;
  rename : bytes -> bytes -> F -> bool * F;
  symlink : bytes -> bytes -> F -> bool * F;
  realpath : F -> bytes -> option bytes;
  readdir : F -> bytes -> option (list (bytes * Z));     (* opendir; d_name and d_type of all that readdir gives *)
  first_line : F -> bytes -> option bytes;               (* std::ifstream and std::getline *)
  process_exists : F -> Z -> bool;                       (* kill(pid, 0) == 0 *)
  open_append : bytes -> F -> bool * F }.                (* std::ofstream::open(name, std::ios::app) *)

(** A call that changes the file system *)
Definition sys {F} (call : F -> bool * F) : M F bool := fun f => let '(ok, f') := call f in Ok ok f'.

Definition slash : byte := Byte.x2f.
Definition S_IFDIR : Z := 16384.  (* 0040000 *)
Definition DT_DIR : Z := 4.
Definition DT_REG : Z := 8.

(** ** Texts *)

Definition toupper (b : byte) : Z :=
  let c := byte.unsigned b in if (97 <=? c) && (c <=? 122) then c - 32 else c.
Definition ToUpper (name : bytes) : bytes := byte.of_Z ∘ toupper <$> name.
Definition ToLower (name : bytes) : bytes := byte.of_Z ∘ tolower <$> name.

(** [s.rfind('/')] *)
Fixpoint rfind (c : byte) (s : bytes) : option nat :=
  match s with
  | [] => None
  | b :: s => match rfind c s with
              | Some i => Some (S i)
              | None => if bool_decide (b = c) then Some 0%nat else None
              end
  end.
Definition Dirname (filename : bytes) : bytes :=
  if empty filename then str "."
  else match rfind slash filename with
       | Some O => str "/"
       | None => str "."
       | Some pos => take pos filename
       end.
Definition Basename (filename : bytes) : bytes :=
  if empty filename then filename
  else match rfind slash filename with
       | None => filename
       | Some pos => drop (S pos) filename
       end.

(** ** Times: [tv] is what [gettimeofday] fills in, nothing when it fails. *)

Definition GetCurrentMS (tv : option (Z * Z)) : Z :=
  match tv with Some (sec, usec) => u64 (u64 (u64 sec * 1000) + Z.quot usec 1000) | None => 0 end.
Definition GetCurrentUS (tv : option (Z * Z)) : Z :=
  match tv with Some (sec, usec) => u64 (u64 (u64 sec * 1000 * 1000) + usec) | None => 0 end.

(** [TimeToStr(ts, format)]: [strftime] is the text that [localtime_r] and [strftime] make; nothing when it
    does not fit into [buf], whose contents are then unspecified. *)
Definition TimeToStr (strftime : bytes -> Z -> bytes) (ts : Z) (format : bytes) : option bytes :=
  let s := strftime (c_str format) ts in if (length s <? 64)%nat then Some (c_str s) else None.
(** [StrToTime(str, format)], over [strptime] on a [tm] of zeros, and [mktime] *)
Definition StrToTime {tm} (strptime : bytes -> bytes -> option tm) (mktime : tm -> Z) (s format : bytes) : Z :=
  match strptime s format with None => 0 | Some t => mktime t end.

(** ** Back traces *)

(** A conversion [%[...]] of [sscanf]: at most [width] characters of a set, but not none, and what follows *)
Fixpoint span (width : nat) (ok : byte -> bool) (s : bytes) : bytes * bytes :=
  match width, s with
  | S width, b :: s' => if ok b then let '(x, rest) := span width ok s' in (b :: x, rest) else ([], s)
  | _, _ => ([], s)
  end.
Definition scan_set (width : nat) (ok : byte -> bool) (s : bytes) : option (bytes * bytes) :=
  let '(x, rest) := span width ok s in if empty x then None else Some (x, rest).
Definition not_in (set : bytes) (b : byte) : bool := negb (existsb (fun c => bool_decide (c = b)) set).
(** [sscanf(s, "%*[^(]%*[^_]%255[^)+]", ...)]: the text that is stored when 1 is returned *)
Definition scan_symbol (s : bytes) : option bytes :=
  '(_, s) ← scan_set (length s) (not_in (str "(")) s;
  '(_, s) ← scan_set (length s) (not_in (str "_")) s;
  fst <$> scan_set 255 (not_in (str ")+")) s.
(** [sscanf(s, "%255s", ...)] *)
Fixpoint skip_space (s : bytes) : bytes := match s with b :: s' => if isspace b then skip_space s' else s | [] => [] end.
Definition scan_word (s : bytes) : option bytes := fst <$> scan_set 255 (negb ∘ isspace) (skip_space s).

(** [demangle(str)]: [rt] has 256 characters, and is returned with them all. *)
Definition demangle (cxa_demangle : bytes -> option bytes) (s : bytes) : bytes :=
  let stored (x rt : bytes) := splice 0 (x ++ [Byte.x00]) rt in
  let rt := repeat Byte.x00 256 in
  let word rt := match scan_word s with Some w => stored w rt | None => s end in
  match scan_symbol s with
  | Some name => match cxa_demangle (c_str (stored name rt)) with Some v => v | None => word (stored name rt) end
  | None => word rt
  end.
(** [Backtrace(vec, size, skip)]: [strings] is what [backtrace_symbols] gives; a negative [skip] is a huge
    [size_t]. *)
Definition Backtrace (cxa_demangle : bytes -> option bytes) (strings : option (list bytes)) (skip : Z) (vec : list bytes) : list bytes :=
  match strings with
  | None => vec
  | Some strings => vec ++ (if skip <? 0 then [] else demangle cxa_demangle <$> drop (Z.to_nat skip) strings)
  end.
Definition BacktraceToString (cxa_demangle : bytes -> option bytes) (strings : option (list bytes)) (skip : Z) (prefix : bytes) : bytes :=
  concat ((fun line => prefix ++ line ++ [Byte.x0a]) <$> Backtrace cxa_demangle strings skip []).

(** ** Files *)

Section fs.
Context {F : Type} `{Posix F}.
Implicit Types (f : F) (path : bytes).

(** [strchr(path + pos, '/')]: the index of what it finds *)
Fixpoint strchr (pos : nat) (c : byte) (s : bytes) : option nat :=
  match s with
  | [] => None
  | b :: s => match pos with
              | O => if bool_decide (b = c) then Some O else S <$> strchr O c s
              | S pos => S <$> strchr pos c s
              end
  end.

Definition f_mkdir (dirname : bytes) : M F bool :=
  f <- get ;; if access f dirname then ret true else sys (mkdir dirname).
(** The [for] loop, [path] being the copy of the name, whose slash at [ptr] is overwritten while
    the directory before it is made: is [ptr] null behind it? *)
Fixpoint mkdir_loop (fuel : nat) (path : bytes) (ptr : option nat) : M F bool :=
  match fuel, ptr with
  | _, None => ret true
  | O, _ => undef no_fuel
  | S fuel, Some i =>
      ok <- f_mkdir (take i path) ;;
      if negb ok then ret false else mkdir_loop fuel path (strchr (i + 1) slash path)
  end.
(** [path + 1] of the empty name is behind its NUL. *)
Definition Mkdir (dirname : bytes) : M F bool :=
  f <- get ;;
  match lstat f (c_str dirname) with
  | Some _ => ret true
  | None =>
      let path := c_str dirname in
      if empty path then undef out_of_bounds
      else all <- mkdir_loop (S (length path)) path (strchr 1 slash path) ;;
           if negb all then ret false else f_mkdir path
  end.

(** [ListAllFile(files, path, subfix)]: what is appended to [files] *)
Fixpoint ListAllFile (fuel : nat) (f : F) (path subfix : bytes) : list bytes :=
  match fuel with
  | O => []
  | S fuel =>
      if negb (access f (c_str path)) then []
      else match readdir f (c_str path) with
           | None => []
           | Some entries =>
               concat ((fun e =>
                 let '(d_name, d_type) := e in
                 if d_type =? DT_DIR
                 then if bool_decide (d_name = str ".") || bool_decide (d_name = str "..") then []
                      else ListAllFile fuel f (path ++ str "/" ++ d_name) subfix
                 else if d_type =? DT_REG
                 then if empty subfix then [path ++ str "/" ++ d_name]
                      else if (length d_name <? length subfix)%nat then []
                      else if bool_decide (drop (length d_name - length subfix) d_name = subfix)
                      then [path ++ str "/" ++ d_name] else []
                 else []) <$> entries)
           end
  end.

Definition IsRunningPidfile (f : F) (pidfile : bytes) : bool :=
  match lstat f (c_str pidfile) with
  | None => false
  | Some _ =>
      match first_line f (c_str pidfile) with
      | None => false
      | Some line =>
          if empty line then false
          else let pid := atoi (c_str line) in
               if pid <=? 1 then false else process_exists f pid
      end
  end.

Definition Unlink (filename : bytes) (exist : bool) : M F bool :=
  f <- get ;;
  if negb exist && bool_decide (lstat f (c_str filename) = None) then ret true
  else sys (unlink (c_str filename)).

(** [Rm(path)]; the names that [readdir] gives are those of the time of [opendir]. *)
Fixpoint Rm (fuel : nat) (path : bytes) : M F bool :=
  match fuel with
  | O => undef no_fuel
  | S fuel =>
      f <- get ;;
      match lstat f (c_str path) with
      | None => ret true
      | Some st_mode =>
          if Z.land st_mode S_IFDIR =? 0 then Unlink path true
          else match readdir f (c_str path) with
               | None => ret false
               | Some entries =>
                   (fix each (entries : list (bytes * Z)) (r : bool) : M F bool :=
                      match entries with
                      | [] => ok <- sys (rmdir (c_str path)) ;; ret (if ok then r else false)
                      | (d_name, _) :: entries =>
                          if bool_decide (d_name = str ".") || bool_decide (d_name = str "..") then each entries r
                          else r <- Rm fuel (path ++ str "/" ++ d_name) ;; each entries r
                      end) entries true
               end
      end
  end.

Definition Mv (fuel : nat) (from to : bytes) : M F bool :=
  ok <- Rm fuel to ;;
  if negb ok then ret false else sys (rename (c_str from) (c_str to)).

(** The result of [::symlink], an [int], as a [bool] *)
Definition Symlink (fuel : nat) (from to : bytes) : M F bool :=
  ok <- Rm fuel to ;;
  if negb ok then ret false
  else r <- sys (symlink (c_str from) (c_str to)) ;; ret (negb ((if r : bool then 0 else -1) =? 0)).

(** [Realpath(path, rpath)]: the result, and [rpath] *)
Definition Realpath (f : F) (path rpath : bytes) : bool * bytes :=
  match lstat f (c_str path) with
  | None => (false, rpath)
  | Some _ => match realpath f (c_str path) with Some p => (true, p) | None => (false, rpath) end
  end.

(** [OpenForWrite(ofs, filename, std::ios::app)]: is the stream open, and the directory that
    could not be made, of which an error is logged. *)
Definition OpenForWrite (filename : bytes) : M F (bool * option bytes) :=
  ok <- sys (open_append (c_str filename)) ;;
  if ok : bool then ret (true, None)
  else
    let dir := Dirname filename in
    made <- Mkdir dir ;;
    if negb made then ret (false, Some dir)
    else ok <- sys (open_append (c_str filename)) ;; ret (ok, None).
End fs.

(** [OpenForRead(ifs, filename, mode)]: is the stream open? *)
Definition OpenForRead (open_read : bytes -> bool) (filename : bytes) : bool := open_read (c_str filename).

(** ** What POSIX promises *)

Definition PATH_MAX : nat := 4096.
Class PosixLaws F `{Posix F} := {
  (* mkdir makes the directory or nothing, and removes nothing. *)
  mkdir_true : forall p f f', mkdir p f = (true, f') -> access f' p = true /\ forall q, access f q = true -> access f' q = true;
  mkdir_false : forall p f f', mkdir p f = (false, f') -> f' = f;
  (* what is removed is gone, and nothing appears *)
  unlink_true : forall p f f', unlink p f = (true, f') -> lstat f' p = None;
  unlink_false : forall p f f', unlink p f = (false, f') -> f' = f;
  rmdir_true : forall p f f', rmdir p f = (true, f') -> lstat f' p = None;
  (* ENOTDIR, ENAMETOOLONG; names are not empty, without slash and NUL *)
  readdir_dir : forall f p l m, readdir f p = Some l -> lstat f p = Some m -> Z.land m 61440 = S_IFDIR \/ Z.land m 61440 = 40960;
  readdir_short : forall f p l, readdir f p = Some l -> (length p < PATH_MAX)%nat;
  readdir_names : forall f p l n t, readdir f p = Some l -> (n, t) ∈ l -> n <> [] /\ c_str n = n }.
