(* ===== verification/UtilSpec.v ===== *)
(** * What the file utilities promise *)

From S2P Require Import Prelude Containers Http HttpSpec HttpParser Util.

Lemma bind_get {S A} (k : S -> M S A) s : bind get k s = k s s.
Proof. done. Qed.

(** ** Names *)

Lemma rfind_none c s : rfind c s = None -> c ∉ s.
Proof.
  induction s as [|b s IH]; [by intros _ ?%elem_of_nil|]. cbn [rfind]. destruct (rfind c s); [done|].
  case_bool_decide; [done|]. intros _ [->|?]%elem_of_cons; [done|]. by apply IH.
Qed.
Lemma rfind_some c s i : rfind c s = Some i -> s = take i s ++ c :: drop (S i) s /\ c ∉ drop (S i) s.
Proof.
  revert i. induction s as [|b s IH]; intros i; [done|]. cbn [rfind]. destruct (rfind c s) as [j|] eqn:E.
  - intros [= <-]. destruct (IH j eq_refl) as [E1 E2]. cbn [take drop app]. split; [by f_equal|done].
  - case_bool_decide; [|done]. intros [= <-]. subst b. cbn. split; [by rewrite drop_0|]. rewrite drop_0. by apply rfind_none.
Qed.
Lemma rfind_length c s i : rfind c s = Some i -> (i < length s)%nat.
Proof.
  intros E. apply rfind_some in E as [E _]. apply (f_equal length) in E. rewrite length_app, length_take in E. cbn in E. lia.
Qed.

(** Directory and name make the path.  A path with a slash is a directory, a slash and its
    [Basename], and [Dirname] gives that directory, or the root when it is empty; a path without a
    slash is its [Basename] in the directory [.]; and a [Basename] has no slash. *)
Theorem dirname_basename path :
  (slash ∈ path -> exists dir, path = dir ++ slash :: Basename path /\ Dirname path = if empty dir then str "/" else dir) /\
  (slash ∉ path -> Basename path = path /\ Dirname path = str ".") /\ slash ∉ Basename path.
Proof.
  unfold Dirname, Basename. destruct path as [|b path]; cbn [empty]; [split_and!; [by intros ?%elem_of_nil|done|apply not_elem_of_nil]|].
  set (p := b :: path). destruct (rfind slash p) as [i|] eqn:E.
  - pose proof (rfind_some _ _ _ E) as [E1 E2]. split_and!; [|intros Hn; exfalso; apply Hn; rewrite E1; apply elem_of_app; right; left|done].
    intros _. exists (take i p). split; [done|]. by destruct i.
  - apply rfind_none in E. by split_and!.
Qed.

(** ** Mkdir *)

(** The slashes of a path from an index on *)
Definition slashes (pos : nat) (path : bytes) : list nat :=
  List.filter (fun i => bool_decide (path !! i = Some slash)) (seq pos (length path - pos)).

Lemma strchr_some c s : forall pos i, strchr pos c s = Some i ->
  (pos <= i < length s)%nat /\ s !! i = Some c /\ forall j, (pos <= j < i)%nat -> s !! j <> Some c.
Proof.
  induction s as [|b s IH]; intros pos i; [done|]. cbn [strchr length]. destruct pos as [|pos].
  - case_bool_decide as Hb; [intros [= <-]; subst; split_and!; [lia..|done|intros; lia]|].
    intros (k & E & ->)%fmap_Some. destruct (IH _ _ E) as (H1 & H2 & H3). split_and!; [lia..|done|].
    intros [|j] Hj; [by intros [= ->]|]. apply H3. lia.
  - intros (k & E & ->)%fmap_Some. destruct (IH _ _ E) as (H1 & H2 & H3). split_and!; [lia..|done|].
    intros [|j] Hj; [lia|]. apply H3. lia.
Qed.
Lemma strchr_none c s : forall pos, strchr pos c s = None -> forall j, (pos <= j)%nat -> s !! j <> Some c.
Proof.
  induction s as [|b s IH]; intros pos; [done|]. cbn [strchr]. destruct pos as [|pos].
  - case_bool_decide as Hb; [done|]. intros E%fmap_None [|j] Hj; [by intros [= ->]|]. apply (IH _ E). lia.
  - intros E%fmap_None [|j] Hj; [lia|]. apply (IH _ E). lia.
Qed.

Lemma util_filter_none {A} (g : A -> bool) l : (forall x, List.In x l -> g x = false) -> List.filter g l = [].
Proof. induction l as [|x l IH]; intros Hl; [done|]. cbn. rewrite Hl by by left. apply IH. intros y Hy. apply Hl. by right. Qed.

Lemma slashes_strchr pos path : slashes pos path =
  match strchr pos slash path with Some i => i :: slashes (i + 1) path | None => [] end.
Proof.
  unfold slashes. destruct (strchr pos slash path) as [i|] eqn:E.
  - destruct (strchr_some _ _ _ _ E) as (H1 & H2 & H3).
    replace (length path - pos)%nat with ((i - pos) + (1 + (length path - (i + 1))))%nat by lia.
    rewrite seq_app, List.filter_app, util_filter_none.
    + replace (pos + (i - pos))%nat with i by lia. cbn [seq app List.filter Nat.add]. rewrite bool_decide_true by done.
      by rewrite Nat.add_1_r.
    + intros j Hj%in_seq. apply bool_decide_eq_false_2, H3. lia.
  - apply util_filter_none. intros j Hj%in_seq. apply bool_decide_eq_false_2. apply (strchr_none _ _ _ E). lia.
Qed.

Section mkdir.
Context {F} `{PosixLaws F}.
Implicit Types (f : F) (path : bytes).

(** The directories that a path goes through, and the path itself *)
Definition ancestors path : list bytes := ((fun i => take i path) <$> slashes 1 path) ++ [path].
(** Make them in this order, unless they are there, until it fails. *)
Fixpoint make_all (dirs : list bytes) : M F bool :=
  match dirs with
  | [] => ret true
  | d :: dirs => ok <- f_mkdir d ;; if negb ok then ret false else make_all dirs
  end.

Lemma f_mkdir_ok d f : exists ok f', f_mkdir d f = Ok ok f' /\ (forall q, access f q = true -> access f' q = true) /\
  (ok = true -> access f' d = true).
Proof.
  unfold f_mkdir. rewrite bind_get. destruct (access f d) eqn:E; [by exists true, f|]. unfold sys.
  destruct (mkdir d f) as [[] f'] eqn:Em; [exists true, f'|exists false, f']; split; try done.
  - by destruct (mkdir_true _ _ _ Em).
  - apply mkdir_false in Em as ->. by split.
Qed.
Lemma make_all_ok dirs : forall f, exists ok f', make_all dirs f = Ok ok f' /\ (forall q, access f q = true -> access f' q = true) /\
  (ok = true -> forall d, d ∈ dirs -> access f' d = true).
Proof.
  induction dirs as [|d dirs IH]; intros f; [exists true, f; split_and!; [done..|by intros _ ? ?%elem_of_nil]|].
  destruct (f_mkdir_ok d f) as (ok & f1 & E1 & K1 & A1). cbn [make_all]. rewrite (bind_ok _ _ _ _ _ E1).
  destruct ok; cbn [negb]; [|by exists false, f1].
  destruct (IH f1) as (ok & f2 & E2 & K2 & A2). exists ok, f2. split_and!; [done|auto|].
  intros Hok e [->|He]%elem_of_cons; auto.
Qed.

Lemma loop_all path rest : forall fuel pos f, (length path < fuel + pos)%nat ->
  bind (mkdir_loop fuel path (strchr pos slash path)) (fun all => if negb all then ret false else make_all rest) f =
  make_all (((fun i => take i path) <$> slashes pos path) ++ rest) f.
Proof.
  induction fuel as [|fuel IH]; intros pos f Hf.
  { rewrite slashes_strchr. destruct (strchr pos slash path) as [i|] eqn:E; [|done].
    apply strchr_some in E. lia. }
  rewrite slashes_strchr. destruct (strchr pos slash path) as [i|] eqn:E; [|done].
  cbn [mkdir_loop fmap list_fmap app make_all]. rewrite bind_assoc. apply bind_ext. intros [] f1; cbn [negb]; [|done].
  apply strchr_some in E. apply IH. lia.
Qed.

Lemma Mkdir_ok dirname f : c_str dirname <> [] ->
  Mkdir dirname f = (if decide (lstat f (c_str dirname) = None) then make_all (ancestors (c_str dirname)) f else Ok true f).
Proof.
  unfold Mkdir. rewrite bind_get. set (path := c_str dirname). intros Hne.
  destruct (lstat f path) as [m|] eqn:El; [done|]. rewrite decide_True by done.
  destruct path as [|b p] eqn:Ep; [done|]. rewrite <- Ep in *. replace (empty path) with false by by rewrite Ep.
  unfold ancestors. rewrite <- (loop_all path [path] (S (length path)) 1) by lia. apply bind_ext.
  intros [] g'; cbn [negb]; [|done]. cbn [make_all]. unfold bind. destruct (f_mkdir path g') as [[]| |]; done.
Qed.

(** C37: [Mkdir] makes all the directories of a path.  It does nothing when the path is there, and
    else it makes the directories that the path goes through, from the first to the path itself,
    skipping those that are there, until one cannot be made; the result says if all are there.
    Only for the empty path it reads behind the end of its copy. *)
Theorem Mkdir_makes_all dirname f :
  (c_str dirname = [] -> lstat f [] = None -> Mkdir dirname f = Undef out_of_bounds) /\
  (c_str dirname <> [] ->
   Mkdir dirname f = (if decide (lstat f (c_str dirname) = None) then make_all (ancestors (c_str dirname)) f else Ok true f) /\
   exists ok f', Mkdir dirname f = Ok ok f' /\
   (ok = true -> lstat f (c_str dirname) = None -> forall d, d ∈ ancestors (c_str dirname) -> access f' d = true)).
Proof.
  split; [intros E El; unfold Mkdir; by rewrite bind_get, E, El|]. intros Hne. pose proof (Mkdir_ok dirname f Hne) as E.
  split; [done|]. rewrite E. destruct (decide _); [|by exists true, f].
  destruct (make_all_ok (ancestors (c_str dirname)) f) as (ok & f' & Em & _ & Ha). exists ok, f'. split; [done|].
  intros Hok _. by apply Ha.
Qed.
End mkdir.

(** ** Listing and removing *)

Section trees.
Context {F} `{PosixLaws F}.
Implicit Types (f : F) (path : bytes).

Definition is_dot (n : bytes) : bool := bool_decide (n = str ".") || bool_decide (n = str "..").
Definition has_suffix (s n : bytes) : Prop := exists p, n = p ++ s.

(** The regular files below a directory whose names end in [subfix] *)
Inductive file_below f (subfix : bytes) : bytes -> bytes -> Prop :=
  | file_here path entries n : access f (c_str path) = true -> readdir f (c_str path) = Some entries -> (n, DT_REG) ∈ entries ->
      has_suffix subfix n -> file_below f subfix path (path ++ str "/" ++ n)
  | file_under path entries n q : access f (c_str path) = true -> readdir f (c_str path) = Some entries -> (n, DT_DIR) ∈ entries ->
      is_dot n = false -> file_below f subfix (path ++ str "/" ++ n) q -> file_below f subfix path q.

Lemma has_suffix_ok subfix n : has_suffix subfix n <->
  (length subfix <= length n)%nat /\ drop (length n - length subfix) n = subfix.
Proof.
  split.
  - intros (p & ->). rewrite length_app. split; [lia|]. rewrite drop_app_ge by lia.
    replace (_ - _ - _)%nat with 0%nat by lia. done.
  - intros [Hl E]. exists (take (length n - length subfix) n). rewrite <- E at 2. by rewrite take_drop.
Qed.

(** What one entry adds *)
Lemma entry_ok fuel f path subfix n t q :
  List.In q (if t =? DT_DIR
             then if bool_decide (n = str ".") || bool_decide (n = str "..") then []
                  else ListAllFile fuel f (path ++ str "/" ++ n) subfix
             else if t =? DT_REG
             then if empty subfix then [path ++ str "/" ++ n]
                  else if (length n <? length subfix)%nat then []
                  else if bool_decide (drop (length n - length subfix) n = subfix)
                  then [path ++ str "/" ++ n] else []
             else []) <->
  (t = DT_DIR /\ is_dot n = false /\ List.In q (ListAllFile fuel f (path ++ str "/" ++ n) subfix)) \/
  (t = DT_REG /\ has_suffix subfix n /\ q = path ++ str "/" ++ n).
Proof.
  fold (is_dot n). destruct (Z.eqb_spec t DT_DIR) as [->|Ht].
  - destruct (is_dot n); [split; [done|intros [(_ & [=] & _)|([=] & _)]]|]. split; [by left|]. by intros [(_ & _ & ?)|([=] & _)].
  - destruct (Z.eqb_spec t DT_REG) as [->|Ht']; [|split; [done|intros [(? & _)|(? & _)]; done]].
    trans (has_suffix subfix n /\ q = path ++ str "/" ++ n); [|split; [by right|intros [(? & _)|(_ & ?)]; done]].
    rewrite has_suffix_ok. destruct subfix as [|b s]; cbn [empty].
    + cbn [length]. rewrite Nat.sub_0_r. split; [intros [<-|[]]; split; [split; [lia|apply drop_all]|done]|intros [_ ->]; by left].
    + set (sf := b :: s). destruct (Nat.ltb_spec (length n) (length sf)); [split; [done|intros [[? _] _]; lia]|].
      case_bool_decide as Hd; [|split; [done|by intros [[_ ?] _]]]. split; [intros [<-|[]]; by split_and!|intros [_ ->]; by left].
Qed.

Lemma c_str_app_ok p q : c_str p = p -> c_str q = q -> c_str (p ++ q) = p ++ q.
Proof.
  induction p as [|b p IH]; [done|]. cbn [c_str app]. destruct (_ =? _); [done|]. intros [= Hp] Hq. f_equal. by apply IH.
Qed.
Lemma child_c_str f path entries n t : c_str path = path -> readdir f (c_str path) = Some entries -> (n, t) ∈ entries ->
  c_str (path ++ str "/" ++ n) = path ++ str "/" ++ n /\ (length path + 2 <= length (path ++ str "/" ++ n))%nat /\
  (length path < PATH_MAX)%nat.
Proof.
  intros Hp Hr Hn. destruct (readdir_names _ _ _ _ _ Hr Hn) as [Hne Hc]. split_and!.
  - by repeat apply c_str_app_ok.
  - rewrite !length_app. destruct n; [done|]. cbn. lia.
  - apply readdir_short in Hr. by rewrite Hp in Hr.
Qed.

Lemma list_all_ok subfix f fuel : forall path q, c_str path = path -> (PATH_MAX < fuel + length path)%nat -> (0 < fuel)%nat ->
  List.In q (ListAllFile fuel f path subfix) <-> file_below f subfix path q.
Proof.
  induction fuel as [|fuel IH]; intros path q Hp Hf H0f; [lia|]. cbn [ListAllFile].
  destruct (access f (c_str path)) eqn:Ea; cbn [negb]; [|split; [done|intros Hb; destruct Hb; congruence]].
  destruct (readdir f (c_str path)) as [entries|] eqn:Er; [|split; [done|intros Hb; destruct Hb; congruence]].
  assert (forall n t q, (n, t) ∈ entries -> List.In q (ListAllFile fuel f (path ++ str "/" ++ n) subfix) <->
    file_below f subfix (path ++ str "/" ++ n) q) as IH'.
  { intros n t q' Hn. destruct (child_c_str f path entries n t Hp Er Hn) as (Hc & Hl & Hs). apply IH; [done|unfold PATH_MAX in *; lia..]. }
  rewrite in_concat. split.
  - intros (l & Hl & Hq). apply list_elem_of_In, list_elem_of_fmap in Hl as ([n t] & -> & Hn). apply entry_ok in Hq as [(-> & Hd & Hq)|(-> & Hs & ->)].
    + apply (file_under f subfix path entries n); [done..|]. by apply (IH' n DT_DIR).
    + by apply (file_here f subfix path entries).
  - intros Hb. destruct Hb as [path entries' n _ Hr Hn Hs|path entries' n q _ Hr Hn Hd Hb]; rewrite Hr in Er; injection Er as ->;
      eexists; (split; [apply list_elem_of_In, list_elem_of_fmap; eexists; split; [reflexivity|exact Hn]|]); apply entry_ok.
    + by right.
    + left. split_and!; [done..|]. by apply (IH' n DT_DIR).
Qed.

(** What [ListAllFile] lists.  For a path without NUL, with no more nesting than [PATH_MAX]
    allows, it lists the regular files of the directory and of the directories below it whose
    names end in the suffix, and nothing else. *)
Theorem ListAllFile_lists subfix f path q : c_str path = path ->
  List.In q (ListAllFile (S PATH_MAX) f path subfix) <-> file_below f subfix path q.
Proof. intros Hp. apply list_all_ok; [done|unfold PATH_MAX; lia..]. Qed.

Lemma Rm_ok fuel : forall path f, c_str path = path -> (PATH_MAX < fuel + length path)%nat -> (0 < fuel)%nat ->
  exists r f', Rm fuel path f = Ok r f' /\ (r = true -> lstat f' path = None).
Proof.
  induction fuel as [|fuel IH]; intros path f Hp Hf H0f; [lia|]. cbn [Rm]. rewrite bind_get, Hp.
  destruct (lstat f path) as [m|] eqn:El; [|by exists true, f]. destruct (_ =? 0).
  { unfold Unlink, sys. rewrite bind_get, Hp. cbn [negb andb]. destruct (unlink path f) as [ok f'] eqn:Eu.
    exists ok, f'. split; [done|]. intros ->. by apply unlink_true in Eu. }
  destruct (readdir f path) as [entries|] eqn:Er; [|by exists false, f].
  assert (forall n t, (n, t) ∈ entries -> forall g, exists r g', Rm fuel (path ++ str "/" ++ n) g = Ok r g') as IH'.
  { intros n t Hn g. rewrite <- Hp in Er. destruct (child_c_str f path entries n t Hp Er Hn) as (Hc & Hl & Hs).
    destruct (IH (path ++ str "/" ++ n) g) as (r & g' & E & _); [done|unfold PATH_MAX in *; lia..|]. by exists r, g'. }
  clear Er El. assert (forall r : bool, exists r' f', (fix each (entries : list (bytes * Z)) (r : bool) : M F bool :=
      match entries with
      | [] => ok <- sys (rmdir path) ;; ret (if ok : bool then r else false)
      | (d_name, _) :: entries =>
          if bool_decide (d_name = str ".") || bool_decide (d_name = str "..") then each entries r
          else r <- Rm fuel (path ++ str "/" ++ d_name) ;; each entries r
      end) entries r f = Ok r' f' /\ (r' = true -> lstat f' path = None)) as Hloop; [|by destruct (Hloop true) as (r & f' & Hr); exists r, f'].
  revert f. induction entries as [|[n t] entries IHe]; intros f r.
  - unfold sys, bind. destruct (rmdir path f) as [[] f'] eqn:Ed; [|by exists false, f'].
    exists r, f'. split; [done|]. intros _. by apply rmdir_true in Ed.
  - assert (forall n t, (n, t) ∈ entries -> forall g, exists r g', Rm fuel (path ++ str "/" ++ n) g = Ok r g') as IH''
      by (intros n' t' Hn'; apply (IH' n' t'); by right). specialize (IHe IH'').
    destruct (bool_decide (n = str ".") || bool_decide (n = str "..")); [apply IHe|].
    destruct (IH' n t ltac:(left) f) as (r1 & f1 & E). rewrite (bind_ok _ _ _ _ _ E). apply IHe.
Qed.

Lemma Rm_special fuel path f m : c_str path = path -> lstat f path = Some m -> Z.land m 61440 ∈ [49152; 24576] ->
  Rm (S fuel) path f = Ok false f.
Proof.
  intros Hp Hm Ht. cbn [Rm]. rewrite bind_get, Hp, Hm.
  assert (Z.land m S_IFDIR = S_IFDIR \/ Z.land m S_IFDIR = 16384) as Hd.
  { replace S_IFDIR with (Z.land 61440 S_IFDIR) by done. rewrite Z.land_assoc.
    repeat (apply elem_of_cons in Ht as [->|Ht]; [by right|]). by apply elem_of_nil in Ht. }
  replace (Z.land m S_IFDIR =? 0) with false by (by destruct Hd as [-> | ->]).
  destruct (readdir f path) as [l|] eqn:Er; [|done]. destruct (readdir_dir _ _ _ _ Er Hm) as [E|E]; rewrite E in Ht;
    repeat (apply elem_of_cons in Ht as [[=]|Ht]); by apply elem_of_nil in Ht.
Qed.

(** [Rm] ends, and what it says it removed is gone.  For a path without NUL it returns, with no
    more nesting than [PATH_MAX] allows; when it returns true, nothing is at the path; and sockets
    and block devices, whose modes have the bit that it takes for that of directories, are left
    where they are, with the result false. *)
Theorem Rm_removes path f : c_str path = path ->
  (exists r f', Rm (S PATH_MAX) path f = Ok r f' /\ (r = true -> lstat f' path = None)) /\
  (forall m, lstat f path = Some m -> Z.land m 61440 ∈ [49152; 24576] -> Rm (S PATH_MAX) path f = Ok false f).
Proof.
  intros Hp. split; [apply Rm_ok; [done|lia..]|]. intros m Hm Ht. by eapply Rm_special.
Qed.

(** [Symlink] says the opposite.  When it gets to make the link, its result is true exactly
    when the link could not be made. *)
Theorem Symlink_inverted fuel from to f f1 : Rm fuel to f = Ok true f1 ->
  Symlink fuel from to f = let '(ok, f2) := symlink (c_str from) (c_str to) f1 in Ok (negb ok) f2.
Proof. intros E. unfold Symlink. rewrite (bind_ok _ _ _ _ _ E). unfold sys, bind. cbn [negb]. by destruct (symlink _ _ f1) as [[] f2]. Qed.
End trees.

(** ** Back traces *)

Lemma span_stop ok x b rest width : forallb ok x = true -> ok b = false -> (length x <= width)%nat ->
  span width ok (x ++ b :: rest) = (x, b :: rest).
Proof.
  intros Hx Hb. revert width. induction x as [|c x IH]; intros width Hw; cbn in Hw.
  - cbn. destruct width; [done|]. cbn. by rewrite Hb.
  - destruct width as [|width]; [lia|]. cbn in Hx |- *. apply andb_true_iff in Hx as [-> Hx]. by rewrite (IH Hx width ltac:(lia)).
Qed.
Lemma scan_stop ok x b rest width : x <> [] -> forallb ok x = true -> ok b = false -> (length x <= width)%nat ->
  scan_set width ok (x ++ b :: rest) = Some (x, b :: rest).
Proof. intros Hne Hx Hb Hw. unfold scan_set. rewrite (span_stop _ _ _ _ _ Hx Hb Hw). by destruct x. Qed.
Lemma span_max width ok s : (length (fst (span width ok s)) <= width)%nat /\ forallb ok (fst (span width ok s)) = true.
Proof.
  revert s. induction width as [|width IH]; intros [|b s]; cbn; [by split; [lia|]..|]. destruct (ok b) eqn:Eb; [|by split; [cbn; lia|]].
  specialize (IH s). destruct (span width ok s) as [x rest]. cbn in IH |- *. rewrite Eb. destruct IH as [? ->]. split; [lia|done].
Qed.
Lemma scan_word_max s w : scan_word s = Some w -> (length w <= 255)%nat.
Proof.
  unfold scan_word, scan_set. pose proof (span_max 255 (negb ∘ isspace) (skip_space s)) as [Hw _]. revert Hw.
  generalize (skip_space s). intros s' Hw. destruct (span 255 (negb ∘ isspace) s') as [x rest]. cbn [fst] in Hw. by destruct x; [|intros [= <-]].
Qed.

Lemma c_str_app x rest : no_nul x -> c_str (x ++ Byte.x00 :: rest) = x.
Proof. induction 1 as [|b x Hb _ IH]; [done|]. cbn. by rewrite (proj2 (Z.eqb_neq _ _) Hb), IH. Qed.
Lemma stored_ok x rt : no_nul x -> (length x <= 255)%nat -> length rt = 256%nat ->
  c_str (splice 0 (x ++ [Byte.x00]) rt) = x /\ length (splice 0 (x ++ [Byte.x00]) rt) = 256%nat.
Proof.
  intros Hx Hl Hrt. rewrite length_splice by (rewrite length_app; cbn; lia). split; [|done].
  unfold splice. cbn [take app]. rewrite <- app_assoc. by apply c_str_app.
Qed.
Lemma scan_word_no_nul s w : no_nul s -> scan_word s = Some w -> no_nul w.
Proof.
  intros Hs. assert (no_nul (skip_space s)) as Hk by (induction Hs as [|b s Hb Hs IH]; [constructor|cbn; destruct (isspace b); [done|by constructor]]).
  unfold scan_word, scan_set. revert Hk. generalize (skip_space s), 255%nat. clear. intros s n Hs.
  assert (no_nul (fst (span n (negb ∘ isspace) s))) as Hsp.
  { revert n. induction Hs as [|b s Hb Hs IH]; intros [|n]; cbn; try constructor. destruct (negb (isspace b)); [|constructor].
    specialize (IH n). destruct (span n _ s). by constructor. }
  destruct (span n _ s) as [x rest]. cbn in Hsp. by destruct x; [|intros [= <-]].
Qed.

(** What a line of a back trace becomes.  In a line [path(_name+offset] the mangled name is found, and what
    [__cxa_demangle] makes of it is the result; when it makes nothing, the result has always 256
    characters: the first word of the line and a NUL, and what was in the buffer behind them. *)
Theorem demangle_line cxa path name rest : path <> [] -> forallb (not_in (str "(")) path = true ->
  forallb (not_in (str ")+")) name = true -> (length name < 255)%nat -> no_nul (path ++ str "(_" ++ name ++ str "+" ++ rest) ->
  let line := path ++ str "(_" ++ name ++ str "+" ++ rest in
  match cxa (str "_" ++ name) with
  | Some v => demangle cxa line = v
  | None => length (demangle cxa line) = 256%nat \/ scan_word line = None
  end /\ forall w, cxa (str "_" ++ name) = None -> scan_word line = Some w -> c_str (demangle cxa line) = w.
Proof.
  intros Hne Hp Hn Hl Hnul line. assert (scan_symbol line = Some (str "_" ++ name)) as Hs.
  { unfold scan_symbol, line. change (str "(_" ++ name ++ str "+" ++ rest) with (Byte.x28 :: (str "_" ++ name) ++ Byte.x2b :: rest).
    rewrite (scan_stop _ path) by (done || (rewrite length_app; lia)). cbn [mbind option_bind].
    change (Byte.x28 :: (str "_" ++ name) ++ Byte.x2b :: rest) with ([Byte.x28] ++ Byte.x5f :: name ++ Byte.x2b :: rest).
    rewrite (scan_stop _ [Byte.x28]) by (done || (cbn; lia)). cbn [mbind option_bind].
    change (Byte.x5f :: name ++ Byte.x2b :: rest) with ((str "_" ++ name) ++ Byte.x2b :: rest). rewrite (scan_stop _ (str "_" ++ name)); [done..|].
    cbn. lia. }
  assert (no_nul (str "_" ++ name)) as Hnn.
  { unfold no_nul in *. rewrite !Forall_app in *. destruct Hnul as (_ & H1 & H2 & _). split; [|done]. by repeat constructor. }
  destruct (stored_ok (str "_" ++ name) (repeat Byte.x00 256) Hnn) as [E1 E2]; [cbn; lia|by rewrite repeat_length|].
  unfold demangle. rewrite Hs, E1. destruct (cxa (str "_" ++ name)) as [v|]; [done|].
  destruct (scan_word line) as [w|] eqn:Ew; [|split; [by right|done]].
  destruct (stored_ok w _ (scan_word_no_nul line w Hnul Ew) (scan_word_max _ _ Ew) E2) as [E3 E4]. split; [by left|]. by intros w' _ [= <-].
Qed.

(** ** A file system to run the model with: paths and modes *)

Module SampleFs.
Definition fs := list (bytes * Z).
Definition mode (f : fs) (p : bytes) : option Z := snd <$> List.find (fun e => bool_decide (fst e = p)) f.
Definition present f p := match mode f p with Some _ => true | None => false end.
Definition is_dir f p : bool := match mode f p with Some m => Z.land m 61440 =? S_IFDIR | None => false end.
Definition gone (p : bytes) (f : fs) : fs := List.filter (fun e => negb (bool_decide (fst e = p))) f.
Definition child (p : bytes) (e : bytes * Z) : option (bytes * Z) :=
  let n := Basename (fst e) in
  if bool_decide (Dirname (fst e) = p) && negb (empty n) && bool_decide (c_str n = n)
  then Some (n, Z.shiftr (Z.land (snd e) 61440) 12) else None.

#[export] Instance posix : Posix fs := {
  lstat := mode; access := present;
  mkdir p f := if present f p || negb (is_dir f (Dirname p)) then (false, f) else (true, (p, 16877) :: f);
  rmdir p f := if is_dir f p && (length (omap (child p) f) =? 0)%nat then (true, gone p f) else (false, f);
  unlink p f := if present f p && negb (is_dir f p) then (true, gone p f) else (false, f);
  rename p q f := match mode f p with Some m => (true, (q, m) :: gone p (gone q f)) | None => (false, f) end;
  symlink p q f := if present f q then (false, f) else (true, (q, 41471) :: f);
  realpath f p := if present f p then Some p else None;
  readdir f p := if (length p <? PATH_MAX)%nat && is_dir f p then Some (omap (child p) f) else None;
  first_line f p := None; process_exists f p := false;
  open_append p f := if present f p then (negb (is_dir f p), f)
                     else if is_dir f (Dirname p) then (true, (p, 33188) :: f) else (false, f) }.

Lemma mode_gone p f : mode (gone p f) p = None.
Proof.
  unfold mode, gone. induction f as [|[q m] f IH]; [done|]. cbn [List.filter fst]. case_bool_decide; [done|]. cbn [negb List.find fst].
  by rewrite bool_decide_false.
Qed.

#[export] Instance posix_laws : PosixLaws fs.
Proof.
  split.
  - intros p f f'. cbn. destruct (_ || _); [done|]. intros [= <-]. unfold present, mode. cbn [List.find fst].
    rewrite bool_decide_true by done. split; [done|]. intros q. by case_bool_decide.
  - intros p f f'. cbn. destruct (_ || _); [by intros [= <-]|done].
  - intros p f f'. cbn. destruct (_ && _); [|done]. intros [= <-]. apply mode_gone.
  - intros p f f'. cbn. destruct (_ && _); [done|]. by intros [= <-].
  - intros p f f'. cbn. destruct (_ && _); [|done]. intros [= <-]. apply mode_gone.
  - intros f p l m. cbn -[Nat.ltb]. destruct (length p <? PATH_MAX)%nat; cbn [andb]; [|by intros [=]]. unfold is_dir. intros Hr Hm. rewrite Hm in Hr. cbn [andb] in Hr.
    destruct (Z.eqb_spec (Z.land m 61440) S_IFDIR); [by left|done].
  - intros f p l. cbn -[Nat.ltb]. destruct (Nat.ltb_spec (length p) PATH_MAX); cbn [andb]; [done|by intros [=]].
  - intros f p l n t. cbn. destruct (_ && _); [|done]. intros [= <-] Hn. apply list_elem_of_omap in Hn as ([q m] & _ & E).
    unfold child in E. cbn [fst snd] in E. destruct (bool_decide (_ = p)); [|done]. destruct (Basename q) eqn:Eq; [done|]. cbn [negb empty andb] in E.
    case_bool_decide; [|done]. by injection E as <- <-.
Qed.

Definition some_files : fs :=
  [(str "/", 16877); (str "/etc", 16877); (str "/etc/a.yml", 33188); (str "/etc/b.txt", 33188); (str "/etc/sub", 16877);
   (str "/etc/sub/c.yml", 33188); (str "/etc/run.sock", 49645)].
End SampleFs.
Import SampleFs.

Lemma Mkdir_makes_all_witness : exists ok f', Mkdir (str "/var/log/x") some_files = Ok ok f' /\
  (ok = true -> forall d, d ∈ [str "/var"; str "/var/log"; str "/var/log/x"] -> access f' d = true).
Proof.
  destruct (Mkdir_makes_all (str "/var/log/x") some_files) as [_ (_ & ok & f' & E & Ha)]; [done|].
  exists ok, f'. split; [exact E|]. intros Hok. exact (Ha Hok eq_refl).
Defined.
Example Mkdir_run : match Mkdir (str "/var/log/x") some_files with Ok ok f => ok && access f (str "/var/log") | _ => false end = true.
Proof. reflexivity. Qed.

Lemma ListAllFile_lists_witness :
  List.In (str "/etc/sub/c.yml") (ListAllFile (S PATH_MAX) some_files (str "/etc") (str ".yml")).
Proof.
  apply (ListAllFile_lists (str ".yml") some_files (str "/etc") (str "/etc/sub/c.yml")); [done|].
  apply (file_under some_files (str ".yml") (str "/etc") (omap (child (str "/etc")) some_files) (str "sub"));
    [reflexivity|reflexivity|by apply list_elem_of_In; vm_compute; tauto|reflexivity|].
  apply (file_here some_files (str ".yml") (str "/etc/sub") [(str "c.yml", DT_REG)] (str "c.yml")); [reflexivity|reflexivity|by left|].
  by exists (str "c").
Defined.

Lemma Rm_removes_witness :
  (exists r f', Rm (S PATH_MAX) (str "/etc") some_files = Ok r f' /\ (r = true -> lstat f' (str "/etc") = None)) /\
  Rm (S PATH_MAX) (str "/etc/run.sock") some_files = Ok false some_files.
Proof.
  split; [by apply (Rm_removes (str "/etc") some_files)|].
  destruct (Rm_removes (str "/etc/run.sock") some_files) as [_ Hs]; [done|]. apply (Hs 49645); [reflexivity|by left].
Defined.

Lemma Symlink_inverted_witness : returned (Symlink 1 (str "/etc/a.yml") (str "/etc/link") some_files) = Some false.
Proof. rewrite (Symlink_inverted 1 (str "/etc/a.yml") (str "/etc/link") some_files some_files); reflexivity. Defined.

Lemma demangle_line_witness : let line := str "./server(_ZN4wyze3runEv+0x1d) [0x55]" in
  demangle (fun s => if bool_decide (s = str "_ZN4wyze3runEv") then Some (str "wyze::run()") else None) line = str "wyze::run()" /\
  length (demangle (fun _ => None) line) = 256%nat.
Proof.
  split.
  - refine (proj1 (demangle_line (fun s => if bool_decide (s = str "_ZN4wyze3runEv") then Some (str "wyze::run()") else None)
      (str "./server") (str "ZN4wyze3runEv") (str "0x1d) [0x55]") _ _ _ _ _)); [done..|cbn; lia|by repeat constructor].
  - destruct (proj1 (demangle_line (fun _ => None) (str "./server") (str "ZN4wyze3runEv") (str "0x1d) [0x55]") ltac:(done) eq_refl eq_refl
      ltac:(cbn; lia) ltac:(by repeat constructor))) as [E|E]; [exact E|done].
Defined.
