(* ===== verification/Env.v ===== *)
(** * The environment of a program (src/wyze/env.h, src/wyze/env.cpp)

    Arguments and options, help texts, and the paths that other parts ask for.  The read-write lock
    is left out: no method calls another one while it holds it.  What [init] logs about a bad
    argument is left out too. *)

From S2P Require Import Yaml Prelude Http Util.

Record Env := mkEnv {
  m_args : gmap bytes bytes; m_helps : list (bytes * bytes); m_program : bytes; m_exe : bytes; m_cwd : bytes }.
Definition new_Env : Env := mkEnv ∅ [] [] [] [].
Definition with_args a e := mkEnv a (m_helps e) (m_program e) (m_exe e) (m_cwd e).
Definition with_helps h e := mkEnv (m_args e) h (m_program e) (m_exe e) (m_cwd e).

(** ** Options *)

Definition add (key val : bytes) : M Env unit := modify (fun e => with_args (<[key := val]> (m_args e)) e).
Definition has (key : bytes) (e : Env) : bool := bool_decide (is_Some (m_args e !! key)).
Definition del (key : bytes) : M Env unit := modify (fun e => with_args (base.delete key (m_args e)) e).
Definition env_get (key default_value : bytes) (e : Env) : bytes := default default_value (m_args e !! key).

Definition dash : byte := Byte.x2d.
(** The [for] loop of [init] over [argv[1]] and what follows; the arguments are C strings, and the
    first byte of an empty one is its NUL. *)
Fixpoint init_args (args : list bytes) (now_key : option bytes) : M Env bool :=
  match args with
  | [] => match now_key with Some k => add k [] ;;; ret true | None => ret true end
  | arg :: args =>
      if bool_decide (head arg = Some dash) then
        if (1 <? length arg)%nat then
          (match now_key with Some k => add k [] | None => ret tt end) ;;;
          init_args args (Some (tail arg))
        else ret false
      else match now_key with
           | Some k => add k arg ;;; init_args args None
           | None => ret false
           end
  end.

(** What [std::string = link_content] reads: the 1024 bytes that [readlink] filled in part, zero
    behind; there is no NUL when the link is as long. *)
Definition link_content (link : option bytes) : option bytes :=
  match link with
  | None => Some []
  | Some l => if (length l <? 1024)%nat then Some (c_str l) else if decide (Byte.x00 ∈ take 1024 l) then Some (c_str l) else None
  end.
(** [init(argc, argv)]; [link] is what [/proc/<pid>/exe] links to, nothing when [readlink] fails. *)
Definition init (link : option bytes) (argv : list bytes) : M Env bool :=
  exe <- or_undef out_of_bounds (link_content link) ;;
  let cwd := match rfind slash exe with Some pos => take (S pos) exe | None => [] end in
  modify (fun e => mkEnv (m_args e) (m_helps e) (m_program e) exe cwd) ;;;
  match argv with
  | [] => undef null_deref
  | program :: args =>
      modify (fun e => mkEnv (m_args e) (m_helps e) program (m_exe e) (m_cwd e)) ;;;
      init_args args None
  end.

(** ** Help *)

Definition removeHelp (key : bytes) : M Env unit :=
  modify (fun e => with_helps (filter (fun h => h.1 <> key) (m_helps e)) e).
Definition addHelp (key desc : bytes) : M Env unit :=
  removeHelp key ;;; modify (fun e => with_helps (m_helps e ++ [(key, desc)]) e).
(** [printHelp()]: what it prints; [setw(5)] pads the dash with four spaces. *)
Definition newline : bytes := [Byte.x0a].
Definition printHelp (e : Env) : bytes :=
  str "Usage: " ++ m_program e ++ str " [options]" ++ newline ++
  concat ((fun h => str "    -" ++ h.1 ++ str " : " ++ h.2 ++ newline) <$> m_helps e).

(** ** The variables of the process, which [setenv] and [getenv] keep *)

Definition getEnv (vars : bytes -> option bytes) (key default_value : bytes) : bytes := default default_value (vars (c_str key)).

(** ** Paths *)

Definition getAbsolutePath (path : bytes) (e : Env) : bytes :=
  match path with
  | [] => [slash]
  | b :: _ => if decide (b = slash) then path else m_cwd e ++ path
  end.
(** [getAbsoluteWorkPath(path)]; [work_path] is the variable [server.work_path], if there is one
    of texts: a null pointer is made a [std::string] otherwise. *)
Definition getAbsoluteWorkPath {S} (work_path : option bytes) (path : bytes) : M S bytes :=
  match path with
  | [] => ret [slash]
  | b :: _ =>
      if decide (b = slash) then ret path
      else w <- or_undef null_deref work_path ;; ret (w ++ str "/" ++ path)
  end.
Definition getConfigPath (e : Env) : bytes := getAbsolutePath (env_get (str "c") (str "conf") e) e.
