(* ===== verification/EnvSpec.v ===== *)
(** * Properties of the environment: which arguments it takes, and what it makes of them *)

From S2P Require Import Yaml Prelude Http Util UtilSpec Env.

(** An option, and its arguments: a key behind a dash, and a value that does not start with one *)
Definition option_ok (o : bytes * option bytes) : Prop := o.1 <> [] /\ forall v, o.2 = Some v -> head v <> Some dash.
Definition value_args (v : option bytes) : list bytes := match v with Some v => [v] | None => [] end.
Definition print_option (o : bytes * option bytes) : list bytes := (dash :: o.1) :: value_args o.2.
Definition print_options (opts : list (bytes * option bytes)) : list bytes := concat (print_option <$> opts).
(** What options set: a later one wins, and the value of an option without one is empty. *)
Definition set_options (opts : list (bytes * option bytes)) (m : gmap bytes bytes) : gmap bytes bytes :=
  foldl (fun m o => <[o.1 := default [] o.2]> m) m opts.
Definition set_pending (now_key : option bytes) (m : gmap bytes bytes) : gmap bytes bytes :=
  match now_key with Some k => <[k := []]> m | None => m end.

Lemma with_args_args a b e : with_args a (with_args b e) = with_args a e.
Proof. done. Qed.
Lemma init_args_key k rest now e : k <> [] ->
  init_args ((dash :: k) :: rest) now e = init_args rest (Some k) (with_args (set_pending now (m_args e)) e).
Proof. intros Hk. destruct k as [|b k]; [done|]. destruct now; [done|]. by destruct e. Qed.
Lemma init_args_value v rest k e : head v <> Some dash ->
  init_args (v :: rest) (Some k) e = init_args rest None (with_args (<[k := v]> (m_args e)) e).
Proof. intros Hv. cbn [init_args]. by rewrite bool_decide_false. Qed.

Lemma init_args_printed opts : forall now e, Forall option_ok opts ->
  init_args (print_options opts) now e = Ok true (with_args (set_options opts (set_pending now (m_args e))) e).
Proof.
  induction opts as [|[k o] opts IH]; intros now e Hok.
  { destruct now; [done|]. by destruct e. }
  apply Forall_cons in Hok as [[Hk Hv] Hok]. cbn [fst snd] in *.
  change (print_options ((k, o) :: opts)) with ((dash :: k) :: value_args o ++ print_options opts).
  rewrite init_args_key by done. destruct o as [v|]; cbn [value_args app].
  - rewrite init_args_value by by apply Hv. by rewrite IH.
  - by rewrite IH.
Qed.

(** Arguments that are taken are printed options, behind the value of a pending one. *)
Lemma init_args_taken args : forall now e, exists b e', init_args args now e = Ok b e' /\
  m_program e' = m_program e /\ m_exe e' = m_exe e /\ m_cwd e' = m_cwd e /\ m_helps e' = m_helps e /\
  (b = true -> exists v opts, Forall option_ok opts /\ args = value_args v ++ print_options opts /\
     (is_Some v -> is_Some now) /\ forall x, v = Some x -> head x <> Some dash).
Proof.
  induction args as [|arg args IH]; intros now e.
  { exists true, (with_args (set_pending now (m_args e)) e). split; [destruct now; [done|by destruct e]|]. split_and!; [done..|].
    intros _. exists None, []. split_and!; [by constructor|done|by intros []|done]. }
  cbn [init_args]. destruct (bool_decide (head arg = Some dash)) eqn:Ed.
  - apply bool_decide_eq_true in Ed. destruct arg as [|b k]; [done|]. injection Ed as ->.
    destruct k as [|c k]; [exists false, e; by split_and!|].
    change (1 <? length (dash :: c :: k))%nat with true. cbn match. cbn [tail].
    destruct (IH (Some (c :: k)) (with_args (set_pending now (m_args e)) e)) as (b & e' & E & H1 & H2 & H3 & H4 & Hb).
    exists b, e'. split; [destruct now; [exact E|by destruct e]|]. split_and!; [done..|].
    intros (v & opts & Hok & -> & _ & Hv)%Hb. exists None, ((c :: k, v) :: opts). split_and!; [|done|by intros []|done].
    constructor; [|done]. split; [done|]. intros x. apply Hv.
  - apply bool_decide_eq_false in Ed. destruct now as [k|]; [|exists false, e; by split_and!].
    destruct (IH None (with_args (<[k := arg]> (m_args e)) e)) as (b & e' & E & H1 & H2 & H3 & H4 & Hb).
    exists b, e'. split; [exact E|]. split_and!; [done..|]. intros (v & opts & Hok & -> & Hs & _)%Hb.
    destruct v as [v|]; [destruct (Hs ltac:(done)); congruence|]. exists (Some arg), opts. split_and!; [done..|]. by intros ? [= <-].
Qed.

Lemma init_takes_ok link program args e : c_str link = link -> (length link < 1024)%nat ->
  exists b e', init (Some link) (program :: args) e = Ok b e' /\ m_program e' = program /\ m_helps e' = m_helps e /\
  m_cwd e' ++ Basename link = m_exe e' /\ m_exe e' = link /\
  (b = true <-> exists opts, Forall option_ok opts /\ args = print_options opts) /\
  (forall opts, Forall option_ok opts -> args = print_options opts -> m_args e' = set_options opts (m_args e)).
Proof.
  intros Hl Hlen. unfold init, link_content. rewrite (proj2 (Nat.ltb_lt _ _) Hlen), Hl, bind_some, bind_modify.
  rewrite bind_modify. set (cwd := match rfind slash link with Some _ => _ | None => _ end).
  set (e0 := mkEnv _ _ program _ _).
  destruct (init_args_taken args None e0) as (b & e' & E & H1 & H2 & H3 & H4 & Hb). exists b, e'.
  split_and!; [exact E|done|done| |done|split|].
  - rewrite H3, H2. subst e0 cwd. cbn [m_cwd m_exe]. unfold Basename. destruct link as [|c l]; [done|]. cbn [empty].
    destruct (rfind slash (c :: l)) as [pos|]; [apply (take_drop (S pos))|done].
  - intros (v & opts & Hok & -> & Hs & _)%Hb. destruct v; [by destruct (Hs ltac:(done))|]. by exists opts.
  - intros (opts & Hok & ->). rewrite init_args_printed in E by done. by injection E.
  - intros opts Hok ->. rewrite init_args_printed in E by done. by injection E as <- <-.
Qed.

(** [init] takes options, and nothing else.  With a link of less than 1024 bytes it returns: true
    exactly when the arguments are options, each a dash with its key and perhaps a value that
    starts with no dash; the options are then set, the last of those with the same key; and the
    directory of the program is what is left of its name without its base name. *)
Theorem init_takes_options link program args e : c_str link = link -> (length link < 1024)%nat ->
  exists b e', init (Some link) (program :: args) e = Ok b e' /\ m_program e' = program /\ m_helps e' = m_helps e /\
  m_cwd e' ++ Basename link = m_exe e' /\ m_exe e' = link /\
  (b = true <-> exists opts, Forall option_ok opts /\ args = print_options opts) /\
  (forall opts, Forall option_ok opts -> args = print_options opts -> m_args e' = set_options opts (m_args e)).
Proof. apply init_takes_ok. Qed.

Definition sample_args : list bytes := [str "/opt/wyze/app"; str "-c"; str "conf"; str "-d"; str "-c"; str "etc"].
Lemma init_takes_options_witness : exists e', init (Some (str "/opt/wyze/app")) sample_args new_Env = Ok true e' /\
  m_cwd e' = str "/opt/wyze/" /\ env_get (str "c") [] e' = str "etc" /\ has (str "d") e' = true.
Proof.
  destruct (init_takes_options (str "/opt/wyze/app") (str "/opt/wyze/app") (tail sample_args) new_Env) as (b & e' & E & _ & _ & H1 & H2 & H3 & H4);
    [reflexivity|vm_compute; lia|].
  assert (exists opts, Forall option_ok opts /\ tail sample_args = print_options opts /\
    opts = [(str "c", Some (str "conf")); (str "d", None); (str "c", Some (str "etc"))]) as (opts & Hok & Ho & Eo).
  { exists [(str "c", Some (str "conf")); (str "d", None); (str "c", Some (str "etc"))].
    split_and!; [|reflexivity|reflexivity]. repeat constructor; try done; by intros v [= <-]. }
  exists e'. rewrite (proj2 H3) in E by (exists opts; by split). split; [exact E|].
  rewrite H2 in H1. split; [by apply (app_inv_tail (str "app"))|].
  unfold env_get, has. rewrite (H4 opts Hok Ho), Eo. split; [reflexivity|]. apply bool_decide_eq_true. by eexists.
Defined.

(** Every key has one help text, the last that was added. *)
Lemma addHelp_ok key desc e : exists e', addHelp key desc e = Ok tt e' /\ m_helps e' = filter (fun h => h.1 <> key) (m_helps e) ++ [(key, desc)] /\
  (NoDup (fst <$> m_helps e) -> NoDup (fst <$> m_helps e')).
Proof.
  eexists. split_and!; [reflexivity|reflexivity|]. cbn [m_helps with_helps]. intros Hn. rewrite fmap_app, NoDup_app. split_and!.
  - induction (m_helps e) as [|h l IH]; [done|]. cbn in Hn. apply NoDup_cons in Hn as [Hh Hn]. rewrite filter_cons.
    destruct (decide _); [|by apply IH]. cbn. apply NoDup_cons. split; [|by apply IH].
    intros (y & E & [_ Hy]%list_elem_of_filter)%list_elem_of_fmap. apply Hh. rewrite E. by apply list_elem_of_fmap_2.
  - intros k (y & -> & [Hy _]%list_elem_of_filter)%list_elem_of_fmap. by intros ?%list_elem_of_singleton.
  - apply NoDup_singleton.
Qed.
