(* ===== verification/Resolve.v ===== *)
(** * Names and interfaces (src/wyze/address.h, src/wyze/address.cpp)

    Addresses of all families, and how they are found: by name, by number, or by the name of an
    interface.  [getaddrinfo] and [getifaddrs] are the class [Resolver]. *)

From S2P Require Import Socket Prelude Codec Http Address.

(** A [sockaddr] as the system gives it *)
Inductive sockaddr :=
  | SaIn (a : IPv4Address)
  | SaIn6 (a : IPv6Address) (flowinfo scope_id : Z)
  | SaOther (family : Z) (data : bytes).
(** An entry of [getifaddrs]: [ifa_addr] may be null, and so may [ifa_netmask], which is of its family. *)
Inductive ifa_addr :=
  | IfIn (a : IPv4Address) (netmask : option Z)
  | IfIn6 (a : IPv6Address) (flowinfo scope_id : Z) (netmask : option (list Z))
  | IfOther (family : Z).
Class Resolver := {
  (* node, service, ai_flags, ai_family, ai_socktype, ai_protocol; nothing when it fails *)
  getaddrinfo : bytes -> option bytes -> Z -> Z -> Z -> Z -> option (list sockaddr);
  getifaddrs : option (list (bytes * option ifa_addr)) }.
(** When [getaddrinfo] succeeds, it gives some address. *)
Class ResolverLaws `{Resolver} :=
  getaddrinfo_some : forall node service flags family type protocol, getaddrinfo node service flags family type protocol <> Some [].

Definition AF_UNSPEC : Z := 0.
Definition AI_NUMERICHOST : Z := 4.

(** ** The classes of addresses; a [UnixAddress] by its length and path *)

Inductive Address :=
  | V4 (a : IPv4Address)
  | V6 (a : IPv6Address) (flowinfo scope_id : Z)
  | Unix (m_length : Z) (path : bytes)
  | Unknown (family : Z) (data : bytes).
Definition address_family (a : Address) : Z :=
  match a with V4 a => sin_family a | V6 _ _ _ => AF_INET6 | Unix _ _ => AF_UNIX | Unknown f _ => f end.
(** The first [getAddrLen()] bytes of [getAddr()] *)
Definition address_memory (a : Address) : bytes :=
  match a with
  | V4 a => getAddr a
  | V6 a flowinfo scope_id => le_split 2 AF_INET6 ++ le_split 2 (sin6_port a) ++ le_split 4 flowinfo ++
      (byte.of_Z <$> s6_addr a) ++ le_split 4 scope_id
  | Unix m_length path => take (Z.to_nat m_length) (le_split 2 AF_UNIX ++ path ++ repeat Byte.x00 (108 - length path))
  | Unknown f data => le_split 2 f ++ data
  end.
(** What [Socket] takes of an address *)
Definition to_Addr (a : Address) : Addr := mkAddr (address_family a) (address_memory a).

(** [Address::Create(addr, addrlen)] of an address that is not null *)
Definition Address_Create (addr : sockaddr) : Address :=
  match addr with SaIn a => V4 a | SaIn6 a fl sc => V6 a fl sc | SaOther f d => Unknown f d end.
(** [std::dynamic_pointer_cast<IPAddress>], and [setPort] of what it gives *)
Definition as_ip (a : Address) : option Address := match a with V4 _ | V6 _ _ _ => Some a | _ => None end.
Definition ip_setPort (v : Z) (a : Address) : Address :=
  match a with V4 a => V4 (setPort v a) | V6 a fl sc => V6 (mkIPv6 (htons v) (s6_addr a)) fl sc | a => a end.

Section resolve.
Context `{Resolver} {S : Type}.

(** [Lookup(result, host, family, type, protocol)]: what is appended to [result] *)
Definition Address_Lookup (host : bytes) (family type protocol : Z) : option (list Address) :=
  let '(node, service) := lookup_args host in
  (fun l : list sockaddr => Address_Create <$> l) <$> getaddrinfo node service 0 family type protocol.
Definition LookupAny (host : bytes) (family type protocol : Z) : M S (option Address) :=
  match Address_Lookup host family type protocol with
  | Some result => a <- or_undef out_of_bounds (head result) ;; ret (Some a)
  | None => ret None
  end.
Definition LookupAnyIPAddress (host : bytes) (family type protocol : Z) : option Address :=
  Address_Lookup host family type protocol ≫= fun result => head (omap as_ip result).

(** [IPAddress::Create(addr, port)] *)
Definition IPAddress_Create (addr : bytes) (port : Z) : M S (option Address) :=
  match getaddrinfo addr None AI_NUMERICHOST AF_UNSPEC 0 0 with
  | None => ret None
  | Some results => a <- or_undef null_deref (head results) ;; ret (ip_setPort port <$> as_ip (Address_Create a))
  end.

(** [GetInterfaceAddresses(multimap, family)]: the entries in the order in which they are inserted.
    One turn of its loop: *)
Definition interface_address (family : Z) (addr : ifa_addr) : M S (option (Address * Z)) :=
  let sa_family := match addr with IfIn _ _ => AF_INET | IfIn6 _ _ _ _ => AF_INET6 | IfOther f => f end in
  if negb (family =? AF_UNSPEC) && negb (family =? sa_family) then ret None
  else match addr with
       | IfIn a netmask =>
           m <- or_undef null_deref netmask ;;
           prefix_len <- or_undef no_fuel (CountBytes 4 m) ;; ret (Some (V4 a, prefix_len))
       | IfIn6 a fl sc netmask =>
           m <- or_undef null_deref netmask ;;
           bits <- or_undef no_fuel (mapM (CountBytes 1) m) ;; ret (Some (V6 a fl sc, u32 (foldr Z.add 0 bits)))
       | IfOther _ => ret None
       end.
Fixpoint interface_entries (family : Z) (l : list (bytes * option ifa_addr)) : M S (list (bytes * (Address * Z))) :=
  match l with
  | [] => ret []
  | (ifa_name, addr) :: l =>
      addr <- or_undef null_deref addr ;;
      r <- interface_address family addr ;;
      rest <- interface_entries family l ;;
      ret (match r with Some x => (ifa_name, x) :: rest | None => rest end)
  end.
Definition AllInterfaceAddresses (family : Z) : M S (option (list (bytes * (Address * Z)))) :=
  match getifaddrs with
  | None => ret None
  | Some l => r <- interface_entries family l ;; ret (Some r)
  end.
(** [GetInterfaceAddresses(vector, iface, family)]: entries of one name stay in their order. *)
Definition GetInterfaceAddresses (iface : bytes) (family : Z) : M S (option (list (Address * Z))) :=
  if empty iface || bool_decide (iface = str "*") then
    ret (Some ((if (family =? AF_INET) || (family =? AF_UNSPEC) then [(V4 (new_IPv4Address 0 0), 0)] else []) ++
               (if (family =? AF_INET6) || (family =? AF_UNSPEC) then [(V6 (mkIPv6 0 (repeat 0 16)) 0 0, 0)] else [])))
  else
    results <- AllInterfaceAddresses family ;;
    ret ((fun l : list _ => snd <$> filter (fun e => e.1 = iface) l) <$> results).
End resolve.

(** ** Text forms

    [inet_ntop] and [inet_pton] are the class [InetText]; the first does not fail with the buffers that the
    code gives it. *)

Class InetText := {
  inet_ntop4 : Z -> bytes; inet_ntop6 : list Z -> bytes;
  inet_pton4 : bytes -> option Z; inet_pton6 : bytes -> option (list Z) }.

Section texts.
Context `{InetText}.

(** [insert(os)] of the classes, and with it [toString()] and [operator<<] *)
Definition address_text (a : Address) : bytes :=
  match a with
  | V4 a => inet_ntop4 (s_addr a) ++ str ":" ++ dec (bswap 2 (sin_port a))
  | V6 a _ _ => str "[" ++ inet_ntop6 (s6_addr a) ++ str "]:" ++ dec (bswap 2 (sin6_port a))
  | Unix _ path => c_str path
  | Unknown family _ => str "[UnknownAddress family=" ++ dec family ++ str "]"
  end.

(** [IPv4Address::Create(address, port)] and [IPv6Address::Create(address, port)] *)
Definition IPv4Address_Create (address : bytes) (port : Z) : option IPv4Address :=
  mkIPv4 AF_INET (htons port) <$> inet_pton4 (c_str address).
Definition IPv6Address_Create (address : bytes) (port : Z) : option IPv6Address :=
  mkIPv6 (htons port) <$> inet_pton6 (c_str address).
(** [IPv6Address(address, port)] of sixteen bytes fails an assertion. *)
Definition new_IPv6Address_of {S} (addr : list Z) (port : Z) : M S IPv6Address :=
  throw (assert_failed "false").
End texts.
