(* ===== verification/AddressSpec.v ===== *)
(** * Subnets, and the splitting of host texts *)

From S2P Require Import Socket Prelude Codec CodecSpec Http HttpSpec Address Resolve.

(** ** Byte swapping, bit by bit *)

Lemma testbit_byte b i : 8 <= i -> Z.testbit (byte.unsigned b) i = false.
Proof.
  intros Hi. pose proof (byte.unsigned_range b). rewrite Z.bits_above_log2; [done|lia|].
  destruct (Z.eq_dec (byte.unsigned b) 0) as [->|Hb]; [cbn; lia|].
  apply Z.lt_le_trans with 8; [|done]. apply Z.log2_lt_pow2; lia.
Qed.

Lemma testbit_combine l : forall i, 0 <= i -> Z.testbit (le_combine l) i =
  match l !! Z.to_nat (i / 8) with Some b => Z.testbit (byte.unsigned b) (i mod 8) | None => false end.
Proof.
  induction l as [|b l IH]; intros i Hi; [apply Z.bits_0|].
  change (le_combine (b :: l)) with (Z.lor (byte.unsigned b) (Z.shiftl (le_combine l) 8)).
  rewrite Z.lor_spec, Z.shiftl_spec by done. destruct (Z.lt_ge_cases i 8) as [H8|H8].
  - rewrite (Z.testbit_neg_r _ (i - 8)), orb_false_r by lia.
    rewrite Z.div_small, Z.mod_small by lia. done.
  - rewrite testbit_byte, orb_false_l, IH by lia.
    replace (i / 8) with ((i - 8) / 8 + 1) by (rewrite <- Z.div_add by lia; f_equal; lia).
    rewrite Z2Nat.inj_add by (try apply Z.div_pos; lia). rewrite Nat.add_1_r. cbn [lookup list_lookup].
    replace (i mod 8) with ((i - 8) mod 8); [done|].
    replace i with (i - 8 + 1 * 8) at 2 by lia. by rewrite Z_mod_plus_full.
Qed.

Lemma lookup_le_split n : forall v k, (k < n)%nat ->
  le_split n v !! k = Some (byte.of_Z (Z.shiftr v (8 * Z.of_nat k))).
Proof.
  induction n as [|n IH]; intros v k Hk; [lia|]. destruct k as [|k].
  - cbn. by rewrite Z.shiftr_0_r.
  - change (le_split (S n) v !! S k) with (le_split n (Z.shiftr v 8) !! k). rewrite IH by lia. rewrite Z.shiftr_shiftr by lia. do 3 f_equal. lia.
Qed.

Lemma testbit_of_Z v j : 0 <= j < 8 -> Z.testbit (byte.unsigned (byte.of_Z v)) j = Z.testbit v j.
Proof.
  intros Hj. rewrite byte.unsigned_of_Z. unfold byte.wrap. by rewrite Z.mod_pow2_bits_low by lia.
Qed.

Lemma testbit_bswap n v i : 0 <= i < 8 * Z.of_nat n ->
  Z.testbit (bswap n v) i = Z.testbit v (8 * (Z.of_nat n - 1 - i / 8) + i mod 8).
Proof.
  intros Hi. unfold bswap. rewrite testbit_combine by lia.
  pose proof (Z.mod_pos_bound i 8 ltac:(lia)). pose proof (Z.div_mod i 8 ltac:(lia)) as Hd.
  assert (0 <= i / 8 < Z.of_nat n) as Hq by (split; [apply Z.div_pos; lia|apply Z.div_lt_upper_bound; lia]).
  rewrite rev_alt. fold (reverse (le_split n v)). rewrite reverse_lookup by (rewrite length_le_split; lia).
  rewrite length_le_split, lookup_le_split by lia. rewrite testbit_of_Z, Z.shiftr_spec by lia. f_equal. lia.
Qed.

Lemma swapped_range n i : 0 <= i < 8 * Z.of_nat n -> 0 <= 8 * (Z.of_nat n - 1 - i / 8) + i mod 8 < 8 * Z.of_nat n.
Proof.
  intros Hi. pose proof (Z.mod_pos_bound i 8 ltac:(lia)). pose proof (Z.div_mod i 8 ltac:(lia)).
  assert (0 <= i / 8 < Z.of_nat n) by (split; [apply Z.div_pos; lia|apply Z.div_lt_upper_bound; lia]). lia.
Qed.

Lemma high_bit w z i : 0 <= w -> in_u w z -> w <= i -> Z.testbit z i = false.
Proof.
  intros Hw Hz Hi. unfold in_u in Hz. destruct (Z.eq_dec z 0) as [->|Hn]; [by rewrite Z.bits_0|].
  apply Z.bits_above_log2; [lia|]. apply Z.lt_le_trans with w; [|done]. apply Z.log2_lt_pow2; lia.
Qed.

(** Words of 4 bytes that agree on their bits are equal. *)
Lemma word_ext a b : in_u 32 a -> in_u 32 b -> (forall i, 0 <= i < 32 -> Z.testbit a i = Z.testbit b i) -> a = b.
Proof.
  intros Ha Hb H. apply Z.bits_inj'. intros i Hi. destruct (Z.lt_ge_cases i 32) as [Hl|Hl]; [by apply H|].
  by rewrite !(high_bit 32) by (done || lia).
Qed.
Lemma lor_range a b : in_u 32 a -> in_u 32 b -> in_u 32 (Z.lor a b).
Proof.
  unfold in_u. intros Ha Hb. assert (0 <= Z.lor a b) as H0 by (apply Z.lor_nonneg; lia). split; [done|]. destruct (Z.eq_dec (Z.lor a b) 0) as [->|Hn]; [lia|].
  apply Z.log2_lt_pow2; [lia|]. rewrite Z.log2_lor by lia.
  apply Z.max_lub_lt.
  - destruct (Z.eq_dec a 0) as [->|]; [cbn; lia|]. apply Z.log2_lt_pow2; lia.
  - destruct (Z.eq_dec b 0) as [->|]; [cbn; lia|]. apply Z.log2_lt_pow2; lia.
Qed.
Lemma land_range a b : in_u 32 a -> in_u 32 b -> in_u 32 (Z.land a b).
Proof.
  unfold in_u. intros Ha Hb. assert (0 <= Z.land a b) as H0 by (apply Z.land_nonneg; lia). split; [done|].
  destruct (Z.eq_dec (Z.land a b) 0) as [->|Hn]; [lia|]. apply Z.log2_lt_pow2.
  - lia.
  - pose proof (Z.log2_land a b ltac:(lia) ltac:(lia)). destruct (Z.eq_dec a 0) as [->|]; [by rewrite Z.land_0_l in Hn|].
    assert (Z.log2 a < 32) by (apply Z.log2_lt_pow2; lia). lia.
Qed.
Lemma u32_range v : in_u 32 (u32 v).
Proof. by apply uwrap_range. Qed.
Lemma not_bit v i : 0 <= i < 32 -> Z.testbit (u32 (Z.lnot v)) i = negb (Z.testbit v i).
Proof. intros Hi. unfold u32, uwrap. rewrite Z.mod_pow2_bits_low, Z.lnot_spec by lia. done. Qed.

Lemma htonl_range v : in_u 32 (htonl v).
Proof. exact (bswap_range 4 v). Qed.
Lemma htonl_lor a b : htonl (Z.lor a b) = Z.lor (htonl a) (htonl b).
Proof.
  apply word_ext; [apply htonl_range|apply lor_range; apply htonl_range|]. intros i Hi. unfold htonl.
  rewrite Z.lor_spec, !testbit_bswap by lia. apply Z.lor_spec.
Qed.
Lemma htonl_land a b : htonl (Z.land a b) = Z.land (htonl a) (htonl b).
Proof.
  apply word_ext; [apply htonl_range|apply land_range; apply htonl_range|]. intros i Hi. unfold htonl.
  rewrite Z.land_spec, !testbit_bswap by lia. apply Z.land_spec.
Qed.
Lemma htonl_not v : htonl (u32 (Z.lnot v)) = u32 (Z.lnot (htonl v)).
Proof.
  apply word_ext; [apply htonl_range|apply u32_range|]. intros i Hi. pose proof (swapped_range 4 i ltac:(lia)).
  rewrite not_bit by done. unfold htonl. rewrite !testbit_bswap, not_bit by lia. done.
Qed.
Lemma htonl_htonl v : in_u 32 v -> htonl (htonl v) = v.
Proof. intros Hv. by apply (bswap_bswap 4). Qed.

(** ** Masks *)

Lemma CreateMask_ok {S} p (s : S) : 2 <= p <= 32 -> CreateMask 4 p s = Ok (2 ^ (32 - p) - 1) s.
Proof.
  intros Hp. assert (0 < 2 ^ (32 - p) <= 2 ^ 30) as Hb.
  { split; [apply Z.pow_pos_nonneg; lia|apply Z.pow_le_mono_r; lia]. }
  unfold CreateMask. change (4 * 8) with 32. replace (u64 (32 - p)) with (32 - p)
    by (symmetry; apply uwrap_id; fits).
  rewrite (proj2 (Z.ltb_lt (32 - p) 32)) by lia. unfold s32. rewrite swrap_id by fits.
  unfold sadd32. rewrite (proj2 (in_sb_spec _ _)) by fits. rewrite bind_some.
  unfold ret. f_equal. rewrite uwrap_id by (unfold in_u; change (8 * 4) with 32; lia). lia.
Qed.

Lemma CreateMask_0 {S} (s : S) : CreateMask 4 0 s = Undef bad_shift.
Proof. reflexivity. Qed.
Lemma CreateMask_1 {S} (s : S) : CreateMask 4 1 s = Undef signed_overflow.
Proof. reflexivity. Qed.

(** The host part of an address, set and cleared. *)
Lemma clear_low a k : 0 <= k <= 32 -> in_u 32 a -> Z.land a (u32 (Z.lnot (2 ^ k - 1))) = a / 2 ^ k * 2 ^ k.
Proof.
  intros Hk Ha. rewrite <- Z.shiftr_div_pow2, <- Z.shiftl_mul_pow2, <- Z.ldiff_ones_r by lia.
  rewrite Z.ones_equiv, <- Z.sub_1_r. apply Z.bits_inj'. intros i Hi. rewrite Z.land_spec, Z.ldiff_spec.
  destruct (Z.lt_ge_cases i 32) as [Hl|Hl]; [by rewrite not_bit|]. by rewrite (high_bit 32 a).
Qed.
Lemma set_low a k : 0 <= k -> Z.lor a (2 ^ k - 1) = a / 2 ^ k * 2 ^ k + (2 ^ k - 1).
Proof.
  intros Hk. rewrite <- Z.shiftr_div_pow2, <- Z.shiftl_mul_pow2 by lia.
  assert (2 ^ k - 1 = Z.ones k) as -> by (rewrite Z.ones_equiv; lia).
  rewrite Z.add_nocarry_lxor.
  - apply Z.bits_inj'. intros i Hi. rewrite Z.lor_spec, Z.lxor_spec, Z.shiftl_spec, Z.testbit_ones_nonneg by lia.
    destruct (Z.ltb_spec i k) as [Hl|Hl].
    + by rewrite (Z.testbit_neg_r _ (i - k)), orb_true_r by lia.
    + rewrite Z.shiftr_spec by lia. replace (i - k + k) with i by lia. by rewrite orb_false_r, xorb_false_r.
  - apply Z.bits_inj'. intros i Hi. rewrite Z.land_spec, Z.shiftl_spec, Z.testbit_ones_nonneg, Z.bits_0 by lia.
    destruct (Z.ltb_spec i k) as [Hl|Hl]; [by rewrite Z.testbit_neg_r by lia|apply andb_false_r].
Qed.

(** The prefix lengths, each counted in its mask. *)
Lemma count_masks p : 0 <= p <= 32 -> CountBytes 4 (htonl (2 ^ 32 - 2 ^ (32 - p))) = Some p.
Proof.
  intros Hp. assert (Forall (fun n => CountBytes 4 (htonl (2 ^ 32 - 2 ^ (32 - Z.of_nat n))) = Some (Z.of_nat n)) (seq 0 33)) as H.
  { by repeat constructor. }
  rewrite Forall_forall in H. specialize (H (Z.to_nat p)). rewrite Z2Nat.id in H by lia. apply H.
  apply elem_of_seq. lia.
Qed.

Lemma addr_of_bits address port f : with_addr (new_IPv4Address address port) (htonl f) = new_IPv4Address f port.
Proof. done. Qed.

(** The subnet of an IPv4 address.  For a prefix of 2 to 32 bits the broadcast address has
    the host bits all set and the network address has them cleared, with the lowest bit set
    (the first host of the subnet, where the name promises the network itself); both keep the
    port.  The subnet mask has the leading [prefix] bits set, and [CountBytes] finds [prefix]
    in it.  Longer prefixes give no address; a prefix of 0 shifts an [int] by its width and a
    prefix of 1 overflows it. *)
Theorem ipv4_subnet address port prefix :
  in_u 32 address -> in_u 16 port -> 0 <= prefix ->
  let x := new_IPv4Address address port in
  let size := 2 ^ (32 - prefix) in
  getPort x = port /\
  (2 <= prefix <= 32 ->
    broadcastAddress prefix x tt = Ok (Some (new_IPv4Address (address / size * size + (size - 1)) port)) tt /\
    networkAddress prefix x tt = Ok (Some (new_IPv4Address (Z.lor (address / size * size) 1) port)) tt /\
    subnetMask prefix tt = Ok (new_IPv4Address (2 ^ 32 - size) 0) tt /\
    CountBytes 4 (s_addr (new_IPv4Address (2 ^ 32 - size) 0)) = Some prefix) /\
  (32 < prefix -> broadcastAddress prefix x tt = Ok None tt /\ networkAddress prefix x tt = Ok None tt) /\
  (prefix < 2 ->
    let u := if prefix =? 0 then bad_shift else signed_overflow in
    broadcastAddress prefix x tt = Undef u /\ networkAddress prefix x tt = Undef u /\ subnetMask prefix tt = Undef u).
Proof.
  intros Ha Hport Hp x size. split; [by apply (bswap_bswap 2)|]. split_and!.
  - intros Hp'. unfold broadcastAddress, networkAddress, subnetMask.
    rewrite (proj2 (Z.ltb_ge 32 prefix)) by lia. rewrite !(bind_ok _ _ _ _ _ (CreateMask_ok _ _ Hp')).
    fold size. unfold ret. cbn [s_addr x new_IPv4Address]. rewrite <- htonl_not, <- htonl_land, <- !htonl_lor.
    unfold size. rewrite clear_low, set_low by (done || lia). split_and!; [done|done| |by apply count_masks; lia].
    unfold new_IPv4Address. do 3 f_equal.
    assert (0 < 2 ^ (32 - prefix) <= 2 ^ 32) by (split; [apply Z.pow_pos_nonneg; lia|apply Z.pow_le_mono_r; lia]).
    unfold Z.lnot, u32, uwrap. symmetry. apply Z.mod_unique with (-1); lia.
  - intros Hl. unfold broadcastAddress, networkAddress. by rewrite (proj2 (Z.ltb_lt 32 prefix)).
  - intros Hl. unfold broadcastAddress, networkAddress, subnetMask. rewrite (proj2 (Z.ltb_ge 32 prefix)) by lia.
    destruct (Z.eqb_spec prefix 0) as [->|Hn]; [done|]. by assert (prefix = 1) as -> by lia.
Qed.

Lemma ipv4_subnet_witness :
  broadcastAddress 24 (new_IPv4Address 3232236810 80) tt = Ok (Some (new_IPv4Address 3232237055 80)) tt /\
  networkAddress 24 (new_IPv4Address 3232236810 80) tt = Ok (Some (new_IPv4Address 3232236801 80)) tt.
Proof.
  destruct (proj1 (proj2 (ipv4_subnet 3232236810 80 24 ltac:(fits) ltac:(fits) ltac:(lia))) ltac:(lia))
    as (Hb & Hn & _). exact (conj Hb Hn).
Defined.

(** ** Host texts *)

Lemma memchr_none c s : (c ∉ s) -> memchr c s = None.
Proof.
  induction s as [|b s IH]; intros Hn; cbn [memchr]; [done|]. apply not_elem_of_cons in Hn as [Hb Hs].
  destruct (Byte.byte_eq_dec b c) as [E|_]; [by symmetry in E|]. by rewrite IH.
Qed.
Lemma memchr_app c s t : (c ∉ s) -> memchr c (s ++ c :: t) = Some (s, c :: t).
Proof.
  induction s as [|b s IH]; intros Hn; cbn [memchr app].
  - by destruct (Byte.byte_eq_dec c c).
  - apply not_elem_of_cons in Hn as [Hb Hs]. destruct (Byte.byte_eq_dec b c) as [E|_]; [by symmetry in E|].
    by rewrite IH.
Qed.
Lemma memchr_some c s : (c ∈ s) -> exists p q, memchr c s = Some (p, q).
Proof.
  induction s as [|b s IH]; intros Hs; [by apply elem_of_nil in Hs|]. cbn [memchr].
  destruct (Byte.byte_eq_dec b c) as [->|Hb]; [eauto|].
  apply elem_of_cons in Hs as [Hc|Hs]; [by symmetry in Hc|]. destruct (IH Hs) as (p & q & ->). eauto.
Qed.

Definition open_bracket : byte := Byte.x5b.

(** The split of a text that does not begin with a bracket. *)
Lemma lookup_args_plain host : head host <> Some open_bracket -> lookup_args host =
  let '(node, service) :=
    match memchr colon host with
    | Some (before, at_colon) =>
        match memchr colon (tail at_colon) with
        | None => (before, Some (tail at_colon))
        | Some _ => ([], Some at_colon)
        end
    | None => ([], None)
    end in
  (c_str (match node with [] => host | _ => node end), c_str <$> service).
Proof. intros Hh. destruct host as [|b host]; [done|]. by destruct b. Qed.

(** How [Lookup] splits a host text without NULs.  A text without a colon is the node
    alone; [node:service] and [[node]:service] are split at the colon and the bracket, and
    [[node]] is a node in brackets.  A text with two colons or more and no brackets, which an
    IPv6 address is, is taken as the node, but everything from its first colon on is still
    handed to [getaddrinfo] as the service. *)
Theorem lookup_splits (node service : bytes) :
  node <> [] -> no_nul node -> no_nul service -> head node <> Some open_bracket ->
  ((colon ∉ node) -> lookup_args node = (node, None)) /\
  ((colon ∉ node) -> (colon ∉ service) -> lookup_args (node ++ colon :: service) = (node, Some service)) /\
  ((bracket ∉ node) -> service <> [] ->
    lookup_args (open_bracket :: node ++ bracket :: colon :: service) = (node, Some service)) /\
  ((bracket ∉ node) -> lookup_args (open_bracket :: node ++ [bracket]) = (node, None)) /\
  ((colon ∉ node) -> (colon ∈ service) ->
    lookup_args (node ++ colon :: service) = (node ++ colon :: service, Some (colon :: service))).
Proof.
  intros Hne Hnul Hsnul Hh.
  assert (forall t, head (node ++ t) <> Some open_bracket) as Hh' by (intros t; by destruct node).
  assert (no_nul (node ++ colon :: service)) as Hall by (apply Forall_app; split; [done|by constructor]).
  split_and!.
  - intros Hc. rewrite lookup_args_plain, memchr_none by done. by rewrite c_str_id.
  - intros Hc Hs. rewrite lookup_args_plain, memchr_app by done. cbn [tail]. rewrite memchr_none by done.
    cbn. rewrite (c_str_id service) by done. destruct node; [done|]. by rewrite c_str_id.
  - intros Hb Hs. unfold lookup_args, open_bracket. rewrite memchr_app by done.
    destruct service as [|b service]; [done|]. replace (3 <=? length (c_str (bracket :: colon :: b :: service)))%nat with true.
    + destruct (Byte.byte_eq_dec colon colon); [|done]. destruct node as [|c node]; [done|].
      rewrite c_str_id by done. cbn [fmap option_fmap option_map]. by rewrite c_str_id.
    + rewrite c_str_id; [done|]. by do 2 (constructor; [done|]).
  - intros Hb. unfold lookup_args, open_bracket. rewrite memchr_app by done.
    destruct node as [|c node]; [done|]. by rewrite c_str_id.
  - intros Hc Hs. rewrite lookup_args_plain, memchr_app by done. cbn [tail].
    destruct (memchr_some colon service Hs) as (p & q & ->). cbn [fmap option_fmap option_map].
    rewrite !c_str_id; [done|by constructor|]. by destruct node.
Qed.

Lemma lookup_splits_witness :
  lookup_args (str "wyze" ++ colon :: str "80") = (str "wyze", Some (str "80")) /\
  lookup_args (open_bracket :: str "wyze" ++ bracket :: colon :: str "80") = (str "wyze", Some (str "80")).
Proof.
  destruct (lookup_splits (str "wyze") (str "80")) as (_ & H1 & H2 & _).
  - done.
  - by repeat constructor.
  - by repeat constructor.
  - done.
  - split.
    + apply H1; by apply (bool_decide_unpack _).
    + apply H2; [by apply (bool_decide_unpack _)|done].
Defined.

(** ** Addresses come back from their texts *)

(** What the texts look like, and that numbers are looked up without a name server. *)
Class InetLaws `{InetText, Resolver} := {
  ntop4_plain : forall a, in_u 32 a -> inet_ntop4 a <> [] /\ no_nul (inet_ntop4 a) /\ (colon ∉ inet_ntop4 a) /\ head (inet_ntop4 a) <> Some open_bracket;
  ntop6_plain : forall l, length l = 16%nat -> Forall (in_u 8) l ->
    inet_ntop6 l <> [] /\ no_nul (inet_ntop6 l) /\ (bracket ∉ inet_ntop6 l) /\ head (inet_ntop6 l) <> Some open_bracket;
  pton4_ntop4 : forall a, in_u 32 a -> inet_pton4 (inet_ntop4 a) = Some a;
  pton6_ntop6 : forall l, length l = 16%nat -> Forall (in_u 8) l -> inet_pton6 (inet_ntop6 l) = Some l;
  numeric4 : forall a port family type protocol, in_u 32 a -> in_u 16 port -> family = Socket.AF_INET \/ family = AF_UNSPEC ->
    exists rest, getaddrinfo (inet_ntop4 a) (Some (dec port)) 0 family type protocol = Some (SaIn (mkIPv4 AF_INET (htons port) a) :: rest);
  numeric6 : forall l port family type protocol, length l = 16%nat -> Forall (in_u 8) l -> in_u 16 port -> family = AF_INET6 \/ family = AF_UNSPEC ->
    exists rest, getaddrinfo (inet_ntop6 l) (Some (dec port)) 0 family type protocol = Some (SaIn6 (mkIPv6 (htons port) l) 0 0 :: rest) }.

Lemma htons_htons port : in_u 16 port -> bswap 2 (htons port) = port.
Proof. intros Hp. by apply (bswap_bswap 2). Qed.
Lemma dec_digits n : in_u 32 n -> forallb HttpSpec.is_digit (dec n) = true /\ HttpSpec.dec_value (dec n) = n /\ dec n <> [].
Proof.
  intros Hn. unfold dec. destruct (pretty_dec (Z.to_N (u32 n))) as (Hd & Hv & Hne). split_and!; [done| |done].
  unfold u32 in *. rewrite Hv, uwrap_id, Z2N.id by (done || unfold in_u in Hn; lia). done.
Qed.
Lemma digits_plain s : forallb HttpSpec.is_digit s = true -> no_nul s /\ (colon ∉ s) /\ head s <> Some open_bracket.
Proof.
  intros Hs. rewrite forallb_forall in Hs. assert (forall b, b ∈ s -> 48 <= byte.unsigned b <= 57) as Hd.
  { intros b Hb%list_elem_of_In%Hs. unfold HttpSpec.is_digit in Hb. lia. }
  split_and!.
  - apply Forall_forall. intros b Hb%Hd E. rewrite E in Hb. cbn in Hb. lia.
  - intros Hb%Hd. cbn in Hb. lia.
  - destruct s as [|b s]; [done|]. intros [= ->]. specialize (Hd open_bracket ltac:(apply elem_of_cons; by left)). cbn in Hd. lia.
Qed.
Lemma dec_plain n : in_u 32 n -> no_nul (dec n) /\ (colon ∉ dec n) /\ dec n <> [].
Proof. intros Hn. destruct (dec_digits n Hn) as (Hd & _ & Hne). by destruct (digits_plain _ Hd) as (? & ? & _). Qed.

Section texts.
Context `{InetLaws} {S : Type}.

(** What an IP address prints is looked up without asking anybody and gives the address back, with its port; the
    number alone makes the same address. *)
Theorem address_text_roundtrip port type protocol (s : S) : in_u 16 port ->
  (forall a family, in_u 32 a -> family = Socket.AF_INET \/ family = AF_UNSPEC ->
     let x := mkIPv4 AF_INET (htons port) a in
     LookupAny (address_text (V4 x)) family type protocol s = Ok (Some (V4 x)) s /\ IPv4Address_Create (inet_ntop4 a) port = Some x) /\
  (forall l family, length l = 16%nat -> Forall (in_u 8) l -> family = AF_INET6 \/ family = AF_UNSPEC ->
     let x := mkIPv6 (htons port) l in
     LookupAny (address_text (V6 x 0 0)) family type protocol s = Ok (Some (V6 x 0 0)) s /\ IPv6Address_Create (inet_ntop6 l) port = Some x).
Proof.
  intros Hp. destruct (dec_plain port) as (Hnul & Hcol & Hne); [unfold in_u in *; lia|]. split.
  - intros a family Ha Hf x. destruct (ntop4_plain a Ha) as (N1 & N2 & N3 & N4). split.
    + unfold address_text, x. cbn [s_addr sin_port]. rewrite htons_htons by done. unfold LookupAny, Address_Lookup.
      change (inet_ntop4 a ++ str ":" ++ dec port) with (inet_ntop4 a ++ colon :: dec port).
      destruct (lookup_splits (inet_ntop4 a) (dec port) N1 N2 Hnul N4) as (_ & -> & _); [|done..].
      destruct (numeric4 a port family type protocol Ha Hp Hf) as [rest ->]. done.
    + unfold IPv4Address_Create. by rewrite c_str_id, pton4_ntop4.
  - intros l family Hl Hb Hf x. destruct (ntop6_plain l Hl Hb) as (N1 & N2 & N3 & N4). split.
    + unfold address_text, x. cbn [s6_addr sin6_port]. rewrite htons_htons by done. unfold LookupAny, Address_Lookup.
      change (str "[" ++ inet_ntop6 l ++ str "]:" ++ dec port) with (open_bracket :: inet_ntop6 l ++ bracket :: colon :: dec port).
      destruct (lookup_splits (inet_ntop6 l) (dec port) N1 N2 Hnul N4) as (_ & _ & -> & _); [|done..].
      destruct (numeric6 l port family type protocol Hl Hb Hp Hf) as [rest ->]. done.
    + unfold IPv6Address_Create. by rewrite c_str_id, pton6_ntop6.
Qed.
End texts.

(** A numeric notation to run the model with: IPv4 addresses as decimals, IPv6 addresses as letters. *)
Module SampleText.
Definition two_letters (b : Z) : bytes := [byte.of_Z (97 + b / 16); byte.of_Z (97 + b mod 16)].
Fixpoint of_letters (s : bytes) : list Z :=
  match s with x :: y :: s => (byte.unsigned x - 97) * 16 + (byte.unsigned y - 97) :: of_letters s | _ => [] end.
#[export] Instance text : InetText := {
  inet_ntop4 := dec; inet_ntop6 l := concat (two_letters <$> l);
  inet_pton4 s := Some (HttpSpec.dec_value s); inet_pton6 s := Some (of_letters s) }.
#[export] Instance numeric : Resolver := {
  getaddrinfo node service _ _ _ _ :=
    let port := htons (from_option HttpSpec.dec_value 0 service) in
    Some [if forallb HttpSpec.is_digit node then SaIn (mkIPv4 AF_INET port (HttpSpec.dec_value node)) else SaIn6 (mkIPv6 port (of_letters node)) 0 0];
  getifaddrs := None }.

Lemma letter b : in_u 8 b -> byte.unsigned (byte.of_Z (97 + b / 16)) = 97 + b / 16 /\ byte.unsigned (byte.of_Z (97 + b mod 16)) = 97 + b mod 16.
Proof.
  intros Hb. unfold in_u in Hb. pose proof (Z.mod_pos_bound b 16 ltac:(lia)). pose proof (Z.div_lt_upper_bound b 16 16 ltac:(lia) ltac:(lia)).
  pose proof (Z.div_pos b 16 ltac:(lia) ltac:(lia)). rewrite !byte.unsigned_of_Z. unfold byte.wrap. by rewrite !Z.mod_small by lia.
Qed.
Lemma letters_back l : Forall (in_u 8) l -> of_letters (concat (two_letters <$> l)) = l /\ Forall (fun b => 97 <= byte.unsigned b < 113) (concat (two_letters <$> l)).
Proof.
  induction 1 as [|b l Hb Hl [IH1 IH2]]; [done|].
  change (concat (two_letters <$> b :: l)) with (two_letters b ++ concat (two_letters <$> l)).
  set (t := concat (two_letters <$> l)) in *. unfold two_letters. cbn [app of_letters]. destruct (letter b Hb) as [E1 E2].
  pose proof (Z.mod_pos_bound b 16 ltac:(lia)). unfold in_u in Hb. pose proof (Z.div_lt_upper_bound b 16 16 ltac:(lia) ltac:(lia)). pose proof (Z.div_pos b 16 ltac:(lia) ltac:(lia)).
  split; [|repeat constructor; lia || done]. rewrite IH1, E1, E2. f_equal. pose proof (Z.div_mod b 16 ltac:(lia)). lia.
Qed.
#[export] Instance text_laws : InetLaws.
Proof.
  assert (forall l, length l = 16%nat -> Forall (in_u 8) l -> forallb HttpSpec.is_digit (inet_ntop6 l) = false /\ inet_ntop6 l <> []) as H6.
  { intros l Hl Hb. destruct (letters_back l Hb) as [_ Hc]. destruct l as [|b l]; [done|]. split; [|done]. cbn in *. apply Forall_cons in Hc as [Hc _].
    unfold HttpSpec.is_digit at 1. by rewrite (proj2 (Z.leb_gt _ 57)), andb_false_r by lia. }
  split.
  - intros a Ha. destruct (dec_digits a Ha) as (Hd & _ & Hne). destruct (digits_plain _ Hd) as (? & ? & ?). done.
  - intros l Hl Hb. destruct (letters_back l Hb) as [_ Hc]. destruct (H6 l Hl Hb) as [_ Hne]. rewrite Forall_forall in Hc. split_and!; [done| | |].
    + apply Forall_forall. intros b Hin%Hc E. rewrite E in Hin. cbn in Hin. lia.
    + intros Hin%Hc. cbn in Hin. lia.
    + change (inet_ntop6 l) with (concat (two_letters <$> l)) in *. destruct (concat (two_letters <$> l)) as [|b s]; [done|].
      intros [= ->]. specialize (Hc open_bracket ltac:(apply elem_of_cons; by left)). cbn in Hc. lia.
  - intros a Ha. cbn. f_equal. by destruct (dec_digits a Ha) as (_ & ? & _).
  - intros l Hl Hb. cbn. f_equal. by destruct (letters_back l Hb).
  - intros a port f t p Ha Hp _. destruct (dec_digits a Ha) as (Hd & Hv & _). destruct (dec_digits port) as (_ & Hv' & _); [unfold in_u in *; lia|].
    exists []. cbn [getaddrinfo numeric from_option inet_ntop4 text]. by rewrite Hd, Hv, Hv'.
  - intros l port f t p Hl Hb Hp _. destruct (H6 l Hl Hb) as [Hd _]. destruct (letters_back l Hb) as [Hv _].
    destruct (dec_digits port) as (_ & Hv' & _); [unfold in_u in *; lia|]. exists []. cbn [getaddrinfo numeric from_option]. rewrite Hd, Hv'.
    change (inet_ntop6 l) with (concat (two_letters <$> l)). by rewrite Hv.
Qed.
End SampleText.

Lemma address_text_roundtrip_witness : @LookupAny SampleText.numeric unit (@address_text SampleText.text (V4 (mkIPv4 AF_INET (htons 80) 16777343))) Socket.AF_INET 0 0 tt =
  Ok (Some (V4 (mkIPv4 AF_INET (htons 80) 16777343))) tt.
Proof.
  refine (proj1 (proj1 (@address_text_roundtrip SampleText.text SampleText.numeric SampleText.text_laws unit 80 0 0 tt _) 16777343 Socket.AF_INET _ _)).
  - unfold in_u. lia.
  - unfold in_u. lia.
  - by left.
Defined.
