(* ===== verification/Daemon.v ===== *)
(** * The daemon and its watchdog (src/wyze/daemon.h, src/wyze/daemon.cpp)

    The shared memory in which the threads of the child write their times, and the parent that waits
    for the child, kills it when a thread is late, and starts it again.  What [waitpid], [time] and
    the shared memory are at a turn of the parent's loop is an argument; the messages are left out. *)

From S2P Require Import Prelude Http.

Definition THREAD_INFO_ARRAY : nat := 30.
Record ThreadInfo := mkInfo { record_time : Z; thread_id : Z; thread_desc : bytes }.
Record DetectInfo := mkDetect { real_size : nat; interval : Z; infos : list ThreadInfo }.
(** [g_detectInfo] is null before [init_shm]. *)
Abbreviation Shm := (option DetectInfo).

Definition with_size n d := mkDetect n (interval d) (infos d).
Definition with_interval t d := mkDetect (real_size d) t (infos d).
Definition with_info i x d := mkDetect (real_size d) (interval d) (<[i := x]> (infos d)).
Definition the_shm : M Shm DetectInfo := s <- get ;; or_undef null_deref s.

(** [init_shm]: the system hands out memory that is zero. *)
Definition zero_info : ThreadInfo := mkInfo 0 0 (repeat Byte.x00 120).
Definition init_shm : M Shm unit := put (Some (mkDetect 0 (3 * 60) (repeat zero_info THREAD_INFO_ARRAY))).
Definition reset_real_size : M Shm unit := d <- the_shm ;; put (Some (with_size 0 d)).
Definition set_detect_interval (t : Z) : M Shm unit :=
  s <- get ;; match s with None => ret tt | Some d => put (Some (with_interval (u64 (t * 2)) d)) end.

(** ** update_thread_time *)

(** The search: the index of the entry of this thread, if it has one, from [i] on *)
Fixpoint find_thread (n i : nat) (tid : Z) (d : DetectInfo) : M Shm (option nat) :=
  match n with
  | O => ret None
  | S n =>
      x <- or_undef out_of_bounds (infos d !! i) ;;
      if thread_id x =? tid then ret (Some i) else find_thread n (S i) tid d
  end.
(** [strncpy(dst, src, n)] *)
Definition strncpy (n : nat) (dst src : bytes) : bytes := splice 0 (take n (c_str src ++ repeat Byte.x00 n)) dst.

(** What a thread does before it takes [s_mutex]: the result, or nothing when it goes on to register. *)
Definition update_search (tid now : Z) : M Shm (option Z) :=
  s <- get ;;
  match s with
  | None => ret (Some (-1))
  | Some d =>
      i <- find_thread (real_size d) 0 tid d ;;
      match i with
      | Some i =>
          x <- or_undef out_of_bounds (infos d !! i) ;;
          put (Some (with_info i (mkInfo now (thread_id x) (thread_desc x)) d)) ;;; ret (Some 0)
      | None => if (THREAD_INFO_ARRAY <=? real_size d)%nat then ret (Some (-1)) else ret None
      end
  end.
(** What it does under [s_mutex] *)
Definition update_register (tid : Z) (desc : bytes) (now : Z) : M Shm Z :=
  d <- the_shm ;;
  x <- or_undef out_of_bounds (infos d !! real_size d) ;;
  let n := if (length desc <? 120)%nat then length desc else 120%nat in
  put (Some (with_size (S (real_size d)) (with_info (real_size d) (mkInfo now tid (strncpy n (thread_desc x) desc)) d))) ;;;
  ret 0.
Definition update_thread_time (tid : Z) (desc : bytes) (now : Z) : M Shm Z :=
  r <- update_search tid now ;;
  match r with Some r => ret r | None => update_register tid desc now end.

(** ** The parent *)

(** [detect_thread_time(interval)] *)
Fixpoint is_late (n i : nat) (timestamp : Z) (d : DetectInfo) : M Shm bool :=
  match n with
  | O => ret false
  | S n =>
      x <- or_undef out_of_bounds (infos d !! i) ;;
      if record_time x <? timestamp then ret true else is_late n (S i) timestamp d
  end.
Definition detect_thread_time (t cur_time : Z) : M Shm Z :=
  s <- get ;;
  match s with
  | None => ret 1
  | Some d => late <- is_late (real_size d) 0 (u64 (cur_time - t)) d ;; ret (if late : bool then 1 else cur_time)
  end.

(** What [waitpid(pid, &status, WNOHANG)] gives: the child runs, is gone, or there was an error *)
Inductive status := Exited (code : Z) | Signaled (signal : Z).
Inductive waited := Running | Gone (st : status) | WaitFailed.
(** A turn of the inner loop: what [waitpid] gave, the shared memory, [time(nullptr)] in the condition
    and in [detect_thread_time] *)
Record turn := mkTurn { t_wait : waited; t_shm : Shm; t_now : Z; t_now' : Z }.

(** One turn while the child runs: [old_time] behind it, and is the child killed? *)
Definition check_turn (old_time : Z) (t : turn) : M Shm (Z * bool) :=
  d <- the_shm ;;
  if u64 (old_time + interval d) <? t_now t then
    old_time <- detect_thread_time (interval d) (t_now' t) ;; ret (old_time, old_time =? 1)
  else ret (old_time, false).
(** The inner loop, as long as there are turns: the turns in which the child was killed, and the
    status behind it, nothing when the child still runs.  [int status = 0] is a normal exit. *)
Fixpoint watch (old_time : Z) (turns : list turn) : option (list bool * option status) :=
  match turns with
  | [] => Some ([], None)
  | t :: turns =>
      match t_wait t with
      | Gone st => Some ([], Some st)
      | WaitFailed => Some ([], Some (Exited 0))
      | Running =>
          match check_turn old_time t (t_shm t) with
          | Ok (old_time, killed) _ =>
              match watch old_time turns with Some (kills, st) => Some (killed :: kills, st) | None => None end
          | _ => None
          end
      end
  end.
(** Is the child started again?  Otherwise, what [real_daemon] returns. *)
Definition after_child (st : status) : option Z :=
  match st with Exited rt => if negb (rt =? 64) then Some rt else None | Signaled _ => None end.

(** The outer loop: what [fork] did, and the child's life as the parent sees it.  The result is
    nothing while the parent goes on; [restart_count] counts the children that were started again. *)
Inductive life := ForkFailed | Forked (start : Z) (turns : list turn).
Fixpoint real_daemon (restart_count : Z) (lives : list life) : option (Z * option Z) :=
  match lives with
  | [] => Some (restart_count, None)
  | ForkFailed :: lives => real_daemon restart_count lives
  | Forked start turns :: lives =>
      match watch start turns with
      | Some (_, Some st) =>
          match after_child st with
          | Some rt => Some (restart_count, Some rt)
          | None => real_daemon (u32 (restart_count + 1)) lives
          end
      | Some (_, None) => Some (restart_count, None)
      | None => None
      end
  end.

(** [real_daemon(argc, argv, main_cb)] from its start, in the parent: the descriptor of the shared memory
    is -1 when there is none. *)
Definition daemonize (daemon_rt shmid : Z) (lives : list life) : option (option Z) :=
  if negb (daemon_rt =? 0) then Some (Some daemon_rt)
  else if shmid =? -1 then Some (Some shmid)
  else snd <$> real_daemon 0 lives.
