(* ===== verification/DaemonSpec.v ===== *)
(** * What the watchdog sees, and what it does *)

From S2P Require Import Prelude Http Daemon.

(** ** The shared memory *)

Definition shm_ok (d : DetectInfo) : Prop := length (infos d) = THREAD_INFO_ARRAY /\ (real_size d <= THREAD_INFO_ARRAY)%nat.
(** The entries in use *)
Definition entries (d : DetectInfo) : list ThreadInfo := take (real_size d) (infos d).
Definition threads (d : DetectInfo) : list Z := thread_id <$> entries d.

Lemma entry_at d i : shm_ok d -> (i < real_size d)%nat -> exists x, infos d !! i = Some x /\ entries d !! i = Some x.
Proof.
  intros [Hl Hr] Hi. destruct (lookup_lt_is_Some_2 (infos d) i) as [x Hx]; [lia|]. exists x. split; [done|].
  unfold entries. by rewrite lookup_take_lt.
Qed.

Lemma find_thread_ok d tid : shm_ok d -> forall n i s, (i + n = real_size d)%nat ->
  (forall k, (k < i)%nat -> threads d !! k <> Some tid) ->
  (exists k, find_thread n i tid d s = Ok (Some k) s /\ (k < real_size d)%nat /\ threads d !! k = Some tid) \/
  (find_thread n i tid d s = Ok None s /\ tid ∉ threads d).
Proof.
  intros Hd. induction n as [|n IH]; intros i s Hi Hb.
  - right. split; [done|]. intros [k Hk]%list_elem_of_lookup. apply (Hb k); [|done]. apply lookup_lt_Some in Hk as Hlt.
    unfold threads, entries in Hlt. rewrite length_fmap, length_take in Hlt. lia.
  - cbn [find_thread]. destruct (entry_at d i Hd ltac:(lia)) as (x & Hx & Hx'). rewrite Hx, bind_some.
    assert (threads d !! i = Some (thread_id x)) as Ht by (unfold threads; by rewrite list_lookup_fmap, Hx').
    destruct (Z.eqb_spec (thread_id x) tid) as [<-|Hne]; [left; exists i; split_and!; [done|lia|done]|].
    apply IH; [lia|]. intros k Hk. destruct (decide (k = i)) as [->|]; [rewrite Ht; congruence|apply Hb; lia].
Qed.

Definition registered tid (desc : bytes) now d x : DetectInfo :=
  with_size (S (real_size d)) (with_info (real_size d)
    (mkInfo now tid (strncpy (if (length desc <? 120)%nat then length desc else 120%nat) (thread_desc x) desc)) d).
Lemma register_ok tid desc now d x : infos d !! real_size d = Some x ->
  update_register tid desc now (Some d) = Ok 0 (Some (registered tid desc now d x)).
Proof.
  intros Hx. unfold update_register, the_shm. rewrite bind_assoc. change (bind get ?k ?s) with (k s s). cbn beta.
  by rewrite bind_some, Hx, bind_some.
Qed.

(** What a call does: the entry of the thread gets the time, or is added behind the others; the
    threads in use stay different.  Nothing happens when there is no place. *)
Lemma update_ok tid desc now d : shm_ok d -> NoDup (threads d) -> exists r d', update_thread_time tid desc now (Some d) = Ok r (Some d') /\
  shm_ok d' /\ NoDup (threads d') /\ interval d' = interval d /\
  (r = 0 -> exists i x, entries d' !! i = Some x /\ thread_id x = tid /\ record_time x = now /\
     forall k, k <> i -> (k < real_size d)%nat -> entries d' !! k = entries d !! k) /\
  (r <> 0 -> r = -1 /\ d' = d /\ real_size d = THREAD_INFO_ARRAY /\ tid ∉ threads d).
Proof.
  intros Hd Hn. pose proof Hd as [Hl Hr]. unfold update_thread_time, update_search.
  rewrite bind_assoc. change (bind get ?k ?s) with (k s s). cbn beta match.
  destruct (find_thread_ok d tid Hd (real_size d) 0 (Some d) eq_refl) as [(i & E & Hi & Ht)|(E & Hnew)]; [by intros ? ?%Nat.nlt_0_r| |].
  - rewrite bind_assoc, (bind_ok _ _ _ _ _ E). destruct (entry_at d i Hd Hi) as (x & Hx & Hx'). rewrite Hx, bind_assoc, bind_some.
    assert (thread_id x = tid) as Hid by (unfold threads in Ht; rewrite list_lookup_fmap, Hx' in Ht; by injection Ht).
    set (y := mkInfo now (thread_id x) (thread_desc x)). exists 0, (with_info i y d).
    assert (forall k, entries (with_info i y d) !! k = if decide (k = i) then Some y else entries d !! k) as He.
    { intros k. unfold entries. cbn. destruct (decide (k < real_size d)%nat) as [Hk|Hk].
      - rewrite !lookup_take_lt by done. case_decide as Hki; [subst; apply list_lookup_insert_eq; lia|by apply list_lookup_insert_ne].
      - rewrite !lookup_take_ge by lia. by rewrite decide_False by lia. }
    assert (threads (with_info i y d) = threads d) as Hth.
    { apply list_eq. intros k. unfold threads. rewrite !list_lookup_fmap, He. case_decide as Hki; [|done]. subst k. by rewrite Hx'. }
    split_and!; [done|split; [cbn; by rewrite length_insert|done]|by rewrite Hth|done| |done].
    intros _. exists i, y. split_and!; [by rewrite He, decide_True|done|done|]. intros k Hk _. by rewrite He, decide_False.
  - rewrite bind_assoc, (bind_ok _ _ _ _ _ E). destruct (Nat.leb_spec THREAD_INFO_ARRAY (real_size d)) as [Hfull|Hroom].
    { exists (-1), d. split_and!; [done..|]. intros _. split_and!; [done|done|lia|done]. }
    destruct (lookup_lt_is_Some_2 (infos d) (real_size d)) as [x Hx]; [lia|]. rewrite bind_ret, (register_ok _ _ _ _ _ Hx). unfold registered.
    set (y := mkInfo now tid _). exists 0, (with_size (S (real_size d)) (with_info (real_size d) y d)).
    assert (entries (with_size (S (real_size d)) (with_info (real_size d) y d)) = entries d ++ [y]) as He.
    { unfold entries. cbn. rewrite (take_S_r _ _ y) by (apply list_lookup_insert_eq; lia). f_equal. by rewrite take_insert_ge. }
    assert (length (entries d) = real_size d) as Hlen by (unfold entries; rewrite length_take; lia).
    split_and!; [done|split; [cbn; by rewrite length_insert|cbn; lia]| |done| |done].
    + unfold threads. rewrite He, fmap_app. apply NoDup_app. split_and!; [done| |apply NoDup_singleton].
      intros t Hin ->%list_elem_of_singleton. by apply Hnew.
    + intros _. exists (real_size d), y. split_and!; [by rewrite He, lookup_app_r, Hlen, Nat.sub_diag by lia|done|done|].
      intros k _ Hk. rewrite He. by apply lookup_app_l; lia.
Qed.

(** Two threads that register at once: both search, and see the last place free, before one of them
    takes the lock; the second one then writes behind the array. *)
Lemma register_race tid1 tid2 desc1 desc2 now d : shm_ok d -> real_size d = 29%nat -> tid1 ∉ threads d -> tid2 ∉ threads d ->
  (update_search tid1 now ;;; update_search tid2 now ;;; update_register tid1 desc1 now ;;; update_register tid2 desc2 now) (Some d) =
  Undef out_of_bounds /\ update_search tid1 now (Some d) = Ok None (Some d) /\ update_search tid2 now (Some d) = Ok None (Some d).
Proof.
  intros Hd Hsize H1 H2. assert (forall tid, tid ∉ threads d -> update_search tid now (Some d) = Ok None (Some d)) as Hs.
  { intros tid Ht. unfold update_search. change (bind get ?k ?s) with (k s s). cbn beta match.
    destruct (find_thread_ok d tid Hd (real_size d) 0 (Some d) eq_refl) as [(i & _ & _ & Hi)|(E & _)]; [by intros ? ?%Nat.nlt_0_r| |].
    - destruct Ht. by eapply list_elem_of_lookup_2.
    - rewrite (bind_ok _ _ _ _ _ E), Hsize. done. }
  split_and!; [|by apply Hs..]. rewrite (bind_ok _ _ _ _ _ (Hs tid1 H1)), (bind_ok _ _ _ _ _ (Hs tid2 H2)). destruct Hd as [Hl _].
  destruct (lookup_lt_is_Some_2 (infos d) (real_size d)) as [x Hx]; [rewrite Hl, Hsize; unfold THREAD_INFO_ARRAY; lia|].
  rewrite (bind_ok _ _ _ _ _ (register_ok tid1 desc1 now d x Hx)). unfold update_register, the_shm. rewrite bind_assoc.
  change (bind get ?k ?s) with (k s s). cbn beta. rewrite bind_some.
  cbn [infos registered with_size with_info real_size]. rewrite lookup_ge_None_2; [done|]. rewrite length_insert, Hl, Hsize. unfold THREAD_INFO_ARRAY. lia.
Qed.

(** ** The watchdog *)

Lemma is_late_ok d timestamp : shm_ok d -> forall n i s, (i + n = real_size d)%nat ->
  is_late n i timestamp d s = Ok (existsb (fun x => record_time x <? timestamp) (drop i (entries d))) s.
Proof.
  intros Hd. induction n as [|n IH]; intros i s Hi.
  - rewrite drop_ge; [done|]. unfold entries. rewrite length_take. lia.
  - cbn [is_late]. destruct (entry_at d i Hd ltac:(lia)) as (x & Hx & Hx'). rewrite Hx, bind_some, (drop_S _ _ _ Hx').
    cbn [existsb]. destruct (record_time x <? timestamp); [done|]. apply IH. lia.
Qed.
Lemma detect_ok t now d : shm_ok d -> detect_thread_time t now (Some d) =
  Ok (if existsb (fun x => record_time x <? u64 (now - t)) (entries d) then 1 else now) (Some d).
Proof.
  intros Hd. unfold detect_thread_time. change (bind get ?k ?s) with (k s s). cbn beta match.
  by rewrite (bind_ok _ _ _ _ _ (is_late_ok d _ Hd (real_size d) 0 (Some d) eq_refl)), drop_0.
Qed.

(** A turn in which the child runs, with the interval [t] and times that do not wrap *)
Definition running (t : Z) (x : turn) (d : DetectInfo) : Prop :=
  t_wait x = Running /\ t_shm x = Some d /\ shm_ok d /\ interval d = t /\ 1 < t_now x <= t_now' x /\ t <= t_now' x < 2 ^ 64.
Lemma check_turn_ok t old x d : running t x d -> 0 <= t -> 0 <= old -> old + t < 2 ^ 64 ->
  check_turn old x (t_shm x) =
    if old + t <? t_now x
    then let late := existsb (fun y => record_time y <? t_now' x - t) (entries d) in Ok (if late then 1 else t_now' x, late) (Some d)
    else Ok (old, false) (Some d).
Proof.
  intros (_ & -> & Hd & Ht & Hnow & Hr) H0 Hold Hmax. unfold check_turn, the_shm. rewrite bind_assoc.
  change (bind get ?k ?s) with (k s s). cbn beta. rewrite bind_some, Ht. replace (u64 (old + t)) with (old + t) by (symmetry; apply uwrap_id; fits).
  destruct (old + t <? t_now x); [|done]. rewrite (bind_ok _ _ _ _ _ (detect_ok t (t_now' x) d Hd)).
  replace (u64 (t_now' x - t)) with (t_now' x - t) by (symmetry; apply uwrap_id; fits).
  destruct (existsb _ _); cbn zeta; [done|]. unfold ret. by rewrite (proj2 (Z.eqb_neq _ _)) by lia.
Qed.

Lemma watch_running t old x d turns : running t x d -> 0 <= t -> 0 <= old -> old + t < 2 ^ 64 ->
  exists (late : bool) old', watch old (x :: turns) = option_map (fun r => (late :: fst r, snd r)) (watch old' turns) /\
  (late = false -> (old + t < t_now x -> old' = t_now' x /\ existsb (fun y => record_time y <? t_now' x - t) (entries d) = false) /\
                   (t_now x <= old + t -> old' = old)) /\
  (late = true -> existsb (fun y => record_time y <? t_now' x - t) (entries d) = true /\ old' = 1).
Proof.
  intros Hr H0 Hold Hmax. pose proof (check_turn_ok t old x d Hr H0 Hold Hmax) as E. destruct Hr as (Hw & _). cbn [watch]. rewrite Hw, E.
  destruct (Z.ltb_spec (old + t) (t_now x)) as [Hlt|Hge]; cbn zeta.
  - destruct (existsb _ (entries d)) eqn:El.
    + exists true, 1. split; [by destruct (watch _ turns) as [[]|]|]. split; [done|by intros _].
    + exists false, (t_now' x). split; [by destruct (watch _ turns) as [[]|]|]. split; [|done]. intros _. split; [done|lia].
  - exists false, old. split; [by destruct (watch _ turns) as [[]|]|]. split; [|done]. intros _. split; [lia|done].
Qed.

Lemma watch_punctual t turns ds : 0 <= t -> Forall2 (running t) turns ds ->
  Forall2 (fun x d => Forall (fun y => t_now' x - t <= record_time y) (entries d) /\ t_now' x + t < 2 ^ 64) turns ds ->
  forall old, 0 <= old -> old + t < 2 ^ 64 -> watch old turns = Some (replicate (length turns) false, None).
Proof.
  intros H0 HF. induction HF as [|x d turns ds Hr _ IH]; intros HP old Hold Hmax; [done|].
  apply Forall2_cons in HP as [[Hp Hx] HP]. destruct (watch_running t old x d turns Hr H0 Hold Hmax) as (late & old' & -> & Hf & Ht).
  destruct late.
  - destruct (Ht eq_refl) as [(y & Hy & Hlt)%existsb_exists _]. rewrite Forall_forall in Hp. specialize (Hp y (proj2 (list_elem_of_In _ _) Hy)).
    apply Z.ltb_lt in Hlt. lia.
  - destruct (Hf eq_refl) as [H1 H2]. destruct Hr as (_ & _ & _ & _ & Hnow & Hr). rewrite (IH HP old'); [done| |].
    all: destruct (Z.lt_ge_cases (old + t) (t_now x)) as [Hc|Hc]; [destruct (H1 Hc) as [-> _]|rewrite (H2 Hc)]; lia.
Qed.

Lemma watch_returns t turns ds : 0 <= t -> Forall2 (running t) turns ds -> Forall (fun x => t_now' x + t < 2 ^ 64) turns ->
  forall old, 0 <= old -> old + t < 2 ^ 64 -> exists kills, watch old turns = Some (kills, None).
Proof.
  intros H0 HF. induction HF as [|x d turns ds Hr _ IH]; intros HT old Hold Hmax; [by exists []|].
  apply Forall_cons in HT as [Hx HT]. destruct (watch_running t old x d turns Hr H0 Hold Hmax) as (late & old' & -> & Hf & Ht).
  destruct (IH HT old') as [kills ->]; [..|by exists (late :: kills)].
  all: destruct Hr as (_ & _ & _ & _ & Hnow & Hr); destruct late; [destruct (Ht eq_refl) as [_ ->]; lia|].
  all: destruct (Hf eq_refl) as [H1 H2]; destruct (Z.lt_ge_cases (old + t) (t_now x)) as [Hc|Hc]; [destruct (H1 Hc) as [-> _]|rewrite (H2 Hc)]; lia.
Qed.

Lemma watch_hung t since turns ds : 0 <= t -> 0 <= since -> since + 2 * t < 2 ^ 64 -> Forall2 (running t) turns ds ->
  Forall (fun d => Exists (fun y => record_time y <= since) (entries d)) ds ->
  (exists x, last turns = Some x /\ since + 2 * t < t_now x) ->
  forall old kills st, 0 <= old <= since + t -> watch old turns = Some (kills, st) -> true ∈ kills.
Proof.
  intros H0 Hs Hmax HF. induction HF as [|x d turns ds Hr HF IH]; intros HE (z & Hz & Hlate) old kills st Hold E; [done|].
  apply Forall_cons in HE as [Hd HE]. destruct (watch_running t old x d turns Hr H0 ltac:(lia) ltac:(lia)) as (late & old' & Ew & Hf & Ht).
  rewrite Ew in E. destruct (watch old' turns) as [[ks st']|] eqn:Eks; [|done]. injection E as <- <-. cbn [fst].
  destruct late; [by left|]. right. destruct (Hf eq_refl) as [H1 H2]. destruct Hr as (_ & _ & _ & _ & Hnow & Hr).
  assert (old' <= since + t /\ 0 <= old' /\ t_now x <= since + 2 * t) as (Ho & Ho' & Hn).
  { destruct (Z.lt_ge_cases (old + t) (t_now x)) as [Hc|Hc]; [|rewrite (H2 Hc); lia]. destruct (H1 Hc) as [-> Hno].
    apply Exists_exists in Hd as (y & Hy & Hys). assert ((record_time y <? t_now' x - t) = false) as Hny%Z.ltb_ge; [|lia].
    apply not_true_is_false. intros Hy'. assert (existsb (fun y => record_time y <? t_now' x - t) (entries d) = true); [|congruence].
    apply existsb_exists. exists y. split; [by apply list_elem_of_In|done]. }
  destruct turns as [|x' turns]; [injection Hz as <-; lia|]. apply (IH HE (ex_intro _ z (conj Hz Hlate)) old' ks st' ltac:(lia) Eks).
Qed.

(** C19: the watchdog.  While the child runs, with times that do not wrap around: when all threads that
    registered write their time at least once an interval, the child is never killed; and when a
    thread stopped writing at a time [since], the child is killed at the latest in the first turn
    that is more than two intervals later. *)
Theorem watchdog_kills t since start turns ds : 0 <= t -> 0 <= since -> since + 2 * t < 2 ^ 64 -> 0 <= start <= since + t ->
  Forall2 (running t) turns ds -> Forall (fun x => t_now' x + t < 2 ^ 64) turns ->
  (Forall2 (fun x d => Forall (fun y => t_now' x - t <= record_time y) (entries d)) turns ds ->
   watch start turns = Some (replicate (length turns) false, None)) /\
  (Forall (fun d => Exists (fun y => record_time y <= since) (entries d)) ds ->
   (exists x, last turns = Some x /\ since + 2 * t < t_now x) ->
   exists kills, watch start turns = Some (kills, None) /\ true ∈ kills).
Proof.
  intros H0 Hs Hmax Hst HF HT. split.
  - intros HP. apply (watch_punctual t turns ds); [done..| |lia|lia]. clear - HP HT. induction HP as [|x d turns ds Hx _ IH]; [constructor|].
    apply Forall_cons in HT as [Ht HT]. constructor; [done|by apply IH].
  - intros HE HL. destruct (watch_returns t turns ds H0 HF HT start) as [kills E]; [lia|lia|]. exists kills. split; [done|].
    exact (watch_hung t since turns ds H0 Hs Hmax HF HE HL start kills None Hst E).
Qed.

(** A process that never registers a thread is never killed. *)
Lemma watch_unregistered t turns ds old : 0 <= t -> Forall2 (running t) turns ds -> Forall (fun x => t_now' x + t < 2 ^ 64) turns ->
  Forall (fun d => real_size d = 0%nat) ds -> 0 <= old -> old + t < 2 ^ 64 -> watch old turns = Some (replicate (length turns) false, None).
Proof.
  intros H0 HF HT HZ. apply (watch_punctual t turns ds); [done..|]. induction HF as [|x d turns ds _ _ IH]; [constructor|].
  apply Forall_cons in HT as [Ht HT]. apply Forall_cons in HZ as [Hz HZ]. constructor; [|by apply IH]. split; [|done]. unfold entries. by rewrite Hz.
Qed.

(** ** An example: a thread that wrote at 1000, and not after *)

Definition hung_shm : DetectInfo := mkDetect 1 180 (mkInfo 1000 7 (repeat Byte.x00 120) :: repeat zero_info 29).
Definition hung_turns : list turn := (fun now => mkTurn Running (Some hung_shm) now now) <$> [1100; 1181; 1361].
Lemma watchdog_kills_witness : exists kills, watch 1000 hung_turns = Some (kills, None) /\ true ∈ kills.
Proof.
  apply (watchdog_kills 180 1000 1000 hung_turns [hung_shm; hung_shm; hung_shm]); try lia.
  - repeat constructor; cbn; lia.
  - repeat constructor; cbn; lia.
  - repeat constructor; cbn; lia.
  - exists (mkTurn Running (Some hung_shm) 1361 1361). split; [reflexivity|cbn; lia].
Defined.
