(* ===== verification/Application.v ===== *)
(** * The application (src/wyze/application.h, src/wyze/application.cpp)

    Its initialisation out of arguments, documents and the file system, the fiber that makes the
    HTTP servers of the configuration, and [main] and [run] around them.  Log messages are left out. *)

From S2P Require Import LogFormat Yaml Socket Prelude Http HttpParser Address Resolve TcpServer Util Env Config Daemon.

(** ** The configuration of an HTTP server *)

Record HttpServerConf := mkConf { address : list bytes; keepalive : Z; timeout : Z; cf_name : bytes }.
#[export] Instance HttpServerConf_eq_dec : EqDecision HttpServerConf.
Proof. solve_decision. Defined.
Definition default_conf : HttpServerConf := mkConf [] 0 30000 [].

Section casts.
(** [as<int>()], nothing when it throws, and a node that an [int] was assigned to *)
Context {N} `{Yaml N} (as_int : N -> option Z) (of_int : Z -> N).

(** [node[key].as<T>(fallback)] *)
Definition as_or {A} (as_type : N -> option A) (node : N) (key : bytes) (fallback : A) : option A :=
  (fun n => default fallback (n ≫= as_type)) <$> subscript node key.
Definition HttpServerConf_from : FromStr HttpServerConf := fun v =>
  node ← y_load v;
  keepalive ← as_or as_int node (str "keepalive") (keepalive default_conf);
  timeout ← as_or as_int node (str "timeout") (timeout default_conf);
  name ← as_or y_as_string node (str "name") (cf_name default_conf);
  address_node ← subscript node (str "address");
  address ← match address_node with Some n => mapM y_as_string (y_items n) | None => Some [] end;
  Some (mkConf address keepalive timeout name).
Definition HttpServerConf_to : ToStr HttpServerConf := fun conf =>
  Some (y_emit (y_map ([(str "name", y_text (cf_name conf)); (str "keepalive", of_int (keepalive conf)); (str "timeout", of_int (timeout conf))] ++
    match address conf with [] => [] | l => [(str "address", y_seq (y_text <$> l))] end))).
End casts.

(** ** main_fiber *)

Section main.
Context `{Resolver} {W} `{SocketApi W}.
(** What happens to the world during [sleep(1)], and the value of [tcp_server.read_timeout] *)
Context (second : W -> W) (read_timeout : Z).

(** The addresses of one text; a pointer may be null. *)
Definition conf_address {S} (a : bytes) : M S (list (option Address)) :=
  match memchr colon a with
  | None => u <- new_UnixAddress a ;; ret [Some (Unix (fst u) (snd u))]
  | Some (host, at_colon) =>
      let port := atoi (c_str (tail at_colon)) in
      addr <- IPAddress_Create (c_str host) (u16 port) ;;
      match addr with
      | Some addr => ret [Some addr]
      | None =>
          result <- GetInterfaceAddresses host AF_INET ;;
          ret ((fun x => let ipaddr := as_ip (fst x) in
                         if 0 <? port then ip_setPort (u16 port) <$> ipaddr else ipaddr) <$> default [] result)
      end
  end.
Fixpoint conf_addresses {S} (l : list bytes) : M S (list (option Address)) :=
  match l with
  | [] => ret []
  | a :: l => addrs <- conf_address a ;; rest <- conf_addresses l ;; ret (addrs ++ rest)
  end.

(** The [do] loop around [bind]: did one of the attempts succeed?  [fails] is the one vector of all
    of them. *)
Fixpoint bind_loop (attempts : nat) (addrs fails : list Addr) : M (TcpServer W) bool :=
  match attempts with
  | O => ret false
  | S attempts =>
      r <- server_bind addrs fails ;;
      if fst r then ret true
      else modify (fun sv => with_heap (heap sv) (second (sv_world sv)) sv) ;;; bind_loop attempts addrs (snd r)
  end.

(** An entry of [m_http_servers]: is keepalive on, and the server, whose world is the common one. *)
Definition without_world (sv : TcpServer W) : TcpServer unit :=
  mkServer unit (heap sv) tt (m_socks sv) (m_recvTimeout sv) (m_name sv) (m_isStop sv) (accept_tasks sv) (client_tasks sv).
Record HttpServer := mkHttpServer { srv_keepalive : bool; srv_tcp : TcpServer unit }.

(** One turn of the loop over the configurations: the server, or nothing when the process exits *)
Definition start_server (i : HttpServerConf) : M W (option HttpServer) := fun w =>
  match (addrs <- conf_addresses (address i) ;; or_undef null_deref (mapM id addrs)) w with
  | Ok addrs w =>
      match (ok <- bind_loop 3 (to_Addr <$> addrs) [] ;;
             if negb ok then ret false
             else (if empty (cf_name i) then ret tt else modify (setName (cf_name i))) ;;;
                  modify (setRecvTimeout_server (u64 (timeout i))) ;;; start ;;; ret true)
            (new_TcpServer read_timeout w) with
      | Ok ok sv => Ok (if ok : bool then Some (mkHttpServer (negb (keepalive i =? 0)) (without_world sv)) else None) (sv_world sv)
      | Throw e sv => Throw e (sv_world sv)
      | Undef u => Undef u
      end
  | Throw e w => Throw e w
  | Undef u => Undef u
  end.
(** The loop: the servers that were made, and do all of them run?  Else the process has exited. *)
Fixpoint main_fiber (http_confs : list HttpServerConf) (m_http_servers : list HttpServer) : M W (list HttpServer * bool) :=
  match http_confs with
  | [] => ret (m_http_servers, true)
  | i :: http_confs =>
      server <- start_server i ;;
      match server with
      | Some server => main_fiber http_confs (m_http_servers ++ [server])
      | None => ret (m_http_servers, false)
      end
  end.
End main.

(** ** init *)

Section init.
Context `{VarTypes} {F} `{Posix F} {N} `{Yaml N} `{!YamlFinite N}.
(** The type of the two variables, whose values are texts; the time of a directory and the document
    of a file *)
Context (text : vt) (text_of : vt_val text -> bytes) (mtime : F -> bytes -> option Z) (load_file : F -> bytes -> option N).

Record Application := mkApplication { app_env : Env; app_config : Config F }.
Definition on_env {A} (m : M Env A) : M Application A := fun a =>
  match m (app_env a) with
  | Ok x e => Ok x (mkApplication e (app_config a))
  | Throw ex e => Throw ex (mkApplication e (app_config a))
  | Undef u => Undef u
  end.
Definition on_config {A} (m : M (Config F) A) : M Application A := fun a =>
  match m (app_config a) with
  | Ok x c => Ok x (mkApplication (app_env a) c)
  | Throw ex c => Throw ex (mkApplication (app_env a) c)
  | Undef u => Undef u
  end.
Definition on_files {A} (m : M F A) : M (Config F) A := fun c =>
  let to_config f := mkConfig (datas c) (s_fun_id c) (s_file2modifytime c) f in
  match m (world c) with Ok x f => Ok x (to_config f) | Throw ex f => Throw ex (to_config f) | Undef u => Undef u end.

Definition LoadFromConfDir_path (path : bytes) : M Application unit :=
  a <- get ;;
  let absolute_path := getAbsolutePath path (app_env a) in
  let f := world (app_config a) in
  on_config (LoadFromConfDir (ListAllFile (S PATH_MAX) f absolute_path (str ".yml")) (mtime f (c_str absolute_path)) (load_file f)).
Definition pid_path (work_path pid_file : bytes) : bytes := work_path ++ str "/" ++ pid_file.
Definition text_value (name : bytes) : M Application bytes := v <- on_config (getValue text name) ;; ret (text_of v).

(** [init(argc, argv)] *)
Definition Application_init (link : option bytes) (argv : list bytes) : M Application bool :=
  on_env (addHelp (str "s") (str "statr with the terminal") ;;; addHelp (str "d") (str "run as daemon") ;;;
          addHelp (str "c") (str "conf path default: ./conf") ;;; addHelp (str "p") (str "print help")) ;;;
  ok <- on_env (init link argv) ;;
  if negb ok then ret false
  else
    a <- get ;;
    if has (str "p") (app_env a) then ret false
    else
      LoadFromConfDir_path (getAbsolutePath (env_get (str "c") (str "conf") (app_env a)) (app_env a)) ;;;
      work_path <- text_value (str "server.work_path") ;;
      pid_file <- text_value (str "server.pid_file") ;;
      a <- get ;;
      if IsRunningPidfile (world (app_config a)) (pid_path work_path pid_file) then ret false
      else
        made <- on_config (on_files (Mkdir work_path)) ;;
        ret made.
End init.

(** ** main and run *)

(** [std::ofstream ofs(name); ofs << text;] and its destructor: could the file be opened, and was all
    of the text written? *)
Class Writable (F : Type) := { write_file : bytes -> bytes -> F -> (bool * bool) * F }.

Section run.
Context `{VarTypes} {F} `{Writable F} {W} `{Resolver} `{SocketApi W}.
(** The types of the variables that are read, [sleep(1)], and the value of [tcp_server.read_timeout] *)
Context (text : vt) (text_of : vt_val text -> bytes) (confs : vt) (confs_of : vt_val confs -> list HttpServerConf).
Context (second : W -> W) (read_timeout : Z).

(** The application and the network *)
Record Process := mkProcess { p_app : Application (F := F); p_net : W }.
Definition on_app {A} (m : M Application A) : M Process A := fun p =>
  match m (p_app p) with
  | Ok x a => Ok x (mkProcess a (p_net p))
  | Throw e a => Throw e (mkProcess a (p_net p))
  | Undef u => Undef u
  end.

(** What becomes of the process: [main] returns; [main_fiber] leaves by [exit]; it runs its servers
    for ever, [iom.stop()] waiting for it; or it throws, which ends the fiber. *)
Inductive ended := Returned (rt : Z) | Exit (code : Z) | Serving (servers : list HttpServer) | FiberThrew (e : exn).
Definition run_fiber (http_confs : list HttpServerConf) : M Process ended := fun p =>
  match main_fiber second read_timeout http_confs [] (p_net p) with
  | Ok (servers, all) w => Ok (if all : bool then Serving servers else Exit 0) (mkProcess (p_app p) w)
  | Throw e w => Ok (FiberThrew e) (mkProcess (p_app p) w)
  | Undef u => Undef u
  end.

(** The pid file of the configuration *)
Definition pidfile : M (Application (F := F)) bytes :=
  work_path <- text_value text text_of (str "server.work_path") ;;
  pid_file <- text_value text text_of (str "server.pid_file") ;;
  ret (pid_path work_path pid_file).
Definition write_pid (path : bytes) (pid : Z) (f : F) : bool * F :=
  let '(opened, _, f') := write_file (c_str path) (print_number pid) f in (opened, f').
(** [main(argc, argv)] in the process [pid]; [return false] is 0. *)
Definition Application_main (pid : Z) : M Process ended :=
  path <- on_app pidfile ;;
  opened <- on_app (on_config (on_files (sys (write_pid path pid)))) ;;
  if negb opened then ret (Returned 0)
  else
    http_confs <- on_app (on_config (getValue confs (str "http_servers"))) ;;
    run_fiber (confs_of http_confs).

(** What [start_daemon] comes to: [main] in this process, with what becomes of it; or the parent, which
    returns, or waits for its children. *)
Inductive started := InMain (e : ended) | Parent (rt : option Z).
(** [run()]: [daemon_rt] and [shmid] are what [daemon] and [shmget] give, [lives] the children. *)
Definition run (pid daemon_rt shmid : Z) (lives : list life) : M Process (option started) :=
  p <- get ;;
  if has (str "d") (app_env (p_app p)) then ret (Parent <$> daemonize daemon_rt shmid lives)
  else e <- Application_main pid ;; ret (Some (InMain e)).
(** The same in a child, which has the shared memory *)
Definition run_child (pid : Z) (d : Shm) : M Process ended :=
  match reset_real_size d with Ok _ _ => Application_main pid | _ => undef null_deref end.
End run.
