(* ===== verification/ApplicationSpec.v ===== *)
(** * What the application promises: which servers run *)

From S2P Require Import LogFormat Yaml Socket SocketSpec Prelude Http HttpSpec HttpParser RagelSpec Digits Address Resolve TcpServer TcpServerSpec Util Env EnvSpec Config ConfigSpec Application.

(** ** Addresses *)

Section addresses.
Context `{Resolver} {S : Type}.
Implicit Types (s : S).

(** Entries of interfaces are IP addresses, and looking them up changes nothing. *)
Lemma interface_address_ip family addr s r s' : interface_address family addr s = Ok r s' ->
  s' = s /\ forall a n, r = Some (a, n) -> as_ip a = Some a.
Proof.
  unfold interface_address. destruct (negb _ && negb _); [by intros [= <- <-]|].
  destruct addr as [a [m|]|a fl sc [m|]|f]; try by intros [= <- <-].
  - rewrite bind_some. destruct (CountBytes 4 m); [|done]. rewrite bind_some. intros [= <- <-]. split; [done|]. by intros ? ? [= <- _].
  - rewrite bind_some. destruct (mapM (CountBytes 1) m); [|done]. rewrite bind_some. intros [= <- <-]. split; [done|]. by intros ? ? [= <- _].
Qed.
Lemma interface_entries_ip family l : forall s r s', interface_entries family l s = Ok r s' ->
  s' = s /\ forall name a n, (name, (a, n)) ∈ r -> as_ip a = Some a.
Proof.
  induction l as [|[name addr] l IH]; intros s r s' E; cbn [interface_entries] in E.
  { injection E as <- <-. split; [done|]. by intros ? ? ? ?%elem_of_nil. }
  destruct addr as [addr|]; [|done]. rewrite bind_some in E. apply bind_returns in E as (x & s1 & E1 & E).
  apply bind_returns in E as (rest & s2 & E2 & E). injection E as <- <-.
  destruct (interface_address_ip _ _ _ _ _ E1) as [-> Hx]. destruct (IH _ _ _ E2) as [-> Hrest]. split; [done|].
  intros name' a n Hin. destruct x as [[a' n']|]; [|by eapply Hrest]. apply elem_of_cons in Hin as [[= _ -> ->]|Hin]; [|by eapply Hrest].
  by eapply Hx.
Qed.
Lemma GetInterfaceAddresses_ip iface s r s' : GetInterfaceAddresses iface AF_INET s = Ok r s' ->
  s' = s /\ forall a n, (a, n) ∈ default [] r -> as_ip a = Some a.
Proof.
  unfold GetInterfaceAddresses. destruct (_ || _); [intros [= <- <-]; split; [done|]; by intros a n [= -> _]%list_elem_of_singleton|].
  intros E. apply bind_returns in E as (results & s1 & E & [= <- <-]). unfold AllInterfaceAddresses in E.
  destruct getifaddrs as [l|]; [|by injection E as <- <-; split; [|intros ? ? ?%elem_of_nil]].
  apply bind_returns in E as (es & s2 & E & [= <- <-]). destruct (interface_entries_ip _ _ _ _ _ E) as [-> Hes].
  split; [done|]. intros a n. cbn. intros ([name [a' n']] & [= <- <-] & [_ Hin]%list_elem_of_filter)%list_elem_of_fmap. by eapply Hes.
Qed.

(** An interface without an address, which [getifaddrs] gives as a null pointer, is used all the
    same, whatever interface is looked for. *)
Lemma interface_null iface family l1 name l2 s : getifaddrs = Some (l1 ++ (name, None) :: l2) -> iface <> [] -> iface <> str "*" ->
  exists u, GetInterfaceAddresses iface family s = Undef u.
Proof.
  intros Hl Hne Hstar. assert (forall l1 s, (exists u, interface_entries family (l1 ++ (name, None) :: l2) s = Undef u)) as Hu.
  { clear l1 Hl. intros l1. induction l1 as [|[n a] l1 IH]; intros s'; [by exists null_deref|]. cbn [app interface_entries].
    destruct a as [a|]; [|by exists null_deref]. rewrite bind_some. unfold bind at 1.
    destruct (interface_address family a s') as [r s2|e s2|u] eqn:E; [|exfalso|by exists u].
    - destruct (IH s2) as [u Eu]. exists u. unfold bind. by rewrite Eu.
    - unfold interface_address in E. destruct (negb _ && negb _); [done|]. destruct a as [a [m|]|a fl sc [m|]|f]; try done; rewrite bind_some in E.
      + by destruct (CountBytes 4 m).
      + by destruct (mapM (CountBytes 1) m). }
  destruct (Hu l1 s) as [u E]. exists u. unfold GetInterfaceAddresses. rewrite bool_decide_false by done.
  destruct iface as [|b iface]; [done|]. cbn [empty orb]. unfold AllInterfaceAddresses. rewrite Hl. unfold bind. by rewrite E.
Qed.

(** The texts of a configuration give no null pointer, and looking them up changes nothing. *)
Lemma conf_address_some a s r s' : conf_address a s = Ok r s' -> s' = s /\ exists addrs, r = Some <$> addrs.
Proof.
  unfold conf_address. destruct (memchr colon a) as [[host rest]|].
  - intros E. apply bind_returns in E as (x & s1 & E1 & E). assert (s1 = s) as ->.
    { unfold IPAddress_Create in E1. destruct (getaddrinfo _ _ _ _ _ _) as [[|y l]|]; [done| |by injection E1].
      change (head (y :: l)) with (Some y) in E1. rewrite bind_some in E1. by injection E1. }
    destruct x as [x|]; [injection E as <- <-; split; [done|by exists [x]]|].
    apply bind_returns in E as (l & s2 & E & [= <- <-]). destruct (GetInterfaceAddresses_ip _ _ _ _ E) as [-> Hl]. split; [done|].
    set (port := atoi _). exists ((fun x => if 0 <? port then ip_setPort (u16 port) (fst x) else fst x) <$> default [] l).
    rewrite <- list_fmap_compose. apply list_fmap_ext. intros k [b n] Hk. cbn. apply list_elem_of_lookup_2 in Hk.
    rewrite (Hl _ _ Hk). by destruct (0 <? port).
  - intros E. apply bind_returns in E as (u & s1 & E & [= <- <-]). split; [|by exists [Unix (fst u) (snd u)]].
    unfold new_UnixAddress in E. destruct (Z.ltb _ _); [done|]. destruct (Nat.ltb _ _); [done|]. by injection E.
Qed.
Lemma conf_addresses_some l : forall s r s', conf_addresses l s = Ok r s' -> s' = s /\ exists addrs, r = Some <$> addrs.
Proof.
  induction l as [|a l IH]; intros s r s' E; [injection E as <- <-; split; [done|by exists []]|].
  cbn [conf_addresses] in E. apply bind_returns in E as (x & s1 & E1 & E). apply bind_returns in E as (y & s2 & E2 & [= <- <-]).
  destruct (conf_address_some _ _ _ _ E1) as [-> [xs ->]]. destruct (IH _ _ _ E2) as [-> [ys ->]]. split; [done|].
  exists (xs ++ ys). by rewrite fmap_app.
Qed.
Lemma mapM_id_some (addrs : list Address) : mapM id (Some <$> addrs) = Some addrs.
Proof. induction addrs as [|a addrs IH]; [done|]. cbn. by rewrite IH. Qed.
End addresses.

(** ** Servers *)

Section servers.
Context `{Resolver} {W} `{SocketLaws W} (second : W -> W) (read_timeout : Z).
(** Waiting opens and closes no descriptors of the process. *)
Hypothesis second_fds : forall w, fds (second w) = fds w.
Implicit Types (sv : TcpServer W) (base : gset Z).

Lemma serving_none base sv : m_socks sv = [] -> fds (sv_world sv) = base -> serving base sv [].
Proof.
  intros Hm Hw. unfold serving. rewrite Hm, Hw. split_and!; [constructor|constructor|constructor|by intros ? ?%elem_of_nil|].
  cbn. by rewrite (left_id_L _ _).
Qed.

(** The first attempt decides: when it fails, its failures are still in [fails] at the others. *)
Lemma bind_again attempts addrs : forall fails base sv, fails <> [] -> serving base sv [] -> not_started sv -> exists sv',
  bind_loop second attempts addrs fails sv = Ok false sv' /\ m_socks sv' = [] /\ fds (sv_world sv') = base.
Proof.
  induction attempts as [|n IH]; intros fails base sv Hf Hs Hns.
  { exists sv. split; [done|]. destruct Hs as (Hl & _ & _ & _ & Hw). apply Forall2_nil_inv_r in Hl. split; [done|].
    rewrite Hw. cbn. by rewrite (left_id_L _ _). }
  cbn [bind_loop]. destruct (server_bind_ok base addrs fails sv [] Hs Hns) as (rs & w1 & sv1 & _ & Hr).
  cbv zeta in Hr. destruct Hr as (E & Hns1 & Hr).
  assert (fails ++ not_opened addrs rs <> []) as Hne by (by destruct fails). rewrite decide_False in Hr by done. rewrite bool_decide_false in E by done.
  rewrite (bind_ok _ _ _ _ _ E). cbn [fst snd]. rewrite bind_modify. destruct Hr as [Hm Hw]. apply IH; [done| |done].
  apply serving_none; [done|]. cbn. by rewrite second_fds.
Qed.
Lemma bind_loop_ok attempts addrs base sv : serving base sv [] -> not_started sv -> exists results w1 sv1 sv',
  opened_all addrs (sv_world sv) results w1 /\
  server_bind addrs [] sv = Ok (bool_decide (not_opened addrs results = []), not_opened addrs results) sv1 /\
  bind_loop second (S attempts) addrs [] sv = Ok (bool_decide (not_opened addrs results = [])) sv' /\
  if decide (not_opened addrs results = []) then
    exists fdl, results = Some <$> fdl /\ sv_world sv' = w1 /\ bound_as (heap sv') addrs (m_socks sv') [] /\ serving base sv' fdl /\ unstarted sv sv'
  else m_socks sv' = [] /\ fds (sv_world sv') = base.
Proof.
  intros Hs Hns. destruct (server_bind_ok base addrs [] sv [] Hs Hns) as (rs & w1 & sv1 & Ho & Hr). exists rs, w1, sv1. cbv zeta in Hr.
  destruct Hr as (E & Hns1 & Hr). assert (m_socks sv = []) as Hm0 by (destruct Hs as (Hl & _); by apply Forall2_nil_inv_r in Hl).
  cbn [app] in E, Hr. set (bad := not_opened addrs rs) in *. cbn [bind_loop]. destruct (decide (bad = [])) as [Hb0|Hne].
  - rewrite bool_decide_true in * by done. exists sv1. split_and!; [done|exact E|by rewrite (bind_ok _ _ _ _ _ E)|].
    destruct Hr as (ids & fdl & Hm & Hb & Hrs & Hw & Hs' & Hu). exists fdl. rewrite Hm0 in Hm. rewrite Hm. by split_and!.
  - destruct Hr as [Hm Hw]. rewrite bool_decide_false in * by done.
    set (sv2 := with_heap (heap sv1) (second (sv_world sv1)) sv1).
    destruct (bind_again attempts addrs bad base sv2) as (sv' & E' & Hm' & Hw'); [done| |done|].
    { apply serving_none; [done|]. cbn. by rewrite second_fds. }
    exists sv'. split_and!; [done|exact E| |done|done]. rewrite (bind_ok _ _ _ _ _ E). exact E'.
Qed.

(** What a server has to do with its configuration, whose texts stand for [addrs] *)
Definition resolved (i : HttpServerConf) (addrs : list Address) : Prop := forall w : W, conf_addresses (address i) w = Ok (Some <$> addrs) w.
Definition runs_as (i : HttpServerConf) (addrs : list Address) (srv : HttpServer) : Prop :=
  let sv := srv_tcp srv in
  bound_as (heap sv) (to_Addr <$> addrs) (m_socks sv) [] /\ m_isStop sv = false /\ accept_tasks sv = StartAccept <$> m_socks sv /\
  m_recvTimeout sv = u64 (timeout i) /\ m_name sv = (if empty (cf_name i) then str "wyze/1.0.0" else cf_name i) /\
  srv_keepalive srv = negb (keepalive i =? 0).
Definition server_fds (srv : HttpServer) : list Z := omap (fun id => m_sock <$> heap (srv_tcp srv) !! id) (m_socks (srv_tcp srv)).

(** The servers are started one after the other: for the addresses of each the system is asked once,
    and each of them is opened, by the descriptor of the server's socket for it. *)
Inductive servers_started : W -> list (HttpServerConf * list Address) -> list HttpServer -> W -> Prop :=
  | started_none w : servers_started w [] [] w
  | started_one w i addrs runs srv servers w1 w2 :
      opened_all (to_Addr <$> addrs) w (Some <$> server_fds srv) w1 -> runs_as i addrs srv ->
      servers_started w1 runs servers w2 -> servers_started w ((i, addrs) :: runs) (srv :: servers) w2.

Lemma omap_fds sv l fdl : Forall2 (has_fd sv) l fdl -> omap (fun id => m_sock <$> heap sv !! id) l = fdl.
Proof. induction 1 as [|id fd l fdl (x & Hx & Hfd & _) _ IH]; [done|]. cbn. rewrite Hx. cbn. by rewrite IH, Hfd. Qed.

(** One configuration: its server runs, or the first attempt to bind failed. *)
Definition refused i addrs (w w' : W) : Prop :=
  fds w' = fds w /\ exists results w1 bad sv, opened_all (to_Addr <$> addrs) w results w1 /\
    bad = not_opened (to_Addr <$> addrs) results /\ bad <> [] /\
    server_bind (to_Addr <$> addrs) [] (new_TcpServer read_timeout w) = Ok (false, bad) sv /\
    start_server second read_timeout i w = Ok None w'.
Lemma start_server_ok i addrs w : resolved i addrs -> exists r w', start_server second read_timeout i w = Ok r w' /\
  match r with
  | Some srv => opened_all (to_Addr <$> addrs) w (Some <$> server_fds srv) w' /\ runs_as i addrs srv /\ NoDup (server_fds srv) /\
      (forall fd, fd ∈ server_fds srv -> fd ∉ fds w) /\ fds w' = list_to_set (server_fds srv) ∪ fds w
  | None => refused i addrs w w'
  end.
Proof.
  intros Hr. unfold refused, start_server. rewrite (bind_ok _ _ _ _ _ (Hr w)), mapM_id_some. change (or_undef null_deref (Some addrs) w) with (Ok (S := W) addrs w).
  set (sv := new_TcpServer read_timeout w).
  destruct (bind_loop_ok 2 (to_Addr <$> addrs) (fds w) sv) as (rs & w1 & sv1 & sv' & Ho & E & El & Hb); [by apply serving_none|by intros id|].
  set (bad := not_opened (to_Addr <$> addrs) rs) in *.
  rewrite (bind_ok _ _ _ _ _ El). destruct (decide (bad = [])) as [Hb0|Hne].
  - destruct Hb as (fdl & Hrs & Hw1 & Hbound & (Hf & Hnd & Hndf & Hap & Hw) & Ha & Hst & Hn). rewrite bool_decide_true by done. cbn [negb].
    set (sv2 := setRecvTimeout_server (u64 (timeout i)) (if empty (cf_name i) then sv' else setName (cf_name i) sv')).
    set (sv3 := schedule_accept (StartAccept <$> m_socks sv2) (with_stop false sv2)).
    exists (Some (mkHttpServer (negb (keepalive i =? 0)) (without_world sv3))), (sv_world sv3). split.
    { rewrite (bind_ok _ _ sv' tt (if empty (cf_name i) then sv' else setName (cf_name i) sv')) by (by destruct (empty (cf_name i))).
      rewrite bind_modify. fold sv2. rewrite (bind_ok start _ sv2 true sv3); [reflexivity|]. unfold start. change (bind get ?k sv2) with (k sv2 sv2).
      cbn beta. replace (m_isStop sv2) with true; [done|]. subst sv2. cbn. by destruct (empty (cf_name i)). }
    assert (server_fds (mkHttpServer (negb (keepalive i =? 0)) (without_world sv3)) = fdl) as Hfds.
    { unfold server_fds. subst sv3 sv2. cbn. destruct (empty (cf_name i)); cbn; by apply omap_fds. }
    assert (sv_world sv3 = w1) as -> by (subst sv3 sv2; cbn; by destruct (empty (cf_name i))). rewrite Hfds. split_and!; [by rewrite <- Hrs| |done|done|congruence].
    unfold runs_as. subst sv3 sv2. cbn. destruct (empty (cf_name i)); cbn; rewrite Ha, ?Hn; by split_and!.
  - destruct Hb as [Hm Hw]. rewrite bool_decide_false in * by done. cbn [negb]. exists None, (sv_world sv'). split_and!; [done..|].
    by exists rs, w1, bad, sv1.
Qed.

Lemma main_fiber_ok confs : forall addrss acc w, Forall2 resolved confs addrss -> exists servers all w1 w' runs rest,
  main_fiber second read_timeout confs acc w = Ok (acc ++ servers, all) w' /\
  zip confs addrss = runs ++ rest /\ servers_started w runs servers w1 /\
  fds w' = list_to_set (concat (server_fds <$> servers)) ∪ fds w /\ NoDup (concat (server_fds <$> servers)) /\
  (forall fd, fd ∈ concat (server_fds <$> servers) -> fd ∉ fds w) /\
  if all then rest = [] /\ w' = w1
  else exists i addrs rest', rest = (i, addrs) :: rest' /\ refused i addrs w1 w'.
Proof.
  induction confs as [|i confs IH]; intros addrss acc w Hr.
  { apply Forall2_nil_inv_l in Hr as ->. exists [], true, w, w, [], []. split_and!; [by cbn; rewrite app_nil_r|done|constructor| |constructor| |done|done].
    - cbn. by rewrite (left_id_L _ _).
    - by intros fd ?%elem_of_nil. }
  apply Forall2_cons_inv_l in Hr as (addrs & addrss' & Hi & Hr & ->). cbn [main_fiber].
  destruct (start_server_ok i addrs w Hi) as (r & w2 & E & Hs). rewrite (bind_ok _ _ _ _ _ E). destruct r as [srv|].
  - destruct Hs as (Ho & Hrun & Hnd & Hnew & Hw2).
    destruct (IH addrss' (acc ++ [srv]) w2 Hr) as (servers & all & w1 & w' & runs & rest & E' & Hz & Hf & Hw & Hn & Ha & Hrest).
    exists (srv :: servers), all, w1, w', ((i, addrs) :: runs), rest.
    split_and!; [by rewrite E', <- app_assoc|by cbn; rewrite Hz|by econstructor| | | |exact Hrest].
    + cbn. rewrite Hw, Hw2, list_to_set_app_L. set_solver.
    + cbn. apply NoDup_app. split_and!; [done| |done]. intros fd Hin Hin'. apply (Ha fd Hin'). rewrite Hw2. set_solver.
    + cbn. intros fd [Hin|Hin]%elem_of_app; [by apply Hnew|]. specialize (Ha fd Hin). rewrite Hw2 in Ha. set_solver.
  - exists [], false, w, w2, [], ((i, addrs) :: zip confs addrss').
    split_and!; [by cbn; rewrite app_nil_r|done|constructor| |constructor| |].
    + cbn. rewrite (left_id_L _ _). apply Hs.
    + by intros fd ?%elem_of_nil.
    + by exists i, addrs, (zip confs addrss').
Qed.

(** C14: every server runs, or the process exits.  When the texts of all configurations stand for
    addresses, [main_fiber] returns, and the servers that it made are those of the first
    configurations, in their order, started one after the other: for each address of each server the
    system made a socket, bound it to the address and made it listen, and its descriptor is the one of
    the server's socket for that address, which is of the family of the address and has an accept task;
    the server is started, with the name, timeout and keepalive of its configuration.  The
    descriptors that are open are those of the servers and those that were open before.  Either
    these are all configurations; or the process exits at the next one, because already at its first
    attempt to bind an address could not be bound or listened on: the other two attempts, which are
    made a second later, never succeed. *)
Theorem servers_run confs addrss w : Forall2 resolved confs addrss -> exists servers all w1 w' runs rest,
  main_fiber second read_timeout confs [] w = Ok (servers, all) w' /\
  zip confs addrss = runs ++ rest /\ servers_started w runs servers w1 /\
  fds w' = list_to_set (concat (server_fds <$> servers)) ∪ fds w /\ NoDup (concat (server_fds <$> servers)) /\
  if all then rest = [] /\ w' = w1
  else exists i addrs rest', rest = (i, addrs) :: rest' /\ refused i addrs w1 w'.
Proof.
  intros Hr. destruct (main_fiber_ok confs addrss [] w Hr) as (servers & all & w1 & w' & runs & rest & E & Hz & Hf & Hw & Hn & _ & Hrest).
  exists servers, all, w1, w', runs, rest. by split_and!.
Qed.
End servers.

(** ** Configurations as texts *)

Section confs.
Context {N} `{YamlLaws N} (as_int : N -> option Z) (of_int : Z -> N).
Hypothesis as_of_int : forall z, in_s 32 z -> as_int (of_int z) = Some z.

(** What an [http_servers] entry is turned into is read as the same configuration. *)
Lemma conf_roundtrip conf : in_s 32 (keepalive conf) -> in_s 32 (timeout conf) ->
  HttpServerConf_to of_int conf ≫= HttpServerConf_from as_int = Some conf.
Proof.
  destruct conf as [addrs keep time name]. cbn [keepalive timeout]. intros Hk Ht.
  unfold HttpServerConf_to, HttpServerConf_from, as_or. cbn [mbind option_bind keepalive timeout cf_name address].
  rewrite y_load_emit. cbn [mbind option_bind].
  assert (forall l, mapM y_as_string (y_text (N := N) <$> l) = Some l) as Hl.
  { intros l. induction l as [|a l IH]; [done|]. cbn. rewrite y_string_text. cbn. by rewrite IH. }
  destruct addrs as [|a l]; cbn [app]; repeat (read_key; rewrite ?as_of_int by done; cbn [default from_option id]).
  - done.
  - rewrite y_items_seq, Hl. done.
Qed.
End confs.

(** ** init *)

Section init.
Context `{VarTypes} {F} `{Posix F} {N} `{Yaml N} `{!YamlFinite N}.
Context (text : vt) (text_of : vt_val text -> bytes) (mtime : F -> bytes -> option Z) (load_file : F -> bytes -> option N).
Implicit Types (a : Application (F := F)).

Lemma on_env_returns {A} (m : M Env A) a x a' : on_env m a = Ok x a' -> exists e, m (app_env a) = Ok x e /\ a' = mkApplication e (app_config a).
Proof. unfold on_env. destruct (m (app_env a)) as [y e| |]; [|done..]. intros [= <- <-]. by exists e. Qed.
Lemma on_config_returns {A} (m : M (Config F) A) a x a' : on_config m a = Ok x a' ->
  exists c, m (app_config a) = Ok x c /\ a' = mkApplication (app_env a) c.
Proof. unfold on_config. destruct (m (app_config a)) as [y c| |]; [|done..]. intros [= <- <-]. by exists c. Qed.
Lemma on_files_returns {A} (m : M F A) (c : Config F) x c' : on_files m c = Ok x c' -> m (world c) = Ok x (world c') /\ datas c' = datas c.
Proof. unfold on_files. cbv zeta. destruct (m (world c)) as [y f| |]; [|done..]. intros E. injection E as <- <-. done. Qed.
Lemma text_value_same name a v a' : text_value text text_of name a = Ok v a' -> a' = a.
Proof.
  unfold text_value. intros E. apply bind_returns in E as (x & a1 & E & [= _ <-]).
  apply on_config_returns in E as (c & E & ->). unfold getValue in E. apply bind_returns in E as (y & c1 & [= <- <-] & E).
  apply bind_returns in E as (z & c2 & E & [= _ <-]). destruct (datas (app_config a) !! name ≫= typed_var text); [|done]. injection E as _ <-. by destruct a.
Qed.
Lemma set_options_lookup k opts m : set_options opts m !! k = None -> k ∉ opts.*1.
Proof.
  revert m. induction opts as [|o opts IH]; intros m; [intros _; apply not_elem_of_nil|]. cbn. intros Hm. pose proof (IH _ Hm) as Hk.
  intros [->|Hin]%elem_of_cons; [|done]. clear IH. revert m Hm Hk. induction opts as [|o' opts IH]; intros m Hm Hk; cbn in *.
  { by rewrite lookup_insert_eq in Hm. }
  apply not_elem_of_cons in Hk as [Hne Hk]. rewrite insert_insert_ne in Hm by done. by apply (IH _ Hm).
Qed.

Lemma text_value_datas name a v a' : text_value text text_of name a = Ok v a -> datas (app_config a') = datas (app_config a) ->
  text_value text text_of name a' = Ok v a'.
Proof.
  unfold text_value, on_config, getValue, bind, get, ret, or_undef. cbn. intros E ->.
  destruct (datas (app_config a) !! name ≫= typed_var text) as [x|]; [|done]. cbn in *. injection E as <- _. by destruct a' as [e [d s t w]].
Qed.
Lemma pidfile_texts a path a' : pidfile text text_of a = Ok path a' -> a' = a /\ exists work_path pid_file, path = pid_path work_path pid_file /\
  text_value text text_of (str "server.work_path") a = Ok work_path a /\ text_value text text_of (str "server.pid_file") a = Ok pid_file a.
Proof.
  intros E. apply bind_returns in E as (work & a1 & Ew & E). pose proof (text_value_same _ _ _ _ Ew) as ->.
  apply bind_returns in E as (pid & a2 & Ei & E). pose proof (text_value_same _ _ _ _ Ei) as ->. injection E as <- <-. split; [done|]. by exists work, pid.
Qed.
Lemma pidfile_of a a' work_path pid_file : text_value text text_of (str "server.work_path") a = Ok work_path a ->
  text_value text text_of (str "server.pid_file") a = Ok pid_file a -> datas (app_config a') = datas (app_config a) ->
  pidfile text text_of a' = Ok (pid_path work_path pid_file) a'.
Proof.
  intros Hw Hi Hd. unfold pidfile. rewrite (bind_ok _ _ _ _ _ (text_value_datas _ _ _ a' Hw Hd)).
  by rewrite (bind_ok _ _ _ _ _ (text_value_datas _ _ _ a' Hi Hd)).
Qed.

(** [init] returns true only for options without [p]; then the documents have been loaded, no server
    runs with the pid file that they name, and the work path that they name has been made. *)
Lemma app_init_ready link program args a a' : c_str link = link -> (length link < 1024)%nat ->
  Application_init text text_of mtime load_file (Some link) (program :: args) a = Ok true a' ->
  (exists opts, Forall option_ok opts /\ args = print_options opts /\ str "p" ∉ opts.*1) /\
  exists a0 a1 conf work_path pid_file, app_config a0 = app_config a /\ LoadFromConfDir_path mtime load_file conf a0 = Ok tt a1 /\
    pidfile text text_of a' = Ok (pid_path work_path pid_file) a' /\
    IsRunningPidfile (world (app_config a1)) (pid_path work_path pid_file) = false /\
    Mkdir work_path (world (app_config a1)) = Ok true (world (app_config a')).
Proof.
  intros Hl Hlen E. unfold Application_init in E. apply bind_returns in E as ([] & a1 & E1 & E).
  apply on_env_returns in E1 as (e1 & _ & ->). apply bind_returns in E as (ok & a2 & E2 & E). apply on_env_returns in E2 as (e & E2 & ->).
  destruct (init_takes_ok link program args e1 Hl Hlen) as (b & e' & E2' & _ & _ & _ & _ & Hb & Hargs).
  cbn [app_env] in E2. rewrite E2 in E2'. injection E2' as <- <-. destruct ok; [|done]. cbn [negb] in E.
  destruct (proj1 Hb eq_refl) as (opts & Hok & Ho). apply bind_returns in E as (a3 & a4 & [= <- <-] & E).
  destruct (has (str "p") _) eqn:Ep; [done|]. split.
  { exists opts. split_and!; [done..|]. cbn in Ep. unfold has in Ep. apply bool_decide_eq_false in Ep.
    rewrite (Hargs opts Hok Ho) in Ep. apply (set_options_lookup _ _ (m_args e1)). by apply eq_None_not_Some. }
  apply bind_returns in E as ([] & a5 & El & E). apply bind_returns in E as (work & a6 & Ew & E).
  pose proof (text_value_same _ _ _ _ Ew) as ->. apply bind_returns in E as (pid & a7 & Ei & E).
  pose proof (text_value_same _ _ _ _ Ei) as ->. apply bind_returns in E as (x & a8 & [= <- <-] & E).
  destruct (IsRunningPidfile _ _) eqn:Er; [done|]. apply bind_returns in E as (made & a9 & Em & [= -> <-]).
  apply on_config_returns in Em as (c & Em & ->). apply on_files_returns in Em as [Em Hd]. eexists _, a5, _, work, pid.
  split_and!; [|exact El|by apply (pidfile_of a5)|done|done]. done.
Qed.

End init.

(** ** main *)

Definition regular (mode : option Z) : Prop := exists m, mode = Some m /\ Z.land m 61440 = 32768. (* S_IFMT, S_IFREG *)
(** What was written to a regular file is its first line. *)
Class WritableLaws F `{Posix F} `{Writable F} := write_file_line : forall p t f f',
  write_file p t f = (true, true, f') -> regular (lstat f' p) -> Byte.x0a ∉ t -> first_line f' p = Some t.

(** The text of a pid is a line, and read back. *)
Lemma pid_text pid : 0 <= pid < 2 ^ 31 -> Byte.x0a ∉ print_number pid /\ print_number pid <> [] /\ atoi (c_str (print_number pid)) = pid.
Proof.
  intros Hp. destruct (atoi_dec pid Hp) as (Ha & Hd & Hne). assert (print_number pid = dec pid) as ->.
  { unfold print_number, dec. rewrite (proj2 (Z.ltb_ge pid 0)) by lia. unfold u32. by rewrite uwrap_id by fits. }
  split_and!; [|done|].
  - intros Hin. unfold all_in in Hd. rewrite forallb_forall in Hd. apply list_elem_of_In, Hd in Hin. done.
  - pose proof (c_str_dec (dec pid) [] Hd) as E. rewrite !app_nil_r in E. by rewrite E.
Qed.
Lemma running_pid {F} `{Posix F} (f : F) path pid : 1 < pid < 2 ^ 31 -> regular (lstat f (c_str path)) ->
  first_line f (c_str path) = Some (print_number pid) -> process_exists f pid = true -> IsRunningPidfile f path = true.
Proof.
  intros Hp (m & Em & _) El Ee. unfold IsRunningPidfile. rewrite Em, El. destruct (pid_text pid) as (_ & Hne & Ha); [lia|].
  destruct (print_number pid) as [|b s]; [done|]. cbn [empty]. by rewrite Ha, (proj2 (Z.leb_gt pid 1)) by lia.
Qed.

Section run.
Context `{VarTypes} {F} `{WritableLaws F} {W} `{Resolver} `{SocketApi W}.
Context (text : vt) (text_of : vt_val text -> bytes) (confs : vt) (confs_of : vt_val confs -> list HttpServerConf).
Context (second : W -> W) (read_timeout : Z).
Context {N} `{Yaml N} `{!YamlFinite N} (mtime : F -> bytes -> option Z) (load_file : F -> bytes -> option N).
Implicit Types (p : Process (F := F) (W := W)) (a : Application (F := F)).
Abbreviation main pid := (Application_main (W := W) text text_of confs confs_of second read_timeout pid).
Abbreviation files_of a := (world (app_config a)).

Lemma on_app_returns {A} (m : M Application A) p x p' : on_app m p = Ok x p' -> exists a, m (p_app p) = Ok x a /\ p' = mkProcess a (p_net p).
Proof. unfold on_app. destruct (m (p_app p)) as [y a| |]; [|done..]. intros [= <- <-]. by exists a. Qed.
Lemma getValue_same (t : vt) name (c : Config F) v c' : getValue t name c = Ok v c' -> c' = c.
Proof. unfold getValue, bind, get, ret, or_undef. by destruct (datas c !! name ≫= typed_var t) as [x|]; [intros [= _ <-]|]. Qed.

(** Unless it returns at once, [main] has opened the pid file, and changed no other file. *)
Lemma main_writes pid p e p' : main pid p = Ok e p' -> e <> Returned 0 -> exists path written,
  pidfile text text_of (p_app p) = Ok path (p_app p) /\
  write_file (c_str path) (print_number pid) (files_of (p_app p)) = (true, written, files_of (p_app p')).
Proof.
  unfold Application_main. intros E He. apply bind_returns in E as (path & p1 & E1 & E). apply on_app_returns in E1 as (a1 & E1 & ->).
  destruct (pidfile_texts _ _ _ _ _ E1) as [-> _]. exists path. apply bind_returns in E as (opened & p2 & E2 & E).
  apply on_app_returns in E2 as (a2 & E2 & ->). apply on_config_returns in E2 as (c & E2 & ->). apply on_files_returns in E2 as [E2 _].
  cbn [p_app] in E2. unfold sys, write_pid in E2. destruct (write_file _ _ _) as [[o written] f'] eqn:Ew. injection E2 as -> ->.
  destruct opened; cbn [negb] in E; [|by injection E as <- _]. exists written. split; [done|].
  apply bind_returns in E as (hc & p3 & E3 & E). apply on_app_returns in E3 as (a3 & E3 & ->). apply on_config_returns in E3 as (c3 & E3 & ->).
  apply getValue_same in E3 as ->. unfold run_fiber in E.
  destruct (main_fiber _ _ _ _ _) as [[servers all] w|ex w|]; [| |done]; injection E as _ <-; done.
Qed.

(** The pid file of a running process: it says its number, and the process exists. *)
Definition says_running (path : bytes) (pid : Z) (f : F) : Prop :=
  regular (lstat f (c_str path)) /\ first_line f (c_str path) = Some (print_number pid) /\ process_exists f pid = true.

(** C13: A second server with the same pid file is not started.  Let [main] of the process [pid] have got
    past its pid file, a regular file to which the number could be written; let another process have
    that file as [main] left it while [pid] exists, and let loading the documents not change that.  If
    [init] of that process returns true, then it names another pid file. *)
Theorem second_start_refused link program args pid p e p' path a a' :
  c_str link = link -> (length link < 1024)%nat -> 1 < pid < 2 ^ 31 ->
  main pid p = Ok e p' -> e <> Returned 0 -> pidfile text text_of (p_app p) = Ok path (p_app p) ->
  snd (fst (write_file (c_str path) (print_number pid) (files_of (p_app p)))) = true -> regular (lstat (files_of (p_app p')) (c_str path)) ->
  lstat (files_of a) (c_str path) = lstat (files_of (p_app p')) (c_str path) ->
  first_line (files_of a) (c_str path) = first_line (files_of (p_app p')) (c_str path) -> process_exists (files_of a) pid = true ->
  (forall conf a0 a1, LoadFromConfDir_path mtime load_file conf a0 = Ok tt a1 ->
    says_running path pid (files_of a0) -> says_running path pid (files_of a1)) ->
  Application_init text text_of mtime load_file (Some link) (program :: args) a = Ok true a' ->
  exists path', pidfile text text_of a' = Ok path' a' /\ c_str path' <> c_str path.
Proof.
  intros Hl Hlen Hp Em He Ep Hw Hreg Els Efl Eex Hkeep Ei. destruct (main_writes _ _ _ _ Em He) as (path0 & written & Ep0 & Ew).
  rewrite Ep in Ep0. injection Ep0 as <-. rewrite Ew in Hw. cbn in Hw. subst written.
  pose proof (write_file_line _ _ _ _ Ew Hreg (proj1 (pid_text pid ltac:(lia)))) as Hline.
  destruct (app_init_ready text text_of mtime load_file link program args a a' Hl Hlen Ei) as (_ & a0 & a1 & conf & work & file & Ea & El & Ep' & Er & _).
  exists (pid_path work file). split; [done|]. intros Ec. destruct (Hkeep conf a0 a1 El) as (K1 & K2 & K3).
  { unfold says_running. rewrite Ea, Els, Efl. by split_and!. }
  rewrite <- Ec in K1, K2. by rewrite (running_pid _ (pid_path work file) pid Hp K1 K2 K3) in Er.
Qed.
End run.

(** ** An example *)

Import SampleOs.
#[export] Instance sample_resolver : Resolver := {
  getaddrinfo _ _ _ _ _ _ := Some [SaIn (new_IPv4Address 0 0)]; getifaddrs := Some [] }.
Definition unix_conf : HttpServerConf := mkConf [str "/run/wyze.sock"] 1 5000 (str "local").
Definition other_conf : HttpServerConf := mkConf [str "/run/other.sock"] 0 30000 [].
Lemma servers_run_witness : exists servers w1, let w := (∅ : SampleOs.os) in
  main_fiber (fun w => w) 120000 [unix_conf; other_conf] [] w = Ok (servers, true) w1 /\
  servers_started w [(unix_conf, [Unix 17 (str "/run/wyze.sock")]); (other_conf, [Unix 18 (str "/run/other.sock")])] servers w1.
Proof.
  destruct (servers_run (fun w => w) 120000 (fun _ => eq_refl) [unix_conf; other_conf]
    [[Unix 17 (str "/run/wyze.sock")]; [Unix 18 (str "/run/other.sock")]] (∅ : SampleOs.os)) as (servers & all & w1 & w' & runs & rest & E & Hz & Hf & _ & _ & Hr).
  - constructor; [|constructor; [|constructor]]; intros w; reflexivity.
  - exists servers, w1. destruct all; [|exfalso].
    + destruct Hr as [-> ->]. rewrite app_nil_r in Hz. split; [exact E|]. rewrite <- Hz in Hf. exact Hf.
    + vm_compute in E. discriminate E.
Defined.

Import ConfigSpec.Sample.
(** A disk of one directory, and the processes that run *)
Module SamplePids.
Record disk := mkDisk { names : list (bytes * bytes); pids : list Z }.
Definition find_file (f : disk) (p : bytes) : option bytes := snd <$> List.find (fun e => bool_decide (fst e = p)) (names f).
Fixpoint first_line_of (s : bytes) : bytes :=
  match s with [] => [] | b :: s => if bool_decide (b = Byte.x0a) then [] else b :: first_line_of s end.
#[export] Instance posix_disk : Posix disk := {
  lstat f p := if bool_decide (p = str "/run") then Some 16384 else (fun _ => 32768) <$> find_file f p;
  access _ _ := false; mkdir _ f := (false, f); rmdir _ f := (false, f); unlink _ f := (false, f); rename _ _ f := (false, f);
  symlink _ _ f := (false, f); realpath _ _ := None; readdir _ _ := None; first_line f p := first_line_of <$> find_file f p;
  process_exists f pid := existsb (Z.eqb pid) (pids f); open_append _ f := (true, f) }.
#[export] Instance writable_disk : Writable disk := {
  write_file p t f := (true, true, mkDisk ((p, t) :: names f) (pids f)) }.
#[export] Instance writable_disk_laws : WritableLaws disk.
Proof.
  intros p t f f' [= <-] _ Ht. cbn. unfold find_file. cbn. rewrite bool_decide_true by done. cbn. f_equal.
  induction t as [|b t IH]; [done|]. apply not_elem_of_cons in Ht as [Hb Ht]. cbn. rewrite bool_decide_false by done. by rewrite IH.
Qed.
#[export] Instance text_types : VarTypes := {
  vt := bool; vt_val b := if b then list HttpServerConf else bytes;
  vt_val_eq_dec b := match b with true => _ | false => _ end;
  vt_from b := match b with true => fun _ => None | false => Some end;
  vt_to b := match b with true => fun _ => None | false => Some end }.

(** The application of a process whose documents name the pid file [name] *)
Definition app (name : bytes) (f : disk) : Application (F := disk) := mkApplication new_Env
  (ran (Lookup (H := text_types) false (str "server.work_path") (str "/run") [] ;;; Lookup (H := text_types) false (str "server.pid_file") name [] ;;;
        Lookup (H := text_types) true (str "http_servers") ([] : list HttpServerConf) []) (mkConfig ∅ (fun _ => 0) ∅ f)).
Definition first_process : Process (W := SampleOs.os) := mkProcess (app (str "a.pid") (mkDisk [] [42])) ∅.
Abbreviation sample_main := (Application_main (H := text_types) (W := SampleOs.os) false id true id (fun w => w) 120000 42).
Definition after_main : Process (W := SampleOs.os) := ran sample_main first_process.
Definition second_app := app (str "b.pid") (world (app_config (p_app after_main))).
Abbreviation sample_init := (Application_init (H := text_types) (N := gen_tree bytes) false id (fun _ _ => None) (fun _ _ => None)
  (Some (str "/usr/bin/server")) [str "server"]).
End SamplePids.

Import SamplePids.
Lemma second_start_refused_witness : exists path', pidfile (H := text_types) false id (ran sample_init second_app) = Ok path' (ran sample_init second_app) /\
  c_str path' <> str "/run/a.pid".
Proof.
  apply (second_start_refused (H := text_types) (W := SampleOs.os) (N := gen_tree bytes) false id true id (fun w => w) 120000 (fun _ _ => None) (fun _ _ => None)
    (str "/usr/bin/server") (str "server") [] 42 first_process (Serving []) after_main (str "/run/a.pid") second_app).
  - reflexivity.
  - apply Nat.ltb_lt. vm_compute. reflexivity.
  - lia.
  - refine (ran_returned sample_main first_process (Serving []) _). vm_compute. reflexivity.
  - done.
  - assert (pidfile (H := text_types) false id (p_app first_process) = Ok (str "/run/a.pid") (ran (pidfile (H := text_types) false id) (p_app first_process))) as E
      by (apply ran_returned; vm_compute; reflexivity). rewrite (proj1 (pidfile_texts (H := text_types) false id _ _ _ E)) in E. exact E.
  - vm_compute. reflexivity.
  - exists 32768. vm_compute. done.
  - vm_compute. reflexivity.
  - vm_compute. reflexivity.
  - vm_compute. reflexivity.
  - intros conf a0 a1 E Hr. unfold LoadFromConfDir_path, bind, get, on_config in E. cbn in E. injection E as <-. exact Hr.
  - refine (ran_returned sample_init second_app true _). vm_compute. reflexivity.
Defined.
