(* ===== verification/Client.v ===== *)
(** * HTTP clients: requests from a URL to a result (src/wyze/http/http_connection.cpp)

    [DoRequest] and the pool's [doRequest], from the text of a URL through the address, the socket and
    the connection to the result.  A connection reads and writes the descriptor of its socket.  When it
    closes the socket, the system is told when the exchange is over: nothing is called of the world in between. *)

From S2P Require Import Socket Prelude ByteArray Stream Containers Http HttpParser HttpSession HttpConnection Uri Address Resolve.

Section client.
Context {W : Type} `{SocketApi W} `{Resolver} `{Allocator} {P : Type} `{ClientMachine P} (lexical_cast : bytes -> option Z).
(** [errno] of the world; the configured sizes, and a bound on the chunks of a response *)
Context (errno : W -> Z) (configured max_body : Z) (chunks : nat).

(** [recv] and [send] of a descriptor *)
Definition fd_kernel (fd : Z) : Kernel W := {|
  k_recv n := fun w => let '(r, w) := sa_recv fd n 0 w in Ok r w;
  k_send d := fun w => let '(rt, w) := sa_send fd d 0 w in Ok rt w |}.

(** [sendRequest], [recvResponse], and what they come to *)
Definition exchange (fd : Z) (req : HttpRequest) : M (W * HttpConnection) HttpResult :=
  rt <- sendRequest (H := fd_kernel fd) req ;;
  if rt =? 0 then ret (mkResult CLOSE_BY_PEER None)
  else if rt <? 0 then ret (mkResult SOCKET_ERROR None)
  else
    rsp <- recvResponse (H := fd_kernel fd) lexical_cast chunks configured max_body ;;
    match rsp with
    | None => s <- get ;; ret (mkResult (if errno (fst s) =? 0 then CLOSE_BY_PEER else TIMEOUT) None)
    | Some r => ret (mkResult OK_ (Some r))
    end.

(** A socket lives until its block is left: its destructor closes it. *)
Definition with_socket {A} (x : Socket.Socket) (m : M (Socket.Socket * W) A) : M W A := fun w =>
  match m (x, w) with
  | Ok a s => match Socket.Socket_close s with Ok _ s => Ok a (snd s) | Throw e s => Throw e (snd s) | Undef u => Undef u end
  | Throw e s => match Socket.Socket_close s with Ok _ s | Throw _ s => Throw e (snd s) | Undef u => Undef u end
  | Undef u => Undef u
  end.
(** A connection over the socket, which it closes at the latest when it is destroyed *)
Definition with_connection {A} (now : Z) (m : Z -> M (W * HttpConnection) A) : M (Socket.Socket * W) A := fun s =>
  let x := fst s in
  let conn := new_HttpConnection configured now (mkSocket (Socket.m_sock x) (Socket.m_isConnected x)) true in
  match m (Socket.m_sock x) (snd s, conn) with
  | Ok a (w, _) => (Socket.Socket_close ;;; ret a) (x, w)
  | Throw e (w, _) => (Socket.Socket_close ;;; throw e) (x, w)
  | Undef u => Undef u
  end.

(** [DoRequest(req, uri, timeout_ms)] *)
Definition uri_address (u : Uri) : option Address :=
  createAddress (fun host => LookupAnyIPAddress host Socket.AF_INET 0 0) ip_setPort u.
Definition DoRequest (now : Z) (req : HttpRequest) (uri : Uri) (timeout_ms : Z) : M W HttpResult :=
  match uri_address uri with
  | None => ret (mkResult INVALID_HOST None)
  | Some addr =>
      with_socket (CreateTCP (to_Addr addr))
        (ok <- Socket_connect (to_Addr addr) (u64 (-1)) ;;
         if negb ok then ret (mkResult CONNECT_FAIL None)
         else setRecvTimeout (s64 timeout_ms) ;;; with_connection now (fun fd => exchange fd req))
  end.

(** [DoRequest(method, uri, ...)], and [DoRequest(method, url, ...)] of a text *)
Definition DoRequest_uri (now : Z) (method : HttpMethod) (uri : Uri) (timeout_ms : Z) (headers : list (bytes * bytes)) (body : bytes) : M W HttpResult :=
  DoRequest now (build_request method (ur_getPath uri) (ur_query uri) (ur_fragment uri) (ur_host uri) headers body) uri timeout_ms.
Definition of_url (url : bytes) (k : Uri -> M W HttpResult) : M W HttpResult := fun w =>
  match Uri_Create url with
  | Ok None _ => Ok (mkResult INVALID_URL None) w
  | Ok (Some uri) _ => k uri w
  | Throw e _ => Throw e w
  | Undef u => Undef u
  end.
Definition DoRequest_url (now : Z) (method : HttpMethod) (url : bytes) (timeout_ms : Z) (headers : list (bytes * bytes)) (body : bytes) : M W HttpResult :=
  of_url url (fun uri => DoRequest_uri now method uri timeout_ms headers body).
Definition DoGet (now : Z) (url : bytes) (timeout_ms : Z) (headers : list (bytes * bytes)) (body : bytes) : M W HttpResult :=
  of_url url (fun uri => DoRequest_uri now GET uri timeout_ms headers body).
Definition DoPost (now : Z) (url : bytes) (timeout_ms : Z) (headers : list (bytes * bytes)) (body : bytes) : M W HttpResult :=
  of_url url (fun uri => DoRequest_uri now POST uri timeout_ms headers body).

(** ** The pool, with the descriptors of its connections *)

Definition conn_fd (c : HttpConnection) : Z := m_sock (ss_sock (hc_stream c)).
Definition release_fd (fd : Z) : M W unit := fun w => if fd =? -1 then Ok tt w else Ok tt (snd (sa_close fd w)).
Fixpoint delete_all (l : list HttpConnection) : M W unit :=
  match l with [] => ret tt | c :: l => release_fd (conn_fd c) ;;; delete_all l end.

(** The part of [getConnection()] behind [if(!raw_ptr)] *)
Definition pool_connect (now : Z) (p : HttpConnectionPool) : M W (option HttpConnection) := fun w =>
  match LookupAnyIPAddress (m_host p) Socket.AF_INET SOCK_STREAM 0 with
  | None => Ok None w
  | Some addr =>
      let addr := to_Addr (ip_setPort (m_port p) addr) in
      match Socket_connect addr (u64 (-1)) (CreateTCP addr, w) with
      | Ok true (x, w) => Ok (Some (new_HttpConnection configured now (mkSocket (Socket.m_sock x) (Socket.m_isConnected x)) true)) w
      | Ok false s => match Socket.Socket_close s with Ok _ s => Ok None (snd s) | Throw e s => Throw e (snd s) | Undef u => Undef u end
      | Throw e s => Throw e (snd s)
      | Undef u => Undef u
      end
  end.
Definition pool_getConnection (now : Z) : M (W * HttpConnectionPool) (option HttpConnection) := fun s =>
  let p := snd s in
  let '(_, idle, gone) := take_idle p now (m_conns p) in
  match (delete_all (take gone (m_conns p)) ;;; match idle with Some _ => ret None | None => pool_connect now p end) (fst s) with
  | Ok fresh_conn w => let '(p, r) := getConnection now fresh_conn p in Ok r (w, p)
  | Throw e w => Throw e (w, p)
  | Undef u => Undef u
  end.
(** [ReleasePtr], with the deletion of a connection that is not kept *)
Definition pool_release (now : Z) (c : HttpConnection) : M (W * HttpConnectionPool) unit := fun s =>
  let p' := ReleasePtr now c (snd s) in
  if (length (m_conns (snd s)) <? length (m_conns p'))%nat then Ok tt (fst s, p')
  else match release_fd (conn_fd c) (fst s) with Ok _ w => Ok tt (w, p') | Throw e w => Throw e (w, p') | Undef u => Undef u end.

(** What happens to a connection at the end of [doRequest], whether it returns or throws *)
Definition give_back (now fd : Z) (c : HttpConnection) : M (W * HttpConnectionPool) unit :=
  (fun s => match (if conn_fd c =? fd then ret tt else release_fd fd) (fst s) with
            | Ok _ w => Ok tt (w, snd s) | Throw e w => Throw e (w, snd s) | Undef u => Undef u
            end) ;;;
  pool_release now c.

(** [doRequest(req, timeout_ms)]; [now] and [now'] are the times at which a connection is taken and given
    back.  The address that [getRemoteAddress()] asks the system for is only part of the error texts, which are not
    modelled. *)
Definition pool_doRequest (now now' : Z) (req : HttpRequest) (timeout_ms : Z) : M (W * HttpConnectionPool) HttpResult :=
  c <- pool_getConnection now ;;
  match c with
  | None => ret (mkResult POOL_GET_CONNECTION None)
  | Some c => fun s =>
      let fd := conn_fd c in
      let w := if fd =? -1 then fst s else snd (sa_setsockopt fd SO_RCVTIMEO (timeval_of (s64 timeout_ms)) (fst s)) in
      match exchange fd req (w, c) with
      | Ok r (w, c') => (give_back now' fd c' ;;; ret r) (w, snd s)
      | Throw e (w, c') => (give_back now' fd c' ;;; throw e) (w, snd s)
      | Undef u => Undef u
      end
  end.

(** The other [doRequest], [doGet] and [doPost], of a path and of a Uri *)
Definition pool_doRequest_url (now now' : Z) (method : HttpMethod) (url : bytes) (timeout_ms : Z) (headers : list (bytes * bytes)) (body : bytes)
    : M (W * HttpConnectionPool) HttpResult := fun s =>
  pool_doRequest now now' (pool_request (snd s) method url headers body) timeout_ms s.
Definition pool_doGet (now now' : Z) := pool_doRequest_url now now' GET.
Definition pool_doPost (now now' : Z) := pool_doRequest_url now now' POST.
Definition pool_doGet_of_uri (now now' : Z) (uri : Uri) (timeout_ms : Z) (headers : list (bytes * bytes)) (body : bytes)
    : M (W * HttpConnectionPool) HttpResult := fun s =>
  pool_doRequest now now' (pool_doGet_uri (snd s) (ur_host uri) (ur_query uri) (ur_fragment uri) headers body) timeout_ms s.
Definition pool_doPost_of_uri (now now' : Z) (uri : Uri) (timeout_ms : Z) (headers : list (bytes * bytes)) (body : bytes)
    : M (W * HttpConnectionPool) HttpResult := fun s =>
  pool_doRequest now now' (pool_doPost_uri (snd s) (ur_host uri) (ur_query uri) (ur_fragment uri) headers body) timeout_ms s.
Definition pool_doRequest_uri (now now' : Z) (method : HttpMethod) (uri : Uri) (timeout_ms : Z) (headers : list (bytes * bytes)) (body : bytes)
    : M (W * HttpConnectionPool) HttpResult :=
  pool_doRequest_url now now' method (uri_url (ur_host uri) (ur_query uri) (ur_fragment uri)) timeout_ms headers body.
End client.
