(* ===== verification/ClientSpec.v ===== *)
(** * What clients promise: results, requests and descriptors *)

From S2P Require Import Socket SocketSpec Prelude ByteArray ByteArraySpec Stream StreamSpec Containers Http HttpSpec HttpParser.
From S2P Require Import HttpSession HttpSessionSpec HttpConnection HttpConnectionSpec HttpClientParser HttpClientResponse HttpClientWire.
From S2P Require Import Uri UriSpec Address Resolve Client.

(** ** Runs that change the state only within a relation *)

Section within.
Context {S : Type} (R : relation S) `{!PreOrder R}.
Definition within {A} (m : M S A) : Prop := forall s s', final (m s) = Some s' -> R s s'.

Lemma within_ret {A} (a : A) : within (ret a).
Proof. by intros s s' [= <-]. Qed.
Lemma within_throw {A} e : within (A := A) (throw e).
Proof. by intros s s' [= <-]. Qed.
Lemma within_undef {A} u : within (A := A) (undef u).
Proof. by intros s s' [=]. Qed.
Lemma within_get : within get.
Proof. by intros s s' [= <-]. Qed.
Lemma within_some {A} u (o : option A) : within (or_undef u o).
Proof. destruct o; [apply within_ret|apply within_undef]. Qed.
Lemma within_modify f : (forall s, R s (f s)) -> within (modify f).
Proof. intros Hf s s' [= <-]. apply Hf. Qed.
Lemma within_bind {A B} (m : M S A) (k : A -> M S B) : within m -> (forall a, within (k a)) -> within (bind m k).
Proof.
  intros Hm Hk s s'. unfold bind. specialize (Hm s). destruct (m s) as [a s1|e s1|u]; [|intros [= <-]; by apply Hm|done].
  intros E. transitivity s1; [by apply Hm|]. by apply (Hk a).
Qed.
Lemma within_if {A} (b : bool) (m n : M S A) : within m -> within n -> within (if b then m else n).
Proof. by destruct b. Qed.
End within.

Create HintDb within.
#[export] Hint Extern 1 (within _ (ret _)) => apply within_ret; apply _ : within.
#[export] Hint Extern 1 (within _ (throw _)) => apply within_throw; apply _ : within.
#[export] Hint Extern 1 (within _ (undef _)) => apply within_undef; apply _ : within.
#[export] Hint Extern 1 (within _ get) => apply within_get; apply _ : within.
#[export] Hint Extern 1 (within _ (or_undef _ _)) => apply within_some; apply _ : within.
#[export] Hint Extern 3 (within _ (bind _ _)) => apply within_bind; [apply _| |intros ?] : within.
#[export] Hint Extern 3 (within _ (if ?b then _ else _)) => apply within_if : within.
(** Pairs and options that a step returns are taken apart. *)
Ltac within_cases := repeat match goal with
  | |- within _ (let '(_, _) := ?x in _) => destruct x
  | |- within _ (match ?x with _ => _ end) => destruct x
  end.
Ltac within_steps := repeat first [progress within_cases | apply within_bind; [apply _| |intros ?] | progress auto with within].

(** ** What a connection does to the world is what it receives and sends; its socket is what it was, or closed *)

Definition conn_sock (c : HttpConnection) : Stream.Socket := ss_sock (hc_stream c).

Section connection.
Context {W : Type} `{Kernel W} `{Allocator} {P : Type} `{ClientMachine P} (lexical_cast : bytes -> option Z).
Context (R : relation W) `{!PreOrder R} (recv_kept : forall n, within R (k_recv n)).

Definition conn_kept : relation (W * HttpConnection) := fun s s' =>
  R (fst s) (fst s') /\ (conn_sock (snd s') = conn_sock (snd s) \/ conn_sock (snd s') = mkSocket (-1) false).
#[export] Instance conn_kept_preorder : PreOrder conn_kept.
Proof.
  split; [intros s; by split; [|left]|]. intros a b c [E1 S1] [E2 S2]. split; [by etransitivity|]. destruct S2 as [S2|S2]; [|by right].
  rewrite S2. exact S1.
Qed.

Lemma stream_read ss n : within R (SockStream_read ss n).
Proof. unfold SockStream_read, Socket_recv. apply within_if; auto with within. Qed.
Lemma stream_write ss d : (forall d, within R (k_send d)) -> within R (SockStream_write ss d).
Proof. intros Hs. unfold SockStream_write, Socket_send. apply within_if; auto with within. Qed.

Lemma read_all fuel rd len : (forall n, within R (rd n)) -> forall offset left buffer, within R (readFixSize_loop fuel rd len offset left buffer).
Proof. intros Hrd. induction fuel as [|fuel IH]; intros offset left buffer; cbn [readFixSize_loop]; within_steps. Qed.
Lemma write_all fuel wr len : (forall d, within R (wr d)) -> forall offset left buffer, within R (writeFixSize_loop fuel wr len offset left buffer).
Proof. intros Hwr. induction fuel as [|fuel IH]; intros offset left buffer; cbn [writeFixSize_loop]; within_steps. Qed.

Lemma on_conn_kept {A} (m : SockStream -> M W A) : (forall ss, within R (m ss)) -> within conn_kept (on_conn m).
Proof.
  intros Hm [w c] s'. unfold on_conn. cbn [fst snd]. specialize (Hm (hc_stream c) w). destruct (m (hc_stream c) w) as [a w'|e w'|u]; [| |done].
  all: intros [= <-]; split; [by apply Hm|by left].
Qed.
Lemma conn_close_kept : within conn_kept conn_close.
Proof.
  apply within_modify. intros [w c]. split; [done|]. cbn. unfold Socket_close. destruct (_ =? _); [by left|by right].
Qed.
Lemma saveLeftData_kept d len n : within conn_kept (conn_saveLeftData d len n).
Proof. intros [w c] s'. unfold conn_saveLeftData. destruct (_ && _); [|done]. intros [= <-]. split; [done|by left]. Qed.
Hint Resolve on_conn_kept conn_close_kept saveLeftData_kept stream_read stream_write read_all write_all : within.

Lemma parse_loop_kept fuel bs : forall parser data offset nparse,
  within conn_kept (parse_loop (P := P) fuel bs parser data offset nparse).
Proof. induction fuel as [|fuel IH]; intros parser data offset nparse; cbn [parse_loop]; within_steps. Qed.
Lemma chunk_rest_kept fuel bs : forall data body left, within conn_kept (chunk_rest fuel bs data body left).
Proof. induction fuel as [|fuel IH]; intros data body left; cbn [chunk_rest]; within_steps. Qed.
Hint Resolve parse_loop_kept chunk_rest_kept : within.
Lemma chunk_loop_kept fuel bs mb : forall parser data body offset nparse,
  within conn_kept (chunk_loop (P := P) fuel bs mb parser data body offset nparse).
Proof. induction fuel as [|fuel IH]; intros parser data body offset nparse; cbn [chunk_loop]; within_steps. Qed.
Lemma sized_body_kept data offset nparse len : within conn_kept (sized_body data offset nparse len).
Proof. unfold sized_body, readFixSize. within_steps. Qed.
Hint Resolve chunk_loop_kept sized_body_kept : within.
Lemma recvResponse_kept chunks configured max_body : within conn_kept (recvResponse lexical_cast chunks configured max_body).
Proof.
  intros s. unfold recvResponse. cbv zeta. match goal with |- context [final (?m s)] => assert (within conn_kept m) as Hm end; [within_steps|apply Hm].
Qed.
Lemma sendRequest_kept req : (forall d, within R (k_send d)) -> within conn_kept (sendRequest req).
Proof. intros Hs. unfold sendRequest, writeFixSize. within_steps. Qed.
End connection.

(** ** Connections leave the descriptors alone *)

Section client.
Context {W : Type} `{SocketLaws W} `{Resolver} `{Allocator} {P : Type} `{ClientMachine P} (lexical_cast : bytes -> option Z).
Context (errno : W -> Z) (configured max_body : Z) (chunks : nat).

Definition same_fds : relation W := fun w w' => fds w' = fds w.
#[export] Instance same_fds_preorder : PreOrder same_fds.
Proof. split; [done|]. intros a b c. unfold same_fds. congruence. Qed.

Lemma kernel_recv fd n : within same_fds (k_recv (Kernel := fd_kernel fd) n).
Proof.
  intros w w'. cbn. pose proof (fds_recv fd n 0 w) as E. destruct (sa_recv fd n 0 w) as [r w1]. intros [= <-]. exact E.
Qed.
Lemma kernel_send fd d : within same_fds (k_send (Kernel := fd_kernel fd) d).
Proof.
  intros w w'. cbn. pose proof (fds_send fd d 0 w) as E. destruct (sa_send fd d 0 w) as [r w1]. intros [= <-]. exact E.
Qed.
Section exchanges.
Context (fd : Z).
Lemma exchange_kept req : within (conn_kept same_fds) (exchange lexical_cast errno configured max_body chunks fd req).
Proof.
  pose proof (recvResponse_kept (H := fd_kernel fd) lexical_cast same_fds (kernel_recv fd) chunks configured max_body).
  pose proof (sendRequest_kept (H := fd_kernel fd) same_fds req (kernel_send fd)). unfold exchange. within_steps.
Qed.
(** A response comes exactly with the result OK. *)
Lemma exchange_result req s r s' : exchange lexical_cast errno configured max_body chunks fd req s = Ok r s' -> res r = OK_ <-> rsp r <> None.
Proof.
  unfold exchange. intros (rt & s1 & _ & E)%bind_returns. destruct (rt =? 0); [by injection E as <- _|]. destruct (rt <? 0); [by injection E as <- _|].
  apply bind_returns in E as (x & s2 & _ & E). destruct x as [x|]; [by injection E as <- _|].
  unfold bind, get in E. injection E as <- _. cbn. by destruct (_ =? 0).
Qed.
End exchanges.

(** ** Requests *)

(** A socket stays the owner of what it opens. *)
Definition owner_kept : relation (Socket.Socket * W) := fun s s' => forall base, sock_ok base s -> sock_ok base s'.
#[export] Instance owner_kept_preorder : PreOrder owner_kept.
Proof. split; [by intros s base|]. intros a b c H1' H2' base Hs. by apply H2', H1'. Qed.
Lemma tidy_kept {A} (m : M (Socket.Socket * W) A) : tidy m -> within owner_kept m.
Proof. intros Hm s s' E base Hs. destruct (Hm base s Hs) as (a & s1 & E1 & H1'). rewrite E1 in E. by injection E as <-. Qed.

Lemma with_socket_fds {A} addr (m : M (Socket.Socket * W) A) : within owner_kept m -> within same_fds (with_socket (CreateTCP addr) m).
Proof.
  intros Hm w w' E. unfold with_socket in E. specialize (Hm (CreateTCP addr, w)).
  assert (sock_ok (fds w) (CreateTCP addr, w)) as Hs by (split; cbn; [by rewrite (left_id_L _ _)|apply fds_valid|done]).
  destruct (m (CreateTCP addr, w)) as [a s|e s|u]; [| |done].
  all: destruct (close_tidy (fds w) s (Hm s eq_refl _ Hs)) as (s1 & E1 & _ & _ & _ & Hf).
  all: rewrite E1 in E; by injection E as <-.
Qed.
Lemma with_connection_kept {A} now (m : Z -> M (W * HttpConnection) A) : (forall fd, within (conn_kept same_fds) (m fd)) -> within owner_kept (with_connection configured now m).
Proof.
  intros Hm [x w] s' E base Hs. unfold with_connection in E. cbn [fst snd] in E. specialize (Hm (Socket.m_sock x)).
  set (c := new_HttpConnection _ _ _ _) in E. specialize (Hm (w, c)).
  assert (forall w1, fds w1 = fds w -> sock_ok base (x, w1)) as Hk.
  { intros w1 Hw. destruct Hs as [O1 O2 O3]. split; cbn in *; [congruence|done..]. }
  destruct (m (Socket.m_sock x) (w, c)) as [a [w1 c1]|e [w1 c1]|u]; [| |done].
  all: destruct (Hm (w1, c1) eq_refl) as [Hw _]; destruct (close_tidy base (x, w1) (Hk w1 Hw)) as (s1 & E1 & H1' & _).
  all: rewrite (bind_ok _ _ _ _ _ E1) in E; by injection E as <-.
Qed.

Lemma DoRequest_fds now req uri timeout_ms : within same_fds (DoRequest lexical_cast errno configured max_body chunks now req uri timeout_ms).
Proof.
  unfold DoRequest. destruct (uri_address uri) as [addr|]; [|auto with within]. apply with_socket_fds.
  apply within_bind; [apply _|apply tidy_kept, Socket_connect_tidy|intros ok]. apply within_if; [auto with within|].
  apply within_bind; [apply _|apply tidy_kept, (run_op_tidy (OpSetRecvTimeout _))|intros _].
  apply with_connection_kept. intros fd. apply exchange_kept.
Qed.
Lemma of_url_fds url k : (forall uri, within same_fds (k uri)) -> within same_fds (of_url url k).
Proof.
  intros Hk w w' E. unfold of_url in E. destruct (Uri_Create url) as [[uri|] st|e st|u]; [by apply (Hk uri)|by injection E as <-..|done].
Qed.

(** ** The pool *)

Definition fd_set (l : list HttpConnection) : gset Z := list_to_set (conn_fd <$> l).
(** The idle connections are connected, and each has a descriptor of its own; the others are [base]. *)
Record pool_owns (base : gset Z) (s : W * HttpConnectionPool) : Prop := {
  pw_fds : fds (fst s) = fd_set (m_conns (snd s)) ∪ base;
  pw_own : NoDup (conn_fd <$> m_conns (snd s));
  pw_idle c : c ∈ m_conns (snd s) -> conn_isConnected c = true /\ conn_fd c ∉ base }.

Lemma release_fd_ok fd w : exists w', release_fd fd w = Ok tt w' /\ fds w' = fds w ∖ {[fd]}.
Proof.
  unfold release_fd. destruct (Z.eqb_spec fd (-1)) as [->|Hne]; eexists; (split; [done|]).
  - pose proof (fds_valid w). set_solver.
  - apply fds_close.
Qed.
Lemma delete_all_ok l : forall w, exists w', delete_all l w = Ok tt w' /\ fds w' = fds w ∖ fd_set l.
Proof.
  induction l as [|c l IH]; intros w; cbn [delete_all]; [exists w; split; [done|]; unfold fd_set; set_solver|].
  destruct (release_fd_ok (conn_fd c) w) as (w1 & E1 & F1). destruct (IH w1) as (w2 & E2 & F2). exists w2. run E1. split; [done|].
  rewrite F2, F1. unfold fd_set. cbn. set_solver.
Qed.

(** What [getConnection] drops, takes and leaves *)
Lemma take_idle_split p now l : forall rest r n, take_idle p now l = (rest, r, n) ->
  l = take n l ++ match r with Some c => [c] | None => [] end ++ rest.
Proof.
  induction l as [|c l IH]; intros rest r n E; cbn [take_idle] in E; [by injection E as <- <- <-|].
  destruct (_ || _); [|by injection E as <- <- <-]. destruct (take_idle p now l) as [[rest' r'] n'] eqn:El.
  injection E as <- <- <-. cbn [take app]. f_equal. by apply IH.
Qed.

(** Without what was dropped the pool still owns the rest. *)
Lemma drop_gone base w p gone rest w' : pool_owns base (w, p) -> m_conns p = gone ++ rest -> fds w' = fds w ∖ fd_set gone ->
  fds w' = fd_set rest ∪ base /\ NoDup (conn_fd <$> rest) /\ forall c, c ∈ rest -> conn_isConnected c = true /\ conn_fd c ∉ base.
Proof.
  intros [O1 O2 O3] E F. cbn [fst snd] in *. rewrite E in *. rewrite fmap_app in O2. apply NoDup_app in O2 as (_ & Hd & Hn).
  split_and!; [|done|intros c Hc; apply O3, elem_of_app; by right].
  rewrite F, O1. apply set_eq. intros x. unfold fd_set. rewrite fmap_app, list_to_set_app, elem_of_difference, !elem_of_union, !elem_of_list_to_set.
  split; [naive_solver|]. intros [Hx|Hx]; [split; [by left; right|by intros Hg; apply (Hd x)]|]. split; [by right|].
  intros (c & -> & Hc)%list_elem_of_fmap. by destruct (O3 c) as [_ ?]; [apply elem_of_app; left|].
Qed.

(** A connection that the pool makes has a new descriptor. *)
Lemma pool_connect_ok now p (w : W) base : fds w = base -> exists r w', pool_connect configured now p w = Ok r w' /\
  match r with
  | Some c => fds w' = {[conn_fd c]} ∪ base /\ conn_fd c ∉ base /\ conn_isConnected c = true /\ m_owner (hc_stream c) = true
  | None => fds w' = base
  end.
Proof.
  intros Hw. unfold pool_connect. destruct (LookupAnyIPAddress _ _ _ _) as [a|]; [|by exists None, w]. cbv zeta. set (addr := to_Addr _).
  assert (sock_ok base (CreateTCP addr, w)) as Hs by (split; cbn; [by rewrite (left_id_L _ _)|rewrite <- Hw; apply fds_valid|done]).
  destruct (connect_tidy addr (u64 (-1)) base _ Hs) as ([] & [x w1] & E & H1' & Hc); rewrite E.
  - destruct (Hc eq_refl) as [Hv Hcon]. cbn [fst snd] in *. destruct H1' as [O1 O2 O3]. cbn [fst snd] in *. eexists _, w1. split; [done|].
    unfold own in O1. rewrite (proj2 (Z.eqb_neq _ _) Hv) in O1. by split_and!.
  - destruct (close_tidy base (x, w1) H1') as ([y w2] & E2 & _ & _ & _ & Hf). rewrite E2. by exists None, w2.
Qed.

Lemma getConnection_ok now base s : pool_owns base s -> exists r s', pool_getConnection configured now s = Ok r s' /\
  match r with
  | Some c => pool_owns ({[conn_fd c]} ∪ base) s' /\ conn_fd c ∉ base /\ conn_isConnected c = true
  | None => pool_owns base s'
  end.
Proof.
  intros Ho. destruct s as [w p]. unfold pool_getConnection, getConnection. cbn [fst snd].
  destruct (take_idle p now (m_conns p)) as [[rest r] n] eqn:Et. pose proof (take_idle_split _ _ _ _ _ _ Et) as Es.
  destruct (take_idle_ok _ _ _ _ _ _ Et) as (_ & _ & Hr). destruct (delete_all_ok (take n (m_conns p)) w) as (w1 & E1 & F1). run E1.
  destruct (drop_gone base w p _ _ w1 Ho Es F1) as (Hf & Hn & Hi). destruct r as [c|]; cbn [app] in *.
  - destruct (Hi c) as [Hc Hb]; [apply elem_of_cons; by left|]. cbn in Hn. apply NoDup_cons in Hn as [Hc' Hn].
    eexists _, _. split; [done|]. split; [|done]. split; cbn; [rewrite Hf; unfold fd_set; cbn; set_solver|done|].
    intros d Hd. destruct (Hi d) as [Hd1 Hd2]; [apply elem_of_cons; by right|]. split; [done|]. apply not_elem_of_union. split; [|done].
    intros E%elem_of_singleton. apply Hc'. rewrite <- E. apply list_elem_of_fmap. by exists d.
  - rewrite Hr in *. assert (fds w1 = base) as Hw1 by (rewrite Hf; unfold fd_set; cbn; set_solver).
    destruct (pool_connect_ok now p w1 base Hw1) as (r & w2 & E2 & H2'). rewrite E2.
    assert (forall b t, fds w2 = b -> pool_owns b (w2, with_conns p [] t)) as Hp.
    { intros b t Hb. split; cbn; [rewrite Hb; unfold fd_set; cbn; set_solver|constructor|by intros c ?%elem_of_nil]. }
    destruct r as [c|]; eexists _, _; (split; [reflexivity|]); [destruct H2' as (F2 & Hb & Hc & _); split; [|done]|]; by apply Hp.
Qed.

Lemma give_back_ok now fd base s c : pool_owns ({[fd]} ∪ base) s -> fd ∉ base -> fd <> -1 ->
  conn_sock c = mkSocket fd true \/ conn_sock c = mkSocket (-1) false ->
  exists s', give_back now fd c s = Ok tt s' /\ pool_owns base s'.
Proof.
  intros [O1 O2 O3] Hb Hne Hc. destruct s as [w p]. cbn [fst snd] in *.
  assert (fd ∉ conn_fd <$> m_conns p) as Hnew.
  { intros (d & -> & Hd)%list_elem_of_fmap. destruct (O3 d Hd) as [_ Hx]. set_solver. }
  assert (forall w' t, fds w' = fds w ∖ {[fd]} -> pool_owns base (w', with_conns p (m_conns p) t)) as Hgone.
  { intros w' t Hw'. split; cbn; [|done|intros d Hd; destruct (O3 d Hd) as [? Hx]; split; [done|set_solver]].
    rewrite Hw', O1. unfold fd_set. apply set_eq. intros x. rewrite !elem_of_difference, !elem_of_union, elem_of_list_to_set. set_solver. }
  assert (forall l : list HttpConnection, (length l <? length l)%nat = false) as Hll by (intros l; apply Nat.ltb_irrefl).
  unfold give_back, pool_release, ReleasePtr, conn_isConnected. unfold conn_sock in Hc.
  destruct Hc as [Hc|Hc]; unfold conn_fd at 1; rewrite Hc; cbn [m_sock Stream.m_isConnected hc_stream].
  - rewrite Z.eqb_refl. unfold bind at 1. cbn [ret fst snd]. rewrite Hc. cbn [Stream.m_isConnected negb orb].
    set (c' := mkConnection (hc_stream c) _ _ _ _). destruct (_ || _ || _).
    + rewrite Hll. unfold conn_fd. rewrite Hc. cbn [m_sock]. destruct (release_fd_ok fd w) as (w' & E & F). rewrite E. eexists. split; [done|]. by apply Hgone.
    + cbn [with_conns m_conns]. rewrite (proj2 (Nat.ltb_lt _ _)) by (rewrite length_app; cbn; lia). eexists. split; [done|].
      assert (conn_fd c' = fd) as Ec by (unfold conn_fd, c'; cbn; by rewrite Hc).
      split; cbn.
      * rewrite O1. unfold fd_set. rewrite fmap_app, list_to_set_app_L. cbn. rewrite Ec. set_solver.
      * rewrite fmap_app. apply NoDup_app. split_and!; [done| |apply NoDup_singleton]. cbn. rewrite Ec. by intros x Hx ->%list_elem_of_singleton.
      * intros d [Hd| ->%list_elem_of_singleton]%elem_of_app.
        -- destruct (O3 d Hd) as [? Hx]. split; [done|set_solver].
        -- rewrite Ec. unfold conn_isConnected, c'. cbn. by rewrite Hc.
  - rewrite (proj2 (Z.eqb_neq (-1) fd)) by congruence. destruct (release_fd_ok fd w) as (w' & E & F). unfold bind at 1. cbn [fst snd]. rewrite E.
    rewrite Hc. cbn [Stream.m_isConnected negb orb]. rewrite Hll. unfold conn_fd. rewrite Hc. cbn. eexists. split; [done|]. by apply Hgone.
Qed.

(** A request of the pool leaves it with its own descriptors, and no others. *)
Lemma pool_doRequest_owns now now' req timeout_ms base s s' : pool_owns base s ->
  final (pool_doRequest lexical_cast errno configured max_body chunks now now' req timeout_ms s) = Some s' -> pool_owns base s'.
Proof.
  intros Ho E. unfold pool_doRequest in E. destruct (getConnection_ok now base s Ho) as (r & s1 & E1 & H1'). run E1 in E.
  destruct r as [c|]; [|by injection E as <-]. destruct H1' as (O1 & Hb & Hc). cbv zeta in E. set (fd := conn_fd c) in *.
  set (w := if fd =? -1 then _ else _) in E. assert (fds w = fds (fst s1)) as Hw by (unfold w; destruct (fd =? -1); [done|apply fds_setsockopt]).
  assert (fd <> -1) as Hne.
  { intros Hfd. apply (fds_valid (fst s1)). rewrite (pw_fds _ _ O1), Hfd. set_solver. }
  pose proof (exchange_kept fd req (w, c)) as Hk.
  assert (forall w' c', conn_kept same_fds (w, c) (w', c') -> pool_owns ({[fd]} ∪ base) (w', snd s1) /\ (conn_sock c' = mkSocket fd true \/ conn_sock c' = mkSocket (-1) false)) as Hgive.
  { intros w' c' [F S1]. cbn [fst snd] in *. split; [destruct O1; split; cbn [fst snd]; [congruence|done..]|].
    destruct S1 as [S1|S1]; [left|by right]. rewrite S1. unfold conn_isConnected in Hc. unfold conn_sock, fd, conn_fd. destruct (ss_sock (hc_stream c)). cbn in *. by subst. }
  destruct (exchange _ _ _ _ _ fd req (w, c)) as [a [w' c']|e [w' c']|u]; [| |done].
  all: destruct (Hgive w' c' (Hk _ eq_refl)) as [Hp Hs]; destruct (give_back_ok now' fd base (w', snd s1) c' Hp Hb Hne Hs) as (s2 & E2 & H2').
  all: run E2 in E; by injection E as <-.
Qed.

(** Requests of a pool one after another, each of which returns or throws; what runs in between is not of the pool. *)
Fixpoint pool_requests (rs : list (Z * Z * HttpRequest * Z)) (s : W * HttpConnectionPool) : option (W * HttpConnectionPool) :=
  match rs with
  | [] => Some s
  | (now, now', req, timeout_ms) :: rs =>
      final (pool_doRequest lexical_cast errno configured max_body chunks now now' req timeout_ms s) ≫= pool_requests rs
  end.
Lemma pool_requests_own rs base : forall s s', pool_owns base s -> pool_requests rs s = Some s' -> pool_owns base s'.
Proof.
  induction rs as [|[[[now now'] req] t] rs IH]; intros s s' Ho E; [by injection E as <-|]. cbn [pool_requests] in E.
  destruct (final _) as [s1|] eqn:E1; [|done]. apply (IH s1); [|done]. by eapply pool_doRequest_owns.
Qed.

Lemma with_socket_returns {A} x (m : M (Socket.Socket * W) A) w a w' : with_socket x m w = Ok a w' -> exists s, m (x, w) = Ok a s.
Proof. unfold with_socket. destruct (m (x, w)) as [b s|e s|u]; [|by destruct (Socket.Socket_close s)|done]. destruct (Socket.Socket_close s); [|done..]. intros [= <- _]. by exists s. Qed.
Lemma DoRequest_result now req uri t w r w' : DoRequest lexical_cast errno configured max_body chunks now req uri t w = Ok r w' ->
  res r = OK_ <-> rsp r <> None.
Proof.
  unfold DoRequest. destruct (uri_address uri) as [addr|]; [|by intros [= <- _]]. intros (s & E)%with_socket_returns.
  apply bind_returns in E as (ok & s1 & _ & E). destruct ok; cbn [negb] in E; [|by injection E as <- _].
  apply bind_returns in E as (? & s2 & _ & E). unfold with_connection in E.
  destruct (exchange _ _ _ _ _ _ _ _) as [b [w1 c1]|e [w1 c1]|u] eqn:Ee; [| |done].
  - apply bind_returns in E as (? & s3 & _ & [= <- _]). by eapply exchange_result.
  - by apply bind_returns in E as (? & s3 & _ & ?).
Qed.

(** C20: clients keep no descriptors but those of idle connections.  Whatever the text of the URL, the
    addresses, the peer and the answers of the system: a request of its own leaves open exactly what was
    open before, whether it returns or throws, and its result is OK exactly when it has a response;
    and after any requests of a pool what is open is what was open before and, each once, the
    descriptors of the pool's idle connections, all of which are connected. *)
Theorem requests_keep_descriptors now method url t headers body w rs now0 host port max_size max_alive max_request vhost :
  (forall w', final (DoRequest_url lexical_cast errno configured max_body chunks now method url t headers body w) = Some w' -> fds w' = fds w) /\
  (forall r w', DoRequest_url lexical_cast errno configured max_body chunks now method url t headers body w = Ok r w' -> res r = OK_ <-> rsp r <> None) /\
  (forall w' p, pool_requests rs (w, new_HttpConnectionPool now0 host port max_size max_alive max_request vhost) = Some (w', p) ->
     fds w' = fd_set (m_conns p) ∪ fds w /\ NoDup (conn_fd <$> m_conns p) /\
     forall c, c ∈ m_conns p -> conn_isConnected c = true /\ conn_fd c ∉ fds w).
Proof.
  split_and!.
  - intros w' E. apply (of_url_fds url _ (fun uri => DoRequest_fds now _ uri t) w w' E).
  - intros r w' E. unfold DoRequest_url, of_url in E. destruct (Uri_Create url) as [[uri|] st|e st|u]; [|by injection E as <- _|done..].
    by eapply DoRequest_result.
  - intros w' p E. apply (pool_requests_own rs (fds w)) in E as [O1 O2 O3]; [by split_and!|].
    split; cbn; [unfold fd_set; cbn; set_solver|constructor|by intros c ?%elem_of_nil].
Qed.
End client.

(** ** The whole way, with the machine of httpclient_parser.cpp *)

Section answered.
Context {W : Type} `{SocketLaws W} `{Resolver} `{Allocator} (raw : httpclient_parser) (lexical_cast : bytes -> option Z).
Context (errno : W -> Z) (configured max_body : Z) (chunks : nat).
(** What the kernel promises of every connected descriptor, and that it makes progress *)
Context (on_wire : forall fd, KernelSpec W (H := fd_kernel fd)) (lively : forall fd, @Lively W (fd_kernel fd) (on_wire fd)).
#[local] Instance answered_machine : Machine httpclient_parser := client_machine raw.
#[local] Instance answered_client : ClientMachine httpclient_parser := client_fields raw.

Lemma sendRequest_ok fd req w hc : open (hc_stream hc) -> Z.of_nat (length (rq_dump req)) < 2 ^ 31 ->
  exists w', sendRequest (H := fd_kernel fd) req (w, hc) = Ok (Z.of_nat (length (rq_dump req))) (w', hc) /\
    incoming (KernelSpec := on_wire fd) w' = incoming (KernelSpec := on_wire fd) w /\
    outgoing (KernelSpec := on_wire fd) w' = outgoing (KernelSpec := on_wire fd) w ++ rq_dump req.
Proof.
  intros Ho Hl. set (d := rq_dump req).
  destruct (@writeFixSize_loop_ok W _ (on_wire fd) (lively fd) (hc_stream hc) (Z.of_nat (length d)) (length d) w d 0 (Z.of_nat (length d)))
    as (w' & E & Hi & Hout); try done; try lia; [unfold d; lia|].
  exists w'. split_and!; [|done|exact Hout]. unfold sendRequest. fold d. apply on_conn_ok. unfold writeFixSize. rewrite E. f_equal.
  apply swrap_id; [done|]. unfold d. fits.
Qed.

(** What a response has to satisfy to be read whole *)
Definition readable (r : HttpResponse) : Prop :=
  sendable_rsp r /\ Z.of_nat (length (rs_dump r)) <= buffer_size_of configured /\ Z.of_nat (length (rs_body r)) <= max_body < 2 ^ 63 /\
  (rs_body r <> [] -> lexical_cast (dec_size (rs_body r)) = Some (Z.of_nat (length (rs_body r)))).

(** Receiving sends nothing. *)
Definition same_sent (fd : Z) : relation W := fun w w' => outgoing (KernelSpec := on_wire fd) w' = outgoing (KernelSpec := on_wire fd) w.
Context (silent : forall fd n, within (same_sent fd) (k_recv (Kernel := fd_kernel fd) n)).
Instance same_sent_preorder fd : PreOrder (same_sent fd).
Proof. split; [done|]. intros a b c. unfold same_sent. congruence. Qed.

Lemma exchange_ok fd req r w hc : readable r -> configured < 2 ^ 31 -> @greedy W (fd_kernel fd) (on_wire fd) ->
  open (hc_stream hc) -> left_size hc = 0 -> Z.of_nat (length (rq_dump req)) < 2 ^ 31 ->
  incoming (KernelSpec := on_wire fd) w = rs_dump r ->
  exists r' w' hc', exchange lexical_cast errno configured max_body chunks fd req (w, hc) = Ok (mkResult OK_ (Some r')) (w', hc') /\
    same_response r r' /\ incoming (KernelSpec := on_wire fd) w' = [] /\
    outgoing (KernelSpec := on_wire fd) w' = outgoing (KernelSpec := on_wire fd) w ++ rq_dump req.
Proof.
  intros (Hs & Hb & Hm & Hcast) Hc Hg Ho Hleft Hl Hi. destruct (sendRequest_ok fd req w hc Ho Hl) as (w1 & E1 & Hi1 & Ho1).
  assert (0 < Z.of_nat (length (rq_dump req))) as Hpos by (unfold rq_dump; rewrite !length_app; cbn; lia).
  destruct (@response_arrives W _ (on_wire fd) (lively fd) _ raw lexical_cast chunks configured max_body r w1 hc) as (r' & w2 & hc' & E2 & Hr & Hi2 & _);
    try done; [by rewrite Hi1|].
  change (recvResponse (H := fd_kernel fd) (P := httpclient_parser) lexical_cast chunks configured max_body (w1, hc) = Ok (Some r') (w2, hc')) in E2.
  exists r', w2, hc'. split_and!; [|done|done|].
  - unfold exchange. run E1. rewrite (proj2 (Z.eqb_neq _ 0)), (proj2 (Z.ltb_ge _ 0)) by lia. by run E2.
  - rewrite <- Ho1. destruct (recvResponse_kept (H := fd_kernel fd) lexical_cast (same_sent fd) (silent fd) chunks configured max_body (w1, hc) (w2, hc')) as [Hk _]; [|exact Hk].
    by rewrite E2.
Qed.

(** C3: a URL is answered.  [DoGet] of the text of a Uri whose host can be looked up and connected sends
    the printed request for its path, query and fragment, with its host and the headers and body given.
    When what comes in is a printed response (a head and a body of the length it announces, no chunks) that
    fits the buffer of the parser, and a single read hands all of it over (the kernel is [greedy]: a read
    with room for all that is there takes all of it), then the result is OK with that response, and the
    socket is closed.  The single read is needed: [recvResponse_sized] says of which responses that come
    in pieces [recvResponse] reads and writes outside its buffers. *)
Theorem get_answered now u timeout_ms headers body r addr w x w1 :
  uri_ok u -> LookupAnyIPAddress (ur_host u) Socket.AF_INET 0 0 = Some addr ->
  let a := to_Addr (ip_setPort (u16 (ur_getPort u)) addr) in
  Socket_connect a (u64 (-1)) (CreateTCP a, w) = Ok true (x, w1) ->
  let fd := Socket.m_sock x in
  let w2 := snd (sa_setsockopt fd SO_RCVTIMEO (timeval_of (s64 timeout_ms)) w1) in
  let req := build_request GET (ur_getPath u) (ur_query u) (ur_fragment u) (ur_host u) headers body in
  incoming (KernelSpec := on_wire fd) w2 = rs_dump r -> readable r -> @greedy W (fd_kernel fd) (on_wire fd) ->
  configured < 2 ^ 31 -> Z.of_nat (length (rq_dump req)) < 2 ^ 31 ->
  exists r' w3, DoGet lexical_cast errno configured max_body chunks now (ur_toString u) timeout_ms headers body w =
      Ok (mkResult OK_ (Some r')) (snd (sa_close fd w3)) /\ same_response r r' /\
    incoming (KernelSpec := on_wire fd) w3 = [] /\ outgoing (KernelSpec := on_wire fd) w3 = outgoing (KernelSpec := on_wire fd) w2 ++ rq_dump req.
Proof.
  intros Hu Ha a Ec fd w2 req Hi Hr Hg Hc Hl. destruct (created_same u Hu) as [_ _ Eh Ep Eq Ef Et].
  assert (sock_ok (fds w) (CreateTCP a, w)) as Hs by (split; cbn; [by rewrite (left_id_L _ _)|apply fds_valid|done]).
  destruct (connect_tidy a (u64 (-1)) (fds w) _ Hs) as (ok & s1 & E1 & _ & V1). rewrite Ec in E1. injection E1 as <- <-.
  destruct (V1 eq_refl) as [Hfd Hcon]. cbn [fst] in Hfd, Hcon. fold fd in Hfd.
  set (conn := new_HttpConnection configured now (mkSocket fd (Socket.m_isConnected x)) true).
  destruct (exchange_ok fd req r w2 conn) as (r' & w3 & hc' & E3 & Hsame & Hi3 & Ho3); try done.
  exists r', w3. split_and!; [|done..]. unfold DoGet, of_url. rewrite create_toString by done. unfold DoRequest_uri. rewrite Ep, Eq, Ef, Eh. fold req.
  unfold DoRequest, uri_address, createAddress. rewrite Eh, Et, Ha. cbn [fmap option_fmap option_map]. fold a. unfold with_socket. run Ec. cbn [negb].
  assert (setRecvTimeout (s64 timeout_ms) (x, w1) = Ok tt (x, w2)) as E4.
  { unfold setRecvTimeout, setOption, isVaild, w2. cbv [self bind get ret os fst snd]. fold fd. rewrite (proj2 (Z.eqb_neq _ _) Hfd). cbn [negb].
    unfold fd. by destruct (sa_setsockopt (Socket.m_sock x) SO_RCVTIMEO _ w1). }
  run E4. unfold with_connection. cbn [fst snd]. fold fd. fold conn. rewrite E3. unfold Socket.Socket_close at 1. cbv [self bind get ret os fst snd]. fold fd.
  rewrite (proj2 (Z.eqb_neq _ _) Hfd). cbn [upd modify fst snd]. unfold fd. by destruct (sa_close (Socket.m_sock x) w3).
Qed.
End answered.

(** ** A network to run the model with

    The descriptors of SampleOs; every connection is to a peer that has sent [t_in] and keeps what
    it receives in [t_out]; every address can be connected. *)

Module SampleNet.
Import SampleOs.
Definition net : Type := os * tank.
Definition on_os {A} (f : os -> A * os) (w : net) : A * net := let '(a, o) := f (fst w) in (a, (o, snd w)).
Definition on_tank {A} (m : M tank A) (failed : A) (w : net) : A * net :=
  match m (snd w) with Ok a t => (a, (fst w, t)) | _ => (failed, w) end.
#[export] Instance net_api : SocketApi net := {
  sa_socket f t p := on_os (sa_socket f t p); sa_bind fd a := on_os (sa_bind fd a); sa_listen fd n := on_os (sa_listen fd n);
  sa_connect _ _ w := (0, w); sa_connect_timeout _ _ _ w := (0, w); sa_accept fd := on_os (sa_accept fd); sa_close fd := on_os (sa_close fd);
  sa_setsockopt fd o v := on_os (sa_setsockopt fd o v); sa_getsockopt fd o := on_os (sa_getsockopt fd o);
  sa_getsockname fd := on_os (sa_getsockname fd); sa_getpeername fd := on_os (sa_getpeername fd); sa_fdctx fd := on_os (sa_fdctx fd);
  sa_send _ d _ := on_tank (k_send d) (-1); sa_sendmsg _ d _ := on_tank (k_send (concat d)) (-1);
  sa_sendto _ d _ _ := on_tank (k_send d) (-1); sa_sendmsg_to _ d _ _ := on_tank (k_send (concat d)) (-1);
  sa_recv _ n _ := on_tank (k_recv n) (-1, []); sa_recvmsg _ _ _ w := (-1, [], w); sa_recvfrom _ _ _ w := (-1, [], [], w);
  sa_recvmsg_from _ _ _ w := (-1, [], [], w); sa_cancel _ _ w := (None, w); sa_cancel_all _ w := (None, w) }.

Lemma on_tank_fds {A} (m : M tank A) failed w : open_fds (fst (snd (on_tank m failed w))) = open_fds (fst w).
Proof. unfold on_tank. by destruct (m (snd w)). Qed.
#[export] Instance net_laws : SocketLaws net.
Proof.
  refine {| fds w := open_fds (fst w) |}; try done; intros; try apply on_tank_fds.
  - exact (@fds_valid os api api_laws (fst w)).
  - cbn in H. unfold on_os in H. destruct (opened (fst w)) as [a o] eqn:E. injection H as <- <-. by apply opened_ok.
  - cbn [sa_accept net_api] in H. unfold on_os in H. destruct (sa_accept fd (fst w)) as [a o] eqn:E. injection H as <- <-. exact (@fds_accept os api api_laws fd (fst w) a o E).
  - cbn [sa_close net_api]. unfold on_os. pose proof (@fds_close os api api_laws fd (fst w)) as E. by destruct (sa_close fd (fst w)).
Defined.

(** The laws of the wire are those of [tank]. *)
Definition net_wire (fd : Z) : KernelSpec net (H := fd_kernel fd).
Proof.
  refine (@Build_KernelSpec net (fd_kernel fd) (fun w => t_in (snd w)) (fun w => t_out (snd w)) _ _).
  - intros n [o t] Hn. destruct (k_recv_ok n t Hn) as (rt & d & t' & E & Hr). exists rt, d, (o, t'). cbn [k_recv fd_kernel sa_recv net_api].
    unfold on_tank. cbn [snd fst]. by rewrite E.
  - intros d [o t] Hd. destruct (k_send_ok d t Hd) as (rt & t' & E & Hr). exists rt, (o, t'). cbn [k_send fd_kernel sa_send net_api].
    unfold on_tank. cbn [snd fst]. by rewrite E.
Defined.
Lemma net_lively fd : @Lively net (fd_kernel fd) (net_wire fd).
Proof.
  split.
  - intros n [o t] rt d w' Hn Hi E. cbn [k_recv fd_kernel sa_recv net_api] in E. unfold on_tank in E. cbn [snd fst] in E.
    destruct (k_recv_ok n t Hn) as (rt' & d' & t' & E' & _). rewrite E' in E. injection E as <- <- _. exact (lively_recv n t rt' d' t' Hn Hi E').
  - intros d [o t] rt w' Hd E. cbn [k_send fd_kernel sa_send net_api] in E. unfold on_tank in E. cbn [snd fst] in E.
    destruct (k_send_ok d t Hd) as (rt' & t' & E' & _). rewrite E' in E. injection E as <- _. exact (lively_send d t rt' t' Hd E').
Qed.
Lemma net_greedy fd : @greedy net (fd_kernel fd) (net_wire fd).
Proof.
  intros n [o t] rt d w' Hn E Hl. cbn [k_recv fd_kernel sa_recv net_api] in E. unfold on_tank in E. cbn [snd fst] in E.
  destruct (k_recv n t) as [[rt' d'] t'|e t'|u] eqn:E'; [|exfalso; cbn in E'; by destruct (portion n (t_in t))..].
  injection E as <- <- _. exact (tank_greedy n t rt' d' t' Hn E' Hl).
Qed.
Lemma net_silent fd n : within (same_sent net_wire fd) (k_recv (Kernel := fd_kernel fd) n).
Proof.
  intros [o t] w' E. cbn [k_recv fd_kernel sa_recv net_api] in E. unfold on_tank in E. cbn [snd fst] in E. unfold same_sent. cbn.
  destruct (k_recv n t) as [[rt' d'] t'|e t'|u] eqn:E'; [|by injection E as <-..]. injection E as <-. cbn. cbn in E'.
  destruct (portion n (t_in t)); by injection E' as _ _ <-.
Qed.
Definition answering (r : HttpResponse) : net := (∅, mkTank (rs_dump r) []).
End SampleNet.
Import SampleNet.

#[export] Instance one_host : Resolver := { getaddrinfo _ _ _ _ _ _ := Some [SaIn (new_IPv4Address 0x7f000001 0)]; getifaddrs := None }.

Lemma get_answered_witness : exists r' w3,
  @DoGet net net_api one_host zeroed _ _ (client_fields dirty_client) HttpConnectionSpec.decimal (fun _ => 0) 0 100 1 0 (ur_toString sample_uri) 500 [] [] (answering sample_response) =
    Ok (mkResult OK_ (Some r')) w3 /\ same_response sample_response r'.
Proof.
  destruct (@get_answered net net_api net_laws one_host zeroed dirty_client HttpConnectionSpec.decimal (fun _ => 0) 0 100 1 net_wire net_lively net_silent
    0 sample_uri 500 [] [] sample_response (V4 (new_IPv4Address 0x7f000001 0)) (answering sample_response)
    (fst (ran (Socket_connect (to_Addr (V4 (new_IPv4Address 0x7f000001 8080))) (u64 (-1))) (CreateTCP (to_Addr (V4 (new_IPv4Address 0x7f000001 8080))), answering sample_response)))
    (snd (ran (Socket_connect (to_Addr (V4 (new_IPv4Address 0x7f000001 8080))) (u64 (-1))) (CreateTCP (to_Addr (V4 (new_IPv4Address 0x7f000001 8080))), answering sample_response))))
    as (r' & w3 & E & Hr & _).
  - exact sample_uri_ok.
  - reflexivity.
  - vm_compute. reflexivity.
  - reflexivity.
  - split_and!; [exact sample_sendable_rsp|vm_compute; discriminate|vm_compute; discriminate|lia|reflexivity].
  - apply net_greedy.
  - lia.
  - vm_compute. reflexivity.
  - exists r', (snd (sa_close 0 w3)). split; [exact E|exact Hr].
Defined.

Lemma requests_keep_descriptors_witness : exists w' p,
  @pool_requests net net_api one_host zeroed _ _ (client_fields dirty_client) HttpConnectionSpec.decimal (fun _ => 0) 0 100 1
    [(10, 20, new_HttpRequest 0x11 false, 500)] (answering sample_response, new_HttpConnectionPool 0 (str "local") 80 5 1000 10 []) = Some (w', p) /\
  fds w' = fd_set (m_conns p) ∪ ∅.
Proof.
  eexists _, _. split; [vm_compute; reflexivity|].
  refine (proj1 (proj2 (proj2 (@requests_keep_descriptors net net_api net_laws one_host zeroed _ _ (client_fields dirty_client) HttpConnectionSpec.decimal
    (fun _ => 0) 0 100 1 0 GET [] 0 [] [] (answering sample_response) [(10, 20, new_HttpRequest 0x11 false, 500)] 0 (str "local") 80 5 1000 10 [])) _ _ _)).
  vm_compute. reflexivity.
Defined.
