(* ===== verification/Mysql.v ===== *)
(** * Connections to MySQL and their pool (src/wyze/db)

    A connection over the client library, a class of calls, with the results of queries as lists of
    rows; and the pool of mysqlconn_pool.cpp, whose threads, users and destructor take turns at its
    mutex: each event below is what one of them does between taking the mutex and leaving it or
    waiting.  The file of settings is read by a library: its numbers are parameters. *)

From S2P Require Import Prelude Http.

(** ** MysqlConn *)

Class MysqlApi (W : Type) := {
  mysql_init : W -> bool * W;                                                  (* is it not null? *)
  mysql_set_character_set : bytes -> W -> Z * W;
  mysql_real_connect : bytes -> bytes -> bytes -> bytes -> Z -> W -> bool * W; (* is it the handle? *)
  mysql_query : bytes -> W -> Z * W;
  mysql_store_result : W -> option (Z * list (list bytes)) * W;                (* the number of fields, and the rows *)
  mysql_autocommit : bool -> W -> Z * W;
  mysql_commit : W -> Z * W;
  mysql_rollback : W -> Z * W;
  mysql_close : W -> W }.

(** A result is known by a number; [m_row] points into the result that it was fetched from.
    [res_rows] are the rows that are still to come. *)
Record Result := mkResult { res_id : nat; res_fields : Z; res_rows : list (list bytes) }.
Record MysqlConn := mkConn { m_mysql : bool; m_result : option Result; m_row : option (nat * list bytes); results : nat }.

Section conn.
Context {W} `{MysqlApi W}.

Definition api {A} (call : W -> A * W) : M (MysqlConn * W) A := fun s => let '(r, w) := call (snd s) in Ok r (fst s, w).
Definition conn : M (MysqlConn * W) MysqlConn := x <- get ;; ret (fst x).
Definition set_conn (c : MysqlConn) : M (MysqlConn * W) unit := modify (fun s => (c, snd s)).
Definition with_result r c := mkConn (m_mysql c) r (m_row c) (results c).

Definition new_MysqlConn (w : W) : MysqlConn * W :=
  let '(ok, w) := mysql_init w in
  if negb ok then (mkConn false None None 0, w)
  else let '(_, w) := mysql_set_character_set (str "utf8") w in (mkConn true None None 0, w).
Definition freeResult : M (MysqlConn * W) unit := c <- conn ;; set_conn (with_result None c).
Definition connect (user password dbName ip : bytes) (port : Z) : M (MysqlConn * W) bool :=
  c <- conn ;;
  if negb (m_mysql c) then ret false
  else api (mysql_real_connect (c_str ip) (c_str user) (c_str password) (c_str dbName) port).
(** [update], [transaction], [commit] and [rollback]: one call of the library *)
Definition simple_call (call : W -> Z * W) : M (MysqlConn * W) bool :=
  c <- conn ;; if negb (m_mysql c) then ret false else r <- api call ;; ret (r =? 0).
Definition update (sql : bytes) : M (MysqlConn * W) bool := simple_call (mysql_query (c_str sql)).
Definition transaction : M (MysqlConn * W) bool := simple_call (mysql_autocommit false).
Definition commit : M (MysqlConn * W) bool := simple_call mysql_commit.
Definition rollback : M (MysqlConn * W) bool := simple_call mysql_rollback.
Definition query (sql : bytes) : M (MysqlConn * W) bool :=
  c <- conn ;;
  if negb (m_mysql c) then ret false
  else
    freeResult ;;;
    r <- api (mysql_query (c_str sql)) ;;
    if negb (r =? 0) then ret false
    else
      res <- api mysql_store_result ;;
      c <- conn ;;
      match res with
      | None => ret false
      | Some (fields, rows) =>
          set_conn (mkConn (m_mysql c) (Some (mkResult (results c) fields rows)) (m_row c) (S (results c))) ;;; ret true
      end.
(** [next()]: [mysql_fetch_row] *)
Definition next : M (MysqlConn * W) bool :=
  c <- conn ;;
  match m_result c with
  | None => ret false
  | Some (mkResult id fields []) => set_conn (mkConn (m_mysql c) (m_result c) None (results c)) ;;; ret false
  | Some (mkResult id fields (row :: rows)) =>
      set_conn (mkConn (m_mysql c) (Some (mkResult id fields rows)) (Some (id, row)) (results c)) ;;; ret true
  end.
(** [value(index)]: the row must be of the result that is there. *)
Definition value (index : Z) : M (MysqlConn * W) bytes :=
  c <- conn ;;
  match m_row c, m_result c with
  | Some (id, row), Some r =>
      if (res_fields r <=? index) || (index <? 0) then ret []
      else if (id =? res_id r)%nat then or_undef out_of_bounds (row !! Z.to_nat index) else undef use_after_free
  | _, _ => ret []
  end.
Definition fields : M (MysqlConn * W) Z := c <- conn ;; ret (match m_result c with Some r => res_fields r | None => 0 end).
Definition delete_MysqlConn : M (MysqlConn * W) unit :=
  freeResult ;;; c <- conn ;; if m_mysql c then modify (fun s => (fst s, mysql_close (snd s))) else ret tt.
End conn.

(** ** MysqlConnPool *)

Record PooledConn := mkPooled { conn_id : nat; aliveTime : Z }.
(** The producer is about to take the mutex, waits for [m_getconn], or has returned; the recycler
    sleeps or has returned; the destructor has not begun, joins, or is through. *)
Inductive producer_at := ProducerTop | ProducerWaits | ProducerDone.
Inductive destructor_at := NotBegun | JoinsProducer | JoinsRecycler | Destroyed.
Record Pool := mkPool {
  queue : list PooledConn; lent : list nat; conns_made : nat; isexit : bool;
  producer : producer_at; recycler_done : bool; destructor : destructor_at }.

Section pool.
(** [m_minSize] and [m_maxIdleTime]; [m_maxSize] is read from the file, and never used. *)
Context (minSize maxIdleTime : Z).

Definition with_queue q p := mkPool q (lent p) (conns_made p) (isexit p) (producer p) (recycler_done p) (destructor p).
Definition with_producer x p := mkPool (queue p) (lent p) (conns_made p) (isexit p) x (recycler_done p) (destructor p).
Definition with_recycler_done b p := mkPool (queue p) (lent p) (conns_made p) (isexit p) (producer p) b (destructor p).
Definition with_destructor x p := mkPool (queue p) (lent p) (conns_made p) (isexit p) (producer p) (recycler_done p) x.

(** [m_mysqlConnQueue.size() >= (size_t)m_minSize] *)
Definition enough (q : list PooledConn) : bool := u64 minSize <=? Z.of_nat (length q).
(** [addConnection()]: [connected] says if the server could be reached. *)
Definition addConnection (connected : bool) (now : Z) p : Pool :=
  if connected
  then mkPool (queue p ++ [mkPooled (conns_made p) now]) (lent p) (S (conns_made p)) (isexit p) (producer p) (recycler_done p) (destructor p)
  else p.
(** The constructor: one attempt for each of [m_minSize] connections *)
Fixpoint first_connections (connected : list bool) (now : Z) p : Pool :=
  match connected with [] => p | c :: connected => first_connections connected now (addConnection c now p) end.
Definition new_pool (connected : list bool) (now : Z) : Pool :=
  first_connections connected now (mkPool [] [] 0 false ProducerTop false NotBegun).

(** One turn of [produceConnection]: the predicate of the wait does not look at [isexit]. *)
Definition produce (connected : bool) (now : Z) p : option Pool :=
  let go_on := if isexit p then with_producer ProducerDone p else with_producer ProducerTop (addConnection connected now p) in
  match producer p with
  | ProducerDone => None
  | ProducerTop => Some (if enough (queue p) && negb (isexit p) then with_producer ProducerWaits p else go_on)
  | ProducerWaits => if enough (queue p) then None else Some go_on
  end.
(** The inner loop of [recycleConnection]: the queue behind it, and did it return? *)
Fixpoint recycle_loop (exiting : bool) (now : Z) (q : list PooledConn) : list PooledConn * bool :=
  match q with
  | [] => ([], false)
  | c :: q' =>
      if u64 minSize <? Z.of_nat (length q) then
        if maxIdleTime <=? now - aliveTime c then
          if exiting then (q', true) else recycle_loop exiting now q'
        else (q, false)
      else (q, false)
  end.
Definition recycle (now : Z) p : option Pool :=
  if recycler_done p then None
  else let '(q, returned) := recycle_loop (isexit p) now (queue p) in Some (with_recycler_done (returned || isexit p) (with_queue q p)).
(** [getConnection()], when the queue is not empty: until then it waits.  And the deleter of what it gives. *)
Definition getConnection p : option Pool :=
  match queue p with
  | [] => None
  | c :: q => Some (mkPool q (conn_id c :: lent p) (conns_made p) (isexit p) (producer p) (recycler_done p) (destructor p))
  end.
Definition giveBack (id : nat) (now : Z) p : option Pool :=
  if decide (id ∈ lent p)
  then Some (mkPool (queue p ++ [mkPooled id now]) (filter (fun i => i <> id) (lent p)) (conns_made p) (isexit p) (producer p) (recycler_done p) (destructor p))
  else None.
(** [~MysqlConnPool()] *)
Definition destroy p : option Pool :=
  match destructor p with
  | NotBegun => Some (mkPool (queue p) (lent p) (conns_made p) true (producer p) (recycler_done p) JoinsProducer)
  | JoinsProducer => match producer p with ProducerDone => Some (with_destructor JoinsRecycler p) | _ => None end
  | JoinsRecycler => if recycler_done p then Some (with_destructor Destroyed (with_queue [] p)) else None
  | Destroyed => None
  end.

Inductive pool_event :=
  | EvProduce (connected : bool) (now : Z) | EvRecycle (now : Z) | EvGet | EvGiveBack (id : nat) (now : Z) | EvDestroy.
Definition pool_step (e : pool_event) (p : Pool) : option Pool :=
  match e with
  | EvProduce connected now => produce connected now p
  | EvRecycle now => recycle now p
  | EvGet => getConnection p
  | EvGiveBack id now => giveBack id now p
  | EvDestroy => destroy p
  end.
Fixpoint pool_steps (es : list pool_event) (p : Pool) : option Pool :=
  match es with [] => Some p | e :: es => pool_step e p ≫= pool_steps es end.
End pool.
