(* ===== verification/MysqlSpec.v ===== *)
(** * What the connections and the pool promise, and do not *)

From S2P Require Import Prelude Http Mysql.

(** ** Rows *)

Section rows.
Context {W} `{MysqlApi W}.
Implicit Types (s : MysqlConn * W).

Lemma bind_conn {A} (k : MysqlConn -> M (MysqlConn * W) A) s : bind conn k s = k (fst s) s.
Proof. done. Qed.
Lemma bind_set_conn {A} c (k : unit -> M (MysqlConn * W) A) s : bind (set_conn c) k s = k tt (c, snd s).
Proof. done. Qed.

(** After [next()] the fields are those of the next row. *)
Lemma next_value s c w id n row rows i : s = (c, w) -> m_result c = Some (mkResult id n (row :: rows)) -> Z.of_nat (length row) = n ->
  0 <= i < n -> exists s', next s = Ok true s' /\ m_result (fst s') = Some (mkResult id n rows) /\
  exists v, row !! Z.to_nat i = Some v /\ value i s' = Ok v s'.
Proof.
  intros -> Hr Hn Hi. unfold next. rewrite bind_conn. cbn [fst]. rewrite Hr, bind_set_conn. eexists. split; [reflexivity|]. split; [done|].
  destruct (lookup_lt_is_Some_2 row (Z.to_nat i)) as [v Hv]; [lia|]. exists v. split; [done|].
  unfold value. rewrite bind_conn. cbn [fst m_row m_result res_fields res_id].
  rewrite (proj2 (Z.leb_gt _ _)), (proj2 (Z.ltb_ge _ _)) by lia. cbn [orb]. by rewrite Nat.eqb_refl, Hv.
Qed.

(** A second query frees the result of the first, but not the pointer to its row: until [next()] is
    called, the fields are read from freed memory. *)
Lemma stale_row sql s c w s' id row i : s = (c, w) -> m_row c = Some (id, row) -> (id < results c)%nat ->
  query sql s = Ok true s' -> 0 <= i -> (forall r, m_result (fst s') = Some r -> i < res_fields r) -> value i s' = Undef use_after_free.
Proof.
  intros -> Hrow Hid E Hi Hf. unfold query in E. rewrite bind_conn in E. cbn [fst] in E. destruct (m_mysql c); [|done]. cbn [negb] in E.
  unfold freeResult in E. rewrite bind_assoc, bind_conn in E. cbn [fst] in E. rewrite bind_set_conn in E. cbn [snd] in E.
  apply bind_returns in E as (r & s1 & E1 & E). unfold api in E1. cbn [snd fst] in E1. destruct (mysql_query _ w) as [r' w1]. injection E1 as <- <-.
  destruct (negb (r' =? 0)); [done|]. apply bind_returns in E as (res & s2 & E2 & E). unfold api in E2. cbn [snd fst] in E2.
  destruct (mysql_store_result w1) as [res' w2]. injection E2 as <- <-. rewrite bind_conn in E. destruct res' as [[n rows]|]; [|done].
  rewrite bind_set_conn in E. injection E as <-. specialize (Hf _ eq_refl). cbn in Hf. unfold value. rewrite bind_conn.
  cbn [fst m_row m_result with_result res_fields res_id results]. rewrite Hrow.
  rewrite (proj2 (Z.leb_gt _ _)), (proj2 (Z.ltb_ge _ _)) by lia. cbn [orb]. by rewrite (proj2 (Nat.eqb_neq _ _)) by lia.
Qed.
End rows.

(** ** The pool *)

Section pool.
Context (minSize maxIdleTime : Z).
Hypothesis minSize_ok : in_u 31 minSize.
Implicit Types p : Pool.

(** Every connection is in the queue or lent, once; the threads return only when the pool is destroyed. *)
Definition conns p : list nat := (conn_id <$> queue p) ++ lent p.
Record pool_ok p : Prop := {
  conns_once : NoDup (conns p);
  conns_old : forall id, id ∈ conns p -> (id < conns_made p)%nat;
  producer_exits : producer p = ProducerDone -> isexit p = true;
  recycler_exits : recycler_done p = true -> isexit p = true;
  begun_exits : destructor p <> NotBegun -> isexit p = true }.

Lemma recycle_suffix exiting now q : exists gone, q = gone ++ (recycle_loop minSize maxIdleTime exiting now q).1 /\
  Forall (fun c => maxIdleTime <= now - aliveTime c) gone /\
  (minSize < Z.of_nat (length q) -> minSize <= Z.of_nat (length (recycle_loop minSize maxIdleTime exiting now q).1)) /\
  (Z.of_nat (length q) <= minSize -> gone = []).
Proof.
  assert (u64 minSize = minSize) as Hu by (apply uwrap_id; unfold in_u in *; lia).
  induction q as [|c q IH]; [exists []; split_and!; [done|constructor|cbn; lia|done]|]. cbn [recycle_loop]. rewrite Hu.
  destruct (Z.ltb_spec minSize (Z.of_nat (length (c :: q)))) as [Hlt|Hge]; [|exists []; split_and!; [done|constructor|cbn [fst]; lia|done]].
  destruct (Z.leb_spec maxIdleTime (now - aliveTime c)) as [Hi|Hi]; [|exists []; split_and!; [done|constructor|cbn [fst]; lia|done]].
  cbn [length] in Hlt. destruct exiting.
  - exists [c]. split_and!; [done|by repeat constructor|cbn [fst]; lia|cbn [length]; lia].
  - destruct IH as (gone & E & Hg & Hm & Hn). exists (c :: gone). split_and!; [by rewrite E at 1|by constructor| |cbn [length]; lia].
    intros _. destruct (Z.lt_ge_cases minSize (Z.of_nat (length q))) as [Hl|Hl]; [by apply Hm|]. specialize (Hn Hl). subst gone. cbn [app] in E.
    rewrite <- E. lia.
Qed.

Ltac same_pool := split; [done..|by intros; auto|by intros; auto|by intros; auto].

Lemma add_ok connected now p : pool_ok p -> pool_ok (addConnection connected now p).
Proof.
  intros [H1 H2 H3 H4 H5]. destruct connected; [|done]. split; cbn; [| |done..].
  - unfold conns in *. cbn. rewrite fmap_app, <- app_assoc. apply (NoDup_Permutation_proper _ (conns_made p :: conns p)).
    { unfold conns. cbn. by rewrite Permutation_middle. }
    apply NoDup_cons. split; [|done]. intros Hin. specialize (H2 _ Hin). lia.
  - intros id. unfold conns in *. cbn. rewrite fmap_app, !elem_of_app. cbn. rewrite list_elem_of_singleton. intros [[Hin| ->]|Hin]; [|lia|].
    all: assert (id < conns_made p)%nat by (apply H2, elem_of_app; auto); lia.
Qed.
Lemma steps_fewer p q : (exists gone, queue p = gone ++ q) -> pool_ok p -> forall done' d, (done' = true -> isexit p = true) ->
  (d <> NotBegun -> isexit p = true) ->
  pool_ok (mkPool q (lent p) (conns_made p) (isexit p) (producer p) done' d).
Proof.
  intros [gone E] [H1 H2 H3 H4 H5] done' d Hd Hb. unfold conns in *. rewrite E, fmap_app, <- app_assoc in H1, H2. split; [| |done..]; unfold conns; cbn.
  - by apply NoDup_app in H1 as (_ & _ & ?).
  - intros id Hin. apply H2, elem_of_app. by right.
Qed.

Lemma pool_step_ok e p p' : pool_ok p -> pool_step minSize maxIdleTime e p = Some p' -> pool_ok p'.
Proof.
  intros Hp E. pose proof Hp as [H1 H2 H3 H4 H5]. destruct e as [connected now|now| |id now|]; cbn [pool_step] in E.
  - unfold produce in E. pose proof (add_ok connected now p Hp) as [A1 A2 A3 A4 A5].
    assert (isexit (addConnection connected now p) = isexit p) as Ae by by destruct connected.
    destruct (producer p) eqn:Ep; [|destruct (enough _ _); [done|]|done]; [destruct (enough _ _ && _); [injection E as <-; by split|]|];
      destruct (isexit p) eqn:Ee; injection E as <-; split; cbn; auto; try congruence.
  - unfold recycle in E. destruct (recycler_done p); [done|]. destruct (recycle_suffix (isexit p) now (queue p)) as (gone & Eg & _).
    destruct (recycle_loop minSize maxIdleTime (isexit p) now (queue p)) as [q returned] eqn:Er. injection E as <-. cbn [fst] in Eg.
    apply (steps_fewer p q); [by exists gone|done| |done]. intros [Hr|?]%orb_true_iff; [|done]. subst returned. clear - Er. revert Er.
    generalize (queue p) as l. induction l as [|c l IH]; cbn [recycle_loop]; [done|]. destruct (_ <? _); [|done].
    destruct (_ <=? _); [|done]. by destruct (isexit p).
  - unfold getConnection in E. destruct (queue p) as [|c q] eqn:Eq; [done|]. injection E as <-. unfold conns in *. rewrite Eq in *. cbn in H1, H2.
    assert ((conn_id <$> q) ++ conn_id c :: lent p ≡ₚ conn_id c :: (conn_id <$> q) ++ lent p) as HP by by rewrite Permutation_middle.
    split; [| |done..]; unfold conns; cbn; [by rewrite HP|]. intros id. rewrite HP. apply H2.
  - unfold giveBack in E. case_decide as Hin; [|done]. injection E as <-. unfold conns in *. apply NoDup_app in H1 as (Hq & Hd & Hl).
    split; [| |done..]; unfold conns; cbn; rewrite fmap_app; cbn.
    + rewrite !NoDup_app. split_and!; [done|by intros i Hi ->%list_elem_of_singleton; apply (Hd id)|apply NoDup_singleton| |by apply NoDup_filter].
      intros i [Hi| ->%list_elem_of_singleton]%elem_of_app [Hne Hi']%list_elem_of_filter; [by apply (Hd i)|done].
    + intros i [[Hi| ->%list_elem_of_singleton]%elem_of_app|[_ Hi]%list_elem_of_filter]%elem_of_app; apply H2, elem_of_app; auto.
  - unfold destroy in E. destruct (destructor p) eqn:Ed; [| | |done].
    + injection E as <-. split; cbn; auto.
    + destruct (producer p) eqn:Ep; [done|done|]. injection E as <-. apply (steps_fewer p (queue p)); [by exists []|done|done|]. intros _. by apply H5.
    + destruct (recycler_done p) eqn:Er; [|done]. injection E as <-.
      apply (steps_fewer p []); [exists (queue p); by rewrite app_nil_r|done|by intros _; apply H4|]. intros _. by apply H5.
Qed.
Lemma steps_pool_ok es : forall p p', pool_ok p -> pool_steps minSize maxIdleTime es p = Some p' -> pool_ok p'.
Proof.
  induction es as [|e es IH]; intros p p' Hp E; [by injection E as <-|]. cbn in E. destruct (pool_step _ _ e p) as [p1|] eqn:E1; [|done].
  apply (IH p1); [by eapply pool_step_ok|done].
Qed.
Lemma first_ok connected now : forall p, pool_ok p -> pool_ok (first_connections connected now p).
Proof. induction connected as [|c l IH]; intros p Hp; [done|]. cbn. by apply IH, add_ok. Qed.
Lemma new_pool_ok connected now : pool_ok (new_pool connected now).
Proof. apply first_ok. split; cbn; [constructor|by intros id ?%elem_of_nil|done..]. Qed.

(** Connections are kept once.  Whatever the threads, the users and the destructor of a pool do,
    in any order: no connection is in the queue twice, nor in the queue while somebody has it; the
    threads return only for the destructor; and a turn of the recycler takes only connections from
    the front that were idle for the whole time, and leaves at least the smallest number. *)
Theorem pool_connections connected now es p : pool_steps minSize maxIdleTime es (new_pool connected now) = Some p ->
  NoDup ((conn_id <$> queue p) ++ lent p) /\
  (producer p = ProducerDone \/ recycler_done p = true -> isexit p = true) /\
  forall now' p', pool_step minSize maxIdleTime (EvRecycle now') p = Some p' -> lent p' = lent p /\
    exists gone, queue p = gone ++ queue p' /\ Forall (fun c => maxIdleTime <= now' - aliveTime c) gone /\
    (gone <> [] -> minSize <= Z.of_nat (length (queue p'))).
Proof.
  intros E. pose proof (steps_pool_ok es _ _ (new_pool_ok connected now) E) as [H1 H2 H3 H4 H5]. split_and!; [done|by intros [?|?]; auto|].
  intros now' p' E'. cbn in E'. unfold recycle in E'. destruct (recycler_done p); [done|].
  destruct (recycle_suffix (isexit p) now' (queue p)) as (gone & Eg & Hg & Hm & Hn).
  destruct (recycle_loop _ _ _ _ _) as [q returned]. injection E' as <-. split; [done|]. exists gone. split_and!; [done..|].
  intros Hne. cbn. destruct (Z.lt_ge_cases minSize (Z.of_nat (length (queue p)))) as [Hl|Hl]; [by apply Hm|]. by destruct (Hne (Hn Hl)).
Qed.

(** Without users that take connections, a producer that waits waits for ever. *)
Lemma producer_stuck e p p' : producer p = ProducerWaits -> minSize <= Z.of_nat (length (queue p)) -> e <> EvGet ->
  destructor p = NotBegun \/ destructor p = JoinsProducer -> pool_step minSize maxIdleTime e p = Some p' ->
  producer p' = ProducerWaits /\ minSize <= Z.of_nat (length (queue p')) /\ (destructor p' = NotBegun \/ destructor p' = JoinsProducer).
Proof.
  intros Hp Hq He Hd E. assert (u64 minSize = minSize) as Hu by (apply uwrap_id; unfold in_u in *; lia).
  destruct e as [connected now|now| |id now|]; cbn [pool_step] in E; [| |done| |].
  - unfold produce in E. rewrite Hp in E. unfold enough in E. by rewrite Hu, (proj2 (Z.leb_le _ _) Hq) in E.
  - unfold recycle in E. destruct (recycler_done p); [done|]. destruct (recycle_suffix (isexit p) now (queue p)) as (gone & Eg & _ & Hm & Hn).
    destruct (recycle_loop _ _ _ _ _) as [q returned]. injection E as <-. cbn in *. split_and!; [done| |done].
    destruct (Z.lt_ge_cases minSize (Z.of_nat (length (queue p)))) as [Hl|Hl]; [by apply Hm|]. specialize (Hn Hl). subst gone. cbn in Eg. by rewrite <- Eg.
  - unfold giveBack in E. case_decide; [|done]. injection E as <-. cbn. rewrite length_app. split_and!; [done|cbn; lia|done].
  - unfold destroy in E. destruct Hd as [Hd|Hd]; rewrite Hd in E; [injection E as <-; cbn; auto|by rewrite Hp in E].
Qed.

(** C40: the destructor hangs.  A pool whose connections could all be made, and whose producer has had
    its first turn, is never destroyed as long as nobody takes a connection: whatever the threads do,
    and whatever is given back, the producer, whose wait does not look at [isexit], goes on waiting,
    and the destructor waits for it. *)
Theorem destructor_hangs now now' es p : 
  pool_steps minSize maxIdleTime (EvProduce true now' :: es) (new_pool (replicate (Z.to_nat minSize) true) now) = Some p -> EvGet ∉ es ->
  producer p = ProducerWaits /\ destructor p <> Destroyed /\
  (destructor p <> NotBegun -> pool_step minSize maxIdleTime EvDestroy p = None).
Proof.
  intros E Hes. assert (u64 minSize = minSize) as Hu by (apply uwrap_id; unfold in_u in *; lia).
  assert (forall n p, let p' := first_connections (replicate n true) now p in length (queue p') = (length (queue p) + n)%nat /\
    producer p' = producer p /\ isexit p' = isexit p /\ destructor p' = destructor p) as Hfirst.
  { intros n. induction n as [|n IH]; intros q; cbn; [by rewrite Nat.add_0_r|]. destruct (IH (addConnection true now q)) as (Hl & ? & ? & ?).
    cbn in Hl. rewrite length_app in Hl. cbn in Hl. split_and!; [lia|done..]. }
  destruct (Hfirst (Z.to_nat minSize) (mkPool [] [] 0 false ProducerTop false NotBegun)) as (Hl & Hp & Hx & Hd). fold (new_pool (replicate (Z.to_nat minSize) true) now) in Hl, Hp, Hx, Hd.
  set (p0 := new_pool _ now) in *. cbn in Hl, Hp, Hx, Hd. unfold in_u in minSize_ok.
  assert (pool_step minSize maxIdleTime (EvProduce true now') p0 = Some (with_producer ProducerWaits p0)) as E1.
  { cbn. unfold produce, enough. rewrite Hp, Hx, Hu, Hl. by rewrite (proj2 (Z.leb_le _ _)) by lia. }
  cbn [pool_steps] in E. rewrite E1 in E. cbn [mbind option_bind] in E.
  assert (forall es p p', EvGet ∉ es -> producer p = ProducerWaits -> minSize <= Z.of_nat (length (queue p)) -> destructor p = NotBegun \/ destructor p = JoinsProducer ->
    pool_steps minSize maxIdleTime es p = Some p' -> producer p' = ProducerWaits /\ (destructor p' = NotBegun \/ destructor p' = JoinsProducer)) as Hrun.
  { clear - minSize_ok. intros es. induction es as [|e es IH]; intros p p' Hg Hp Hq Hd E; [by injection E as <-|]. cbn in E.
    destruct (pool_step _ _ e p) as [p1|] eqn:E1; [|done]. apply not_elem_of_cons in Hg as [Hne Hg].
    destruct (producer_stuck e p p1 Hp Hq ltac:(congruence) Hd E1) as (? & ? & ?). by apply (IH p1). }
  destruct (Hrun es (with_producer ProducerWaits p0) p Hes) as [Hw Hdd]; [done|cbn; lia|by left|done|].
  split_and!; [done|by destruct Hdd as [-> | ->]|]. intros Hb. destruct Hdd as [|Hj]; [done|]. cbn. unfold destroy. by rewrite Hj, Hw.
Qed.
End pool.

Lemma pool_connections_witness : exists p, pool_steps 2 1000 [EvGet; EvProduce true 50; EvGiveBack 0 100; EvRecycle 5000] (new_pool [true; true] 0) = Some p /\
  NoDup ((conn_id <$> queue p) ++ lent p).
Proof.
  eexists. split; [reflexivity|]. apply (pool_connections 2 1000 ltac:(unfold in_u; lia) [true; true] 0 [EvGet; EvProduce true 50; EvGiveBack 0 100; EvRecycle 5000]).
  reflexivity.
Defined.
Lemma destructor_hangs_witness : exists p, pool_steps 2 1000 [EvProduce true 10; EvDestroy; EvRecycle 5000] (new_pool [true; true] 0) = Some p /\
  pool_step 2 1000 EvDestroy p = None.
Proof.
  eexists. split; [reflexivity|].
  apply (destructor_hangs 2 1000 ltac:(unfold in_u; lia) 0 10 [EvDestroy; EvRecycle 5000]); [reflexivity| |done].
  intros H. repeat (apply elem_of_cons in H as [[=]|H]). by apply elem_of_nil in H.
Defined.
