(* ===== verification/Crypto.v ===== *)
(** * Digests, RSA and AES (src/wyze/crypto.h, src/wyze/crypto.cpp)

    What the code makes of the OpenSSL calls: buffers, lengths, conditions and texts.  The
    algorithms are a class of operations.  Keys are what OpenSSL keeps of a key file. *)

From S2P Require Import Prelude Http.

Inductive HashType := MD5 | SHA1 | SHA224 | SHA256 | SHA384 | SHA512.
Inductive RsaKeyType := PBULIC_KEY | PRIVATE_KEY | ALL_KEY | UNKNOW_KEY.

Class OpenSsl := {
  hash_ctx : Type;
  hash_init : HashType -> hash_ctx;                  (* <type>_Init *)
  hash_update : bytes -> hash_ctx -> Z * hash_ctx;   (* <type>_Update *)
  hash_final : hash_ctx -> bytes;                    (* <type>_Final *)
  rsa_key : Type;
  rsa_size : rsa_key -> option Z;                    (* RSA_size, of a key with a modulus *)
  pem_public : bytes -> option rsa_key; pem_private : bytes -> option rsa_key;  (* PEM_read_RSA*Key *)
  rsa_new : rsa_key;                                 (* RSA_new(): no modulus *)
  rsa_public_encrypt : bytes -> rsa_key -> Z * bytes;
  rsa_private_decrypt : bytes -> rsa_key -> Z * bytes;
  rsa_sign : Z -> bytes -> rsa_key -> bytes;
  rsa_verify : Z -> bytes -> bytes -> rsa_key -> Z;
  aes_key : Type;
  aes_encrypt_key : bytes -> Z -> option aes_key;    (* AES_set_encrypt_key, of keybits / 8 bytes *)
  aes_decrypt_key : bytes -> Z -> option aes_key;
  aes_cbc_encrypt : aes_key -> bytes -> bytes -> bytes;  (* key, vector and data of whole blocks *)
  aes_cbc_decrypt : aes_key -> bytes -> bytes -> bytes }.

Section crypto.
Context `{OpenSsl} {S : Type}.

(** ** Hash *)

Definition digest_length (type : HashType) : nat :=
  match type with MD5 => 16 | SHA1 => 20 | SHA224 => 28 | SHA256 => 32 | SHA384 => 48 | SHA512 => 64 end.
Record Hash := mkHash { m_type : HashType; m_ctx : hash_ctx }.
Definition new_Hash (type : HashType) : Hash := mkHash type (hash_init type).
Definition addData (data : bytes) (h : Hash) : bool * Hash :=
  let '(r, ctx) := hash_update data (m_ctx h) in (r =? 1, mkHash (m_type h) ctx).

(** [sprintf("%02X", b)] *)
Definition hex_digit (d : Z) : byte := byte.of_Z (if d <? 10 then 48 + d else 55 + d).
Definition hex_byte (b : byte) : bytes := [hex_digit (byte.unsigned b / 16); hex_digit (byte.unsigned b mod 16)].
Definition hashData (h : Hash) : bytes := concat (hex_byte <$> take (digest_length (m_type h)) (hash_final (m_ctx h))).
Definition HashData (type : HashType) (data : bytes) : bytes := hashData (snd (addData data (new_Hash type))).

(** ** Rsa *)

Record Rsa := mkRsa { m_keyType : RsaKeyType; m_keyLen : Z; m_pubKey : option rsa_key; m_priKey : option rsa_key }.
(** [PEM_read_RSA*Key(fp, &key, ...)]: [key] stays as [RSA_new] made it when the file holds no key;
    its modulus, of which [RSA_size] takes the size, is then null. *)
Definition read_key (pem : bytes -> option rsa_key) (file : option bytes) : option rsa_key := (fun f => default rsa_new (pem f)) <$> file.
Definition key_size (key : option rsa_key) : M S Z := or_undef null_deref (key ≫= rsa_size).
(** [Rsa(pub_file, pri_file)]: the contents of the files, nothing when one cannot be opened *)
Definition new_Rsa (pub_file pri_file : option bytes) : M S Rsa :=
  let m_pubKey := read_key pem_public pub_file in
  let m_priKey := read_key pem_private pri_file in
  match pub_file, pri_file with
  | Some _, Some _ => n <- key_size m_pubKey ;; ret (mkRsa ALL_KEY n m_pubKey m_priKey)
  | Some _, None => n <- key_size m_pubKey ;; ret (mkRsa PBULIC_KEY n m_pubKey m_priKey)
  | None, Some _ => n <- key_size m_priKey ;; ret (mkRsa PRIVATE_KEY n m_pubKey m_priKey)
  | None, None => ret (mkRsa UNKNOW_KEY 0 None None)
  end.
(** [Rsa(type, file)] *)
Definition new_Rsa_one (type : RsaKeyType) (file : option bytes) : M S Rsa :=
  match file with
  | None => ret (mkRsa UNKNOW_KEY 0 None None)
  | Some _ =>
      match type with
      | PBULIC_KEY => n <- key_size (read_key pem_public file) ;; ret (mkRsa type n (read_key pem_public file) None)
      | PRIVATE_KEY => n <- key_size (read_key pem_private file) ;; ret (mkRsa type n None (read_key pem_private file))
      | _ => ret (mkRsa type 0 None None)
      end
  end.

(** [data.empty() || data.size() > (size_t)n] *)
Definition bad_size (data : bytes) (n : Z) : bool := empty data || (u64 n <? Z.of_nat (length data)).
Definition rsa_encrypt (data : bytes) (x : Rsa) : bytes :=
  match m_pubKey x with
  | None => []
  | Some key =>
      if bad_size data (m_keyLen x - 11) then []
      else let '(len, enbuf) := rsa_public_encrypt data key in if len =? m_keyLen x then take (Z.to_nat len) enbuf else []
  end.
(** [std::string(buf, -1)] throws a [std::length_error], which is a [std::logic_error]. *)
Definition rsa_decrypt (data : bytes) (x : Rsa) : M S bytes :=
  match m_priKey x with
  | None => ret []
  | Some key =>
      if bad_size data (m_keyLen x) then ret []
      else let '(len, debuf) := rsa_private_decrypt data key in
           if len <? 0 then throw (logic_error "length_error") else ret (take (Z.to_nat len) debuf)
  end.
Definition getRsaType (type : HashType) : Z :=
  match type with MD5 => 4 | SHA1 => 64 | SHA224 => 675 | SHA256 => 672 | SHA384 => 673 | SHA512 => 674 end.
Definition sign (type : HashType) (data : bytes) (x : Rsa) : bytes :=
  match m_priKey x with
  | None => []
  | Some key =>
      if bad_size data (m_keyLen x - 11) then []
      else let signData := rsa_sign (getRsaType type) data key in
           if Z.of_nat (length signData) =? m_keyLen x then signData else []
  end.
Definition verify (type : HashType) (data sign_data : bytes) (x : Rsa) : bool :=
  match m_pubKey x with
  | None => false
  | Some key =>
      if bad_size data (m_keyLen x - 11) || empty sign_data then false
      else negb (rsa_verify (getRsaType type) data sign_data key =? 0)
  end.

(** ** AesCbc *)

Definition AES_BLOCK_SIZE : Z := 16.
Record AesCbc := mkAes { m_key : bytes; m_keybits : Z; m_vec : bytes }.

(** [n] bytes behind a [c_str()]: the text, and its NUL *)
Definition read_text (s : bytes) (n : Z) : M S bytes :=
  if n <=? Z.of_nat (length s) + 1 then ret (take (Z.to_nat n) (s ++ [Byte.x00])) else undef out_of_bounds.
(** The key and the vector, of a copy that the call writes to *)
Definition aes_setup (set_key : bytes -> Z -> option aes_key) (x : AesCbc) : M S (aes_key * bytes) :=
  user_key <- read_text (m_key x) (m_keybits x / 8) ;;
  key <- or_undef uninitialised (set_key user_key (m_keybits x)) ;;
  if AES_BLOCK_SIZE <=? Z.of_nat (length (m_vec x)) then ret (key, take (Z.to_nat AES_BLOCK_SIZE) (m_vec x)) else undef out_of_bounds.
Definition encrypt_length (data : bytes) : Z :=
  let length := u64 (Z.of_nat (length data) + 1) in
  if negb (length mod AES_BLOCK_SIZE =? 0) then u64 ((length / AES_BLOCK_SIZE + 1) * AES_BLOCK_SIZE) else length.
Definition aes_encrypt (data : bytes) (x : AesCbc) : M S bytes :=
  kv <- aes_setup aes_encrypt_key x ;;
  input <- read_text data (encrypt_length data) ;;
  ret (aes_cbc_encrypt (fst kv) (snd kv) input).
(** [std::string((char* )decbuf.get())] reads to the first NUL. *)
Definition to_text (decbuf : bytes) : M S bytes := if decide (Byte.x00 ∈ decbuf) then ret (c_str decbuf) else undef out_of_bounds.
Definition aes_decrypt (data : bytes) (x : AesCbc) : M S bytes :=
  if negb (Z.of_nat (length data) mod AES_BLOCK_SIZE =? 0) then ret []
  else
    kv <- aes_setup aes_decrypt_key x ;;
    to_text (aes_cbc_decrypt (fst kv) (snd kv) data).
End crypto.
