(* ===== verification/CryptoSpec.v ===== *)
(** * What can be decrypted, and what is read behind the ends of texts *)

From S2P Require Import RagelSpec Prelude Http Digits Crypto.

(** What the theorems rely on of OpenSSL: decryption undoes encryption, of whole blocks and of texts
    that fit, with keys that belong together. *)
Class OpenSslLaws `{OpenSsl} := {
  aes_back : forall user bits key, aes_encrypt_key user bits = Some key -> exists key', aes_decrypt_key user bits = Some key' /\
    forall vec data, Z.of_nat (length data) mod AES_BLOCK_SIZE = 0 ->
      length (aes_cbc_encrypt key vec data) = length data /\ aes_cbc_decrypt key' vec (aes_cbc_encrypt key vec data) = data;
  key_pair : rsa_key -> rsa_key -> Prop;
  rsa_back : forall pub pri n data, key_pair pub pri -> rsa_size pub = Some n -> Z.of_nat (length data) <= n - 11 ->
    exists c, rsa_public_encrypt data pub = (n, c) /\ length c = Z.to_nat n /\
    exists d, rsa_private_decrypt c pri = (Z.of_nat (length data), data ++ d);
  rsa_sizes : forall pub pri, key_pair pub pri -> rsa_size pri = rsa_size pub;
  rsa_min : forall key n, rsa_size key = Some n -> 11 <= n < 2 ^ 31 }.

Section aes.
Context `{OpenSslLaws} {S : Type}.
Implicit Types (x : AesCbc) (s : S).

(** A key and a vector that are long enough, and a key size that AES has *)
Definition aes_ok x : Prop := m_keybits x / 8 <= Z.of_nat (length (m_key x)) + 1 /\ 16 <= Z.of_nat (length (m_vec x)) /\
  is_Some (aes_encrypt_key (take (Z.to_nat (m_keybits x / 8)) (m_key x ++ [Byte.x00])) (m_keybits x)).

Lemma aes_setup_ok x s : aes_ok x -> exists key key' vec, aes_setup aes_encrypt_key x s = Ok (key, vec) s /\ aes_setup aes_decrypt_key x s = Ok (key', vec) s /\
  forall data, Z.of_nat (length data) mod AES_BLOCK_SIZE = 0 ->
    length (aes_cbc_encrypt key vec data) = length data /\ aes_cbc_decrypt key' vec (aes_cbc_encrypt key vec data) = data.
Proof.
  intros (Hk & Hv & [key E]). destruct (aes_back _ _ _ E) as (key' & E' & Hb). exists key, key', (take (Z.to_nat AES_BLOCK_SIZE) (m_vec x)).
  unfold aes_setup, read_text. rewrite (proj2 (Z.leb_le _ _) Hk), !bind_ret, E, E', !bind_some.
  rewrite (proj2 (Z.leb_le AES_BLOCK_SIZE _)) by (unfold AES_BLOCK_SIZE; lia). split_and!; [done|done|]. intros data. apply Hb.
Qed.

Lemma encrypt_length_ok data : Z.of_nat (length data) < 2 ^ 63 ->
  Z.of_nat (length data) + 1 <= encrypt_length data < Z.of_nat (length data) + 17 /\ encrypt_length data mod 16 = 0 /\
  (encrypt_length data = Z.of_nat (length data) + 1 <-> (Z.of_nat (length data) + 1) mod 16 = 0).
Proof.
  intros Hl. unfold encrypt_length, AES_BLOCK_SIZE. set (n := Z.of_nat (length data)) in *. assert (0 <= n) by lia.
  replace (u64 (n + 1)) with (n + 1) by (symmetry; apply uwrap_id; fits). pose proof (Z.div_mod (n + 1) 16 ltac:(lia)) as Hd. pose proof (Z.mod_pos_bound (n + 1) 16 ltac:(lia)) as Hm.
  destruct (Z.eqb_spec ((n + 1) mod 16) 0) as [E|E]; cbn [negb]; [split_and!; lia|].
  replace (u64 (((n + 1) / 16 + 1) * 16)) with (((n + 1) / 16 + 1) * 16) by (symmetry; apply uwrap_id; fits).
  split_and!; [lia|lia|apply Z_mod_mult|lia].
Qed.

Lemma c_str_snoc (d : bytes) : c_str (d ++ [Byte.x00]) = c_str d.
Proof. induction d as [|b d IH]; [done|]. cbn [app c_str]. destruct (_ =? 0); [done|]. by rewrite IH. Qed.

(** C36: what AES brings back.  With a key and a vector that are long enough, encrypting a text reads
    behind its end, unless its length is one less than a multiple of sixteen.  A text of such a
    length gives a text that is one byte longer, and decrypting that gives the text back, up to its
    first NUL.  What does not come from such a text, and contains no NUL when it is decrypted, makes
    the decryption read behind its end. *)
Theorem aes_roundtrip x data s : aes_ok x -> Z.of_nat (length data) < 2 ^ 63 ->
  ((Z.of_nat (length data) + 1) mod 16 <> 0 -> aes_encrypt data x s = Undef out_of_bounds) /\
  ((Z.of_nat (length data) + 1) mod 16 = 0 -> exists c, aes_encrypt data x s = Ok c s /\ length c = (length data + 1)%nat /\
     aes_decrypt c x s = Ok (c_str data) s) /\
  (Z.of_nat (length data) mod 16 = 0 -> (Byte.x00 ∉ data) -> exists c, length c = length data /\ aes_decrypt c x s = Undef out_of_bounds).
Proof.
  intros Hx Hl. destruct (aes_setup_ok x s Hx) as (key & key' & vec & E & E' & Hb).
  destruct (encrypt_length_ok data Hl) as (Hlen & Hmod & Hiff). unfold aes_encrypt. rewrite (bind_ok _ _ _ _ _ E). cbn [fst snd]. split_and!.
  - intros Hne. unfold read_text. by rewrite (proj2 (Z.leb_gt _ _)) by lia.
  - intros Heq. apply Hiff in Heq as Hlen'. unfold read_text. rewrite (proj2 (Z.leb_le _ _)) by lia. rewrite bind_ret.
    assert (take (Z.to_nat (encrypt_length data)) (data ++ [Byte.x00]) = data ++ [Byte.x00]) as -> by (apply take_ge; rewrite length_app; cbn; lia).
    assert (Z.of_nat (length (data ++ [Byte.x00])) mod AES_BLOCK_SIZE = 0) as Hd by (rewrite length_app; cbn [length]; unfold AES_BLOCK_SIZE; rewrite <- Heq; f_equal; lia).
    destruct (Hb _ Hd) as [Hc Hdec]. eexists. split; [reflexivity|]. split; [rewrite Hc, length_app; cbn; lia|].
    unfold aes_decrypt. rewrite Hc, Hd. cbn [Z.eqb negb]. rewrite (bind_ok _ _ _ _ _ E'). cbn [fst snd]. rewrite Hdec.
    unfold to_text. rewrite decide_True by (apply elem_of_app; right; by left). by rewrite c_str_snoc.
  - intros Hd Hno. destruct (Hb data Hd) as [Hc Hdec]. exists (aes_cbc_encrypt key vec data). split; [done|].
    unfold aes_decrypt. rewrite Hc. unfold AES_BLOCK_SIZE. rewrite Hd. cbn [Z.eqb negb]. rewrite (bind_ok _ _ _ _ _ E'). cbn [fst snd]. rewrite Hdec.
    unfold to_text. by rewrite decide_False.
Qed.
End aes.

(** ** Digests *)

Section digests.
Context `{OpenSsl}.

Fixpoint unhex (s : bytes) : option bytes :=
  match s with
  | [] => Some []
  | a :: b :: s =>
      match digit_value 16 a, digit_value 16 b with
      | Some x, Some y => cons (byte.of_Z (16 * x + y)) <$> unhex s
      | _, _ => None
      end
  | _ => None
  end.

(** The two digits of a byte are those of its halves. *)
Definition hex_back (b : byte) : bool :=
  match digit_value 16 (hex_digit (byte.unsigned b / 16)), digit_value 16 (hex_digit (byte.unsigned b mod 16)) with
  | Some x, Some y => bool_decide (byte.of_Z (16 * x + y) = b)
  | _, _ => false
  end.
Lemma hex_back_all : forallb hex_back all_bytes = true.
Proof. vm_compute. reflexivity. Qed.

(** The text of a digest has two digits for each byte, from which the bytes can be read. *)
Lemma digest_text h : (digest_length (m_type h) <= length (hash_final (m_ctx h)))%nat ->
  length (hashData h) = (2 * digest_length (m_type h))%nat /\ unhex (hashData h) = Some (take (digest_length (m_type h)) (hash_final (m_ctx h))).
Proof.
  intros Hl. unfold hashData. assert (length (take (digest_length (m_type h)) (hash_final (m_ctx h))) = digest_length (m_type h)) as Hn by (rewrite length_take; lia).
  remember (take (digest_length (m_type h)) (hash_final (m_ctx h))) as l eqn:El. rewrite <- Hn. clear Hn El Hl.
  induction l as [|b l [IH1 IH2]]; [done|]. cbn [fmap list_fmap concat hex_byte app length]. split; [cbn in *; lia|].
  pose proof (all_bytes_ok _ hex_back_all b) as E. unfold hex_back in E. cbn [unhex].
  destruct (digit_value 16 (hex_digit (byte.unsigned b / 16))) as [u|]; [|done]. destruct (digit_value 16 (hex_digit (byte.unsigned b mod 16))) as [v|]; [|done].
  apply bool_decide_eq_true in E. rewrite E. cbn in IH2 |- *. by rewrite IH2.
Qed.
End digests.

(** ** RSA *)

Section rsa.
Context `{OpenSslLaws} {S : Type}.

(** What the public key of a pair encrypts, the private one decrypts; other texts give the empty text. *)
Lemma rsa_roundtrip pub pri x y n data (s : S) : key_pair pub pri -> rsa_size pub = Some n -> m_pubKey x = Some pub -> m_priKey y = Some pri ->
  m_keyLen x = n -> m_keyLen y = n ->
  if decide (data <> [] /\ Z.of_nat (length data) <= n - 11) then rsa_decrypt (rsa_encrypt data x) y s = Ok data s else rsa_encrypt data x = [].
Proof.
  intros Hp Hn Hx Hy Lx Ly. destruct (rsa_min _ _ Hn) as [Hmin Hmax]. unfold rsa_encrypt, bad_size. rewrite Hx, Lx.
  replace (u64 (n - 11)) with (n - 11) by (symmetry; apply uwrap_id; fits). case_decide as Hd.
  - destruct Hd as [Hne Hl]. replace (empty data) with false by (by destruct data). rewrite (proj2 (Z.ltb_ge _ _)) by lia. cbn [orb].
    destruct (rsa_back pub pri n data Hp Hn Hl) as (c & E & Hc & d & Ed). rewrite E, Z.eqb_refl, take_ge by lia.
    unfold rsa_decrypt, bad_size. rewrite Hy, Ly. replace (u64 n) with n by (symmetry; apply uwrap_id; fits).
    replace (empty c) with false by (destruct c; [cbn in Hc; lia|done]). rewrite (proj2 (Z.ltb_ge _ _)) by lia. cbn [orb]. rewrite Ed.
    rewrite (proj2 (Z.ltb_ge _ _)) by lia. by rewrite Nat2Z.id, take_app_length.
  - destruct (empty data || _) eqn:Eb; [done|]. apply orb_false_iff in Eb as [E1 E2%Z.ltb_ge]. destruct Hd. split; [by intros ->|done].
Qed.
(** A text that cannot be decrypted, for which OpenSSL returns -1, makes the call throw. *)
Lemma rsa_decrypt_throws data pri y (s : S) : m_priKey y = Some pri -> bad_size data (m_keyLen y) = false -> fst (rsa_private_decrypt data pri) = -1 ->
  rsa_decrypt data y s = Throw (logic_error "length_error") s.
Proof. intros Hy Hb E. unfold rsa_decrypt. rewrite Hy, Hb. destruct (rsa_private_decrypt data pri) as [len d]. cbn in E. by subst len. Qed.
End rsa.

(** ** An OpenSSL to run the model with: keys are sizes, and nothing is secret *)

Module SampleSsl.
Fixpoint unpad (c : bytes) : bytes := match c with [] => [] | b :: c => if bool_decide (b = Byte.x00) then c else unpad c end.
Definition pad (n : Z) (data : bytes) : bytes := repeat Byte.x01 (Z.to_nat n - length data - 1) ++ [Byte.x00] ++ data.
#[export] Instance open_ssl : OpenSsl := {
  hash_ctx := bytes; hash_init _ := []; hash_update d h := (1, h ++ d); hash_final h := take 16 (h ++ repeat Byte.x00 64);
  rsa_key := Z; rsa_size k := if (11 <=? k) && (k <? 2 ^ 31) then Some k else None;
  pem_public f := Some (Z.of_nat (length f)); pem_private f := Some (Z.of_nat (length f)); rsa_new := 0;
  rsa_public_encrypt d k := (k, pad k d); rsa_private_decrypt c k := (Z.of_nat (length (unpad c)), unpad c);
  rsa_sign _ d k := pad k d; rsa_verify _ d s k := 1;
  aes_key := bytes; aes_encrypt_key u bits := if bits =? 128 then Some u else None; aes_decrypt_key u bits := if bits =? 128 then Some u else None;
  aes_cbc_encrypt _ _ d := d; aes_cbc_decrypt _ _ d := d }.
Lemma unpad_pad k data : unpad (repeat Byte.x01 k ++ [Byte.x00] ++ data) = data.
Proof. by induction k as [|k IH]. Qed.
#[export] Instance open_ssl_laws : OpenSslLaws.
Proof.
  refine {| key_pair := fun a b : rsa_key => a = b |}.
  - intros user bits key E. by exists key.
  - intros pub pri n data <- Hn Hl. cbn in Hn. destruct ((11 <=? pub) && (pub <? 2 ^ 31)) eqn:Eb; [|done]. injection Hn as <-.
    apply andb_true_iff in Eb as [Hb%Z.leb_le _]. exists (pad pub data). split; [done|]. split.
    + unfold pad. rewrite !length_app, repeat_length. cbn [length]. lia.
    + exists []. cbn. unfold pad. by rewrite unpad_pad, app_nil_r.
  - by intros pub pri ->.
  - intros key n E. cbn in E. destruct ((11 <=? key) && (key <? 2 ^ 31)) eqn:Eb; [|done]. injection E as <-. apply andb_true_iff in Eb. lia.
Defined.
End SampleSsl.
Import SampleSsl.

Definition sample_aes : AesCbc := mkAes (str "1234567887654321") 128 (str "0123456789abcdef").
Lemma aes_roundtrip_witness : aes_encrypt (str "a secret") sample_aes tt = Undef out_of_bounds /\
  exists c, aes_encrypt (str "fifteen letters") sample_aes tt = Ok c tt /\ aes_decrypt c sample_aes tt = Ok (str "fifteen letters") tt.
Proof.
  assert (aes_ok sample_aes) as Hok by (split_and!; [vm_compute; discriminate|vm_compute; discriminate|by eexists]). split.
  - apply (aes_roundtrip sample_aes (str "a secret") tt Hok); [vm_compute; reflexivity|vm_compute; discriminate].
  - destruct (proj1 (proj2 (aes_roundtrip sample_aes (str "fifteen letters") tt Hok ltac:(vm_compute; reflexivity))) ltac:(vm_compute; reflexivity))
      as (c & E & _ & D). exists c. split; [exact E|exact D].
Defined.
