(* ===== verification/Log.v ===== *)
(** * Loggers and appenders (src/wyze/log.h, src/wyze/log.cpp)

    Objects live on two heaps, of appenders and of loggers, and a pointer is an index.  What is
    written to the console and to the files is the list [written].  The spin locks are the list
    [held] of those that the running thread holds: to lock one of them again is a deadlock.  A file
    that cannot be opened makes [FSUtil::OpenForWrite] log an error itself, through the logger
    [g_logger], while the locks are held; so [Logger_log] calls itself, within its fuel. *)

From S2P Require Import Yaml Prelude Http LogFormat Util.

(** ** Appenders, loggers and the world around them *)

Inductive AppenderKind :=
  | StdoutAppender
  | FileAppender (m_filename : bytes) (m_lastTime : Z) (is_open : bool).
Record LogAppender := mkAppender {
  ap_kind : AppenderKind; ap_level : Level; ap_formatter : option LogFormatter; ap_hasFormatter : bool }.
Record Logger := mkLogger {
  lg_name : bytes; lg_level : Level; lg_appenders : list nat; lg_format : option LogFormatter; lg_root : option nat }.

Inductive lock := LoggerLock (id : nat) | AppenderLock (id : nat) | ManagerLock.
#[export] Instance lock_eq_dec : EqDecision lock.
Proof. solve_decision. Defined.
Inductive write := Console (text : bytes) | Disk (filename text : bytes).

Record World {F : Type} := mkWorld {
  w_appenders : list LogAppender; w_loggers : list Logger; m_loggers : gmap bytes nat; m_root : nat;
  w_fs : F; written : list write; held : list lock }.
Arguments World F : clear implicits.

(** What [__FILE__], [GetThreadId()], [GetFiberId()], [time(0)], [Thread::GetName()], [errno] and
    [strerror(errno)] are at the time of an event. *)
Record Site := mkSite {
  s_file : bytes; s_line : Z; s_threadId : Z; s_fiberId : Z; s_time : Z; s_threadName : bytes;
  s_errno : Z; s_errstr : bytes }.

Definition with_level (l : Logger) v := mkLogger (lg_name l) v (lg_appenders l) (lg_format l) (lg_root l).
Definition with_appenders (l : Logger) v := mkLogger (lg_name l) (lg_level l) v (lg_format l) (lg_root l).
Definition with_format (l : Logger) v := mkLogger (lg_name l) (lg_level l) (lg_appenders l) v (lg_root l).
Definition with_kind (a : LogAppender) v := mkAppender v (ap_level a) (ap_formatter a) (ap_hasFormatter a).
Definition with_ap_level (a : LogAppender) v := mkAppender (ap_kind a) v (ap_formatter a) (ap_hasFormatter a).
Definition with_formatter (a : LogAppender) v := mkAppender (ap_kind a) (ap_level a) v (ap_hasFormatter a).

Section world.
Context {F : Type}.
Implicit Types w : World F.

Definition set_appenders l w := mkWorld F l (w_loggers w) (m_loggers w) (m_root w) (w_fs w) (written w) (held w).
Definition set_loggers l w := mkWorld F (w_appenders w) l (m_loggers w) (m_root w) (w_fs w) (written w) (held w).
Definition set_fs f w := mkWorld F (w_appenders w) (w_loggers w) (m_loggers w) (m_root w) f (written w) (held w).
Definition set_held h w := mkWorld F (w_appenders w) (w_loggers w) (m_loggers w) (m_root w) (w_fs w) (written w) h.

Definition the_logger (id : nat) : M (World F) Logger := w <- get ;; or_undef null_deref (w_loggers w !! id).
Definition the_appender (a : nat) : M (World F) LogAppender := w <- get ;; or_undef null_deref (w_appenders w !! a).
Definition put_logger (id : nat) (l : Logger) : M (World F) unit := modify (fun w => set_loggers (<[id := l]> (w_loggers w)) w).
Definition put_appender (a : nat) (x : LogAppender) : M (World F) unit :=
  modify (fun w => set_appenders (<[a := x]> (w_appenders w)) w).
Definition new_appender (x : LogAppender) : M (World F) nat :=
  w <- get ;; put (set_appenders (w_appenders w ++ [x]) w) ;;; ret (length (w_appenders w)).
Definition print (x : write) : M (World F) unit :=
  modify (fun w => mkWorld F (w_appenders w) (w_loggers w) (m_loggers w) (m_root w) (w_fs w) (written w ++ [x]) (held w)).

(** [MutexType::Lock lock(m)], until the end of [m]'s scope *)
Definition with_lock {A} (l : lock) (m : M (World F) A) : M (World F) A :=
  w <- get ;;
  if decide (l ∈ held w) then undef deadlock
  else put (set_held (l :: held w) w) ;;; a <- m ;; modify (set_held (held w)) ;;; ret a.

Fixpoint each {A} (f : A -> M (World F) unit) (l : list A) : M (World F) unit :=
  match l with [] => ret tt | x :: l => f x ;;; each f l end.

(** A call that works on the file system *)
Definition on_fs {A} (m : M F A) : M (World F) A := fun w =>
  match m (w_fs w) with
  | Ok a f => Ok a (set_fs f w)
  | Throw e f => Throw e (set_fs f w)
  | Undef u => Undef u
  end.
End world.

(** [WYZE_LOG_LEVEL]: [enabled] is its test. *)
Definition enabled (level : Level) (l : Logger) : bool := level_value (lg_level l) <=? level_value level.
Definition site_event (s : Site) (logger : nat) (level : Level) (content : bytes) : LogEvent :=
  mkLogEvent (s_file s) (s_line s) 0 (s_threadId s) (s_fiberId s) (s_time s) content logger level (s_threadName s).

Definition endl : bytes := [Byte.x0a].
Definition default_pattern : bytes := str "%d{%Y-%m-%d %H:%M:%S}%T%t%T%N%T%F%T[%p]%T[%c]%T%f:%l%T%m%n".

Section log.
Context {F : Type} `{Posix F} (strftime : bytes -> Z -> bytes) (g_logger : nat) (site : Site).

(** ** LogAppender *)

(** [setFormatter(val)] *)
Definition LogAppender_setFormatter (a : nat) (val : option LogFormatter) : M (World F) unit :=
  with_lock (AppenderLock a)
    (x <- the_appender a ;;
     put_appender a (mkAppender (ap_kind x) (ap_level x) val (if val then true else false))).
Definition LogAppender_setLevel (a : nat) (level : Level) : M (World F) unit :=
  x <- the_appender a ;; put_appender a (with_ap_level x level).

(** What [OpenForWrite] logs when a directory cannot be made *)
Definition mkdir_error (dir : bytes) : bytes :=
  str "mkdir " ++ dir ++ str " error, errno=" ++ print_number (s_errno site) ++ str " errstr=" ++ s_errstr site.

(** [FileAppender::reopen()]; [log_error] logs through [g_logger]. *)
Definition reopen (log_error : bytes -> M (World F) unit) (a : nat) : M (World F) bool :=
  with_lock (AppenderLock a)
    (x <- the_appender a ;;
     match ap_kind x with
     | StdoutAppender => undef null_deref
     | FileAppender filename last _ =>
         put_appender a (with_kind x (FileAppender filename last false)) ;;;
         r <- on_fs (OpenForWrite filename) ;;
         (match snd r with Some dir => log_error (mkdir_error dir) | None => ret tt end) ;;;
         put_appender a (with_kind x (FileAppender filename last (fst r))) ;;;
         ret (fst r)
     end).

Definition not_open (filename : bytes) : write := Console (str "not open file: " ++ filename ++ endl).

(** [m_formatter->format(event)] *)
Definition format_event (x : LogAppender) (event : LogEvent) : M (World F) bytes :=
  f <- or_undef null_deref (ap_formatter x) ;;
  l <- the_logger (ev_logger event) ;;
  ret (LogFormatter_format strftime f (lg_name l) event).

(** [StdoutAppender::log(event)], [FileAppender::log(event)] *)
Definition LogAppender_log (log_error : bytes -> M (World F) unit) (a : nat) (event : LogEvent) : M (World F) unit :=
  x <- the_appender a ;;
  if level_value (ap_level x) <=? level_value (ev_level event) then
    match ap_kind x with
    | StdoutAppender => with_lock (AppenderLock a) (text <- format_event x event ;; print (Console text))
    | FileAppender filename m_lastTime _ =>
        let now := ev_time event in
        (if u64 (m_lastTime + 3) <=? now then
           ok <- reopen log_error a ;;
           (if ok : bool then ret tt else print (not_open filename)) ;;;
           x <- the_appender a ;;
           match ap_kind x with
           | FileAppender filename _ is_open => put_appender a (with_kind x (FileAppender filename now is_open))
           | StdoutAppender => ret tt
           end
         else ret tt) ;;;
        with_lock (AppenderLock a)
          (x <- the_appender a ;;
           text <- format_event x event ;;
           match ap_kind x with
           | FileAppender filename _ true => print (Disk filename text)
           | _ => ret tt
           end)
    end
  else ret tt.

(** ** Logger *)

(** [Logger::log(level, event)] *)
Fixpoint Logger_log (fuel : nat) (id : nat) (level : Level) (event : LogEvent) : M (World F) unit :=
  match fuel with
  | O => undef no_fuel
  | S fuel =>
      let log_error content :=
        l <- the_logger g_logger ;;
        if enabled ERROR l then Logger_log fuel g_logger ERROR (site_event site g_logger ERROR content) else ret tt in
      l <- the_logger id ;;
      if level_value (lg_level l) <=? level_value level then
        match lg_appenders l with
        | [] => match lg_root l with Some root => Logger_log fuel root level event | None => ret tt end
        | appenders => with_lock (LoggerLock id) (each (fun a => LogAppender_log log_error a event) appenders)
        end
      else ret tt
  end.

(** [WYZE_LOG_LEVEL(logger, level) << content] *)
Definition WYZE_LOG (fuel : nat) (id : nat) (level : Level) (content : bytes) : M (World F) unit :=
  l <- the_logger id ;;
  if enabled level l then Logger_log fuel id level (site_event site id level content) else ret tt.

Definition addAppender (id : nat) (a : nat) : M (World F) unit :=
  with_lock (LoggerLock id)
    (l <- the_logger id ;;
     x <- the_appender a ;;
     (match ap_formatter x with None => LogAppender_setFormatter a (lg_format l) | Some _ => ret tt end) ;;;
     put_logger id (with_appenders l (lg_appenders l ++ [a]))).

Fixpoint remove_first (a : nat) (l : list nat) : list nat :=
  match l with [] => [] | b :: l => if (b =? a)%nat then l else b :: remove_first a l end.
Definition delAppender (id : nat) (a : nat) : M (World F) unit :=
  with_lock (LoggerLock id) (l <- the_logger id ;; put_logger id (with_appenders l (remove_first a (lg_appenders l)))).
Definition clearAppenders (id : nat) : M (World F) unit :=
  with_lock (LoggerLock id) (l <- the_logger id ;; put_logger id (with_appenders l [])).
Definition setLevel (id : nat) (level : Level) : M (World F) unit := l <- the_logger id ;; put_logger id (with_level l level).

(** [setFormatter(LogFormatter::ptr val)] *)
Definition Logger_setFormatter (id : nat) (val : option LogFormatter) : M (World F) unit :=
  with_lock (LoggerLock id)
    (l <- the_logger id ;;
     put_logger id (with_format l val) ;;;
     each (fun a => with_lock (AppenderLock a)
       (x <- the_appender a ;;
        if negb (ap_hasFormatter x) then put_appender a (with_formatter x val) else ret tt)) (lg_appenders l)).
(** [setFormatter(const std::string& val)] *)
Definition Logger_setPattern (id : nat) (val : bytes) : M (World F) unit :=
  let new_val := new_LogFormatter val in
  if m_error new_val then
    l <- the_logger id ;;
    print (Console (str "Logger setFormatter name = " ++ lg_name l ++ str "value = " ++ val ++ str "invaild formatter" ++ endl))
  else Logger_setFormatter id (Some new_val).

(** ** LoggerManager *)

Definition new_Logger (name : bytes) (root : option nat) : Logger :=
  mkLogger name DEBUG [] (Some (new_LogFormatter default_pattern)) root.

(** [LoggerManager()]: the root logger has the appender 0, for the console. *)
Definition LoggerManager (f : F) : World F :=
  let l := new_Logger (str "root") None in
  mkWorld F [mkAppender StdoutAppender DEBUG (lg_format l) true] [with_appenders l [0%nat]] {[str "root" := 0%nat]} 0 f [] [].

Definition getLogger (name : bytes) : M (World F) nat :=
  with_lock ManagerLock
    (w <- get ;;
     match m_loggers w !! name with
     | Some id => ret id
     | None =>
         let id := length (w_loggers w) in
         put (mkWorld F (w_appenders w) (w_loggers w ++ [new_Logger name (Some (m_root w))]) (<[name := id]> (m_loggers w))
                (m_root w) (w_fs w) (written w) (held w)) ;;;
         ret id
     end).
End log.
