(* ===== verification/LogSpec.v ===== *)
(** * What the log promises

    Loggers that are made by [LoggerManager] and changed by its methods stay well formed; what an
    event writes, and where; that logging ends, and when it does not return. *)

From stdpp Require Import relations.
From S2P Require Import Yaml Prelude Http LogFormat Util UtilSpec Log.

Section frames.
Context {F : Type}.
Implicit Types w : World F.

(** ** Steps *)

Lemma with_lock_ok {A} l (m : M (World F) A) w a w1 : l ∉ held w -> m (set_held (l :: held w) w) = Ok a w1 ->
  with_lock l m w = Ok a (set_held (held w) w1).
Proof.
  intros Hl E. unfold with_lock. rewrite bind_get, decide_False by done. change (bind (put ?w1) ?k w) with (k tt w1).
  cbn beta. by rewrite (bind_ok _ _ _ _ _ E).
Qed.
Lemma with_lock_returns {A} l (m : M (World F) A) w a w' : with_lock l m w = Ok a w' ->
  l ∉ held w /\ exists w1, m (set_held (l :: held w) w) = Ok a w1 /\ w' = set_held (held w) w1.
Proof.
  unfold with_lock. rewrite bind_get. destruct (decide (l ∈ held w)); [done|]. intros E. split; [done|].
  change (bind (put ?w1) ?k w) with (k tt w1) in E. cbn beta in E. apply bind_returns in E as (b & w1 & E1 & E2).
  apply bind_returns in E2 as ([] & w2 & [= <-] & E2). injection E2 as <- <-. by exists w1.
Qed.
Lemma with_lock_held {A} l (m : M (World F) A) w : l ∈ held w -> with_lock l m w = Undef deadlock.
Proof. intros Hl. unfold with_lock. by rewrite bind_get, decide_True. Qed.

Lemma the_logger_ok id w l : w_loggers w !! id = Some l -> the_logger id w = Ok l w.
Proof. intros E. unfold the_logger. by rewrite bind_get, E. Qed.
Lemma the_appender_ok a w x : w_appenders w !! a = Some x -> the_appender a w = Ok x w.
Proof. intros E. unfold the_appender. by rewrite bind_get, E. Qed.
Lemma the_logger_returns id w l w' : the_logger id w = Ok l w' -> w' = w /\ w_loggers w !! id = Some l.
Proof. unfold the_logger. rewrite bind_get. destruct (w_loggers w !! id); [|done]. by intros [= -> ->]. Qed.
Lemma the_appender_returns a w x w' : the_appender a w = Ok x w' -> w' = w /\ w_appenders w !! a = Some x.
Proof. unfold the_appender. rewrite bind_get. destruct (w_appenders w !! a); [|done]. by intros [= -> ->]. Qed.

(** ** What logging leaves as it is: loggers, locks, and appenders but for their streams *)

Definition same_but_stream (x y : LogAppender) : Prop :=
  ap_level x = ap_level y /\ ap_formatter x = ap_formatter y /\ ap_hasFormatter x = ap_hasFormatter y /\
  match ap_kind x, ap_kind y with
  | StdoutAppender, StdoutAppender => True
  | FileAppender f _ _, FileAppender g _ _ => f = g
  | _, _ => False
  end.
#[global] Instance same_but_stream_preorder : PreOrder same_but_stream.
Proof.
  split; [intros [[]]; by split_and!|]. intros [k1] [k2] [k3] (? & ? & ? & Hk1) (? & ? & ? & Hk2). cbn in *.
  destruct k1, k2, k3; try done; unfold same_but_stream; cbn; split_and!; congruence.
Qed.

Definition frame w w' : Prop :=
  w_loggers w' = w_loggers w /\ m_loggers w' = m_loggers w /\ m_root w' = m_root w /\ held w' = held w /\
  Forall2 same_but_stream (w_appenders w) (w_appenders w').
#[global] Instance frame_preorder : PreOrder frame.
Proof.
  split; [intros w; by split_and!|]. intros w1 w2 w3 (? & ? & ? & ? & ?) (? & ? & ? & ? & ?). split_and!; try congruence. by etrans.
Qed.
Definition framed {A} (m : M (World F) A) : Prop := forall w a w', m w = Ok a w' -> frame w w'.

Lemma framed_ret {A} (a : A) : framed (ret a).
Proof. by intros w b w' [= -> ->]. Qed.
Lemma framed_undef {A} u : framed (@undef (World F) A u).
Proof. by intros w b w'. Qed.
Lemma framed_bind {A B} (m : M (World F) A) (k : A -> M (World F) B) : framed m -> (forall a, framed (k a)) -> framed (bind m k).
Proof. intros Hm Hk w b w' E. apply bind_returns in E as (a & w1 & E1 & E2). etrans; [by eapply Hm|by eapply Hk]. Qed.
Lemma framed_lock {A} l (m : M (World F) A) : framed m -> framed (with_lock l m).
Proof.
  intros Hm w a w' E. apply with_lock_returns in E as (_ & w1 & E & ->). apply Hm in E as (? & ? & ? & ? & ?). by split_and!.
Qed.
Lemma framed_each {A} (f : A -> M (World F) unit) l : (forall x, framed (f x)) -> framed (each f l).
Proof. intros Hf. induction l as [|x l IH]; [apply framed_ret|]. by apply framed_bind. Qed.
Lemma framed_the_logger id : framed (the_logger (F := F) id).
Proof. by intros w l w' [-> _]%the_logger_returns. Qed.
Lemma framed_the_appender a : framed (the_appender (F := F) a).
Proof. by intros w l w' [-> _]%the_appender_returns. Qed.
Lemma framed_print x : framed (print (F := F) x).
Proof. by intros w [] w' [= <-]. Qed.
Lemma framed_on_fs {A} (m : M F A) : framed (on_fs m).
Proof. intros w a w' E. unfold on_fs in E. destruct (m (w_fs w)); try done. by injection E as <- <-. Qed.
Lemma framed_or_undef {A} u (o : option A) : framed (or_undef (S := World F) u o).
Proof. destruct o; [apply framed_ret|apply framed_undef]. Qed.

Lemma put_appender_frame a x y w : w_appenders w !! a = Some x -> same_but_stream x y ->
  frame w (set_appenders (<[a := y]> (w_appenders w)) w).
Proof.
  intros Hx Hs. split_and!; [done..|]. cbn. rewrite <- (list_insert_id _ _ _ Hx) at 1. apply Forall2_insert; done.
Qed.
Lemma frame_appender w w' a y : frame w w' -> w_appenders w' !! a = Some y ->
  exists x, w_appenders w !! a = Some x /\ same_but_stream x y.
Proof. intros (_ & _ & _ & _ & Hf) Hy. by apply (Forall2_lookup_r _ _ _ _ _ Hf). Qed.
Lemma frame_appender_l w w' a x : frame w w' -> w_appenders w !! a = Some x ->
  exists y, w_appenders w' !! a = Some y /\ same_but_stream x y.
Proof. intros (_ & _ & _ & _ & Hf) Hy. by apply (Forall2_lookup_l _ _ _ _ _ Hf). Qed.
End frames.

Create HintDb frame.
#[export] Hint Resolve framed_ret framed_undef framed_the_logger framed_the_appender framed_print framed_on_fs framed_or_undef : frame.
#[export] Hint Extern 2 (framed (bind _ _)) => apply framed_bind; [|intros ?] : frame.
#[export] Hint Extern 2 (framed (with_lock _ _)) => apply framed_lock : frame.
#[export] Hint Extern 3 (framed (match ?x with _ => _ end)) => destruct x : frame.

Section logging.
Context {F : Type} `{Posix F} (strftime : bytes -> Z -> bytes) (g_logger : nat) (site : Site).
Implicit Types (w : World F) (e : LogEvent) (log_error : bytes -> M (World F) unit).

Lemma reopen_framed log_error a : (forall c, framed (log_error c)) -> framed (reopen site log_error a).
Proof.
  intros Hl w ok w' E. apply with_lock_returns in E as (Ha & w1 & E & ->).
  apply bind_returns in E as (x & w0 & Ex & E). apply the_appender_returns in Ex as [-> Ex].
  destruct (ap_kind x) as [|filename last open] eqn:Ek; [done|].
  change (bind (put_appender ?a ?y) ?k ?w) with (k tt (set_appenders (<[a := y]> (w_appenders w)) w)) in E. cbn beta in E.
  set (y := with_kind x (FileAppender filename last false)) in *. set (w2 := set_appenders _ _) in E.
  apply bind_returns in E as (r & w3 & E3 & E). apply bind_returns in E as ([] & w4 & E4 & E).
  assert (frame w2 w4) as H24.
  { etrans; [by eapply framed_on_fs|]. destruct (snd r) as [dir|]; [by eapply Hl|by eapply framed_ret]. }
  assert (w_appenders w2 !! a = Some y) as Hy by (apply list_lookup_insert_eq; by eapply lookup_lt_Some).
  destruct (frame_appender_l _ _ _ _ H24 Hy) as (z & Hz & Hs).
  assert (frame w2 w1) as H21.
  { apply bind_returns in E as ([] & w5 & E5 & E). injection E as <- <-. injection E5 as <-. etrans; [exact H24|].
    eapply put_appender_frame; [exact Hz|]. destruct Hs as (? & ? & ? & Hk). cbn in *. destruct (ap_kind z) eqn:Ez; [done|]. subst.
    unfold same_but_stream. cbn. rewrite Ez. split_and!; congruence. }
  assert (frame (set_held (AppenderLock a :: held w) w) w2) as H02.
  { apply (put_appender_frame a x); [done|]. unfold same_but_stream. cbn. by rewrite Ek. }
  destruct (transitivity H02 H21) as (? & ? & ? & ? & ?). by split_and!.
Qed.

Lemma put_stream_framed a now filename is_open w x : w_appenders w !! a = Some x ->
  (exists last open, ap_kind x = FileAppender filename last open) ->
  frame w (set_appenders (<[a := with_kind x (FileAppender filename now is_open)]> (w_appenders w)) w).
Proof.
  intros Hx (last & open & Ek). apply (put_appender_frame a x); [done|]. unfold same_but_stream. cbn. by rewrite Ek.
Qed.

Lemma LogAppender_log_framed log_error a e : (forall c, framed (log_error c)) -> framed (LogAppender_log strftime site log_error a e).
Proof.
  intros Hl. unfold LogAppender_log. apply framed_bind; [auto with frame|]. intros x. destruct (_ <=? _); [|auto with frame].
  destruct (ap_kind x) as [|filename last open]; [unfold format_event; auto 10 with frame|].
  apply framed_bind.
  - destruct (_ <=? _); [|auto with frame]. apply framed_bind; [by apply reopen_framed|]. intros ok. apply framed_bind; [auto with frame|].
    intros _ w [] w' E. apply bind_returns in E as (y & w1 & Ey & E). apply the_appender_returns in Ey as [-> Ey].
    destruct (ap_kind y) as [|fn l o] eqn:Ek; injection E as <-; [done|]. apply put_stream_framed; [done|by eexists _, _].
  - intros _. apply framed_lock, framed_bind; [auto with frame|]. intros y. unfold format_event. apply framed_bind; [auto 10 with frame|].
    intros t. auto with frame.
Qed.

Lemma Logger_log_framed fuel : forall id level e, framed (Logger_log strftime g_logger site fuel id level e).
Proof.
  induction fuel as [|fuel IH]; intros id level e; cbn [Logger_log]; [apply framed_undef|].
  apply framed_bind; [auto with frame|]. intros l. destruct (_ <=? _); [|auto with frame].
  assert (forall c, framed (l <- the_logger g_logger ;;
    if enabled ERROR l then Logger_log strftime g_logger site fuel g_logger ERROR (site_event site g_logger ERROR c) else ret tt)) as Hl.
  { intros c. apply framed_bind; [auto with frame|]. intros lg. destruct (enabled _ _); [apply IH|auto with frame]. }
  destruct (lg_appenders l) as [|a rest]; [destruct (lg_root l); [apply IH|auto with frame]|].
  apply framed_lock, framed_each. intros b. by apply LogAppender_log_framed.
Qed.
End logging.

(** ** Well-formed worlds *)

Section invariant.
Context {F : Type} `{Posix F} (strftime : bytes -> Z -> bytes) (g_logger : nat) (site : Site).
Implicit Types (w : World F) (l : Logger) (x : LogAppender).

Definition has_format x : Prop := is_Some (ap_formatter x) /\ ap_hasFormatter x = true.
Definition root_ok w (root : option nat) : Prop :=
  forall r, root = Some r -> exists l, w_loggers w !! r = Some l /\ lg_root l = None.
Definition logger_ok w l : Prop :=
  is_Some (lg_format l) /\ root_ok w (lg_root l) /\
  forall a, a ∈ lg_appenders l -> exists x, w_appenders w !! a = Some x /\ has_format x.

(** Loggers have a formatter, their root has no root, and all their appenders have a formatter
    that counts as their own; names lead to loggers. *)
Record core w : Prop := {
  core_loggers : forall id l, w_loggers w !! id = Some l -> logger_ok w l;
  core_root : root_ok w (Some (m_root w));
  core_names : forall n id, m_loggers w !! n = Some id -> exists l, w_loggers w !! id = Some l /\ lg_name l = n;
  core_flags : forall a x, w_appenders w !! a = Some x -> ap_hasFormatter x = true <-> is_Some (ap_formatter x) }.

Definition keeps {A} (m : M (World F) A) : Prop := forall w a w', core w -> m w = Ok a w' -> core w' /\ held w' = held w.

Lemma core_frame w w' : frame w w' -> core w -> core w'.
Proof.
  intros Hf [C1 C2 C3 C4]. pose proof Hf as (E1 & E2 & E3 & _). split.
  - intros id l. rewrite E1. intros Hl. destruct (C1 id l Hl) as (H1 & H2 & H3). split_and!; [done|unfold root_ok; by rewrite E1|].
    intros a (x & Hx & Hh)%H3. destruct (frame_appender_l _ _ _ _ Hf Hx) as (y & Hy & Hs). exists y. split; [done|].
    destruct Hs as (_ & Hs1 & Hs2 & _). unfold has_format. by rewrite <- Hs1, <- Hs2.
  - unfold root_ok. by rewrite E1, E3.
  - by rewrite E1, E2.
  - intros a y Hy. destruct (frame_appender _ _ _ _ Hf Hy) as (x & Hx & (_ & Hs1 & Hs2 & _)). rewrite <- Hs1, <- Hs2. by eapply C4.
Qed.
Lemma core_held w h : core w -> core (set_held h w).
Proof. by intros []. Qed.

Lemma framed_keeps {A} (m : M (World F) A) : framed m -> keeps m.
Proof. intros Hm w a w' Hc E. apply Hm in E as Hf. split; [by eapply core_frame|]. by destruct Hf as (_ & _ & _ & ? & _). Qed.
Lemma log_keeps_bind {A B} (m : M (World F) A) (k : A -> M (World F) B) : keeps m -> (forall a, keeps (k a)) -> keeps (bind m k).
Proof.
  intros Hm Hk w b w' Hc E. apply bind_returns in E as (a & w1 & E1 & E2). destruct (Hm _ _ _ Hc E1) as [Hc1 <-]. by eapply Hk.
Qed.
Lemma keeps_lock {A} lk (m : M (World F) A) : keeps m -> keeps (with_lock lk m).
Proof.
  intros Hm w a w' Hc E. apply with_lock_returns in E as (_ & w1 & E & ->).
  destruct (Hm _ _ _ (core_held w _ Hc) E) as [H1 _]. by split; [apply core_held|].
Qed.
Lemma keeps_each {A} (f : A -> M (World F) unit) (xs : list A) : (forall y, keeps (f y)) -> keeps (each f xs).
Proof. intros Hf. induction xs as [|y xs IH]; [apply framed_keeps, framed_ret|]. by apply log_keeps_bind. Qed.
Lemma keeps_get {A} (f : World F -> M (World F) A) : (forall w a w', core w -> f w w = Ok a w' -> core w' /\ held w' = held w) -> keeps (w <- get ;; f w).
Proof. intros Hf w a w' Hc E. by eapply Hf. Qed.
Lemma keeps_logger {A} id (k : Logger -> M (World F) A) :
  (forall l w a w', core w -> w_loggers w !! id = Some l -> k l w = Ok a w' -> core w' /\ held w' = held w) ->
  keeps (l <- the_logger id ;; k l).
Proof.
  intros Hk w a w' Hc E. apply bind_returns in E as (l & w1 & El & E). apply the_logger_returns in El as [-> El]. by eapply Hk.
Qed.
Lemma keeps_appender {A} i (k : LogAppender -> M (World F) A) :
  (forall x w a w', core w -> w_appenders w !! i = Some x -> k x w = Ok a w' -> core w' /\ held w' = held w) ->
  keeps (x <- the_appender i ;; k x).
Proof.
  intros Hk w a w' Hc E. apply bind_returns in E as (x & w1 & El & E). apply the_appender_returns in El as [-> El]. by eapply Hk.
Qed.

Lemma core_put_logger id l l' w : core w -> w_loggers w !! id = Some l -> lg_name l' = lg_name l -> lg_root l' = lg_root l ->
  is_Some (lg_format l') -> (forall a, a ∈ lg_appenders l' -> exists x, w_appenders w !! a = Some x /\ has_format x) ->
  core (set_loggers (<[id := l']> (w_loggers w)) w).
Proof.
  intros [C1 C2 C3 C4] Hl Hn Hr Hf Ha.
  assert (forall root, root_ok w root -> root_ok (set_loggers (<[id := l']> (w_loggers w)) w) root) as Hroot.
  { intros root Ho r Er. destruct (Ho r Er) as (lr & Hlr & E). cbn. destruct (decide (r = id)) as [->|Hne].
    - exists l'. rewrite list_lookup_insert_eq by by eapply lookup_lt_Some. split; [done|]. congruence.
    - exists lr. by rewrite list_lookup_insert_ne. }
  split.
  - intros k m. cbn. intros [(<- & <- & _)|(Hne & Hm)]%list_lookup_insert_Some.
    + split_and!; [done| |done]. apply Hroot. rewrite Hr. by apply (C1 _ _ Hl).
    + destruct (C1 _ _ Hm) as (H1 & H2 & H3). by split_and!; [|apply Hroot|].
  - by apply Hroot.
  - intros n k Hk. cbn. destruct (C3 n k Hk) as (m & Hm & <-). destruct (decide (k = id)) as [->|Hne].
    + exists l'. rewrite list_lookup_insert_eq by by eapply lookup_lt_Some. split; [done|]. congruence.
    + exists m. by rewrite list_lookup_insert_ne.
  - done.
Qed.

(** An appender that has a formatter, or had none to lose *)
Lemma core_put_appender i x x' w : core w -> w_appenders w !! i = Some x ->
  (ap_hasFormatter x' = true <-> is_Some (ap_formatter x')) -> (has_format x -> has_format x') ->
  core (set_appenders (<[i := x']> (w_appenders w)) w).
Proof.
  intros [C1 C2 C3 C4] Hx Hflag Hh. split; [|done|done|].
  - intros id l Hl. destruct (C1 id l Hl) as (H1 & H2 & H3). split_and!; [done..|]. intros a (y & Hy & Hf)%H3. cbn.
    destruct (decide (a = i)) as [->|Hne].
    + exists x'. rewrite list_lookup_insert_eq by by eapply lookup_lt_Some. split; [done|]. apply Hh. congruence.
    + exists y. by rewrite list_lookup_insert_ne.
  - intros a y. cbn. intros [(<- & <- & _)|(Hne & Hm)]%list_lookup_insert_Some; [done|by eapply C4].
Qed.

Lemma setFormatter_keeps i f : keeps (LogAppender_setFormatter (F := F) i (Some f)).
Proof.
  apply keeps_lock, keeps_appender. intros x w a w' Hc Hx [= _ <-]. split; [|done]. by eapply core_put_appender.
Qed.
Lemma ap_setLevel_keeps i level : keeps (LogAppender_setLevel (F := F) i level).
Proof.
  apply keeps_appender. intros x w a w' Hc Hx [= _ <-]. split; [|done]. eapply core_put_appender; [done|done| |done].
  by apply (core_flags _ Hc i x).
Qed.
Lemma new_appender_keeps x : (ap_hasFormatter x = true <-> is_Some (ap_formatter x)) -> keeps (new_appender (F := F) x).
Proof.
  intros Hx w a w' [C1 C2 C3 C4] [= _ <-]. split; [|done]. split; [|done|done|].
  - intros id l Hl. destruct (C1 id l Hl) as (H1 & H2 & H3). split_and!; [done..|]. intros b (y & Hy & Hf)%H3.
    exists y. split; [|done]. by apply lookup_app_l_Some.
  - intros b y. cbn. intros [Hy|[Hl Hy]]%lookup_app_Some; [by eapply C4|]. apply list_lookup_singleton_Some in Hy as [_ <-]. done.
Qed.

Lemma setLevel_keeps id level : keeps (setLevel (F := F) id level).
Proof.
  apply keeps_logger. intros l w a w' Hc Hl [= _ <-]. split; [|done]. destruct (core_loggers _ Hc id l Hl) as (H1 & H2 & H3).
  by eapply core_put_logger.
Qed.
Lemma clearAppenders_keeps id : keeps (clearAppenders (F := F) id).
Proof.
  apply keeps_lock, keeps_logger. intros l w a w' Hc Hl [= _ <-]. split; [|done]. destruct (core_loggers _ Hc id l Hl) as (H1 & H2 & H3).
  eapply core_put_logger; try done. intros b Hb. by apply elem_of_nil in Hb.
Qed.
Lemma elem_of_remove_first (a b : nat) (l : list nat) : a ∈ remove_first b l -> a ∈ l.
Proof.
  induction l as [|c l IH]; [done|]. cbn [remove_first]. destruct (c =? b)%nat; [by right|].
  intros [->|Ha]%elem_of_cons; [by left|right; by apply IH].
Qed.
Lemma delAppender_keeps id i : keeps (delAppender (F := F) id i).
Proof.
  apply keeps_lock, keeps_logger. intros l w a w' Hc Hl [= _ <-]. split; [|done]. destruct (core_loggers _ Hc id l Hl) as (H1 & H2 & H3).
  eapply core_put_logger; try done. intros b Hb. by apply H3, (elem_of_remove_first b i).
Qed.

Lemma getLogger_keeps name : keeps (getLogger (F := F) name).
Proof.
  apply keeps_lock, keeps_get. intros w a w' Hc E. destruct (m_loggers w !! name) as [id|] eqn:En; [by injection E as <- <-|].
  injection E as <- <-. split; [|done]. destruct Hc as [C1 C2 C3 C4]. set (nl := new_Logger name (Some (m_root w))).
  assert (forall root, root_ok w root -> forall r, root = Some r -> exists l, (w_loggers w ++ [nl]) !! r = Some l /\ lg_root l = None) as Hr.
  { intros root Ho r Er. destruct (Ho r Er) as (lr & Hlr & E). exists lr. split; [by apply lookup_app_l_Some|done]. }
  split.
  - intros id l. cbn. intros [Hl|[_ Hl]]%lookup_app_Some.
    + destruct (C1 id l Hl) as (H1 & H2 & H3). split_and!; [done|exact (Hr _ H2)|done].
    + apply list_lookup_singleton_Some in Hl as [_ <-]. split_and!; [done|exact (Hr _ C2)|]. intros b Hb. by apply elem_of_nil in Hb.
  - exact (Hr _ C2).
  - intros n id. cbn [m_loggers w_loggers]. intros [[<- <-]|[Hne Hn]]%lookup_insert_Some.
    + exists nl. split; [|done]. by rewrite lookup_app_r, Nat.sub_diag by lia.
    + destruct (C3 n id Hn) as (l & Hl & <-). exists l. split; [by apply lookup_app_l_Some|done].
  - done.
Qed.

Lemma addAppender_keeps id i : keeps (addAppender (F := F) id i).
Proof.
  apply keeps_lock, keeps_logger. intros l w a w' Hc Hl E. apply bind_returns in E as (x & w1 & Ex & E).
  apply the_appender_returns in Ex as [-> Ex]. destruct (core_loggers _ Hc id l Hl) as ([f Ef] & H2 & H3).
  apply bind_returns in E as ([] & w1 & E1 & E).
  assert (core w1 /\ held w1 = held w /\ w_loggers w1 = w_loggers w /\ exists y, w_appenders w1 !! i = Some y /\ has_format y) as (Hc1 & Hh & Hw & Hy).
  { destruct (ap_formatter x) as [g|] eqn:Eg.
    - injection E1 as <-. split_and!; [done..|]. exists x. split; [done|]. split; [by rewrite Eg|]. apply (core_flags _ Hc i x Ex). by rewrite Eg.
    - rewrite Ef in E1. destruct (setFormatter_keeps i f _ _ _ Hc E1) as [Hc1 Hh]. split_and!; [done..| |].
      + apply with_lock_returns in E1 as (_ & w0 & E1 & ->). apply bind_returns in E1 as (z & w2 & Ez & E1).
        apply the_appender_returns in Ez as [-> _]. by injection E1 as <-.
      + apply with_lock_returns in E1 as (_ & w0 & E1 & ->). apply bind_returns in E1 as (z & w2 & Ez & E1).
        apply the_appender_returns in Ez as [-> Ez]. injection E1 as <-. cbn. eexists.
        rewrite list_lookup_insert_eq by by eapply lookup_lt_Some. by split. }
  injection E as _ <-. split; [|done]. rewrite <- Hw in Hl. destruct (core_loggers _ Hc1 id l Hl) as (H1 & H2' & H3').
  eapply core_put_logger; try done. cbn. intros b [Hb|Hb%list_elem_of_singleton]%elem_of_app; [by apply H3'|]. by subst b.
Qed.

(** [setFormatter] of a logger does nothing to appenders whose formatter counts as their own. *)
Lemma set_held_twice w h : set_held (held w) (set_held h w) = w.
Proof. by destruct w. Qed.
Lemma each_format val (js : list nat) w w' : (forall i, i ∈ js -> exists x, w_appenders w !! i = Some x /\ has_format x) ->
  each (fun i => with_lock (AppenderLock i) (x <- the_appender i ;;
    if negb (ap_hasFormatter x) then put_appender i (with_formatter x val) else ret tt)) js w = Ok tt w' -> w' = w.
Proof.
  revert w. induction js as [|i js IH]; intros w Hi E; [by injection E as <-|]. cbn [each] in E.
  apply bind_returns in E as ([] & w1 & E1 & E). destruct (Hi i ltac:(by left)) as (x & Hx & _ & Hh).
  apply with_lock_returns in E1 as (_ & w2 & E1 & ->). apply bind_returns in E1 as (y & w3 & Ey & E1).
  apply the_appender_returns in Ey as [-> Ey]. cbn in Ey. rewrite Hx in Ey. injection Ey as <-. rewrite Hh in E1. injection E1 as <-.
  rewrite set_held_twice in E. apply IH; [|done]. intros j Hj. apply Hi. by right.
Qed.

Lemma Logger_setFormatter_returns id val w w' : core w -> Logger_setFormatter id val w = Ok tt w' ->
  exists l, w_loggers w !! id = Some l /\ w' = set_loggers (<[id := with_format l val]> (w_loggers w)) w.
Proof.
  intros Hc E. apply with_lock_returns in E as (_ & w1 & E & ->). apply bind_returns in E as (l & w2 & El & E).
  apply the_logger_returns in El as [-> El]. exists l. split; [done|]. apply bind_returns in E as ([] & w2 & E2 & E).
  injection E2 as <-. apply each_format in E as ->; [done|]. cbn. by apply (core_loggers _ Hc id l El).
Qed.
Lemma Logger_setFormatter_keeps id f : keeps (Logger_setFormatter (F := F) id (Some f)).
Proof.
  intros w [] w' Hc E. destruct (Logger_setFormatter_returns _ _ _ _ Hc E) as (l & Hl & ->). split; [|done].
  destruct (core_loggers _ Hc id l Hl) as (H1 & H2 & H3). by eapply core_put_logger.
Qed.
Lemma Logger_setPattern_keeps id val : keeps (Logger_setPattern (F := F) id val).
Proof.
  unfold Logger_setPattern. destruct (m_error _); [|apply Logger_setFormatter_keeps]. apply framed_keeps. auto with frame.
Qed.
Lemma Logger_log_keeps fuel id level e : keeps (Logger_log strftime g_logger site fuel id level e).
Proof. apply framed_keeps, Logger_log_framed. Qed.

(** What a program does to loggers and appenders: an appender is made without a formatter, and no
    formatter is taken away. *)
Inductive log_step : World F -> World F -> Prop :=
  | step_log fuel id level e w w' : Logger_log strftime g_logger site fuel id level e w = Ok tt w' -> log_step w w'
  | step_getLogger name id w w' : getLogger name w = Ok id w' -> log_step w w'
  | step_addAppender id i w w' : addAppender id i w = Ok tt w' -> log_step w w'
  | step_delAppender id i w w' : delAppender id i w = Ok tt w' -> log_step w w'
  | step_clearAppenders id w w' : clearAppenders id w = Ok tt w' -> log_step w w'
  | step_setLevel id level w w' : setLevel id level w = Ok tt w' -> log_step w w'
  | step_setFormatter id f w w' : Logger_setFormatter id (Some f) w = Ok tt w' -> log_step w w'
  | step_setPattern id val w w' : Logger_setPattern id val w = Ok tt w' -> log_step w w'
  | step_new_appender kind i w w' : new_appender (mkAppender kind DEBUG None false) w = Ok i w' -> log_step w w'
  | step_reopen log_error i ok w w' : (forall c, framed (log_error c)) -> reopen site log_error i w = Ok ok w' -> log_step w w'
  | step_ap_setFormatter i f w w' : LogAppender_setFormatter i (Some f) w = Ok tt w' -> log_step w w'
  | step_ap_setLevel i level w w' : LogAppender_setLevel i level w = Ok tt w' -> log_step w w'.

Lemma log_step_keeps w w' : log_step w w' -> core w -> core w' /\ held w' = held w.
Proof.
  intros S Hc. destruct S as [fuel id level e w w' E|name id w w' E|id i w w' E|id i w w' E|id w w' E|id level w w' E|id f w w' E|
    id val w w' E|kind i w w' E|log_error i ok w w' Hl E|i f w w' E|i level w w' E].
  - by eapply Logger_log_keeps.
  - by eapply getLogger_keeps.
  - by eapply addAppender_keeps.
  - by eapply delAppender_keeps.
  - by eapply clearAppenders_keeps.
  - by eapply setLevel_keeps.
  - by eapply Logger_setFormatter_keeps.
  - by eapply Logger_setPattern_keeps.
  - eapply new_appender_keeps; [|done|done]. cbn. split; [done|by intros [? ?]].
  - eapply framed_keeps; [by apply reopen_framed|done|done].
  - by eapply setFormatter_keeps.
  - by eapply ap_setLevel_keeps.
Qed.
Lemma LoggerManager_core f : core (LoggerManager f) /\ held (LoggerManager (F := F) f) = [].
Proof.
  split; [|done]. split.
  - intros [|id] l; [|done]. intros [= <-]. split_and!; [done|by intros r|]. intros a ->%list_elem_of_singleton. eexists. by split.
  - intros r [= <-]. by eexists.
  - intros n id. cbn. intros [<- <-]%lookup_singleton_Some. by eexists.
  - intros [|a] x; [|done]. by intros [= <-].
Qed.
Lemma reachable_core f w : rtc log_step (LoggerManager f) w -> core w /\ held w = [].
Proof.
  remember (LoggerManager f) as w0 eqn:E0. destruct (LoggerManager_core f) as [Hc Hh]. rewrite <- E0 in Hc, Hh. clear E0.
  induction 1 as [w|w1 w2 w3 S _ IH]; [done|]. destruct (log_step_keeps _ _ S Hc) as [Hc2 Hh2]. apply IH; [done|congruence].
Qed.

(** Appenders have their own formatter, once a logger has them.  Whatever a program does from
    [LoggerManager] on: no lock stays locked, every name leads to the logger of that name, the root
    of a logger has no root, and every appender of a logger has a formatter that counts as set for
    it.  So [setFormatter] of a logger, which passes its formatter on to the appenders that have
    none, changes no appender at all: only what is added later gets it. *)
Theorem appenders_keep_formatters f w : rtc log_step (LoggerManager f) w ->
  held w = [] /\ core w /\
  forall id val w', Logger_setFormatter id val w = Ok tt w' -> w_appenders w' = w_appenders w.
Proof.
  intros Hr. destruct (reachable_core f w Hr) as [Hc Hh]. split_and!; [done..|]. intros id val w' E.
  destruct (Logger_setFormatter_returns _ _ _ _ Hc E) as (l & _ & ->). done.
Qed.
End invariant.

(** ** What an event writes *)

Section routes.
Context {F : Type} `{Posix F} (strftime : bytes -> Z -> bytes) (g_logger : nat) (site : Site).
Implicit Types (w : World F) (l : Logger) (x : LogAppender) (e : LogEvent).

(** Is it time to open the file again? *)
Definition due (last now : Z) : bool := u64 (last + 3) <=? now.
(** What the appender [i] writes for an event, when files can be opened *)
Definition output w e (i : nat) : list write :=
  match w_appenders w !! i, w_loggers w !! ev_logger e with
  | Some x, Some l =>
      match ap_formatter x with
      | Some f =>
          if level_value (ap_level x) <=? level_value (ev_level e) then
            let text := LogFormatter_format strftime f (lg_name l) e in
            match ap_kind x with
            | StdoutAppender => [Console text]
            | FileAppender filename last is_open => if due last (ev_time e) || is_open then [Disk filename text] else []
            end
          else []
      | None => []
      end
  | _, _ => []
  end.
(** The appenders that an event of a level gets to: those of the logger, or, when it has none, of
    its root *)
Definition routes w (id : nat) (level : Level) : list nat :=
  match w_loggers w !! id with
  | Some l =>
      if level_value (lg_level l) <=? level_value level then
        match lg_appenders l, lg_root l ≫= (fun r => w_loggers w !! r) with
        | [], Some lr => if level_value (lg_level lr) <=? level_value level then lg_appenders lr else []
        | appenders, _ => appenders
        end
      else []
  | None => []
  end.

Hypothesis files_open : forall p (f : F), fst (open_append p f) = true.

Lemma reopen_ok log_error i x filename last o w : AppenderLock i ∉ held w -> w_appenders w !! i = Some x ->
  ap_kind x = FileAppender filename last o -> exists f,
  reopen site log_error i w = Ok true (set_fs f (set_appenders (<[i := with_kind x (FileAppender filename last true)]> (w_appenders w)) w)).
Proof.
  intros Hi Hx Ek. exists (snd (open_append (c_str filename) (w_fs w))). unfold reopen.
  rewrite (with_lock_ok _ _ _ true (set_held (AppenderLock i :: held w) (set_fs (snd (open_append (c_str filename) (w_fs w)))
    (set_appenders (<[i := with_kind x (FileAppender filename last true)]> (w_appenders w)) w)))); [by destruct w|done|].
  rewrite (bind_ok _ _ _ _ _ (the_appender_ok i (set_held _ w) x Hx)), Ek.
  pose proof (files_open (c_str filename) (w_fs w)) as Ho. destruct (open_append (c_str filename) (w_fs w)) as [ok f] eqn:Eo. cbn in Ho. subst ok.
  unfold bind, put_appender, modify, on_fs, OpenForWrite, sys, ret. cbn. unfold bind. rewrite Eo. cbn.
  by rewrite list_insert_insert_eq.
Qed.

Lemma format_ok x e w l f : ap_formatter x = Some f -> w_loggers w !! ev_logger e = Some l ->
  format_event strftime x e w = Ok (LogFormatter_format strftime f (lg_name l) e) w.
Proof.
  intros Hf Hl. unfold format_event. rewrite Hf. rewrite bind_some. by rewrite (bind_ok _ _ _ _ _ (the_logger_ok _ _ _ Hl)).
Qed.

Lemma same_output w w' e : w_loggers w' = w_loggers w -> (forall j, w_appenders w' !! j = w_appenders w !! j) ->
  forall j, output w' e j = output w e j.
Proof. intros E1 E2 j. unfold output. by rewrite E1, E2. Qed.

(** An appender of a file that was not opened in the last seconds opens it again. *)
Definition fresh_stream x e : LogAppender :=
  match ap_kind x with
  | FileAppender filename last _ => if due last (ev_time e) then with_kind x (FileAppender filename (ev_time e) true) else x
  | StdoutAppender => x
  end.
Lemma reopened_ok log_error i e w x filename last o : AppenderLock i ∉ held w -> w_appenders w !! i = Some x -> ap_kind x = FileAppender filename last o ->
  exists f', (if due last (ev_time e) then
      ok <- reopen site log_error i ;;
      (if ok : bool then ret tt else print (not_open filename)) ;;;
      x <- the_appender i ;;
      match ap_kind x with
      | FileAppender filename _ is_open => put_appender i (with_kind x (FileAppender filename (ev_time e) is_open))
      | StdoutAppender => ret tt
      end
    else ret tt) w = Ok tt (set_fs f' (set_appenders (<[i := fresh_stream x e]> (w_appenders w)) w)).
Proof.
  intros Hn Hx Ek. unfold fresh_stream. rewrite Ek. destruct (due _ _); [|exists (w_fs w); rewrite list_insert_id by done; by destruct w].
  destruct (reopen_ok log_error i x filename last o w Hn Hx Ek) as (f' & E). exists f'.
  rewrite (bind_ok _ _ _ _ _ E), bind_ret. rewrite (bind_ok _ _ _ (with_kind x (FileAppender filename last true))
    (set_fs f' (set_appenders (<[i := with_kind x (FileAppender filename last true)]> (w_appenders w)) w))).
  - cbn [ap_kind with_kind]. unfold put_appender, modify. cbn. by rewrite list_insert_insert_eq.
  - apply the_appender_ok. cbn. apply list_lookup_insert_eq. by eapply lookup_lt_Some.
Qed.
(** That changes nothing of what an event writes. *)
Lemma fresh_output i e w w' x : w_appenders w !! i = Some x -> w_loggers w' = w_loggers w ->
  w_appenders w' = <[i := fresh_stream x e]> (w_appenders w) -> forall j, output w' e j = output w e j.
Proof.
  intros Hx E1 E2 j. unfold output. rewrite E1, E2. destruct (decide (j = i)) as [->|Hj]; [|by rewrite list_lookup_insert_ne].
  rewrite list_lookup_insert_eq by by eapply lookup_lt_Some. rewrite Hx. unfold fresh_stream. destruct x as [[|filename last o] level f own]; [done|].
  cbn [ap_kind]. destruct (due last (ev_time e)) eqn:Ed, (w_loggers w !! ev_logger e), f; cbn; rewrite ?Ed, ?orb_true_r; done.
Qed.

Lemma appender_ok log_error i e w x : (forall c, framed (log_error c)) -> held w = [] \/ AppenderLock i ∉ held w ->
  w_appenders w !! i = Some x -> is_Some (ap_formatter x) -> is_Some (w_loggers w !! ev_logger e) ->
  exists w', LogAppender_log strftime site log_error i e w = Ok tt w' /\ written w' = written w ++ output w e i /\
    forall j, output w' e j = output w e j.
Proof.
  intros _ Hi Hx [f Hf] [l Hl]. assert (AppenderLock i ∉ held w) as Hn by (destruct Hi as [->|]; [apply not_elem_of_nil|done]). clear Hi.
  unfold LogAppender_log. rewrite (bind_ok _ _ _ _ _ (the_appender_ok i _ x Hx)).
  unfold output at 1. rewrite Hx, Hl, Hf. destruct (_ <=? _) eqn:El; [|exists w; split_and!; [done|by rewrite app_nil_r|done]].
  set (text := LogFormatter_format strftime f (lg_name l) e). destruct (ap_kind x) as [|filename last o] eqn:Ek.
  - exists (mkWorld F (w_appenders w) (w_loggers w) (m_loggers w) (m_root w) (w_fs w) (written w ++ [Console text]) (held w)).
    split_and!; [|done|by apply same_output].
    rewrite (with_lock_ok _ _ _ tt (mkWorld F (w_appenders w) (w_loggers w) (m_loggers w) (m_root w) (w_fs w)
      (written w ++ [Console text]) (AppenderLock i :: held w))); [done|done|]. by rewrite (bind_ok _ _ _ _ _ (format_ok x e (set_held _ w) l f Hf Hl)).
  - fold (due last (ev_time e)). destruct (reopened_ok log_error i e w x filename last o Hn Hx Ek) as (f' & E1).
    rewrite (bind_ok _ _ _ _ _ E1). clear E1. set (y := fresh_stream x e). set (w1 := set_fs f' _).
    assert (w_appenders w1 !! i = Some y) as Hy by (cbn; apply list_lookup_insert_eq; by eapply lookup_lt_Some).
    assert (ap_formatter y = Some f /\ exists k, ap_kind y = FileAppender filename k (due last (ev_time e) || o)) as (Hfy & k & Hk).
    { unfold y, fresh_stream. rewrite Ek. destruct (due _ _); [split; [done|by eexists]|]. split; [done|]. exists last. exact Ek. }
    set (out := if due last (ev_time e) || o then [Disk filename text] else []).
    set (w2 := mkWorld F (w_appenders w1) (w_loggers w1) (m_loggers w1) (m_root w1) (w_fs w1) (written w ++ out) (AppenderLock i :: held w)).
    exists (set_held (held w) w2). split_and!; [apply (with_lock_ok _ _ w1); [done|]|done|by apply (fresh_output i e w _ x)].
    rewrite (bind_ok _ _ _ _ _ (the_appender_ok i (set_held (AppenderLock i :: held w1) w1) y Hy)).
    rewrite (bind_ok _ _ _ _ _ (format_ok y e (set_held (AppenderLock i :: held w1) w1) l f Hfy Hl)), Hk.
    unfold w2, out. destruct (due last (ev_time e) || o); [done|]. by rewrite app_nil_r.
Qed.

Lemma each_ok log_error e is_list : (forall c, framed (log_error c)) -> forall w, (forall i, AppenderLock i ∉ held w) ->
  (forall i, i ∈ is_list -> exists x, w_appenders w !! i = Some x /\ is_Some (ap_formatter x)) -> is_Some (w_loggers w !! ev_logger e) ->
  exists w', each (fun i => LogAppender_log strftime site log_error i e) is_list w = Ok tt w' /\
    written w' = written w ++ concat (output w e <$> is_list) /\ frame w w'.
Proof.
  intros Hl. induction is_list as [|i js IH]; intros w Hh Hi He; [exists w; split_and!; [done|by rewrite app_nil_r|done]|].
  destruct (Hi i ltac:(by left)) as (x & Hx & Hf).
  destruct (appender_ok log_error i e w x Hl) as (w1 & E1 & W1 & S1); [by right|done..|].
  pose proof (LogAppender_log_framed strftime site log_error i e Hl _ _ _ E1) as Hf1.
  pose proof Hf1 as (L1 & _ & _ & Hh1 & _).
  destruct (IH w1) as (w2 & E2 & W2 & F2).
  - intros j. by rewrite Hh1.
  - intros j Hj. destruct (Hi j) as (y & Hy & Hfy); [by right|]. destruct (frame_appender_l _ _ _ _ Hf1 Hy) as (z & Hz & (_ & Hs & _)).
    exists z. split; [done|]. by rewrite <- Hs.
  - by rewrite L1.
  - exists w2. cbn [each]. rewrite (bind_ok _ _ _ _ _ E1). split_and!; [done| |by etrans].
    rewrite W2, W1, <- app_assoc. cbn [fmap list_fmap concat]. f_equal. f_equal. f_equal.
    clear -S1. induction js as [|j js IH]; [done|]. cbn. by rewrite S1, IH.
Qed.

Lemma logger_with_appenders_ok fuel id level e l w : core w -> (forall k, k ∉ held w) -> w_loggers w !! id = Some l ->
  is_Some (w_loggers w !! ev_logger e) -> lg_appenders l <> [] ->
  exists w', Logger_log strftime g_logger site (S fuel) id level e w = Ok tt w' /\ frame w w' /\
    written w' = written w ++ concat (output w e <$> if level_value (lg_level l) <=? level_value level then lg_appenders l else []).
Proof.
  intros Hc Hh Hl He Hne. cbn [Logger_log]. rewrite (bind_ok _ _ _ _ _ (the_logger_ok _ _ _ Hl)).
  destruct (_ <=? _); [|exists w; split_and!; [done|done|by rewrite app_nil_r]]. destruct (lg_appenders l) as [|i js] eqn:Ea; [done|].
  rewrite <- Ea in *. destruct (core_loggers _ Hc id l Hl) as (_ & _ & Ha).
  destruct (each_ok (fun c => l <- the_logger g_logger ;;
    if enabled ERROR l then Logger_log strftime g_logger site fuel g_logger ERROR (site_event site g_logger ERROR c) else ret tt) e
    (lg_appenders l)) with (w := set_held (LoggerLock id :: held w) w) as (w1 & E1 & W1 & F1).
  - intros c. apply framed_bind; [auto with frame|]. intros lg. destruct (enabled _ _); [apply Logger_log_framed|auto with frame].
  - intros j. cbn. apply not_elem_of_cons. by split.
  - intros j (x & Hx & Hf & _)%Ha. by exists x.
  - done.
  - exists (set_held (held w) w1). split_and!; [by apply with_lock_ok| |done]. destruct F1 as (? & ? & ? & ? & ?). by split_and!.
Qed.

Lemma log_routes_ok fuel id level e w : core w -> (forall k, k ∉ held w) -> is_Some (w_loggers w !! id) ->
  is_Some (w_loggers w !! ev_logger e) ->
  exists w', Logger_log strftime g_logger site (S (S fuel)) id level e w = Ok tt w' /\ frame w w' /\
    written w' = written w ++ concat (output w e <$> routes w id level).
Proof.
  intros Hc Hh [l Hl] He. unfold routes. rewrite Hl. destruct (lg_appenders l) as [|i js] eqn:Ea.
  - cbn [Logger_log]. rewrite (bind_ok _ _ _ _ _ (the_logger_ok _ _ _ Hl)), Ea.
    assert (exists w', Ok tt w = Ok tt w' /\ frame w w' /\ written w' = written w ++ concat (output w e <$> [])) as Hnone
      by (exists w; split_and!; [done|done|by rewrite app_nil_r]).
    destruct (_ <=? _); [|exact Hnone]. destruct (lg_root l) as [r|] eqn:Er; [|exact Hnone].
    destruct (core_loggers _ Hc id l Hl) as (_ & Hr & _). destruct (Hr r Er) as (lr & Hlr & Hnr). cbn [mbind option_bind]. rewrite Hlr.
    destruct (lg_appenders lr) as [|j rest] eqn:Ear.
    + rewrite (bind_ok _ _ _ _ _ (the_logger_ok _ _ _ Hlr)), Ear, Hnr. destruct (_ <=? _); exact Hnone.
    + rewrite <- Ear. destruct (logger_with_appenders_ok fuel r level e lr w Hc Hh Hlr He) as (w' & E & Hw); [by rewrite Ear|].
      exists w'. split; [exact E|exact Hw].
  - destruct (logger_with_appenders_ok (S fuel) id level e l w Hc Hh Hl He) as (w' & E & Hf & W); [by rewrite Ea|].
    exists w'. rewrite Ea in W. split_and!; [done|done|]. rewrite W. by destruct (_ <=? _).
Qed.

(** C16: what an event writes.  In a well-formed world, when no lock is held and files can be opened,
    logging an event returns, and what it adds to the console and to the files is, in their order,
    what the appenders of the logger write, or, when the logger has none, those of its root:
    nothing when the level of the event is below that of the logger, or of the root, or of the
    appender, and else the text that the formatter of the appender makes of it, for a file if
    the file is open or due to be opened.  Loggers, locks and formatters are as before. *)
Theorem log_routes fuel id level e w : core w -> (forall k, k ∉ held w) -> is_Some (w_loggers w !! id) ->
  is_Some (w_loggers w !! ev_logger e) ->
  exists w', Logger_log strftime g_logger site (S (S fuel)) id level e w = Ok tt w' /\ frame w w' /\
    written w' = written w ++ concat (output w e <$> routes w id level).
Proof. apply log_routes_ok. Qed.
End routes.

(** ** Logging ends *)

Section ends.
Context {F : Type} `{PosixLaws F} (strftime : bytes -> Z -> bytes) (g_logger : nat) (site : Site).
Implicit Types (w : World F) (l : Logger) (x : LogAppender) (e : LogEvent).

(** It returns, or waits for ever for a lock that the thread holds itself. *)
Definition ends {A} (m : M (World F) A) w : Prop := (exists a w', m w = Ok a w') \/ m w = Undef deadlock.

Lemma ends_ret {A} (a : A) w : ends (ret a) w.
Proof. left. by exists a, w. Qed.
Lemma ends_bind {A B} (m : M (World F) A) (k : A -> M (World F) B) w : ends m w ->
  (forall a w1, m w = Ok a w1 -> ends (k a) w1) -> ends (bind m k) w.
Proof. unfold ends, bind. intros [(a & w1 & E)|E] Hk; rewrite E; [by apply Hk|by right]. Qed.
Lemma ends_lock {A} lk (m : M (World F) A) w : ends m (set_held (lk :: held w) w) -> ends (with_lock lk m) w.
Proof.
  intros Hm. destruct (decide (lk ∈ held w)) as [Hl|Hl]; [right; by apply with_lock_held|].
  destruct Hm as [(a & w1 & E)|E]; [left; exists a, (set_held (held w) w1); by apply with_lock_ok|right].
  unfold with_lock. rewrite bind_get, decide_False by done. change (bind (put ?w1) ?k w) with (k tt w1). cbn beta.
  unfold bind. by rewrite E.
Qed.

Lemma OpenForWrite_returns filename (f : F) : c_str (Dirname filename) <> [] -> exists r f', OpenForWrite filename f = Ok r f'.
Proof.
  intros Hd. unfold OpenForWrite. unfold sys at 1. unfold bind at 1. destruct (open_append _ f) as [[] f1]; [by eexists _, _|].
  assert (exists ok f2, Mkdir (Dirname filename) f1 = Ok ok f2) as (ok & f2 & E).
  { rewrite Mkdir_ok by done. destruct (decide _); [|by eexists _, _].
    destruct (make_all_ok (ancestors (c_str (Dirname filename))) f1) as (ok & f2 & E & _). by eexists _, _. }
  rewrite (bind_ok _ _ _ _ _ E). destruct ok; cbn [negb]; [|by eexists _, _]. unfold sys, bind.
  destruct (open_append _ f2). by eexists _, _.
Qed.

(** The locks of loggers that are free *)
Definition unheld w : nat :=
  length (List.filter (fun i => bool_decide (LoggerLock i ∉ held w)) (seq 0 (length (w_loggers w)))).
Definition ready (n : nat) w : Prop :=
  core w /\ is_Some (w_loggers w !! g_logger) /\ (unheld w <= n)%nat /\
  forall i x filename last o, w_appenders w !! i = Some x -> ap_kind x = FileAppender filename last o -> c_str (Dirname filename) <> [].

Lemma ready_frame n w w' : frame w w' -> ready n w -> ready n w'.
Proof.
  intros Hf (Hc & Hg & Hu & Hn). pose proof Hf as (E1 & _ & _ & E4 & _). split_and!; [by eapply core_frame|by rewrite E1|by unfold unheld; rewrite E1, E4|].
  intros i y filename last o Hy Ek. destruct (frame_appender _ _ _ _ Hf Hy) as (x & Hx & (_ & _ & _ & Hs)). rewrite Ek in Hs.
  destruct (ap_kind x) as [|fn la op] eqn:Ekx; [done|]. subst. by eapply Hn.
Qed.
Lemma filter_ext_length {A} (f g : A -> bool) (xs : list A) : (forall y, List.In y xs -> f y = g y) -> List.filter f xs = List.filter g xs.
Proof.
  induction xs as [|y xs IH]; intros E; [done|]. cbn. rewrite E by by left. rewrite IH; [done|]. intros z Hz. apply E. by right.
Qed.
Lemma ready_appender n i w : ready n w -> ready n (set_held (AppenderLock i :: held w) w).
Proof.
  intros (Hc & Hg & Hu & Hn). split_and!; [by apply core_held|done| |done]. etrans; [|exact Hu]. unfold unheld. cbn.
  apply Nat.eq_le_incl. f_equal. apply filter_ext_length. intros j _. apply bool_decide_ext.
  rewrite not_elem_of_cons. naive_solver.
Qed.
Lemma filter_drop_one i (h : list lock) n start : (start <= i < start + n)%nat -> LoggerLock i ∉ h ->
  S (length (List.filter (fun j => bool_decide (LoggerLock j ∉ LoggerLock i :: h)) (seq start n))) =
  length (List.filter (fun j => bool_decide (LoggerLock j ∉ h)) (seq start n)).
Proof.
  revert start. induction n as [|n IH]; intros start Hi Hh; [lia|]. cbn [seq List.filter].
  destruct (decide (start = i)) as [->|Hne].
  - rewrite bool_decide_false by (intros Hn; apply Hn; left). rewrite bool_decide_true by done. cbn [length]. f_equal. f_equal.
    apply filter_ext_length. intros j [Hj _]%in_seq. apply bool_decide_ext. rewrite not_elem_of_cons.
    split; [by intros [_ ?]|]. intros Hj'. split; [intros [= ->]; lia|done].
  - pose proof (IH (S start) ltac:(lia) Hh) as E.
    rewrite (bool_decide_ext (LoggerLock start ∉ LoggerLock i :: h) (LoggerLock start ∉ h)).
    + destruct (bool_decide _); cbn [length]; lia.
    + rewrite not_elem_of_cons. split; [by intros [_ ?]|]. intros Hj'. split; [by intros [= ->]|done].
Qed.
Lemma ready_logger n id w : ready (S n) w -> (id < length (w_loggers w))%nat -> LoggerLock id ∉ held w ->
  ready n (set_held (LoggerLock id :: held w) w).
Proof.
  intros (Hc & Hg & Hu & Hn) Hid Hh. split_and!; [by apply core_held|done| |done]. unfold unheld in *. cbn.
  pose proof (filter_drop_one id (held w) (length (w_loggers w)) 0 ltac:(lia) Hh). lia.
Qed.

Lemma ends_logger {A} id (k : Logger -> M (World F) A) w l : w_loggers w !! id = Some l -> ends (k l) w ->
  ends (l <- the_logger id ;; k l) w.
Proof. intros Hl Hk. unfold ends. by rewrite (bind_ok _ _ _ _ _ (the_logger_ok _ _ _ Hl)). Qed.
Lemma ends_appender {A} i (k : LogAppender -> M (World F) A) w x : w_appenders w !! i = Some x -> ends (k x) w ->
  ends (x <- the_appender i ;; k x) w.
Proof. intros Hx Hk. unfold ends. by rewrite (bind_ok _ _ _ _ _ (the_appender_ok _ _ _ Hx)). Qed.

Section calls.
Context (n : nat) (log_error : bytes -> M (World F) unit).
Hypothesis error_framed : forall c, framed (log_error c).
Hypothesis error_ends : forall c w, ready n w -> ends (log_error c) w.

Lemma reopen_ends i x filename last o w : ready n w -> w_appenders w !! i = Some x -> ap_kind x = FileAppender filename last o ->
  ends (reopen site log_error i) w.
Proof.
  intros Hr Hx Ek. apply ends_lock. eapply (ends_appender i _ _ x); [done|]. rewrite Ek.
  set (w1 := set_held _ w). assert (ready n w1) as Hr1 by by apply ready_appender.
  unfold put_appender at 1. unfold ends. rewrite bind_modify. fold (ends (A := bool)). change (_ \/ _) with
    (ends (r <- on_fs (OpenForWrite filename) ;;
     (match snd r with Some dir => log_error (mkdir_error site dir) | None => ret tt end) ;;;
     put_appender i (with_kind x (FileAppender filename last (fst r))) ;;; ret (fst r))
     (set_appenders (<[i := with_kind x (FileAppender filename last false)]> (w_appenders w1)) w1)).
  set (w2 := set_appenders _ w1). assert (frame w1 w2) as F12 by (eapply put_stream_framed; [exact Hx|by eexists _, _]).
  apply ends_bind.
  - destruct Hr as (_ & _ & _ & Hn). destruct (OpenForWrite_returns filename (w_fs w2)) as (r & f & E); [by eapply Hn|].
    left. exists r, (set_fs f w2). unfold on_fs. by rewrite E.
  - intros r w3 E3. assert (ready n w3) as Hr3.
    { eapply ready_frame; [by eapply framed_on_fs|]. by eapply ready_frame. }
    apply ends_bind; [destruct (snd r); [by apply error_ends|apply ends_ret]|]. intros [] w4 _. left. by eexists _, _.
Qed.

Lemma format_ends x e w : is_Some (ap_formatter x) -> is_Some (w_loggers w !! ev_logger e) -> ends (format_event strftime x e) w.
Proof. intros [f Hf] [l Hl]. left. eexists _, _. by apply (format_ok strftime x e w l f). Qed.

Lemma LogAppender_log_ends i x e w : ready n w -> w_appenders w !! i = Some x -> is_Some (ap_formatter x) ->
  is_Some (w_loggers w !! ev_logger e) -> ends (LogAppender_log strftime site log_error i e) w.
Proof.
  intros Hr Hx Hf He. eapply (ends_appender i _ _ x); [done|]. destruct (_ <=? _); [|apply ends_ret].
  destruct (ap_kind x) as [|filename last o] eqn:Ek.
  - apply ends_lock, ends_bind; [by apply format_ends|]. intros t w1 _. left. by eexists _, _.
  - apply ends_bind.
    + destruct (_ <=? _); [|apply ends_ret]. apply ends_bind; [by eapply reopen_ends|]. intros ok w1 E1.
      pose proof (reopen_framed site log_error i error_framed _ _ _ E1) as F1.
      apply ends_bind; [destruct ok; [apply ends_ret|left; by eexists _, _]|]. intros [] w2 E2.
      assert (frame w1 w2) as F2 by (destruct ok; [by injection E2 as <-|by apply framed_print in E2]).
      destruct (frame_appender_l _ _ _ _ (transitivity F1 F2) Hx) as (y & Hy & _). eapply (ends_appender i _ _ y); [done|].
      destruct (ap_kind y); [apply ends_ret|left; by eexists _, _].
    + intros [] w1 E1. assert (frame w w1) as F1.
      { destruct (_ <=? _); [|by injection E1 as <-]. apply bind_returns in E1 as (ok & w2 & E2 & E1).
        apply reopen_framed in E2; [|done]. apply bind_returns in E1 as ([] & w3 & E3 & E1).
        assert (frame w2 w3) as F3 by (destruct ok; [by injection E3 as <-|by apply framed_print in E3]).
        etrans; [exact E2|]. etrans; [exact F3|]. apply bind_returns in E1 as (y & w4 & Ey & E1).
        apply the_appender_returns in Ey as [-> Ey]. destruct (ap_kind y) as [|fn la op] eqn:Eky; injection E1 as <-; [done|].
        eapply put_stream_framed; [exact Ey|by eexists _, _]. }
      destruct (frame_appender_l _ _ _ _ F1 Hx) as (y & Hy & (_ & Hs & _)). apply ends_lock.
      eapply (ends_appender i _ _ y); [done|]. apply ends_bind; [apply format_ends; [by rewrite <- Hs|by cbn; destruct F1 as (-> & _)]|].
      intros t w2 _. destruct (ap_kind y) as [|fn la []]; apply ends_ret.
Qed.

Lemma each_ends e js : forall w, ready n w -> (forall i, i ∈ js -> exists x, w_appenders w !! i = Some x /\ is_Some (ap_formatter x)) ->
  is_Some (w_loggers w !! ev_logger e) -> ends (each (fun i => LogAppender_log strftime site log_error i e) js) w.
Proof.
  induction js as [|i js IH]; intros w Hr Hi He; [apply ends_ret|]. destruct (Hi i ltac:(by left)) as (x & Hx & Hf).
  apply ends_bind; [by eapply LogAppender_log_ends|]. intros [] w1 E1.
  pose proof (LogAppender_log_framed strftime site log_error i e error_framed _ _ _ E1) as F1. apply IH.
  - by eapply ready_frame.
  - intros j Hj. destruct (Hi j) as (y & Hy & Hfy); [by right|]. destruct (frame_appender_l _ _ _ _ F1 Hy) as (z & Hz & (_ & Hs & _)).
    exists z. split; [done|]. by rewrite <- Hs.
  - by destruct F1 as (-> & _).
Qed.
End calls.

Definition has_root l : bool := match lg_root l with Some _ => true | None => false end.
Lemma Logger_log_ends fuel : forall n id level e l w, ready n w -> w_loggers w !! id = Some l -> is_Some (w_loggers w !! ev_logger e) ->
  (2 * n + (if has_root l then 2 else 1) <= fuel)%nat -> ends (Logger_log strftime g_logger site fuel id level e) w.
Proof.
  induction fuel as [|fuel IH]; intros n id level e l w Hr Hl He Hf; [destruct (has_root l); lia|]. cbn [Logger_log].
  eapply ends_logger; [exact Hl|]. destruct (_ <=? _); [|apply ends_ret]. pose proof Hr as (Hc & Hg & Hu & _).
  destruct (core_loggers _ Hc id l Hl) as (_ & Hroot & Ha). destruct (lg_appenders l) as [|i js] eqn:Ea.
  - unfold has_root in Hf. destruct (lg_root l) as [r|] eqn:Er; [|apply ends_ret]. destruct (Hroot r eq_refl) as (lr & Hlr & Hnr).
    eapply (IH n r level e lr); [done..|]. unfold has_root. rewrite Hnr. lia.
  - rewrite <- Ea in *. clear Ea i js. pose proof (lookup_lt_Some _ _ _ Hl) as Hid.
    destruct (decide (LoggerLock id ∈ held w)) as [Hh|Hh]; [right; by apply with_lock_held|].
    assert (exists m, n = S m) as [m ->].
    { destruct n as [|m]; [|by exists m]. unfold unheld in Hu.
      pose proof (filter_drop_one id (held w) (length (w_loggers w)) 0 ltac:(lia) Hh). lia. }
    apply ends_lock. eapply (each_ends m).
    + intros c. apply framed_bind; [auto with frame|]. intros lg. destruct (enabled _ _); [apply Logger_log_framed|auto with frame].
    + intros c w1 Hr1. pose proof Hr1 as (_ & [lg Hlg] & _). eapply ends_logger; [exact Hlg|]. destruct (enabled _ _); [|apply ends_ret].
      eapply (IH m g_logger ERROR _ lg); [done|done|cbn; by rewrite Hlg|]. destruct (has_root lg), (has_root l); lia.
    + by apply ready_logger.
    + intros j (x & Hx & Hfx & _)%Ha. by exists x.
    + done.
Qed.

(** C31: logging ends.  In a well-formed world, whatever locks are held and whether files and
    directories can be made or not, with file names that are not empty: an event comes back from
    the logger, or it waits for ever for a lock that its own thread holds.  Nothing else can go
    wrong, and two calls for each logger and two more bound the nesting, although errors of
    opening files are logged, which may fail to open files. *)
Theorem log_ends id level e w : core w -> is_Some (w_loggers w !! g_logger) -> is_Some (w_loggers w !! id) ->
  is_Some (w_loggers w !! ev_logger e) ->
  (forall i x filename last o, w_appenders w !! i = Some x -> ap_kind x = FileAppender filename last o -> c_str (Dirname filename) <> []) ->
  let o := Logger_log strftime g_logger site (2 * length (w_loggers w) + 2) id level e w in
  (exists w', o = Ok tt w' /\ frame w w') \/ o = Undef deadlock.
Proof.
  intros Hc Hg [l Hl] He Hn. cbn zeta.
  destruct (Logger_log_ends (2 * length (w_loggers w) + 2) (length (w_loggers w)) id level e l w) as [([] & w' & E)|E]; [|done|done|..].
  - split_and!; [done|done| |done]. unfold unheld. etrans; [apply List.filter_length_le|]. by rewrite length_seq.
  - destruct (has_root l); lia.
  - left. exists w'. split; [done|]. by eapply Logger_log_framed.
  - by right.
Qed.

Lemma undef_bind {A B} u (m : M (World F) A) (k : A -> M (World F) B) w : m w = Undef u -> bind m k w = Undef u.
Proof. intros E. unfold bind. by rewrite E. Qed.
Lemma lock_undef {A} u lk (m : M (World F) A) w : lk ∉ held w -> m (set_held (lk :: held w) w) = Undef u -> with_lock lk m w = Undef u.
Proof.
  intros Hl E. unfold with_lock. rewrite bind_get, decide_False by done. change (bind (put ?w1) ?k w) with (k tt w1). cbn beta.
  by apply undef_bind.
Qed.

(** Logging to a logger whose lock the thread holds, and to one whose root it is *)
Lemma log_held fuel id level e w l : w_loggers w !! id = Some l -> level_value (lg_level l) <= level_value level -> lg_appenders l <> [] ->
  LoggerLock id ∈ held w -> Logger_log strftime g_logger site (S fuel) id level e w = Undef deadlock.
Proof.
  intros Hl Hv Ha Hh. cbn [Logger_log]. rewrite (bind_ok _ _ _ _ _ (the_logger_ok _ _ _ Hl)). rewrite (proj2 (Z.leb_le _ _) Hv).
  destruct (lg_appenders l); [done|]. by apply with_lock_held.
Qed.
Lemma log_to_root fuel id r level e w l : w_loggers w !! id = Some l -> level_value (lg_level l) <= level_value level ->
  lg_appenders l = [] -> lg_root l = Some r ->
  Logger_log strftime g_logger site (S fuel) id level e w = Logger_log strftime g_logger site fuel r level e w.
Proof.
  intros Hl Hv Ha Hr. cbn [Logger_log]. rewrite (bind_ok _ _ _ _ _ (the_logger_ok _ _ _ Hl)). by rewrite (proj2 (Z.leb_le _ _) Hv), Ha, Hr.
Qed.
Lemma reopen_stuck log_error i x filename last o dir f w : AppenderLock i ∉ held w -> w_appenders w !! i = Some x ->
  ap_kind x = FileAppender filename last o -> OpenForWrite filename (w_fs w) = Ok (false, Some dir) f ->
  (forall w', held w' = AppenderLock i :: held w -> w_loggers w' = w_loggers w -> log_error (mkdir_error site dir) w' = Undef deadlock) ->
  reopen site log_error i w = Undef deadlock.
Proof.
  intros Hi Hx Ek Eo Hs. apply lock_undef; [done|]. set (w1 := set_held _ w).
  rewrite (bind_ok _ _ _ _ _ (the_appender_ok i w1 x Hx)), Ek. unfold put_appender at 1. rewrite bind_modify.
  set (w2 := set_appenders _ _). rewrite (bind_ok _ _ w2 (false, Some dir) (set_fs f w2)); [|unfold on_fs; cbn; by rewrite Eo].
  cbn [snd]. apply undef_bind. by apply Hs.
Qed.

(** An event that is never written.  When the file of the first appender of the root logger is
    due to be opened, and neither it can be opened nor its directory be made, and [g_logger],
    without appenders of its own, passes errors on to the root: logging an event to the root waits
    for ever, for the lock of the root logger that the thread has locked itself. *)
Theorem log_deadlock fuel level e w l lg i js x filename last o dir f :
  w_loggers w !! m_root w = Some l -> lg_appenders l = i :: js -> level_value (lg_level l) <= level_value level ->
  w_appenders w !! i = Some x -> ap_kind x = FileAppender filename last o -> level_value (ap_level x) <= level_value (ev_level e) ->
  due last (ev_time e) = true -> OpenForWrite filename (w_fs w) = Ok (false, Some dir) f ->
  w_loggers w !! g_logger = Some lg -> lg_appenders lg = [] -> lg_root lg = Some (m_root w) ->
  level_value (lg_level lg) <= level_value ERROR -> level_value (lg_level l) <= level_value ERROR -> held w = [] ->
  Logger_log strftime g_logger site (S (S (S fuel))) (m_root w) level e w = Undef deadlock.
Proof.
  intros Hl Ha Hv Hx Ek Hxv Hd Eo Hlg Hga Hgr Hgv Hve Hh. cbn [Logger_log].
  rewrite (bind_ok _ _ _ _ _ (the_logger_ok _ _ _ Hl)), (proj2 (Z.leb_le _ _) Hv), Ha.
  apply lock_undef; [rewrite Hh; apply not_elem_of_nil|]. cbn [each]. apply undef_bind. unfold LogAppender_log.
  rewrite (bind_ok _ _ _ _ _ (the_appender_ok i (set_held (LoggerLock (m_root w) :: held w) w) x Hx)).
  rewrite (proj2 (Z.leb_le _ _) Hxv), Ek. unfold due in Hd. rewrite Hd. apply undef_bind, undef_bind.
  apply (reopen_stuck _ i x filename last o dir f); [cbn; rewrite Hh|done..|].
  - intros Hi. apply list_elem_of_singleton in Hi. done.
  - intros w' Hw' Elw. cbn [w_loggers set_held] in Elw. rewrite (bind_ok _ _ _ lg w') by (apply the_logger_ok; by rewrite Elw).
    unfold enabled. rewrite (proj2 (Z.leb_le _ _) Hgv).
    change (Logger_log strftime g_logger site (S (S fuel)) g_logger ERROR (site_event site g_logger ERROR (mkdir_error site dir)) w' = Undef deadlock).
    rewrite (log_to_root _ _ (m_root w) _ _ _ lg) by (done || by rewrite Elw).
    apply (log_held _ _ _ _ _ l); [by rewrite Elw|done|by rewrite Ha|]. rewrite Hw'. by right; left.
Qed.
End ends.

(** ** Worlds to run the model with *)

Import SampleFs.
Definition site0 : Site := mkSite (str "util.cpp") 357 7 0 100 (str "main") 20 (str "Not a directory").
Definition time_text (format : bytes) (t : Z) : bytes := print_number t.
Definition event0 : LogEvent := mkLogEvent (str "a.cpp") 1 0 7 0 100 (str "hello") 0 INFO (str "main").
(** The root logger and [system] *)
Definition world0 {F} (f : F) : World F := ran (getLogger (str "system")) (LoggerManager f).
(** The root logger writes to a file whose directory cannot be made. *)
Definition bad_file : bytes := str "/etc/a.yml/x/log".
Definition cleared : World fs := ran (clearAppenders 0) (world0 some_files).
Definition made : World fs := ran (new_appender (mkAppender (FileAppender bad_file 0 false) DEBUG None false)) cleared.
Definition world1 : World fs := ran (addAppender 0 1) made.

Lemma world0_reachable {F} `{Posix F} (f : F) : rtc (log_step time_text 1 site0) (LoggerManager f) (world0 f).
Proof.
  destruct (ran_ok (getLogger (str "system")) (LoggerManager f)) as [id E]; [vm_compute; reflexivity|].
  by apply rtc_once, (step_getLogger _ _ _ (str "system") id).
Qed.
Lemma world1_reachable : rtc (log_step time_text 1 site0) (LoggerManager some_files) world1.
Proof.
  etrans; [apply world0_reachable|]. apply rtc_l with cleared; [|apply rtc_l with made; [|apply rtc_once]].
  - apply (step_clearAppenders _ _ _ 0), ran_unit. vm_compute. reflexivity.
  - destruct (ran_ok (new_appender (mkAppender (FileAppender bad_file 0 false) DEBUG None false)) cleared) as [i E];
      [vm_compute; reflexivity|]. by apply (step_new_appender _ _ _ (FileAppender bad_file 0 false) i).
  - apply (step_addAppender _ _ _ 0 1), ran_unit. vm_compute. reflexivity.
Qed.

Definition new_format : LogFormatter := new_LogFormatter (str "%m%n").
Lemma appenders_keep_formatters_witness : exists w',
  Logger_setFormatter 0 (Some new_format) (world0 some_files) = Ok tt w' /\
  w_appenders w' = w_appenders (world0 some_files).
Proof.
  exists (ran (Logger_setFormatter 0 (Some new_format)) (world0 some_files)).
  pose proof (ran_unit (Logger_setFormatter 0 (Some new_format)) (world0 some_files) ltac:(vm_compute; reflexivity)) as E.
  split; [exact E|]. destruct (appenders_keep_formatters time_text 1 site0 some_files (world0 some_files) (world0_reachable some_files)) as (_ & _ & Hs).
  exact (Hs _ _ _ E).
Defined.

(** A file system on which every file can be opened *)
Module OpenFs.
#[export] Instance posix_open : Posix unit := {
  lstat _ _ := None; access _ _ := false; mkdir _ f := (false, f); rmdir _ f := (false, f); unlink _ f := (false, f);
  rename _ _ f := (false, f); symlink _ _ f := (false, f); realpath _ _ := None; readdir _ _ := None; first_line _ _ := None;
  process_exists _ _ := false; open_append _ f := (true, f) }.
End OpenFs.
Import OpenFs.

Lemma log_routes_witness : exists w', Logger_log time_text 1 site0 2 1 INFO event0 (world0 tt) = Ok tt w' /\
  written w' = [Console (str "100" ++ [Byte.x09] ++ str "7" ++ [Byte.x09] ++ str "main" ++ [Byte.x09] ++ str "0" ++ [Byte.x09] ++
    str "[INFO]" ++ [Byte.x09] ++ str "[root]" ++ [Byte.x09] ++ str "a.cpp:1" ++ [Byte.x09] ++ str "hello" ++ endl)].
Proof.
  destruct (reachable_core time_text 1 site0 tt (world0 tt) (world0_reachable tt)) as [Hc Hh].
  destruct (log_routes (F := unit) time_text 1 site0) with (fuel := 0%nat) (id := 1%nat) (level := INFO) (e := event0) (w := world0 tt)
    as (w' & E & _ & W).
  - done.
  - exact Hc.
  - intros k. rewrite Hh. apply not_elem_of_nil.
  - by eexists.
  - by eexists.
  - exists w'. split; [exact E|]. rewrite W. vm_compute. reflexivity.
Defined.

Lemma log_ends_witness :
  let o := Logger_log time_text 1 site0 6 0 INFO event0 world1 in (exists w', o = Ok tt w' /\ frame world1 w') \/ o = Undef deadlock.
Proof.
  destruct (reachable_core time_text 1 site0 some_files world1 world1_reachable) as [Hc Hh].
  apply (log_ends time_text 1 site0 0 INFO event0 world1 Hc); [by eexists..|].
  intros [|[|i]] x filename last o [= <-]; [done|]. intros [= <- _ _]. done.
Defined.

Definition logger_of (id : nat) : Logger := default (new_Logger [] None) (w_loggers world1 !! id).
Definition appender_of (i : nat) : LogAppender := default (mkAppender StdoutAppender DEBUG None false) (w_appenders world1 !! i).
Lemma log_deadlock_witness : Logger_log time_text 1 site0 3 0 INFO event0 world1 = Undef deadlock.
Proof.
  apply (log_deadlock time_text 1 site0 0 INFO event0 world1 (logger_of 0) (logger_of 1) 1 [] (appender_of 1) bad_file 0 false
    (str "/etc/a.yml/x") (w_fs world1)); try reflexivity; by vm_compute.
Defined.
