(* ===== verification/LogConfig.v ===== *)
(** * The configuration of the log (src/wyze/log.cpp)

    The definitions of loggers and appenders in documents, their conversions from and to texts,
    the listener of the variable [logs] that applies them, and the texts that loggers and appenders
    make of themselves.  A [std::set<LogDefine>] is the list of its elements in the order of their
    names. *)

From S2P Require Import Yaml Prelude Containers Http LogFormat Util Log Config.

Record LogAppenderDefine := mkAppenderDefine { ad_type : Z; ad_level : Level; ad_formatter : bytes; ad_file : bytes }.
Record LogDefine := mkLogDefine { ld_name : bytes; ld_level : Level; ld_formatter : bytes; ld_appenders : list LogAppenderDefine }.

(** [operator==] *)
#[export] Instance LogAppenderDefine_eq_dec : EqDecision LogAppenderDefine.
Proof. solve_decision. Defined.
#[export] Instance LogDefine_eq_dec : EqDecision LogDefine.
Proof. solve_decision. Defined.

(** [operator<] of [std::string] *)
Fixpoint string_less (a b : bytes) : bool :=
  match a, b with
  | _, [] => false
  | [], _ => true
  | x :: a, y :: b => if byte.unsigned x =? byte.unsigned y then string_less a b else byte.unsigned x <? byte.unsigned y
  end.
(** [operator<]: by the names *)
Definition LogDefine_lt (a b : LogDefine) : bool := string_less (ld_name a) (ld_name b).

Section casts.
Context {N} `{Yaml N}.

(** One turn of the loop over the appenders; nothing in it when the appender is skipped. *)
Definition read_appender (node : N) : option (option LogAppenderDefine) :=
  type_node ← subscript node (str "type");
  match type_node with
  | None => Some None
  | Some type_node =>
      type ← y_as_string type_node;
      a ← (if bool_decide (type = str "FileLogAppender") then
             file_node ← subscript node (str "file");
             match file_node with
             | None => Some None
             | Some file_node => (fun file => Some (mkAppenderDefine 1 UNKNOW [] file)) <$> y_as_string file_node
             end
           else if bool_decide (type = str "StdoutLogAppender") then Some (Some (mkAppenderDefine 2 UNKNOW [] []))
           else Some None);
      match a with
      | None => Some None
      | Some a =>
          formatter_node ← subscript node (str "formatter");
          match formatter_node with
          | None => Some (Some a)
          | Some n => (fun f => Some (mkAppenderDefine (ad_type a) (ad_level a) f (ad_file a))) <$> y_as_string n
          end
      end
  end.

(** [LexicalCast<std::string, LogDefine>] *)
Definition LogDefine_from : FromStr LogDefine := fun v =>
  root ← y_load v;
  name_node ← subscript root (str "name");
  name ← name_node ≫= y_as_string;
  level_node ← subscript root (str "level");
  level ← match level_node with Some n => y_as_string n | None => Some [] end;
  formatter_node ← subscript root (str "formatter");
  formatter ← match formatter_node with Some n => y_as_string n | None => Some [] end;
  appenders_node ← subscript root (str "appenders");
  appenders ← match appenders_node with Some n => mapM read_appender (y_items n) | None => Some [] end;
  Some (mkLogDefine name (LogLevel_FromString level) formatter (omap id appenders)).

Definition field (key : bytes) (value : bytes) (present : bool) : list (bytes * N) :=
  if present then [(key, y_text value)] else [].
Definition appender_node (a : LogAppenderDefine) : N :=
  y_map ((if ad_type a =? 1 then [(str "type", y_text (str "FileLogAppender")); (str "file", y_text (ad_file a))]
          else if ad_type a =? 2 then [(str "type", y_text (str "StdoutLogAppender"))] else []) ++
         field (str "level") (LogLevel_ToString (ad_level a)) (negb (bool_decide (ad_level a = UNKNOW))) ++
         field (str "formatter") (ad_formatter a) (negb (empty (ad_formatter a)))).
(** [LexicalCast<LogDefine, std::string>] *)
Definition LogDefine_node (i : LogDefine) : N :=
  y_map (field (str "name") (ld_name i) true ++
         field (str "level") (LogLevel_ToString (ld_level i)) (negb (bool_decide (ld_level i = UNKNOW))) ++
         field (str "formatter") (ld_formatter i) (negb (empty (ld_formatter i))) ++
         match ld_appenders i with [] => [] | l => [(str "appenders", y_seq (appender_node <$> l))] end).
Definition LogDefine_to : ToStr LogDefine := fun i => Some (y_emit (LogDefine_node i)).
End casts.

Section listener.
Context {F : Type} `{Posix F} (strftime : bytes -> Z -> bytes) (g_logger : nat) (site : Site) (fuel : nat).
Implicit Types (i : LogDefine) (a : LogAppenderDefine).

(** [value.find(i)] *)
Definition find_define (value : list LogDefine) i : option LogDefine :=
  List.find (fun j => bool_decide (ld_name j = ld_name i)) value.

(** [new FileAppender(file)]; the appender at a null pointer for any other type *)
Definition make_appender a : M (World F) nat :=
  if ad_type a =? 1 then
    ap <- new_appender (mkAppender (FileAppender (ad_file a) 0 false) DEBUG None false) ;;
    ok <- reopen site (fun content => l <- the_logger g_logger ;;
                         if enabled ERROR l then Logger_log strftime g_logger site fuel g_logger ERROR (site_event site g_logger ERROR content)
                         else ret tt) ap ;;
    (if ok : bool then ret tt else print (not_open (ad_file a))) ;;; ret ap
  else if ad_type a =? 2 then new_appender (mkAppender StdoutAppender DEBUG None false)
  else undef null_deref.

Definition invalid_formatter i a : write :=
  Console (str "log.name=" ++ ld_name i ++ str " appender type=" ++ print_number (ad_type a) ++
           str " formatter=" ++ ad_formatter a ++ str " is invalid" ++ endl).
Definition add_define (logger : nat) i a : M (World F) unit :=
  ap <- make_appender a ;;
  LogAppender_setLevel ap (ad_level a) ;;;
  (if empty (ad_formatter a) then ret tt
   else let fmt := new_LogFormatter (ad_formatter a) in
        if negb (m_error fmt) then LogAppender_setFormatter ap (Some fmt) else print (invalid_formatter i a)) ;;;
  addAppender logger ap.

(** What the loop over [new_value] does for [i]; the pointer [logger] stays null when [i] is as it was. *)
Definition apply_define (old_value : list LogDefine) i : M (World F) unit :=
  logger <- match find_define old_value i with
            | None => id <- getLogger (ld_name i) ;; ret (Some id)
            | Some it => if decide (i = it) then ret None else id <- getLogger (ld_name i) ;; ret (Some id)
            end ;;
  logger <- or_undef null_deref logger ;;
  setLevel logger (ld_level i) ;;;
  (if empty (ld_formatter i) then ret tt else Logger_setPattern logger (ld_formatter i)) ;;;
  clearAppenders logger ;;;
  each (add_define logger i) (ld_appenders i).

Definition remove_define (new_value : list LogDefine) i : M (World F) unit :=
  match find_define new_value i with
  | Some _ => ret tt
  | None => logger <- getLogger (ld_name i) ;; setLevel logger UNKNOW ;;; clearAppenders logger
  end.

(** The listener that [LogIniter] adds *)
Definition on_logs_changed (old_value new_value : list LogDefine) : M (World F) unit :=
  WYZE_LOG strftime g_logger site fuel g_logger INFO (str "on_logger_conf_changed") ;;;
  each (apply_define old_value) new_value ;;;
  each (remove_define new_value) old_value.
End listener.

(** ** The texts of loggers *)

Section dump.
Context {F N : Type} `{Yaml N}.
Implicit Types w : World F.

(** [YAML::Load] of a text that a method made *)
Definition yaml_Load (text : bytes) : M (World F) N :=
  match y_load text with Some n => ret n | None => throw (runtime_error "YAML::ParserException") end.
Fixpoint collect {A B} (f : A -> M (World F) B) (l : list A) : M (World F) (list B) :=
  match l with [] => ret [] | a :: l => b <- f a ;; bs <- collect f l ;; ret (b :: bs) end.

Definition level_field (level : Level) : list (bytes * N) :=
  field (str "level") (LogLevel_ToString level) (negb (bool_decide (level = UNKNOW))).
Definition formatter_field (f : option LogFormatter) : list (bytes * N) :=
  match f with Some f => field (str "formatter") (m_pattern f) true | None => [] end.

(** [StdoutAppender::toYamlString()], [FileAppender::toYamlString()] *)
Definition LogAppender_node (x : LogAppender) : N :=
  y_map (match ap_kind x with
         | StdoutAppender => field (str "type") (str "StdoutLogAppender") true
         | FileAppender filename _ _ => field (str "type") (str "FileLogAppender") true ++ field (str "file") filename true
         end ++ level_field (ap_level x) ++ formatter_field (if ap_hasFormatter x then ap_formatter x else None)).
Definition LogAppender_toYamlString (a : nat) : M (World F) bytes :=
  with_lock (AppenderLock a) (x <- the_appender a ;; ret (y_emit (LogAppender_node x))).

(** [Logger::toYamlString()] *)
Definition Logger_node (l : Logger) (appenders : list N) : N :=
  y_map (field (str "name") (lg_name l) true ++ level_field (lg_level l) ++ formatter_field (lg_format l) ++
         match appenders with [] => [] | _ => [(str "appenders", y_seq appenders)] end).
Definition Logger_toYamlString (id : nat) : M (World F) bytes :=
  with_lock (LoggerLock id)
    (l <- the_logger id ;;
     appenders <- collect (fun a => text <- LogAppender_toYamlString a ;; yaml_Load text) (lg_appenders l) ;;
     ret (y_emit (Logger_node l appenders))).

(** [LoggerManager::toYamlString()]: the loggers in the order of their names *)
Definition logger_names (m : gmap bytes nat) : list bytes := foldr (set_insert string_less) [] (fst <$> map_to_list m).
Definition LoggerManager_toYamlString : M (World F) bytes :=
  with_lock ManagerLock
    (w <- get ;;
     nodes <- collect (fun name => id <- or_undef null_deref (m_loggers w !! name) ;;
                                   text <- Logger_toYamlString id ;; yaml_Load text) (logger_names (m_loggers w)) ;;
     ret (y_emit (y_seq nodes))).
End dump.
