(* ===== verification/LogConfigSpec.v ===== *)
(** * What the configuration of the log promises

    Definitions of loggers come back from their texts but for the levels of appenders; a change of
    the variable [logs] makes the loggers what the new value says, unless a logger is defined as it
    was: then the listener follows a null pointer. *)

From stdpp Require Import relations.
From S2P Require Import Yaml Prelude Containers Http HttpSpec LogFormat Util UtilSpec Config ConfigSpec Log LogSpec LogConfig.

(** ** Texts *)

Section texts.
Context {N} `{YamlLaws N}.
Implicit Types (a : LogAppenderDefine) (i : LogDefine).

Lemma level_roundtrip level : LogLevel_FromString (LogLevel_ToString level) = level.
Proof. by destruct level. Qed.

(** What the conversions keep of an appender: not its level; no file but that of a file appender *)
Definition readable a : Prop := (ad_type a = 1 \/ (ad_type a = 2 /\ ad_file a = [])) .
Definition without_level a : LogAppenderDefine := mkAppenderDefine (ad_type a) UNKNOW (ad_formatter a) (ad_file a).

Lemma appender_back a : readable a -> read_appender (appender_node a) = Some (Some (without_level a)).
Proof.
  destruct a as [type level formatter file]. unfold read_appender, appender_node, field, readable. cbn [ad_type ad_level ad_formatter ad_file].
  intros [->|[-> ->]]; cbn [Z.eqb Pos.eqb];
    destruct (negb (bool_decide (level = UNKNOW))), formatter as [|b f]; cbn [negb empty app];
    repeat (first [read_key | rewrite bool_decide_true by done | rewrite bool_decide_false by (by vm_compute)]); done.
Qed.

Lemma appenders_back l : Forall readable l ->
  omap id <$> mapM read_appender (appender_node <$> l) = Some (without_level <$> l).
Proof.
  intros Hl. assert (mapM read_appender (appender_node <$> l) = Some (Some ∘ without_level <$> l)) as ->.
  { induction Hl as [|a l Ha _ IH]; [done|]. cbn [fmap list_fmap mapM]. rewrite (appender_back a Ha). cbn [mbind option_bind]. by rewrite IH. }
  cbn. f_equal. clear Hl. induction l as [|a l IH]; [done|]. cbn in IH |- *. by rewrite IH.
Qed.

(** A definition comes back without the levels of its appenders.  A [LogDefine] whose appenders
    are of the two known types survives being turned into a text and read again, with its name, its
    level, its formatter and its appenders, each with its formatter and file; but the level of an
    appender, which is written, is not read: it comes back as [UNKNOW]. *)
Theorem LogDefine_roundtrip i : Forall readable (ld_appenders i) ->
  LogDefine_to i ≫= LogDefine_from =
    Some (mkLogDefine (ld_name i) (ld_level i) (ld_formatter i) (without_level <$> ld_appenders i)).
Proof.
  destruct i as [name level formatter appenders]. intros Ha. cbn [ld_appenders] in Ha. pose proof (appenders_back appenders Ha) as Hb.
  unfold LogDefine_to, LogDefine_from, LogDefine_node, field. cbn [mbind option_bind ld_name ld_level ld_formatter ld_appenders].
  rewrite y_load_emit. cbn [mbind option_bind].
  destruct (bool_decide (level = UNKNOW)) eqn:El; [apply bool_decide_eq_true in El; subst level|]; destruct formatter as [|b f];
    destruct appenders as [|x l]; cbn [negb empty app]; repeat read_key; rewrite ?y_items_seq, ?level_roundtrip; try done.
  all: destruct (mapM _ _) as [r|]; [|done]; injection Hb as Hb; cbn [mbind option_bind]; by rewrite Hb.
Qed.
End texts.

(** ** Applying a change *)

Section apply.
Context {F : Type} `{Posix F} (strftime : bytes -> Z -> bytes) (g_logger : nat) (site : Site) (fuel : nat).
Implicit Types (w : World F) (l : Logger) (x : LogAppender) (i : LogDefine) (a : LogAppenderDefine).

Lemma each_undef {A} (f : A -> M (World F) unit) xs y : y ∈ xs -> (forall w, returned (f y w) = None) ->
  forall w, returned (each f xs w) = None.
Proof.
  intros Hy Hf. induction xs as [|z xs IH]; [by apply elem_of_nil in Hy|]. intros w. cbn [each]. unfold bind.
  apply elem_of_cons in Hy as [->|Hy].
  - specialize (Hf w). by destruct (f z w).
  - destruct (f z w) as [[] w1| |]; [by apply IH|done..].
Qed.

Lemma apply_unchanged old i w : find_define old i = Some i -> returned (apply_define strftime g_logger site fuel old i w) = None.
Proof. intros E. unfold apply_define. rewrite E, decide_True by done. done. Qed.

(** A definition that stays crashes the change.  When some logger is defined in the new value as
    it was in the old one, the listener of the variable [logs] does not return: the pointer to the
    logger, which is set for new and changed definitions only, is null where it is followed. *)
Theorem unchanged_define_crashes old new i : i ∈ new -> find_define old i = Some i ->
  (forall w, returned (on_logs_changed strftime g_logger site fuel old new w) = None) /\
  forall w, apply_define strftime g_logger site fuel old i w = Undef null_deref.
Proof.
  intros Hi Hold. split; [|intros w; unfold apply_define; by rewrite Hold, decide_True]. intros w. unfold on_logs_changed, bind.
  destruct (WYZE_LOG _ _ _ _ _ _ _ w) as [[] w1| |]; [|done..].
  pose proof (each_undef (apply_define strftime g_logger site fuel old) new i Hi (fun w => apply_unchanged old i w Hold) w1) as E.
  by destruct (each _ new w1).
Qed.

(** *** The operations in a world without locks *)

Lemma getLogger_ok name w : core w -> held w = [] -> exists id w' l, getLogger name w = Ok id w' /\
  m_loggers w' = <[name := id]> (m_loggers w) /\ w_loggers w' !! id = Some l /\ lg_name l = name /\
  (forall k m, w_loggers w !! k = Some m -> w_loggers w' !! k = Some m) /\ w_appenders w' = w_appenders w /\ held w' = [].
Proof.
  intros Hc Hh. unfold getLogger. destruct (m_loggers w !! name) as [id|] eqn:En.
  - destruct (core_names _ Hc name id En) as (l & Hl & Hn). exists id, w, l.
    split_and!; [|by rewrite insert_id|done..]. rewrite (with_lock_ok _ _ _ id (set_held [ManagerLock] w)); [by destruct w; cbn in *; subst|by rewrite Hh; apply not_elem_of_nil|].
    rewrite bind_get. cbn. by rewrite En, Hh.
  - set (nl := new_Logger name (Some (m_root w))).
    exists (length (w_loggers w)), (mkWorld F (w_appenders w) (w_loggers w ++ [nl]) (<[name := length (w_loggers w)]> (m_loggers w))
      (m_root w) (w_fs w) (written w) []), nl. split_and!; [|done| |done| |done|done].
    + rewrite (with_lock_ok _ _ _ (length (w_loggers w)) (mkWorld F (w_appenders w) (w_loggers w ++ [nl]) (<[name := length (w_loggers w)]> (m_loggers w))
        (m_root w) (w_fs w) (written w) [ManagerLock])); [by cbn; rewrite Hh|by rewrite Hh; apply not_elem_of_nil|].
      rewrite bind_get. cbn. by rewrite En, Hh.
    + cbn. by rewrite lookup_app_r, Nat.sub_diag by lia.
    + intros k m Hk. by apply lookup_app_l_Some.
Qed.

Lemma put_logger_ok id l w : put_logger id l w = Ok tt (set_loggers (<[id := l]> (w_loggers w)) w).
Proof. done. Qed.
Lemma setLevel_ok id level l w : w_loggers w !! id = Some l ->
  setLevel id level w = Ok tt (set_loggers (<[id := with_level l level]> (w_loggers w)) w).
Proof. intros Hl. unfold setLevel. by rewrite (bind_ok _ _ _ _ _ (the_logger_ok _ _ _ Hl)). Qed.
Lemma clearAppenders_ok id l w : held w = [] -> w_loggers w !! id = Some l ->
  clearAppenders id w = Ok tt (set_loggers (<[id := with_appenders l []]> (w_loggers w)) w).
Proof.
  intros Hh Hl. unfold clearAppenders. rewrite (with_lock_ok _ _ _ tt (set_loggers (<[id := with_appenders l []]> (w_loggers w)) (set_held [LoggerLock id] w))).
  - by destruct w; cbn in *; subst.
  - rewrite Hh. apply not_elem_of_nil.
  - rewrite (bind_ok _ _ _ l (set_held (LoggerLock id :: held w) w)) by by apply the_logger_ok. by rewrite Hh.
Qed.

Lemma each_format_ok val js w : (forall i : nat, i ∈ js -> exists x, w_appenders w !! i = Some x /\ has_format x) ->
  (forall i : nat, AppenderLock i ∉ held w) ->
  each (fun (j : nat) => with_lock (AppenderLock j) (x <- the_appender j ;;
    if negb (ap_hasFormatter x) then put_appender j (with_formatter x val) else ret tt)) js w = Ok tt w.
Proof.
  intros Hi Hh. induction js as [|j js IH]; [done|]. cbn [each]. destruct (Hi j ltac:(by left)) as (x & Hx & _ & Hf).
  rewrite (bind_ok _ _ _ tt w); [apply IH; intros k Hk; apply Hi; by right|].
  rewrite (with_lock_ok _ _ _ tt (set_held (AppenderLock j :: held w) w)); [by rewrite set_held_twice|done|].
  rewrite (bind_ok _ _ _ x (set_held (AppenderLock j :: held w) w)) by by apply the_appender_ok. by rewrite Hf.
Qed.

(** The formatter that a pattern sets, if it is one *)
Definition formatter_for (pattern : bytes) (old : option LogFormatter) : option LogFormatter :=
  if empty pattern || m_error (new_LogFormatter pattern) then old else Some (new_LogFormatter pattern).

Lemma set_loggers_same w : set_loggers (w_loggers w) w = w.
Proof. by destruct w. Qed.

Lemma setPattern_ok id pattern l w : core w -> held w = [] -> w_loggers w !! id = Some l -> exists out,
  (if empty pattern then ret tt else Logger_setPattern id pattern) w =
    Ok tt (mkWorld F (w_appenders w) (<[id := with_format l (formatter_for pattern (lg_format l))]> (w_loggers w)) (m_loggers w) (m_root w)
            (w_fs w) out []).
Proof.
  intros Hc Hh Hl. unfold formatter_for. assert (with_format l (lg_format l) = l) as Hsame by by destruct l.
  destruct (empty pattern); cbn [orb].
  { exists (written w). rewrite Hsame, list_insert_id by done. destruct w; cbn in *. by subst. }
  unfold Logger_setPattern. destruct (m_error (new_LogFormatter pattern)).
  { eexists. rewrite (bind_ok _ _ _ _ _ (the_logger_ok _ _ _ Hl)), Hsame, list_insert_id by done. unfold print, modify. by rewrite Hh. }
  exists (written w). unfold Logger_setFormatter.
  rewrite (with_lock_ok _ _ _ tt (set_loggers (<[id := with_format l (Some (new_LogFormatter pattern))]> (w_loggers w)) (set_held [LoggerLock id] w)));
    [by rewrite Hh|rewrite Hh; apply not_elem_of_nil|].
  rewrite (bind_ok _ _ _ l (set_held (LoggerLock id :: held w) w)) by by apply the_logger_ok.
  rewrite (bind_ok _ _ _ _ _ (put_logger_ok id _ _)). cbn [w_loggers set_held]. rewrite Hh. apply each_format_ok.
  - cbn. intros j Hj. by apply (core_loggers _ Hc id l Hl).
  - intros j. cbn. intros Hj%list_elem_of_singleton. done.
Qed.

Hypothesis files_open : forall p (f : F), fst (open_append p f) = true.

(** The appender [x] is what [a] says, with the formatter [fmt] when [a] has none. *)
Definition configured_as a (fmt : option LogFormatter) x : Prop :=
  ap_level x = ad_level a /\ ap_formatter x = formatter_for (ad_formatter a) fmt /\
  match ap_kind x with
  | StdoutAppender => ad_type a = 2
  | FileAppender filename _ is_open => ad_type a = 1 /\ filename = ad_file a /\ is_open = true
  end.

Lemma insert_last {A} (l : list A) (x y : A) : <[length l := y]> (l ++ [x]) = l ++ [y].
Proof. induction l as [|z l IH]; [done|]. exact (f_equal (cons z) IH). Qed.
Lemma lookup_last {A} (l : list A) (x : A) : (l ++ [x]) !! length l = Some x.
Proof. by rewrite lookup_app_r, Nat.sub_diag by lia. Qed.

Lemma make_appender_ok a w : ad_type a = 1 \/ ad_type a = 2 -> held w = [] -> exists kind f,
  make_appender strftime g_logger site fuel a w = Ok (length (w_appenders w))
    (mkWorld F (w_appenders w ++ [mkAppender kind DEBUG None false]) (w_loggers w) (m_loggers w) (m_root w) f (written w) []) /\
  match kind with
  | StdoutAppender => ad_type a = 2
  | FileAppender filename _ is_open => ad_type a = 1 /\ filename = ad_file a /\ is_open = true
  end.
Proof.
  intros Ht Hh. unfold make_appender. destruct Ht as [Ht|Ht]; rewrite Ht; cbn [Z.eqb Pos.eqb].
  - set (x := mkAppender (FileAppender (ad_file a) 0 false) DEBUG None false).
    set (w1 := set_appenders (w_appenders w ++ [x]) w).
    rewrite (bind_ok _ _ w (length (w_appenders w)) w1) by done.
    match goal with |- context [reopen site ?le _] => destruct (reopen_ok site files_open le (length (w_appenders w)) x (ad_file a) 0 false w1)
      as (f & E) end; [cbn; rewrite Hh; apply not_elem_of_nil|apply lookup_last|done|].
    exists (FileAppender (ad_file a) 0 true), f. rewrite (bind_ok _ _ _ _ _ E), bind_ret. split; [|done]. unfold ret. f_equal.
    unfold set_fs, set_appenders. cbn. by rewrite insert_last, Hh.
  - exists StdoutAppender, (w_fs w). split; [|done]. unfold new_appender. rewrite bind_get. unfold bind, put, ret, set_appenders. by rewrite Hh.
Qed.

Lemma with_lock_free {A} lk (m : M (World F) A) w b w1 : held w = [] -> m (set_held [lk] w) = Ok b w1 ->
  with_lock lk m w = Ok b (set_held [] w1).
Proof. intros Hh E. rewrite <- Hh in E |- *. apply with_lock_ok; [rewrite Hh; apply not_elem_of_nil|done]. Qed.

Lemma setFormatter_ok n x val w : AppenderLock n ∉ held w -> w_appenders w !! n = Some x ->
  LogAppender_setFormatter n val w =
    Ok tt (set_appenders (<[n := mkAppender (ap_kind x) (ap_level x) val (if val then true else false)]> (w_appenders w)) w).
Proof.
  intros Hn Hx. unfold LogAppender_setFormatter. rewrite (with_lock_ok _ _ _ tt (set_appenders
    (<[n := mkAppender (ap_kind x) (ap_level x) val (if val then true else false)]> (w_appenders w)) (set_held (AppenderLock n :: held w) w)));
    [by destruct w|done|].
  by rewrite (bind_ok _ _ _ x (set_held (AppenderLock n :: held w) w)) by by apply the_appender_ok.
Qed.

(** The last appender is added to a logger, and gets its formatter if it has none. *)
Lemma addAppender_ok id apps x l w fmt : held w = [] -> w_appenders w = apps ++ [x] -> w_loggers w !! id = Some l ->
  lg_format l = Some fmt -> exists w',
  addAppender id (length apps) w = Ok tt w' /\
  w_appenders w' = apps ++ [match ap_formatter x with None => mkAppender (ap_kind x) (ap_level x) (lg_format l) true | Some _ => x end] /\
  w_loggers w' = <[id := with_appenders l (lg_appenders l ++ [length apps])]> (w_loggers w) /\
  m_loggers w' = m_loggers w /\ m_root w' = m_root w /\ held w' = [].
Proof.
  intros Hh Ha Hl Hf. set (y := match ap_formatter x with None => mkAppender (ap_kind x) (ap_level x) (lg_format l) true | Some _ => x end).
  exists (set_held [] (set_loggers (<[id := with_appenders l (lg_appenders l ++ [length apps])]> (w_loggers w)) (set_appenders (apps ++ [y]) w))).
  split_and!; try done. apply with_lock_free with (w1 := set_held [LoggerLock id] (set_loggers (<[id := with_appenders l (lg_appenders l ++ [length apps])]> (w_loggers w))
    (set_appenders (apps ++ [y]) w))); [done|].
  assert (w_appenders (set_held [LoggerLock id] w) !! length apps = Some x) as Hx by (cbn; rewrite Ha; apply lookup_last).
  rewrite (bind_ok _ _ _ l (set_held [LoggerLock id] w)) by by apply the_logger_ok.
  rewrite (bind_ok _ _ _ x (set_held [LoggerLock id] w)) by by apply the_appender_ok.
  rewrite (bind_ok _ _ _ tt (set_held [LoggerLock id] (set_appenders (apps ++ [y]) w))); [done|].
  unfold y. destruct (ap_formatter x); [by rewrite <- Ha; destruct w|].
  rewrite (setFormatter_ok _ x) by (done || by intros ?%list_elem_of_singleton). cbn [w_appenders set_held]. rewrite Ha, insert_last.
  rewrite Hf. done.
Qed.

Lemma add_define_ok id i a l w : core w -> held w = [] -> w_loggers w !! id = Some l -> ad_type a = 1 \/ ad_type a = 2 ->
  exists w' x, add_define strftime g_logger site fuel id i a w = Ok tt w' /\ w_appenders w' = w_appenders w ++ [x] /\
    w_loggers w' = <[id := with_appenders l (lg_appenders l ++ [length (w_appenders w)])]> (w_loggers w) /\
    m_loggers w' = m_loggers w /\ m_root w' = m_root w /\ held w' = [] /\ configured_as a (lg_format l) x.
Proof.
  intros Hc Hh Hl Ht. destruct (core_loggers _ Hc id l Hl) as ([fmt Hf] & _ & _). unfold add_define.
  destruct (make_appender_ok a w Ht Hh) as (kind & f & E & Hk). rewrite (bind_ok _ _ _ _ _ E). set (n := length (w_appenders w)).
  set (x1 := mkAppender kind DEBUG None false) in *. set (w1 := mkWorld _ _ _ _ _ _ _ _). set (x2 := with_ap_level x1 (ad_level a)).
  set (w2 := set_appenders (w_appenders w ++ [x2]) w1).
  assert (LogAppender_setLevel n (ad_level a) w1 = Ok tt w2) as E2.
  { unfold LogAppender_setLevel. rewrite (bind_ok _ _ _ x1 w1) by (apply the_appender_ok, lookup_last).
    unfold put_appender, modify, n, w2, w1. cbn [w_appenders]. by rewrite insert_last. }
  rewrite (bind_ok _ _ _ _ _ E2). set (fa := formatter_for (ad_formatter a) None).
  set (x3 := mkAppender kind (ad_level a) fa (if fa then true else false)).
  assert (exists out, (if empty (ad_formatter a) then ret tt
     else let fmt := new_LogFormatter (ad_formatter a) in
          if negb (m_error fmt) then LogAppender_setFormatter n (Some fmt) else print (invalid_formatter i a)) w2 =
    Ok tt (mkWorld F (w_appenders w ++ [x3]) (w_loggers w) (m_loggers w) (m_root w) f out [])) as [out E3].
  { unfold x3, fa, formatter_for. destruct (empty (ad_formatter a)); cbn [orb]; [by eexists|]. cbn zeta. destruct (m_error _); cbn [negb]; [by eexists|].
    exists (written w). rewrite (setFormatter_ok _ x2); [|apply not_elem_of_nil|apply lookup_last]. unfold n, w2, w1, set_appenders. cbn [w_appenders].
    by rewrite insert_last. }
  rewrite (bind_ok _ _ _ _ _ E3). set (w3 := mkWorld _ _ _ _ _ _ _ _).
  destruct (addAppender_ok id (w_appenders w) x3 l w3 fmt) as (w' & E4 & A4 & L4 & N4 & R4 & H4); [done..|].
  eexists w', _. split_and!; [exact E4|exact A4|done..|]. unfold x3, fa, formatter_for in *. cbn [ap_formatter ap_kind ap_level].
  destruct (empty (ad_formatter a)) eqn:Ee; cbn [orb] in *; [unfold configured_as, formatter_for; by rewrite Ee|].
  destruct (m_error (new_LogFormatter (ad_formatter a))) eqn:Em; unfold configured_as, formatter_for; cbn [ap_level ap_formatter ap_kind];
    by rewrite Ee, Em.
Qed.

Lemma add_define_keeps id i a : keeps (add_define strftime g_logger site fuel id i a).
Proof.
  apply log_keeps_bind.
  - unfold make_appender. destruct (_ =? 1).
    + apply log_keeps_bind; [apply new_appender_keeps; split; [done|by intros [? ?]]|]. intros ap.
      apply framed_keeps, framed_bind; [apply reopen_framed|intros []; auto with frame]. intros c. apply framed_bind; [auto with frame|].
      intros lg. destruct (enabled _ _); [apply Logger_log_framed|auto with frame].
    + destruct (_ =? 2); [apply new_appender_keeps; split; [done|by intros [? ?]]|apply framed_keeps, framed_undef].
  - intros ap. apply log_keeps_bind; [apply ap_setLevel_keeps|]. intros _. apply log_keeps_bind; [|intros _; apply addAppender_keeps].
    destruct (empty _); [apply framed_keeps, framed_ret|]. cbn zeta.
    destruct (negb _); [apply setFormatter_keeps|apply framed_keeps, framed_print].
Qed.

Definition known_type a : Prop := ad_type a = 1 \/ ad_type a = 2.
Lemma adds_ok id i (ads : list LogAppenderDefine) : Forall known_type ads -> forall l w, core w -> held w = [] -> w_loggers w !! id = Some l ->
  exists w' xs, each (add_define strftime g_logger site fuel id i) ads w = Ok tt w' /\ w_appenders w' = w_appenders w ++ xs /\
    w_loggers w' = <[id := with_appenders l (lg_appenders l ++ seq (length (w_appenders w)) (length ads))]> (w_loggers w) /\
    m_loggers w' = m_loggers w /\ held w' = [] /\ core w' /\ Forall2 (fun a x => configured_as a (lg_format l) x) ads xs.
Proof.
  induction 1 as [|a ads Ha _ IH]; intros l w Hc Hh Hl.
  - exists w, []. rewrite !app_nil_r. split_and!; try done. rewrite list_insert_id; [done|]. rewrite Hl. by destruct l.
  - destruct (add_define_ok id i a l w Hc Hh Hl Ha) as (w1 & x & E1 & A1 & L1 & N1 & _ & H1 & C1).
    destruct (add_define_keeps id i a w tt w1 Hc E1) as [Hc1 _].
    set (l1 := with_appenders l (lg_appenders l ++ [length (w_appenders w)])) in *.
    destruct (IH l1 w1 Hc1 H1) as (w2 & xs & E2 & A2 & L2 & N2 & H2 & Hc2 & C2); [by rewrite L1, list_lookup_insert_eq by by eapply lookup_lt_Some|].
    exists w2, (x :: xs). cbn [each]. rewrite (bind_ok _ _ _ _ _ E1). split_and!; [done| | |congruence|done|done|by constructor].
    + by rewrite A2, A1, <- app_assoc.
    + rewrite L2, L1, list_insert_insert_eq. unfold l1, with_appenders. cbn. by rewrite A1, length_app, Nat.add_1_r, <- app_assoc.
Qed.

(** A change of the logger of one name only *)
Record changes_only (name : bytes) w w' : Prop := {
  only_names : forall n, n <> name -> m_loggers w' !! n = m_loggers w !! n;
  only_logger : exists id, m_loggers w' !! name = Some id /\ (forall m, w_loggers w !! id = Some m -> lg_name m = name) /\
    forall k m, k <> id -> w_loggers w !! k = Some m -> w_loggers w' !! k = Some m;
  only_more : exists xs, w_appenders w' = w_appenders w ++ xs }.

(** The logger that is defined is what its definition says. *)
Definition configured w i : Prop := exists id l,
  m_loggers w !! ld_name i = Some id /\ w_loggers w !! id = Some l /\ lg_name l = ld_name i /\ lg_level l = ld_level i /\
  (empty (ld_formatter i) = false -> m_error (new_LogFormatter (ld_formatter i)) = false -> lg_format l = Some (new_LogFormatter (ld_formatter i))) /\
  Forall2 (fun a n => exists x, w_appenders w !! n = Some x /\ configured_as a (lg_format l) x) (ld_appenders i) (lg_appenders l).
(** The logger of a definition that is gone writes nothing itself. *)
Definition removed w i : Prop := exists id l,
  m_loggers w !! ld_name i = Some id /\ w_loggers w !! id = Some l /\ lg_name l = ld_name i /\ lg_level l = UNKNOW /\ lg_appenders l = [].

(** What goes by none of some names is as it was: names lead to the same loggers, those loggers are
    unchanged, and so are the appenders, but for the streams of their files. *)
Definition others_same (names : list bytes) w w' : Prop :=
  (forall n, n ∉ names -> m_loggers w' !! n = m_loggers w !! n) /\
  (forall id l, w_loggers w !! id = Some l -> lg_name l ∉ names -> w_loggers w' !! id = Some l) /\
  forall k x, w_appenders w !! k = Some x -> exists y, w_appenders w' !! k = Some y /\ same_but_stream x y.

Lemma others_refl names w : others_same names w w.
Proof. split_and!; [done|done|]. intros a x Hx. by exists x. Qed.
Lemma others_trans names w1 w2 w3 : others_same names w1 w2 -> others_same names w2 w3 -> others_same names w1 w3.
Proof.
  intros (N1 & L1 & A1) (N2 & L2 & A2). split_and!.
  - intros n Hn. by rewrite N2, N1.
  - intros id l Hl Hn. apply L2; [by apply L1|done].
  - intros a x (y & Hy & Hxy)%A1. destruct (A2 a y Hy) as (z & Hz & Hyz). exists z. split; [done|by etrans].
Qed.
Lemma others_weaken names names' w w' : others_same names w w' -> (forall n, n ∈ names -> n ∈ names') -> others_same names' w w'.
Proof. intros (N & L & A) Hn. split_and!; [intros n Hx; apply N; by intros ?%Hn|intros id l Hl Hx; apply L; [done|by intros ?%Hn]|done]. Qed.
Lemma others_changes names name w w' : changes_only name w w' -> name ∈ names -> others_same names w w'.
Proof.
  intros [O1 (k & _ & Hk & O2) [xs O3]] Hn. split_and!.
  - intros n Hne. apply O1. by intros ->.
  - intros id l Hl Hne. apply O2; [|done]. intros ->. apply Hne. by rewrite (Hk l Hl).
  - intros a x Hx. exists x. split; [rewrite O3; by apply lookup_app_l_Some|done].
Qed.
Lemma others_frame names w w' : frame w w' -> others_same names w w'.
Proof.
  intros Hf. pose proof Hf as (E1 & E2 & _). split_and!; [by rewrite E2|by rewrite E1|]. intros a x Hx. exact (frame_appender_l _ _ _ _ Hf Hx).
Qed.

Lemma changes_logger name w w' n id l : changes_only name w w' -> n <> name -> m_loggers w !! n = Some id ->
  w_loggers w !! id = Some l -> lg_name l = n -> m_loggers w' !! n = Some id /\ w_loggers w' !! id = Some l.
Proof.
  intros [O1 (k & _ & Hk & O2) _] Hne Hn Hl Hln. split; [by rewrite O1|]. apply O2; [|done]. intros ->. apply Hne. by rewrite <- Hln, (Hk l Hl).
Qed.
Lemma configured_other name w w' i : changes_only name w w' -> ld_name i <> name -> configured w i -> configured w' i.
Proof.
  intros Ho Hne (id & l & Hn & Hl & Hln & Hv & Hf & Ha). destruct (changes_logger name w w' _ id l Ho Hne Hn Hl Hln) as [Hn' Hl'].
  exists id, l. split_and!; [done..|]. destruct Ho as [_ _ [xs ->]]. eapply Forall2_impl; [exact Ha|]. intros a n (x & Hx & Hc).
  exists x. split; [by apply lookup_app_l_Some|done].
Qed.
Lemma removed_other name w w' i : changes_only name w w' -> ld_name i <> name -> removed w i -> removed w' i.
Proof.
  intros Ho Hne (id & l & Hn & Hl & Hln & Hv & Ha). destruct (changes_logger name w w' _ id l Ho Hne Hn Hl Hln) as [Hn' Hl'].
  by exists id, l.
Qed.

Lemma apply_define_ok old i w : core w -> held w = [] -> Forall known_type (ld_appenders i) -> find_define old i <> Some i ->
  exists w', apply_define strftime g_logger site fuel old i w = Ok tt w' /\ core w' /\ held w' = [] /\
    changes_only (ld_name i) w w' /\ configured w' i.
Proof.
  intros Hc Hh Ht Hd. destruct (getLogger_ok (ld_name i) w Hc Hh) as (id & w1 & l & E1 & N1 & L1 & Hln & K1 & A1 & H1).
  destruct (getLogger_keeps (ld_name i) w id w1 Hc E1) as [Hc1 _].
  assert (apply_define strftime g_logger site fuel old i w = (setLevel id (ld_level i) ;;;
    (if empty (ld_formatter i) then ret tt else Logger_setPattern id (ld_formatter i)) ;;; clearAppenders id ;;;
    each (add_define strftime g_logger site fuel id i) (ld_appenders i)) w1) as ->.
  { unfold apply_define. rewrite (bind_ok _ _ w (Some id) w1); [done|].
    destruct (find_define old i) as [it|]; [rewrite decide_False by congruence|]; by rewrite (bind_ok _ _ _ _ _ E1). }
  set (l2 := with_level l (ld_level i)). set (w2 := set_loggers (<[id := l2]> (w_loggers w1)) w1).
  assert (setLevel id (ld_level i) w1 = Ok tt w2) as E2 by by apply setLevel_ok. rewrite (bind_ok _ _ _ _ _ E2).
  destruct (setLevel_keeps id (ld_level i) w1 tt w2 Hc1 E2) as [Hc2 _]. pose proof (lookup_lt_Some _ _ _ L1) as Hid.
  assert (w_loggers w2 !! id = Some l2) as L2 by by apply list_lookup_insert_eq.
  set (l3 := with_format l2 (formatter_for (ld_formatter i) (lg_format l2))).
  destruct (setPattern_ok id (ld_formatter i) l2 w2 Hc2 H1 L2) as [out E3]. rewrite (bind_ok _ _ _ _ _ E3). fold l3 in E3 |- *. set (w3 := mkWorld _ _ _ _ _ _ _ _) in *.
  assert (core w3) as Hc3.
  { destruct (empty (ld_formatter i)); [refine (eq_ind w2 core Hc2 w3 _); clear -E3; change (Ok tt w2 = Ok tt w3) in E3; congruence|].
    by destruct (Logger_setPattern_keeps id (ld_formatter i) w2 tt w3 Hc2 E3). }
  assert (w_loggers w3 !! id = Some l3) as L3 by (apply list_lookup_insert_eq; exact (lookup_lt_Some _ _ _ L2)).
  set (l4 := with_appenders l3 []). set (w4 := set_loggers (<[id := l4]> (w_loggers w3)) w3).
  assert (clearAppenders id w3 = Ok tt w4) as E4 by by apply clearAppenders_ok. rewrite (bind_ok _ _ _ _ _ E4).
  destruct (clearAppenders_keeps id w3 tt w4 Hc3 E4) as [Hc4 _].
  assert (w_loggers w4 !! id = Some l4) as L4 by (apply list_lookup_insert_eq; by eapply lookup_lt_Some).
  destruct (adds_ok id i (ld_appenders i) Ht l4 w4 Hc4 eq_refl L4) as (w5 & xs & E5 & A5 & L5 & N5 & H5 & Hc5 & C5).
  set (l5 := with_appenders l4 (lg_appenders l4 ++ seq (length (w_appenders w4)) (length (ld_appenders i)))) in *.
  assert (w_loggers w5 !! id = Some l5) as L5' by (rewrite L5; apply list_lookup_insert_eq; by eapply lookup_lt_Some).
  exists w5. split_and!; [done..| |].
  - split.
    + intros n Hne. rewrite N5. cbn [m_loggers w4 w3 w2 set_loggers]. rewrite N1. by rewrite lookup_insert_ne.
    + exists id. split_and!.
      * rewrite N5. cbn [m_loggers w4 w3 w2 set_loggers]. rewrite N1. apply lookup_insert_eq.
      * intros m Hm%K1. congruence.
      * intros k m Hne Hm. rewrite L5. unfold w4, w3, w2. cbn [w_loggers set_loggers]. rewrite !list_lookup_insert_ne by done. by apply K1.
    + exists xs. rewrite A5. cbn. by rewrite A1.
  - exists id, l5. split_and!; [|done|done|done| |].
    + rewrite N5. cbn [m_loggers w4 w3 w2 set_loggers]. rewrite N1. apply lookup_insert_eq.
    + intros He Hm. cbn. unfold formatter_for. by rewrite He, Hm.
    + cbn [l5 with_appenders lg_appenders l4]. rewrite A5. clear -C5. cbn [app]. set (apps := w_appenders w4). set (fmt := lg_format l4) in *.
      change (lg_format l5) with fmt. apply Forall2_same_length_lookup. rewrite length_seq. split; [done|].
      intros k a n Hk Hn. apply lookup_seq in Hn as [-> Hn]. destruct (Forall2_lookup_l _ _ _ _ _ C5 Hk) as (x & Hx & Hcx).
      exists x. split; [|done]. rewrite lookup_app_r by lia. by replace (_ - _)%nat with k by lia.
Qed.

Lemma remove_define_ok new i w : core w -> held w = [] -> exists w', remove_define new i w = Ok tt w' /\ core w' /\ held w' = [] /\
  if find_define new i then w' = w else changes_only (ld_name i) w w' /\ removed w' i.
Proof.
  intros Hc Hh. unfold remove_define. destruct (find_define new i); [by exists w|].
  destruct (getLogger_ok (ld_name i) w Hc Hh) as (id & w1 & l & E1 & N1 & L1 & Hln & K1 & A1 & H1).
  destruct (getLogger_keeps (ld_name i) w id w1 Hc E1) as [Hc1 _]. rewrite (bind_ok _ _ _ _ _ E1).
  set (l2 := with_level l UNKNOW). set (w2 := set_loggers (<[id := l2]> (w_loggers w1)) w1).
  assert (setLevel id UNKNOW w1 = Ok tt w2) as E2 by by apply setLevel_ok. rewrite (bind_ok _ _ _ _ _ E2).
  destruct (setLevel_keeps id UNKNOW w1 tt w2 Hc1 E2) as [Hc2 _]. pose proof (lookup_lt_Some _ _ _ L1) as Hid.
  assert (w_loggers w2 !! id = Some l2) as L2 by by apply list_lookup_insert_eq.
  set (w3 := set_loggers (<[id := with_appenders l2 []]> (w_loggers w2)) w2).
  assert (clearAppenders id w2 = Ok tt w3) as E3 by by apply clearAppenders_ok.
  destruct (clearAppenders_keeps id w2 tt w3 Hc2 E3) as [Hc3 _]. exists w3. split_and!; [done..|split|].
  - intros n Hne. cbn [m_loggers w3 w2 set_loggers]. rewrite N1. by rewrite lookup_insert_ne.
  - exists id. split_and!.
    + cbn [m_loggers w3 w2 set_loggers]. rewrite N1. apply lookup_insert_eq.
    + intros m Hm%K1. congruence.
    + intros k m Hne Hm. unfold w3, w2. cbn [w_loggers set_loggers]. rewrite !list_lookup_insert_ne by done. by apply K1.
  - exists []. by rewrite app_nil_r.
  - exists id, (with_appenders l2 []). split_and!; [|by apply list_lookup_insert_eq; eapply lookup_lt_Some|done..].
    cbn [m_loggers w3 w2 set_loggers]. rewrite N1. apply lookup_insert_eq.
Qed.

Lemma applies_ok old news : NoDup (ld_name <$> news) -> Forall (fun i => Forall known_type (ld_appenders i)) news ->
  (forall i, i ∈ news -> find_define old i <> Some i) -> forall w, core w -> held w = [] ->
  exists w', each (apply_define strftime g_logger site fuel old) news w = Ok tt w' /\ core w' /\ held w' = [] /\
    (forall i, i ∈ news -> configured w' i) /\ (forall j, ld_name j ∉ ld_name <$> news -> configured w j -> configured w' j) /\
    others_same (ld_name <$> news) w w'.
Proof.
  intros Hnd Ht. induction Ht as [|i news Hi Ht IH]; intros Hd w Hc Hh.
  { exists w. split_and!; [done..|by intros ? ?%elem_of_nil|done|apply others_refl]. }
  cbn [fmap list_fmap] in Hnd |- *. apply NoDup_cons in Hnd as [Hn Hnd].
  destruct (apply_define_ok old i w Hc Hh Hi) as (w1 & E1 & Hc1 & H1 & O1 & C1); [apply Hd; by left|].
  destruct (IH Hnd) with (w := w1) as (w2 & E2 & Hc2 & H2 & C2 & K2 & S2); [intros j Hj; apply Hd; by right|done..|].
  exists w2. cbn [each]. rewrite (bind_ok _ _ _ _ _ E1). split_and!; [done..| | |].
  - intros j [->|Hj]%elem_of_cons; [by apply K2|by apply C2].
  - intros j [Hne Hj]%not_elem_of_cons Hcj. apply K2; [done|]. by eapply configured_other.
  - apply others_trans with w1; [eapply others_changes; [exact O1|by left]|]. eapply others_weaken; [exact S2|]. by right.
Qed.

Lemma find_define_none new i : find_define new i = None <-> ld_name i ∉ ld_name <$> new.
Proof.
  unfold find_define. induction new as [|j new IH]; [split; [intros _; apply not_elem_of_nil|done]|]. cbn [List.find fmap list_fmap].
  rewrite not_elem_of_cons. case_bool_decide as Hj; [split; [done|intros [? _]; congruence]|]. rewrite IH. split; [by split|by intros [_ ?]].
Qed.

Lemma removes_ok new olds : NoDup (ld_name <$> olds) -> forall w, core w -> held w = [] ->
  exists w', each (remove_define new) olds w = Ok tt w' /\ core w' /\ held w' = [] /\
    (forall i, i ∈ olds -> ld_name i ∉ ld_name <$> new -> removed w' i) /\
    (forall j, ld_name j ∉ ld_name <$> olds -> removed w j -> removed w' j) /\
    (forall j, j ∈ new -> configured w j -> configured w' j) /\ others_same (ld_name <$> olds) w w'.
Proof.
  induction olds as [|i olds IH]; intros Hnd w Hc Hh.
  { exists w. split_and!; [done..|by intros ? ?%elem_of_nil|done|done|apply others_refl]. }
  cbn [fmap list_fmap] in Hnd |- *. apply NoDup_cons in Hnd as [Hn Hnd].
  destruct (remove_define_ok new i w Hc Hh) as (w1 & E1 & Hc1 & H1 & R1).
  destruct (IH Hnd w1 Hc1 H1) as (w2 & E2 & Hc2 & H2 & R2 & K2 & C2 & S2).
  exists w2. cbn [each]. rewrite (bind_ok _ _ _ _ _ E1). split_and!; [done..| | | |].
  - intros j [->|Hj]%elem_of_cons Hj'; [|by apply R2]. apply K2; [done|]. apply find_define_none in Hj'. rewrite Hj' in R1. by destruct R1.
  - intros j [Hne Hj]%not_elem_of_cons Hr. apply K2; [done|]. destruct (find_define new i); [by subst|]. destruct R1 as [O _]. by eapply removed_other.
  - intros j Hj Hcj. apply C2; [done|]. destruct (find_define new i) eqn:Ef; [by subst|]. destruct R1 as [O _].
    eapply configured_other; [exact O| |done]. intros E. apply find_define_none in Ef. apply Ef. rewrite <- E. apply list_elem_of_fmap. by exists j.
  - apply others_trans with w1; [|eapply others_weaken; [exact S2|by right]].
    destruct (find_define new i); [subst; apply others_refl|]. destruct R1 as [O _]. eapply others_changes; [exact O|by left].
Qed.

(** The root gets all that a removed logger is given, if it has one. *)
Definition forwards w i : Prop := forall id l level, m_loggers w !! ld_name i = Some id -> w_loggers w !! id = Some l ->
  routes w id level = match lg_root l with Some r => routes w r level | None => [] end.
Lemma removed_forwards w i : core w -> removed w i -> forwards w i.
Proof.
  intros Hc (id & l & Hn & Hl & _ & Hv & Ha) id' l' level Hn' Hl'. rewrite Hn in Hn'. injection Hn' as <-. rewrite Hl in Hl'. injection Hl' as <-.
  unfold routes at 1. rewrite Hl, Hv, Ha. replace (level_value UNKNOW <=? level_value level) with true by by destruct level.
  destruct (lg_root l) as [r|] eqn:Er; [|done]. destruct (core_loggers _ Hc id l Hl) as (_ & Hr & _). destruct (Hr r Er) as (lr & Hlr & Hnr).
  cbn [mbind option_bind]. unfold routes. rewrite Hlr, Hnr. cbn [mbind option_bind]. by destruct (lg_appenders lr).
Qed.
End apply.

Lemma logs_applied_ok {F} `{Posix F} strftime g_logger site fuel (old new : list LogDefine) (w : World F) :
  (forall p (f : F), fst (open_append p f) = true) -> core w -> held w = [] -> is_Some (w_loggers w !! g_logger) ->
  NoDup (ld_name <$> new) -> NoDup (ld_name <$> old) -> Forall (fun i => Forall known_type (ld_appenders i)) new ->
  (forall i, i ∈ new -> find_define old i <> Some i) ->
  exists w', on_logs_changed strftime g_logger site (S (S fuel)) old new w = Ok tt w' /\ core w' /\ held w' = [] /\
    (forall i, i ∈ new -> configured w' i) /\ (forall i, i ∈ old -> ld_name i ∉ ld_name <$> new -> removed w' i /\ forwards w' i) /\
    others_same (ld_name <$> new ++ old) w w'.
Proof.
  intros Ho Hc Hh [lg Hlg] Hn1 Hn2 Ht Hd. unfold on_logs_changed.
  assert (exists w1, WYZE_LOG strftime g_logger site (S (S fuel)) g_logger INFO (str "on_logger_conf_changed") w = Ok tt w1 /\ frame w w1) as (w1 & E1 & F1).
  { unfold WYZE_LOG. rewrite (bind_ok _ _ _ _ _ (the_logger_ok _ _ _ Hlg)). destruct (enabled INFO lg); [|by exists w].
    destruct (log_routes_ok strftime g_logger site Ho fuel g_logger INFO (site_event site g_logger INFO (str "on_logger_conf_changed")) w Hc)
      as (w1 & E & F1 & _); [intros k; rewrite Hh; apply not_elem_of_nil|by exists lg..|by exists w1]. }
  rewrite (bind_ok _ _ _ _ _ E1). assert (core w1) as Hc1 by by eapply core_frame.
  assert (held w1 = []) as H1 by (destruct F1 as (_ & _ & _ & -> & _); done).
  destruct (applies_ok strftime g_logger site (S (S fuel)) Ho old new Hn1 Ht Hd w1 Hc1 H1) as (w2 & E2 & Hc2 & H2 & C2 & _ & S2).
  rewrite (bind_ok _ _ _ _ _ E2). destruct (removes_ok new old Hn2 w2 Hc2 H2) as (w3 & E3 & Hc3 & H3 & R3 & _ & C3 & S3).
  exists w3. split_and!; [done..| | |].
  - intros i Hi. by apply C3, C2.
  - intros i Hi Hn. split; [by apply R3|]. apply removed_forwards; [done|by apply R3].
  - rewrite fmap_app. apply others_trans with w1; [by apply others_frame|]. apply others_trans with w2.
    + eapply others_weaken; [exact S2|]. intros n Hn. apply elem_of_app. by left.
    + eapply others_weaken; [exact S3|]. intros n Hn. apply elem_of_app. by right.
Qed.

(** C15: a change of the configuration is what the loggers are.  In a well-formed world without locks,
    when files can be opened, appenders are of the two known types, no logger is defined twice, and
    none is defined as it was before (such a definition, unchanged, crashes the listener:
    [unchanged_define_crashes]), the listener of [logs] returns, in a well-formed world.  Every logger that
    is defined then has its name, its level, its formatter when that is valid, and, in their order,
    appenders of the types, files, levels and formatters defined, those without a valid formatter
    having that of the logger.  Every logger that is defined no more has no appender and no level: what
    it is given goes to the appenders of its root, if it has one.  Every logger named by neither value,
    and every appender there was, is as it was, but for the streams of files, which the message of the
    listener may open. *)
Theorem logs_applied {F} `{Posix F} strftime g_logger site fuel (old new : list LogDefine) (w : World F) :
  (forall p (f : F), fst (open_append p f) = true) -> core w -> held w = [] -> is_Some (w_loggers w !! g_logger) ->
  NoDup (ld_name <$> new) -> NoDup (ld_name <$> old) -> Forall (fun i => Forall known_type (ld_appenders i)) new ->
  (forall i, i ∈ new -> find_define old i <> Some i) ->
  exists w', on_logs_changed strftime g_logger site (S (S fuel)) old new w = Ok tt w' /\ core w' /\ held w' = [] /\
    (forall i, i ∈ new -> configured w' i) /\ (forall i, i ∈ old -> ld_name i ∉ ld_name <$> new -> removed w' i /\ forwards w' i) /\
    others_same (ld_name <$> new ++ old) w w'.
Proof. apply logs_applied_ok. Qed.

(** ** The texts of loggers *)

Lemma string_less_lexlt a : forall b, string_less a b = lexlt (byte.unsigned <$> a) (byte.unsigned <$> b).
Proof.
  induction a as [|x a IH]; intros [|y b]; [done..|]. cbn. rewrite IH.
  destruct (Z.eqb_spec (byte.unsigned x) (byte.unsigned y)) as [->|]; [by rewrite Z.ltb_irrefl|by rewrite orb_false_r].
Qed.
#[export] Instance string_less_order : WeakOrder string_less.
Proof. constructor; intros *; rewrite ?string_less_lexlt; [apply wo_irrefl|apply wo_trans|apply wo_incomp]. Qed.
Lemma string_less_eqv a : forall b, eqv string_less a b = true -> a = b.
Proof.
  unfold eqv. induction a as [|x a IH]; intros [|y b]; [done..|]. cbn. rewrite (Z.eqb_sym (byte.unsigned y)).
  destruct (Z.eqb_spec (byte.unsigned x) (byte.unsigned y)) as [E|E].
  - intros Hab. apply IH in Hab as ->. f_equal. by rewrite <- (byte.of_Z_unsigned x), E, byte.of_Z_unsigned.
  - rewrite andb_true_iff, !negb_true_iff, !Z.ltb_ge. intros []. lia.
Qed.

(** The names of a map, each once, in their order *)
Lemma logger_names_ok (m : gmap bytes nat) : sorted string_less (logger_names m) /\ forall name, name ∈ logger_names m <-> is_Some (m !! name).
Proof.
  assert (forall l : list bytes, sorted string_less (foldr (set_insert string_less) [] l) /\
    forall x, x ∈ foldr (set_insert string_less) [] l <-> x ∈ l) as Hl.
  { induction l as [|y l [Hs Hin]]; [split; [constructor|done]|]. cbn [foldr]. split; [apply set_insert_sorted; [exact _|exact Hs]|]. intros x.
    set (s := foldr (set_insert string_less) [] l) in *. destruct (set_find string_less y s) as [z|] eqn:E.
    - unfold set_insert. rewrite E, elem_of_cons. destruct (proj1 (set_find_Some string_less y s z Hs) E) as [Hz <-%string_less_eqv].
      rewrite <- Hin. split; [by right|]. by intros [->|].
    - rewrite (elem_of_set_insert string_less y s x E), elem_of_cons. by rewrite Hin. }
  destruct (Hl (fst <$> map_to_list m)) as [Hs Hin]. split; [exact Hs|]. intros name. unfold logger_names. rewrite Hin, list_elem_of_fmap. split.
  - intros ([k v] & -> & Hk%elem_of_map_to_list). by exists v.
  - intros [v Hv]. exists (name, v). split; [done|]. by apply elem_of_map_to_list.
Qed.

Section dump.
Context {F N : Type} `{YamlLaws N}.
Implicit Types (w : World F) (x : LogAppender) (l : Logger).

Lemma collect_ok {A B C} (f : A -> M (World F) B) (g : C -> B) (R : A -> C -> Prop) w xs :
  (forall a, a ∈ xs -> exists c, f a w = Ok (g c) w /\ R a c) -> exists cs, collect f xs w = Ok (g <$> cs) w /\ Forall2 R xs cs.
Proof.
  induction xs as [|a xs IH]; intros Hf; [exists []; by split; [|constructor]|]. destruct (Hf a) as (c & Ec & Hc); [by left|].
  destruct IH as (cs & Ecs & Hcs); [intros a' Ha; apply Hf; by right|]. exists (c :: cs). cbn [collect].
  rewrite (bind_ok _ _ _ _ _ Ec), (bind_ok _ _ _ _ _ Ecs). by split; [|constructor].
Qed.
(** What only looks at the world under a lock leaves it as it is. *)
Lemma looks_ok {A} lk (m : M (World F) A) w a : lk ∉ held w -> m (set_held (lk :: held w) w) = Ok a (set_held (lk :: held w) w) ->
  with_lock lk m w = Ok a w.
Proof. intros Hl E. rewrite (with_lock_ok _ _ _ _ _ Hl E). by rewrite set_held_twice. Qed.
Lemma yaml_Load_emit (n : N) w : yaml_Load (y_emit n) w = Ok n w.
Proof. unfold yaml_Load. by rewrite y_load_emit. Qed.

(** *** Writing *)

Abbreviation dumped x := (LogAppender_node (N := N) x).
Abbreviation logger_node c := (Logger_node (N := N) (fst c) (LogAppender_node <$> snd c)).
(** A logger, and its appenders *)
Definition logger_at w (id : nat) (c : Logger * list LogAppender) : Prop :=
  w_loggers w !! id = Some (fst c) /\ Forall2 (fun a x => w_appenders w !! a = Some x /\ has_format x) (lg_appenders (fst c)) (snd c).

Lemma LogAppender_dump_ok a x w : AppenderLock a ∉ held w -> w_appenders w !! a = Some x ->
  LogAppender_toYamlString a w = Ok (y_emit (dumped x)) w.
Proof. intros Hl Hx. apply looks_ok; [done|]. by rewrite (bind_ok _ _ _ _ _ (the_appender_ok a (set_held _ w) x Hx)). Qed.
Lemma Logger_dump_ok id l w : core w -> LoggerLock id ∉ held w -> (forall a, AppenderLock a ∉ held w) -> w_loggers w !! id = Some l ->
  exists c, Logger_toYamlString id w = Ok (y_emit (logger_node c)) w /\ logger_at w id c.
Proof.
  intros Hc Hl Ha Hid. set (w1 := set_held (LoggerLock id :: held w) w). destruct (core_loggers _ Hc id l Hid) as (_ & _ & Happ).
  destruct (collect_ok (fun a => text <- LogAppender_toYamlString (N := N) a ;; yaml_Load text) LogAppender_node
    (fun a x => w_appenders w !! a = Some x /\ has_format x) w1 (lg_appenders l)) as (xs & E & Hxs).
  { intros a Hin. destruct (Happ a Hin) as (x & Hx & Hf). exists x. split; [|done].
    rewrite (bind_ok _ _ _ _ _ (LogAppender_dump_ok a x w1 ltac:(by intros [?|?%Ha]%elem_of_cons) Hx)). apply yaml_Load_emit. }
  exists (l, xs). split; [|done]. apply looks_ok; [done|]. fold w1. rewrite (bind_ok _ _ w1 l w1) by by apply the_logger_ok.
  by rewrite (bind_ok _ _ _ _ _ E).
Qed.
Lemma manager_dump_ok w : core w -> held w = [] -> exists cs,
  LoggerManager_toYamlString w = Ok (y_emit (y_seq ((fun c => logger_node c) <$> cs))) w /\
  Forall2 (fun name c => exists id, m_loggers w !! name = Some id /\ logger_at w id c) (logger_names (m_loggers w)) cs.
Proof.
  intros Hc Hh. set (w1 := set_held [ManagerLock] w).
  destruct (collect_ok (fun name => id <- or_undef null_deref (m_loggers w !! name) ;; text <- Logger_toYamlString (N := N) id ;; yaml_Load text)
    (fun c => logger_node c) (fun name c => exists id, m_loggers w !! name = Some id /\ logger_at w id c) w1 (logger_names (m_loggers w))) as (cs & E & Hcs).
  { intros name Hin. apply (proj2 (logger_names_ok _)) in Hin as [id Hid]. destruct (core_names _ Hc name id Hid) as (l & Hl & _).
    destruct (Logger_dump_ok id l w1) as (c & Ec & Hat); [by apply core_held|by intros ?%list_elem_of_singleton|by intros a ?%list_elem_of_singleton|done|].
    exists c. split; [|by exists id]. rewrite Hid, bind_some, (bind_ok _ _ _ _ _ Ec). apply yaml_Load_emit. }
  exists cs. split; [|done]. apply looks_ok; rewrite Hh; [apply not_elem_of_nil|]. fold w1. rewrite bind_get. by rewrite (bind_ok _ _ _ _ _ E).
Qed.

(** *** Reading *)

Definition pattern_of (f : option LogFormatter) : bytes := default [] (m_pattern <$> f).
(** The definitions that stand in the texts *)
Definition define_appender x : LogAppenderDefine :=
  match ap_kind x with
  | StdoutAppender => mkAppenderDefine 2 UNKNOW (pattern_of (ap_formatter x)) []
  | FileAppender filename _ _ => mkAppenderDefine 1 UNKNOW (pattern_of (ap_formatter x)) filename
  end.
Definition define_logger (c : Logger * list LogAppender) : LogDefine :=
  mkLogDefine (lg_name (fst c)) (lg_level (fst c)) (pattern_of (lg_format (fst c))) (define_appender <$> snd c).

Lemma dumped_back x : has_format x -> read_appender (dumped x) = Some (Some (define_appender x)).
Proof.
  destruct x as [kind level f own]. intros [[g Hg] Ho]. cbn in Hg, Ho. subst f own.
  unfold read_appender, LogAppender_node, level_field, formatter_field, field, define_appender, pattern_of. cbn [ap_kind ap_level ap_formatter ap_hasFormatter].
  destruct kind as [|filename last is_open], (negb (bool_decide (level = UNKNOW))); cbn [app];
    repeat (first [read_key | rewrite bool_decide_true by done | rewrite bool_decide_false by (by vm_compute)]); done.
Qed.
Lemma dumped_all xs : Forall has_format xs -> mapM read_appender (LogAppender_node (N := N) <$> xs) = Some (Some ∘ define_appender <$> xs).
Proof. induction 1 as [|x xs Hx _ IH]; [done|]. cbn [fmap list_fmap mapM]. rewrite (dumped_back x Hx). cbn [mbind option_bind]. by rewrite IH. Qed.
Lemma logger_back c : is_Some (lg_format (fst c)) -> Forall has_format (snd c) ->
  LogDefine_from (y_emit (logger_node c)) = Some (define_logger c).
Proof.
  destruct c as [[name level apps f root] xs]. cbn [fst snd lg_format]. intros [g ->] Hx.
  assert (omap id (Some ∘ define_appender <$> xs) = define_appender <$> xs) as Ho.
  { clear Hx. induction xs as [|x xs IH]; [done|]. cbn. by rewrite <- IH. }
  pose proof (dumped_all xs Hx) as E. unfold LogDefine_from, Logger_node, level_field, formatter_field, field, define_logger, pattern_of.
  rewrite y_load_emit. cbn [mbind option_bind fst snd lg_name lg_level lg_format].
  destruct (bool_decide (level = UNKNOW)) eqn:El; [apply bool_decide_eq_true in El; subst level|]; destruct xs as [|x xs];
    cbn [negb fmap list_fmap app]; repeat read_key; rewrite ?y_items_seq, ?level_roundtrip; try done.
  all: cbn [fmap list_fmap] in E; rewrite E; cbn [mbind option_bind]; cbn [fmap list_fmap] in Ho; by rewrite Ho.
Qed.
Lemma loggers_back w names cs : core w -> Forall2 (fun name c => exists id, m_loggers w !! name = Some id /\ logger_at w id c) names cs ->
  mapM (fun n => LogDefine_from (y_emit n)) ((fun c => logger_node c) <$> cs) = Some (define_logger <$> cs) /\
  ld_name <$> (define_logger <$> cs) = names.
Proof.
  intros Hc. induction 1 as [|name c names cs (id & Hid & Hl & Hxs) _ [IH1 IH2]]; [done|]. cbn [fmap list_fmap mapM].
  destruct (core_loggers _ Hc id _ Hl) as (Hf & _ & _). rewrite (logger_back c Hf).
  - cbn [mbind option_bind]. rewrite IH1. split; [done|]. cbn in IH2 |- *. rewrite IH2. f_equal.
    destruct (core_names _ Hc name id Hid) as (l & Hl' & Hn). congruence.
  - apply Forall_forall. intros x Hx. apply list_elem_of_lookup in Hx as [i Hi]. by destruct (Forall2_lookup_r _ _ _ _ _ Hxs Hi) as (a & _ & _ & ?).
Qed.
End dump.

(** *** Applying what was written *)

(** A formatter that its pattern gives *)
Definition plain (f : LogFormatter) : Prop := f = new_LogFormatter (m_pattern f) /\ m_error f = false /\ m_pattern f <> [].
Definition formatters_plain {F} (w : World F) : Prop :=
  (forall id l f, w_loggers w !! id = Some l -> lg_format l = Some f -> plain f) /\
  (forall a x f, w_appenders w !! a = Some x -> ap_formatter x = Some f -> plain f).
Lemma formatter_plain f old : plain f -> formatter_for (m_pattern f) old = Some f.
Proof.
  intros (E & Hm & Hne). unfold formatter_for. destruct (m_pattern f) as [|b p]; [done|]. cbn [empty]. by rewrite <- E, Hm.
Qed.

(** The appender [b] writes as [a] does, but at every level. *)
Definition appender_file (k : AppenderKind) : option bytes := match k with StdoutAppender => None | FileAppender filename _ _ => Some filename end.
Definition reappears {F G} (w : World F) (w' : World G) (a b : nat) : Prop := exists x y,
  w_appenders w !! a = Some x /\ w_appenders w' !! b = Some y /\ appender_file (ap_kind y) = appender_file (ap_kind x) /\
  ap_formatter y = ap_formatter x /\ ap_level y = UNKNOW.

Lemma configured_reappears {F G} (w : World F) (w' : World G) a n x fmt y :
  w_appenders w !! a = Some x -> has_format x -> (forall f, ap_formatter x = Some f -> plain f) ->
  w_appenders w' !! n = Some y -> configured_as (define_appender x) fmt y -> reappears w w' a n.
Proof.
  intros Hx [[f Hf] _] Hp Hy (Hl & Hy' & Hk). exists x, y. pose proof (Hp f Hf) as Hpf.
  unfold define_appender, pattern_of in *. rewrite Hf in *. cbn [fmap option_fmap option_map default] in *.
  destruct (ap_kind x), (ap_kind y); cbn in Hl, Hy', Hk; rewrite ?formatter_plain in Hy' by done; try done.
  - by destruct Hk as [? _].
  - destruct Hk as (_ & -> & _). by split_and!.
Qed.

(** A logger that is as its definition says is the logger that was written. *)
Definition reapplied {F G} (w : World F) (w' : World G) (name : bytes) l : Prop := exists id' l',
  m_loggers w' !! name = Some id' /\ w_loggers w' !! id' = Some l' /\ lg_name l' = name /\ lg_level l' = lg_level l /\
  lg_format l' = lg_format l /\ Forall2 (reappears w w') (lg_appenders l) (lg_appenders l').
Lemma logger_reapplied {F G} (w : World F) (w' : World G) id c : core w -> formatters_plain w -> logger_at w id c ->
  configured w' (define_logger c) -> reapplied w w' (lg_name (fst c)) (fst c).
Proof.
  intros Hc [Hp1 Hp2] [Hl Hxs] (id' & l' & Hid' & Hl' & Hn' & Hlev & Hfmt & Happ). set (l := fst c) in *.
  destruct (core_loggers _ Hc id l Hl) as ([f Hf] & _ & _). pose proof (Hp1 id l f Hl Hf) as (Ef & Em & Hne).
  exists id', l'. split_and!; [done..| |].
  - change (ld_formatter (define_logger c)) with (pattern_of (lg_format l)) in Hfmt. rewrite Hf in *. change (pattern_of (Some f)) with (m_pattern f) in Hfmt.
    rewrite <- Ef in Hfmt. apply Hfmt; [by destruct (m_pattern f)|done].
  - change (ld_appenders (define_logger c)) with (define_appender <$> snd c) in Happ. clear -Hxs Happ Hp2. revert Happ. generalize (lg_appenders l'), (lg_format l'). clear l'.
    induction Hxs as [|a x la lx [Hx Hx'] _ IH]; intros ns fmt Happ; [apply Forall2_nil_inv_l in Happ as ->; constructor|].
    apply Forall2_cons_inv_l in Happ as (n & ns' & (y & Hy & Hy') & Hns & ->). constructor; [|by eapply IH].
    apply (configured_reappears w w' a n x fmt y Hx Hx'); [|exact Hy|exact Hy'].
    intros f. by apply (Hp2 a x f).
Qed.
Lemma defines_known cs : Forall (fun i => Forall known_type (ld_appenders i)) (define_logger <$> cs).
Proof.
  apply Forall_fmap, Forall_true. intros c. apply Forall_fmap, Forall_true. intros x.
  cbn. unfold known_type, define_appender. destruct (ap_kind x); [by right|by left].
Qed.
Lemma defines_sorted defs : sorted string_less (ld_name <$> defs) -> sorted LogDefine_lt defs.
Proof.
  induction defs as [|i defs IH]; intros Hs; [constructor|]. apply StronglySorted_inv in Hs as [Hs Hi].
  constructor; [by apply IH|]. by apply Forall_map in Hi.
Qed.

(** C17: What the loggers say of themselves makes them again.  In a well-formed world without locks, in
    which every formatter is that of a valid pattern, [LoggerManager::toYamlString] returns and
    changes nothing; its text is read as definitions, one for each logger, in the order of their
    names; and a process with any loggers that applies them, where [logs] was empty, then has for each of
    these loggers one of the same name, level and formatter, with appenders of the same kinds, files and
    formatters in the same order.  What is lost is the levels of the appenders: they write at every one. *)
Theorem loggers_reloaded {F G N} `{Posix G} `{YamlLaws N} strftime g_logger site fuel (w : World F) (w0 : World G) :
  core w -> held w = [] -> formatters_plain w ->
  (forall p (f : G), fst (open_append p f) = true) -> core w0 -> held w0 = [] -> is_Some (w_loggers w0 !! g_logger) ->
  exists text defs w', LoggerManager_toYamlString (N := N) w = Ok text w /\ vector_from (N := N) LogDefine_from text = Some defs /\
    sorted LogDefine_lt defs /\ (forall name, name ∈ ld_name <$> defs <-> is_Some (m_loggers w !! name)) /\
    on_logs_changed strftime g_logger site (S (S fuel)) [] defs w0 = Ok tt w' /\
    forall name id l, m_loggers w !! name = Some id -> w_loggers w !! id = Some l -> reapplied w w' name l.
Proof.
  intros Hc Hh Hp Ho Hc0 Hh0 Hg. destruct (manager_dump_ok (N := N) w Hc Hh) as (cs & E & Hcs).
  destruct (loggers_back (N := N) w _ cs Hc Hcs) as [Eb En]. destruct (logger_names_ok (m_loggers w)) as [Hs Hin].
  destruct (logs_applied_ok strftime g_logger site fuel [] (define_logger <$> cs) w0 Ho Hc0 Hh0 Hg) as (w' & Ea & _ & _ & Hconf & _).
  { rewrite En. exact (sorted_NoDup string_less _ Hs). }
  { constructor. }
  { apply defines_known. }
  { done. }
  eexists _, (define_logger <$> cs), w'. split_and!; [exact E| | |by rewrite En|exact Ea|].
  - unfold vector_from, cast_items. rewrite y_load_emit. cbn [mbind option_bind]. by rewrite y_items_seq.
  - apply defines_sorted. by rewrite En.
  - intros name id l Hid Hl. destruct (proj1 (list_elem_of_lookup _ _) (proj2 (Hin name) (ex_intro _ id Hid))) as [k Hk].
    destruct (Forall2_lookup_l _ _ _ _ _ Hcs Hk) as (c & Hck & id1 & Hid1 & Hat). rewrite Hid in Hid1. injection Hid1 as <-.
    destruct (core_names _ Hc name id Hid) as (l0 & Hl0 & <-). pose proof Hat as [Hl1 _]. replace l with (fst c) by congruence.
    replace l0 with (fst c) by congruence. apply (logger_reapplied w w' id c Hc Hp Hat), Hconf, list_elem_of_fmap. exists c.
    split; [done|]. by eapply list_elem_of_lookup_2.
Qed.

(** ** Changes to run the model with *)

Import OpenFs ConfigSpec.Sample.
Definition define1 : LogDefine := mkLogDefine (str "app") INFO [] [mkAppenderDefine 1 WARING [] (str "/tmp/app.log"); mkAppenderDefine 2 DEBUG (str "%m%n") []].
Definition define2 : LogDefine := mkLogDefine (str "old") INFO [] [].

Lemma LogDefine_roundtrip_witness : LogDefine_to (N := gen_tree bytes) define1 ≫= LogDefine_from (N := gen_tree bytes) =
  Some (mkLogDefine (str "app") INFO [] [mkAppenderDefine 1 UNKNOW [] (str "/tmp/app.log"); mkAppenderDefine 2 UNKNOW (str "%m%n") []]).
Proof. apply (LogDefine_roundtrip (N := gen_tree bytes) define1). constructor; [by left|constructor; [by right|constructor]]. Defined.

Lemma unchanged_define_crashes_witness :
  returned (on_logs_changed time_text 1 site0 6 [define1] [define1; define2] (world0 tt)) = None.
Proof. apply (unchanged_define_crashes time_text 1 site0 6 [define1] [define1; define2] define1); [by left|reflexivity]. Defined.

Lemma logs_applied_witness : exists w', on_logs_changed time_text 1 site0 4 [define2] [define1] (world0 tt) = Ok tt w' /\
  configured w' define1 /\ removed w' define2.
Proof.
  destruct (reachable_core time_text 1 site0 tt (world0 tt) (world0_reachable tt)) as [Hc Hh].
  destruct (logs_applied (F := unit) time_text 1 site0 2 [define2] [define1] (world0 tt)) as (w' & E & _ & _ & C & R & _).
  - done.
  - exact Hc.
  - exact Hh.
  - by eexists.
  - apply NoDup_singleton.
  - apply NoDup_singleton.
  - constructor; [|constructor]. constructor; [by left|]. constructor; [by right|constructor].
  - intros i ->%list_elem_of_singleton. done.
  - exists w'. split_and!; [exact E|apply C; by left|]. refine (proj1 (R define2 _ _)); [by left|]. intros Hi%list_elem_of_singleton. done.
Defined.

(** The loggers of a process that was configured with [define1], made again in another one *)
Definition dumped_world : World unit := ran (on_logs_changed time_text 1 site0 4 [] [define1]) (world0 tt).
Lemma dumped_world_core : core dumped_world /\ held dumped_world = [].
Proof.
  destruct (reachable_core time_text 1 site0 tt (world0 tt) (world0_reachable tt)) as [Hc Hh].
  destruct (logs_applied_ok (F := unit) time_text 1 site0 2 [] [define1] (world0 tt)) as (w' & E & Hc' & Hh' & _).
  - done.
  - exact Hc.
  - exact Hh.
  - by eexists.
  - apply NoDup_singleton.
  - constructor.
  - constructor; [|constructor]. constructor; [by left|]. constructor; [by right|constructor].
  - done.
  - unfold dumped_world, ran. rewrite E. exact (conj Hc' Hh').
Qed.
Lemma dumped_world_plain : formatters_plain dumped_world.
Proof.
  assert (forall l : list LogFormatter, forallb (fun f => negb (m_error f) && negb (empty (m_pattern f))) l = true ->
    (fun f => new_LogFormatter (m_pattern f)) <$> l = l -> Forall plain l) as Hl.
  { induction l as [|f l IH]; [constructor|]. cbn. intros [[Hm He]%andb_true_iff Hl]%andb_true_iff [= E El]. constructor; [|by apply IH].
    split_and!; [done|by apply negb_true_iff|]. by destruct (m_pattern f). }
  split.
  - intros id l f Hid Hf. assert (Forall plain (omap lg_format (w_loggers dumped_world))) as Ha by (apply Hl; vm_compute; reflexivity).
    rewrite Forall_forall in Ha. apply Ha, list_elem_of_omap. exists l. split; [by eapply list_elem_of_lookup_2|done].
  - intros a x f Hid Hf. assert (Forall plain (omap ap_formatter (w_appenders dumped_world))) as Ha by (apply Hl; vm_compute; reflexivity).
    rewrite Forall_forall in Ha. apply Ha, list_elem_of_omap. exists x. split; [by eapply list_elem_of_lookup_2|done].
Qed.
Lemma loggers_reloaded_witness : exists text defs w',
  LoggerManager_toYamlString (N := gen_tree bytes) dumped_world = Ok text dumped_world /\
  vector_from (N := gen_tree bytes) LogDefine_from text = Some defs /\
  on_logs_changed time_text 1 site0 4 [] defs (world0 tt) = Ok tt w' /\ is_Some (m_loggers w' !! str "app").
Proof.
  destruct (reachable_core time_text 1 site0 tt (world0 tt) (world0_reachable tt)) as [Hc Hh].
  destruct (loggers_reloaded (F := unit) (G := unit) (N := gen_tree bytes) time_text 1 site0 2 dumped_world (world0 tt)) as (text & defs & w' & E & Ed & _ & _ & Ea & Hr).
  - apply dumped_world_core.
  - apply dumped_world_core.
  - exact dumped_world_plain.
  - done.
  - exact Hc.
  - exact Hh.
  - by eexists.
  - exists text, defs, w'. split_and!; [exact E|exact Ed|exact Ea|].
    assert (m_loggers dumped_world !! str "app" = Some 2%nat) as Hn by (vm_compute; reflexivity).
    destruct (w_loggers dumped_world !! 2%nat) as [l|] eqn:El; [|exfalso; vm_compute in El; discriminate El].
    destruct (Hr (str "app") 2%nat l Hn El) as (id' & l' & Hid & _). by exists id'.
Defined.
